(* ===== verification/_CoqProject ===== *)
-Q . S2P
Prelude.v
KList.v
KListSort.v
KListProps.v
Bitmap.v
Hash.v
Thread.v
ThreadInv.v
ThreadProps.v
Arith64.v
Intq.v
Str.v
Heapsort.v
Stdio.v
Vaddr.v
Palloc.v
Malloc.v
Pagedir.v
Cmdline.v
Lcs.v
LcsThreads.v
Block.v
Driver.v
Inode.v
FreeMap.v
File.v
Directory.v
Filesys.v
Vm.v
VmSwap.v
VmPaging.v
AddressSpace.v
VmProps.v
ProcessWait.v
ProcessWaitInv.v
ProcessWaitProps.v
Load.v
LoadProps.v
LoadStack.v
Syscall.v
SyscallFd.v
SyscallMem.v
SyscallLock.v
SyscallFile.v
Ide.v
IdeProps.v
IdeInit.v
Partition.v
Disks.v
Ustar.v
Fsutil.v
Random.v
Init.v
Paging.v
Idt.v
Clock.v
Vga.v
Kbd.v
