(* ===== verification/Prelude.v ===== *)
(** * A verification development of the Pintos kernel and of project4

    The repository holds a Pintos kernel for IA-32 (src/pintos/src), with the
    students' alarm clock, user processes and virtual memory, and three
    programs that find longest common substrings in parallel (src/project4).
    This library translates the code into executable functions and relations
    and proves what the code promises.

    ** The program and its parts

    The kernel is a stack of components.  Lists, bitmaps, hash tables and a C
    library serve all of it.  Threads run on one processor and synchronise
    with semaphores, locks and condition variables, which disable interrupts;
    the timer interrupt preempts them and wakes sleepers.  The page allocator
    manages physical memory, the block allocator cuts its pages into blocks,
    and page directories give each process an address space.  The file system
    keeps inodes, directories and a free map on a block device, which is a
    partition of a disk behind the ATA controller.  Virtual
    memory puts a supplemental page table per process over the page
    directories, with a frame table, a clock and a swap area.  A process is
    loaded from an ELF file, runs, calls the kernel, exits, and its parent
    waits for it.  At start-up the kernel reads its command line, builds its
    page tables and descriptor tables, programs the interrupt controllers and
    the timer, finds disks and partitions, and runs the actions it was asked
    for; keyboard and display are its console.

    ** The files

    - Prelude: machine integers with their wrap-around, the error monad [res]
      (a value, or the way in which the code stops: a failed [ASSERT], a
      panic, a fault, blocking for ever), bounded loops, lists, tactics.
    - KList, KListSort, KListProps: lib/kernel/list.c on a heap of nodes.
      The operations keep the links well formed, and [list_sort] sorts, is
      stable and terminates.
    - Bitmap: lib/kernel/bitmap.c, down to the bits of its words.
    - Hash: lib/kernel/hash.c; a table is a dictionary, through rehashing
      and failing allocations.
    - Thread, ThreadInv, ThreadProps: threads/thread.c, threads/synch.c,
      devices/timer.c and the parts of threads/interrupt.c they use, as one
      machine whose threads run any code; mutual exclusion, no lost
      wake-ups, and the alarm clock, in every reachable state.
    - Arith64: lib/arithmetic.c, 64-bit division from the DIV instruction.
    - Intq: devices/intq.c, with threads and interrupt handlers interleaved.
    - Str: lib/string.c; Heapsort: [sort] and [binary_search] of
      lib/stdlib.c; Stdio: lib/stdio.c and [atoi].  The functions stay inside
      the objects they are given, terminate and compute what they should.
    - Vaddr, Palloc, Malloc: threads/vaddr.h, threads/palloc.c and
      threads/malloc.c; the allocators hand out memory that nobody else has.
    - Pagedir: userprog/pagedir.c and threads/pte.h; the tables implement a
      map from user pages to frames for each process.  AddressSpace: over a
      whole run, with directories created and destroyed and memory allocated,
      the tables stay well typed and the processor caches no translation that
      is gone.
    - Cmdline: the layout of the arguments on the stack of a new process.
    - Lcs, LcsThreads: src/project4; the dynamic program finds a longest
      common substring, and the threads print the results of the sequential
      program under every schedule.
    - Block, Inode, FreeMap, File, Directory, Filesys: devices/block.c and
      filesys/; what is written is read back, names are found.
    - Vm: vm/swap.c, vm/frame.c and vm/page.c.  VmSwap: the swap area is a
      finite map.  VmPaging: what becomes of the contents of pages as they move
      between memory, swap and files, in every case of [page_out], among them
      those that lose a page or stop the kernel; which frame the clock picks;
      what a page fault does.  VmProps: the theorems.
    - ProcessWait, ProcessWaitInv, ProcessWaitProps: the life of processes in
      userprog/process.c, as a machine that interleaves the accesses of all
      of them to the shared [wait_status] objects; what [process_wait]
      returns.
    - Load, LoadProps, LoadStack: [load] and its helpers in
      userprog/process.c; what a new process finds in its memory.
    - Syscall: userprog/syscall.c, userprog/exception.c and the part of
      [intr_handler] that runs them, on top of the components above; a call
      returns, ends the process or turns the machine off.  SyscallFd: the
      handles of a process are a finite map to open files, which no call
      breaks but maybe [exec] and [wait], whose callees are arguments here, and
      the end of the process closes the files.  SyscallMem: the kernel
      reads the bytes that the process sees; a whole write system call; two
      calls that cannot work.  SyscallLock: no call keeps the lock of the file
      system.  SyscallFile: [read] and [write] move bytes between a file and
      the memory of the process, and what was written is read back.
    - Driver: devices with the operations of their drivers, as a class with
      laws: a device whose driver obeys them refines the device of Block.
      Ide, IdeProps, IdeInit: devices/ide.c obeys the laws and finds the
      disks.  Partition: devices/partition.c, over any driver, obeys them too.
      Disks: partitions on disks, down to the ports of the controller.
    - Ustar: lib/ustar.c, what is put into a header is read from it.  Fsutil:
      filesys/fsutil.c, files that were put into an archive come out of it.
    - Random: lib/random.c, whose state stays a permutation.
    - Init: the command line, options, actions and roles of devices in
      threads/init.c.  Paging: its [paging_init]; the processor finds exactly
      the kernel's view of physical memory in the tables.
    - Idt: userprog/gdt.c, the tables and controllers of threads/interrupt.c
      and [exception_init]; which interrupts user programs can call, and where
      the processor goes for each.
    - Clock: devices/pit.c, speaker.c, rtc.c and the calibration and delays of
      devices/timer.c.
    - Vga: devices/vga.c, equivalent to a terminal.  Kbd: devices/kbd.c and
      input.c, equivalent to a table of the keyboard layout.

    ** Conventions

    A C function is a function of the same name.  State is passed
    explicitly: each component has a record of what its code keeps in memory.
    An operation that can stop returns [res]; a theorem that says that it
    returns [Ok] therefore also says that no assertion fails and that no
    access leaves its object.  Where threads interleave, a step is what the
    code does between two points where others can run, and the theorems
    quantify over all schedules.  Whether an allocation succeeds, what
    uninitialised memory holds, what other threads do while a thread sleeps,
    are arguments or parts of the state, so that theorems hold for all of
    them.  Integers have their width on IA-32.

    ** Fuel

    [loop n body s] runs at most [n] turns of a C loop; running out is the
    error [EFuel].  [n] is always more than the code can need: the length of
    the list, the number of bits of a bitmap, the bytes of a string plus one,
    the pages of the address space for [load_segment], twice the number of
    frames for the clock.  The theorems prove that a result is returned, so
    that they also say that the fuel is enough and the loop terminates.

    A recursion that the code does not bound has its fuel as an argument:
    [read_partition_table], which needs one unit when there are no extended
    partitions and for which no fuel is enough when one leads into the disk,
    [run_actions], for which one more than the number of words is enough, and
    the clock of rtc.c, where one turn is enough when the second does not
    change.

    ** Hardware

    What the drivers talk to is modelled beside them, from its documentation:
    the ATA controller with its registers, drives, delays and interrupts
    (Ide), the interrupt controllers and the formats in which the processor
    reads descriptors (Idt), its walk of the page tables (Paging), the
    interval timer (Clock), the cursor registers of the display (Vga).  Times
    that the hardware takes are part of its state, and the theorems hold for
    all of them up to the limits that the drivers wait for.

    ** Not modelled

    - devices/serial.c and lib/kernel/console.c: a second source and sink of
      the bytes that Kbd and Vga handle, through the queues of Intq, and a
      lock around output; devices/shutdown.c: turns the machine off.
    - threads/loader.S, start.S, switch.S, intr-stubs.S: assembly that runs
      before C or below it; userprog/tss.c: two stores into a page.
    - [bss_init], [usage] and [run_task] of threads/init.c, [fsutil_cat]: they
      clear memory that is zero in C, print, or call modelled functions.
    - lib/debug.c and printing of statistics and messages: only output.
    - lib/user/, examples/, tests/: programs that run on the kernel.
    - utils/: tools that run the simulator on the host.
    - MPI's processes in p4_mpi.c: its [lcs_dynamic] and its shares are those
      of LcsThreads, the communication is a library. *)

From Stdlib Require Export ZArith Lia Permutation Sorted.
From stdpp Require Export base numbers list gmap strings fin_maps.

#[global] Open Scope Z_scope.

(** ** Machine integers

    The kernel is compiled for IA-32: [int], [unsigned], [long], [size_t]
    and pointers are 32 bits wide, [long long] is 64.  An unsigned [w]-bit
    value is a [Z] in [0, 2^w); [wrap w] is the conversion to it, [swrap w]
    the conversion to the signed type of the same width. *)

Definition wrap (w x : Z) : Z := x mod 2 ^ w.
Definition swrap (w x : Z) : Z := (x + 2 ^ (w - 1)) mod 2 ^ w - 2 ^ (w - 1).

Definition u8 (x : Z) : Z := wrap 8 x.
Definition u32 (x : Z) : Z := wrap 32 x.
Definition u64 (x : Z) : Z := wrap 64 x.
Definition s32 (x : Z) : Z := swrap 32 x.
Definition s64 (x : Z) : Z := swrap 64 x.

Definition is_u8 (x : Z) : Prop := 0 ≤ x < 2 ^ 8.
Definition is_u32 (x : Z) : Prop := 0 ≤ x < 2 ^ 32.
Definition is_u64 (x : Z) : Prop := 0 ≤ x < 2 ^ 64.
Definition is_s32 (x : Z) : Prop := - 2 ^ 31 ≤ x < 2 ^ 31.
Definition is_s64 (x : Z) : Prop := - 2 ^ 63 ≤ x < 2 ^ 63.

Definition UINT_MAX : Z := 2 ^ 32 - 1.
Definition INT_MAX : Z := 2 ^ 31 - 1.

(** [c_lia] opens the width conversions and leaves a linear goal to [lia],
    with the moduli as Euclidean equations. *)
Ltac c_unfold :=
  unfold is_u8, is_u32, is_u64, is_s32, is_s64,
    u8, u32, u64, s32, s64, wrap, swrap, UINT_MAX, INT_MAX in *;
  change (2 ^ 8) with 256 in *;
  change (2 ^ 31) with 2147483648 in *;
  change (2 ^ 32) with 4294967296 in *;
  change (2 ^ 63) with 9223372036854775808 in *;
  change (2 ^ 64) with 18446744073709551616 in *;
  change (2 ^ (32 - 1)) with 2147483648 in *;
  change (2 ^ (64 - 1)) with 9223372036854775808 in *.
Ltac c_lia := c_unfold; Z.div_mod_to_equations; lia.

Lemma u8_range x : is_u8 (u8 x).
Proof. c_lia. Qed.
Lemma u32_range x : is_u32 (u32 x).
Proof. c_lia. Qed.
Lemma u64_range x : is_u64 (u64 x).
Proof. c_lia. Qed.
Lemma s32_range x : is_s32 (s32 x).
Proof. c_lia. Qed.
Lemma u8_small x : is_u8 x → u8 x = x.
Proof. intros. c_unfold. by apply Z.mod_small. Qed.
Lemma u32_small x : is_u32 x → u32 x = x.
Proof. intros. c_unfold. by apply Z.mod_small. Qed.
Lemma u64_small x : is_u64 x → u64 x = x.
Proof. intros. c_unfold. by apply Z.mod_small. Qed.
Lemma s32_small x : is_s32 x → s32 x = x.
Proof. intros. c_unfold. rewrite Z.mod_small; lia. Qed.
Lemma s64_small x : is_s64 x → s64 x = x.
Proof. intros. c_unfold. rewrite Z.mod_small; lia. Qed.

(** A value is unsigned of width [w] when no bit from [w] on is set. *)
Lemma wrap_bits w x i : 0 ≤ i < w → Z.testbit (wrap w x) i = Z.testbit x i.
Proof. intros. unfold wrap. by rewrite Z.mod_pow2_bits_low by lia. Qed.

Lemma small_bits w x :
  0 ≤ w → 0 ≤ x → (∀ i, w ≤ i → Z.testbit x i = false) → x < 2 ^ w.
Proof.
  intros Hw Hx Hb. replace x with (x mod 2 ^ w); [apply Z.mod_pos_bound; lia|].
  apply Z.bits_inj'. intros i Hi. destruct (Z.lt_ge_cases i w).
  - by rewrite Z.mod_pow2_bits_low by lia.
  - by rewrite Z.mod_pow2_bits_high, Hb by lia.
Qed.

Lemma high_bits w x i : 0 ≤ w → 0 ≤ x < 2 ^ w → w ≤ i → Z.testbit x i = false.
Proof.
  intros Hw Hx Hi. rewrite <- (Z.mod_small x (2 ^ w)) by done.
  apply Z.mod_pow2_bits_high. lia.
Qed.

(** Fields of a word: [x] below bit [k], [y] from bit [k] on. *)
Lemma lor_low k x y : 0 ≤ k → 0 ≤ x < 2 ^ k → 0 ≤ y → y mod 2 ^ k = 0 → Z.lor x y = x + y.
Proof.
  intros Hk Hx Hy Hm. rewrite <- Z.add_lor_land. replace (Z.land x y) with 0; [lia|]. symmetry. apply Z.bits_inj'. intros i Hi.
  rewrite Z.bits_0, Z.land_spec. destruct (Z.lt_ge_cases i k).
  - rewrite (Z.div_mod y (2 ^ k)) by lia. rewrite Hm, Z.add_0_r, Z.mul_comm, Z.mul_pow2_bits_low by lia. apply andb_false_r.
  - rewrite (high_bits k x) by lia. done.
Qed.

Lemma lor_high k x y : 0 ≤ k → 0 ≤ x < 2 ^ k → 0 ≤ y → y mod 2 ^ k = 0 → Z.lor y x = y + x.
Proof. intros. rewrite Z.lor_comm, (lor_low k) by done. lia. Qed.

Lemma land_field x n k : 0 ≤ n → 0 ≤ k → Z.land x (Z.shiftl (Z.ones n) k) = x / 2 ^ k mod 2 ^ n * 2 ^ k.
Proof.
  intros Hn Hk. rewrite <- Z.land_ones, <- Z.shiftr_div_pow2, <- Z.shiftl_mul_pow2 by lia. apply Z.bits_inj'. intros i Hi.
  rewrite Z.land_spec, !Z.shiftl_spec by lia. rewrite Z.land_spec. destruct (Z.lt_ge_cases i k).
  - rewrite !(Z.testbit_neg_r _ (i - k)) by lia. by rewrite !andb_false_r.
  - rewrite Z.shiftr_spec by lia. by replace (i - k + k) with i by lia.
Qed.

Lemma is_u32_lor x y : is_u32 x → is_u32 y → is_u32 (Z.lor x y).
Proof.
  intros Hx Hy. assert (0 ≤ Z.lor x y) by (apply Z.lor_nonneg; split; apply Hx || apply Hy).
  split; [done|]. apply small_bits; [done..|]. intros i Hi.
  by rewrite Z.lor_spec, !(high_bits 32) by (done || apply Hx || apply Hy).
Qed.

Lemma is_u32_land x y : is_u32 x → is_u32 y → is_u32 (Z.land x y).
Proof.
  intros Hx Hy. assert (0 ≤ Z.land x y) by (apply Z.land_nonneg; left; apply Hx).
  split; [done|]. apply small_bits; [done..|]. intros i Hi.
  by rewrite Z.land_spec, (high_bits 32 x) by (done || apply Hx).
Qed.

Lemma is_u32_lxor x y : is_u32 x → is_u32 y → is_u32 (Z.lxor x y).
Proof.
  intros Hx Hy.
  assert (0 ≤ Z.lxor x y) by (apply Z.lxor_nonneg; split; intros _; apply Hx || apply Hy).
  split; [done|]. apply small_bits; [done..|]. intros i Hi.
  by rewrite Z.lxor_spec, !(high_bits 32) by (done || apply Hx || apply Hy).
Qed.

Create HintDb cint.
#[export] Hint Resolve u8_range u32_range u64_range s32_range
  is_u32_lor is_u32_land is_u32_lxor : cint.

(** ** Results of kernel code

    A kernel function either returns a value or stops in one of the ways
    the source distinguishes: a failed [ASSERT], a [PANIC] or
    [NOT_REACHED], a dereference of a pointer to no object, the running
    thread going to sleep, or the running process being terminated.
    [EFuel] is the model's own: a loop was given too few iterations.  The
    theorems about loops state how many iterations are enough. *)

Inductive err : Set :=
  | EAssert | EPanic | EFault | EBlock | EExit | EFuel.

#[global] Instance err_eq_dec : EqDecision err.
Proof. solve_decision. Defined.

Inductive res (A : Type) : Type :=
  | Ok (a : A)
  | Err (e : err).
Arguments Ok {A} a.
Arguments Err {A} e.

#[global] Instance res_ret : MRet res := λ A a, Ok a.
#[global] Instance res_bind : MBind res := λ A B f m,
  match m with Ok a => f a | Err e => Err e end.
#[global] Instance res_fmap : FMap res := λ A B f m,
  match m with Ok a => Ok (f a) | Err e => Err e end.

Definition is_ok {A} (m : res A) : bool :=
  match m with Ok _ => true | Err _ => false end.

(** The value of a result, for evaluating examples. *)
Definition result {A} (d : A) (m : res A) : A :=
  match m with Ok a => a | Err _ => d end.

(** [ASSERT (b)] of lib/debug.h. *)
Definition ASSERT (b : bool) : res unit := if b then Ok tt else Err EAssert.

(** The value behind a pointer or at an array index, or a fault. *)
Definition deref {A} (o : option A) : res A :=
  match o with Some a => Ok a | None => Err EFault end.

Lemma bind_ok {A B} (m : res A) (f : A → res B) (b : B) :
  m ≫= f = Ok b ↔ ∃ a, m = Ok a ∧ f a = Ok b.
Proof. destruct m; cbn; naive_solver. Qed.

Lemma ok_bind {A B} (a : A) (f : A → res B) : (Ok a ≫= f) = f a.
Proof. done. Qed.

Lemma ASSERT_ok b u : ASSERT b = Ok u ↔ b = true.
Proof. destruct u, b; cbn; naive_solver. Qed.

Lemma deref_ok {A} (o : option A) a : deref o = Ok a ↔ o = Some a.
Proof. destruct o; cbn; naive_solver. Qed.

(** Total correctness of a sequence of calls: [m] returns, and what it
    returns lets the rest return a result in [Q]. *)
Lemma bind_total {A B} (m : res A) (f : A → res B) (P : A → Prop) (Q : B → Prop) :
  (∃ a, m = Ok a ∧ P a) → (∀ a, P a → ∃ b, f a = Ok b ∧ Q b) →
  ∃ b, m ≫= f = Ok b ∧ Q b.
Proof. intros (a & -> & Ha) Hf. apply Hf, Ha. Qed.

(** [inv_res] takes a hypothesis [... = Ok _] apart, one call at a time. *)
Ltac inv_res :=
  repeat match goal with
  | H : Ok _ = Ok _ |- _ => injection H as H; subst
  | H : Err _ = Ok _ |- _ => discriminate H
  | H : mret _ = Ok _ |- _ => injection H as H; subst
  | H : ASSERT _ = Ok _ |- _ => apply ASSERT_ok in H
  | H : deref _ = Ok _ |- _ => apply deref_ok in H
  | H : mbind _ _ = Ok _ |- _ =>
      let a := fresh "a" in let Ha := fresh "Hres" in
      apply bind_ok in H as (a & Ha & H)
  end.

(** ** Loops

    [loop n body s] is [for (;;) body] from loop state [s]: [body] returns
    [inl s'] to go round again and [inr r] to leave with [r].  [n] bounds
    the number of iterations. *)

Fixpoint loop {S R} (n : nat) (body : S → res (S + R)) (s : S) : res R :=
  match n with
  | O => Err EFuel
  | Datatypes.S n' =>
      r ← body s;
      match r with inl s' => loop n' body s' | inr r => Ok r end
  end.

(** Total correctness of a loop: an invariant [I k s] that bounds the number
    of remaining iterations by [k], and a postcondition [Q]; any fuel above
    the bound of the initial state is enough. *)
Lemma loop_total {S R} (I : nat → S → Prop) (Q : R → Prop)
    (body : S → res (S + R)) :
  (∀ k s, I k s → ∃ r, body s = Ok r ∧
     match r with inl s' => ∃ k', (k' < k)%nat ∧ I k' s' | inr x => Q x end) →
  ∀ n k s, I k s → (k < n)%nat → ∃ r, loop n body s = Ok r ∧ Q r.
Proof.
  intros Hbody n. induction n as [|n IH]; intros k s HI Hn; [lia|].
  destruct (Hbody k s HI) as (r & Hr & Hpost). cbn. rewrite Hr. cbn.
  destruct r as [s'|x]; [|eauto].
  destruct Hpost as (k' & Hk & HI'). apply (IH k'); [done|lia].
Qed.

Lemma loop_ok {S R} (I : nat → S → Prop) (x : R) (body : S → res (S + R)) :
  (∀ k s, I k s → ∃ r, body s = Ok r ∧
     match r with inl s' => ∃ k', (k' < k)%nat ∧ I k' s' | inr y => y = x end) →
  ∀ n k s, I k s → (k < n)%nat → loop n body s = Ok x.
Proof.
  intros Hbody n k s HI Hn.
  destruct (loop_total I (λ y, y = x) body Hbody n k s HI Hn) as (r & -> & ->). done.
Qed.

(** The bounded loop [for (i = lo; i < lo + n; i++) body] with a state. *)
Fixpoint for_up {S} (n : nat) (lo : Z) (body : Z → S → res S) (s : S) : res S :=
  match n with
  | O => Ok s
  | Datatypes.S n' => s' ← body lo s; for_up n' (lo + 1) body s'
  end.

(** An indexed invariant [I i s], true before iteration [i]. *)
Lemma for_up_total {S} (I : Z → S → Prop) (body : Z → S → res S) n lo s :
  (∀ i s, lo ≤ i < lo + Z.of_nat n → I i s →
     ∃ s', body i s = Ok s' ∧ I (i + 1) s') →
  I lo s →
  ∃ s', for_up n lo body s = Ok s' ∧ I (lo + Z.of_nat n) s'.
Proof.
  revert lo s. induction n as [|n IH]; intros lo s Hbody HI.
  { exists s. split; [done|]. by replace (lo + Z.of_nat 0) with lo by lia. }
  destruct (Hbody lo s) as (s1 & H1 & HI1); [lia|done|].
  destruct (IH (lo + 1) s1) as (s' & Hs' & HI'); [|done|].
  { intros i s0 Hi HI0. apply Hbody; [lia|done]. }
  exists s'. cbn. rewrite H1. cbn. split; [done|].
  by replace (lo + Z.of_nat (Datatypes.S n)) with (lo + 1 + Z.of_nat n) by lia.
Qed.

Lemma for_up_S {A} n i (body : Z → A → res A) s : for_up (Datatypes.S n) i body s = (s' ← body i s; for_up n (i + 1) body s').
Proof. done. Qed.

Lemma for_up_inv {S} (P : S → Prop) (body : Z → S → res S) n : ∀ lo s s',
  (∀ i s s', lo ≤ i < lo + Z.of_nat n → P s → body i s = Ok s' → P s') → P s → for_up n lo body s = Ok s' → P s'.
Proof.
  induction n as [|n IH]; intros lo s s' Hb Hs E; [by injection E as <-|]. cbn in E. apply bind_ok in E as (s1 & E1 & E2).
  apply (IH (lo + 1) s1 s'); [|by apply (Hb lo s s1); [lia|..]|done]. intros i t t' Hi. apply Hb. lia.
Qed.

(** The same loop with a way out of the middle of it: the body returns
    [inl s'] to continue and [inr r] for a [return] or [break] with [r]. *)
Fixpoint for_ret {S R} (n : nat) (lo : Z) (body : Z → S → res (S + R)) (s : S)
    : res (S + R) :=
  match n with
  | O => Ok (inl s)
  | Datatypes.S n' =>
      r ← body lo s;
      match r with inl s' => for_ret n' (lo + 1) body s' | inr x => Ok (inr x) end
  end.

Lemma for_ret_S {A R} n i (body : Z → A → res (A + R)) s :
  for_ret (Datatypes.S n) i body s = (r ← body i s; match r with inl s' => for_ret n (i + 1) body s' | inr x => Ok (inr x) end).
Proof. done. Qed.

Lemma for_ret_total {S R} (I : Z → S → Prop) (Q : R → Prop)
    (body : Z → S → res (S + R)) n lo s :
  (∀ i s, lo ≤ i < lo + Z.of_nat n → I i s →
     ∃ r, body i s = Ok r ∧
       match r with inl s' => I (i + 1) s' | inr x => Q x end) →
  I lo s →
  ∃ r, for_ret n lo body s = Ok r ∧
    match r with inl s' => I (lo + Z.of_nat n) s' | inr x => Q x end.
Proof.
  revert lo s. induction n as [|n IH]; intros lo s Hbody HI.
  { eexists. split; [done|]. by replace (lo + Z.of_nat 0) with lo by lia. }
  destruct (Hbody lo s) as (r & H1 & HI1); [lia|done|]. cbn. rewrite H1. cbn.
  destruct r as [s1|x]; [|by eexists].
  destruct (IH (lo + 1) s1) as (r & Hr & HQ); [|done|].
  { intros i s0 Hi HI0. apply Hbody; [lia|done]. }
  exists r. split; [done|].
  by replace (lo + Z.of_nat (Datatypes.S n)) with (lo + 1 + Z.of_nat n) by lia.
Qed.

(** The same for a body that may end in an error: the loop ends as the turn
    that leaves it does. *)
Lemma for_ret_stops {S R} (I : Z → S → Prop) (Q : res R → Prop) (body : Z → S → res (S + R)) n lo s :
  (∀ i s, lo ≤ i < lo + Z.of_nat n → I i s →
     (∃ s', body i s = Ok (inl s') ∧ I (i + 1) s') ∨ ∃ x, Q x ∧ body i s = (y ← x; Ok (inr y))) →
  I lo s →
  (∃ s', for_ret n lo body s = Ok (inl s') ∧ I (lo + Z.of_nat n) s') ∨
  ∃ x, Q x ∧ for_ret n lo body s = (y ← x; Ok (inr y)).
Proof.
  revert lo s. induction n as [|n IH]; intros lo s Hbody HI.
  { left. exists s. split; [done|]. by rewrite Z.add_0_r. }
  cbn [for_ret]. destruct (Hbody lo s ltac:(lia) HI) as [(s1 & -> & HI1)|(x & HQ & ->)].
  - rewrite ok_bind. replace (lo + Z.of_nat (Datatypes.S n)) with (lo + 1 + Z.of_nat n) by lia.
    apply IH; [|done]. intros i s0 Hi HI0. apply Hbody; [lia|done].
  - right. exists x. split; [done|]. by destruct x.
Qed.

(** ** Code that may stop

    [ends m Q]: [m] does not run out of fuel, and what it returns, if it
    returns, satisfies [Q].  It is the form of the theorems about code that
    terminates on every input but may stop in one of the ways of [err]. *)

Definition ends {A} (m : res A) (Q : A → Prop) : Prop :=
  match m with Ok a => Q a | Err e => e ≠ EFuel end.

Lemma ends_ok {A} (a : A) (Q : A → Prop) : Q a → ends (Ok a) Q.
Proof. done. Qed.

Lemma ends_mono {A} (m : res A) (P Q : A → Prop) :
  ends m P → (∀ a, P a → Q a) → ends m Q.
Proof. destruct m; cbn; auto. Qed.

Lemma ends_bind {A B} (m : res A) (f : A → res B) (Q : B → Prop) :
  ends m (λ a, ends (f a) Q) → ends (m ≫= f) Q.
Proof. by destruct m. Qed.

Lemma ends_ASSERT b (Q : unit → Prop) : (b = true → Q tt) → ends (ASSERT b) Q.
Proof. destruct b; cbn; auto. Qed.

Lemma ends_deref {A} (o : option A) (Q : A → Prop) :
  (∀ a, o = Some a → Q a) → ends (deref o) Q.
Proof. destruct o; cbn; auto. Qed.

Lemma ends_loop {S R} (I : nat → S → Prop) (Q : R → Prop) (body : S → res (S + R)) :
  (∀ k s, I k s → ends (body s) (λ r,
     match r with inl s' => ∃ k', (k' < k)%nat ∧ I k' s' | inr x => Q x end)) →
  ∀ n k s, I k s → (k < n)%nat → ends (loop n body s) Q.
Proof.
  intros Hbody n. induction n as [|n IH]; intros k s HI Hn; [lia|].
  cbn. specialize (Hbody k s HI). destruct (body s) as [[s'|x]|e]; cbn in *; [|done..].
  destruct Hbody as (k' & Hk & HI'). apply (IH k'); [done|lia].
Qed.

Lemma ends_for_up {S} (P : S → Prop) (body : Z → S → res S) n lo s :
  (∀ i s, P s → ends (body i s) P) → P s → ends (for_up n lo body s) P.
Proof.
  intros Hb. revert lo s. induction n as [|n IH]; intros lo s Hs; [done|]. cbn.
  apply ends_bind. eapply ends_mono; [by apply Hb|]. intros s' Hs'. by apply IH.
Qed.

(** ** Lists *)

Lemma last_app_cons {A} (d : A) xs y ys :
  List.last (xs ++ y :: ys) d = List.last (y :: ys) d.
Proof.
  induction xs as [|x xs IH]; [done|].
  cbn [app]. rewrite <- IH. destruct xs; done.
Qed.

Lemma list_filter_all {A} (P : A → Prop) `{∀ x, Decision (P x)} (l : list A) :
  (∀ x, x ∈ l → P x) → filter P l = l.
Proof.
  induction l as [|x l IH]; intros Hl; [done|].
  rewrite filter_cons_True by (apply Hl, elem_of_cons; auto).
  f_equal. apply IH. intros y Hy. apply Hl, elem_of_cons. auto.
Qed.

Lemma list_filter_none {A} (P : A → Prop) `{∀ x, Decision (P x)} (l : list A) :
  (∀ x, x ∈ l → ¬ P x) → filter P l = [].
Proof.
  induction l as [|x l IH]; intros Hl; [done|].
  rewrite filter_cons_False by (apply Hl, elem_of_cons; auto).
  apply IH. intros y Hy. apply Hl, elem_of_cons. auto.
Qed.

Lemma list_filter_iff' {A} (P Q : A → Prop) `{∀ x, Decision (P x)} `{∀ x, Decision (Q x)}
    (l : list A) : (∀ x, x ∈ l → P x ↔ Q x) → filter P l = filter Q l.
Proof.
  induction l as [|x l IH]; intros Hl; [done|].
  assert (P x ↔ Q x) as Hx by (apply Hl, elem_of_cons; auto).
  assert (filter P l = filter Q l) as E by (apply IH; intros y Hy; apply Hl, elem_of_cons; auto).
  rewrite !filter_cons, E. repeat case_decide; tauto.
Qed.

(** ** Byte buffers

    A buffer is the list of its bytes.  [mem_copy dst dofs src sofs n] is
    [memcpy (dst + dofs, src + sofs, n)] and faults when one of the ranges
    is not inside its buffer. *)

Definition at_ (l : list Z) (k : Z) : Z := l !!! Z.to_nat k.

(** Little-endian numbers of 16 and 32 bits. *)
Definition half (l : list Z) (k : Z) : Z := at_ l k + 256 * at_ l (k + 1).
Definition word32 (l : list Z) (k : Z) : Z := half l k + 65536 * half l (k + 2).

Definition mem_copy (dst : list Z) (dofs : Z) (src : list Z) (sofs n : Z) : res (list Z) :=
  if (0 <=? dofs) && (0 <=? sofs) && (0 <=? n) && (dofs + n <=? Z.of_nat (length dst))
     && (sofs + n <=? Z.of_nat (length src))
  then Ok (list_inserts (Z.to_nat dofs) (take (Z.to_nat n) (drop (Z.to_nat sofs) src)) dst)
  else Err EFault.

Lemma mem_copy_spec dst dofs src sofs n :
  0 ≤ dofs → 0 ≤ sofs → 0 ≤ n → dofs + n ≤ Z.of_nat (length dst) →
  sofs + n ≤ Z.of_nat (length src) →
  ∃ d, mem_copy dst dofs src sofs n = Ok d ∧ length d = length dst ∧
    ∀ k, 0 ≤ k < Z.of_nat (length dst) →
      at_ d k = if (dofs <=? k) && (k <? dofs + n) then at_ src (sofs + (k - dofs)) else at_ dst k.
Proof.
  intros H1 H2 H3 H4 H5. unfold mem_copy.
  replace (_ && _) with true by (rewrite !(proj2 (Z.leb_le _ _)) by lia; done).
  eexists. split; [done|]. split; [by rewrite length_inserts|]. intros k Hk. unfold at_.
  rewrite !list_lookup_total_alt. f_equal.
  destruct (Z.leb_spec dofs k), (Z.ltb_spec k (dofs + n)); cbn [andb].
  - rewrite list_lookup_inserts by (rewrite ?length_take, ?length_drop; lia).
    rewrite lookup_take_lt, lookup_drop by lia. do 2 f_equal. lia.
  - by rewrite list_lookup_inserts_ge by (rewrite length_take, length_drop; lia).
  - by rewrite list_lookup_inserts_lt by lia.
  - by rewrite list_lookup_inserts_lt by lia.
Qed.

Lemma list_inserts_alt {A} i (k l : list A) : (i + length k ≤ length l)%nat → list_inserts i k l = take i l ++ k ++ drop (i + length k) l.
Proof.
  intros H. apply list_eq. intros j. destruct (decide (j < i)%nat).
  { by rewrite list_lookup_inserts_lt, lookup_app_l, lookup_take_lt by (rewrite ?length_take; lia). }
  rewrite (lookup_app_r (take i l)), length_take, Nat.min_l by (rewrite ?length_take; lia). destruct (decide (j - i < length k)%nat).
  - rewrite lookup_app_l by done. rewrite list_lookup_inserts by lia. done.
  - rewrite list_lookup_inserts_ge, lookup_app_r, lookup_drop by lia. f_equal. lia.
Qed.

(** [elems] takes membership in lists built from [::] and [++] apart, in the
    hypotheses and in the goal, and closes the goal when two facts clash. *)
Ltac elems_step :=
  match goal with
  | H : _ ∈ [] |- _ => exfalso; exact (not_elem_of_nil _ H)
  | H : _ ∈ _ :: _ |- _ => rewrite elem_of_cons in H; destruct H as [H|H]; [subst|]
  | H : _ ∈ _ ++ _ |- _ => rewrite elem_of_app in H; destruct H as [H|H]
  | H : _ ∉ _ :: _ |- _ => rewrite not_elem_of_cons in H; destruct H
  | H : _ ∉ _ ++ _ |- _ => rewrite not_elem_of_app in H; destruct H
  | H : NoDup (_ :: _) |- _ => rewrite NoDup_cons in H; destruct H
  | H : NoDup (_ ++ _) |- _ =>
      let H1 := fresh "Hnd" in let H2 := fresh "Hdj" in
      rewrite NoDup_app in H; destruct H as (H1 & H2 & H)
  | |- _ ∉ [] => apply not_elem_of_nil
  | |- _ ∉ _ :: _ => rewrite not_elem_of_cons; split
  | |- _ ∉ _ ++ _ => rewrite not_elem_of_app; split
  | |- NoDup [] => constructor
  | |- NoDup (_ :: _) => apply NoDup_cons; split
  | |- NoDup (_ ++ _) => rewrite NoDup_app; split_and!
  | |- _ ∈ _ ++ _ => repeat (rewrite elem_of_app || rewrite elem_of_cons)
  | |- _ ∈ _ :: _ => repeat (rewrite elem_of_app || rewrite elem_of_cons)
  end.
Ltac elems := repeat elems_step; try (subst; solve [done | congruence | tauto | eauto 6]).
