(* ===== verification/KList.v ===== *)
(** * lib/kernel/list.c: the kernel's doubly linked lists

    The heap of [struct list_elem] nodes is a finite map from addresses to
    nodes; every C function of list.c is a function on that heap which
    reads and writes the [prev] and [next] members in the order of the
    source, fails on an address that holds no node, and stops on a failed
    [ASSERT].  [dlist h l xs] says that the list object at address [l] holds
    the elements [xs]; the theorems show that each operation implements the
    corresponding operation on [xs]. *)

From S2P Require Import Prelude.

(** ** Data (list.h) *)

Record list_elem := ListElem { prev : Z; next : Z }.

Abbreviation heap := (gmap Z list_elem).

Definition NULL : Z := 0.

(** [struct list] is [head] followed by [tail], 8 bytes each. *)
Definition head_of (l : Z) : Z := l.
Definition tail_of (l : Z) : Z := l + 8.

Definition load (h : heap) (p : Z) : res list_elem := deref (h !! p).

Definition set_prev (p v : Z) (h : heap) : res heap :=
  n ← load h p; Ok (<[p := ListElem v (next n)]> h).
Definition set_next (p v : Z) (h : heap) : res heap :=
  n ← load h p; Ok (<[p := ListElem (prev n) v]> h).

(** ** Operations (list.c) *)

Definition is_head (h : heap) (elem : Z) : res bool :=
  if elem =? NULL then Ok false
  else n ← load h elem; Ok ((prev n =? NULL) && negb (next n =? NULL)).

Definition is_interior (h : heap) (elem : Z) : res bool :=
  if elem =? NULL then Ok false
  else n ← load h elem; Ok (negb (prev n =? NULL) && negb (next n =? NULL)).

Definition is_tail (h : heap) (elem : Z) : res bool :=
  if elem =? NULL then Ok false
  else n ← load h elem; Ok (negb (prev n =? NULL) && (next n =? NULL)).

Definition list_init (list : Z) (h : heap) : res heap :=
  ASSERT (negb (list =? NULL));;
  h ← set_prev (head_of list) NULL h;
  h ← set_next (head_of list) (tail_of list) h;
  h ← set_prev (tail_of list) (head_of list) h;
  set_next (tail_of list) NULL h.

Definition list_begin (h : heap) (list : Z) : res Z :=
  ASSERT (negb (list =? NULL));;
  n ← load h (head_of list); Ok (next n).

Definition list_next (h : heap) (elem : Z) : res Z :=
  a ← is_head h elem; b ← is_interior h elem;
  ASSERT (a || b);;
  n ← load h elem; Ok (next n).

Definition list_end (list : Z) : res Z :=
  ASSERT (negb (list =? NULL));; Ok (tail_of list).

Definition list_rbegin (h : heap) (list : Z) : res Z :=
  ASSERT (negb (list =? NULL));;
  n ← load h (tail_of list); Ok (prev n).

Definition list_prev (h : heap) (elem : Z) : res Z :=
  a ← is_interior h elem; b ← is_tail h elem;
  ASSERT (a || b);;
  n ← load h elem; Ok (prev n).

Definition list_rend (list : Z) : res Z :=
  ASSERT (negb (list =? NULL));; Ok (head_of list).

Definition list_head (list : Z) : res Z :=
  ASSERT (negb (list =? NULL));; Ok (head_of list).

Definition list_tail (list : Z) : res Z :=
  ASSERT (negb (list =? NULL));; Ok (tail_of list).

Definition list_insert (before elem : Z) (h : heap) : res heap :=
  a ← is_interior h before; b ← is_tail h before;
  ASSERT (a || b);;
  ASSERT (negb (elem =? NULL));;
  n ← load h before; h ← set_prev elem (prev n) h;
  h ← set_next elem before h;
  n ← load h before; h ← set_next (prev n) elem h;
  set_prev before elem h.

Definition list_splice (before first last : Z) (h : heap) : res heap :=
  a ← is_interior h before; b ← is_tail h before;
  ASSERT (a || b);;
  if first =? last then Ok h else
  last ← list_prev h last;
  fi ← is_interior h first; ASSERT fi;;
  li ← is_interior h last; ASSERT li;;
  f ← load h first; l ← load h last; h ← set_next (prev f) (next l) h;
  l ← load h last; f ← load h first; h ← set_prev (next l) (prev f) h;
  b ← load h before; h ← set_prev first (prev b) h;
  h ← set_next last before h;
  b ← load h before; h ← set_next (prev b) first h;
  set_prev before last h.

Definition list_push_front (list elem : Z) (h : heap) : res heap :=
  b ← list_begin h list; list_insert b elem h.

Definition list_push_back (list elem : Z) (h : heap) : res heap :=
  e ← list_end list; list_insert e elem h.

Definition list_remove (elem : Z) (h : heap) : res (heap * Z) :=
  i ← is_interior h elem; ASSERT i;;
  n ← load h elem; h ← set_next (prev n) (next n) h;
  n ← load h elem; h ← set_prev (next n) (prev n) h;
  n ← load h elem; Ok (h, next n).

Definition list_empty (h : heap) (list : Z) : res bool :=
  b ← list_begin h list; e ← list_end list; Ok (b =? e).

Definition list_front (h : heap) (list : Z) : res Z :=
  e ← list_empty h list; ASSERT (negb e);;
  n ← load h (head_of list); Ok (next n).

Definition list_back (h : heap) (list : Z) : res Z :=
  e ← list_empty h list; ASSERT (negb e);;
  n ← load h (tail_of list); Ok (prev n).

Definition list_pop_front (list : Z) (h : heap) : res (heap * Z) :=
  front ← list_front h list;
  '(h, _) ← list_remove front h; Ok (h, front).

Definition list_pop_back (list : Z) (h : heap) : res (heap * Z) :=
  back ← list_back h list;
  '(h, _) ← list_remove back h; Ok (h, back).

(** [size_t cnt] wraps at 32 bits. *)
Definition list_size (fuel : nat) (h : heap) (list : Z) : res Z :=
  e ← list_begin h list;
  loop fuel (λ '(e, cnt),
    t ← list_end list;
    if e =? t then Ok (inr cnt)
    else e' ← list_next h e; Ok (inl (e', u32 (cnt + 1)))) (e, 0).

(** [swap (&p->prev, &p->next)], and the two cross-node swaps at the end of
    [list_reverse]. *)
Definition swap_links (p : Z) (h : heap) : res heap :=
  n ← load h p; h ← set_prev p (next n) h; set_next p (prev n) h.

Definition list_reverse (fuel : nat) (list : Z) (h : heap) : res heap :=
  emp ← list_empty h list;
  if emp : bool then Ok h else
  e ← list_begin h list;
  h ← loop fuel (λ '(e, h),
    t ← list_end list;
    if e =? t then Ok (inr h)
    else h ← swap_links e h; n ← load h e; Ok (inl (prev n, h))) (e, h);
  hd ← load h (head_of list); tl ← load h (tail_of list);
  h ← set_next (head_of list) (prev tl) h;
  h ← set_prev (tail_of list) (next hd) h;
  hd ← load h (head_of list); tl ← load h (tail_of list);
  hn ← load h (next hd); tp ← load h (prev tl);
  h ← set_prev (next hd) (next tp) h;
  set_next (prev tl) (prev hn) h.

(** The operations on ordered lists take the caller's comparison function;
    it compares the structures the elements are embedded in, which list.c
    never writes. *)
Section ordered.
Context (less : Z → Z → bool).

Definition is_sorted (fuel : nat) (h : heap) (a b : Z) : res bool :=
  if a =? b then Ok true else
  loop fuel (λ a,
    a ← list_next h a;
    if a =? b then Ok (inr true)
    else p ← list_prev h a;
      if less a p then Ok (inr false) else Ok (inl a)) a.

Definition find_end_of_run (fuel : nat) (h : heap) (a b : Z) : res Z :=
  ASSERT (negb (a =? NULL));; ASSERT (negb (b =? NULL));;
  ASSERT (negb (a =? b));;
  loop fuel (λ a,
    a ← list_next h a;
    if a =? b then Ok (inr a)
    else p ← list_prev h a;
      if less a p then Ok (inr a) else Ok (inl a)) a.

Definition inplace_merge (fuel : nat) (a0 a1b0 b1 : Z) (h : heap) : res heap :=
  ASSERT (negb (a0 =? NULL));; ASSERT (negb (a1b0 =? NULL));;
  ASSERT (negb (b1 =? NULL));;
  s1 ← is_sorted fuel h a0 a1b0; ASSERT s1;;
  s2 ← is_sorted fuel h a1b0 b1; ASSERT s2;;
  loop fuel (λ '(a0, a1b0, h),
    if negb (a0 =? a1b0) && negb (a1b0 =? b1) then
      if negb (less a1b0 a0) then
        a0 ← list_next h a0; Ok (inl (a0, a1b0, h))
      else
        a1b0 ← list_next h a1b0;
        p ← list_prev h a1b0;
        h ← list_splice a0 p a1b0 h; Ok (inl (a0, a1b0, h))
    else Ok (inr h)) (a0, a1b0, h).

(** One pass of the outer loop: the [for] loop over pairs of runs. *)
Definition list_sort_pass (fuel : nat) (list : Z) (h : heap) : res (Z * heap) :=
  a0 ← list_begin h list;
  loop fuel (λ '(a0, output_run_cnt, h),
    e ← list_end list;
    if a0 =? e then Ok (inr (output_run_cnt, h)) else
    let output_run_cnt := u32 (output_run_cnt + 1) in
    a1b0 ← find_end_of_run fuel h a0 e;
    if a1b0 =? e then Ok (inr (output_run_cnt, h)) else
    b1 ← find_end_of_run fuel h a1b0 e;
    h ← inplace_merge fuel a0 a1b0 b1 h;
    Ok (inl (b1, output_run_cnt, h))) (a0, 0, h).

Definition list_sort (fuel : nat) (list : Z) (h : heap) : res heap :=
  ASSERT (negb (list =? NULL));;
  h ← loop fuel (λ h,
    '(output_run_cnt, h) ← list_sort_pass fuel list h;
    if 1 <? output_run_cnt then Ok (inl h) else Ok (inr h)) h;
  b ← list_begin h list; e ← list_end list;
  s ← is_sorted fuel h b e; ASSERT s;; Ok h.

Definition list_insert_ordered (fuel : nat) (list elem : Z) (h : heap) : res heap :=
  ASSERT (negb (list =? NULL));; ASSERT (negb (elem =? NULL));;
  e ← list_begin h list;
  e ← loop fuel (λ e,
    t ← list_end list;
    if e =? t then Ok (inr e)
    else if less elem e then Ok (inr e)
    else e ← list_next h e; Ok (inl e)) e;
  list_insert e elem h.

(** [duplicates] is [NULL] or the address of a list. *)
Definition list_unique (fuel : nat) (list duplicates : Z) (h : heap) : res heap :=
  ASSERT (negb (list =? NULL));;
  emp ← list_empty h list;
  if emp : bool then Ok h else
  elem ← list_begin h list;
  loop fuel (λ '(elem, h),
    next ← list_next h elem;
    e ← list_end list;
    if next =? e then Ok (inr h)
    else if negb (less elem next) && negb (less next elem) then
      '(h, _) ← list_remove next h;
      h ← (if duplicates =? NULL then Ok h else list_push_back duplicates next h);
      Ok (inl (elem, h))
    else Ok (inl (next, h))) (elem, h).

Definition list_max (fuel : nat) (h : heap) (list : Z) : res Z :=
  max ← list_begin h list; t ← list_end list;
  if max =? t then Ok max else
  e ← list_next h max;
  loop fuel (λ '(max, e),
    if e =? t then Ok (inr max)
    else let max := if less max e then e else max in
      e ← list_next h e; Ok (inl (max, e))) (max, e).

Definition list_min (fuel : nat) (h : heap) (list : Z) : res Z :=
  min ← list_begin h list; t ← list_end list;
  if min =? t then Ok min else
  e ← list_next h min;
  loop fuel (λ '(min, e),
    if e =? t then Ok (inr min)
    else let min := if less e min then e else min in
      e ← list_next h e; Ok (inl (min, e))) (min, e).
End ordered.

(** ** The representation of a list in the heap *)

Definition nxt (h : heap) (p : Z) : option Z := next <$> h !! p.
Definition prv (h : heap) (p : Z) : option Z := prev <$> h !! p.

Definition linked (h : heap) (x y : Z) : Prop :=
  nxt h x = Some y ∧ prv h y = Some x.

(** Every node of [zs] points to its successor and back. *)
Fixpoint chain (h : heap) (zs : list Z) : Prop :=
  match zs with
  | x :: ((y :: _) as zs') => linked h x y ∧ chain h zs'
  | _ => True
  end.

Definition nodes (l : Z) (xs : list Z) : list Z :=
  head_of l :: xs ++ [tail_of l].

Record dlist (h : heap) (l : Z) (xs : list Z) : Prop := {
  dlist_chain : chain h (nodes l xs);
  dlist_nodup : NoDup (nodes l xs);
  dlist_null : NULL ∉ nodes l xs;
  dlist_head : prv h (head_of l) = Some NULL;
  dlist_tail : nxt h (tail_of l) = Some NULL;
}.

(** Two heaps agree outside a set of nodes. *)
Definition agree_off (zs : list Z) (h h' : heap) : Prop :=
  ∀ q, q ∉ zs → h' !! q = h !! q.

Lemma agree_off_refl zs h : agree_off zs h h.
Proof. done. Qed.

Lemma agree_off_trans zs h1 h2 h3 :
  agree_off zs h1 h2 → agree_off zs h2 h3 → agree_off zs h1 h3.
Proof. intros H1 H2 q Hq. by rewrite H2, H1. Qed.

Lemma agree_off_weaken zs zs' h h' :
  (∀ q, q ∈ zs → q ∈ zs') → agree_off zs h h' → agree_off zs' h h'.
Proof. intros Hs H q Hq. apply H. auto. Qed.

#[export] Hint Resolve agree_off_refl : core.

#[export] Instance agree_off_proper :
  Proper ((≡ₚ) ==> (=) ==> (=) ==> iff) agree_off.
Proof.
  intros zs zs' E h ? <- h' ? <-.
  split; apply agree_off_weaken; intros q; by rewrite E.
Qed.

(** *** Lookups through the links *)

Lemma node_of h p a b :
  nxt h p = Some a → prv h p = Some b → h !! p = Some (ListElem b a).
Proof.
  unfold nxt, prv. destruct (h !! p) as [[pp nn]|]; cbn; naive_solver.
Qed.

Lemma nxt_insert h p n q :
  nxt (<[p:=n]> h) q = if decide (p = q) then Some (next n) else nxt h q.
Proof. unfold nxt. rewrite lookup_insert. by case_decide. Qed.

Lemma prv_insert h p n q :
  prv (<[p:=n]> h) q = if decide (p = q) then Some (prev n) else prv h q.
Proof. unfold prv. rewrite lookup_insert. by case_decide. Qed.

Lemma chain_app h zs1 x zs2 :
  chain h (zs1 ++ x :: zs2) ↔ chain h (zs1 ++ [x]) ∧ chain h (x :: zs2).
Proof.
  induction zs1 as [|z zs1 IH]; [cbn; tauto|].
  destruct zs1 as [|z' zs1]; [cbn; tauto|].
  cbn [app chain] in *. rewrite IH. tauto.
Qed.

Lemma chain_cons h x y zs :
  chain h (x :: y :: zs) ↔ linked h x y ∧ chain h (y :: zs).
Proof. done. Qed.

(** A chain only depends on the [next] of all but its last node and on the
    [prev] of all but its first. *)
Lemma chain_frame h h' zs :
  chain h zs →
  (∀ q, q ∈ removelast zs → nxt h' q = nxt h q) →
  (∀ q, q ∈ tail zs → prv h' q = prv h q) →
  chain h' zs.
Proof.
  induction zs as [|x [|y zs] IH]; [done..|].
  intros [[Hn Hp] Hc] HN HP. cbn [chain]. split.
  - split.
    + rewrite HN; [done|]. cbn. set_solver.
    + rewrite HP; [done|]. cbn. set_solver.
  - apply IH; [done| |].
    + intros q Hq. apply HN. cbn [removelast] in *. set_solver.
    + intros q Hq. apply HP. cbn [tail] in *. set_solver.
Qed.

Lemma chain_agree h h' zs zs' :
  chain h zs → agree_off zs' h h' → (∀ q, q ∈ zs → q ∉ zs') → chain h' zs.
Proof.
  intros Hc Ha Hd. eapply chain_frame; [done|..]; intros q Hq; unfold nxt, prv;
    rewrite Ha; try done; apply Hd.
  - destruct zs as [|z zs _] using rev_ind; [done|].
    rewrite removelast_last in Hq. set_solver.
  - destruct zs; [done|]. cbn in Hq. set_solver.
Qed.

Lemma dlist_agree h h' l xs zs :
  dlist h l xs → agree_off zs h h' → (∀ q, q ∈ nodes l xs → q ∉ zs) →
  dlist h' l xs.
Proof.
  intros [Hc Hd H0 Hh Ht] Ha Hs. split; try done.
  - by eapply chain_agree.
  - unfold prv in *. rewrite Ha; [done|]. apply Hs. unfold nodes. set_solver.
  - unfold nxt in *. rewrite Ha; [done|]. apply Hs. unfold nodes. set_solver.
Qed.

(** The neighbours of a position: the nodes around the gap between [xs] and
    [ys] in the list at [l]. *)
Abbreviation left_of l xs := (List.last xs (head_of l)).
Abbreviation right_of l ys := (hd (tail_of l) ys).

Lemma nodes_split l xs ys :
  ∃ zs1 zs2,
    zs1 ++ [left_of l xs] = head_of l :: xs ∧
    right_of l ys :: zs2 = ys ++ [tail_of l] ∧
    ∀ ms, nodes l (xs ++ ms ++ ys) =
            zs1 ++ left_of l xs :: ms ++ right_of l ys :: zs2.
Proof.
  assert (∃ zs1, head_of l :: xs = zs1 ++ [left_of l xs]) as [zs1 H1].
  { destruct xs as [|x xs _] using rev_ind; [by exists []|].
    rewrite List.last_last. by exists (head_of l :: xs). }
  assert (∃ zs2, ys ++ [tail_of l] = right_of l ys :: zs2) as [zs2 H2].
  { destruct ys; cbn; eauto. }
  exists zs1, zs2. split; [done|]. split; [done|]. intros ms. unfold nodes.
  change (head_of l :: (xs ++ ms ++ ys) ++ [tail_of l])
    with ((head_of l :: (xs ++ ms ++ ys)) ++ [tail_of l]).
  rewrite app_comm_cons, H1, <- !app_assoc, H2. done.
Qed.

Lemma dlist_linked h l xs ys :
  dlist h l (xs ++ ys) → linked h (left_of l xs) (right_of l ys).
Proof.
  intros [Hc _ _ _ _]. destruct (nodes_split l xs ys) as (zs1 & zs2 & _ & _ & E).
  specialize (E []). cbn in E. rewrite E, chain_app in Hc. apply Hc.
Qed.

Lemma dlist_neighbours h l xs ys :
  dlist h l (xs ++ ys) → left_of l xs ≠ right_of l ys.
Proof.
  intros [_ Hnd _ _ _]. destruct (nodes_split l xs ys) as (zs1 & zs2 & _ & _ & E).
  specialize (E []). cbn in E. rewrite E in Hnd. elems.
Qed.

Lemma elem_of_nodes l xs q :
  q ∈ nodes l xs ↔ q = head_of l ∨ q ∈ xs ∨ q = tail_of l.
Proof. unfold nodes. set_solver. Qed.

Lemma left_of_in l xs ys : left_of l xs ∈ nodes l (xs ++ ys).
Proof.
  destruct (nodes_split l xs ys) as (zs1 & zs2 & _ & _ & E). specialize (E []).
  cbn in E. rewrite E. set_solver.
Qed.

Lemma right_of_in l xs ys : right_of l ys ∈ nodes l (xs ++ ys).
Proof.
  destruct (nodes_split l xs ys) as (zs1 & zs2 & _ & _ & E). specialize (E []).
  cbn in E. rewrite E. set_solver.
Qed.

Lemma dlist_not_null h l xs q : dlist h l xs → q ∈ nodes l xs → (q =? NULL) = false.
Proof.
  intros Hd Hq. apply Z.eqb_neq. intros ->. by apply (dlist_null _ _ _ Hd).
Qed.

Lemma dlist_list_not_null h l xs : dlist h l xs → (l =? NULL) = false.
Proof. intros Hd. eapply dlist_not_null; [done|]. rewrite elem_of_nodes. by left. Qed.

Lemma dlist_alloc h l xs q : dlist h l xs → q ∈ nodes l xs → is_Some (h !! q).
Proof.
  intros Hd Hq. rewrite elem_of_nodes in Hq. unfold is_Some.
  destruct Hq as [->|[Hq| ->]].
  - pose proof (dlist_head _ _ _ Hd) as H. unfold prv in H.
    destruct (h !! head_of l); naive_solver.
  - apply list_elem_of_split in Hq as (xs1 & xs2 & ->).
    pose proof (dlist_linked h l xs1 (q :: xs2) Hd) as [_ Hp]. unfold prv in Hp.
    cbn in Hp. destruct (h !! q); naive_solver.
  - pose proof (dlist_tail _ _ _ Hd) as H. unfold nxt in H.
    destruct (h !! tail_of l); naive_solver.
Qed.

(** The [ASSERT (is_interior (b) || is_tail (b))] that guards insertion
    holds of every node with a predecessor. *)
Lemma assert_has_prev {A} h b n (k : res A) :
  (b =? NULL) = false → h !! b = Some n → (prev n =? NULL) = false →
  (a ← is_interior h b; c ← is_tail h b; ASSERT (a || c);; k) = k.
Proof.
  intros Hb Hn Hp. unfold is_interior, is_tail, load. rewrite Hb, Hn. cbn.
  rewrite Hp. cbn. by destruct (next n =? NULL).
Qed.

Lemma assert_has_next {A} h b n (k : res A) :
  (b =? NULL) = false → h !! b = Some n → (next n =? NULL) = false →
  (a ← is_head h b; c ← is_interior h b; ASSERT (a || c);; k) = k.
Proof.
  intros Hb Hn Hp. unfold is_interior, is_head, load. rewrite Hb, Hn. cbn.
  rewrite Hp. cbn. by destruct (prev n =? NULL).
Qed.

(** [heap_run] executes loads and stores on known nodes. *)
Ltac heap_run :=
  repeat (unfold set_prev, set_next, load; cbn;
          first [ progress simplify_map_eq | progress cbn ]).

Lemma list_next_spec h l xs ys :
  dlist h l (xs ++ ys) → list_next h (left_of l xs) = Ok (right_of l ys).
Proof.
  intros Hd. pose proof (dlist_linked _ _ _ _ Hd) as [Hn _].
  destruct (dlist_alloc _ _ _ _ Hd (left_of_in l xs ys)) as [n E].
  unfold nxt in Hn. rewrite E in Hn. cbn in Hn. injection Hn as Hn.
  unfold list_next. erewrite assert_has_next; [|by eapply dlist_not_null, left_of_in|done|].
  - unfold load. by rewrite E; cbn; rewrite Hn.
  - rewrite Hn. by eapply dlist_not_null, right_of_in.
Qed.

Lemma list_prev_spec h l xs ys :
  dlist h l (xs ++ ys) → list_prev h (right_of l ys) = Ok (left_of l xs).
Proof.
  intros Hd. pose proof (dlist_linked _ _ _ _ Hd) as [_ Hn].
  destruct (dlist_alloc _ _ _ _ Hd (right_of_in l xs ys)) as [n E].
  unfold prv in Hn. rewrite E in Hn. cbn in Hn. injection Hn as Hn.
  unfold list_prev. erewrite assert_has_prev; [|by eapply dlist_not_null, right_of_in|done|].
  - unfold load. by rewrite E; cbn; rewrite Hn.
  - rewrite Hn. by eapply dlist_not_null, left_of_in.
Qed.

Lemma list_begin_spec h l xs :
  dlist h l xs → list_begin h l = Ok (right_of l xs).
Proof.
  intros Hd. unfold list_begin. rewrite (dlist_list_not_null _ _ _ Hd). cbn.
  pose proof (dlist_linked h l [] xs Hd) as [Hn _]. cbn in Hn.
  unfold nxt in Hn. unfold load.
  destruct (h !! head_of l); cbn in *; congruence.
Qed.

Lemma list_rbegin_spec h l xs :
  dlist h l xs → list_rbegin h l = Ok (left_of l xs).
Proof.
  intros Hd. unfold list_rbegin. rewrite (dlist_list_not_null _ _ _ Hd). cbn.
  assert (dlist h l (xs ++ [])) as Hd' by by rewrite app_nil_r.
  pose proof (dlist_linked h l xs [] Hd') as [_ Hp]. cbn in Hp.
  unfold prv in Hp. unfold load.
  destruct (h !! tail_of l); cbn in *; congruence.
Qed.

Lemma list_end_spec h l xs : dlist h l xs → list_end l = Ok (tail_of l).
Proof. intros Hd. unfold list_end. by rewrite (dlist_list_not_null _ _ _ Hd). Qed.

Lemma list_empty_spec h l xs :
  dlist h l xs → list_empty h l = Ok (bool_decide (xs = [])).
Proof.
  intros Hd. unfold list_empty.
  rewrite (list_begin_spec _ _ _ Hd), (list_end_spec _ _ _ Hd). cbn. f_equal.
  destruct xs as [|x xs]; cbn; [by rewrite Z.eqb_refl|].
  apply Z.eqb_neq. intros ->. pose proof (dlist_nodup _ _ _ Hd) as Hn.
  unfold nodes in Hn. apply NoDup_cons_1_2 in Hn. apply NoDup_cons_1_1 in Hn.
  set_solver.
Qed.

Lemma elem_of_removelast (q : Z) zs : q ∈ removelast zs → q ∈ zs.
Proof.
  destruct zs as [|z zs _] using rev_ind; [done|]. rewrite removelast_last. intros. elems.
Qed.

(** *** Insertion and removal *)

Ltac link_cases :=
  repeat (rewrite nxt_insert || rewrite prv_insert);
  repeat case_decide; subst; cbn;
  try solve [done | congruence | unfold nxt, prv in *; by simplify_map_eq]; elems.

(** What [list_insert] and [list_remove] do to three known nodes. *)
Lemma list_insert_run h p b e pp bn ne :
  (p =? NULL) = false → (b =? NULL) = false → e ≠ NULL →
  p ≠ b → e ≠ p → e ≠ b →
  h !! p = Some (ListElem pp b) → h !! b = Some (ListElem p bn) →
  h !! e = Some ne →
  list_insert b e h =
    Ok (<[b := ListElem e bn]> (<[p := ListElem pp e]> (<[e := ListElem p b]> h))).
Proof.
  intros Hp Hb He ? ? ? Ep Eb Ee. unfold list_insert.
  rewrite (assert_has_prev h b (ListElem p bn)) by done.
  rewrite (proj2 (Z.eqb_neq e NULL)) by done. cbn.
  repeat heap_run. by rewrite insert_insert_eq.
Qed.

Lemma list_remove_run h p e b pp bn :
  (p =? NULL) = false → (e =? NULL) = false → (b =? NULL) = false →
  p ≠ e → p ≠ b → e ≠ b →
  h !! p = Some (ListElem pp e) → h !! e = Some (ListElem p b) →
  h !! b = Some (ListElem e bn) →
  list_remove e h =
    Ok (<[b := ListElem p bn]> (<[p := ListElem pp b]> h), b).
Proof.
  intros Hp He Hb ? ? ? Ep Ee Eb. unfold list_remove, is_interior, load.
  rewrite He, Ee. cbn. rewrite Hp, Hb. cbn. repeat heap_run. done.
Qed.

(** Replacing the elements [ms] between two positions by [ms']: it is enough
    that the new middle is linked up with its neighbours and that the links
    of the nodes outside are the old ones. *)
Lemma dlist_relink h h' l xs ms ms' ys :
  dlist h l (xs ++ ms ++ ys) →
  (∀ q, q ∈ nodes l (xs ++ ys) → q ≠ left_of l xs → nxt h' q = nxt h q) →
  (∀ q, q ∈ nodes l (xs ++ ys) → q ≠ right_of l ys → prv h' q = prv h q) →
  chain h' (left_of l xs :: ms' ++ [right_of l ys]) →
  NoDup (nodes l (xs ++ ms' ++ ys)) → NULL ∉ ms' →
  dlist h' l (xs ++ ms' ++ ys).
Proof.
  intros [Hc Hnd H0 Hhd Htl] HN HP Hm Hnd' H0'.
  destruct (nodes_split l xs ys) as (zs1 & zs2 & Ez1 & Ez2 & E).
  pose proof (E []) as E0. cbn in E0. rewrite E0 in HN, HP.
  rewrite E in Hc, Hnd, H0, Hnd'.
  revert HN HP Hm Hc Hnd H0 Hnd' Ez1 Ez2 E.
  generalize (left_of l xs) (right_of l ys). intros p b HN HP Hm Hc Hnd H0 Hnd' Ez1 Ez2 E.
  rewrite chain_app in Hc. destruct Hc as [Hc1 Hc2].
  rewrite app_comm_cons, chain_app in Hc2. destruct Hc2 as [_ Hc2].
  assert ((p ∉ zs1) ∧ p ≠ b ∧ (p ∉ zs2) ∧ (b ∉ zs1) ∧ (b ∉ zs2)) as (?&?&?&?&?).
  { clear -Hnd. split_and!; elems; intros Hi; apply (Hdj _ Hi); elems. }
  split; [|by rewrite E|rewrite E; clear -H0 H0'; elems| |].
  - rewrite E, chain_app, app_comm_cons, (chain_app h' (p :: ms')). split_and!; [|done|].
    + eapply chain_frame; [exact Hc1|rewrite removelast_last|]; intros q Hq.
      * apply HN; [clear -Hq; elems|by intros ->].
      * assert (q ∈ zs1 ++ [p]) as Hq' by (clear -Hq; destruct zs1; cbn in Hq; elems).
        apply HP; [clear -Hq'; elems|intros ->; elems].
    + eapply chain_frame; [exact Hc2|..]; intros q Hq.
      * apply elem_of_removelast in Hq.
        apply HN; [clear -Hq; elems|intros ->; elems].
      * cbn in Hq. apply HP; [clear -Hq; elems|intros ->; elems].
  - assert (head_of l ∈ zs1 ++ [p]) as Hh by (rewrite Ez1; clear; elems).
    rewrite HP; [done|clear -Hh; elems|intros Heq; rewrite Heq in Hh; elems].
  - assert (tail_of l ∈ b :: zs2) as Ht by (rewrite Ez2; clear; elems).
    rewrite HN; [done|clear -Ht; elems|intros Heq; rewrite Heq in Ht; elems].
Qed.

#[export] Instance nodes_proper l : Proper (Permutation ==> Permutation) (nodes l).
Proof. intros xs ys Hp. unfold nodes. by rewrite Hp. Qed.

Lemma nodes_middle l xs e ys : nodes l (xs ++ e :: ys) ≡ₚ e :: nodes l (xs ++ ys).
Proof.
  unfold nodes. rewrite <- (Permutation_middle xs ys e). cbn. apply perm_swap.
Qed.

Lemma nodes_middle_NoDup l xs e ys :
  NoDup (nodes l (xs ++ e :: ys)) ↔
  (e ∉ nodes l (xs ++ ys)) ∧ NoDup (nodes l (xs ++ ys)).
Proof. by rewrite nodes_middle, NoDup_cons. Qed.

Lemma nodes_mid l xs ms ys : nodes l (xs ++ ms ++ ys) ≡ₚ ms ++ nodes l (xs ++ ys).
Proof.
  induction ms as [|m ms IH]; [done|].
  rewrite <- app_comm_cons, nodes_middle, IH. done.
Qed.

Lemma nodes_mid_not_in l xs ms ys x :
  NoDup (nodes l (xs ++ ms ++ ys)) → x ∈ ms → x ∉ nodes l (xs ++ ys).
Proof. rewrite nodes_mid, NoDup_app. naive_solver. Qed.

Lemma list_insert_spec h l xs ys e :
  dlist h l (xs ++ ys) → e ∉ nodes l (xs ++ ys) → e ≠ NULL → is_Some (h !! e) →
  ∃ h', list_insert (right_of l ys) e h = Ok h' ∧
    dlist h' l (xs ++ e :: ys) ∧
    agree_off (e :: nodes l (xs ++ ys)) h h'.
Proof.
  intros Hd He He0 [ne Ee].
  pose proof (dlist_linked _ _ _ _ Hd) as [Hn Hp].
  destruct (dlist_alloc _ _ _ _ Hd (left_of_in l xs ys)) as [[pp ?] Ep].
  destruct (dlist_alloc _ _ _ _ Hd (right_of_in l xs ys)) as [[? bn] Eb].
  pose proof (dlist_not_null _ _ _ _ Hd (left_of_in l xs ys)) as Hp0.
  pose proof (dlist_not_null _ _ _ _ Hd (right_of_in l xs ys)) as Hb0.
  pose proof (left_of_in l xs ys) as Hpi. pose proof (right_of_in l xs ys) as Hbi.
  pose proof (dlist_neighbours _ _ _ _ Hd) as Hpb.
  unfold nxt in Hn. unfold prv in Hp. rewrite Ep in Hn. rewrite Eb in Hp.
  cbn in Hn, Hp. injection Hn as ->. injection Hp as ->.
  assert (e ≠ left_of l xs) by congruence. assert (e ≠ right_of l ys) by congruence.
  eexists. split; [by apply (list_insert_run h (left_of l xs) _ e pp bn ne)|]. split.
  - apply (dlist_relink h _ l xs [] [e] ys); [done|..].
    + intros q Hq Hq'. assert (e ≠ q) by congruence. link_cases.
    + intros q Hq Hq'. assert (e ≠ q) by congruence. link_cases.
    + cbn. unfold linked. split_and!; link_cases.
    + apply nodes_middle_NoDup. by apply dlist_nodup in Hd.
    + elems.
  - intros q Hq. elems. rewrite !lookup_insert_ne by congruence. done.
Qed.

Lemma list_remove_spec h l xs e ys :
  dlist h l (xs ++ e :: ys) →
  ∃ h', list_remove e h = Ok (h', right_of l ys) ∧
    dlist h' l (xs ++ ys) ∧
    agree_off (nodes l (xs ++ ys)) h h'.
Proof.
  intros Hd.
  pose proof (dlist_nodup _ _ _ Hd) as [He Hnd]%nodes_middle_NoDup.
  assert (dlist h l ((xs ++ [e]) ++ ys)) as Hd' by by rewrite <- app_assoc.
  pose proof (dlist_linked _ _ _ _ Hd) as [Hn1 Hp1].
  pose proof (dlist_linked _ _ _ _ Hd') as [Hn2 Hp2].
  rewrite List.last_last in Hn2, Hp2. cbn in Hn1, Hp1.
  pose proof (left_of_in l xs ys) as Hpi. pose proof (right_of_in l xs ys) as Hbi.
  destruct (dlist_alloc _ _ _ _ Hd (left_of_in l xs (e :: ys))) as [[pp ?] Ep].
  destruct (dlist_alloc _ _ _ _ Hd' (right_of_in l (xs ++ [e]) ys)) as [[? bn] Eb].
  pose proof (node_of _ _ _ _ Hn2 Hp1) as Ee.
  unfold nxt in Hn1. unfold prv in Hp2. rewrite Ep in Hn1. rewrite Eb in Hp2.
  cbn in Hn1, Hp2. injection Hn1 as ->. injection Hp2 as ->.
  assert (left_of l xs ≠ right_of l ys) as Hpb.
  { destruct (nodes_split l xs ys) as (zs1 & zs2 & _ & _ & E). specialize (E []).
    cbn in E. rewrite E in Hnd. elems. }
  assert (left_of l xs ≠ e) by congruence. assert (e ≠ right_of l ys) by congruence.
  eexists. split.
  { apply (list_remove_run h (left_of l xs) e _ pp bn); try done.
    - by eapply dlist_not_null, (left_of_in l xs (e :: ys)).
    - eapply dlist_not_null; [exact Hd|]. rewrite nodes_middle. elems.
    - eapply dlist_not_null; [exact Hd'|]. apply right_of_in. }
  split.
  - apply (dlist_relink h _ l xs [e] [] ys); [done|..].
    + intros q Hq Hq'. link_cases.
    + intros q Hq Hq'. link_cases.
    + cbn. unfold linked. split_and!; link_cases.
    + done.
    + elems.
  - intros q Hq. rewrite !lookup_insert_ne by congruence. done.
Qed.

(** Stores, seen through the links: no two of the nodes of a splice need be
    different for these to apply. *)
Lemma set_next_total p v h :
  is_Some (h !! p) →
  ∃ h', set_next p v h = Ok h' ∧
    (∀ x, nxt h' x = if decide (x = p) then Some v else nxt h x) ∧
    (∀ x, prv h' x = prv h x) ∧ agree_off [p] h h'.
Proof.
  intros [n E]. unfold set_next, load. rewrite E. cbn. eexists. split; [done|].
  split_and!; intros x.
  - rewrite nxt_insert. by repeat case_decide.
  - rewrite prv_insert. case_decide; [|done]. subst. unfold prv. by rewrite E.
  - intros Hx. elems. by rewrite lookup_insert_ne.
Qed.

Lemma set_prev_total p v h :
  is_Some (h !! p) →
  ∃ h', set_prev p v h = Ok h' ∧
    (∀ x, prv h' x = if decide (x = p) then Some v else prv h x) ∧
    (∀ x, nxt h' x = nxt h x) ∧ agree_off [p] h h'.
Proof.
  intros [n E]. unfold set_prev, load. rewrite E. cbn. eexists. split; [done|].
  split_and!; intros x.
  - rewrite prv_insert. by repeat case_decide.
  - rewrite nxt_insert. case_decide; [|done]. subst. unfold nxt. by rewrite E.
  - intros Hx. elems. by rewrite lookup_insert_ne.
Qed.

Lemma nxt_alloc h p v : nxt h p = Some v → is_Some (h !! p).
Proof. unfold nxt. destruct (h !! p); naive_solver. Qed.

Lemma prv_alloc h p v : prv h p = Some v → is_Some (h !! p).
Proof. unfold prv. destruct (h !! p); naive_solver. Qed.

Lemma load_prev h p v : prv h p = Some v → ∃ n, load h p = Ok n ∧ prev n = v.
Proof. unfold prv, load. destruct (h !! p); cbn; naive_solver. Qed.

Lemma load_next h p v : nxt h p = Some v → ∃ n, load h p = Ok n ∧ next n = v.
Proof. unfold nxt, load. destruct (h !! p); cbn; naive_solver. Qed.

(** [ld H]: run the next load, of a node whose link is given by [H]. *)
Ltac ld H :=
  let n := fresh "n" in let E1 := fresh "E" in let E2 := fresh "E" in
  first [ destruct (load_prev _ _ _ H) as (n & E1 & E2)
        | destruct (load_next _ _ _ H) as (n & E1 & E2) ];
  rewrite E1; cbn; try rewrite E2; clear E1.

Lemma is_interior_true h x a b :
  (x =? NULL) = false → (a =? NULL) = false → (b =? NULL) = false →
  prv h x = Some a → nxt h x = Some b → is_interior h x = Ok true.
Proof.
  intros Hx Ha Hb Hp Hn. unfold is_interior, load. rewrite Hx.
  rewrite (node_of _ _ _ _ Hn Hp). cbn. by rewrite Ha, Hb.
Qed.

(** The six stores of [list_splice]: [p], [before] are the neighbours of the
    insertion point, [q] precedes [first], [z] is the last moved node. *)
Lemma splice_stores h p before q first z r :
  nxt h p = Some before → prv h before = Some p →
  nxt h q = Some first → prv h first = Some q →
  nxt h z = Some r → prv h r = Some z →
  before ≠ r → before ≠ first → first ≠ r → p ≠ q → p ≠ z → q ≠ z →
  ∃ h', (f ← load h first; l ← load h z; h ← set_next (prev f) (next l) h;
    l ← load h z; f ← load h first; h ← set_prev (next l) (prev f) h;
    b ← load h before; h ← set_prev first (prev b) h;
    h ← set_next z before h;
    b ← load h before; h ← set_next (prev b) first h;
    set_prev before z h) = Ok h' ∧
    (∀ x, nxt h' x = if decide (x = p) then Some first
       else if decide (x = z) then Some before
       else if decide (x = q) then Some r else nxt h x) ∧
    (∀ x, prv h' x = if decide (x = before) then Some z
       else if decide (x = first) then Some p
       else if decide (x = r) then Some q else prv h x) ∧
    agree_off [p; before; q; first; z; r] h h'.
Proof.
  intros Np Pb Nq Pf Nz Pr ? ? ? ? ? ?. ld Pf. ld Nz.
  destruct (set_next_total q r h) as (h1 & -> & N1 & P1 & A1); [by eapply nxt_alloc|].
  assert (nxt h1 z = Some r) as Nz1 by by rewrite N1, decide_False.
  assert (prv h1 first = Some q) as Pf1 by by rewrite P1.
  cbn. ld Nz1. ld Pf1.
  destruct (set_prev_total r q h1) as (h2 & -> & P2 & N2 & A2).
  { eapply prv_alloc. by rewrite P1. }
  assert (prv h2 before = Some p) as Pb2 by by rewrite P2, decide_False, P1.
  cbn. ld Pb2.
  destruct (set_prev_total first p h2) as (h3 & -> & P3 & N3 & A3).
  { eapply prv_alloc. by rewrite P2, decide_False, P1 by done. }
  cbn. destruct (set_next_total z before h3) as (h4 & -> & N4 & P4 & A4).
  { eapply nxt_alloc. by rewrite N3, N2, N1, decide_False by done. }
  assert (prv h4 before = Some p) as Pb4 by by rewrite P4, P3, decide_False.
  cbn. ld Pb4.
  destruct (set_next_total p first h4) as (h5 & -> & N5 & P5 & A5).
  { eapply nxt_alloc. by rewrite N4, decide_False, N3, N2, N1, decide_False by done. }
  cbn. destruct (set_prev_total before z h5) as (h6 & -> & P6 & N6 & A6).
  { eapply prv_alloc. by rewrite P5. }
  exists h6. split; [done|]. split_and!.
  - intros x. rewrite N6, N5. case_decide; [done|]. rewrite N4, N3, N2, N1. done.
  - intros x. rewrite P6. case_decide; [done|]. rewrite P5, P4, P3.
    case_decide; [done|]. rewrite P2. case_decide; [done|]. apply P1.
  - intros x Hx. elems. rewrite A6, A5, A4, A3, A2, A1 by elems. done.
Qed.

Lemma last_cons_dflt {A} (x d : A) xs : List.last (x :: xs) d = List.last xs x.
Proof.
  revert x d. induction xs as [|y xs IH]; intros x d; [done|].
  change (List.last (y :: xs) d = List.last (y :: xs) x). by rewrite !IH.
Qed.

Lemma last_in {A} (x : A) xs : List.last xs x ∈ x :: xs.
Proof.
  revert x. induction xs as [|y xs IH]; intros x; [cbn; elems|].
  rewrite last_cons_dflt. specialize (IH y). elems.
Qed.

Lemma removelast_not_last {A} (x : A) xs q :
  NoDup (x :: xs) → q ∈ removelast (x :: xs) → q ≠ List.last xs x.
Proof.
  intros Hnd Hq ->. pose proof (app_removelast_last x (l := x :: xs)) as E.
  rewrite last_cons_dflt in E. rewrite E in Hnd by done.
  apply NoDup_app in Hnd as (_ & Hdj & _). apply (Hdj _ Hq). elems.
Qed.

Lemma chain_join h f fs b zs :
  chain h ((f :: fs) ++ b :: zs) ↔
  chain h (f :: fs) ∧ linked h (List.last fs f) b ∧ chain h (b :: zs).
Proof.
  revert f. induction fs as [|g fs IH]; intros f; [cbn; tauto|].
  rewrite last_cons_dflt, <- !app_comm_cons, !chain_cons.
  specialize (IH g). rewrite <- app_comm_cons in IH. rewrite IH. tauto.
Qed.

Lemma chain_two h p b bs f fs r :
  chain h (p :: (b :: bs) ++ (f :: fs) ++ [r]) ↔
  linked h p b ∧ chain h (b :: bs) ∧ linked h (List.last bs b) f ∧
  chain h (f :: fs) ∧ linked h (List.last fs f) r.
Proof.
  change (linked h p b ∧ chain h ((b :: bs) ++ f :: (fs ++ [r])) ↔
    linked h p b ∧ chain h (b :: bs) ∧ linked h (List.last bs b) f ∧
    chain h (f :: fs) ∧ linked h (List.last fs f) r).
  rewrite chain_join, app_comm_cons, chain_join. cbn [chain]. tauto.
Qed.

Lemma swap_disjoint (p : Z) bs fs r :
  NoDup (p :: bs ++ fs ++ [r]) →
  (∀ x, x ∈ bs → x ∉ fs) ∧ NoDup bs ∧ NoDup fs ∧
  (p ∉ bs) ∧ (p ∉ fs) ∧ p ≠ r ∧ (r ∉ bs) ∧ (r ∉ fs).
Proof.
  intros [Hp Hnd]%NoDup_cons. rewrite app_assoc in Hnd.
  apply NoDup_app in Hnd as (Hnd & Hr & _). apply NoDup_app in Hnd as (Hb & Hdj & Hf).
  elems. split_and!; try done; intros Hx; apply (Hr r); elems.
Qed.

Lemma swap_distinct (p b : Z) bs f fs r :
  let q := List.last bs b in let z := List.last fs f in
  NoDup (p :: (b :: bs) ++ (f :: fs) ++ [r]) →
  p ≠ q ∧ p ≠ z ∧ q ≠ z ∧ b ≠ f ∧ b ≠ r ∧ f ≠ r.
Proof.
  intros q z (Hdj & _ & _ & Hpb & Hpf & _ & Hrb & Hrf)%swap_disjoint.
  pose proof (last_in b bs) as Hq. pose proof (last_in f fs) as Hz.
  fold q in Hq. fold z in Hz. split_and!; intros Heq.
  - apply Hpb. by rewrite Heq.
  - apply Hpf. by rewrite Heq.
  - apply (Hdj q); [done|]. by rewrite Heq.
  - apply (Hdj b); [elems|]. rewrite Heq. elems.
  - apply Hrb. rewrite <- Heq. elems.
  - apply Hrf. rewrite <- Heq. elems.
Qed.

(** The effect of [splice_stores] on a chain. *)
Lemma chain_swap h h' p b bs f fs r :
  let q := List.last bs b in let z := List.last fs f in
  chain h (p :: (b :: bs) ++ (f :: fs) ++ [r]) →
  NoDup (p :: (b :: bs) ++ (f :: fs) ++ [r]) →
  (∀ x, nxt h' x = if decide (x = p) then Some f
     else if decide (x = z) then Some b
     else if decide (x = q) then Some r else nxt h x) →
  (∀ x, prv h' x = if decide (x = b) then Some z
     else if decide (x = f) then Some p
     else if decide (x = r) then Some q else prv h x) →
  chain h' (p :: (f :: fs) ++ (b :: bs) ++ [r]).
Proof.
  intros q z Hc Hnd HN HP.
  pose proof (last_in b bs) as Hq. pose proof (last_in f fs) as Hz.
  fold q in Hq. fold z in Hz.
  assert (p ≠ q ∧ p ≠ z ∧ q ≠ z ∧ b ≠ f ∧ b ≠ r ∧ f ≠ r) as (?&?&?&?&?&?)
    by exact (swap_distinct _ _ _ _ _ _ Hnd).
  apply swap_disjoint in Hnd as (Hdj & Hnb & Hnf & Hpb & Hpf & Hpr & Hrb & Hrf).
  rewrite chain_two in Hc. destruct Hc as (_ & Hcb & _ & Hcf & _).
  rewrite chain_two. fold q z.
  unfold linked. split_and!; rewrite ?HN, ?HP; repeat case_decide; try congruence.
  - eapply chain_frame; [exact Hcf|..]; intros x Hx.
    + pose proof (removelast_not_last _ _ _ Hnf Hx) as Hxz. apply elem_of_removelast in Hx.
      rewrite HN, !decide_False; [done|intros ->; by apply (Hdj q)|done|by intros ->].
    + cbn in Hx. rewrite HP, !decide_False; [done|intros ->; apply Hrf; elems|..].
      * intros ->. by elems.
      * intros ->. apply (Hdj b); elems.
  - eapply chain_frame; [exact Hcb|..]; intros x Hx.
    + pose proof (removelast_not_last _ _ _ Hnb Hx) as Hxz. apply elem_of_removelast in Hx.
      rewrite HN, !decide_False; [done|done|intros ->; by apply (Hdj z)|by intros ->].
    + cbn in Hx. rewrite HP, !decide_False; [done|intros ->; apply Hrb; elems|..].
      * intros ->. apply (Hdj f); elems.
      * intros ->. by elems.
Qed.

Lemma is_interior_spec h l xs x :
  dlist h l xs → x ∈ xs → is_interior h x = Ok true.
Proof.
  intros Hd (xs1 & xs2 & ->)%list_elem_of_split.
  assert (dlist h l ((xs1 ++ [x]) ++ xs2)) as Hd' by by rewrite <- app_assoc.
  pose proof (dlist_linked _ _ _ _ Hd) as [_ Hp].
  pose proof (dlist_linked _ _ _ _ Hd') as [Hn _]. rewrite List.last_last in Hn.
  eapply is_interior_true; [..|exact Hp|exact Hn].
  - eapply dlist_not_null; [exact Hd|]. rewrite nodes_middle. elems.
  - eapply dlist_not_null; [exact Hd|]. apply left_of_in.
  - eapply dlist_not_null; [exact Hd'|]. apply right_of_in.
Qed.

(** Moving a non-empty range [f :: fs] of a list to an earlier position of
    the same list. *)
Lemma list_splice_spec h l xs b bs f fs ys :
  dlist h l (xs ++ (b :: bs) ++ (f :: fs) ++ ys) →
  ∃ h', list_splice b f (right_of l ys) h = Ok h' ∧
    dlist h' l (xs ++ (f :: fs) ++ (b :: bs) ++ ys) ∧
    agree_off (nodes l (xs ++ (b :: bs) ++ (f :: fs) ++ ys)) h h'.
Proof.
  intros Hd.
  assert (∃ p q z r, p = left_of l xs ∧ q = List.last bs b ∧ z = List.last fs f ∧
    r = right_of l ys) as (p & q & z & r & Ep & Eq & Ez & Er) by eauto 10.
  pose proof (dlist_linked h l xs _ Hd) as L1. cbn [app hd] in L1.
  assert (linked h q f) as L2.
  { assert (dlist h l ((xs ++ b :: bs) ++ (f :: fs) ++ ys)) as Hd'
      by by rewrite <- app_assoc.
    apply dlist_linked in Hd'.
    rewrite last_app_cons, last_cons_dflt, <- Eq in Hd'. done. }
  assert (linked h z r) as L3.
  { assert (dlist h l ((xs ++ (b :: bs) ++ (f :: fs)) ++ ys)) as Hd'
      by by rewrite <- !app_assoc.
    apply dlist_linked in Hd'. rewrite app_assoc, last_app_cons, last_cons_dflt in Hd'.
    by rewrite Ez, Er. }
  rewrite <- Ep in L1. rewrite <- Er.
  pose proof (dlist_null _ _ _ Hd) as H0. pose proof (dlist_nodup _ _ _ Hd) as Hnd.
  pose proof (dlist_chain _ _ _ Hd) as Hc.
  destruct (nodes_split l xs ys) as (zs1 & zs2 & _ & _ & E).
  rewrite <- Ep, <- Er in E.
  pose proof (E ((b :: bs) ++ f :: fs)) as E1. rewrite <- !app_assoc in E1.
  pose proof (E ((f :: fs) ++ b :: bs)) as E2. rewrite <- !app_assoc in E2.
  assert (chain h (p :: (b :: bs) ++ (f :: fs) ++ [r])) as Hc'.
  { rewrite E1, chain_app in Hc. destruct Hc as [_ Hc].
    rewrite (app_assoc (b :: bs)), app_comm_cons, chain_app in Hc.
    rewrite (app_assoc (b :: bs)). apply Hc. }
  assert (NoDup (p :: (b :: bs) ++ (f :: fs) ++ [r])) as Hnd'.
  { rewrite E1 in Hnd. apply NoDup_app in Hnd as (_ & _ & Hnd).
    replace (p :: (b :: bs) ++ (f :: fs) ++ r :: zs2)
      with ((p :: (b :: bs) ++ (f :: fs) ++ [r]) ++ zs2) in Hnd
      by by rewrite <- app_comm_cons, <- !app_assoc.
    by apply NoDup_app in Hnd as (Hnd & _ & _). }
  assert (list_prev h r = Ok z) as Hprev.
  { assert (dlist h l ((xs ++ (b :: bs) ++ (f :: fs)) ++ ys)) as Hd'
      by by rewrite <- !app_assoc.
    apply list_prev_spec in Hd'. rewrite app_assoc, last_app_cons, last_cons_dflt in Hd'.
    by rewrite Er, Ez. }
  assert (∀ x, x ∈ p :: (b :: bs) ++ (f :: fs) ++ [r] → (x =? NULL) = false) as Hnn.
  { intros x Hx. apply Z.eqb_neq. intros ->. rewrite E1 in H0.
    apply H0. clear -Hx. elems. }
  assert (z ∈ f :: fs) as Hz by (rewrite Ez; apply last_in).
  pose proof (last_in b bs) as Hq. rewrite <- Eq in Hq.
  unfold list_splice. destruct (prv_alloc _ _ _ (proj2 L1)) as [nb Enb].
  rewrite (assert_has_prev h b nb); [|apply Hnn; elems|done|].
  2:{ pose proof (proj2 L1) as Hpb. unfold prv in Hpb. rewrite Enb in Hpb.
      cbn in Hpb. injection Hpb as ->. apply Hnn; elems. }
  pose proof (swap_distinct _ _ _ _ _ _ Hnd') as (?&?&?&?&?&?).
  rewrite <- Eq, <- Ez in *. rewrite (proj2 (Z.eqb_neq f r)) by done.
  rewrite Hprev. cbn [mbind res_bind].
  rewrite (is_interior_spec _ _ _ f Hd), (is_interior_spec _ _ _ z Hd) by (clear -Hz; elems).
  cbn [mbind res_bind ASSERT].
  destruct (splice_stores h p b q f z r) as (h' & Hrun & HN & HP & HA);
    try (done || apply L1 || apply L2 || apply L3).
  assert (NoDup (nodes l (xs ++ ((b :: bs) ++ f :: fs) ++ ys))) as Hndm
    by by rewrite <- (app_assoc (b :: bs)).
  exists h'. split; [exact Hrun|]. split.
  - rewrite (app_assoc (f :: fs)).
    apply (dlist_relink h h' l xs ((b :: bs) ++ f :: fs)); [by rewrite <- app_assoc|..].
    + intros x Hx Hxp. rewrite HN, !decide_False; [done|..|by rewrite Ep];
        intros ->; (eapply (nodes_mid_not_in _ _ _ _ _ Hndm); [|exact Hx]);
        clear -Hq Hz; elems.
    + intros x Hx Hxp. rewrite HP, !decide_False; [done|by rewrite Er|..];
        intros ->; (eapply (nodes_mid_not_in _ _ _ _ _ Hndm); [|exact Hx]);
        clear; elems.
    + rewrite <- Ep, <- Er, <- app_assoc. subst q z. by eapply chain_swap.
    + by rewrite (Permutation_app_comm (f :: fs)).
    + rewrite E1 in H0. clear -H0. elems.
  - eapply agree_off_weaken; [|exact HA]. intros x Hx. rewrite E1. clear -Hx Hq Hz. elems.
Qed.

(** ** Initialisation, traversal and size *)

Lemma list_init_spec h l :
  l ≠ NULL → tail_of l ≠ NULL →
  is_Some (h !! head_of l) → is_Some (h !! tail_of l) →
  ∃ h', list_init l h = Ok h' ∧ dlist h' l [] ∧ agree_off (nodes l []) h h'.
Proof.
  intros Hl Ht [n1 E1] [n2 E2]. unfold list_init.
  rewrite (proj2 (Z.eqb_neq l NULL)) by done.
  assert (head_of l ≠ tail_of l) by (unfold head_of, tail_of; lia).
  cbn. repeat heap_run. eexists. split; [done|].
  split.
  - split; cbn; unfold linked; try (split_and!; link_cases).
    + unfold nodes. cbn. elems.
    + unfold nodes. cbn. elems.
    + link_cases.
    + link_cases.
  - intros q Hq. unfold nodes in Hq. cbn in Hq. elems.
    by rewrite !lookup_insert_ne by done.
Qed.

Lemma right_of_tail h l xs ys :
  dlist h l (xs ++ ys) → (right_of l ys =? tail_of l) = bool_decide (ys = []).
Proof.
  intros Hd. destruct ys as [|y ys]; cbn; [by rewrite Z.eqb_refl|].
  apply Z.eqb_neq. intros ->.
  pose proof (dlist_nodup _ _ _ Hd) as [Hy _]%nodes_middle_NoDup.
  apply Hy. unfold nodes. elems.
Qed.

(** Moving one step along the list. *)
Lemma list_next_cons h l xs y ys :
  dlist h l (xs ++ y :: ys) → list_next h y = Ok (right_of l ys).
Proof.
  intros Hd. assert (dlist h l ((xs ++ [y]) ++ ys)) as Hd' by by rewrite <- app_assoc.
  apply list_next_spec in Hd'. by rewrite List.last_last in Hd'.
Qed.

Lemma list_prev_cons h l xs y z ys :
  dlist h l (xs ++ y :: z :: ys) → list_prev h z = Ok y.
Proof.
  intros Hd. assert (dlist h l ((xs ++ [y]) ++ z :: ys)) as Hd' by by rewrite <- app_assoc.
  apply list_prev_spec in Hd'. by rewrite List.last_last in Hd'.
Qed.

Lemma list_size_spec fuel h l xs :
  dlist h l xs → (length xs < fuel)%nat →
  list_size fuel h l = Ok (u32 (Z.of_nat (length xs))).
Proof.
  intros Hd Hf. unfold list_size. rewrite (list_begin_spec _ _ _ Hd). cbn.
  eapply (loop_ok (λ k '(e, cnt), ∃ pre ys, xs = pre ++ ys ∧ e = right_of l ys ∧
    cnt = u32 (Z.of_nat (length pre)) ∧ k = length ys)); [| |exact Hf].
  2: { exists [], xs. split_and!; done. }
  intros k [e cnt] (pre & ys & -> & -> & -> & ->).
  rewrite (list_end_spec _ _ _ Hd). cbn [mbind res_bind].
  rewrite (right_of_tail _ _ _ _ Hd). destruct ys as [|y ys]; cbn.
  - eexists. split; [done|]. by rewrite app_nil_r.
  - rewrite (list_next_cons _ _ _ _ _ Hd). cbn. eexists. split; [done|].
    cbn. exists (length ys). split; [lia|]. exists (pre ++ [y]), ys.
    split_and!; [by rewrite <- app_assoc|done| |done].
    rewrite length_app. cbn. c_lia.
Qed.
