(* ===== verification/KListSort.v ===== *)
(** * The ordered operations of lib/kernel/list.c

    [list_sort] is a natural merge sort on the list's own links.  This file
    relates it, [list_insert_ordered], [list_max] and [list_min] to functions
    on the sequence of elements: [run_end] (the maximal non-descending run at
    the front), [merge], and one pass as the relation [merge_pass].  The
    number of runs [nruns] is what makes the outer loop terminate. *)

From S2P Require Import Prelude KList.

(** ** Sequences *)

Section seq.
Context (less : Z → Z → bool).

(** [le x y]: [y] may follow [x] in a sorted list. *)
Definition le (x y : Z) : Prop := less y x = false.

(** The rest of the run that starts with [a], and what follows the run. *)
Fixpoint run_end (a : Z) (xs : list Z) : list Z * list Z :=
  match xs with
  | [] => ([], [])
  | x :: xs' =>
      if less x a then ([], xs)
      else (x :: (run_end x xs').1, (run_end x xs').2)
  end.

(** Stable merge: an element of the second list goes first only if it is
    less. *)
Fixpoint merge (xs : list Z) : list Z → list Z :=
  match xs with
  | [] => λ ys, ys
  | x :: xs' =>
      fix merge_x (ys : list Z) : list Z :=
        match ys with
        | [] => x :: xs'
        | y :: ys' =>
            if less y x then y :: merge_x ys' else x :: merge xs' (y :: ys')
        end
  end.

(** The number of descents after [a], and of maximal runs. *)
Fixpoint breaks (a : Z) (xs : list Z) : nat :=
  match xs with
  | [] => 0
  | x :: xs' => (if less x a then 1 else 0) + breaks x xs'
  end.
Definition nruns (xs : list Z) : nat :=
  match xs with [] => 0 | a :: xs' => S (breaks a xs') end.

(** [merge_pass xs ys k]: merging runs two by two turns [xs] into [ys], a
    concatenation of [k] runs. *)
Inductive merge_pass : list Z → list Z → nat → Prop :=
  | mp_nil : merge_pass [] [] 0
  | mp_last a r : run_end a r = (r, []) → merge_pass (a :: r) (a :: r) 1
  | mp_step a r b r2 rest ys k :
      run_end a (r ++ b :: r2 ++ rest) = (r, b :: r2 ++ rest) →
      run_end b (r2 ++ rest) = (r2, rest) →
      merge_pass rest ys k →
      merge_pass (a :: r ++ b :: r2 ++ rest)
        (merge (a :: r) (b :: r2) ++ ys) (S k).

(** Insertion before the first greater element. *)
Fixpoint insert_ordered (e : Z) (xs : list Z) : list Z :=
  match xs with
  | [] => [e]
  | x :: xs' => if less e x then e :: xs else x :: insert_ordered e xs'
  end.

Lemma run_end_app a xs r rest : run_end a xs = (r, rest) → xs = r ++ rest.
Proof.
  revert a r rest. induction xs as [|x xs IH]; cbn; intros a r rest H.
  - by simplify_eq.
  - destruct (less x a); simplify_eq; [done|]. cbn. f_equal.
    eapply IH, surjective_pairing.
Qed.

Lemma breaks_run a xs r rest :
  run_end a xs = (r, rest) → breaks a r = 0%nat ∧ breaks a xs = nruns rest.
Proof.
  revert a r rest. induction xs as [|x xs IH]; cbn; intros a r rest H.
  - by simplify_eq.
  - destruct (less x a) eqn:E; simplify_eq; cbn; [by auto|]. rewrite E.
    destruct (IH x _ _ (surjective_pairing _)). auto.
Qed.

Lemma merge_nil_r xs : merge xs [] = xs.
Proof. by destruct xs. Qed.

Lemma merge_cons x xs y ys :
  merge (x :: xs) (y :: ys) =
  if less y x then y :: merge (x :: xs) ys else x :: merge xs (y :: ys).
Proof. reflexivity. Qed.

Lemma merge_Permutation xs ys : merge xs ys ≡ₚ xs ++ ys.
Proof.
  revert ys. induction xs as [|x xs IHx]; [done|].
  induction ys as [|y ys IHy]; [by rewrite app_nil_r|]. rewrite merge_cons.
  destruct (less y x); [|cbn; by rewrite IHx].
  rewrite IHy. by rewrite <- Permutation_middle.
Qed.

Lemma breaks_app a xs y ys :
  (breaks a (xs ++ y :: ys) ≤ breaks a xs + S (breaks y ys))%nat.
Proof.
  revert a. induction xs as [|x xs IH]; cbn; intros a.
  - destruct (less y a); lia.
  - specialize (IH x). lia.
Qed.

Lemma nruns_app xs ys : (nruns (xs ++ ys) ≤ nruns xs + nruns ys)%nat.
Proof.
  destruct xs as [|x xs]; [done|]. destruct ys as [|y ys]; cbn.
  - rewrite app_nil_r. lia.
  - pose proof (breaks_app x xs y ys). lia.
Qed.

Lemma breaks_Sorted a xs : breaks a xs = 0%nat ↔ Sorted le (a :: xs).
Proof.
  revert a. induction xs as [|x xs IH]; intros a; cbn.
  - split; [by repeat constructor|done].
  - rewrite Nat.eq_add_0, (IH x). unfold le. split.
    + intros [H1 H2]. constructor; [done|]. constructor. by destruct (less x a).
    + intros H. inversion H as [|? ? H1 H2]; subst. inversion H2; subst.
      split; [|done]. by destruct (less x a).
Qed.

Lemma nruns_le xs : (nruns xs ≤ length xs)%nat.
Proof.
  destruct xs as [|a xs]; [done|]. cbn. apply le_n_S.
  revert a. induction xs as [|x xs IH]; cbn; intros a; [done|].
  specialize (IH x). destruct (less x a); lia.
Qed.

(** *** With an asymmetric order *)

Context (less_asym : ∀ x y, less x y = true → less y x = false).

Lemma merge_HdRel z xs ys :
  HdRel le z xs → HdRel le z ys → HdRel le z (merge xs ys).
Proof.
  destruct xs as [|x xs]; [done|]. destruct ys as [|y ys]; [done|]. cbn.
  intros Hx Hy. inversion Hx; inversion Hy; subst. destruct (less y x); by constructor.
Qed.

Lemma merge_Sorted xs ys :
  Sorted le xs → Sorted le ys → Sorted le (merge xs ys).
Proof.
  intros Hx. revert ys. induction Hx as [|x xs Hx IHx Hd]; [done|].
  intros ys Hy. induction Hy as [|y ys Hy IHy Hdy]; [by constructor|].
  rewrite merge_cons. destruct (less y x) eqn:E.
  - constructor; [exact IHy|]. apply (merge_HdRel y (x :: xs) ys); [|done].
    constructor. by apply less_asym.
  - constructor; [apply IHx; by constructor|].
    apply merge_HdRel; [done|]. by constructor.
Qed.

Lemma Sorted_nruns xs : Sorted le xs ↔ (nruns xs ≤ 1)%nat.
Proof.
  destruct xs as [|a xs]; cbn; [split; [lia|constructor]|].
  rewrite <- breaks_Sorted. lia.
Qed.

Lemma merge_pass_Permutation xs ys k : merge_pass xs ys k → ys ≡ₚ xs.
Proof.
  induction 1 as [| |a r b r2 rest ys k H1 H2 H IH]; [done..|].
  rewrite IH, merge_Permutation. cbn. by rewrite <- app_assoc.
Qed.

Lemma merge_pass_runs xs ys k :
  merge_pass xs ys k → (nruns ys ≤ k)%nat ∧ (2 * k ≤ nruns xs + 1)%nat.
Proof.
  induction 1 as [|a r H|a r b r2 rest ys k H1 H2 H [IH1 IH2]]; [cbn; lia| |].
  - apply breaks_run in H as [H _]. cbn. lia.
  - apply breaks_run in H1 as [Hr H1], H2 as [Hr2 H2].
    assert (nruns (merge (a :: r) (b :: r2)) ≤ 1)%nat.
    { by apply Sorted_nruns, merge_Sorted; apply breaks_Sorted. }
    pose proof (nruns_app (merge (a :: r) (b :: r2)) ys).
    cbn [nruns] in *. rewrite H1, H2. lia.
Qed.

Lemma insert_ordered_Permutation e xs : insert_ordered e xs ≡ₚ e :: xs.
Proof.
  induction xs as [|x xs IH]; cbn; [done|].
  destruct (less e x); [done|]. rewrite IH. apply Permutation_swap.
Qed.

Lemma insert_ordered_Sorted e xs : Sorted le xs → Sorted le (insert_ordered e xs).
Proof.
  induction 1 as [|x xs Hs IH Hd]; cbn; [by repeat constructor|].
  destruct (less e x) eqn:E.
  - constructor; [by constructor|]. constructor. by apply less_asym.
  - constructor; [done|]. destruct Hd as [|y xs Hy]; cbn; [by constructor|].
    destruct (less e y); by constructor.
Qed.
End seq.

(** ** The pointer code *)

Section heap.
Context (less : Z → Z → bool).

Lemma right_of_eq h l pre xs ys :
  dlist h l (pre ++ xs ++ ys) →
  (right_of l (xs ++ ys) =? right_of l ys) = bool_decide (xs = []).
Proof.
  intros Hd. destruct xs as [|x xs]; cbn; [by rewrite Z.eqb_refl|].
  apply Z.eqb_neq. intros ->.
  pose proof (dlist_nodup _ _ _ Hd) as [Hx _]%nodes_middle_NoDup.
  apply Hx. rewrite app_assoc. apply right_of_in.
Qed.

Lemma dlist_neq_null h l xs x : dlist h l xs → x ∈ nodes l xs → (x =? NULL) = false.
Proof. intros Hd Hx. apply Z.eqb_neq. intros ->. by apply (dlist_null _ _ _ Hd). Qed.

(** One step of the two scans: the next position, and its predecessor. *)
Lemma scan_step h l pre y ys post :
  dlist h l (pre ++ y :: ys ++ post) →
  list_next h y = Ok (right_of l (ys ++ post)) ∧
  (right_of l (ys ++ post) =? right_of l post) = bool_decide (ys = []) ∧
  list_prev h (right_of l (ys ++ post)) = Ok y.
Proof.
  intros Hd. assert (dlist h l ((pre ++ [y]) ++ ys ++ post)) as Hd'
    by by rewrite <- app_assoc.
  split_and!; [by eapply list_next_cons|by eapply right_of_eq|].
  rewrite (list_prev_spec _ _ _ _ Hd'). by rewrite List.last_last.
Qed.

Lemma is_sorted_spec fuel h l pre xs post :
  dlist h l (pre ++ xs ++ post) → (length xs < fuel)%nat →
  is_sorted less fuel h (right_of l (xs ++ post)) (right_of l post) =
    Ok (bool_decide (nruns less xs ≤ 1)%nat).
Proof.
  intros Hd Hf. unfold is_sorted. rewrite (right_of_eq _ _ _ _ _ Hd).
  destruct xs as [|x xs]; [by rewrite !bool_decide_eq_true_2 by (cbn; auto)|].
  rewrite (bool_decide_eq_false_2 (_ :: _ = [])) by done. cbn [app hd].
  eapply (loop_ok (λ k a, ∃ pre' ys, pre ++ x :: xs = pre' ++ a :: ys ∧ k = S (length ys) ∧
    (breaks less a ys = 0 ↔ breaks less x xs = 0)%nat)); [| |exact Hf].
  2: { exists pre, xs. done. }
  intros k y (pre' & ys & E & -> & Hb).
  assert (dlist h l (pre' ++ y :: ys ++ post)) as Hd'.
  { change (y :: ys ++ post) with ((y :: ys) ++ post). rewrite app_assoc, <- E.
    by rewrite <- app_assoc. }
  destruct (scan_step _ _ _ _ _ _ Hd') as (-> & H2 & H3). cbn [mbind res_bind].
  rewrite H2. destruct ys as [|z ys]; cbn [app hd bool_decide].
  - cbn. eexists. split; [done|]. cbn in *. symmetry. apply bool_decide_eq_true_2. lia.
  - rewrite (bool_decide_eq_false_2 (_ :: _ = [])) by done.
    cbn [app hd] in H3. rewrite H3. cbn in Hb |- *. destruct (less z y).
    + eexists. split; [done|]. cbn. symmetry. apply bool_decide_eq_false_2. lia.
    + eexists. split; [done|]. exists (S (length ys)). split; [cbn; lia|].
      exists (pre' ++ [y]), ys. rewrite E, <- app_assoc. done.
Qed.

Lemma find_end_of_run_spec fuel h l pre a xs :
  dlist h l (pre ++ a :: xs) → (length xs < fuel)%nat →
  find_end_of_run less fuel h a (tail_of l) = Ok (right_of l (run_end less a xs).2).
Proof.
  intros Hd Hf. unfold find_end_of_run.
  rewrite (dlist_neq_null _ _ _ a Hd), (dlist_neq_null _ _ _ (tail_of l) Hd)
    by (unfold nodes; elems).
  pose proof (right_of_tail _ _ _ _ Hd) as E. cbn in E. rewrite E. cbn.
  eapply (loop_ok (λ k b, ∃ pre' ys, pre ++ a :: xs = pre' ++ b :: ys ∧ k = length ys ∧
    (run_end less b ys).2 = (run_end less a xs).2)); [| |exact Hf].
  2: { exists pre, xs. done. }
  intros k b (pre' & ys & Ex & -> & Hb). rewrite Ex in Hd.
  destruct (scan_step h l pre' b ys []) as (H1 & H2 & H3); [by rewrite app_nil_r|].
  rewrite app_nil_r in *. rewrite H1. cbn [mbind res_bind hd] in H2 |- *. rewrite H2.
  destruct ys as [|z ys]; cbn in Hb |- *.
  - eexists. split; [done|]. cbn. by rewrite <- Hb.
  - cbn in H3. rewrite H3. cbn. destruct (less z b).
    + eexists. split; [done|]. cbn in *. by rewrite <- Hb.
    + eexists. split; [done|]. exists (length ys). split; [lia|].
      exists (pre' ++ [b]), ys. rewrite Ex, <- app_assoc. done.
Qed.

(** One iteration of the merge loop: the state is a finished prefix and the
    two remaining runs [A] and [B]. *)
Definition merge_inv (l : Z) (pre post : list Z) (out : list Z) (h0 : heap)
    (k : nat) '((a0, a1b0, h) : Z * Z * heap) : Prop :=
  ∃ done A B, dlist h l (pre ++ done ++ A ++ B ++ post) ∧
    a0 = right_of l (A ++ B ++ post) ∧ a1b0 = right_of l (B ++ post) ∧
    done ++ merge less A B = out ∧ k = (length A + length B)%nat ∧
    agree_off (nodes l (pre ++ out ++ post)) h0 h.

Lemma merge_inv_nodes l pre post done A B :
  nodes l (pre ++ done ++ A ++ B ++ post) ≡ₚ
  nodes l (pre ++ (done ++ merge less A B) ++ post).
Proof. by rewrite merge_Permutation, <- !app_assoc. Qed.

(** The next element of the first run stays where it is. *)
Lemma merge_keep l pre post out h0 k h a A b B :
  dlist h l (pre ++ k ++ (a :: A) ++ (b :: B) ++ post) →
  k ++ merge less (a :: A) (b :: B) = out → less b a = false →
  agree_off (nodes l (pre ++ out ++ post)) h0 h →
  ∃ a', list_next h a = Ok a' ∧
    merge_inv l pre post out h0 (length A + length (b :: B)) (a', b, h).
Proof.
  intros Hd E Hl Ha. rewrite merge_cons, Hl in E.
  exists (right_of l (A ++ (b :: B) ++ post)). split.
  - apply (list_next_cons _ _ (pre ++ k)). by rewrite <- app_assoc.
  - exists (k ++ [a]), A, (b :: B). by rewrite <- !app_assoc.
Qed.

(** The next element of the second run is spliced before the first. *)
Lemma merge_move l pre post out h0 k h a A b B :
  dlist h l (pre ++ k ++ (a :: A) ++ (b :: B) ++ post) →
  k ++ merge less (a :: A) (b :: B) = out → less b a = true →
  agree_off (nodes l (pre ++ out ++ post)) h0 h →
  ∃ b' h', list_next h b = Ok b' ∧ list_prev h b' = Ok b ∧
    list_splice a b b' h = Ok h' ∧
    merge_inv l pre post out h0 (length (a :: A) + length B) (a, b', h').
Proof.
  intros Hd E Hl Ha.
  assert (nodes l (pre ++ k ++ (a :: A) ++ (b :: B) ++ post) ≡ₚ
    nodes l (pre ++ out ++ post)) as Hp by by rewrite merge_inv_nodes, E.
  rewrite merge_cons, Hl in E.
  destruct (scan_step h l (pre ++ k ++ a :: A) b B post) as (H1 & _ & H3);
    [by rewrite <- !app_assoc|].
  destruct (list_splice_spec h l (pre ++ k) a A b [] (B ++ post)) as (h' & H4 & Hd' & Ha');
    [by rewrite <- app_assoc|].
  exists (right_of l (B ++ post)), h'. split_and!; [done..|].
  exists (k ++ [b]), (a :: A), B. split_and!; try done.
  - rewrite <- !app_assoc in Hd' |- *. exact Hd'.
  - by rewrite <- app_assoc.
  - eapply agree_off_trans; [exact Ha|]. rewrite <- Hp.
    rewrite <- !app_assoc in Ha'. exact Ha'.
Qed.

Lemma inplace_merge_spec fuel h l pre A B post :
  dlist h l (pre ++ A ++ B ++ post) →
  Sorted (le less) A → Sorted (le less) B →
  (length A + length B < fuel)%nat →
  ∃ h', inplace_merge less fuel (right_of l (A ++ B ++ post))
          (right_of l (B ++ post)) (right_of l post) h = Ok h' ∧
    dlist h' l (pre ++ merge less A B ++ post) ∧
    agree_off (nodes l (pre ++ merge less A B ++ post)) h h'.
Proof.
  intros Hd HA HB Hf. unfold inplace_merge.
  assert (dlist h l ((pre ++ A) ++ B ++ post)) as Hd1 by by rewrite <- app_assoc.
  assert (dlist h l (((pre ++ A) ++ B) ++ post)) as Hd2 by by rewrite <- app_assoc.
  rewrite (dlist_neq_null _ _ _ _ Hd (right_of_in l pre _)),
    (dlist_neq_null _ _ _ _ Hd1 (right_of_in l (pre ++ A) _)),
    (dlist_neq_null _ _ _ _ Hd2 (right_of_in l ((pre ++ A) ++ B) _)).
  rewrite (is_sorted_spec _ _ _ _ _ _ Hd), (is_sorted_spec _ _ _ _ _ _ Hd1) by lia.
  rewrite !bool_decide_eq_true_2 by by apply Sorted_nruns. cbn [ASSERT mbind res_bind negb].
  eapply (loop_total (merge_inv l pre post (merge less A B) h)
    (λ h', dlist h' l (pre ++ merge less A B ++ post) ∧
      agree_off (nodes l (pre ++ merge less A B ++ post)) h h')); [| |exact Hf].
  2: { by exists [], A, B. }
  clear Hd Hd1 Hd2 HA HB Hf.
  intros k [[a0 a1b0] h1] (dn & A' & B' & Hd & -> & -> & E & -> & Ha).
  rewrite (right_of_eq h1 l (pre ++ dn)) by by rewrite <- app_assoc.
  rewrite (right_of_eq h1 l (pre ++ dn ++ A')) by by rewrite <- !app_assoc.
  destruct (decide (A' = [] ∨ B' = [])) as [Hnil|Hnil].
  { exists (inr h1). split; 
      [by destruct Hnil as [-> | ->]; [|destruct (bool_decide (A' = []))]|].
    split; [|done]. rewrite <- E, <- app_assoc.
    destruct Hnil as [-> | ->]; [|rewrite merge_nil_r]; exact Hd. }
  destruct A' as [|a A']; [tauto|]. destruct B' as [|b B']; [tauto|].
  rewrite !bool_decide_eq_false_2 by done. cbn [negb andb app hd].
  destruct (less b a) eqn:Hl; cbn [negb].
  - destruct (merge_move _ _ _ _ _ _ _ _ _ _ _ Hd E Hl Ha) as (b' & h' & H1 & H2 & H3 & HI).
    rewrite H1. cbn. rewrite H2. cbn. rewrite H3. cbn. eexists. split; [done|].
    eexists. split; [|exact HI]. cbn. lia.
  - destruct (merge_keep _ _ _ _ _ _ _ _ _ _ _ Hd E Hl Ha) as (a' & H1 & HI).
    rewrite H1. cbn. eexists. split; [done|]. eexists. split; [|exact HI]. cbn. lia.
Qed.
(** One pass: the elements before [a0] are merged already. *)
Definition pass_inv (l : Z) (xs : list Z) (h0 : heap)
    (m : nat) '((a0, cnt, h) : Z * Z * heap) : Prop :=
  ∃ dn rest k, dlist h l (dn ++ rest) ∧ a0 = right_of l rest ∧
    cnt = Z.of_nat k ∧ (k + length rest ≤ length xs)%nat ∧ m = length rest ∧
    dn ++ rest ≡ₚ xs ∧ agree_off (nodes l xs) h0 h ∧
    ∀ ys j, merge_pass less rest ys j → merge_pass less xs (dn ++ ys) (k + j).

Definition pass_post (l : Z) (xs : list Z) (h0 : heap) '((cnt, h) : Z * heap) : Prop :=
  ∃ ys k, cnt = Z.of_nat k ∧ merge_pass less xs ys k ∧ dlist h l ys ∧
    agree_off (nodes l xs) h0 h.

Lemma run_Sorted a xs r rest : run_end less a xs = (r, rest) → Sorted (le less) (a :: r).
Proof. intros [H _]%breaks_run. by apply breaks_Sorted. Qed.

(** A pass ends when no run, or only one, is left. *)
Lemma pass_end l xs h0 h dn rest k j :
  dlist h l (dn ++ rest) → merge_pass less rest rest j →
  agree_off (nodes l xs) h0 h →
  (∀ ys j, merge_pass less rest ys j → merge_pass less xs (dn ++ ys) (k + j)) →
  pass_post l xs h0 (Z.of_nat (k + j), h).
Proof. intros Hd Hm Ha Hk. exists (dn ++ rest), (k + j)%nat. auto. Qed.

(** Otherwise two runs are merged. *)
Lemma pass_merge fuel l xs h0 h dn a r b r2 rest k :
  dlist h l (dn ++ a :: r ++ b :: r2 ++ rest) →
  run_end less a (r ++ b :: r2 ++ rest) = (r, b :: r2 ++ rest) →
  run_end less b (r2 ++ rest) = (r2, rest) →
  (length xs < fuel)%nat →
  (k + length (a :: r ++ b :: r2 ++ rest) ≤ length xs)%nat →
  dn ++ a :: r ++ b :: r2 ++ rest ≡ₚ xs → agree_off (nodes l xs) h0 h →
  (∀ ys j, merge_pass less (a :: r ++ b :: r2 ++ rest) ys j →
     merge_pass less xs (dn ++ ys) (k + j)) →
  ∃ h', inplace_merge less fuel a b (right_of l rest) h = Ok h' ∧
    pass_inv l xs h0 (length rest) (right_of l rest, Z.of_nat (S k), h').
Proof.
  intros Hd H1 H2 Hf Hlen Hp Ha Hk.
  destruct (inplace_merge_spec fuel h l dn (a :: r) (b :: r2) rest)
    as (h' & E & Hd' & Ha'); [done|by eapply run_Sorted..| |].
  { repeat (cbn in Hlen; rewrite length_app in Hlen). cbn. lia. }
  exists h'. split; [exact E|].
  assert (dn ++ merge less (a :: r) (b :: r2) ++ rest ≡ₚ xs) as Hp'.
  { rewrite <- Hp, merge_Permutation. cbn. by rewrite <- app_assoc. }
  exists (dn ++ merge less (a :: r) (b :: r2)), rest, (S k).
  rewrite <- app_assoc. split_and!; try done.
  - repeat (cbn in Hlen; rewrite length_app in Hlen). lia.
  - eapply agree_off_trans; [exact Ha|]. by rewrite Hp' in Ha'.
  - intros ys j Hm. rewrite <- app_assoc.
    replace (S k + j)%nat with (k + S j)%nat by lia. by apply Hk, mp_step.
Qed.

Lemma list_sort_pass_spec fuel h l xs :
  dlist h l xs → (length xs < fuel)%nat → Z.of_nat (length xs) < 2 ^ 32 →
  ∃ r, list_sort_pass less fuel l h = Ok r ∧ pass_post l xs h r.
Proof.
  intros Hd Hf Hlen. unfold list_sort_pass. rewrite (list_begin_spec _ _ _ Hd).
  cbn [mbind res_bind].
  eapply (loop_total (pass_inv l xs h)); [| |exact Hf].
  2: { exists [], xs, 0%nat. split_and!; done || lia. }
  clear Hd. intros m [[a0 cnt] h1] HI.
  pose proof HI as (dn & rest & k & Hd & -> & -> & Hle & -> & Hp & Ha & Hk).
  rewrite (list_end_spec _ _ _ Hd). cbn [mbind res_bind].
  rewrite (right_of_tail _ _ _ _ Hd). destruct rest as [|a rest].
  { rewrite bool_decide_eq_true_2 by done. eexists. split; [done|]. cbn.
    replace (Z.of_nat k) with (Z.of_nat (k + 0)) by lia.
    eapply pass_end; eauto. constructor. }
  rewrite bool_decide_eq_false_2 by done. cbn in Hle.
  replace (u32 (Z.of_nat k + 1)) with (Z.of_nat (k + 1)) by c_lia. cbn [hd].
  rewrite (find_end_of_run_spec _ _ _ _ _ _ Hd) by lia. cbn [mbind res_bind].
  destruct (run_end less a rest) as [r rest'] eqn:E1. cbn [snd].
  pose proof (run_end_app _ _ _ _ _ E1) as ->.
  assert (dlist h1 l ((dn ++ a :: r) ++ rest')) as Hd1 by by rewrite <- app_assoc.
  rewrite (right_of_tail _ _ _ _ Hd1). destruct rest' as [|b rest'].
  { rewrite bool_decide_eq_true_2 by done. eexists. split; [done|]. cbn.
    rewrite app_nil_r in *. eapply pass_end; eauto. by constructor. }
  rewrite bool_decide_eq_false_2 by done. cbn [hd]. rewrite length_app in Hle.
  rewrite (find_end_of_run_spec _ _ _ _ _ _ Hd1) by (cbn in Hle; lia).
  destruct (run_end less b rest') as [r2 rest2] eqn:E2. cbn [snd mbind res_bind].
  pose proof (run_end_app _ _ _ _ _ E2) as ->.
  destruct (pass_merge fuel l xs h h1 dn a r b r2 rest2 k) as (h' & -> & HI'); try done.
  { cbn. rewrite length_app. lia. }
  cbn. eexists. split; [done|]. exists (length rest2).
  replace (k + 1)%nat with (S k) by lia. split; [|done].
  cbn. repeat (rewrite length_app; cbn). lia.
Qed.
End heap.
