(* ===== verification/KListProps.v ===== *)
(** * Kernel lists: the theorems

    What lib/kernel/list.c promises of [list_sort], [list_insert_ordered],
    [list_reverse], [list_push_back], [list_pop_front] and [list_max], on the
    pointer level: the code returns, no [ASSERT] fails, the links describe
    the expected sequence, and no node outside the list is written. *)

From S2P Require Import Prelude KList KListSort.

(** ** Reversal *)

Lemma swap_links_total p h :
  is_Some (h !! p) →
  ∃ h', swap_links p h = Ok h' ∧ nxt h' p = prv h p ∧ prv h' p = nxt h p ∧
    agree_off [p] h h'.
Proof.
  intros [n E]. unfold swap_links, set_prev, set_next, load. rewrite E. cbn.
  rewrite lookup_insert_eq. cbn. eexists. split; [done|].
  unfold nxt, prv. rewrite !lookup_insert_eq, E. split_and!; [done..|].
  intros q Hq. elems. by rewrite !lookup_insert_ne.
Qed.

Lemma dlist_nxt h l xs y ys :
  dlist h l (xs ++ y :: ys) → nxt h y = Some (right_of l ys).
Proof.
  intros Hd. destruct (dlist_linked h l (xs ++ [y]) ys) as [H _].
  - by rewrite <- app_assoc.
  - by rewrite List.last_last in H.
Qed.

Lemma chain_rev h h' zs :
  chain h zs → (∀ q, q ∈ zs → nxt h' q = prv h q ∧ prv h' q = nxt h q) →
  chain h' (rev zs).
Proof.
  induction zs as [|x [|y zs] IH]; [done..|]. intros [[H1 H2] Hc] Hs.
  change (rev (x :: y :: zs)) with ((rev zs ++ [y]) ++ [x]).
  rewrite <- app_assoc. cbn [app]. rewrite chain_app. split.
  - apply IH; [done|]. intros q Hq. apply Hs. by right.
  - split; [|done]. split.
    + rewrite (proj1 (Hs y ltac:(elems))). done.
    + rewrite (proj2 (Hs x ltac:(elems))). done.
Qed.

(** [rev_links h0 h dn]: the links of the nodes [dn] are swapped, the rest
    of the heap is as in [h0]. *)
Definition rev_links (h0 h : heap) (dn : list Z) : Prop :=
  (∀ q, q ∈ dn → nxt h q = prv h0 q ∧ prv h q = nxt h0 q) ∧ agree_off dn h0 h.

Lemma reverse_loop fuel h l xs :
  dlist h l xs → (length xs < fuel)%nat →
  ∃ h', loop fuel (λ '(e, h),
      t ← list_end l;
      if e =? t then Ok (inr h)
      else h ← swap_links e h; n ← load h e; Ok (inl (prev n, h)))
    (right_of l xs, h) = Ok h' ∧ rev_links h h' xs.
Proof.
  intros Hd Hf.
  eapply (loop_total (λ k '(e, h1), ∃ dn rest, xs = dn ++ rest ∧
    e = right_of l rest ∧ k = length rest ∧ rev_links h h1 dn)); [| |exact Hf].
  2: { exists [], xs. split_and!; [done..|]. split; [intros; elems|done]. }
  intros k [e h1] (dn & rest & -> & -> & -> & Hs & Ha).
  rewrite (list_end_spec _ _ _ Hd). cbn [mbind res_bind].
  rewrite (right_of_tail _ _ _ _ Hd). destruct rest as [|e rest].
  { eexists. split; [done|]. cbn. by rewrite app_nil_r. }
  cbn [hd]. assert (e ∉ dn) as He.
  { pose proof (dlist_nodup _ _ _ Hd) as [He _]%nodes_middle_NoDup.
    unfold nodes in He. elems. }
  destruct (swap_links_total e h1) as (h2 & E & Hn & Hp & Ha2).
  { rewrite Ha by done. eapply dlist_alloc; [done|]. unfold nodes. elems. }
  rewrite E. cbn.
  assert (prv h2 e = Some (right_of l rest)) as Hp2.
  { rewrite Hp. unfold nxt. rewrite Ha by done. by eapply dlist_nxt. }
  ld Hp2. eexists. split; [done|]. exists (length rest). split; [lia|].
  exists (dn ++ [e]), rest. split_and!; [by rewrite <- app_assoc|done..|]. split.
  - intros q Hq. apply elem_of_app in Hq as [Hq|Hq].
    + assert (q ≠ e) by congruence. unfold nxt, prv. rewrite Ha2 by elems. by apply Hs.
    + elems. rewrite Hn, Hp. unfold nxt, prv. by rewrite Ha by done.
  - intros q Hq. elems. rewrite Ha2 by elems. by apply Ha.
Qed.

(** The four stores after the loop, on a non-empty list from [f] to [g]. *)
Lemma reverse_ends h hd tl f g :
  hd ≠ tl → f ≠ hd → f ≠ tl → g ≠ hd → g ≠ tl →
  nxt h hd = Some f → prv h tl = Some g →
  nxt h f = Some hd → prv h g = Some tl →
  ∃ h', (nh ← load h hd; nt ← load h tl;
     h ← set_next hd (prev nt) h;
     h ← set_prev tl (next nh) h;
     nh ← load h hd; nt ← load h tl;
     hn ← load h (next nh); tp ← load h (prev nt);
     h ← set_prev (next nh) (next tp) h;
     set_next (prev nt) (prev hn) h) = Ok h' ∧
    (∀ x, nxt h' x = if decide (x = hd) then Some g
       else if decide (x = f) then Some tl else nxt h x) ∧
    (∀ x, prv h' x = if decide (x = tl) then Some f
       else if decide (x = g) then Some hd else prv h x) ∧
    agree_off [hd; tl; f; g] h h'.
Proof.
  intros N1 N2 N3 N4 N5 H1 H2 H3 H4. ld H1. ld H2.
  destruct (set_next_total hd g h) as (h1 & -> & X1 & P1 & A1); [by eapply nxt_alloc|].
  cbn. destruct (set_prev_total tl f h1) as (h2 & -> & P2 & X2 & A2).
  { eapply prv_alloc. by rewrite P1. }
  assert (nxt h2 hd = Some g) as B1 by by rewrite X2, X1, decide_True.
  assert (prv h2 tl = Some f) as B2 by by rewrite P2, decide_True.
  assert (prv h2 g = Some tl) as B3 by by rewrite P2, decide_False, P1.
  assert (nxt h2 f = Some hd) as B4 by by rewrite X2, X1, decide_False.
  cbn. ld B1. ld B2. ld B3. ld B4.
  destruct (set_prev_total g hd h2) as (h3 & -> & P3 & X3 & A3); [by eapply prv_alloc|].
  cbn. destruct (set_next_total f tl h3) as (h4 & -> & X4 & P4 & A4).
  { eapply nxt_alloc. by rewrite X3. }
  exists h4. split; [done|]. split_and!.
  - intros x. rewrite X4, X3, X2, X1. repeat case_decide; congruence.
  - intros x. rewrite P4, P3, P2, P1. repeat case_decide; congruence.
  - intros x Hx. elems. by rewrite A4, A3, A2, A1 by elems.
Qed.

Lemma rev_cons_last {A} (f : A) fs : ∃ gs, rev (f :: fs) = List.last fs f :: gs ∧
  List.last gs (List.last fs f) = f.
Proof.
  destruct fs as [|g fs _] using rev_ind; [by exists []|].
  exists (rev fs ++ [f]). cbn. by rewrite rev_app_distr, !List.last_last.
Qed.

Lemma nodes_ends l xs : NoDup (nodes l xs) →
  NoDup xs ∧ (head_of l ∉ xs) ∧ (tail_of l ∉ xs) ∧ head_of l ≠ tail_of l.
Proof.
  unfold nodes. rewrite NoDup_cons, NoDup_app, not_elem_of_app, not_elem_of_cons.
  intros ([H1 [H2 _]] & H3 & H4 & _). split_and!; try done.
  intros Hin. by apply (H4 _ Hin), list_elem_of_singleton.
Qed.

(** The links at the two ends, before and after the loop. *)
Lemma reverse_loop_ends h h1 l f fs :
  dlist h l (f :: fs) → rev_links h h1 (f :: fs) →
  nxt h1 (head_of l) = Some f ∧ prv h1 (tail_of l) = Some (List.last fs f) ∧
  nxt h1 f = Some (head_of l) ∧ prv h1 (List.last fs f) = Some (tail_of l).
Proof.
  intros Hd [Hs Ha].
  destruct (dlist_linked h l [] (f :: fs) Hd) as [H1 H2].
  destruct (dlist_linked h l (f :: fs) []) as [H3 H4]; [by rewrite app_nil_r|].
  rewrite last_cons_dflt in H3, H4. cbn in *.
  destruct (nodes_ends l _ (dlist_nodup _ _ _ Hd)) as (_ & Hh & Ht & _).
  pose proof (last_in f fs) as HL.
  rewrite (proj1 (Hs f ltac:(elems))), (proj2 (Hs _ HL)).
  unfold nxt, prv in *. rewrite !Ha by done. done.
Qed.

(** The links after the four stores form the reversed list. *)
Lemma reverse_chain h h1 h' l f fs :
  dlist h l (f :: fs) → rev_links h h1 (f :: fs) →
  (∀ x, nxt h' x = if decide (x = head_of l) then Some (List.last fs f)
     else if decide (x = f) then Some (tail_of l) else nxt h1 x) →
  (∀ x, prv h' x = if decide (x = tail_of l) then Some f
     else if decide (x = List.last fs f) then Some (head_of l) else prv h1 x) →
  chain h' (nodes l (rev (f :: fs))).
Proof.
  intros Hd [Hs _] Hn Hp.
  destruct (nodes_ends l _ (dlist_nodup _ _ _ Hd)) as (Hnd & Hh & Ht & Hht).
  pose proof (last_in f fs) as HL.
  destruct (rev_cons_last f fs) as (gs & Eg & Ef).
  assert (NoDup (List.last fs f :: gs)) as Hnd'.
  { rewrite <- Eg. by rewrite <- Permutation_rev. }
  unfold nodes. rewrite Eg. cbn [app]. rewrite chain_cons.
  change (List.last fs f :: gs ++ [tail_of l]) with ((List.last fs f :: gs) ++ [tail_of l]).
  rewrite chain_join, Ef. split_and!; [|..|done].
  - split; [by rewrite Hn, decide_True|].
    rewrite Hp, decide_False, decide_True by congruence. done.
  - apply (chain_frame h1).
    + rewrite <- Eg. apply (chain_rev h); [|done].
      pose proof (dlist_chain _ _ _ Hd) as Hc. unfold nodes in Hc.
      change (head_of l :: (f :: fs) ++ [tail_of l])
        with (head_of l :: f :: fs ++ [tail_of l]) in Hc.
      rewrite chain_cons in Hc. destruct Hc as [_ Hc].
      by apply (chain_join h f fs (tail_of l) []) in Hc as [Hc _].
    + intros q Hq. pose proof (removelast_not_last _ _ _ Hnd' Hq). rewrite Ef in *.
      apply elem_of_removelast in Hq. rewrite <- Eg, <- Permutation_rev in Hq.
      rewrite Hn, !decide_False by congruence. done.
    + cbn [tail]. intros q Hq. assert (q ∈ f :: fs) as Hq'.
      { rewrite (Permutation_rev (f :: fs)), Eg. by right. }
      apply NoDup_cons in Hnd' as [HL' _]. rewrite Hp, !decide_False by congruence. done.
  - split; [|by rewrite Hp, decide_True].
    rewrite Hn, decide_False, decide_True; [done..|]. intros ->. elems.
Qed.

(** [list_reverse] reverses the sequence of elements: on every
    well-formed list it returns, with the same nodes linked in the opposite
    order and no other node written. *)
Theorem list_reverse_correct fuel h l xs :
  dlist h l xs → (length xs < fuel)%nat →
  ∃ h', list_reverse fuel l h = Ok h' ∧ dlist h' l (rev xs) ∧
    agree_off (nodes l xs) h h'.
Proof.
  intros Hd Hf. unfold list_reverse. rewrite (list_empty_spec _ _ _ Hd). cbn [mbind res_bind].
  destruct xs as [|f fs]; [by exists h|].
  rewrite bool_decide_eq_false_2, (list_begin_spec _ _ _ Hd) by done. cbn [mbind res_bind].
  destruct (reverse_loop _ _ _ _ Hd Hf) as (h1 & -> & Hrl). cbn [mbind res_bind].
  destruct (reverse_loop_ends _ _ _ _ _ Hd Hrl) as (B1 & B2 & B3 & B4).
  destruct (nodes_ends l _ (dlist_nodup _ _ _ Hd)) as (Hnd & Hh & Ht & Hht).
  pose proof (last_in f fs) as HL.
  destruct (reverse_ends h1 (head_of l) (tail_of l) f (List.last fs f))
    as (h' & E & Hn & Hp & Ha'); try done; try congruence;
    [intros ->; elems|intros ->; elems|].
  exists h'. split; [exact E|]. split; [split|].
  - by eapply reverse_chain.
  - pose proof (dlist_nodup _ _ _ Hd). by rewrite <- Permutation_rev.
  - pose proof (dlist_null _ _ _ Hd). by rewrite <- Permutation_rev.
  - rewrite Hp, decide_False by done. rewrite decide_False by congruence.
    unfold prv. rewrite (proj2 Hrl) by done. apply (dlist_head _ _ _ Hd).
  - rewrite Hn, decide_False by done. rewrite decide_False by (intros E'; rewrite E' in *; elems).
    unfold nxt. rewrite (proj2 Hrl) by done. apply (dlist_tail _ _ _ Hd).
  - eapply agree_off_trans.
    + eapply agree_off_weaken; [|exact (proj2 Hrl)]. unfold nodes. intros; elems.
    + eapply agree_off_weaken; [|exact Ha']. intros q Hq.
      apply elem_of_nodes. repeat (apply elem_of_cons in Hq as [->|Hq]); try tauto;
        [right; left; elems|elems].
Qed.

(** ** Sorting *)

Section sorting.
Context (less : Z → Z → bool).
Context (less_asym : ∀ x y, less x y = true → less y x = false).

Lemma sort_loop fuel h l xs :
  dlist h l xs → (length xs < fuel)%nat → Z.of_nat (length xs) < 2 ^ 32 →
  ∃ h', loop fuel (λ h,
      '(output_run_cnt, h) ← list_sort_pass less fuel l h;
      if 1 <? output_run_cnt then Ok (inl h) else Ok (inr h)) h = Ok h' ∧
    ∃ ys, dlist h' l ys ∧ ys ≡ₚ xs ∧ Sorted (le less) ys ∧ agree_off (nodes l xs) h h'.
Proof.
  intros Hd Hf Hlen.
  eapply (loop_total (λ k h1, ∃ ys, dlist h1 l ys ∧ ys ≡ₚ xs ∧
    agree_off (nodes l xs) h h1 ∧ k = nruns less ys)) with (k := nruns less xs).
  - intros k h1 (ys & Hd1 & Hp & Ha & ->).
    pose proof (Permutation_length Hp) as Hl.
    destruct (list_sort_pass_spec less fuel h1 l ys) as ([cnt h2] & -> & HP); [done|lia..|].
    destruct HP as (zs & k & -> & Hm & Hd2 & Ha2). cbn.
    destruct (merge_pass_runs _ less_asym _ _ _ Hm) as [R1 R2].
    assert (zs ≡ₚ xs) as Hp2 by (rewrite <- Hp; by eapply merge_pass_Permutation).
    assert (agree_off (nodes l xs) h h2).
    { eapply agree_off_trans; [done|]. by rewrite <- Hp. }
    destruct (Z.ltb_spec 1 (Z.of_nat k)); (eexists; split; [done|]); cbn.
    + exists (nruns less zs). split; [lia|]. by exists zs.
    + exists zs. split_and!; try done. apply Sorted_nruns. lia.
  - by exists xs.
  - pose proof (nruns_le less xs). lia.
Qed.

(** C24. [list_sort] sorts any list of fewer than 2^32 elements: the natural
    merge sort terminates, none of the [ASSERT]s in it or in [inplace_merge]
    fails, and afterwards the links run through a permutation of the same
    elements that is in order under the caller's comparison; no node outside
    the list is written.  The comparison is a strict weak order. *)
Theorem list_sort_correct fuel h l xs :
  (∀ x y z, less y x = false → less z y = false → less z x = false) →
  dlist h l xs → (length xs < fuel)%nat → Z.of_nat (length xs) < 2 ^ 32 →
  ∃ h' ys, list_sort less fuel l h = Ok h' ∧ dlist h' l ys ∧ ys ≡ₚ xs ∧
    StronglySorted (λ x y, less y x = false) ys ∧ agree_off (nodes l xs) h h'.
Proof.
  intros Htrans Hd Hf Hlen. unfold list_sort. rewrite (dlist_list_not_null _ _ _ Hd).
  destruct (sort_loop fuel h l xs) as (h' & E & ys & Hd' & Hp & Hs & Ha); [done..|].
  exists h', ys. cbn [negb ASSERT mbind res_bind]. rewrite E. cbn [mbind res_bind].
  rewrite (list_begin_spec _ _ _ Hd'), (list_end_spec _ _ _ Hd'). cbn [mbind res_bind].
  pose proof (is_sorted_spec less fuel h' l [] ys []) as Hb. rewrite app_nil_r in Hb.
  cbn [hd app] in Hb.
  rewrite Hb by (rewrite ?(Permutation_length Hp); done).
  rewrite bool_decide_eq_true_2 by by apply Sorted_nruns.
  split_and!; try done. apply Sorted_StronglySorted; [|done].
  intros x y z. unfold le. apply Htrans.
Qed.

(** [list_insert_ordered] puts a new element before the first element
    greater than it, so that a list in order stays in order and gains
    exactly that element. *)
Theorem list_insert_ordered_correct fuel h l xs e :
  dlist h l xs → e ∉ nodes l xs → e ≠ NULL → is_Some (h !! e) →
  (length xs < fuel)%nat →
  ∃ h', list_insert_ordered less fuel l e h = Ok h' ∧
    dlist h' l (insert_ordered less e xs) ∧
    insert_ordered less e xs ≡ₚ e :: xs ∧
    (Sorted (le less) xs → Sorted (le less) (insert_ordered less e xs)) ∧
    agree_off (e :: nodes l xs) h h'.
Proof.
  intros Hd He He0 Ha Hf. unfold list_insert_ordered.
  rewrite (dlist_list_not_null _ _ _ Hd), (proj2 (Z.eqb_neq e NULL)) by done.
  cbn [negb ASSERT mbind res_bind]. rewrite (list_begin_spec _ _ _ Hd). cbn [mbind res_bind].
  eapply bind_total.
  - eapply (loop_total (λ k p, ∃ pre ys, xs = pre ++ ys ∧ p = right_of l ys ∧
      insert_ordered less e xs = pre ++ insert_ordered less e ys ∧ k = length ys)
      (λ p, ∃ pre ys, xs = pre ++ ys ∧ p = right_of l ys ∧
      insert_ordered less e xs = pre ++ e :: ys)); [| |exact Hf].
    2: { by exists [], xs. }
    intros k p (pre & ys & -> & -> & Ei & ->). rewrite (list_end_spec _ _ _ Hd).
    cbn [mbind res_bind]. rewrite (right_of_tail _ _ _ _ Hd).
    destruct ys as [|y ys]; [eexists; split; [done|]; by exists pre, []|].
    rewrite bool_decide_eq_false_2 by done. cbn [hd]. cbn in Ei.
    destruct (less e y); [eexists; split; [done|]; by exists pre, (y :: ys)|].
    rewrite (list_next_cons _ _ _ _ _ Hd). cbn. eexists. split; [done|].
    exists (length ys). split; [lia|]. exists (pre ++ [y]), ys. by rewrite <- !app_assoc.
  - intros p (pre & ys & E & -> & Ei). rewrite E in Hd, He.
    destruct (list_insert_spec h l pre ys e) as (h' & -> & Hd' & Ha'); [done..|].
    exists h'. rewrite <- Ei in Hd'. rewrite <- E in Ha'.
    split_and!; auto using insert_ordered_Permutation, insert_ordered_Sorted.
Qed.

(** [max_of xs m]: [m] is the earliest of the largest elements of [xs]. *)
Definition max_of (xs : list Z) (m : Z) : Prop :=
  ∃ pre post, xs = pre ++ m :: post ∧
    (∀ x, x ∈ xs → less m x = false) ∧ (∀ x, x ∈ pre → less x m = true).

Lemma less_irrefl x : less x x = false.
Proof. destruct (less x x) eqn:E; [|done]. rewrite <- E. by apply less_asym. Qed.

Lemma max_of_snoc xs m y :
  (∀ x y z, less y x = false → less z y = false → less z x = false) →
  max_of xs m → max_of (xs ++ [y]) (if less m y then y else m).
Proof.
  intros Htrans (pre & post & E & H1 & H2). destruct (less m y) eqn:Hl.
  - exists xs, []. split_and!; [done|..].
    + intros x [Hx| ->%list_elem_of_singleton]%elem_of_app; [eauto|apply less_irrefl].
    + intros x Hx. destruct (less x y) eqn:Hxy; [done|].
      rewrite <- Hl. symmetry. eauto.
  - exists pre, (post ++ [y]). split_and!; [by rewrite E, <- app_assoc| |done].
    intros x [Hx| ->%list_elem_of_singleton]%elem_of_app; auto.
Qed.

(** [list_max] returns the largest element of a non-empty list, and the
    earliest one when there are several: nothing in the list is greater, and
    everything before the result is less than it.  On an empty list it
    returns the list's end. *)
Theorem list_max_correct fuel h l xs :
  (∀ x y z, less y x = false → less z y = false → less z x = false) →
  dlist h l xs → (length xs < fuel)%nat →
  ∃ m, list_max less fuel h l = Ok m ∧
    (xs = [] → m = tail_of l) ∧ (xs ≠ [] → max_of xs m).
Proof.
  intros Htrans Hd Hf. unfold list_max.
  rewrite (list_begin_spec _ _ _ Hd), (list_end_spec _ _ _ Hd). cbn [mbind res_bind].
  rewrite (right_of_tail h l [] xs Hd). destruct xs as [|x xs]; [by eexists|].
  rewrite bool_decide_eq_false_2 by done. cbn [hd].
  rewrite (list_next_cons h l [] x xs Hd). cbn [mbind res_bind].
  edestruct (loop_total (λ k '(m, e), ∃ pre ys, x :: xs = pre ++ ys ∧
      e = right_of l ys ∧ k = length ys ∧ max_of pre m) (max_of (x :: xs)))
    with (k := length xs) as (m & E & Hm); [| | |exists m; split; [exact E|done]].
  - intros k [m e] (pre & ys & Ex & -> & -> & Hm). rewrite Ex in Hd.
    rewrite (right_of_tail _ _ _ _ Hd). destruct ys as [|y ys].
    + eexists. split; [done|]. by rewrite Ex, app_nil_r.
    + rewrite bool_decide_eq_false_2 by done. cbn [hd].
      rewrite (list_next_cons _ _ _ _ _ Hd). cbn. eexists. split; [done|].
      exists (length ys). split; [lia|]. exists (pre ++ [y]), ys.
      rewrite <- app_assoc. split_and!; auto using max_of_snoc.
  - exists [x], xs. split_and!; try done. exists [], []. split_and!; [done| |].
    + intros z ->%list_elem_of_singleton. apply less_irrefl.
    + by intros z Hz%not_elem_of_nil.
  - cbn in Hf. lia.
Qed.
End sorting.

(** ** The list as a double-ended queue *)

(** [list_push_back], [list_push_front], [list_pop_front] and
    [list_pop_back] are the four ends of a deque: pushing a fresh element
    extends the sequence at that end, popping returns the element at the end
    and removes it; popping an empty list fails its [ASSERT]. *)
Theorem list_deque_correct h l xs e :
  dlist h l xs → e ∉ nodes l xs → e ≠ NULL → is_Some (h !! e) →
  (∃ h', list_push_back l e h = Ok h' ∧ dlist h' l (xs ++ [e])) ∧
  (∃ h', list_push_front l e h = Ok h' ∧ dlist h' l (e :: xs)) ∧
  (∀ x xs', xs = x :: xs' →
     ∃ h', list_pop_front l h = Ok (h', x) ∧ dlist h' l xs') ∧
  (∀ x xs', xs = xs' ++ [x] →
     ∃ h', list_pop_back l h = Ok (h', x) ∧ dlist h' l xs') ∧
  (xs = [] → list_pop_front l h = Err EAssert ∧ list_pop_back l h = Err EAssert).
Proof.
  intros Hd He He0 Ha.
  assert (dlist h l (xs ++ [])) as Hd' by by rewrite app_nil_r.
  split_and!.
  - unfold list_push_back. rewrite (list_end_spec _ _ _ Hd). cbn [mbind res_bind].
    destruct (list_insert_spec h l xs [] e) as (h' & H & ? & _); rewrite ?app_nil_r; eauto.
  - unfold list_push_front. rewrite (list_begin_spec _ _ _ Hd). cbn [mbind res_bind].
    destruct (list_insert_spec h l [] xs e) as (h' & H & ? & _); eauto.
  - intros x xs' ->. destruct (list_remove_spec h l [] x xs' Hd) as (h' & E & Hd1 & _).
    exists h'. split; [|done]. unfold list_pop_front, list_front.
    rewrite (list_empty_spec _ _ _ Hd). cbn.
    destruct (dlist_linked h l [] (x :: xs') Hd) as [Hn _]. cbn in Hn.
    ld Hn. by rewrite E.
  - intros x xs' ->. destruct (list_remove_spec h l xs' x []) as (h' & E & Hd1 & _); [done|].
    exists h'. rewrite app_nil_r in Hd1. split; [|done].
    unfold list_pop_back, list_back. rewrite (list_empty_spec _ _ _ Hd). cbn.
    rewrite bool_decide_eq_false_2 by by destruct xs'. cbn.
    destruct (dlist_linked h l _ [] Hd') as [_ Hp]. rewrite List.last_last in Hp.
    cbn in Hp. ld Hp. by rewrite E.
  - intros ->. unfold list_pop_front, list_pop_back, list_front, list_back.
    by rewrite (list_empty_spec _ _ _ Hd).
Qed.

(** ** Witnesses *)

(** A list at 4096 of three elements, and a free element at 9000. *)
Definition demo_heap : heap := list_to_map
  [(4096, ListElem 0 8192); (8192, ListElem 4096 8208);
   (8208, ListElem 8192 8224); (8224, ListElem 8208 4104);
   (4104, ListElem 8224 0); (9000, ListElem 0 0)].
Definition demo_less (a b : Z) : bool := a mod 7 <? b mod 7.

Lemma demo_dlist : dlist demo_heap 4096 [8192; 8208; 8224].
Proof.
  split; try (vm_compute; done).
  - apply (bool_decide_unpack _). vm_compute. exact I.
  - apply (bool_decide_unpack _). vm_compute. exact I.
Qed.

Lemma demo_less_asym x y : demo_less x y = true → demo_less y x = false.
Proof. unfold demo_less. lia. Qed.
Lemma demo_less_trans x y z :
  demo_less y x = false → demo_less z y = false → demo_less z x = false.
Proof. unfold demo_less. lia. Qed.

Lemma list_reverse_witness :
  ∃ h', list_reverse 4 4096 demo_heap = Ok h' ∧ dlist h' 4096 [8224; 8208; 8192] ∧
    agree_off (nodes 4096 [8192; 8208; 8224]) demo_heap h'.
Proof.
  apply (list_reverse_correct 4 demo_heap 4096 [8192; 8208; 8224]).
  - exact demo_dlist.
  - cbn. lia.
Defined.

Lemma list_sort_witness :
  ∃ h' ys, list_sort demo_less 4 4096 demo_heap = Ok h' ∧ dlist h' 4096 ys ∧
    ys ≡ₚ [8192; 8208; 8224] ∧
    StronglySorted (λ x y, demo_less y x = false) ys ∧
    agree_off (nodes 4096 [8192; 8208; 8224]) demo_heap h'.
Proof.
  apply (list_sort_correct demo_less demo_less_asym 4 demo_heap 4096 [8192; 8208; 8224]).
  - exact demo_less_trans.
  - exact demo_dlist.
  - cbn. lia.
  - cbn. lia.
Defined.

Lemma list_insert_ordered_witness :
  ∃ h', list_insert_ordered demo_less 4 4096 9000 demo_heap = Ok h' ∧
    dlist h' 4096 (insert_ordered demo_less 9000 [8192; 8208; 8224]) ∧
    insert_ordered demo_less 9000 [8192; 8208; 8224] ≡ₚ [9000; 8192; 8208; 8224] ∧
    (Sorted (le demo_less) [8192; 8208; 8224] →
     Sorted (le demo_less) (insert_ordered demo_less 9000 [8192; 8208; 8224])) ∧
    agree_off (9000 :: nodes 4096 [8192; 8208; 8224]) demo_heap h'.
Proof.
  apply (list_insert_ordered_correct demo_less demo_less_asym).
  - exact demo_dlist.
  - apply (bool_decide_unpack _). vm_compute. exact I.
  - done.
  - vm_compute. by eexists.
  - cbn. lia.
Defined.

Lemma list_max_witness :
  ∃ m, list_max demo_less 4 demo_heap 4096 = Ok m ∧
    ([8192; 8208; 8224] = [] → m = tail_of 4096) ∧
    ([8192; 8208; 8224] ≠ [] → max_of demo_less [8192; 8208; 8224] m).
Proof.
  apply (list_max_correct demo_less demo_less_asym).
  - exact demo_less_trans.
  - exact demo_dlist.
  - cbn. lia.
Defined.

Lemma list_deque_witness :
  ∃ h', list_push_back 4096 9000 demo_heap = Ok h' ∧
    dlist h' 4096 [8192; 8208; 8224; 9000].
Proof.
  apply (list_deque_correct demo_heap 4096 [8192; 8208; 8224] 9000).
  - exact demo_dlist.
  - apply (bool_decide_unpack _). vm_compute. exact I.
  - done.
  - vm_compute. by eexists.
Defined.
