(* ===== verification/Bitmap.v ===== *)
(** * lib/kernel/bitmap.c

    A bitmap is an array of 32-bit elements.  [bit b i] is the abstract view,
    a function from bit numbers to booleans; every operation is proved to do
    to that view what its comment says.  The contents of freshly allocated
    storage and the outcome of [malloc] are arguments of the constructors. *)

From S2P Require Import Prelude.

Definition ELEM_BITS : Z := 32.
Definition BITMAP_ERROR : Z := UINT_MAX.

Record bitmap := Bitmap { bit_cnt : Z; bits : list Z }.

Definition elem_idx (bit_idx : Z) : Z := bit_idx / ELEM_BITS.
Definition bit_mask (bit_idx : Z) : Z := u32 (Z.shiftl 1 (bit_idx mod ELEM_BITS)).

(** [DIV_ROUND_UP (bit_cnt, ELEM_BITS)] of lib/round.h, in [size_t]. *)
Definition elem_cnt (bit_cnt : Z) : Z := u32 (bit_cnt + ELEM_BITS - 1) / ELEM_BITS.
Definition byte_cnt (bit_cnt : Z) : Z := u32 (4 * elem_cnt bit_cnt).

Definition last_mask (b : bitmap) : Z :=
  let last_bits := bit_cnt b mod ELEM_BITS in
  if last_bits =? 0 then UINT_MAX else u32 (Z.shiftl 1 last_bits - 1).

(** [b->bits[idx]] read and written; outside the array is a fault. *)
Definition elem_load (b : bitmap) (idx : Z) : res Z := deref (bits b !! Z.to_nat idx).
Definition elem_store (b : bitmap) (idx v : Z) : res bitmap :=
  elem_load b idx;; Ok (Bitmap (bit_cnt b) (<[Z.to_nat idx := v]> (bits b))).

Definition bitmap_size (b : bitmap) : Z := bit_cnt b.
Definition bitmap_buf_size (bit_cnt : Z) : Z := u32 (8 + byte_cnt bit_cnt).

Definition bitmap_mark (b : bitmap) (bit_idx : Z) : res bitmap :=
  let idx := elem_idx bit_idx in let mask := bit_mask bit_idx in
  e ← elem_load b idx; elem_store b idx (Z.lor e mask).

Definition bitmap_reset (b : bitmap) (bit_idx : Z) : res bitmap :=
  let idx := elem_idx bit_idx in let mask := bit_mask bit_idx in
  e ← elem_load b idx; elem_store b idx (Z.land e (u32 (Z.lnot mask))).

Definition bitmap_flip (b : bitmap) (bit_idx : Z) : res bitmap :=
  let idx := elem_idx bit_idx in let mask := bit_mask bit_idx in
  e ← elem_load b idx; elem_store b idx (Z.lxor e mask).

Definition bitmap_set (b : bitmap) (idx : Z) (value : bool) : res bitmap :=
  ASSERT (idx <? bit_cnt b);;
  if value then bitmap_mark b idx else bitmap_reset b idx.

Definition bitmap_test (b : bitmap) (idx : Z) : res bool :=
  ASSERT (idx <? bit_cnt b);;
  e ← elem_load b (elem_idx idx); Ok (negb (Z.land e (bit_mask idx) =? 0)).

(** The three assertions at the top of the range operations; [start + cnt]
    is computed in [size_t]. *)
Definition range_ok (b : bitmap) (start cnt : Z) : res unit :=
  ASSERT (start <=? bit_cnt b);; ASSERT (u32 (start + cnt) <=? bit_cnt b).

Definition bitmap_set_multiple (b : bitmap) (start cnt : Z) (value : bool) : res bitmap :=
  range_ok b start cnt;;
  for_up (Z.to_nat cnt) 0 (λ i b, bitmap_set b (u32 (start + i)) value) b.

Definition bitmap_set_all (b : bitmap) (value : bool) : res bitmap :=
  bitmap_set_multiple b 0 (bitmap_size b) value.

Definition bitmap_count (b : bitmap) (start cnt : Z) (value : bool) : res Z :=
  range_ok b start cnt;;
  for_up (Z.to_nat cnt) 0 (λ i value_cnt,
    t ← bitmap_test b (u32 (start + i));
    Ok (if eqb t value then u32 (value_cnt + 1) else value_cnt)) 0.

Definition bitmap_contains (b : bitmap) (start cnt : Z) (value : bool) : res bool :=
  range_ok b start cnt;;
  r ← for_ret (Z.to_nat cnt) 0 (λ i (_ : unit),
    t ← bitmap_test b (u32 (start + i));
    Ok (if eqb t value then inr true else inl tt)) tt;
  Ok (match r with inl _ => false | inr x => x end).

Definition bitmap_any (b : bitmap) (start cnt : Z) : res bool :=
  bitmap_contains b start cnt true.
Definition bitmap_none (b : bitmap) (start cnt : Z) : res bool :=
  r ← bitmap_contains b start cnt true; Ok (negb r).
Definition bitmap_all (b : bitmap) (start cnt : Z) : res bool :=
  r ← bitmap_contains b start cnt false; Ok (negb r).

Definition bitmap_scan (b : bitmap) (start cnt : Z) (value : bool) : res Z :=
  ASSERT (start <=? bit_cnt b);;
  if cnt <=? bit_cnt b then
    let last := bit_cnt b - cnt in
    r ← for_ret (Z.to_nat (last - start + 1)) start (λ i (_ : unit),
      c ← bitmap_contains b i cnt (negb value);
      Ok (if negb c then inr i else inl tt)) tt;
    Ok (match r with inl _ => BITMAP_ERROR | inr i => i end)
  else Ok BITMAP_ERROR.

Definition bitmap_scan_and_flip (b : bitmap) (start cnt : Z) (value : bool)
    : res (bitmap * Z) :=
  idx ← bitmap_scan b start cnt value;
  b ← (if negb (idx =? BITMAP_ERROR) then bitmap_set_multiple b idx cnt (negb value)
       else Ok b);
  Ok (b, idx).

(** [bitmap_create (bit_cnt)]: [mem1] says whether the first [malloc]
    succeeds, [mem2] is the array the second one returns. *)
Definition bitmap_create (bit_cnt : Z) (mem1 : bool) (mem2 : option (list Z))
    : res (option bitmap) :=
  if mem1 then
    match mem2 with
    | Some a => b ← bitmap_set_all (Bitmap bit_cnt a) false; Ok (Some b)
    | None => if bit_cnt =? 0
              then b ← bitmap_set_all (Bitmap bit_cnt []) false; Ok (Some b)
              else Ok None
    end
  else Ok None.

(** [block] is the array behind the header in the caller's buffer. *)
Definition bitmap_create_in_buf (bit_cnt : Z) (block : list Z) (block_size : Z)
    : res bitmap :=
  ASSERT (bitmap_buf_size bit_cnt <=? block_size);;
  bitmap_set_all (Bitmap bit_cnt block) false.

(** ** File input and output

    The elements as they lie in memory, least significant byte first. *)
Definition elem_bytes (e : Z) : list Z :=
  [e mod 256; Z.shiftr e 8 mod 256; Z.shiftr e 16 mod 256; Z.shiftr e 24 mod 256].
Fixpoint bytes_elems (bs : list Z) : list Z :=
  match bs with
  | b0 :: b1 :: b2 :: b3 :: bs' =>
      (b0 + Z.shiftl b1 8 + Z.shiftl b2 16 + Z.shiftl b3 24) :: bytes_elems bs'
  | _ => []
  end.

Definition bitmap_file_size (b : bitmap) : Z := byte_cnt (bit_cnt b).

Section file.
Context {F : Type}.
(** [file_read_at file size ofs] returns the bytes read, at most [size];
    [file_write_at bytes ofs file] the file and the number of bytes
    written. *)
Context (file_read_at : F → Z → Z → res (list Z)).
Context (file_write_at : list Z → Z → F → res (F * Z)).

Definition bitmap_read (b : bitmap) (file : F) : res (bitmap * bool) :=
  if 0 <? bit_cnt b then
    let size := byte_cnt (bit_cnt b) in
    got ← file_read_at file size 0;
    let old := concat (elem_bytes <$> bits b) in
    let b := Bitmap (bit_cnt b) (bytes_elems (got ++ drop (length got) old)) in
    let last := elem_cnt (bit_cnt b) - 1 in
    e ← elem_load b last;
    b ← elem_store b last (Z.land e (last_mask b));
    Ok (b, Z.of_nat (length got) =? size)
  else Ok (b, true).

Definition bitmap_write (b : bitmap) (file : F) : res (F * bool) :=
  let size := byte_cnt (bit_cnt b) in
  '(file, n) ← file_write_at (take (Z.to_nat size) (concat (elem_bytes <$> bits b))) 0 file;
  Ok (file, n =? size).
End file.

(** ** The abstract view *)

Definition bit (b : bitmap) (i : Z) : bool :=
  Z.testbit (bits b !!! Z.to_nat (i / 32)) (i mod 32).

Record bitmap_wf (b : bitmap) : Prop := {
  wf_cnt : 0 ≤ bit_cnt b ≤ 2 ^ 32 - 32;
  wf_len : Z.of_nat (length (bits b)) = elem_cnt (bit_cnt b);
  wf_elems : Forall is_u32 (bits b);
}.

(** [sets b b' start cnt v]: [b'] is [b] with the [cnt] bits from [start] on
    set to [v]. *)
Definition sets (b b' : bitmap) (start cnt : Z) (v : bool) : Prop :=
  bitmap_wf b' ∧ bit_cnt b' = bit_cnt b ∧
  ∀ j, 0 ≤ j < bit_cnt b →
    bit b' j = if (start <=? j) && (j <? start + cnt) then v else bit b j.

(** All [cnt] bits from [i] on equal [v]. *)
Definition group (b : bitmap) (i cnt : Z) (v : bool) : Prop :=
  ∀ j, i ≤ j < i + cnt → bit b j = v.

Lemma elem_cnt_eq n : 0 ≤ n ≤ 2 ^ 32 - 32 → elem_cnt n = (n + 31) / 32.
Proof.
  intros. unfold elem_cnt, ELEM_BITS. rewrite u32_small; [f_equal; lia|]. c_unfold; lia.
Qed.

Lemma idx_in_range b i : bitmap_wf b → 0 ≤ i < bit_cnt b →
  (Z.to_nat (i / 32) < length (bits b))%nat.
Proof.
  intros Hwf Hi. pose proof (wf_len _ Hwf) as Hl.
  rewrite elem_cnt_eq in Hl by apply Hwf. Z.div_mod_to_equations. lia.
Qed.

Lemma elem_load_ok b i : bitmap_wf b → 0 ≤ i < bit_cnt b →
  ∃ e, elem_load b (elem_idx i) = Ok e ∧ is_u32 e ∧
    bits b !! Z.to_nat (i / 32) = Some e ∧ bit b i = Z.testbit e (i mod 32).
Proof.
  intros Hwf Hi.
  destruct (lookup_lt_is_Some_2 _ _ (idx_in_range b i Hwf Hi)) as [e He].
  exists e. unfold elem_load, elem_idx, ELEM_BITS, bit. rewrite He. split_and!; try done.
  - by eapply Forall_lookup_1; [apply Hwf|].
  - by rewrite (list_lookup_total_correct _ _ _ He).
Qed.

(** Storing an element that differs in one bit only. *)
Lemma elem_store_sets b i e e' v :
  bitmap_wf b → 0 ≤ i < bit_cnt b →
  bits b !! Z.to_nat (i / 32) = Some e → is_u32 e' →
  (∀ k, 0 ≤ k < 32 → Z.testbit e' k = if k =? i mod 32 then v else Z.testbit e k) →
  ∃ b', elem_store b (elem_idx i) e' = Ok b' ∧ sets b b' i 1 v.
Proof.
  intros Hwf Hi He He' Hk. unfold elem_store, elem_load, elem_idx, ELEM_BITS.
  rewrite He. cbn. eexists. split; [done|]. split_and!; [split| |]; cbn; try apply Hwf.
  - rewrite length_insert. apply Hwf.
  - apply Forall_insert; [apply Hwf|done].
  - done.
  - intros j Hj. unfold bit. cbn. pose proof (idx_in_range b i Hwf Hi).
    destruct (decide (j / 32 = i / 32)) as [E|E].
    + rewrite E, list_lookup_total_insert_eq, (list_lookup_total_correct _ _ _ He) by done.
      rewrite Hk by (apply Z.mod_pos_bound; lia).
      destruct (Z.eqb_spec (j mod 32) (i mod 32)) as [E'|E'].
      * replace ((i <=? j) && (j <? i + 1)) with true; [done|]. Z.div_mod_to_equations. lia.
      * replace ((i <=? j) && (j <? i + 1)) with false; [done|].
        destruct (Z.eq_dec i j) as [->|]; [done|lia].
    + rewrite list_lookup_total_insert_ne.
      * replace ((i <=? j) && (j <? i + 1)) with false; [done|].
        destruct (Z.eq_dec i j) as [->|]; [done|lia].
      * intros E'. apply E. apply Z2Nat.inj in E'; [done|apply Z.div_pos; lia..].
Qed.

Lemma bit_mask_eq i : bit_mask i = 2 ^ (i mod 32).
Proof.
  unfold bit_mask, ELEM_BITS. rewrite Z.shiftl_1_l. pose proof (Z.mod_pos_bound i 32).
  apply u32_small. split; [apply Z.pow_nonneg; lia|]. apply Z.pow_lt_mono_r; lia.
Qed.

Lemma bit_mask_u32 i : is_u32 (bit_mask i).
Proof. unfold bit_mask. auto with cint. Qed.

Lemma bit_mask_testbit i k : 0 ≤ k → Z.testbit (bit_mask i) k = (k =? i mod 32).
Proof.
  intros. rewrite bit_mask_eq, Z.pow2_bits_eqb by (apply Z.mod_pos_bound; lia).
  apply Z.eqb_sym.
Qed.
#[export] Hint Resolve bit_mask_u32 : cint.

(** [bit_case]: a single bit of the updated element. *)
Ltac bit_case :=
  let k := fresh "k" in let Hk := fresh "Hk" in
  intros k Hk; rewrite ?Z.lor_spec, ?Z.land_spec, ?Z.lxor_spec;
  unfold u32; rewrite ?wrap_bits, ?Z.lnot_spec, ?bit_mask_testbit by lia;
  match goal with |- context [k =? ?m] => destruct (Z.eqb_spec k m) as [->|] end;
  rewrite ?orb_true_r, ?orb_false_r, ?andb_true_r, ?andb_false_r,
    ?xorb_true_r, ?xorb_false_r; try done; try congruence.

Lemma bitmap_mark_spec b i : bitmap_wf b → 0 ≤ i < bit_cnt b →
  ∃ b', bitmap_mark b i = Ok b' ∧ sets b b' i 1 true.
Proof.
  intros Hwf Hi. destruct (elem_load_ok b i Hwf Hi) as (e & E & He & Hl & Hb).
  unfold bitmap_mark. rewrite E. cbn [mbind res_bind].
  eapply elem_store_sets; eauto with cint. bit_case.
Qed.

Lemma bitmap_reset_spec b i : bitmap_wf b → 0 ≤ i < bit_cnt b →
  ∃ b', bitmap_reset b i = Ok b' ∧ sets b b' i 1 false.
Proof.
  intros Hwf Hi. destruct (elem_load_ok b i Hwf Hi) as (e & E & He & Hl & Hb).
  unfold bitmap_reset. rewrite E. cbn [mbind res_bind].
  eapply elem_store_sets; eauto with cint. bit_case.
Qed.

Lemma bitmap_flip_spec b i : bitmap_wf b → 0 ≤ i < bit_cnt b →
  ∃ b', bitmap_flip b i = Ok b' ∧ sets b b' i 1 (negb (bit b i)).
Proof.
  intros Hwf Hi. destruct (elem_load_ok b i Hwf Hi) as (e & E & He & Hl & Hb).
  unfold bitmap_flip. rewrite E. cbn [mbind res_bind].
  eapply elem_store_sets; eauto with cint. bit_case.
Qed.

Lemma bitmap_set_spec b i v : bitmap_wf b → 0 ≤ i < bit_cnt b →
  ∃ b', bitmap_set b i v = Ok b' ∧ sets b b' i 1 v.
Proof.
  intros Hwf Hi. unfold bitmap_set.
  rewrite (proj2 (Z.ltb_lt i (bit_cnt b))) by lia. cbn.
  destruct v; [by apply bitmap_mark_spec|by apply bitmap_reset_spec].
Qed.

Lemma bitmap_test_spec b i : bitmap_wf b → 0 ≤ i < bit_cnt b →
  bitmap_test b i = Ok (bit b i).
Proof.
  intros Hwf Hi. destruct (elem_load_ok b i Hwf Hi) as (e & E & He & Hl & Hb).
  unfold bitmap_test. rewrite (proj2 (Z.ltb_lt i (bit_cnt b))) by lia. cbn [ASSERT].
  rewrite E, Hb. cbn. f_equal. rewrite bit_mask_eq. pose proof (Z.mod_pos_bound i 32).
  destruct (Z.testbit e (i mod 32)) eqn:Ht.
  - apply negb_true_iff, Z.eqb_neq. intros H0.
    assert (Z.testbit (Z.land e (2 ^ (i mod 32))) (i mod 32) = false) as Hf
      by (rewrite H0; apply Z.bits_0).
    rewrite Z.land_spec, Ht, Z.pow2_bits_true in Hf by lia. done.
  - apply negb_false_iff, Z.eqb_eq, Z.bits_inj'. intros k Hk.
    rewrite Z.land_spec, Z.bits_0, Z.pow2_bits_eqb by lia.
    destruct (Z.eqb_spec (i mod 32) k) as [<-|]; [by rewrite Ht|apply andb_false_r].
Qed.

(** ** Ranges *)

Lemma range_ok_true b start cnt :
  bitmap_wf b → 0 ≤ start → 0 ≤ cnt → start + cnt ≤ bit_cnt b →
  range_ok b start cnt = Ok tt.
Proof.
  intros Hwf ? ? ?. pose proof (wf_cnt _ Hwf). unfold range_ok.
  rewrite (proj2 (Z.leb_le start _)) by lia. cbn.
  rewrite u32_small by (c_unfold; lia). by rewrite (proj2 (Z.leb_le _ _)) by lia.
Qed.

Lemma sets_refl b start v : bitmap_wf b → sets b b start 0 v.
Proof.
  intros Hwf. split_and!; [done..|]. intros j Hj.
  by replace ((start <=? j) && (j <? start + 0)) with false by lia.
Qed.

Lemma sets_snoc b b1 b2 start n v :
  0 ≤ n → sets b b1 start n v → sets b1 b2 (start + n) 1 v → sets b b2 start (n + 1) v.
Proof.
  intros Hn (_ & Hc1 & H1) (Hwf & Hc2 & H2). split_and!; [done|congruence|].
  intros j Hj. rewrite H2, H1 by lia.
  destruct (Z.leb_spec start j), (Z.ltb_spec j (start + n)),
    (Z.leb_spec (start + n) j), (Z.ltb_spec j (start + n + 1)),
    (Z.ltb_spec j (start + (n + 1))); cbn; done || lia.
Qed.

Lemma bitmap_set_multiple_spec b start cnt v :
  bitmap_wf b → 0 ≤ start → 0 ≤ cnt → start + cnt ≤ bit_cnt b →
  ∃ b', bitmap_set_multiple b start cnt v = Ok b' ∧ sets b b' start cnt v.
Proof.
  intros Hwf Hs Hc Hr. unfold bitmap_set_multiple. rewrite range_ok_true by done.
  cbn [mbind res_bind]. pose proof (wf_cnt _ Hwf).
  destruct (for_up_total (λ i b', sets b b' start i v)
    (λ i b, bitmap_set b (u32 (start + i)) v) (Z.to_nat cnt) 0 b) as (b' & E & Hb').
  - intros i b1 Hi Hb1. rewrite u32_small by (c_unfold; lia).
    destruct (bitmap_set_spec b1 (start + i) v) as (b2 & E & Hb2).
    + apply Hb1.
    + destruct Hb1 as (_ & -> & _). lia.
    + exists b2. split; [done|]. eapply sets_snoc; [lia|done..].
  - by apply sets_refl.
  - exists b'. split; [done|]. by rewrite Z2Nat.id in Hb' by lia.
Qed.

(** The number of bits [j] of [n] from [start] on with [bit b j = v]. *)
Fixpoint count_bits (b : bitmap) (start : Z) (n : nat) (v : bool) : Z :=
  match n with
  | O => 0
  | S n' => count_bits b start n' v +
      (if eqb (bit b (start + Z.of_nat n')) v then 1 else 0)
  end.

Lemma count_bits_range b start n v : 0 ≤ count_bits b start n v ≤ Z.of_nat n.
Proof. induction n as [|n IH]; cbn [count_bits]; [lia|]. destruct (eqb _ v); lia. Qed.

Lemma count_bits_pos b start n v j :
  start ≤ j < start + Z.of_nat n → bit b j = v → 0 < count_bits b start n v.
Proof.
  induction n as [|n IH]; intros Hj Hb; [lia|]. cbn [count_bits].
  pose proof (count_bits_range b start n v).
  destruct (Z.eq_dec j (start + Z.of_nat n)) as [->|].
  - rewrite Hb, eqb_reflx. lia.
  - assert (0 < count_bits b start n v) by (apply IH; [lia|done]).
    destruct (eqb _ v); lia.
Qed.

Lemma count_bits_none b start n v :
  group b start (Z.of_nat n) (negb v) → count_bits b start n v = 0.
Proof.
  induction n as [|n IH]; intros Hg; [done|]. cbn [count_bits].
  rewrite IH by (intros j Hj; apply Hg; lia). rewrite Hg by lia. by destruct v.
Qed.

Lemma count_bits_total b start n :
  count_bits b start n true + count_bits b start n false = Z.of_nat n.
Proof.
  induction n as [|n IH]; [done|]. cbn [count_bits].
  destruct (bit b (start + Z.of_nat n)); cbn; lia.
Qed.

Lemma bitmap_count_spec b start cnt v :
  bitmap_wf b → 0 ≤ start → 0 ≤ cnt → start + cnt ≤ bit_cnt b →
  bitmap_count b start cnt v = Ok (count_bits b start (Z.to_nat cnt) v).
Proof.
  intros Hwf Hs Hc Hr. unfold bitmap_count. rewrite range_ok_true by done.
  cbn [mbind res_bind]. pose proof (wf_cnt _ Hwf).
  destruct (for_up_total (λ i n, n = count_bits b start (Z.to_nat i) v)
    (λ i value_cnt, t ← bitmap_test b (u32 (start + i));
      Ok (if eqb t v then u32 (value_cnt + 1) else value_cnt)) (Z.to_nat cnt) 0 0)
    as (n & -> & ->); [|done|].
  - intros i n Hi ->. rewrite (u32_small (start + i)) by (c_unfold; lia).
    rewrite bitmap_test_spec by (done || lia). cbn [mbind res_bind]. eexists. split; [done|].
    pose proof (count_bits_range b start (Z.to_nat i) v).
    replace (Z.to_nat (i + 1)) with (S (Z.to_nat i)) by lia. cbn [count_bits].
    rewrite Z2Nat.id by lia. destruct (eqb _ v); [|lia].
    apply u32_small. c_unfold. lia.
  - do 2 f_equal. lia.
Qed.

Lemma bitmap_contains_spec b start cnt v :
  bitmap_wf b → 0 ≤ start → 0 ≤ cnt → start + cnt ≤ bit_cnt b →
  ∃ r, bitmap_contains b start cnt v = Ok r ∧
    if r then ∃ j, start ≤ j < start + cnt ∧ bit b j = v
    else group b start cnt (negb v).
Proof.
  intros Hwf Hs Hc Hr. unfold bitmap_contains. rewrite range_ok_true by done.
  cbn [mbind res_bind]. pose proof (wf_cnt _ Hwf).
  destruct (for_ret_total (λ i (_ : unit), group b start i (negb v))
    (λ r : bool, r = true ∧ ∃ j, start ≤ j < start + cnt ∧ bit b j = v)
    (λ i (_ : unit), t ← bitmap_test b (u32 (start + i));
      Ok (if eqb t v then inr true else inl tt)) (Z.to_nat cnt) 0 tt)
    as (r & -> & Hr').
  - intros i [] Hi Hg. rewrite u32_small by (c_unfold; lia).
    rewrite bitmap_test_spec by (done || lia). cbn [mbind res_bind].
    eexists. split; [done|]. destruct (eqb (bit b (start + i)) v) eqn:E.
    + apply eqb_prop in E. split; [done|]. exists (start + i). split; [lia|done].
    + intros j Hj. destruct (Z.eq_dec j (start + i)) as [->|]; [|apply Hg; lia].
      by destruct (bit b (start + i)), v.
  - intros j Hj. lia.
  - eexists. split; [done|]. destruct r as [u|r]; [|by destruct Hr' as [-> ?]].
    by rewrite Z2Nat.id in Hr' by lia.
Qed.

(** [first_group b start cnt v r]: [r] is the first position from [start] on
    of a group of [cnt] bits [v]; [no_group]: there is none. *)
Definition first_group (b : bitmap) (start cnt : Z) (v : bool) (r : Z) : Prop :=
  start ≤ r ∧ r + cnt ≤ bit_cnt b ∧ group b r cnt v ∧
  ∀ i, start ≤ i < r → ¬ group b i cnt v.
Definition no_group (b : bitmap) (start cnt : Z) (v : bool) : Prop :=
  ∀ i, start ≤ i → i + cnt ≤ bit_cnt b → ¬ group b i cnt v.

Lemma bitmap_scan_spec b start cnt v :
  bitmap_wf b → 0 ≤ start ≤ bit_cnt b → 0 ≤ cnt →
  ∃ r, bitmap_scan b start cnt v = Ok r ∧
    (r = BITMAP_ERROR ∧ no_group b start cnt v ∨
     r ≠ BITMAP_ERROR ∧ first_group b start cnt v r).
Proof.
  intros Hwf Hs Hc. unfold bitmap_scan. pose proof (wf_cnt _ Hwf).
  rewrite (proj2 (Z.leb_le start _)) by lia. cbn [ASSERT mbind res_bind].
  destruct (Z.leb_spec cnt (bit_cnt b)) as [Hle|Hgt].
  2: { eexists. split; [done|]. left. split; [done|]. intros i Hi Hi'. lia. }
  destruct (for_ret_total (λ i (_ : unit), ∀ k, start ≤ k < i → ¬ group b k cnt v)
    (first_group b start cnt v)
    (λ i (_ : unit), c ← bitmap_contains b i cnt (negb v);
      Ok (if negb c then inr i else inl tt)) (Z.to_nat (bit_cnt b - cnt - start + 1)) start tt)
    as (r & -> & Hr).
  - intros i [] Hi Hno.
    destruct (bitmap_contains_spec b i cnt (negb v)) as (c & -> & Hcon); [done|lia..|].
    rewrite negb_involutive in Hcon. cbn [mbind res_bind]. eexists. split; [done|].
    destruct c; cbn.
    + destruct Hcon as (j & Hj & Hb). intros k Hk.
      destruct (Z.eq_dec k i) as [->|]; [|apply Hno; lia].
      intros Hg. rewrite Hg in Hb by done. by destruct v.
    + split_and!; [lia..|done|done].
  - intros k Hk. lia.
  - eexists. split; [done|]. destruct r as [u|r].
    + left. split; [done|]. intros i Hi Hi'. apply Hr. lia.
    + right. split; [|done]. destruct Hr as (? & ? & _). unfold BITMAP_ERROR. c_unfold. lia.
Qed.

Lemma bitmap_scan_and_flip_spec b start cnt value :
  bitmap_wf b → 0 ≤ start ≤ bit_cnt b → 0 ≤ cnt →
  ∃ b' r, bitmap_scan_and_flip b start cnt value = Ok (b', r) ∧
    (r = BITMAP_ERROR ∧ b' = b ∧ no_group b start cnt value ∨
     r ≠ BITMAP_ERROR ∧ first_group b start cnt value r ∧
     sets b b' r cnt (negb value)).
Proof.
  intros Hwf Hs Hc. unfold bitmap_scan_and_flip.
  destruct (bitmap_scan_spec b start cnt value) as (r & -> & Hr); [done..|].
  cbn [mbind res_bind]. destruct Hr as [[-> Hno]|[Hr Hg]].
  - rewrite Z.eqb_refl. cbn. exists b, BITMAP_ERROR. by auto.
  - rewrite (proj2 (Z.eqb_neq r _)) by done. cbn [negb].
    pose proof Hg as (H1 & H2 & _).
    destruct (bitmap_set_multiple_spec b r cnt (negb value)) as (b' & -> & Hb'); [done|lia..|].
    cbn. exists b', r. by auto.
Qed.

Lemma bitmap_create_in_buf_spec n mem size :
  0 ≤ n ≤ 2 ^ 32 - 32 → Z.of_nat (length mem) = elem_cnt n → Forall is_u32 mem →
  bitmap_buf_size n ≤ size →
  ∃ b, bitmap_set_all (Bitmap n mem) false = Ok b ∧
    bitmap_create_in_buf n mem size = Ok b ∧
    bitmap_wf b ∧ bit_cnt b = n ∧ (∀ j, 0 ≤ j < n → bit b j = false).
Proof.
  intros Hn Hlen Hu Hsz.
  destruct (bitmap_set_multiple_spec (Bitmap n mem) 0 n false) as (b & E & Hw & Hc & Hb);
    [by split|cbn; lia..|].
  exists b. unfold bitmap_create_in_buf, bitmap_set_all, bitmap_size.
  cbn [bit_cnt]. rewrite E, (proj2 (Z.leb_le _ _)) by done. split_and!; try done.
  intros j Hj. rewrite Hb by done. by replace ((0 <=? j) && (j <? 0 + n)) with true by lia.
Qed.

(** ** Files *)

Lemma elem_bytes_roundtrip e rest : is_u32 e →
  bytes_elems (elem_bytes e ++ rest) = e :: bytes_elems rest.
Proof.
  intros He. cbn. f_equal. rewrite !Z.shiftl_mul_pow2, !Z.shiftr_div_pow2 by lia.
  change (2 ^ 8) with 256. change (2 ^ 16) with 65536. change (2 ^ 24) with 16777216.
  c_lia.
Qed.

Lemma bytes_elems_concat es :
  Forall is_u32 es → bytes_elems (concat (elem_bytes <$> es)) = es.
Proof.
  induction 1 as [|e es He _ IH]; [done|].
  change (concat (elem_bytes <$> e :: es))
    with (elem_bytes e ++ concat (elem_bytes <$> es)).
  by rewrite elem_bytes_roundtrip, IH.
Qed.

Lemma length_concat_bytes es :
  length (concat (elem_bytes <$> es)) = (4 * length es)%nat.
Proof. induction es as [|e es IH]; [done|]. cbn in *. lia. Qed.

Lemma byte_cnt_bits b : bitmap_wf b →
  byte_cnt (bit_cnt b) = Z.of_nat (length (concat (elem_bytes <$> bits b))).
Proof.
  intros Hwf. pose proof (wf_cnt _ Hwf) as Hc. unfold byte_cnt.
  rewrite length_concat_bytes, <- (wf_len _ Hwf).
  rewrite u32_small; [lia|]. rewrite (wf_len _ Hwf), elem_cnt_eq by done. c_lia.
Qed.

Lemma last_mask_u32 b : is_u32 (last_mask b).
Proof. unfold last_mask. case_match; [c_lia|auto with cint]. Qed.

(** The mask keeps every bit that belongs to the bitmap. *)
Lemma last_mask_bit b j : bitmap_wf b → 0 ≤ j < bit_cnt b →
  j / 32 = elem_cnt (bit_cnt b) - 1 → Z.testbit (last_mask b) (j mod 32) = true.
Proof.
  intros Hwf Hj Hlast. rewrite elem_cnt_eq in Hlast by apply Hwf.
  unfold last_mask, ELEM_BITS. pose proof (Z.mod_pos_bound j 32).
  destruct (Z.eqb_spec (bit_cnt b mod 32) 0) as [E|E].
  - change UINT_MAX with (Z.ones 32). apply Z.ones_spec_low. lia.
  - unfold u32. rewrite wrap_bits by lia. rewrite Z.shiftl_1_l, Z.sub_1_r, <- Z.ones_equiv.
    apply Z.ones_spec_low. Z.div_mod_to_equations. lia.
Qed.

(** Masking the last element changes no bit of the bitmap. *)
Lemma mask_last b : bitmap_wf b → 0 < bit_cnt b →
  let last := elem_cnt (bit_cnt b) - 1 in
  ∃ e b', elem_load b last = Ok e ∧
    elem_store b last (Z.land e (last_mask b)) = Ok b' ∧
    bitmap_wf b' ∧ bit_cnt b' = bit_cnt b ∧
    ∀ j, 0 ≤ j < bit_cnt b → bit b' j = bit b j.
Proof.
  intros Hwf Hpos last. pose proof (wf_cnt _ Hwf). pose proof (wf_len _ Hwf) as Hl.
  assert (0 ≤ last ∧ (Z.to_nat last < length (bits b))%nat) as [H0 Hlt].
  { rewrite elem_cnt_eq in Hl by done. unfold last. rewrite elem_cnt_eq by done.
    Z.div_mod_to_equations. lia. }
  destruct (lookup_lt_is_Some_2 _ _ Hlt) as [e He].
  unfold elem_store, elem_load. rewrite He. cbn. do 2 eexists. split_and!; [done..| | |].
  - split; cbn; [done| |].
    + by rewrite length_insert.
    + apply Forall_insert; [apply Hwf|]. apply is_u32_land; [|apply last_mask_u32].
      by eapply Forall_lookup_1; [apply Hwf|].
  - done.
  - intros j Hj. unfold bit. cbn. destruct (decide (j / 32 = last)) as [E|E].
    + rewrite E, list_lookup_total_insert_eq, (list_lookup_total_correct _ _ _ He) by done.
      rewrite Z.land_spec, last_mask_bit by done. apply andb_true_r.
    + rewrite list_lookup_total_insert_ne; [done|]. intros E'. apply E.
      apply Z2Nat.inj in E'; [done|done|apply Z.div_pos; lia].
Qed.

(** ** Theorems *)

(** [bitmap_scan_and_flip] finds the first group of [cnt] consecutive
    bits equal to [value] at or after [start], sets exactly these bits to
    the other value and returns the group's position; if there is no such
    group it returns [BITMAP_ERROR] and leaves the bitmap alone.  It always
    returns: no assertion fails and the search ends. *)
Theorem bitmap_scan_and_flip_correct b start cnt value :
  bitmap_wf b → 0 ≤ start ≤ bit_cnt b → 0 ≤ cnt →
  ∃ b' r, bitmap_scan_and_flip b start cnt value = Ok (b', r) ∧
    (r = BITMAP_ERROR ∧ b' = b ∧ no_group b start cnt value ∨
     r ≠ BITMAP_ERROR ∧ first_group b start cnt value r ∧
     sets b b' r cnt (negb value)).
Proof. apply bitmap_scan_and_flip_spec. Qed.

(** With [cnt] zero the scan returns [start], whatever the bits are, not
    0 as the comment of [bitmap_scan_and_flip] says. *)
Theorem bitmap_scan_and_flip_zero b start value :
  bitmap_wf b → 0 ≤ start ≤ bit_cnt b →
  bitmap_scan_and_flip b start 0 value = Ok (b, start).
Proof.
  intros Hwf Hs. unfold bitmap_scan_and_flip.
  destruct (bitmap_scan_spec b start 0 value) as (r & -> & Hr); [done..|].
  pose proof (wf_cnt _ Hwf).
  destruct Hr as [[_ Hno]|[Hr (H1 & H2 & _ & Hmin)]].
  { destruct (Hno start); [lia..|]. intros j Hj. lia. }
  assert (r = start) as ->.
  { destruct (Z.eq_dec r start) as [|Hne]; [done|].
    destruct (Hmin start); [lia|]. intros j Hj. lia. }
  cbn [mbind res_bind]. rewrite (proj2 (Z.eqb_neq start _)) by done. cbn [negb].
  unfold bitmap_set_multiple. by rewrite range_ok_true by (done || lia).
Qed.

(** [bitmap_mark], [bitmap_reset], [bitmap_flip] and [bitmap_set] change
    exactly the bit they name, although they rewrite a whole 32-bit element,
    and [bitmap_test] reads it; a bit number past the end fails the
    assertion of [bitmap_set] and [bitmap_test]. *)
Theorem bitmap_bit_ops_correct b i v :
  bitmap_wf b →
  (0 ≤ i < bit_cnt b →
    (∃ b', bitmap_mark b i = Ok b' ∧ sets b b' i 1 true) ∧
    (∃ b', bitmap_reset b i = Ok b' ∧ sets b b' i 1 false) ∧
    (∃ b', bitmap_flip b i = Ok b' ∧ sets b b' i 1 (negb (bit b i))) ∧
    (∃ b', bitmap_set b i v = Ok b' ∧ sets b b' i 1 v) ∧
    bitmap_test b i = Ok (bit b i)) ∧
  (bit_cnt b ≤ i → bitmap_set b i v = Err EAssert ∧ bitmap_test b i = Err EAssert).
Proof.
  intros Hwf. split.
  - intros Hi. split_and!; auto using bitmap_mark_spec, bitmap_reset_spec,
      bitmap_flip_spec, bitmap_set_spec, bitmap_test_spec.
  - intros Hi. unfold bitmap_set, bitmap_test.
    by rewrite (proj2 (Z.ltb_ge i (bit_cnt b))) by lia.
Qed.

(** [bitmap_count] returns the number of bits in the range that equal
    [value], and [bitmap_any], [bitmap_none] and [bitmap_all] agree with it:
    some, no, or every bit of the range is true. *)
Theorem bitmap_count_correct b start cnt :
  bitmap_wf b → 0 ≤ start → 0 ≤ cnt → start + cnt ≤ bit_cnt b →
  (∀ value, bitmap_count b start cnt value =
     Ok (count_bits b start (Z.to_nat cnt) value)) ∧
  bitmap_any b start cnt = Ok (negb (count_bits b start (Z.to_nat cnt) true =? 0)) ∧
  bitmap_none b start cnt = Ok (count_bits b start (Z.to_nat cnt) true =? 0) ∧
  bitmap_all b start cnt = Ok (count_bits b start (Z.to_nat cnt) true =? cnt).
Proof.
  intros Hwf Hs Hc Hr.
  assert (∀ v, bitmap_contains b start cnt v =
    Ok (negb (count_bits b start (Z.to_nat cnt) v =? 0))) as Hcon.
  { intros v. destruct (bitmap_contains_spec b start cnt v) as (r & -> & Hr'); [done..|].
    f_equal. destruct r.
    - destruct Hr' as (j & Hj & Hb). symmetry. apply negb_true_iff, Z.eqb_neq.
      assert (0 < count_bits b start (Z.to_nat cnt) v); [|lia].
      apply (count_bits_pos _ _ _ _ j); [lia|done].
    - symmetry. apply negb_false_iff, Z.eqb_eq, count_bits_none.
      by rewrite Z2Nat.id by lia. }
  split; [by intros; apply bitmap_count_spec|].
  unfold bitmap_any, bitmap_none, bitmap_all. rewrite !Hcon. cbn.
  rewrite !negb_involutive. split_and!; [done..|]. f_equal.
  pose proof (count_bits_total b start (Z.to_nat cnt)).
  destruct (Z.eqb_spec (count_bits b start (Z.to_nat cnt) false) 0); symmetry;
    [apply Z.eqb_eq|apply Z.eqb_neq]; lia.
Qed.

(** A bitmap written to a file and read back into a bitmap of the same
    size has the same bits, and both calls report success.  The hypothesis
    is the file layer's: a write at offset 0 that is not cut short can be
    read back. *)
Theorem bitmap_write_read {F} (file_read_at : F → Z → Z → res (list Z))
    (file_write_at : list Z → Z → F → res (F * Z)) b b2 f :
  (∀ bs, ∃ f', file_write_at bs 0 f = Ok (f', Z.of_nat (length bs)) ∧
     file_read_at f' (Z.of_nat (length bs)) 0 = Ok bs) →
  bitmap_wf b → bitmap_wf b2 → bit_cnt b2 = bit_cnt b →
  ∃ f' b', bitmap_write file_write_at b f = Ok (f', true) ∧
    bitmap_read file_read_at b2 f' = Ok (b', true) ∧
    bitmap_wf b' ∧ bit_cnt b' = bit_cnt b ∧
    ∀ j, 0 ≤ j < bit_cnt b → bit b' j = bit b j.
Proof.
  intros Hf Hwf Hwf2 Hcnt. unfold bitmap_write, bitmap_read.
  set (bs := concat (elem_bytes <$> bits b)).
  assert (byte_cnt (bit_cnt b) = Z.of_nat (length bs)) as Hsz by by apply byte_cnt_bits.
  rewrite Hsz, Nat2Z.id, take_ge by done.
  destruct (Hf bs) as (f' & -> & Hrd). exists f'. cbn [mbind res_bind].
  rewrite Z.eqb_refl, Hcnt. destruct (Z.ltb_spec 0 (bit_cnt b)).
  2: { exists b2. split_and!; try done. intros j Hj. lia. }
  rewrite Hsz, Hrd. cbn [mbind res_bind bit_cnt].
  rewrite drop_ge, app_nil_r.
  2: { unfold bs. rewrite !length_concat_bytes. pose proof (wf_len _ Hwf).
       pose proof (wf_len _ Hwf2). rewrite Hcnt in *. lia. }
  assert (bytes_elems bs = bits b) as -> by (apply bytes_elems_concat, Hwf).
  destruct (mask_last b Hwf) as (e & b' & E1 & E2 & Hw & Hc' & Hb); [done|].
  destruct b as [n es]. cbn [bit_cnt bits] in *. rewrite E1. cbn [mbind res_bind].
  rewrite E2. cbn [mbind res_bind]. rewrite Z.eqb_refl. by eexists.
Qed.

(** [bitmap_create] and [bitmap_create_in_buf] make a bitmap of the
    requested size with every bit false, whatever the allocated memory held;
    when an allocation fails [bitmap_create] returns no bitmap. *)
Theorem bitmap_create_correct n mem size :
  0 ≤ n ≤ 2 ^ 32 - 32 → Z.of_nat (length mem) = elem_cnt n → Forall is_u32 mem →
  bitmap_buf_size n ≤ size →
  ∃ b, bitmap_create n true (Some mem) = Ok (Some b) ∧
    bitmap_create_in_buf n mem size = Ok b ∧
    bitmap_wf b ∧ bitmap_size b = n ∧ (∀ j, 0 ≤ j < n → bit b j = false) ∧
    (∀ m, bitmap_create n false m = Ok None) ∧
    (0 < n → bitmap_create n true None = Ok None).
Proof.
  intros Hn Hlen Hu Hsz.
  destruct (bitmap_create_in_buf_spec n mem size) as (b & E & Eb & Hw & Hc & Hb); [done..|].
  exists b. unfold bitmap_create, bitmap_size. rewrite E. split_and!; try done.
  intros Hpos. by rewrite (proj2 (Z.eqb_neq n 0)) by lia.
Qed.

(** ** Witnesses *)

Definition demo_bitmap : bitmap := Bitmap 40 [5; 3].
Lemma demo_bitmap_wf : bitmap_wf demo_bitmap.
Proof. split; cbn; [lia|done|]. repeat constructor; c_lia. Qed.

Lemma bitmap_scan_and_flip_witness :
  ∃ b' r, bitmap_scan_and_flip demo_bitmap 1 2 false = Ok (b', r) ∧
    (r = BITMAP_ERROR ∧ b' = demo_bitmap ∧ no_group demo_bitmap 1 2 false ∨
     r ≠ BITMAP_ERROR ∧ first_group demo_bitmap 1 2 false r ∧
     sets demo_bitmap b' r 2 true).
Proof.
  apply (bitmap_scan_and_flip_correct demo_bitmap 1 2 false).
  - exact demo_bitmap_wf.
  - cbn. lia.
  - lia.
Defined.

Lemma bitmap_scan_and_flip_zero_witness :
  bitmap_scan_and_flip demo_bitmap 7 0 true = Ok (demo_bitmap, 7).
Proof.
  apply (bitmap_scan_and_flip_zero demo_bitmap 7 true).
  - exact demo_bitmap_wf.
  - cbn. lia.
Defined.

Lemma bitmap_bit_ops_witness : bitmap_test demo_bitmap 2 = Ok (bit demo_bitmap 2).
Proof.
  apply (bitmap_bit_ops_correct demo_bitmap 2 true).
  - exact demo_bitmap_wf.
  - cbn. lia.
Defined.

Lemma bitmap_count_witness :
  bitmap_count demo_bitmap 0 34 true = Ok (count_bits demo_bitmap 0 (Z.to_nat 34) true).
Proof.
  apply (bitmap_count_correct demo_bitmap 0 34).
  - exact demo_bitmap_wf.
  - lia.
  - lia.
  - cbn. lia.
Defined.

(** A file that holds what was written last. *)
Lemma bitmap_write_read_witness :
  ∃ f' b', bitmap_write (λ bs _ _, Ok (bs, Z.of_nat (length bs))) demo_bitmap [] = Ok (f', true) ∧
    bitmap_read (λ f _ _, Ok f) (Bitmap 40 [0; 0]) f' = Ok (b', true) ∧
    bitmap_wf b' ∧ bit_cnt b' = 40 ∧
    ∀ j, 0 ≤ j < 40 → bit b' j = bit demo_bitmap j.
Proof.
  apply (bitmap_write_read (F := list Z) (λ f _ _, Ok f)
    (λ bs _ _, Ok (bs, Z.of_nat (length bs))) demo_bitmap (Bitmap 40 [0; 0]) []).
  - intros bs. by eexists.
  - exact demo_bitmap_wf.
  - split; cbn; [lia|done|]. repeat constructor; c_lia.
  - done.
Defined.

Lemma bitmap_create_witness :
  ∃ b, bitmap_create 40 true (Some [7; 9]) = Ok (Some b) ∧
    bitmap_create_in_buf 40 [7; 9] 16 = Ok b ∧
    bitmap_wf b ∧ bitmap_size b = 40 ∧ (∀ j, 0 ≤ j < 40 → bit b j = false) ∧
    (∀ m, bitmap_create 40 false m = Ok None) ∧
    (0 < 40 → bitmap_create 40 true None = Ok None).
Proof.
  apply (bitmap_create_correct 40 [7; 9] 16).
  - lia.
  - done.
  - repeat constructor; c_lia.
  - vm_compute. done.
Defined.
