(* ===== verification/Hash.v ===== *)
(** * lib/kernel/hash.c

    A chained hash table.  A bucket is the sequence of its elements (what
    the links of a kernel list describe, see KList.v); an element is its
    address.  The caller's [hash] and [less] functions are section variables
    and whether [malloc] succeeds is an argument of the operations that
    allocate.  The theorems say that the table is a set of elements modulo
    the equivalence that [less] induces, whatever the allocator does. *)

From S2P Require Import Prelude.

Record hash := Hash {
  elem_cnt : Z;
  bucket_cnt : Z;
  buckets : list (list Z);
}.

Definition turn_off_least_1bit (x : Z) : Z := Z.land x (u32 (x - 1)).
Definition is_power_of_2 (x : Z) : bool :=
  negb (x =? 0) && (turn_off_least_1bit x =? 0).

Definition BEST_ELEMS_PER_BUCKET : Z := 2.

(** The computation of the number of buckets in [rehash].  Every iteration
    clears a bit of a 32-bit value. *)
Definition rehash_bucket_cnt (elem_cnt : Z) : res Z :=
  let n := elem_cnt / BEST_ELEMS_PER_BUCKET in
  let n := if n <? 4 then 4 else n in
  loop 33 (λ n, Ok (if negb (is_power_of_2 n) then inl (turn_off_least_1bit n) else inr n)) n.

(** [hash_bytes] and [hash_string]: Fowler-Noll-Vo over the bytes. *)
Definition FNV_32_PRIME : Z := 16777619.
Definition FNV_32_BASIS : Z := 2166136261.
Definition hash_bytes (buf : list Z) : Z :=
  fold_left (λ hash b, Z.lxor (u32 (hash * FNV_32_PRIME)) b) buf FNV_32_BASIS.
Fixpoint hash_string_from (hash : Z) (s : list Z) : res Z :=
  match s with
  | [] => Err EFault
  | c :: s' => if c =? 0 then Ok hash
               else hash_string_from (Z.lxor (u32 (hash * FNV_32_PRIME)) c) s'
  end.
Definition hash_string (s : list Z) : res Z := hash_string_from FNV_32_BASIS s.
Definition hash_int (i : Z) : Z :=
  hash_bytes [u32 i mod 256; Z.shiftr (u32 i) 8 mod 256;
              Z.shiftr (u32 i) 16 mod 256; Z.shiftr (u32 i) 24 mod 256].

Definition hash_size (h : hash) : Z := elem_cnt h.
Definition hash_empty (h : hash) : bool := elem_cnt h =? 0.

Section table.
Context (hash_func : Z → Z) (less : Z → Z → bool).

Definition equal (x y : Z) : bool := negb (less x y) && negb (less y x).

(** The index of the bucket [e] belongs in. *)
Definition find_bucket (h : hash) (e : Z) : Z :=
  Z.land (hash_func e) (bucket_cnt h - 1).

Definition find_elem (bucket : list Z) (e : Z) : option Z :=
  snd <$> list_find (λ hi, Is_true (equal hi e)) bucket.

Definition bucket_push_front (h : hash) (i e : Z) : res hash :=
  b ← deref (buckets h !! Z.to_nat i);
  Ok (Hash (elem_cnt h) (bucket_cnt h) (<[Z.to_nat i := e :: b]> (buckets h))).

Definition insert_elem (h : hash) (bucket e : Z) : res hash :=
  bucket_push_front (Hash (u32 (elem_cnt h + 1)) (bucket_cnt h) (buckets h)) bucket e.

(** [list_remove] unlinks [e] from the bucket it is in. *)
Definition unlink (e : Z) (b : list Z) : list Z := filter (λ x, x ≠ e) b.
Definition remove_elem (h : hash) (e : Z) : hash :=
  Hash (u32 (elem_cnt h - 1)) (bucket_cnt h) (unlink e <$> buckets h).

Definition rehash (h : hash) (mem : bool) : res hash :=
  let old_buckets := buckets h in
  let old_bucket_cnt := bucket_cnt h in
  new_bucket_cnt ← rehash_bucket_cnt (elem_cnt h);
  if new_bucket_cnt =? old_bucket_cnt then Ok h else
  if negb mem then Ok h else
  let h := Hash (elem_cnt h) new_bucket_cnt (replicate (Z.to_nat new_bucket_cnt) []) in
  for_up (Z.to_nat old_bucket_cnt) 0 (λ i h,
    old_bucket ← deref (old_buckets !! Z.to_nat i);
    fold_left (λ r elem, h ← r; bucket_push_front h (find_bucket h elem) elem)
      old_bucket (Ok h)) h.

Definition hash_insert (h : hash) (new : Z) (mem : bool) : res (hash * option Z) :=
  let bucket := find_bucket h new in
  b ← deref (buckets h !! Z.to_nat bucket);
  let old := find_elem b new in
  h ← (match old with None => insert_elem h bucket new | Some _ => Ok h end);
  h ← rehash h mem; Ok (h, old).

Definition hash_replace (h : hash) (new : Z) (mem : bool) : res (hash * option Z) :=
  let bucket := find_bucket h new in
  b ← deref (buckets h !! Z.to_nat bucket);
  let old := find_elem b new in
  let h := match old with Some o => remove_elem h o | None => h end in
  h ← insert_elem h bucket new;
  h ← rehash h mem; Ok (h, old).

Definition hash_find (h : hash) (e : Z) : res (option Z) :=
  b ← deref (buckets h !! Z.to_nat (find_bucket h e)); Ok (find_elem b e).

Definition hash_delete (h : hash) (e : Z) (mem : bool) : res (hash * option Z) :=
  b ← deref (buckets h !! Z.to_nat (find_bucket h e));
  match find_elem b e with
  | Some found => h ← rehash (remove_elem h found) mem; Ok (h, Some found)
  | None => Ok (h, None)
  end.

(** Destructors and actions transform the caller's state [A]. *)
Section action.
Context {A : Type}.

Definition hash_clear (h : hash) (destructor : option (Z → A → A)) (a : A)
    : res (hash * A) :=
  '(bs, a) ← for_up (Z.to_nat (bucket_cnt h)) 0 (λ i '(bs, a),
    bucket ← deref (bs !! Z.to_nat i);
    Ok (<[Z.to_nat i := []]> bs,
        match destructor with Some d => fold_left (λ a e, d e a) bucket a | None => a end))
    (buckets h, a);
  Ok (Hash 0 (bucket_cnt h) bs, a).

Definition hash_init (mem : option (list (list Z))) (a : A) : res (option hash) :=
  match mem with
  | Some bs => '(h, _) ← hash_clear (Hash 0 4 bs) None a; Ok (Some h)
  | None => Ok None
  end.

Definition hash_apply (h : hash) (action : Z → A → A) (a : A) : res A :=
  for_up (Z.to_nat (bucket_cnt h)) 0 (λ i a,
    bucket ← deref (buckets h !! Z.to_nat i);
    Ok (fold_left (λ a e, action e a) bucket a)) a.
End action.
End table.

(** ** Iterators

    [elem] of an iterator points into the list of [bucket]: at its head
    (position 0), at one of its elements, or at its tail. *)
Record hash_iterator := HashIterator { i_bucket : Z; i_pos : nat }.

Definition hash_first (h : hash) : hash_iterator := HashIterator 0 0.

Definition hash_cur (h : hash) (i : hash_iterator) : option Z :=
  b ← buckets h !! Z.to_nat (i_bucket i); b !! pred (i_pos i).

(** The iterator and the element it is at; none at the end of the table. *)
Definition hash_next (h : hash) (i : hash_iterator) : res (hash_iterator * option Z) :=
  loop (S (length (buckets h))) (λ i,
    b ← deref (buckets h !! Z.to_nat (i_bucket i));
    match b !! pred (i_pos i) with
    | Some e => Ok (inr (i, Some e))
    | None =>
        let i := HashIterator (i_bucket i + 1) 1 in
        if bucket_cnt h <=? i_bucket i then Ok (inr (i, None)) else Ok (inl i)
    end) (HashIterator (i_bucket i) (S (i_pos i))).

(** ** The number of buckets *)

Lemma land_pred_bits x k : 0 < x < 2 ^ 32 → 0 ≤ k →
  (2 ^ k | x) → (2 ^ (k + 1) | turn_off_least_1bit x).
Proof.
  intros Hx Hk [y ->]. unfold turn_off_least_1bit.
  rewrite u32_small by (c_unfold; lia).
  apply Z.mod_divide; [lia|]. apply Z.bits_inj'. intros i Hi. rewrite Z.bits_0.
  destruct (Z.lt_ge_cases i (k + 1)).
  2: { by apply Z.mod_pow2_bits_high; lia. }
  rewrite Z.mod_pow2_bits_low, Z.land_spec by lia.
  destruct (Z.eq_dec i k) as [->|].
  - rewrite Z.mul_pow2_bits, Z.sub_diag by lia.
    rewrite (Z.testbit_odd (_ - 1)), Z.shiftr_div_pow2 by lia.
    replace ((y * 2 ^ k - 1) / 2 ^ k) with (y - 1).
    + rewrite Z.bit0_odd, Z.odd_sub. by destruct (Z.odd y).
    + pose proof (Z.pow_pos_nonneg 2 k). apply (Z.div_unique _ _ _ (2 ^ k - 1)); lia.
  - by rewrite Z.mul_pow2_bits_low by lia.
Qed.

Lemma turn_off_top x : 0 < x < 2 ^ 32 → x ≠ 2 ^ Z.log2 x →
  2 ^ Z.log2 x ≤ turn_off_least_1bit x < 2 ^ (Z.log2 x + 1).
Proof.
  intros Hx Hne. pose proof (Z.log2_spec x ltac:(lia)) as Hl.
  pose proof (Z.log2_nonneg x). replace (Z.succ (Z.log2 x)) with (Z.log2 x + 1) in Hl by lia.
  unfold turn_off_least_1bit. rewrite u32_small by (c_unfold; lia).
  assert (Z.log2 (x - 1) = Z.log2 x) as Hlog by (apply Z.log2_unique; lia).
  assert (0 ≤ Z.land x (x - 1)) as Hnn by (apply Z.land_nonneg; lia).
  assert (Z.testbit (Z.land x (x - 1)) (Z.log2 x) = true) as Hbit.
  { rewrite Z.land_spec, Z.bit_log2 by lia. rewrite <- Hlog at 1. by rewrite Z.bit_log2 by lia. }
  split.
  - destruct (Z.lt_ge_cases (Z.land x (x - 1)) (2 ^ Z.log2 x)) as [Hlt|]; [|done].
    rewrite (high_bits (Z.log2 x)) in Hbit by lia. done.
  - apply small_bits; [lia|done|]. intros i Hi.
    by rewrite Z.land_spec, (high_bits (Z.log2 x + 1) x) by lia.
Qed.

Lemma is_power_of_2_spec x : 0 < x < 2 ^ 32 →
  is_power_of_2 x = bool_decide (x = 2 ^ Z.log2 x).
Proof.
  intros Hx. unfold is_power_of_2. rewrite (proj2 (Z.eqb_neq x 0)) by lia. cbn.
  pose proof (Z.log2_nonneg x). case_bool_decide as E.
  - apply Z.eqb_eq. unfold turn_off_least_1bit. rewrite u32_small by (c_unfold; lia).
    generalize dependent (Z.log2 x). intros k Hk ->.
    rewrite Z.sub_1_r, <- Z.ones_equiv, Z.land_ones, Z.mod_same by lia. done.
  - apply Z.eqb_neq. pose proof (turn_off_top x Hx E).
    pose proof (Z.pow_pos_nonneg 2 (Z.log2 x)). lia.
Qed.

(** The number of buckets is the largest power of 2 that is at most half the
    number of elements, and at least 4. *)
Lemma rehash_bucket_cnt_spec n : 0 ≤ n < 2 ^ 32 →
  rehash_bucket_cnt n = Ok (2 ^ Z.log2 (Z.max 4 (n / 2))).
Proof.
  intros Hn. unfold rehash_bucket_cnt, BEST_ELEMS_PER_BUCKET.
  replace (if n / 2 <? 4 then 4 else n / 2) with (Z.max 4 (n / 2))
    by (destruct (Z.ltb_spec (n / 2) 4); lia).
  assert (0 < Z.max 4 (n / 2) < 2 ^ 32) as Hm by (Z.div_mod_to_equations; lia).
  generalize dependent (Z.max 4 (n / 2)). intros m Hm. clear n Hn.
  eapply (loop_ok (λ j x, 0 < x < 2 ^ 32 ∧ Z.log2 x = Z.log2 m ∧
    ∃ k, 0 ≤ k ∧ Z.of_nat j = 32 - k ∧ (2 ^ k | x))) with (k := 32%nat); [| |lia].
  - intros j x (Hx & Hl & k & Hk & Hj & Hdiv). eexists. split; [done|].
    rewrite is_power_of_2_spec by done. case_bool_decide as E; cbn; [by rewrite E, Hl|].
    pose proof (turn_off_top x Hx E) as Ht. pose proof (Z.log2_nonneg x).
    pose proof (Z.pow_pos_nonneg 2 (Z.log2 x)).
    assert (Z.log2 x < 32) by (apply Z.log2_lt_pow2; lia).
    assert (k < 32).
    { destruct (Z.lt_ge_cases k 32); [done|]. apply Z.divide_pos_le in Hdiv; [|lia].
      pose proof (Z.pow_le_mono_r 2 32 k). lia. }
    exists (j - 1)%nat. split; [lia|]. split_and!.
    + lia.
    + pose proof (Z.pow_le_mono_r 2 (Z.log2 x + 1) 32). lia.
    + rewrite <- Hl. apply Z.log2_unique; [lia|].
      by replace (Z.succ (Z.log2 x)) with (Z.log2 x + 1) by lia.
    + exists (k + 1). split_and!; [lia|lia|]. by apply land_pred_bits.
  - split_and!; [lia..|]. exists 0. split_and!; [lia|lia|]. apply Z.divide_1_l.
Qed.

(** ** The table *)

Lemma concat_push {A} (bs : list (list A)) i b e :
  bs !! i = Some b → concat (<[i := e :: b]> bs) ≡ₚ e :: concat bs.
Proof.
  revert i. induction bs as [|b0 bs IH]; intros [|i] Hi; cbn in *; try done.
  - by simplify_eq.
  - rewrite IH by done. by rewrite Permutation_middle.
Qed.

Lemma concat_unlink e bs : concat (unlink e <$> bs) = unlink e (concat bs).
Proof.
  induction bs as [|b bs IH]; [done|]. cbn. unfold unlink in *. by rewrite filter_app, IH.
Qed.

Lemma unlink_Permutation e xs : NoDup xs → e ∈ xs → xs ≡ₚ e :: unlink e xs.
Proof.
  intros Hnd He. apply NoDup_Permutation; [done| |].
  - constructor; [|by apply NoDup_filter]. unfold unlink.
    rewrite list_elem_of_filter. naive_solver.
  - intros x. unfold unlink. rewrite elem_of_cons, list_elem_of_filter.
    destruct (decide (x = e)); naive_solver.
Qed.

Lemma elem_of_concat {A} (bs : list (list A)) x :
  x ∈ concat bs ↔ ∃ i b, bs !! i = Some b ∧ x ∈ b.
Proof.
  rewrite list_elem_of_In, in_concat. split.
  - intros (b & Hb & Hx). apply list_elem_of_In, list_elem_of_lookup_1 in Hb as [i Hi].
    exists i, b. by rewrite list_elem_of_In.
  - intros (i & b & Hi & Hx). exists b. rewrite <- !list_elem_of_In. split; [|done].
    by eapply list_elem_of_lookup_2.
Qed.

Section proofs.
Context (hash_func : Z → Z) (less : Z → Z → bool).
Abbreviation find_bucket := (find_bucket hash_func).
Abbreviation equal := (equal less).

Definition elems (h : hash) : list Z := concat (buckets h).

(** Every element is in the bucket its hash value selects. *)
Record placed (h : hash) : Prop := {
  placed_pow : ∃ k, 2 ≤ k < 32 ∧ bucket_cnt h = 2 ^ k;
  placed_len : Z.of_nat (length (buckets h)) = bucket_cnt h;
  placed_elem : ∀ i b e, buckets h !! i = Some b → e ∈ b → find_bucket h e = Z.of_nat i;
}.

(** No two elements are equal under [less]. *)
Definition unique (xs : list Z) : Prop :=
  NoDup xs ∧ ∀ x y, x ∈ xs → y ∈ xs → equal x y = true → x = y.

Record hash_wf (h : hash) : Prop := {
  wf_placed : placed h;
  wf_size : elem_cnt h = Z.of_nat (length (elems h));
  wf_bound : elem_cnt h < 2 ^ 32;
  wf_unique : unique (elems h);
}.

#[local] Instance unique_proper : Proper ((≡ₚ) ==> iff) unique.
Proof.
  intros xs ys E. unfold unique. rewrite E. split; intros [H1 H2]; (split; [done|]).
  - intros x y. rewrite <- E. apply H2.
  - intros x y. rewrite E. apply H2.
Qed.

Lemma find_bucket_range h e : placed h → 0 ≤ find_bucket h e < bucket_cnt h.
Proof.
  intros Hp. destruct (placed_pow _ Hp) as (k & Hk & E). unfold find_bucket. rewrite E.
  rewrite Z.sub_1_r, <- Z.ones_equiv, Z.land_ones by lia.
  apply Z.mod_pos_bound. lia.
Qed.

Lemma bucket_lookup h e : placed h → ∃ b, buckets h !! Z.to_nat (find_bucket h e) = Some b.
Proof.
  intros Hp. pose proof (find_bucket_range h e Hp). pose proof (placed_len _ Hp).
  apply lookup_lt_is_Some_2. lia.
Qed.

Lemma bucket_push_front_spec h e : placed h →
  ∃ h', bucket_push_front h (find_bucket h e) e = Ok h' ∧ placed h' ∧
    elems h' ≡ₚ e :: elems h ∧ elem_cnt h' = elem_cnt h ∧ bucket_cnt h' = bucket_cnt h.
Proof.
  intros Hp. destruct (bucket_lookup h e Hp) as [b Hb]. unfold bucket_push_front.
  rewrite Hb. cbn. eexists. split; [done|]. split_and!; try done.
  - split; cbn.
    + apply Hp.
    + rewrite length_insert. apply Hp.
    + intros i b' x Hi Hx. apply list_lookup_insert_Some in Hi as [(<- & <- & Hlt)|[Hne Hi]].
      * rewrite Z2Nat.id by apply (find_bucket_range h e Hp).
        apply elem_of_cons in Hx as [->|Hx]; [done|].
        pose proof (placed_elem _ Hp _ _ _ Hb Hx) as E.
        rewrite Z2Nat.id in E by apply (find_bucket_range h e Hp). exact E.
      * by eapply (placed_elem _ Hp).
  - unfold elems. cbn. by apply concat_push.
Qed.

(** The inner loop of [rehash]: all elements of one old bucket. *)
Lemma rehash_bucket h b : placed h →
  ∃ h', fold_left (λ r elem, h ← r; bucket_push_front h (find_bucket h elem) elem) b (Ok h)
          = Ok h' ∧ placed h' ∧ elems h' ≡ₚ b ++ elems h ∧
    elem_cnt h' = elem_cnt h ∧ bucket_cnt h' = bucket_cnt h.
Proof.
  revert h. induction b as [|e b IH]; intros h Hp; cbn [fold_left]; [by exists h|].
  destruct (bucket_push_front_spec h e Hp) as (h1 & E & Hp1 & He & Hc & Hb).
  cbn [mbind res_bind]. rewrite E.
  destruct (IH h1 Hp1) as (h' & -> & Hp' & He' & Hc' & Hb').
  exists h'. split_and!; try done; [|congruence..].
  rewrite He', He. cbn. by rewrite Permutation_middle.
Qed.

Lemma bucket_cnt_pow n : 0 ≤ n < 2 ^ 32 →
  ∃ k, 2 ≤ k < 32 ∧ 2 ^ Z.log2 (Z.max 4 (n / 2)) = 2 ^ k.
Proof.
  intros Hn. eexists. split; [|done]. split.
  - apply (Z.log2_le_mono 4). lia.
  - apply Z.log2_lt_pow2; Z.div_mod_to_equations; lia.
Qed.

Lemma placed_empty n k c : 2 ≤ k < 32 → n = 2 ^ k →
  placed (Hash c n (replicate (Z.to_nat n) [])).
Proof.
  intros Hk ->. pose proof (Z.pow_pos_nonneg 2 k). split; cbn.
  - by exists k.
  - rewrite length_replicate. lia.
  - intros i b e [-> _]%lookup_replicate He. by apply not_elem_of_nil in He.
Qed.

Lemma concat_replicate_nil {A} n : concat (replicate n ([] : list A)) = [].
Proof. by induction n. Qed.

(** [rehash] keeps the elements, with or without memory for new buckets. *)
Lemma rehash_spec h mem : placed h → 0 ≤ elem_cnt h < 2 ^ 32 →
  ∃ h', rehash hash_func h mem = Ok h' ∧ placed h' ∧ elems h' ≡ₚ elems h ∧
    elem_cnt h' = elem_cnt h ∧
    bucket_cnt h' = if mem then 2 ^ Z.log2 (Z.max 4 (elem_cnt h / 2)) else bucket_cnt h.
Proof.
  intros Hp Hc. unfold rehash. rewrite rehash_bucket_cnt_spec by done.
  cbn [mbind res_bind]. destruct (bucket_cnt_pow _ Hc) as (k & Hk & Ek). rewrite Ek.
  destruct (Z.eqb_spec (2 ^ k) (bucket_cnt h)) as [E|E].
  { exists h. rewrite E. by destruct mem. }
  destruct mem; cbn [negb]; [|by exists h].
  destruct (for_up_total (λ i h', placed h' ∧ elems h' ≡ₚ concat (take (Z.to_nat i) (buckets h)) ∧
      elem_cnt h' = elem_cnt h ∧ bucket_cnt h' = 2 ^ k)
    (λ i h0, old_bucket ← deref (buckets h !! Z.to_nat i);
      fold_left (λ r elem, h ← r; bucket_push_front h (find_bucket h elem) elem)
        old_bucket (Ok h0)) (Z.to_nat (bucket_cnt h)) 0
      (Hash (elem_cnt h) (2 ^ k) (replicate (Z.to_nat (2 ^ k)) [])))
    as (h' & -> & Hp' & He & Hcnt & Hb).
  - intros i h1 Hi (Hp1 & He1 & Hc1 & Hb1). pose proof (placed_len _ Hp).
    destruct (lookup_lt_is_Some_2 (buckets h) (Z.to_nat i)) as [b Eb]; [lia|].
    rewrite Eb. cbn [deref mbind res_bind].
    destruct (rehash_bucket h1 b Hp1) as (h2 & -> & Hp2 & He2 & Hc2 & Hb2).
    exists h2. split; [done|]. split_and!; [done| |congruence..].
    replace (Z.to_nat (i + 1)) with (S (Z.to_nat i)) by lia.
    rewrite (take_S_r _ _ _ Eb), concat_app, He2, He1. cbn.
    by rewrite app_nil_r, Permutation_app_comm.
  - split_and!; try done; [by apply (placed_empty _ k)|].
    unfold elems. cbn. by rewrite concat_replicate_nil.
  - exists h'. split_and!; try done. rewrite He, take_ge; [done|].
    pose proof (placed_len _ Hp). lia.
Qed.
Lemma rehash_wf h mem xs :
  placed h → elem_cnt h = Z.of_nat (length xs) → elem_cnt h < 2 ^ 32 →
  elems h ≡ₚ xs → unique xs →
  ∃ h', rehash hash_func h mem = Ok h' ∧ hash_wf h' ∧ elems h' ≡ₚ xs.
Proof.
  intros Hp Hc Hb He Hu.
  destruct (rehash_spec h mem Hp) as (h' & E & Hp' & He' & Hc' & _); [lia|].
  assert (elems h' ≡ₚ xs) as Hx by by rewrite He'.
  exists h'. split_and!; try done. split; [done| |lia|by rewrite Hx].
  rewrite Hc', Hc. by rewrite Hx.
Qed.

Context (less_irrefl : ∀ x, less x x = false).
Context (equal_trans : ∀ x y z, equal x y = true → equal y z = true → equal x z = true).
Context (hash_equal : ∀ x y, equal x y = true → hash_func x = hash_func y).

Lemma equal_refl x : equal x x = true.
Proof. unfold Hash.equal. by rewrite less_irrefl. Qed.
Lemma equal_sym x y : equal x y = equal y x.
Proof. apply andb_comm. Qed.

(** What [find_elem] returns, seen from the whole table. *)
Definition finds (xs : list Z) (e : Z) (r : option Z) : Prop :=
  match r with
  | Some x => x ∈ xs ∧ equal x e = true
  | None => ∀ y, y ∈ xs → equal y e = false
  end.

Lemma find_elem_spec h e b :
  placed h → buckets h !! Z.to_nat (find_bucket h e) = Some b →
  finds (elems h) e (find_elem less b e).
Proof.
  intros Hp Hb. unfold find_elem. destruct (list_find _ b) as [[i x]|] eqn:E; cbn.
  - apply list_find_Some in E as (Hi & Hx & _). split; [|by apply Is_true_true].
    apply elem_of_concat. do 2 eexists. split; [done|]. by eapply list_elem_of_lookup_2.
  - intros y (j & b' & Hj & Hy)%elem_of_concat.
    destruct (equal y e) eqn:He; [|done]. exfalso.
    pose proof (placed_elem _ Hp _ _ _ Hj Hy) as Hy'.
    unfold Hash.find_bucket in Hy', Hb. rewrite (hash_equal _ _ He) in Hy'.
    rewrite Hy', Nat2Z.id in Hb. simplify_eq.
    apply list_find_None in E. rewrite Forall_forall in E.
    apply (E y Hy). by rewrite He.
Qed.

Lemma unique_insert xs e : unique xs → finds xs e None → unique (e :: xs).
Proof.
  intros [Hnd Hu] Hno. split.
  - constructor; [|done]. intros He. pose proof (Hno e He) as H. by rewrite equal_refl in H.
  - intros x y [->|Hx]%elem_of_cons [->|Hy]%elem_of_cons Heq; try done; [..|by apply Hu].
    + rewrite equal_sym, Hno in Heq by done. done.
    + by rewrite Hno in Heq.
Qed.

Lemma unique_unlink xs e x : unique xs → finds xs e (Some x) →
  unique (unlink x xs) ∧ finds (unlink x xs) e None.
Proof.
  intros [Hnd Hu] [Hx He]. unfold unlink. split; [split|].
  - by apply NoDup_filter.
  - intros y z [_ Hy]%list_elem_of_filter [_ Hz]%list_elem_of_filter. by apply Hu.
  - intros y [Hne Hy]%list_elem_of_filter. destruct (equal y e) eqn:E; [|done].
    exfalso. apply Hne, Hu; [done..|]. apply (equal_trans _ e); [done|].
    by rewrite equal_sym.
Qed.

Lemma insert_elem_spec h e xs : placed h → elems h ≡ₚ xs →
  elem_cnt h = Z.of_nat (length xs) → elem_cnt h < 2 ^ 32 - 1 →
  ∃ h', insert_elem h (find_bucket h e) e = Ok h' ∧ placed h' ∧ elems h' ≡ₚ e :: xs ∧
    elem_cnt h' = Z.of_nat (length (e :: xs)) ∧ elem_cnt h' < 2 ^ 32.
Proof.
  intros Hp Hx Hc Hb. unfold insert_elem.
  destruct (bucket_push_front_spec (Hash (u32 (elem_cnt h + 1)) (bucket_cnt h) (buckets h)) e)
    as (h' & E & Hp' & He & Hc' & _); [by destruct Hp; split|].
  exists h'. split; [exact E|]. rewrite Hc'. cbn [elem_cnt length].
  rewrite u32_small by (c_unfold; lia). split_and!; [done| |lia..].
  rewrite He. unfold elems in *. cbn. by rewrite Hx.
Qed.

Lemma remove_elem_spec h x : hash_wf h → x ∈ elems h →
  placed (remove_elem h x) ∧ elems (remove_elem h x) = unlink x (elems h) ∧
  elem_cnt (remove_elem h x) = Z.of_nat (length (unlink x (elems h))) ∧
  elem_cnt (remove_elem h x) < 2 ^ 32 - 1 ∧ bucket_cnt (remove_elem h x) = bucket_cnt h.
Proof.
  intros Hwf Hx. destruct Hwf as [Hp Hs Hb [Hnd _]].
  pose proof (Permutation_length (unlink_Permutation _ _ Hnd Hx)) as Hl. cbn in Hl.
  assert (elem_cnt (remove_elem h x) = Z.of_nat (length (unlink x (elems h)))) as Hc.
  { cbn. rewrite u32_small; [lia|]. c_unfold. lia. }
  split_and!; try done; [|apply concat_unlink|lia].
  split; cbn; [apply Hp|rewrite length_fmap; apply Hp|].
  intros i b e Hi He. apply list_lookup_fmap_Some in Hi as (b0 & -> & Hi).
  apply list_elem_of_filter in He as [_ He]. by eapply (placed_elem _ Hp).
Qed.
(** ** Refinement to a dictionary

    The abstract table is a set of elements, no two of them equal.  [dict_step
    xs op xs' r]: operation [op] takes the set [xs] to [xs'] and returns [r]. *)
Inductive op := Insert (e : Z) | Replace (e : Z) | Delete (e : Z) | Find (e : Z).

Inductive dict_step (xs : list Z) : op → list Z → option Z → Prop :=
  | ds_insert_new e xs' : finds xs e None → xs' ≡ₚ e :: xs →
      dict_step xs (Insert e) xs' None
  | ds_insert_old e x xs' : finds xs e (Some x) → xs' ≡ₚ xs →
      dict_step xs (Insert e) xs' (Some x)
  | ds_replace_new e xs' : finds xs e None → xs' ≡ₚ e :: xs →
      dict_step xs (Replace e) xs' None
  | ds_replace_old e x ys xs' : finds xs e (Some x) → xs ≡ₚ x :: ys → xs' ≡ₚ e :: ys →
      dict_step xs (Replace e) xs' (Some x)
  | ds_delete_none e : finds xs e None → dict_step xs (Delete e) xs None
  | ds_delete_some e x xs' : finds xs e (Some x) → xs ≡ₚ x :: xs' →
      dict_step xs (Delete e) xs' (Some x)
  | ds_find e r : finds xs e r → dict_step xs (Find e) xs r.

Definition hash_op (h : hash) (o : op) (mem : bool) : res (hash * option Z) :=
  match o with
  | Insert e => hash_insert hash_func less h e mem
  | Replace e => hash_replace hash_func less h e mem
  | Delete e => hash_delete hash_func less h e mem
  | Find e => r ← hash_find hash_func less h e; Ok (h, r)
  end.

Definition op_ok (h : hash) (o : op) (mem : bool) : Prop :=
  ∃ h' r, hash_op h o mem = Ok (h', r) ∧ hash_wf h' ∧ dict_step (elems h) o (elems h') r ∧
    elem_cnt h' ≤ elem_cnt h + 1.

Lemma wf_cnt_le h h' (k : nat) :
  hash_wf h → hash_wf h' → (length (elems h') ≤ length (elems h) + k)%nat →
  elem_cnt h' ≤ elem_cnt h + Z.of_nat k.
Proof. intros H1 H2 Hl. rewrite (wf_size _ H1), (wf_size _ H2). lia. Qed.

Lemma hash_insert_ok h e mem :
  hash_wf h → elem_cnt h < 2 ^ 32 - 1 → op_ok h (Insert e) mem.
Proof.
  intros Hwf Hb. pose proof Hwf as [Hp Hs _ Hu].
  destruct (bucket_lookup h e Hp) as [b Eb]. unfold op_ok. cbn [hash_op].
  unfold hash_insert. rewrite Eb. cbn [deref mbind res_bind].
  pose proof (find_elem_spec h e b Hp Eb) as Hf. destruct (find_elem less b e) as [x|].
  - cbn [mbind res_bind].
    destruct (rehash_wf h mem (elems h)) as (h' & -> & Hw & He); [done..|lia|done|done|].
    exists h', (Some x). split_and!; try done; [by econstructor|].
    apply (wf_cnt_le _ _ 1); [done..|]. rewrite He. lia.
  - destruct (insert_elem_spec h e (elems h)) as (h1 & -> & Hp1 & He1 & Hc1 & Hb1); [done..|].
    cbn [mbind res_bind].
    destruct (rehash_wf h1 mem (e :: elems h)) as (h' & -> & Hw & He);
      [done..|by apply unique_insert|].
    exists h', None. split_and!; try done; [by econstructor|].
    apply (wf_cnt_le _ _ 1); [done..|]. rewrite He. cbn. lia.
Qed.

Lemma hash_replace_ok h e mem :
  hash_wf h → elem_cnt h < 2 ^ 32 - 1 → op_ok h (Replace e) mem.
Proof.
  intros Hwf Hb. pose proof Hwf as [Hp Hs _ Hu].
  destruct (bucket_lookup h e Hp) as [b Eb]. unfold op_ok. cbn [hash_op].
  unfold hash_replace. rewrite Eb. cbn [deref mbind res_bind].
  pose proof (find_elem_spec h e b Hp Eb) as Hf. destruct (find_elem less b e) as [x|].
  - destruct (remove_elem_spec h x Hwf (proj1 Hf)) as (Hp0 & He0 & Hc0 & Hb0 & Hbc).
    pose proof (unlink_Permutation x _ (proj1 Hu) (proj1 Hf)) as Hperm.
    destruct (unique_unlink _ _ _ Hu Hf) as [Hu' Hno].
    destruct (insert_elem_spec (remove_elem h x) e (unlink x (elems h)))
      as (h1 & E1 & Hp1 & He1 & Hc1 & Hb1); [done|by rewrite He0|done..|].
    unfold Hash.find_bucket in E1 |- *. rewrite Hbc in E1. rewrite E1. cbn [mbind res_bind].
    destruct (rehash_wf h1 mem (e :: unlink x (elems h))) as (h' & -> & Hw & He);
      [done..|by apply unique_insert|].
    exists h', (Some x). split_and!; try done; [by econstructor|].
    apply (wf_cnt_le _ _ 1); [done..|].
    apply Permutation_length in He, Hperm. cbn in *. lia.
  - destruct (insert_elem_spec h e (elems h)) as (h1 & -> & Hp1 & He1 & Hc1 & Hb1); [done..|].
    cbn [mbind res_bind].
    destruct (rehash_wf h1 mem (e :: elems h)) as (h' & -> & Hw & He);
      [done..|by apply unique_insert|].
    exists h', None. split_and!; try done; [by econstructor|].
    apply (wf_cnt_le _ _ 1); [done..|]. rewrite He. cbn. lia.
Qed.

Lemma hash_delete_ok h e mem : hash_wf h → op_ok h (Delete e) mem.
Proof.
  intros Hwf. pose proof Hwf as [Hp Hs _ Hu].
  destruct (bucket_lookup h e Hp) as [b Eb]. unfold op_ok. cbn [hash_op].
  unfold hash_delete. rewrite Eb. cbn [deref mbind res_bind].
  pose proof (find_elem_spec h e b Hp Eb) as Hf. destruct (find_elem less b e) as [x|].
  - destruct (remove_elem_spec h x Hwf (proj1 Hf)) as (Hp0 & He0 & Hc0 & Hb0 & _).
    pose proof (unlink_Permutation x _ (proj1 Hu) (proj1 Hf)) as Hperm.
    destruct (unique_unlink _ _ _ Hu Hf) as [Hu' _].
    destruct (rehash_wf (remove_elem h x) mem (unlink x (elems h))) as (h' & -> & Hw & He);
      [done|done|lia|by rewrite He0|done|].
    exists h', (Some x). cbn. split_and!; try done; [econstructor; [done|by rewrite He]|].
    apply (wf_cnt_le _ _ 1); [done..|].
    apply Permutation_length in He, Hperm. cbn in *. lia.
  - exists h, None. split_and!; try done; [by constructor|lia].
Qed.

Lemma hash_find_ok h e mem : hash_wf h → op_ok h (Find e) mem.
Proof.
  intros Hwf. pose proof Hwf as [Hp _ _ _].
  destruct (bucket_lookup h e Hp) as [b Eb]. unfold op_ok. cbn [hash_op].
  unfold hash_find. rewrite Eb. cbn. do 2 eexists. split; [done|].
  split_and!; [done| |lia]. constructor. by apply find_elem_spec.
Qed.

(** A sequence of operations, each with what the allocator answers, on the
    table and on the dictionary. *)
Fixpoint hash_run (h : hash) (ops : list (op * bool)) : res (hash * list (option Z)) :=
  match ops with
  | [] => Ok (h, [])
  | (o, mem) :: ops' =>
      '(h, r) ← hash_op h o mem; '(h, rs) ← hash_run h ops'; Ok (h, r :: rs)
  end.
Inductive dict_run : list Z → list op → list Z → list (option Z) → Prop :=
  | dr_nil xs : dict_run xs [] xs []
  | dr_cons xs o xs1 r ops xs2 rs :
      dict_step xs o xs1 r → dict_run xs1 ops xs2 rs →
      dict_run xs (o :: ops) xs2 (r :: rs).

(** C23. Refinement: any sequence of [hash_insert], [hash_replace],
    [hash_delete] and [hash_find] on a well-formed table returns, whether or
    not the allocations of [rehash] succeed; what it returns is what the
    dictionary returns, and the table stays well formed: a power of two of
    buckets, every element in its bucket, [elem_cnt] exact, no two equal
    elements. *)
Theorem hash_refines_dict h ops :
  hash_wf h → elem_cnt h + Z.of_nat (length ops) < 2 ^ 32 →
  ∃ h' rs, hash_run h ops = Ok (h', rs) ∧ hash_wf h' ∧
    dict_run (elems h) (ops.*1) (elems h') rs.
Proof.
  revert h. induction ops as [|[o mem] ops IH]; intros h Hwf Hb.
  { exists h, []. split_and!; try done. constructor. }
  cbn [length] in Hb. assert (op_ok h o mem) as (h1 & r & E & Hw & Hstep & Hc).
  { destruct o; [apply hash_insert_ok|apply hash_replace_ok|apply hash_delete_ok|
      apply hash_find_ok]; done || lia. }
  destruct (IH h1 Hw) as (h' & rs & E' & Hw' & Hrun); [lia|].
  exists h', (r :: rs). cbn. rewrite E. cbn. rewrite E'. cbn. split_and!; try done.
  by econstructor.
Qed.

(** [rehash] with memory available sets the number of buckets to the
    largest power of 2 not above half the number of elements (at least 4),
    and keeps exactly the elements, each in the bucket its hash selects;
    without memory it changes nothing but is not an error. *)
Theorem rehash_correct h mem :
  hash_wf h →
  ∃ h', rehash hash_func h mem = Ok h' ∧ placed h' ∧ elems h' ≡ₚ elems h ∧
    elem_cnt h' = elem_cnt h ∧
    bucket_cnt h' = if mem then 2 ^ Z.log2 (Z.max 4 (elem_cnt h / 2)) else bucket_cnt h.
Proof.
  intros Hwf. destruct Hwf as [Hp Hs Hb _]. apply rehash_spec; [done|]. lia.
Qed.
End proofs.

(** ** Iteration *)

(** The elements an iterator has still to visit. *)
Definition remaining (h : hash) (i : hash_iterator) : list Z :=
  match drop (Z.to_nat (i_bucket i)) (buckets h) with
  | [] => []
  | b :: bs => drop (i_pos i) b ++ concat bs
  end.

Lemma remaining_lookup h i b : 0 ≤ i_bucket i → buckets h !! Z.to_nat (i_bucket i) = Some b →
  remaining h i = drop (i_pos i) b ++ remaining h (HashIterator (i_bucket i + 1) 0).
Proof.
  intros H0 Hb. unfold remaining. cbn [i_bucket i_pos].
  rewrite (drop_S _ b) by done. f_equal.
  replace (Z.to_nat (i_bucket i + 1)) with (S (Z.to_nat (i_bucket i))) by lia.
  by destruct (drop (S _) (buckets h)).
Qed.

(** The rest of the loop of [hash_next], which looks at [i_pos - 1]. *)
Definition next_post (h : hash) (rem : list Z) '((i, r) : hash_iterator * option Z) : Prop :=
  match r with
  | Some e => ∃ rem', rem = e :: rem' ∧ remaining h i = rem' ∧
      0 ≤ i_bucket i < bucket_cnt h
  | None => rem = []
  end.

Lemma hash_next_spec h i :
  Z.of_nat (length (buckets h)) = bucket_cnt h → 0 ≤ i_bucket i < bucket_cnt h →
  ∃ r, hash_next h i = Ok r ∧ next_post h (remaining h i) r.
Proof.
  intros Hlen Hi. unfold hash_next.
  eapply (loop_total (λ k j, ∃ b p, j = HashIterator b (S p) ∧ 0 ≤ b < bucket_cnt h ∧
    remaining h (HashIterator b p) = remaining h i ∧ Z.of_nat k = bucket_cnt h - b))
    with (k := Z.to_nat (bucket_cnt h - i_bucket i)); [| |lia].
  2: { exists (i_bucket i), (i_pos i). split_and!; done || lia. }
  intros k j (b & p & -> & Hb & Hrem & Hk). cbn [i_bucket i_pos pred].
  destruct (lookup_lt_is_Some_2 (buckets h) (Z.to_nat b)) as [l El]; [lia|].
  rewrite El. cbn [deref mbind res_bind].
  rewrite (remaining_lookup h (HashIterator b p) l) in Hrem by (cbn; done || lia).
  cbn [i_bucket i_pos] in Hrem. destruct (l !! p) as [e|] eqn:Ep.
  - eexists. split; [done|]. eexists. split; [|split; [done|done]].
    rewrite (remaining_lookup h (HashIterator b (S p)) l) by (cbn; done || lia).
    cbn [i_bucket i_pos]. rewrite <- Hrem. by rewrite (drop_S _ _ _ Ep).
  - apply lookup_ge_None in Ep. rewrite drop_ge in Hrem by done. cbn [app] in Hrem.
    destruct (Z.leb_spec (bucket_cnt h) (b + 1)).
    + eexists. split; [done|]. cbn. rewrite <- Hrem. unfold remaining. cbn.
      by rewrite drop_ge by lia.
    + eexists. split; [done|]. exists (k - 1)%nat. split; [lia|].
      exists (b + 1), 0%nat. split_and!; try done; lia.
Qed.

(** The iteration idiom of the comment above [hash_first]. *)
Fixpoint hash_iterate (n : nat) (h : hash) (i : hash_iterator) : res (list Z) :=
  match n with
  | O => Err EFuel
  | S n' =>
      '(i, r) ← hash_next h i;
      match r with
      | None => Ok []
      | Some e => es ← hash_iterate n' h i; Ok (e :: es)
      end
  end.

Lemma hash_iterate_spec h n i :
  Z.of_nat (length (buckets h)) = bucket_cnt h → 0 ≤ i_bucket i < bucket_cnt h →
  (length (remaining h i) < n)%nat → hash_iterate n h i = Ok (remaining h i).
Proof.
  intros Hlen. revert i. induction n as [|n IH]; intros i Hi Hn; [lia|].
  destruct (hash_next_spec h i Hlen Hi) as ([i' r] & E & Hr). cbn [hash_iterate]. rewrite E.
  cbn [mbind res_bind].
  destruct r as [e|]; cbn in Hr; [|by rewrite Hr].
  destruct Hr as (rem & Er & Ei & Hi'). rewrite Er in *. cbn in Hn.
  rewrite IH by (done || rewrite Ei; lia). cbn. by rewrite Ei.
Qed.

(** The iteration idiom visits every element of the table exactly once:
    [hash_first] followed by [hash_next] until it returns a null pointer
    yields the elements, in bucket order, and ends. *)
Theorem hash_iterate_correct hash_func less h :
  hash_wf hash_func less h →
  hash_iterate (S (length (elems h))) h (hash_first h) = Ok (elems h) ∧
  NoDup (elems h) ∧ hash_size h = Z.of_nat (length (elems h)).
Proof.
  intros Hwf. destruct Hwf as [Hp Hs _ [Hnd _]].
  assert (remaining h (hash_first h) = elems h) as Hr.
  { unfold remaining, elems. cbn. by destruct (buckets h) as [|b bs]. }
  split_and!; [|done..]. rewrite hash_iterate_spec; [by rewrite Hr|apply Hp| |by rewrite Hr; lia].
  destruct (placed_pow _ _ Hp) as (k & Hk & ->). cbn. split; [lia|].
  apply Z.pow_pos_nonneg; lia.
Qed.

Lemma hash_clear_spec {A} h (d : option (Z → A → A)) a :
  Z.of_nat (length (buckets h)) = bucket_cnt h →
  hash_clear h d a = Ok (Hash 0 (bucket_cnt h) (replicate (length (buckets h)) []),
    match d with Some d => fold_left (λ a e, d e a) (elems h) a | None => a end).
Proof.
  intros Hlen. unfold hash_clear.
  destruct (for_up_total (λ i '(bs, a'), 0 ≤ i ∧
      bs = replicate (Z.to_nat i) [] ++ drop (Z.to_nat i) (buckets h) ∧
      a' = match d with
           | Some d => fold_left (λ a e, d e a) (concat (take (Z.to_nat i) (buckets h))) a
           | None => a end)
    (λ i '(bs, a), bucket ← deref (bs !! Z.to_nat i);
      Ok (<[Z.to_nat i := []]> bs,
        match d with Some d => fold_left (λ a e, d e a) bucket a | None => a end))
    (Z.to_nat (bucket_cnt h)) 0 (buckets h, a)) as ([bs a'] & -> & _ & -> & ->).
  - intros i [bs a'] Hi (_ & -> & ->).
    destruct (lookup_lt_is_Some_2 (buckets h) (Z.to_nat i)) as [b Eb]; [lia|].
    rewrite lookup_app_r, length_replicate, Nat.sub_diag, lookup_drop, Nat.add_0_r, Eb
      by (rewrite length_replicate; lia). cbn [deref mbind res_bind].
    eexists. split; [done|]. cbn.
    replace (Z.to_nat (i + 1)) with (S (Z.to_nat i)) by lia. split_and!; [lia| |].
    + rewrite insert_app_r_alt by (rewrite length_replicate; lia).
      rewrite length_replicate, Nat.sub_diag, (drop_S _ _ _ Eb), replicate_S_end.
      by rewrite <- app_assoc.
    + destruct d as [d|]; [|done]. rewrite (take_S_r _ _ _ Eb), concat_app, fold_left_app.
      cbn. by rewrite app_nil_r.
  - split_and!; [done|by rewrite drop_0|by destruct d].
  - cbn [mbind res_bind]. replace (Z.to_nat (0 + Z.of_nat (Z.to_nat (bucket_cnt h))))
      with (length (buckets h)) by lia.
    by rewrite drop_all, firstn_all, app_nil_r.
Qed.

Lemma hash_wf_empty hash_func less n k : 2 ≤ k < 32 → Z.of_nat n = 2 ^ k →
  hash_wf hash_func less (Hash 0 (2 ^ k) (replicate n [])).
Proof.
  intros Hk Hn. split; unfold elems; cbn; rewrite ?concat_replicate_nil; try done.
  - replace n with (Z.to_nat (2 ^ k)) by lia. by eapply placed_empty.
  - split; [constructor|]. by intros x y Hx%not_elem_of_nil.
Qed.

(** [hash_init] makes a well-formed empty table of four buckets from any
    four allocated lists, and [hash_clear] empties any well-formed table,
    calling the destructor once for every element. *)
Theorem hash_init_clear_correct {A} hash_func less (mem : list (list Z)) h d (a : A) :
  length mem = 4%nat → hash_wf hash_func less h →
  (∃ h0, hash_init (Some mem) a = Ok (Some h0) ∧ hash_wf hash_func less h0 ∧
     elems h0 = [] ∧ hash_empty h0 = true) ∧
  (∃ h1, hash_clear h (Some d) a = Ok (h1, fold_left (λ a e, d e a) (elems h) a) ∧
     hash_wf hash_func less h1 ∧ elems h1 = [] ∧ bucket_cnt h1 = bucket_cnt h).
Proof.
  intros Hmem Hwf. pose proof (wf_placed _ _ _ Hwf) as Hp. split.
  - unfold hash_init. rewrite hash_clear_spec by (cbn; lia). cbn. eexists.
    split; [done|]. rewrite Hmem. split_and!; try done.
    change 4 with (2 ^ 2). by apply hash_wf_empty.
  - destruct (placed_pow _ _ Hp) as (k & Hk & Ek). pose proof (placed_len _ _ Hp) as Hl.
    rewrite hash_clear_spec by done. eexists. split; [done|].
    split_and!; [|apply concat_replicate_nil|done].
    rewrite Ek. apply hash_wf_empty; [done|congruence].
Qed.

(** ** Witnesses *)

Definition demo_hash : hash := Hash 0 4 [[]; []; []; []].
Lemma demo_hash_wf : hash_wf hash_int Z.ltb demo_hash.
Proof. apply (hash_wf_empty hash_int Z.ltb 4 2); done. Qed.
Lemma ltb_equal x y : equal Z.ltb x y = true → x = y.
Proof. unfold equal. lia. Qed.

Lemma hash_refines_dict_witness :
  ∃ h' rs, hash_run hash_int Z.ltb demo_hash
      [(Insert 7, true); (Insert 7, false); (Find 9, true); (Delete 7, true)] = Ok (h', rs) ∧
    hash_wf hash_int Z.ltb h' ∧
    dict_run Z.ltb (elems demo_hash) [Insert 7; Insert 7; Find 9; Delete 7] (elems h') rs.
Proof.
  apply (hash_refines_dict hash_int Z.ltb Z.ltb_irrefl).
  - intros x y z ->%ltb_equal. exact (λ H, H).
  - intros x y ->%ltb_equal. reflexivity.
  - exact demo_hash_wf.
  - cbn. lia.
Defined.

Lemma rehash_correct_witness :
  ∃ h', rehash hash_int demo_hash true = Ok h' ∧ placed hash_int h' ∧
    elems h' ≡ₚ elems demo_hash ∧ elem_cnt h' = 0 ∧
    bucket_cnt h' = 2 ^ Z.log2 (Z.max 4 (0 / 2)).
Proof. apply (rehash_correct hash_int Z.ltb demo_hash true). exact demo_hash_wf. Defined.

Lemma hash_iterate_witness :
  hash_iterate (S (length (elems demo_hash))) demo_hash (hash_first demo_hash) =
    Ok (elems demo_hash) ∧
  NoDup (elems demo_hash) ∧ hash_size demo_hash = Z.of_nat (length (elems demo_hash)).
Proof. apply (hash_iterate_correct hash_int Z.ltb). exact demo_hash_wf. Defined.

Lemma hash_init_clear_witness :
  ∃ h0, hash_init (Some [[1]; []; [2; 3]; []]) tt = Ok (Some h0) ∧
    hash_wf hash_int Z.ltb h0 ∧ elems h0 = [] ∧ hash_empty h0 = true.
Proof.
  apply (hash_init_clear_correct hash_int Z.ltb [[1]; []; [2; 3]; []] demo_hash (λ _ a, a) tt).
  - reflexivity.
  - exact demo_hash_wf.
Defined.
