(* ===== verification/Thread.v ===== *)
(** * Threads, synchronisation and the timer

    threads/thread.c, threads/synch.c, the parts of threads/interrupt.c they
    use, and devices/timer.c, as one machine.  A kernel runs on one
    processor, so code between [intr_disable] and the next point where
    interrupts may be taken is one step; what a thread still has to do is a
    list of instructions, and a thread that goes to sleep inside a function
    leaves the rest of that function in its list.  A step executes the first
    instruction of the running thread, or takes a timer interrupt.

    Threads are identified by the address of their [struct thread] (0 is the
    null pointer); the run queue, the wait queues and the list of all threads
    are the sequences that the kernel lists describe (see KListProps.v). *)

From stdpp Require Import functions.
From S2P Require Import Prelude KListSort.

Inductive thread_status : Set :=
  THREAD_RUNNING | THREAD_READY | THREAD_BLOCKED | THREAD_DYING.
#[global] Instance thread_status_eq_dec : EqDecision thread_status.
Proof. solve_decision. Defined.

Definition PRI_MIN : Z := 0.
Definition PRI_DEFAULT : Z := 31.
Definition PRI_MAX : Z := 63.
Definition TIME_SLICE : Z := 4.
Definition TID_ERROR : Z := -1.

(** Semaphores by owner: one that code declares itself, the one inside a
    lock, [timer_sema] of a thread, the local [waiter] of a thread in
    [cond_wait], and the local [idle_started] of a thread in [thread_start]. *)
Inductive sid : Set :=
  | SPlain (n : Z) | SLock (l : Z) | STimer (t : Z) | SWaiter (t : Z) | SIdle (t : Z).
#[global] Instance sid_eq_dec : EqDecision sid.
Proof. solve_decision. Defined.

Record semaphore := Semaphore { value : Z; waiters : list Z }.

(** What the code of a thread can call. *)
Inductive call : Set :=
  | SemaDown (s : Z) | SemaUp (s : Z) | SemaTryDown (s : Z)
  | LockAcquire (l : Z) | LockTryAcquire (l : Z) | LockRelease (l : Z)
  | CondWait (c l : Z) | CondSignal (c l : Z) | CondBroadcast (c l : Z)
  | Yield | Exit | TimerSleep (ticks : Z) | SetPriority (p : Z)
  | ThreadCreate (page priority : Z) (function : list call)
  | ThreadStart (page : Z).

(** The function of a new thread: some calls, or [idle] with the semaphore of
    the thread in [thread_start]. *)
Inductive thread_func : Set := FCalls (cs : list call) | FIdle (starter : Z).

(** Instructions: calls, and the points inside the functions where another
    thread or an interrupt may run. *)
Inductive instr : Set :=
  | Call (c : call)
  | ISemaDown (s : sid)                  (* enter sema_down *)
  | ISemaDownLoop (s : sid) (old : bool) (* in its loop, interrupts off *)
  | ISemaUp (s : sid)
  | ISetHolder (l : Z)                   (* lock->holder = thread_current () *)
  | ISetLevel (level : bool)             (* intr_set_level (level) *)
  | IIret                                (* return from an interrupt *)
  | IAllocTid                            (* tid = next_tid++ *)
  | ITimerInsert                         (* the atomic part of timer_sleep *)
  | IInitThread (t priority : Z) (function : thread_func)
  | IUnblock (t : Z)
  | ISetIdle                             (* idle_thread = thread_current () *)
  | IIdleLoop                            (* intr_disable (); thread_block () *)
  | ISti.                                (* sti; hlt *)

Record thread := Thread {
  tid : Z;
  status : thread_status;
  priority : Z;
  wakeup_time : Z;
  pagedir : Z;
  code : list instr;
  ret : Z;      (* the value of the last call that returns one *)
}.

Record kernel := Kernel {
  threads : gmap Z thread;
  ready_list : list Z;
  all_list : list Z;
  current : Z;
  idle_thread : Z;
  initial_thread : Z;
  semas : sid → semaphore;
  holder : Z → Z;
  cond_waiters : Z → list Z;
  next_tid : Z;
  intr_level : bool;
  in_external_intr : bool;
  yield_on_return : bool;
  ticks : Z;
  thread_ticks : Z;
  idle_ticks : Z;
  kernel_ticks : Z;
  user_ticks : Z;
  wait_list : list Z;
}.

(** ** Stores *)

Definition set_threads (m : gmap Z thread) (k : kernel) : kernel :=
  Kernel m (ready_list k) (all_list k) (current k) (idle_thread k) (initial_thread k)
    (semas k) (holder k) (cond_waiters k) (next_tid k) (intr_level k) (in_external_intr k)
    (yield_on_return k) (ticks k) (thread_ticks k) (idle_ticks k) (kernel_ticks k)
    (user_ticks k) (wait_list k).
Definition set_ready (l : list Z) (k : kernel) : kernel :=
  Kernel (threads k) l (all_list k) (current k) (idle_thread k) (initial_thread k)
    (semas k) (holder k) (cond_waiters k) (next_tid k) (intr_level k) (in_external_intr k)
    (yield_on_return k) (ticks k) (thread_ticks k) (idle_ticks k) (kernel_ticks k)
    (user_ticks k) (wait_list k).
Definition set_all (l : list Z) (k : kernel) : kernel :=
  Kernel (threads k) (ready_list k) l (current k) (idle_thread k) (initial_thread k)
    (semas k) (holder k) (cond_waiters k) (next_tid k) (intr_level k) (in_external_intr k)
    (yield_on_return k) (ticks k) (thread_ticks k) (idle_ticks k) (kernel_ticks k)
    (user_ticks k) (wait_list k).
Definition set_current (t : Z) (k : kernel) : kernel :=
  Kernel (threads k) (ready_list k) (all_list k) t (idle_thread k) (initial_thread k)
    (semas k) (holder k) (cond_waiters k) (next_tid k) (intr_level k) (in_external_intr k)
    (yield_on_return k) (ticks k) (thread_ticks k) (idle_ticks k) (kernel_ticks k)
    (user_ticks k) (wait_list k).
Definition set_idle (t : Z) (k : kernel) : kernel :=
  Kernel (threads k) (ready_list k) (all_list k) (current k) t (initial_thread k)
    (semas k) (holder k) (cond_waiters k) (next_tid k) (intr_level k) (in_external_intr k)
    (yield_on_return k) (ticks k) (thread_ticks k) (idle_ticks k) (kernel_ticks k)
    (user_ticks k) (wait_list k).
Definition set_sema (s : sid) (v : semaphore) (k : kernel) : kernel :=
  Kernel (threads k) (ready_list k) (all_list k) (current k) (idle_thread k)
    (initial_thread k) (<[s := v]> (semas k)) (holder k) (cond_waiters k) (next_tid k)
    (intr_level k) (in_external_intr k) (yield_on_return k) (ticks k) (thread_ticks k)
    (idle_ticks k) (kernel_ticks k) (user_ticks k) (wait_list k).
Definition set_holder (l t : Z) (k : kernel) : kernel :=
  Kernel (threads k) (ready_list k) (all_list k) (current k) (idle_thread k)
    (initial_thread k) (semas k) (<[l := t]> (holder k)) (cond_waiters k) (next_tid k)
    (intr_level k) (in_external_intr k) (yield_on_return k) (ticks k) (thread_ticks k)
    (idle_ticks k) (kernel_ticks k) (user_ticks k) (wait_list k).
Definition set_cond (c : Z) (ws : list Z) (k : kernel) : kernel :=
  Kernel (threads k) (ready_list k) (all_list k) (current k) (idle_thread k)
    (initial_thread k) (semas k) (holder k) (<[c := ws]> (cond_waiters k)) (next_tid k)
    (intr_level k) (in_external_intr k) (yield_on_return k) (ticks k) (thread_ticks k)
    (idle_ticks k) (kernel_ticks k) (user_ticks k) (wait_list k).
Definition set_next_tid (n : Z) (k : kernel) : kernel :=
  Kernel (threads k) (ready_list k) (all_list k) (current k) (idle_thread k)
    (initial_thread k) (semas k) (holder k) (cond_waiters k) n
    (intr_level k) (in_external_intr k) (yield_on_return k) (ticks k) (thread_ticks k)
    (idle_ticks k) (kernel_ticks k) (user_ticks k) (wait_list k).
Definition set_intr (on : bool) (k : kernel) : kernel :=
  Kernel (threads k) (ready_list k) (all_list k) (current k) (idle_thread k)
    (initial_thread k) (semas k) (holder k) (cond_waiters k) (next_tid k)
    on (in_external_intr k) (yield_on_return k) (ticks k) (thread_ticks k)
    (idle_ticks k) (kernel_ticks k) (user_ticks k) (wait_list k).
Definition set_external (ext yield : bool) (k : kernel) : kernel :=
  Kernel (threads k) (ready_list k) (all_list k) (current k) (idle_thread k)
    (initial_thread k) (semas k) (holder k) (cond_waiters k) (next_tid k)
    (intr_level k) ext yield (ticks k) (thread_ticks k)
    (idle_ticks k) (kernel_ticks k) (user_ticks k) (wait_list k).
Definition set_ticks (t tt it kt ut : Z) (k : kernel) : kernel :=
  Kernel (threads k) (ready_list k) (all_list k) (current k) (idle_thread k)
    (initial_thread k) (semas k) (holder k) (cond_waiters k) (next_tid k)
    (intr_level k) (in_external_intr k) (yield_on_return k) t tt it kt ut (wait_list k).
Definition set_wait_list (l : list Z) (k : kernel) : kernel :=
  Kernel (threads k) (ready_list k) (all_list k) (current k) (idle_thread k)
    (initial_thread k) (semas k) (holder k) (cond_waiters k) (next_tid k)
    (intr_level k) (in_external_intr k) (yield_on_return k) (ticks k) (thread_ticks k)
    (idle_ticks k) (kernel_ticks k) (user_ticks k) l.

Definition with_status (st : thread_status) (t : thread) : thread :=
  Thread (tid t) st (priority t) (wakeup_time t) (pagedir t) (code t) (ret t).
Definition with_code (c : list instr) (t : thread) : thread :=
  Thread (tid t) (status t) (priority t) (wakeup_time t) (pagedir t) c (ret t).
Definition with_ret (r : Z) (t : thread) : thread :=
  Thread (tid t) (status t) (priority t) (wakeup_time t) (pagedir t) (code t) r.
Definition with_wakeup (w : Z) (t : thread) : thread :=
  Thread (tid t) (status t) (priority t) w (pagedir t) (code t) (ret t).
Definition with_priority (p : Z) (t : thread) : thread :=
  Thread (tid t) (status t) p (wakeup_time t) (pagedir t) (code t) (ret t).

(** Apply [f] to the [struct thread] at [t]. *)
Definition upd (t : Z) (f : thread → thread) (k : kernel) : res kernel :=
  th ← deref (threads k !! t); Ok (set_threads (<[t := f th]> (threads k)) k).

(** ** threads/interrupt.c *)

Definition intr_get_level (k : kernel) : bool := intr_level k.
Definition intr_context (k : kernel) : bool := in_external_intr k.
Definition intr_enable (k : kernel) : res kernel :=
  ASSERT (negb (intr_context k));; Ok (set_intr true k).
Definition intr_disable (k : kernel) : kernel := set_intr false k.
Definition intr_set_level (level : bool) (k : kernel) : res kernel :=
  if level then intr_enable k else Ok (intr_disable k).
Definition intr_yield_on_return (k : kernel) : res kernel :=
  ASSERT (intr_context k);; Ok (set_external (in_external_intr k) true k).

(** ** threads/thread.c *)

(** [is_thread]: a valid [struct thread] is at [t]. *)
Definition is_thread (k : kernel) (t : Z) : bool :=
  match threads k !! t with Some _ => true | None => false end.

Definition running_thread (k : kernel) : res thread := deref (threads k !! current k).

Definition thread_current (k : kernel) : res Z :=
  ASSERT (is_thread k (current k));;
  th ← running_thread k;
  ASSERT (bool_decide (status th = THREAD_RUNNING));; Ok (current k).

(** The next thread, and the run queue without it. *)
Definition next_thread_to_run (k : kernel) : Z * kernel :=
  match ready_list k with
  | [] => (idle_thread k, k)
  | t :: ready => (t, set_ready ready k)
  end.

(** [prev] is the null pointer when no switch took place.  Destroying a
    dying thread frees its page. *)
Definition thread_schedule_tail (prev : Z) (k : kernel) : res kernel :=
  ASSERT (negb (intr_get_level k));;
  k ← upd (current k) (with_status THREAD_RUNNING) k;
  let k := set_ticks (ticks k) 0 (idle_ticks k) (kernel_ticks k) (user_ticks k) k in
  match threads k !! prev with
  | Some p =>
      if negb (prev =? 0) && bool_decide (status p = THREAD_DYING)
         && negb (prev =? initial_thread k) then
        ASSERT (negb (prev =? current k));; Ok (set_threads (delete prev (threads k)) k)
      else Ok k
  | None => Ok k
  end.

(** [switch_threads] makes [next] the running thread; what remains of the
    caller's function stays in its code. *)
Definition schedule (k : kernel) : res kernel :=
  let cur := current k in
  let '(next, k) := next_thread_to_run k in
  ASSERT (negb (intr_get_level k));;
  th ← running_thread k;
  ASSERT (bool_decide (status th ≠ THREAD_RUNNING));;
  ASSERT (is_thread k next);;
  thread_schedule_tail (if cur =? next then 0 else cur) (set_current next k).

Definition thread_block (k : kernel) : res kernel :=
  ASSERT (negb (intr_context k));; ASSERT (negb (intr_get_level k));;
  cur ← thread_current k;
  k ← upd cur (with_status THREAD_BLOCKED) k;
  schedule k.

Definition thread_unblock (t : Z) (k : kernel) : res kernel :=
  ASSERT (is_thread k t);;
  let old_level := intr_get_level k in
  let k := intr_disable k in
  th ← deref (threads k !! t);
  ASSERT (bool_decide (status th = THREAD_BLOCKED));;
  k ← upd t (with_status THREAD_READY) (set_ready (ready_list k ++ [t]) k);
  intr_set_level old_level k.

(** Put instructions in front of the running thread's code. *)
Definition push_code (c : list instr) (k : kernel) : res kernel :=
  upd (current k) (λ th, with_code (c ++ code th) th) k.

Definition thread_yield (k : kernel) : res kernel :=
  cur ← thread_current k;
  ASSERT (negb (intr_context k));;
  let old_level := intr_get_level k in
  let k := intr_disable k in
  let k := if negb (cur =? idle_thread k) then set_ready (ready_list k ++ [cur]) k else k in
  k ← push_code [ISetLevel old_level] k;
  k ← upd cur (with_status THREAD_READY) k;
  schedule k.

(** After [syscall_exit] and [process_exit], which are not part of this
    machine. *)
Definition thread_exit (k : kernel) : res kernel :=
  ASSERT (negb (intr_context k));;
  let k := intr_disable k in
  cur ← thread_current k;
  let k := set_all (filter (λ t, t ≠ cur) (all_list k)) k in
  k ← upd cur (λ th, with_code [] (with_status THREAD_DYING th)) k;
  schedule k.

Definition thread_tick (k : kernel) : res kernel :=
  t ← thread_current k; th ← running_thread k;
  let '(it, kt, ut) :=
    if t =? idle_thread k then (s64 (idle_ticks k + 1), kernel_ticks k, user_ticks k)
    else if negb (pagedir th =? 0) then (idle_ticks k, kernel_ticks k, s64 (user_ticks k + 1))
    else (idle_ticks k, s64 (kernel_ticks k + 1), user_ticks k) in
  let n := u32 (thread_ticks k + 1) in
  let k := set_ticks (ticks k) n it kt ut k in
  if TIME_SLICE <=? n then intr_yield_on_return k else Ok k.

Definition thread_set_priority (p : Z) (k : kernel) : res kernel :=
  cur ← thread_current k; upd cur (with_priority p) k.

(** ** threads/synch.c *)

Definition sema_init (s : sid) (v : Z) (k : kernel) : kernel := set_sema s (Semaphore v []) k.

(** The loop of [sema_down], entered with interrupts off. *)
Definition sema_down_loop (s : sid) (old_level : bool) (k : kernel) : res kernel :=
  let sema := semas k s in
  if value sema =? 0 then
    cur ← thread_current k;
    let k := set_sema s (Semaphore (value sema) (waiters sema ++ [cur])) k in
    k ← push_code [ISemaDownLoop s old_level] k;
    thread_block k
  else
    let k := set_sema s (Semaphore (u32 (value sema - 1)) (waiters sema)) k in
    intr_set_level old_level k.

Definition sema_down (s : sid) (k : kernel) : res kernel :=
  ASSERT (negb (intr_context k));;
  let old_level := intr_get_level k in
  sema_down_loop s old_level (intr_disable k).

Definition sema_try_down (s : sid) (k : kernel) : res (kernel * bool) :=
  let old_level := intr_get_level k in
  let k := intr_disable k in
  let sema := semas k s in
  let '(k, success) :=
    if 0 <? value sema
    then (set_sema s (Semaphore (u32 (value sema - 1)) (waiters sema)) k, true)
    else (k, false) in
  k ← intr_set_level old_level k; Ok (k, success).

Definition sema_up (s : sid) (k : kernel) : res kernel :=
  let old_level := intr_get_level k in
  let k := intr_disable k in
  k ← match waiters (semas k s) with
      | [] => Ok k
      | t :: ws => thread_unblock t (set_sema s (Semaphore (value (semas k s)) ws) k)
      end;
  let sema := semas k s in
  let k := set_sema s (Semaphore (u32 (value sema + 1)) (waiters sema)) k in
  intr_set_level old_level k.

Definition lock_init (l : Z) (k : kernel) : kernel :=
  sema_init (SLock l) 1 (set_holder l 0 k).

Definition lock_held_by_current_thread (l : Z) (k : kernel) : res bool :=
  cur ← thread_current k; Ok (holder k l =? cur).

(** [lock_acquire]: the assertions, then [sema_down], then the holder. *)
Definition lock_acquire (l : Z) (k : kernel) : res kernel :=
  ASSERT (negb (intr_context k));;
  held ← lock_held_by_current_thread l k; ASSERT (negb held);;
  push_code [ISemaDown (SLock l); ISetHolder l] k.

Definition lock_set_holder (l : Z) (k : kernel) : res kernel :=
  cur ← thread_current k; Ok (set_holder l cur k).

Definition lock_try_acquire (l : Z) (k : kernel) : res kernel :=
  held ← lock_held_by_current_thread l k; ASSERT (negb held);;
  '(k, success) ← sema_try_down (SLock l) k;
  k ← upd (current k) (with_ret (Z.b2z success)) k;
  if success : bool then push_code [ISetHolder l] k else Ok k.

Definition lock_release (l : Z) (k : kernel) : res kernel :=
  held ← lock_held_by_current_thread l k; ASSERT held;;
  push_code [ISemaUp (SLock l)] (set_holder l 0 k).

Definition cond_init (c : Z) (k : kernel) : kernel := set_cond c [] k.

Definition cond_wait (c l : Z) (k : kernel) : res kernel :=
  ASSERT (negb (intr_context k));;
  held ← lock_held_by_current_thread l k; ASSERT held;;
  let w := current k in
  let k := sema_init (SWaiter w) 0 k in
  let k := set_cond c (cond_waiters k c ++ [w]) k in
  push_code [Call (LockRelease l); ISemaDown (SWaiter w); Call (LockAcquire l)] k.

Definition cond_signal (c l : Z) (k : kernel) : res kernel :=
  ASSERT (negb (intr_context k));;
  held ← lock_held_by_current_thread l k; ASSERT held;;
  match cond_waiters k c with
  | [] => Ok k
  | w :: ws => push_code [ISemaUp (SWaiter w)] (set_cond c ws k)
  end.

(** One turn of the loop of [cond_broadcast]. *)
Definition cond_broadcast (c l : Z) (k : kernel) : res kernel :=
  match cond_waiters k c with
  | [] => Ok k
  | _ :: _ => push_code [Call (CondSignal c l); Call (CondBroadcast c l)] k
  end.

(** ** Creating threads *)

(** The lock [tid_lock]. *)
Definition tid_lock : Z := 0.

(** The body of [idle]. *)
Definition idle (idle_started : sid) : list instr :=
  [ISetIdle; ISemaUp idle_started; IIdleLoop].

(** [kernel_thread]: enable interrupts, run the function, exit. *)
Definition kernel_thread (function : thread_func) : list instr :=
  ISetLevel true ::
    match function with FCalls cs => Call <$> cs | FIdle t => idle (SIdle t) end ++ [Call Exit].

(** The new thread's [struct thread] at the fresh page [t]. *)
Definition init_thread (t pri : Z) (function : thread_func) (k : kernel) : res kernel :=
  ASSERT (negb (t =? 0));;
  ASSERT ((PRI_MIN <=? pri) && (pri <=? PRI_MAX));;
  cur ← running_thread k;
  match threads k !! t with
  | Some _ => Err EFault
  | None =>
      let k := set_threads
        (<[t := Thread (ret cur) THREAD_BLOCKED pri 0 0 (kernel_thread function) 0]>
           (threads k)) k in
      Ok (set_all (all_list k ++ [t]) (sema_init (STimer t) 0 k))
  end.

(** [page] is what [palloc_get_page] returns.  [allocate_tid] is the
    critical section in the middle. *)
Definition thread_create (page pri : Z) (function : thread_func) (k : kernel) : res kernel :=
  if page =? 0 then upd (current k) (with_ret TID_ERROR) k else
  push_code [Call (LockAcquire tid_lock); IAllocTid; Call (LockRelease tid_lock);
             IInitThread page pri function; IUnblock page] k.

Definition allocate_tid (k : kernel) : res kernel :=
  k' ← upd (current k) (with_ret (next_tid k)) k;
  Ok (set_next_tid (s32 (next_tid k + 1)) k').

Definition thread_start (page : Z) (k : kernel) : res kernel :=
  let idle_started := SIdle (current k) in
  let k := sema_init idle_started 0 k in
  k ← push_code [ISetLevel true; ISemaDown idle_started] k;
  thread_create page PRI_MIN (FIdle (current k)) k.

(** ** devices/timer.c *)

Definition compare_threads_by_wakeup_time (k : kernel) (a b : Z) : bool :=
  match threads k !! a, threads k !! b with
  | Some a, Some b => wakeup_time a <? wakeup_time b
  | _, _ => false
  end.

Definition timer_ticks (k : kernel) : Z := ticks k.
Definition timer_elapsed (k : kernel) (then_ : Z) : Z := s64 (timer_ticks k - then_).

Definition timer_sleep (n : Z) (k : kernel) : res kernel :=
  t ← thread_current k;
  k ← upd t (with_wakeup (s64 (timer_ticks k + n))) k;
  push_code [ITimerInsert; ISemaDown (STimer t)] k.

Definition timer_insert (k : kernel) : res kernel :=
  ASSERT (intr_get_level k);;
  let k := intr_disable k in
  let k := set_wait_list (insert_ordered (compare_threads_by_wakeup_time k)
                            (current k) (wait_list k)) k in
  intr_enable k.

(** The loop of [timer_interrupt] over the wait list. *)
Fixpoint timer_wake (l : list Z) (k : kernel) : res kernel :=
  match l with
  | [] => Ok (set_wait_list [] k)
  | t :: l' =>
      th ← deref (threads k !! t);
      if ticks k <? wakeup_time th then Ok (set_wait_list l k)
      else k ← sema_up (STimer t) k; timer_wake l' (set_wait_list l' k)
  end.

Definition timer_interrupt (k : kernel) : res kernel :=
  let k := set_ticks (s64 (ticks k + 1)) (thread_ticks k) (idle_ticks k)
             (kernel_ticks k) (user_ticks k) k in
  k ← thread_tick k;
  timer_wake (wait_list k) k.

(** [intr_handler] for the timer: the interrupt gate turns interrupts off,
    [iret] turns them on again. *)
Definition intr_handler (k : kernel) : res kernel :=
  let k := set_external true false (set_intr false k) in
  k ← timer_interrupt k;
  ASSERT (negb (intr_get_level k));; ASSERT (intr_context k);;
  let yield := yield_on_return k in
  let k := set_external false yield k in
  k ← push_code [IIret] k;
  if yield then thread_yield k else Ok k.

(** ** The machine *)

Definition exec_call (c : call) (k : kernel) : res kernel :=
  match c with
  | SemaDown s => sema_down (SPlain s) k
  | SemaUp s => sema_up (SPlain s) k
  | SemaTryDown s =>
      '(k, b) ← sema_try_down (SPlain s) k; upd (current k) (with_ret (Z.b2z b)) k
  | LockAcquire l => lock_acquire l k
  | LockTryAcquire l => lock_try_acquire l k
  | LockRelease l => lock_release l k
  | CondWait c l => cond_wait c l k
  | CondSignal c l => cond_signal c l k
  | CondBroadcast c l => cond_broadcast c l k
  | Yield => thread_yield k
  | Exit => thread_exit k
  | TimerSleep n => timer_sleep n k
  | SetPriority p => thread_set_priority p k
  | ThreadCreate page pri f => thread_create page pri (FCalls f) k
  | ThreadStart page => thread_start page k
  end.

Definition exec (i : instr) (k : kernel) : res kernel :=
  match i with
  | Call c => exec_call c k
  | ISemaDown s => sema_down s k
  | ISemaDownLoop s old => sema_down_loop s old k
  | ISemaUp s => sema_up s k
  | ISetHolder l => lock_set_holder l k
  | ISetLevel level => intr_set_level level k
  | IIret => Ok (set_intr true k)
  | IAllocTid => allocate_tid k
  | ITimerInsert => timer_insert k
  | IInitThread t pri f => init_thread t pri f k
  | IUnblock t => thread_unblock t k
  | ISetIdle => cur ← thread_current k; Ok (set_idle cur k)
  | IIdleLoop => k ← push_code [ISti; IIdleLoop] (intr_disable k); thread_block k
  | ISti => intr_enable k
  end.

(** The running thread executes its next instruction. *)
Definition thread_step (k : kernel) : res kernel :=
  th ← running_thread k;
  match code th with
  | [] => Err EFault
  | i :: c => k ← upd (current k) (with_code c) k; exec i k
  end.

Inductive step (k k' : kernel) : Prop :=
  | step_thread : thread_step k = Ok k' → step k k'
  | step_timer : intr_level k = true → intr_handler k = Ok k' → step k k'.

(** After [thread_init] the machine runs the initial thread, interrupts off,
    with every lock initialised and plain semaphore [n] at [init n]. *)
Definition thread_init (main : Z) (init : Z → Z) (function : list call) : kernel :=
  Kernel {[ main := Thread 0 THREAD_RUNNING PRI_DEFAULT 0 0 (Call <$> function) 0 ]}
    [] [main] main 0 main
    (λ s, match s with
          | SPlain n => Semaphore (init n) []
          | SLock _ => Semaphore 1 []
          | _ => Semaphore 0 []
          end)
    (λ _, 0) (λ _, []) 1 false false false 0 0 0 0 0 [].

Inductive reachable (main : Z) (init : Z → Z) (function : list call) : kernel → Prop :=
  | reach_init : reachable main init function (thread_init main init function)
  | reach_step k k' : reachable main init function k → step k k' →
      reachable main init function k'.
