(* ===== verification/ThreadInv.v ===== *)
(** * The invariant of the thread machine

    [inv] relates the run queue, the wait queues, the statuses and the code
    of all threads; the operations of Thread.v preserve it.  Three parts of
    it are sums over all threads: the tokens of each lock ([tok]), the
    threads that are created but not yet on the run queue ([orp]) and the
    threads woken from a semaphore that have not run yet ([pend]).  Between
    taking an instruction from the running thread's code and its effect the
    sums are off by what the instruction stands for; [fl] holds that float. *)

From stdpp Require Import functions.
From S2P Require Import Prelude KListSort Thread.

(** ** Sums *)

Fixpoint csum (f : instr → Z) (c : list instr) : Z :=
  match c with [] => 0 | i :: c' => f i + csum f c' end.
Definition msum (f : thread → Z) (m : gmap Z thread) : Z :=
  map_fold (λ _ th a, f th + a) 0 m.

Lemma csum_app f c1 c2 : csum f (c1 ++ c2) = csum f c1 + csum f c2.
Proof. induction c1 as [|i c1 IH]; cbn; lia. Qed.

Lemma msum_new f m t th : m !! t = None → msum f (<[t := th]> m) = f th + msum f m.
Proof. intros Hm. unfold msum. rewrite map_fold_insert_L; [done| |done]. intros. lia. Qed.

Lemma msum_delete f m t th : m !! t = Some th → msum f (delete t m) = msum f m - f th.
Proof.
  intros Hm. rewrite <- (insert_delete_id m t th Hm) at 2.
  rewrite msum_new by apply lookup_delete_eq. lia.
Qed.

Lemma msum_insert f m t th th' :
  m !! t = Some th → msum f (<[t := th']> m) = msum f m - f th + f th'.
Proof.
  intros Hm. rewrite <- insert_delete_eq, msum_new by apply lookup_delete_eq.
  rewrite (msum_delete _ _ _ _ Hm). lia.
Qed.

Lemma msum_nonneg f m : (∀ t th, m !! t = Some th → 0 ≤ f th) → 0 ≤ msum f m.
Proof.
  induction m as [|t th m Hm IH] using map_ind; intros Hf; [done|].
  rewrite msum_new by done. pose proof (Hf t th (lookup_insert_eq _ _ _)).
  assert (0 ≤ msum f m); [|lia]. apply IH. intros t' th' Ht.
  apply (Hf t'). by rewrite lookup_insert_ne by congruence.
Qed.

Lemma msum_ge f m t th :
  (∀ t th, m !! t = Some th → 0 ≤ f th) → m !! t = Some th → f th ≤ msum f m.
Proof.
  intros Hf Ht. pose proof (msum_delete f m t th Ht).
  assert (0 ≤ msum f (delete t m)); [|lia]. apply msum_nonneg.
  intros t' th' [_ H']%lookup_delete_Some. by apply (Hf t').
Qed.

Lemma msum_pos f m : 0 < msum f m → ∃ t th, m !! t = Some th ∧ 0 < f th.
Proof.
  induction m as [|t th m Hm IH] using map_ind; intros Hp; [done|].
  rewrite msum_new in Hp by done. destruct (Z.lt_ge_cases 0 (f th)).
  - exists t, th. by rewrite lookup_insert_eq.
  - destruct IH as (t' & th' & Ht & Hf); [lia|]. exists t', th'.
    rewrite lookup_insert_ne by congruence. done.
Qed.

(** ** What an instruction stands for *)

Definition ind (b : bool) : Z := if b then 1 else 0.

(** A token of lock [l]: after [sema_down] has taken it and before the
    holder is set, and after the holder is cleared and before [sema_up].
    The [sema_down] in front of [ISetHolder] cancels it. *)
Definition tok (l : Z) (i : instr) : Z :=
  match i with
  | ISemaDown (SLock x) | ISemaDownLoop (SLock x) _ => - ind (x =? l)
  | ISetHolder x | ISemaUp (SLock x) => ind (x =? l)
  | _ => 0
  end.

(** A thread [t] that waits for its creator's [thread_unblock]. *)
Definition orp (t : Z) (i : instr) : Z :=
  match i with
  | IUnblock x => ind (x =? t)
  | IInitThread x _ _ => - ind (x =? t)
  | _ => 0
  end.

Definition is_status (st : thread_status) (th : thread) : bool :=
  bool_decide (status th = st).

(** In the loop of [sema_down] on [s]: asleep, or woken and about to test
    the value again. *)
Definition waits_on (s : sid) (c : list instr) : bool :=
  match c with ISemaDownLoop s' _ :: _ => bool_decide (s' = s) | _ => false end.
Definition ploop (s : sid) (i : instr) : Z :=
  match i with ISemaDownLoop s' _ => ind (bool_decide (s' = s)) | _ => 0 end.
Definition pend (s : sid) (th : thread) : Z :=
  csum (ploop s) (code th) - ind (is_status THREAD_BLOCKED th && waits_on s (code th)).

(** Created and never run. *)
Definition fresh_code (c : list instr) : bool :=
  match c with ISetLevel true :: _ => true | _ => false end.
Definition newborn (m : gmap Z thread) (t : Z) : Z :=
  match m !! t with
  | Some th => ind (is_status THREAD_BLOCKED th && fresh_code (code th))
  | None => 0
  end.

(** The idle loop, and what may be in front of it. *)
Definition idle_pre (i : instr) : bool :=
  match i with ISetLevel _ | IIret | ISemaUp _ | ISti => true | _ => false end.
Definition idle_code (c : list instr) : Prop :=
  ∃ pre post, c = pre ++ IIdleLoop :: post ∧ Forall (λ i, idle_pre i = true) pre.

Definition is_call (i : instr) : bool := match i with Call _ => true | _ => false end.

Definition owner_ok (t : Z) (s : sid) (c : list instr) : Prop :=
  match s with
  | SPlain _ => True
  | SLock l => ∃ c', c = ISetHolder l :: c'
  | STimer x | SWaiter x | SIdle x => x = t
  end.

(** The code of thread [t] is made by the functions of Thread.v. *)
Definition good_instr (t : Z) (i : instr) (c : list instr) : Prop :=
  match i with
  | ISemaDown s | ISemaDownLoop s _ => owner_ok t s c
  | ISetIdle => ∃ s c', c = ISemaUp s :: IIdleLoop :: c'
  | IInitThread x _ _ => ∃ c', c = IUnblock x :: c'
  | Call Exit => Forall (λ i, is_call i = true) c
  | _ => True
  end.
(** Only an interrupt may come between waking up in [sema_down] and the
    test. *)
Definition is_intr (i : instr) : bool :=
  match i with ISetLevel _ | IIret => true | _ => false end.
Definition no_loop (c : list instr) : bool :=
  forallb (λ i, match i with ISemaDownLoop _ _ => false | _ => true end) c.
Fixpoint good (t : Z) (c : list instr) : Prop :=
  match c with
  | [] => True
  | i :: c' => good_instr t i c' ∧ (is_intr i = true ∨ no_loop c' = true) ∧ good t c'
  end.

(** Where a blocked thread is found. *)
Definition blocked_ok (W : sid → semaphore) (t : Z) (th : thread) : Prop :=
  match code th with
  | ISemaDownLoop s _ :: _ => t ∈ waiters (W s)
  | ISti :: _ => True
  | c => ∃ f, c = kernel_thread f
  end.

(** ** The invariant *)

Record float := Float { fl_tok : Z → Z; fl_orp : Z → Z; fl_pend : sid → Z }.
Definition no_float : float := Float (λ _, 0) (λ _, 0) (λ _, 0).

(** [run] is false inside the scheduler, when no thread is running. *)
Record inv_f (run : bool) (fl : float) (k : kernel) : Prop := {
  inv_null : threads k !! 0 = None;
  inv_current : ∃ th, threads k !! current k = Some th ∧
    (status th = THREAD_RUNNING ↔ run = true);
  inv_running : ∀ t th, threads k !! t = Some th → status th = THREAD_RUNNING →
    t = current k;
  inv_ready_nodup : NoDup (ready_list k);
  inv_ready : ∀ t, t ∈ ready_list k →
    ∃ th, threads k !! t = Some th ∧ status th = THREAD_READY;
  inv_ready_conv : ∀ t th, threads k !! t = Some th → status th = THREAD_READY →
    t ∈ ready_list k ∨ idle_code (code th);
  inv_wait_nodup : ∀ s, NoDup (waiters (semas k s));
  inv_wait : ∀ s t, t ∈ waiters (semas k s) → ∃ th, threads k !! t = Some th ∧
    status th = THREAD_BLOCKED ∧ waits_on s (code th) = true;
  inv_blocked : ∀ t th, threads k !! t = Some th → status th = THREAD_BLOCKED →
    blocked_ok (semas k) t th;
  inv_dying : ∀ t th, threads k !! t = Some th → status th = THREAD_DYING → code th = [];
  inv_idle : idle_thread k ≠ 0 →
    ∃ th, threads k !! idle_thread k = Some th ∧ idle_code (code th);
  inv_good : ∀ t th, threads k !! t = Some th → good t (code th);
  inv_orphans : ∀ t, msum (λ th, csum (orp t) (code th)) (threads k) + fl_orp fl t =
    newborn (threads k) t;
  inv_value : ∀ s, 0 ≤ value (semas k s);
  inv_tokens : ∀ l, value (semas k (SLock l)) + ind (negb (holder k l =? 0)) +
    msum (λ th, csum (tok l) (code th)) (threads k) + fl_tok fl l = 1;
  inv_pend : ∀ s, waiters (semas k s) ≠ [] →
    value (semas k s) ≤ msum (pend s) (threads k) + fl_pend fl s;
}.
Definition inv (k : kernel) : Prop := inv_f true no_float k.

(** ** Helpers *)

(** The invariant looks at seven components of the state. *)
Lemma inv_ext run fl k k' :
  threads k' = threads k → ready_list k' = ready_list k → current k' = current k →
  idle_thread k' = idle_thread k → semas k' = semas k → holder k' = holder k →
  inv_f run fl k → inv_f run fl k'.
Proof. intros E1 E2 E3 E4 E5 E6 []. split; rewrite ?E1, ?E2, ?E3, ?E4, ?E5, ?E6; done. Qed.

(** [thr H]: split a lookup in an updated thread table. *)
Ltac thr H := apply lookup_insert_Some in H as [[<- <-]|[? H]].

Lemma ind_bound b : 0 ≤ ind b ≤ 1.
Proof. destruct b; cbn; lia. Qed.

Lemma pend_running s th : status th ≠ THREAD_BLOCKED → pend s th = csum (ploop s) (code th).
Proof. intros E. unfold pend, is_status. rewrite bool_decide_eq_false_2 by done. cbn. lia. Qed.

Lemma ploop_nonneg s c : 0 ≤ csum (ploop s) c.
Proof.
  induction c as [|i c IH]; cbn; [done|]. destruct i; cbn; try lia.
  pose proof (ind_bound (bool_decide (s0 = s))). lia.
Qed.

Lemma pend_nonneg s th : 0 ≤ pend s th.
Proof.
  unfold pend. destruct (code th) as [|i c]; cbn; [by rewrite andb_false_r|].
  pose proof (ploop_nonneg s c). destruct i; cbn; rewrite ?andb_false_r; cbn; try lia.
  pose proof (ind_bound (bool_decide (s0 = s))). destruct (is_status _ _); cbn; lia.
Qed.

Lemma no_loop_sum s c : no_loop c = true → csum (ploop s) c = 0.
Proof.
  induction c as [|i c IH]; cbn; [done|]. intros [Hi Hc]%andb_true_iff.
  rewrite IH by done. by destruct i.
Qed.

Lemma no_loop_app c1 c2 : no_loop (c1 ++ c2) = no_loop c1 && no_loop c2.
Proof. apply forallb_app. Qed.

Lemma ploop_in s c : 1 ≤ csum (ploop s) c → ∃ old, ISemaDownLoop s old ∈ c.
Proof.
  induction c as [|i c IH]; cbn; [lia|]. intros H.
  assert (1 ≤ csum (ploop s) c ∨ ∃ old, i = ISemaDownLoop s old) as [Hc|[old ->]].
  - destruct i; cbn in H; try (left; lia). case_bool_decide as E; [subst; eauto|left; cbn in H; lia].
  - destruct (IH Hc) as [old Hold]. exists old. by right.
  - exists old. by left.
Qed.

Lemma ploop_waits s c : waits_on s c = true → 1 ≤ csum (ploop s) c.
Proof.
  destruct c as [|[] c]; cbn; try done. intros ->. pose proof (ploop_nonneg s c). cbn. lia.
Qed.

Lemma newborn_insert m t th x :
  newborn (<[t := th]> m) x =
  if decide (t = x) then ind (is_status THREAD_BLOCKED th && fresh_code (code th))
  else newborn m x.
Proof.
  unfold newborn. destruct (decide (t = x)) as [->|];
    [by rewrite lookup_insert_eq|by rewrite lookup_insert_ne].
Qed.

Lemma newborn_zero m t th : m !! t = Some th →
  status th ≠ THREAD_BLOCKED ∨ fresh_code (code th) = false → newborn m t = 0.
Proof.
  intros Hm H. unfold newborn, is_status. rewrite Hm.
  destruct H as [H|H]; [by rewrite bool_decide_eq_false_2|by rewrite H, andb_false_r].
Qed.

Lemma idle_code_not_fresh f : ¬ idle_code (kernel_thread f).
Proof.
  intros (pre & post & E & Hpre). unfold kernel_thread in E.
  destruct pre as [|i pre]; [done|]. injection E as <- E. apply Forall_cons in Hpre as [_ Hpre].
  destruct f as [cs|s].
  - assert (IIdleLoop ∈ Call <$> cs ++ [Exit]) as Hin.
    { rewrite fmap_app. cbn. rewrite E. rewrite elem_of_app, elem_of_cons. auto. }
    apply list_elem_of_fmap in Hin as (c & Hc & _). done.
  - destruct pre as [|i pre]; [done|]. injection E as <- _.
    by apply Forall_cons in Hpre as [H _].
Qed.

Lemma idle_code_not_waiting s c : idle_code c → waits_on s c = false.
Proof.
  intros ([|i pre] & post & -> & Hpre); [done|]. apply Forall_cons in Hpre as [H _].
  by destruct i.
Qed.

Lemma idle_code_pop i c : idle_code (i :: c) → i ≠ IIdleLoop → idle_code c.
Proof.
  intros ([|j pre] & post & E & Hpre) Hne; [by injection E as -> _|].
  injection E as -> ->. apply Forall_cons in Hpre as [_ Hpre]. by exists pre, post.
Qed.

Lemma idle_code_push c cs :
  Forall (λ i, idle_pre i = true) cs → idle_code c → idle_code (cs ++ c).
Proof.
  intros H (pre & post & -> & Hpre). exists (cs ++ pre), post.
  rewrite app_assoc. split; [done|]. by apply Forall_app.
Qed.

(** An idle thread that is blocked was not just created. *)
Lemma idle_not_newborn W t th : blocked_ok W t th → idle_code (code th) →
  fresh_code (code th) = false.
Proof.
  intros Hb Hi. unfold blocked_ok in Hb.
  destruct (code th) as [|i c]; [done|]. destruct i; try done.
  all: destruct Hb as [f Hf]; rewrite Hf in Hi; by apply idle_code_not_fresh in Hi.
Qed.

(** Code [cs] put in front of [c]. *)
Fixpoint good_pre (t : Z) (cs c : list instr) : Prop :=
  match cs with
  | [] => True
  | i :: cs' => good_instr t i (cs' ++ c) ∧ good_pre t cs' c
  end.

Lemma good_app t cs c :
  good t c → good_pre t cs c → no_loop (cs ++ c) = true → good t (cs ++ c).
Proof.
  intros Hc. induction cs as [|i cs IH]; intros H Hn; [done|]. destruct H as [Hi H].
  cbn in Hn. apply andb_true_iff in Hn as [_ Hn]. split_and!; auto.
Qed.

Lemma good_tokens t c l : good t c → 0 ≤ csum (tok l) c.
Proof.
  assert (∀ n c, (length c ≤ n)%nat → good t c → 0 ≤ csum (tok l) c) as H; [|by eauto].
  clear c. intros n. induction n as [|n IH]; intros [|i c] Hn Hg; cbn in *; try lia.
  destruct Hg as (Hi & _ & Hg). pose proof (IH c ltac:(lia) Hg) as Hc.
  assert (∀ x, i = ISemaDown (SLock x) ∨ (∃ o, i = ISemaDownLoop (SLock x) o) →
    tok l i = - ind (x =? l) ∧ 0 ≤ csum (tok l) c - ind (x =? l)) as Hdown.
  { intros x Hx. assert (∃ c', c = ISetHolder x :: c') as [c' ->].
    { destruct Hx as [-> | [o ->]]; exact Hi. }
    cbn in Hg. pose proof (IH c' ltac:(cbn in Hn; lia) (proj2 (proj2 Hg))).
    split; [by destruct Hx as [-> | [o ->]]|]. cbn. lia. }
  destruct i as [| [] | [] | [] | | | | | | | | | | ];
    try (cbn; pose proof (ind_bound (l0 =? l)); lia); try (cbn; lia).
  - destruct (Hdown l0) as [-> ?]; [by left|lia].
  - destruct (Hdown l0) as [-> ?]; [right; by eexists|lia].
Qed.

Lemma good_orphans t c x : good t c → 0 ≤ csum (orp x) c.
Proof.
  assert (∀ n c, (length c ≤ n)%nat → good t c → 0 ≤ csum (orp x) c) as H; [|by eauto].
  clear c. intros n. induction n as [|n IH]; intros [|i c] Hn Hg; cbn in *; try lia.
  destruct Hg as (Hi & _ & Hg). pose proof (IH c ltac:(lia) Hg) as Hc.
  destruct i; cbn; try lia.
  - destruct Hi as [c' ->]. cbn in Hg, Hn |- *. pose proof (IH c' ltac:(lia) (proj2 (proj2 Hg))). lia.
  - pose proof (ind_bound (t0 =? x)). lia.
Qed.

Lemma calls_sum f c : (∀ c, f (Call c) = 0) → Forall (λ i, is_call i = true) c → csum f c = 0.
Proof.
  intros Hf. induction 1 as [|i c Hi _ IH]; [done|]. destruct i; try done. cbn. by rewrite Hf.
Qed.

(** ** One change at a time *)

(** The running thread's code changes, and anything else of it but its
    status. *)
Lemma recode fl fl' k th th' :
  inv_f true fl k → threads k !! current k = Some th →
  status th' = status th → good (current k) (code th') →
  (current k = idle_thread k → idle_code (code th) → idle_code (code th')) →
  (∀ l, csum (tok l) (code th') + fl_tok fl' l = csum (tok l) (code th) + fl_tok fl l) →
  (∀ t, csum (orp t) (code th') + fl_orp fl' t = csum (orp t) (code th) + fl_orp fl t) →
  (∀ s, fl_pend fl s + csum (ploop s) (code th) ≤
        fl_pend fl' s + csum (ploop s) (code th')) →
  inv_f true fl' (set_threads (<[current k := th']> (threads k)) k).
Proof.
  intros [] Hth Hst Hgood Hidle Htok Horp Hpend.
  destruct inv_current0 as (th0 & E & Hrun). rewrite E in Hth. injection Hth as ->.
  assert (status th = THREAD_RUNNING) as Hr by by apply Hrun.
  split; cbn; try done.
  - rewrite lookup_insert_ne; [done|]. intros E0. by rewrite E0, inv_null0 in E.
  - exists th'. rewrite lookup_insert_eq, Hst. done.
  - intros t x Hx. thr Hx; [done|eauto].
  - intros t Ht. destruct (inv_ready0 t Ht) as (x & Hx & Hs). exists x.
    rewrite lookup_insert_ne by congruence. done.
  - intros t x Hx Hs. thr Hx; [congruence|eauto].
  - intros s t Ht. destruct (inv_wait0 s t Ht) as (x & Hx & Hs & Hw). exists x.
    rewrite lookup_insert_ne by congruence. done.
  - intros t x Hx Hs. thr Hx; [congruence|eauto].
  - intros t x Hx Hs. thr Hx; [congruence|eauto].
  - intros Hi. destruct (inv_idle0 Hi) as (x & Hx & Hc).
    destruct (decide (current k = idle_thread k)) as [Ec|Ec].
    + exists th'. rewrite Ec, lookup_insert_eq. split; [done|]. apply Hidle; [done|].
      rewrite <- Ec, E in Hx. by injection Hx as ->.
    + exists x. by rewrite lookup_insert_ne.
  - intros t x Hx. thr Hx; [done|eauto].
  - intros t. rewrite (msum_insert _ _ _ _ _ E), newborn_insert.
    specialize (inv_orphans0 t). specialize (Horp t).
    destruct (decide (current k = t)) as [<-|].
    + rewrite (newborn_zero _ _ _ E) in inv_orphans0 by (left; congruence).
      unfold is_status. rewrite bool_decide_eq_false_2 by congruence. cbn [andb ind]. lia.
    + lia.
  - intros l. rewrite (msum_insert _ _ _ _ _ E).
    specialize (inv_tokens0 l). specialize (Htok l). lia.
  - intros s Hs. rewrite (msum_insert _ _ _ _ _ E), !pend_running by congruence.
    specialize (inv_pend0 s Hs). specialize (Hpend s). lia.
Qed.

(** A semaphore's value changes. *)
Lemma sema_value run fl fl' k s v :
  inv_f run fl k → 0 ≤ v →
  (∀ l, fl_tok fl' l = fl_tok fl l +
     if decide (s = SLock l) then value (semas k s) - v else 0) →
  (∀ t, fl_orp fl' t = fl_orp fl t) →
  (∀ s', s' ≠ s → fl_pend fl s' ≤ fl_pend fl' s') →
  (waiters (semas k s) = [] ∨ v - value (semas k s) ≤ fl_pend fl' s - fl_pend fl s) →
  inv_f run fl' (set_sema s (Semaphore v (waiters (semas k s))) k).
Proof.
  intros [] Hv Htok Horp Hpend Hs.
  assert (∀ s', waiters (<[s := Semaphore v (waiters (semas k s))]> (semas k) s') =
    waiters (semas k s')) as HW.
  { intros s'. destruct (decide (s = s')) as [->|];
      [by rewrite fn_lookup_insert|by rewrite fn_lookup_insert_ne]. }
  split; cbn; try done.
  - intros s'. by rewrite HW.
  - intros s' t. rewrite HW. apply inv_wait0.
  - intros t th Ht Hst. specialize (inv_blocked0 t th Ht Hst). unfold blocked_ok in *.
    destruct (code th) as [|[] ?]; rewrite ?HW; done.
  - intros t. by rewrite Horp.
  - intros s'. destruct (decide (s = s')) as [<-|];
      [by rewrite fn_lookup_insert|by rewrite fn_lookup_insert_ne].
  - intros l. rewrite Htok. specialize (inv_tokens0 l).
    destruct (decide (s = SLock l)) as [->|].
    + rewrite fn_lookup_insert. cbn. lia.
    + rewrite fn_lookup_insert_ne by done. lia.
  - intros s'. rewrite HW. intros Hw. specialize (inv_pend0 s' Hw).
    destruct (decide (s = s')) as [<-|].
    + rewrite fn_lookup_insert. cbn. destruct Hs as [Hs|Hs]; [done|lia].
    + rewrite fn_lookup_insert_ne by done. specialize (Hpend s' ltac:(done)). lia.
Qed.

(** The holder of a lock changes. *)
Lemma holder_change run fl fl' k l t :
  inv_f run fl k →
  (∀ x, fl_tok fl' x = fl_tok fl x +
     if decide (l = x) then ind (negb (holder k l =? 0)) - ind (negb (t =? 0)) else 0) →
  (∀ t, fl_orp fl' t = fl_orp fl t) → (∀ s, fl_pend fl' s = fl_pend fl s) →
  inv_f run fl' (set_holder l t k).
Proof.
  intros [] Htok Horp Hpend. split; cbn; try done.
  - intros x. by rewrite Horp.
  - intros x. rewrite Htok. specialize (inv_tokens0 x).
    destruct (decide (l = x)) as [->|].
    + rewrite fn_lookup_insert. lia.
    + rewrite fn_lookup_insert_ne by done. lia.
  - intros s Hs. rewrite Hpend. auto.
Qed.

(** A blocked thread becomes ready; [k'] has the wait queues without it. *)
Lemma make_ready run fl fl' k k' t th :
  inv_f run fl k → threads k !! t = Some th → status th = THREAD_BLOCKED →
  threads k' = <[t := with_status THREAD_READY th]> (threads k) →
  ready_list k' = ready_list k ++ [t] → current k' = current k →
  idle_thread k' = idle_thread k → holder k' = holder k →
  (∀ s, value (semas k' s) = value (semas k s)) →
  (∀ s, waiters (semas k s) = waiters (semas k' s) ∨
        waiters (semas k s) = t :: waiters (semas k' s)) →
  (∀ s, t ∉ waiters (semas k' s)) →
  (∀ l, fl_tok fl' l = fl_tok fl l) →
  (∀ x, fl_orp fl' x = fl_orp fl x - if decide (t = x) then newborn (threads k) t else 0) →
  (∀ s, fl_pend fl s ≤ fl_pend fl' s + ind (waits_on s (code th))) →
  inv_f run fl' k'.
Proof.
  intros [] Hth Hst E1 E2 E3 E4 E5 HV HW Ht Htok Horp Hpend.
  assert (∀ s x, x ∈ waiters (semas k' s) → x ∈ waiters (semas k s)) as Hsub.
  { intros s x Hx. destruct (HW s) as [-> | ->]; [done|by right]. }
  assert (∀ s x, x ≠ t → x ∈ waiters (semas k s) → x ∈ waiters (semas k' s)) as Hsub'.
  { intros s x Hne Hx. destruct (HW s) as [E|E]; rewrite E in Hx; [done|].
    by apply elem_of_cons in Hx as [?|?]. }
  split; rewrite ?E1, ?E2, ?E3, ?E4, ?E5.
  - rewrite lookup_insert_ne; [done|]. intros ->. by rewrite inv_null0 in Hth.
  - destruct inv_current0 as (x & Hx & Hr). destruct (decide (t = current k)) as [->|].
    + rewrite Hth in Hx. injection Hx as <-. exists (with_status THREAD_READY th).
      rewrite lookup_insert_eq. split; [done|]. cbn. rewrite <- Hr, Hst. done.
    + exists x. by rewrite lookup_insert_ne.
  - intros x y Hx Hs. thr Hx; [done|eauto].
  - apply NoDup_app. split_and!; [done| |apply NoDup_singleton].
    intros x Hx ->%list_elem_of_singleton. destruct (inv_ready0 t Hx) as (y & Hy & Hs).
    congruence.
  - intros x [Hx| ->%list_elem_of_singleton]%elem_of_app.
    + destruct (inv_ready0 x Hx) as (y & Hy & Hs). exists y.
      rewrite lookup_insert_ne by congruence. done.
    + exists (with_status THREAD_READY th). by rewrite lookup_insert_eq.
  - intros x y Hx Hs. rewrite elem_of_app, list_elem_of_singleton. thr Hx; [by auto|].
    destruct (inv_ready_conv0 x y Hx Hs); auto.
  - intros s. specialize (inv_wait_nodup0 s). destruct (HW s) as [E|E]; rewrite E in *; [done|].
    by apply NoDup_cons in inv_wait_nodup0 as [_ ?].
  - intros s x Hx. assert (x ≠ t) by (intros ->; by apply (Ht s)).
    rewrite lookup_insert_ne by done. by apply inv_wait0, Hsub.
  - intros x y Hx Hs. thr Hx; [done|]. specialize (inv_blocked0 x y Hx Hs).
    unfold blocked_ok in *. destruct (code y) as [|[] ?]; auto.
  - intros x y Hx Hs. thr Hx; [done|eauto].
  - intros Hi. destruct (inv_idle0 Hi) as (x & Hx & Hc). destruct (decide (t = idle_thread k)) as [->|].
    + rewrite lookup_insert_eq. eexists. split; [done|]. cbn. congruence.
    + exists x. by rewrite lookup_insert_ne.
  - intros x y Hx. thr Hx; cbn; eauto.
  - intros x. rewrite (msum_insert _ _ _ _ _ Hth), newborn_insert, Horp.
    specialize (inv_orphans0 x). cbn [code with_status]. case_decide as E.
    + rewrite <- E in *. unfold is_status.
      rewrite bool_decide_eq_false_2 by done. cbn [andb ind]. lia.
    + lia.
  - intros s. by rewrite HV.
  - intros l. rewrite (msum_insert _ _ _ _ _ Hth), HV, Htok. cbn [code with_status].
    specialize (inv_tokens0 l). lia.
  - intros s Hs. rewrite (msum_insert _ _ _ _ _ Hth), HV.
    assert (waiters (semas k s) ≠ []) as Hne.
    { destruct (HW s) as [E|E]; rewrite E; done. }
    specialize (inv_pend0 s Hne). specialize (Hpend s).
    rewrite (pend_running s (with_status _ _)) by done. unfold pend at 2. unfold is_status.
    rewrite bool_decide_eq_true_2 by done. cbn in *. lia.
Qed.

(** The running thread stops running: it yields, blocks or dies. *)
Lemma deschedule fl fl' k k' th th' :
  inv_f true fl k → threads k !! current k = Some th → status th' ≠ THREAD_RUNNING →
  threads k' = <[current k := th']> (threads k) → current k' = current k →
  idle_thread k' = idle_thread k → holder k' = holder k →
  (∀ s, value (semas k' s) = value (semas k s)) →
  (ready_list k' = ready_list k ∨
     ready_list k' = ready_list k ++ [current k] ∧ status th' = THREAD_READY) →
  (status th' = THREAD_READY → current k ∈ ready_list k' ∨ idle_code (code th')) →
  (∀ s, waiters (semas k' s) = waiters (semas k s) ∨
     waiters (semas k' s) = waiters (semas k s) ++ [current k] ∧
     status th' = THREAD_BLOCKED ∧ waits_on s (code th') = true ∧ value (semas k s) = 0) →
  (status th' = THREAD_BLOCKED →
     blocked_ok (semas k') (current k) th' ∧ fresh_code (code th') = false) →
  (status th' = THREAD_DYING → code th' = []) →
  (current k = idle_thread k → idle_code (code th) → idle_code (code th')) →
  good (current k) (code th') →
  (∀ l, csum (tok l) (code th') + fl_tok fl' l = csum (tok l) (code th) + fl_tok fl l) →
  (∀ t, csum (orp t) (code th') + fl_orp fl' t = csum (orp t) (code th) + fl_orp fl t) →
  (∀ s, 0 ≤ fl_pend fl' s ∧
     (value (semas k s) = 0 ∨
      fl_pend fl s + csum (ploop s) (code th) ≤ fl_pend fl' s + pend s th')) →
  inv_f false fl' k'.
Proof.
  intros [] Hth Hst E1 E2 E3 E4 HV HR HRc HW HB HD Hidle Hgood Htok Horp Hpend.
  destruct inv_current0 as (th0 & E & Hrun). rewrite E in Hth. injection Hth as ->.
  assert (status th = THREAD_RUNNING) as Hr by by apply Hrun.
  assert (∀ s x, x ∈ waiters (semas k s) → x ∈ waiters (semas k' s)) as Hsub.
  { intros s x Hx. destruct (HW s) as [-> |[-> _]]; [done|]. apply elem_of_app. by left. }
  assert (∀ s, current k ∉ waiters (semas k s)) as Hcw.
  { intros s Hs. destruct (inv_wait0 _ _ Hs) as (x & Hx & Hxs & _). congruence. }
  assert (current k ∉ ready_list k) as Hcr.
  { intros Hs. destruct (inv_ready0 _ Hs) as (x & Hx & Hxs). congruence. }
  split; rewrite ?E1, ?E2, ?E3, ?E4.
  - rewrite lookup_insert_ne; [done|]. intros E0. by rewrite E0, inv_null0 in E.
  - exists th'. rewrite lookup_insert_eq. done.
  - intros t x Hx Hs. thr Hx; [done|eauto].
  - destruct HR as [-> |[-> _]]; [done|]. apply NoDup_app. split_and!; [done| |].
    + by intros x Hx ->%list_elem_of_singleton.
    + apply NoDup_singleton.
  - intros t Ht. assert (t ∈ ready_list k ∨ t = current k ∧ status th' = THREAD_READY) as [Hr'|[-> Hr']].
    { destruct HR as [HR|[HR Hs]]; rewrite HR in Ht; [by left|].
      apply elem_of_app in Ht as [?| ->%list_elem_of_singleton]; auto. }
    + destruct (inv_ready0 t Hr') as (x & Hx & Hs). exists x.
      rewrite lookup_insert_ne by congruence. done.
    + exists th'. by rewrite lookup_insert_eq.
  - intros t x Hx Hs. thr Hx; [by apply HRc|]. destruct (inv_ready_conv0 t x Hx Hs); [|by auto].
    left. destruct HR as [-> |[-> _]]; [done|]. apply elem_of_app. by left.
  - intros s. destruct (HW s) as [-> |[-> _]]; [done|]. apply NoDup_app. split_and!; [done| |].
    + by intros x Hx ->%list_elem_of_singleton; apply (Hcw s).
    + apply NoDup_singleton.
  - intros s t Ht.
    assert (t ∈ waiters (semas k s) ∨ t = current k ∧ status th' = THREAD_BLOCKED ∧
      waits_on s (code th') = true) as [Hw|(-> & Hb & Hwt)].
    { destruct (HW s) as [E'|(E' & Hb & Hwt & _)]; rewrite E' in Ht; [by left|].
      apply elem_of_app in Ht as [?| ->%list_elem_of_singleton]; auto. }
    + destruct (inv_wait0 s t Hw) as (x & Hx & Hs & Hwt). exists x.
      rewrite lookup_insert_ne by congruence. done.
    + exists th'. by rewrite lookup_insert_eq.
  - intros t x Hx Hs. thr Hx; [by apply HB|]. specialize (inv_blocked0 t x Hx Hs).
    unfold blocked_ok in *. destruct (code x) as [|[] ?]; auto.
  - intros t x Hx Hs. thr Hx; [by apply HD|eauto].
  - intros Hi. destruct (inv_idle0 Hi) as (x & Hx & Hc).
    destruct (decide (current k = idle_thread k)) as [Ec|Ec].
    + exists th'. rewrite Ec, lookup_insert_eq. split; [done|]. apply Hidle; [done|].
      rewrite <- Ec, E in Hx. by injection Hx as ->.
    + exists x. by rewrite lookup_insert_ne.
  - intros t x Hx. thr Hx; [done|eauto].
  - intros t. rewrite (msum_insert _ _ _ _ _ E), newborn_insert.
    specialize (inv_orphans0 t). specialize (Horp t).
    destruct (decide (current k = t)) as [<-|]; [|lia].
    rewrite (newborn_zero _ _ _ E) in inv_orphans0 by (left; congruence).
    replace (is_status THREAD_BLOCKED th' && fresh_code (code th')) with false; [cbn [ind]; lia|].
    unfold is_status. case_bool_decide as Hb; [|done]. by rewrite (proj2 (HB Hb)).
  - intros s. by rewrite HV.
  - intros l. rewrite (msum_insert _ _ _ _ _ E), HV.
    specialize (inv_tokens0 l). specialize (Htok l). lia.
  - intros s Hs. rewrite HV. destruct (Hpend s) as [H0 Hp].
    assert (0 ≤ msum (pend s) (<[current k := th']> (threads k))).
    { apply msum_nonneg. intros. apply pend_nonneg. }
    destruct Hp as [Hp|Hp]; [lia|].
    assert (waiters (semas k' s) = waiters (semas k s) ∨ value (semas k s) = 0) as [HWs|]; [|..|lia].
    { destruct (HW s) as [?|(_ & _ & _ & ?)]; auto. }
    rewrite HWs in Hs. specialize (inv_pend0 s Hs).
    rewrite (msum_insert _ _ _ _ _ E), (pend_running s th) by congruence. lia.
Qed.

(** ** The scheduler *)

(** The thread that [next_thread_to_run] picks starts to run. *)
Lemma start_running fl k k' next th :
  inv_f false fl k → threads k !! next = Some th →
  (ready_list k = next :: ready_list k' ∨
     ready_list k = [] ∧ ready_list k' = [] ∧ next = idle_thread k) →
  threads k' = <[next := with_status THREAD_RUNNING th]> (threads k) →
  current k' = next → idle_thread k' = idle_thread k → semas k' = semas k →
  holder k' = holder k → inv_f true fl k'.
Proof.
  intros [] Hth HR E1 E2 E3 E4 E5.
  assert (next ≠ 0) as H0 by (intros ->; congruence).
  assert (status th = THREAD_READY ∨ idle_code (code th)) as Hst.
  { destruct HR as [HR|(_ & _ & HR)].
    - left. destruct (inv_ready0 next) as (x & Hx & Hs); [rewrite HR; by left|congruence].
    - right. destruct (inv_idle0 ltac:(congruence)) as (x & Hx & Hc). congruence. }
  assert (∀ s, next ∉ waiters (semas k s)) as Hnw.
  { intros s Hs. destruct (inv_wait0 s next Hs) as (x & Hx & Hb & Hw).
    rewrite Hth in Hx. injection Hx as <-. destruct Hst as [Hst|Hst]; [congruence|].
    by rewrite (idle_code_not_waiting s _ Hst) in Hw. }
  assert (newborn (threads k) next = 0) as Hnb.
  { apply (newborn_zero _ _ _ Hth). destruct Hst as [Hst|Hst]; [left; congruence|].
    destruct (decide (status th = THREAD_BLOCKED)); [|by left]. right. eauto using idle_not_newborn. }
  assert (∀ s, pend s (with_status THREAD_RUNNING th) = pend s th) as Hp.
  { intros s. rewrite (pend_running s (with_status _ _)) by done.
    destruct Hst as [Hst|Hst]; [by rewrite pend_running by congruence|].
    unfold pend. rewrite (idle_code_not_waiting s _ Hst), andb_false_r. cbn. lia. }
  assert (∀ t, t ∈ ready_list k' → t ≠ next ∧ t ∈ ready_list k) as Hrd.
  { intros t Ht. destruct HR as [HR|(_ & HR & _)]; [|by rewrite HR in Ht; apply not_elem_of_nil in Ht].
    rewrite HR in inv_ready_nodup0 |- *. apply NoDup_cons in inv_ready_nodup0 as [Hn _].
    split; [congruence|by right]. }
  split; rewrite ?E1, ?E2, ?E3, ?E4, ?E5; try done.
  - by rewrite lookup_insert_ne.
  - eexists. by rewrite lookup_insert_eq.
  - intros t x Hx Hs. thr Hx; [done|]. exfalso.
    destruct inv_current0 as (y & Hy & Hyr). pose proof (inv_running0 t x Hx Hs) as ->.
    rewrite Hy in Hx. injection Hx as <-. by apply Hyr in Hs.
  - destruct HR as [HR|(_ & HR & _)]; [|rewrite HR; constructor].
    rewrite HR in inv_ready_nodup0. by apply NoDup_cons in inv_ready_nodup0 as [_ ?].
  - intros t Ht. destruct (Hrd t Ht) as [Hne Hr].
    rewrite lookup_insert_ne by done. by apply inv_ready0.
  - intros t x Hx Hs. thr Hx; [done|]. destruct (inv_ready_conv0 t x Hx Hs) as [Hr|]; [|by auto].
    left. destruct HR as [HR|(HR & _)]; rewrite HR in Hr; [|by apply not_elem_of_nil in Hr].
    by apply elem_of_cons in Hr as [?|?].
  - intros s t Ht. assert (t ≠ next) by (intros ->; by apply (Hnw s)).
    rewrite lookup_insert_ne by done. by apply inv_wait0.
  - intros t x Hx Hs. thr Hx; [done|eauto].
  - intros t x Hx Hs. thr Hx; [done|eauto].
  - intros Hi. destruct (inv_idle0 Hi) as (x & Hx & Hc). destruct (decide (next = idle_thread k)) as [E|].
    + rewrite E, lookup_insert_eq. eexists. split; [done|]. cbn. congruence.
    + exists x. by rewrite lookup_insert_ne.
  - intros t x Hx. thr Hx; cbn; eauto.
  - intros t. rewrite (msum_insert _ _ _ _ _ Hth), newborn_insert. cbn [code with_status].
    specialize (inv_orphans0 t). case_decide as E; [|lia]. rewrite <- E in *.
    unfold is_status. rewrite bool_decide_eq_false_2 by done. cbn [andb ind]. lia.
  - intros l. rewrite (msum_insert _ _ _ _ _ Hth). cbn [code with_status].
    specialize (inv_tokens0 l). lia.
  - intros s Hs. rewrite (msum_insert _ _ _ _ _ Hth), Hp. specialize (inv_pend0 s Hs). lia.
Qed.

(** A dying thread that is not running is destroyed. *)
Lemma reap fl k k' t th :
  inv_f true fl k → threads k !! t = Some th → status th = THREAD_DYING → t ≠ current k →
  threads k' = delete t (threads k) → ready_list k' = ready_list k →
  current k' = current k → idle_thread k' = idle_thread k → semas k' = semas k →
  holder k' = holder k → inv_f true fl k'.
Proof.
  intros [] Hth Hst Hne E1 E2 E3 E4 E5 E6.
  pose proof (inv_dying0 t th Hth Hst) as Hcode.
  assert (∀ x y, delete t (threads k) !! x = Some y → threads k !! x = Some y) as Hdel.
  { intros x y Hx. by apply lookup_delete_Some in Hx as [_ ?]. }
  split; rewrite ?E1, ?E2, ?E3, ?E4, ?E5, ?E6; eauto.
  - destruct (decide (t = 0)) as [->|]; [by rewrite lookup_delete_eq|].
    by rewrite lookup_delete_ne.
  - destruct inv_current0 as (x & Hx & Hr). exists x. by rewrite lookup_delete_ne.
  - intros x Hx. destruct (inv_ready0 x Hx) as (y & Hy & Hs). exists y.
    rewrite lookup_delete_ne by congruence. done.
  - intros s x Hx. destruct (inv_wait0 s x Hx) as (y & Hy & Hs & Hw). exists y.
    rewrite lookup_delete_ne by congruence. done.
  - intros Hi. destruct (inv_idle0 Hi) as (x & Hx & Hc). exists x.
    rewrite lookup_delete_ne; [done|]. intros ->. rewrite Hth in Hx. injection Hx as <-.
    rewrite Hcode in Hc. by destruct Hc as ([|] & ? & ? & _).
  - intros x. rewrite (msum_delete _ _ _ _ Hth), Hcode. cbn [csum].
    specialize (inv_orphans0 x). rewrite Z.sub_0_r, inv_orphans0. unfold newborn.
    destruct (decide (t = x)) as [<-|]; [|by rewrite lookup_delete_ne].
    rewrite lookup_delete_eq, Hth. unfold is_status. by rewrite bool_decide_eq_false_2 by congruence.
  - intros l. rewrite (msum_delete _ _ _ _ Hth), Hcode. cbn [csum].
    specialize (inv_tokens0 l). lia.
  - intros s Hs. rewrite (msum_delete _ _ _ _ Hth). rewrite (pend_running s th), Hcode by congruence.
    cbn. specialize (inv_pend0 s Hs). lia.
Qed.

Lemma schedule_inv k k' : inv_f false no_float k → schedule k = Ok k' → inv k'.
Proof.
  intros Hinv Hs. unfold schedule in Hs.
  destruct (next_thread_to_run k) as [next k1] eqn:En. inv_res.
  assert (threads k1 = threads k ∧ idle_thread k1 = idle_thread k ∧ semas k1 = semas k ∧
    holder k1 = holder k ∧ initial_thread k1 = initial_thread k ∧
    (ready_list k = next :: ready_list k1 ∨
     ready_list k = [] ∧ ready_list k1 = [] ∧ next = idle_thread k)) as (E1 & E2 & E3 & E4 & E5 & HR).
  { unfold next_thread_to_run in En. destruct (ready_list k) eqn:Er; injection En as <- <-; cbn;
      rewrite ?Er; auto 10. }
  unfold thread_schedule_tail, upd in Hs. inv_res. cbn in *.
  match goal with H : threads k1 !! next = Some ?t |- _ => rename H into Hth, t into th end.
  assert (inv (set_threads (<[next := with_status THREAD_RUNNING th]> (threads k1))
    (set_current next k1))) as Hrun.
  { eapply (start_running no_float k _ next th); cbn; try done; congruence. }
  destruct (<[next := _]> (threads k1) !! (if current k =? next then 0 else current k)) as [p|] eqn:Ep.
  2: { injection Hs as <-. by eapply inv_ext; [..|exact Hrun]. }
  destruct (_ && _) eqn:Eb in Hs.
  2: { injection Hs as <-. by eapply inv_ext; [..|exact Hrun]. }
  inv_res. apply andb_true_iff in Eb as [[_ Hd%bool_decide_eq_true]%andb_true_iff _].
  eapply reap; [exact Hrun|exact Ep|done| |done..].
  cbn. intros E. rewrite E, Z.eqb_refl in *. done.
Qed.

(** ** The operations *)

(** What the instruction taken from the code stands for. *)
Definition float_of (i : instr) : float :=
  Float (λ l, tok l i) (λ t, orp t i) (λ s, ploop s i).

(** The state after the instruction [i] is taken: [th] is the running
    thread, with the rest of its code. *)
Record popped (i : instr) (k : kernel) (th : thread) : Prop := {
  pp_inv : inv_f true (float_of i) k;
  pp_th : threads k !! current k = Some th;
  pp_run : status th = THREAD_RUNNING;
  pp_instr : good_instr (current k) i (code th);
  pp_loop : is_intr i = false → no_loop (code th) = true;
  pp_idle : idle_pre i = false → current k ≠ idle_thread k;
}.

Lemma inv_current_run fl k th : inv_f true fl k → threads k !! current k = Some th →
  status th = THREAD_RUNNING.
Proof.
  intros [] Hth. destruct inv_current0 as (x & Hx & Hr).
  rewrite Hx in Hth. injection Hth as <-. by apply Hr.
Qed.

Lemma pop_inv k th i c :
  inv k → threads k !! current k = Some th → code th = i :: c → i ≠ IIdleLoop →
  popped i (set_threads (<[current k := with_code c th]> (threads k)) k) (with_code c th).
Proof.
  intros Hinv Hth Hc Hi. pose proof (inv_current_run _ _ _ Hinv Hth) as Hr.
  pose proof (inv_good _ _ _ Hinv _ _ Hth) as Hg. rewrite Hc in Hg. destruct Hg as (Hgi & Hl & Hg).
  split; cbn; rewrite ?lookup_insert_eq; try done.
  - apply (recode no_float _ k th); try done; cbn; rewrite Hc.
    + intros _ Hid. by eapply idle_code_pop.
    + intros l. cbn. lia.
    + intros t. cbn. lia.
    + intros s. cbn. lia.
  - intros Hi'. destruct Hl as [Hl|Hl]; [congruence|done].
  - intros Hp Ec. destruct (inv_idle _ _ _ Hinv) as (x & Hx & Hid).
    + rewrite <- Ec. intros E0. rewrite E0 in Hth. by rewrite (inv_null _ _ _ Hinv) in Hth.
    + rewrite <- Ec, Hth in Hx. injection Hx as <-. rewrite Hc in Hid.
      destruct Hid as ([|j pre] & post & E & Hpre); injection E as -> _; [done|].
      apply Forall_cons in Hpre as [H _]. congruence.
Qed.

(** The running thread gets more to do. *)
Lemma push_inv fl k k' th cs :
  inv_f true fl k → threads k !! current k = Some th → push_code cs k = Ok k' →
  good (current k) (cs ++ code th) →
  (current k = idle_thread k → Forall (λ i, idle_pre i = true) cs) →
  (∀ l, csum (tok l) cs = fl_tok fl l) → (∀ t, csum (orp t) cs = fl_orp fl t) →
  (∀ s, fl_pend fl s ≤ csum (ploop s) cs) →
  inv k'.
Proof.
  intros Hinv Hth Hp Hg Hid Htok Horp Hpend. unfold push_code, upd in Hp.
  rewrite Hth in Hp. cbn in Hp. injection Hp as <-.
  apply (recode fl _ k th); try done; cbn.
  - intros Hc Hi. apply idle_code_push; auto.
  - intros l. rewrite csum_app, Htok. lia.
  - intros t. rewrite csum_app, Horp. lia.
  - intros s. rewrite csum_app. specialize (Hpend s). lia.
Qed.

(** The sum of tokens is at least what one thread's code has. *)
Lemma tokens_ge run fl k t th l : inv_f run fl k → threads k !! t = Some th →
  csum (tok l) (code th) ≤ msum (λ th, csum (tok l) (code th)) (threads k).
Proof.
  intros [] Ht. apply (msum_ge (λ th, csum (tok l) (code th)) _ t th); [|done].
  eauto using good_tokens.
Qed.

(** Floats of the operations on semaphore [s]: [d] tokens if it is a lock's. *)
Definition sema_float (s : sid) (d : Z) (fl : float) : Prop :=
  (∀ l, fl_tok fl l = if decide (s = SLock l) then d else 0) ∧
  (∀ t, fl_orp fl t = 0) ∧
  (∀ s', 0 ≤ fl_pend fl s' ≤ if decide (s = s') then 1 else 0).

(** [sema_down_loop] takes the semaphore. *)
Lemma sema_take fl k th s :
  inv_f true fl k → threads k !! current k = Some th → sema_float s (-1) fl →
  owner_ok (current k) s (code th) → value (semas k s) ≠ 0 →
  inv (set_sema s (Semaphore (u32 (value (semas k s) - 1)) (waiters (semas k s))) k).
Proof.
  intros Hinv Hth (Htok & Horp & Hpend) Hown Hv.
  pose proof (inv_value _ _ _ Hinv s) as H0.
  assert (0 ≤ u32 (value (semas k s) - 1) ≤ value (semas k s) - 1) as Hle by c_lia.
  eapply (sema_value true fl); [done|lia| |..].
  - intros l. rewrite Htok. case_decide as E; [|done]. subst s. destruct Hown as [c' Hc].
    pose proof (tokens_ge _ _ _ _ _ l Hinv Hth) as Hge. rewrite Hc in Hge.
    pose proof (inv_good _ _ _ Hinv _ _ Hth) as Hg. rewrite Hc in Hg. destruct Hg as (_ & _ & Hg).
    pose proof (good_tokens _ _ l Hg). pose proof (inv_tokens _ _ _ Hinv l) as Ht.
    rewrite Htok, decide_True in Ht by done. cbn in Hge. rewrite Z.eqb_refl in Hge. cbn in Hge.
    pose proof (ind_bound (negb (holder k l =? 0))).
    rewrite u32_small by (c_unfold; lia). cbn. lia.
  - intros t. by rewrite Horp.
  - intros s' Hne. pose proof (Hpend s'). rewrite decide_False in * by done. cbn. lia.
  - right. pose proof (Hpend s). rewrite decide_True in * by done. cbn. lia.
Qed.

Lemma thread_current_inv k t : thread_current k = Ok t → t = current k.
Proof. unfold thread_current. intros H. by inv_res. Qed.

Lemma upd_inv t f k k' : upd t f k = Ok k' →
  ∃ th, threads k !! t = Some th ∧ k' = set_threads (<[t := f th]> (threads k)) k.
Proof. unfold upd. intros H. inv_res. eauto. Qed.

(** [kernel_ops]: take apart the calls that read or update the running
    thread, and drop what is known of it twice. *)
Ltac kernel_ops :=
  repeat match goal with
  | H : thread_current _ = Ok _ |- _ => apply thread_current_inv in H; cbn in H; subst
  | H : push_code _ _ = Ok _ |- _ => unfold push_code in H
  | H : upd _ _ _ = Ok _ |- _ => apply upd_inv in H as (? & ? & ->); cbn in *
  | H : <[?t := _]> _ !! ?t = Some _ |- _ => rewrite lookup_insert_eq in H; injection H as <-
  | H1 : threads ?k !! ?t = Some ?a, H2 : threads ?k !! ?t = Some ?b |- _ =>
      rewrite H1 in H2; injection H2 as <-
  end.

Lemma thread_block_inv k k' : thread_block k = Ok k' →
  ∃ th, threads k !! current k = Some th ∧
    schedule (set_threads (<[current k := with_status THREAD_BLOCKED th]> (threads k)) k) = Ok k'.
Proof. unfold thread_block. intros H. inv_res. kernel_ops. eauto. Qed.

(** [sema_down_loop] puts the running thread to sleep. *)
Lemma sema_sleep fl k k1 k' th s old :
  inv_f true fl k → threads k !! current k = Some th → sema_float s (-1) fl →
  owner_ok (current k) s (code th) → no_loop (code th) = true →
  current k ≠ idle_thread k → value (semas k s) = 0 →
  push_code [ISemaDownLoop s old]
    (set_sema s (Semaphore (value (semas k s)) (waiters (semas k s) ++ [current k])) k) = Ok k1 →
  thread_block k1 = Ok k' → inv k'.
Proof.
  intros Hinv Hth (Htok & Horp & Hpend) Hown Hloop Hidle Hv Hpush Hb.
  apply thread_block_inv in Hb as (th1 & Hth1 & Hb). kernel_ops.
  eapply schedule_inv; [|exact Hb]. clear Hb.
  eapply (deschedule fl no_float k _ th
    (with_status THREAD_BLOCKED (with_code (ISemaDownLoop s old :: code th) th)));
    try done; cbn.
  - by rewrite insert_insert_eq.
  - intros s'. destruct (decide (s = s')) as [<-|];
      [by rewrite fn_lookup_insert|by rewrite fn_lookup_insert_ne].
  - by left.
  - intros s'. destruct (decide (s = s')) as [<-|]; [right|left; by rewrite fn_lookup_insert_ne].
    rewrite fn_lookup_insert. by rewrite bool_decide_eq_true_2.
  - intros _. unfold blocked_ok. cbn. rewrite fn_lookup_insert. cbn.
    rewrite elem_of_app, list_elem_of_singleton. auto.
  - split_and!; [done|by right|]. by apply (inv_good _ _ _ Hinv).
  - intros l. rewrite Htok. destruct s; cbn; rewrite ?decide_False by done; try lia.
    case_decide as E; [injection E as ->; rewrite Z.eqb_refl; cbn; lia|].
    destruct (Z.eqb_spec l0 l); [congruence|]. cbn. lia.
  - intros t. rewrite Horp. lia.
  - intros s'. split; [done|]. destruct (decide (s = s')) as [<-|Hne]; [by left|]. right.
    pose proof (Hpend s'). rewrite decide_False in * by done.
    rewrite (no_loop_sum s' (code th)) by done.
    pose proof (pend_nonneg s' (with_status THREAD_BLOCKED
      (with_code (ISemaDownLoop s old :: code th) th))). lia.
Qed.

Lemma intr_set_level_inv run fl b k k' :
  inv_f run fl k → intr_set_level b k = Ok k' → inv_f run fl k'.
Proof.
  unfold intr_set_level, intr_enable, intr_disable. intros Hinv H.
  destruct b; inv_res; by eapply inv_ext; [..|exact Hinv].
Qed.

Lemma intr_off_inv run fl k : inv_f run fl k → inv_f run fl (intr_disable k).
Proof. intros Hinv. by eapply inv_ext; [..|exact Hinv]. Qed.

Lemma sema_down_loop_inv fl k k' th s old :
  inv_f true fl k → threads k !! current k = Some th → sema_float s (-1) fl →
  owner_ok (current k) s (code th) → no_loop (code th) = true →
  current k ≠ idle_thread k → sema_down_loop s old k = Ok k' → inv k'.
Proof.
  intros Hinv Hth Hfl Hown Hl Hid H. unfold sema_down_loop in H.
  destruct (Z.eqb_spec (value (semas k s)) 0) as [Hv|Hv].
  - inv_res. apply thread_current_inv in Hres as ->. by eapply sema_sleep.
  - eapply intr_set_level_inv; [|exact H]. by eapply sema_take.
Qed.

Lemma sema_down_inv fl k k' th s :
  inv_f true fl k → threads k !! current k = Some th → sema_float s (-1) fl →
  owner_ok (current k) s (code th) → no_loop (code th) = true →
  current k ≠ idle_thread k → sema_down s k = Ok k' → inv k'.
Proof.
  intros Hinv Hth Hfl Hown Hl Hid H. unfold sema_down in H. inv_res.
  by eapply (sema_down_loop_inv fl (intr_disable k)); [apply intr_off_inv|..|exact H].
Qed.

(** [thread_unblock] by itself. *)
Lemma thread_unblock_inv t k k' : thread_unblock t k = Ok k' →
  ∃ th, threads k !! t = Some th ∧ status th = THREAD_BLOCKED ∧
    threads k' = <[t := with_status THREAD_READY th]> (threads k) ∧
    ready_list k' = ready_list k ++ [t] ∧ current k' = current k ∧
    idle_thread k' = idle_thread k ∧ holder k' = holder k ∧ semas k' = semas k.
Proof.
  unfold thread_unblock. intros H. inv_res. kernel_ops.
  match goal with H : bool_decide _ = true |- _ => apply bool_decide_eq_true in H as Hst end.
  eexists. split; [done|]. split; [done|].
  unfold intr_set_level, intr_enable, intr_disable in H. destruct (intr_get_level k); inv_res; done.
Qed.

(** [sema_up] increments the value. *)
Lemma sema_give run fl fl' k s :
  inv_f run fl k → (∀ l, fl_tok fl l = if decide (s = SLock l) then 1 else 0) →
  (∀ t, fl_orp fl t = 0) → (∀ s', s' ≠ s → fl_pend fl s' ≤ fl_pend fl' s') →
  (waiters (semas k s) = [] ∨ fl_pend fl s + 1 ≤ fl_pend fl' s) →
  (∀ l, fl_tok fl' l = 0) → (∀ t, fl_orp fl' t = 0) →
  inv_f run fl' (set_sema s (Semaphore (u32 (value (semas k s) + 1)) (waiters (semas k s))) k).
Proof.
  intros Hinv Htok Horp Hpend Hs Htok' Horp'. pose proof (inv_value _ _ _ Hinv s) as H0.
  assert (0 ≤ u32 (value (semas k s) + 1) ≤ value (semas k s) + 1) as Hle by c_lia.
  eapply (sema_value run fl); [done|lia| |..].
  - intros l. rewrite Htok, Htok'. case_decide as E; [|done]. subst s.
    pose proof (inv_tokens _ _ _ Hinv l) as Ht. rewrite Htok, decide_True in Ht by done.
    pose proof (ind_bound (negb (holder k l =? 0))).
    assert (0 ≤ msum (λ th, csum (tok l) (code th)) (threads k)).
    { apply msum_nonneg. intros. eapply good_tokens, inv_good; done. }
    rewrite u32_small by (c_unfold; lia). lia.
  - intros t. by rewrite Horp.
  - done.
  - destruct Hs as [Hs|Hs]; [by left|right; lia].
Qed.

Definition pend_float (s : sid) (n : Z) : float :=
  Float (λ l, if decide (s = SLock l) then 1 else 0) (λ _, 0)
    (λ s', if decide (s = s') then n else 0).

Lemma sema_up_inv fl k k' s :
  inv_f true fl k → (∀ l, fl_tok fl l = if decide (s = SLock l) then 1 else 0) →
  (∀ t, fl_orp fl t = 0) → (∀ s', fl_pend fl s' ≤ 0) → sema_up s k = Ok k' →
  inv k' ∧ current k' = current k ∧ idle_thread k' = idle_thread k.
Proof.
  intros Hinv Htok Horp Hpend H. unfold sema_up in H. inv_res.
  rename a into k1, Hres into H1.
  assert (inv (set_sema s (Semaphore (u32 (value (semas k1 s) + 1)) (waiters (semas k1 s))) k1) ∧
    current k1 = current k ∧ idle_thread k1 = idle_thread k) as (Hk1 & Ec & Ei).
  { cbn in H1. destruct (waiters (semas k s)) as [|t ws] eqn:Ew.
    - injection H1 as <-. split; [|done].
      eapply (sema_give true fl no_float); try done;
        [by apply intr_off_inv|by left].
    - apply thread_unblock_inv in H1 as (th & Hth & Hst & E1 & E2 & E3 & E4 & E5 & E6).
      cbn in *. split; [|by rewrite E3, E4].
      assert (waits_on s (code th) = true ∧ t ∉ ws) as [Hw Hnin].
      { destruct (inv_wait _ _ _ Hinv s t) as (x & Hx & _ & Hw); [rewrite Ew; by left|].
        pose proof (inv_wait_nodup _ _ _ Hinv s) as Hnd. rewrite Ew in Hnd.
        apply NoDup_cons in Hnd as [? _]. split; [congruence|done]. }
      eapply (sema_give true (pend_float s (-1)) no_float); try done.
      + eapply (make_ready true fl); try done; rewrite ?E6; cbn.
        * intros s'. destruct (decide (s = s')) as [<-|];
            [by rewrite fn_lookup_insert|by rewrite fn_lookup_insert_ne].
        * intros s'. destruct (decide (s = s')) as [<-|];
            [right; by rewrite fn_lookup_insert|left; by rewrite fn_lookup_insert_ne].
        * intros s'. destruct (decide (s = s')) as [<-|]; [by rewrite fn_lookup_insert|].
          rewrite fn_lookup_insert_ne by done. intros Hin.
          destruct (inv_wait _ _ _ Hinv s' t Hin) as (x & Hx & _ & Hw').
          rewrite Hth in Hx. injection Hx as <-. destruct (code th) as [|[] ?]; try done.
          cbn in Hw, Hw'. apply bool_decide_eq_true in Hw, Hw'. congruence.
        * intros x. rewrite Horp. case_decide as E; [|done]. subst x.
          rewrite (newborn_zero _ _ _ Hth); [done|right].
          by destruct (code th) as [|[] ?].
        * intros s'. specialize (Hpend s'). case_decide as E; [subst s'; rewrite Hw; cbn; lia|].
          pose proof (ind_bound (waits_on s' (code th))). lia.
      + intros s' Hne. cbn. by rewrite decide_False.
      + right. cbn. by rewrite decide_True. }
  unfold intr_set_level, intr_enable, intr_disable in H.
  destruct (intr_get_level k); inv_res; (split; [by eapply inv_ext; [..|exact Hk1]|by cbn]).
Qed.

(** Changes of the running thread that leave its code alone. *)
Lemma recode_same fl k th f :
  inv_f true fl k → threads k !! current k = Some th →
  status (f th) = status th → code (f th) = code th →
  inv_f true fl (set_threads (<[current k := f th]> (threads k)) k).
Proof.
  intros Hinv Hth Hst Hc.
  apply (recode fl _ k th); rewrite ?Hc; try done. by apply (inv_good _ _ _ Hinv).
Qed.

(** Instructions that stand for nothing. *)
Definition neutral (fl : float) : Prop :=
  (∀ l, fl_tok fl l = 0) ∧ (∀ t, fl_orp fl t = 0) ∧ (∀ s, fl_pend fl s = 0).
Lemma neutral_inv run fl k : neutral fl → inv_f run fl k → inv_f run no_float k.
Proof.
  intros (H1 & H2 & H3) []. split; cbn; try done.
  - intros t. rewrite <- inv_orphans0, H2. done.
  - intros l. rewrite <- (inv_tokens0 l), H1. done.
  - intros s Hs. specialize (inv_pend0 s Hs). by rewrite H3 in inv_pend0.
Qed.
Lemma neutral_call c : neutral (float_of (Call c)).
Proof. by split_and!. Qed.
#[local] Hint Resolve neutral_call : core.

(** The code a call leaves to be done. *)
Lemma push_neutral i k k' th cs :
  popped i k th → neutral (float_of i) → idle_pre i = false →
  push_code cs k = Ok k' →
  good_pre (current k) cs (code th) →
  no_loop cs = true → (∀ l, csum (tok l) cs = 0) → (∀ t, csum (orp t) cs = 0) →
  inv k'.
Proof.
  intros [] Hn Hpre Hp Hg Hl Htok Horp. pose proof Hn as (H1 & H2 & H3).
  assert (no_loop (code th) = true) by (apply pp_loop0; by destruct i).
  eapply (push_inv (float_of i)); [done|done|exact Hp|..].
  - apply good_app; [by apply (inv_good _ _ _ pp_inv0)|done|].
    rewrite no_loop_app. by apply andb_true_iff.
  - intros Hc. by destruct (pp_idle0 Hpre).
  - intros l. by rewrite H1.
  - intros t. by rewrite H2.
  - intros s. rewrite H3. apply ploop_nonneg.
Qed.

(** [good_cs]: the side conditions of a constant list of instructions. *)
Ltac good_cs :=
  try done; try (cbn; split_and!; solve [done | eauto]);
  intros; cbn [csum tok orp]; try lia.

(** A semaphore nobody can wait for is initialised. *)
Lemma sema_init_inv run fl k s v :
  inv_f run fl k → 0 ≤ v → (∀ l, s ≠ SLock l) → waiters (semas k s) = [] →
  inv_f run fl (sema_init s v k).
Proof.
  intros Hinv Hv Hs Hw. unfold sema_init.
  assert (Semaphore v [] = Semaphore v (waiters (semas k s))) as -> by by rewrite Hw.
  eapply (sema_value run fl); try done; [|by left].
  intros l. rewrite decide_False by done. lia.
Qed.

Lemma own_sema_no_waiters fl k s :
  inv_f true fl k → s = SWaiter (current k) ∨ s = SIdle (current k) →
  waiters (semas k s) = [].
Proof.
  intros Hinv Hs. destruct (waiters (semas k s)) as [|t ws] eqn:Ew; [done|].
  destruct (inv_wait _ _ _ Hinv s t) as (th & Hth & Hst & Hw); [rewrite Ew; by left|].
  pose proof (inv_good _ _ _ Hinv t th Hth) as Hg.
  destruct (code th) as [|[] c]; try done. apply bool_decide_eq_true in Hw as ->.
  destruct Hg as [Hg _]. assert (t = current k) as -> by (destruct Hs as [-> | ->]; by cbn in Hg).
  pose proof (inv_current_run _ _ _ Hinv Hth). congruence.
Qed.

(** ** Locks *)

Lemma lock_acquire_inv k k' th l :
  popped (Call (LockAcquire l)) k th → lock_acquire l k = Ok k' → inv k'.
Proof.
  intros Hp H. unfold lock_acquire in H. inv_res.
  eapply push_neutral; [done|done|done|exact H|good_cs..].
Qed.

Lemma lock_release_inv k k' th l :
  popped (Call (LockRelease l)) k th → lock_release l k = Ok k' → inv k'.
Proof.
  intros Hp H. unfold lock_release, lock_held_by_current_thread in H. inv_res.
  apply thread_current_inv in Hres1 as ->. apply Z.eqb_eq in Hres0.
  pose proof Hp as [Hinv Hth Hr Hg Hl Hid].
  assert (holder k l ≠ 0) as Hh.
  { rewrite Hres0. intros E. rewrite E in Hth. by rewrite (inv_null _ _ _ Hinv) in Hth. }
  eapply (push_inv (Float (λ x, if decide (l = x) then 1 else 0) (λ _, 0) (λ _, 0))
    (set_holder l 0 k)); [|done|exact H|..]; try done.
  - eapply holder_change; [exact Hinv|..]; try done. intros x. cbn. case_decide as E; [|done].
    by rewrite (proj2 (Z.eqb_neq _ _)) by done.
  - apply good_app; [by apply (inv_good _ _ _ Hinv)|done|by apply Hl].
  - intros _. by repeat constructor.
  - intros x. cbn [csum tok fl_tok]. destruct (Z.eqb_spec l x) as [->|].
    + by rewrite decide_True.
    + by rewrite decide_False.
Qed.

Lemma lock_set_holder_inv k k' th l :
  popped (ISetHolder l) k th → lock_set_holder l k = Ok k' → inv k'.
Proof.
  intros Hp H. unfold lock_set_holder in H. inv_res. apply thread_current_inv in Hres as ->.
  pose proof Hp as [Hinv Hth _ _ _ _].
  assert (current k ≠ 0) as Hc.
  { intros E. rewrite E in Hth. by rewrite (inv_null _ _ _ Hinv) in Hth. }
  assert (ind (negb (holder k l =? 0)) = 0) as Hh.
  { pose proof (inv_tokens _ _ _ Hinv l) as Ht. cbn in Ht. rewrite Z.eqb_refl in Ht. cbn in Ht.
    pose proof (inv_value _ _ _ Hinv (SLock l)). pose proof (ind_bound (negb (holder k l =? 0))).
    assert (0 ≤ msum (λ th, csum (tok l) (code th)) (threads k)); [|lia].
    apply msum_nonneg. intros. eapply good_tokens, inv_good; done. }
  eapply holder_change; [exact Hinv|..]; try done. intros x. cbn.
  case_decide as E; [subst x; rewrite Hh, Z.eqb_refl|];
    rewrite ?(proj2 (Z.eqb_neq _ _)) by done; done.
Qed.

Lemma sema_try_down_inv fl k k' s b :
  inv_f true fl k → neutral fl → sema_try_down s k = Ok (k', b) →
  inv_f true (Float (λ l, if decide (s = SLock l) then ind b else 0) (λ _, 0) (λ _, 0)) k' ∧
  current k' = current k ∧ threads k' = threads k ∧ idle_thread k' = idle_thread k.
Proof.
  intros Hinv (H1 & H2 & H3) H. unfold sema_try_down in H.
  pose proof (inv_value _ _ _ Hinv s) as H0. cbn in H.
  destruct (Z.ltb_spec 0 (value (semas k s))) as [Hv|Hv].
  - inv_res. assert (0 ≤ u32 (value (semas k s) - 1) ≤ value (semas k s) - 1) as Hle by c_lia.
    split; [eapply intr_set_level_inv; [|exact Hres]|].
    + eapply (sema_value true fl (Float _ _ _) (intr_disable k)); try done;
        [by apply intr_off_inv|lia|..]; cbn.
      * intros l. rewrite H1. case_decide as E; [|done]. subst s.
        pose proof (inv_tokens _ _ _ Hinv l) as Ht. rewrite H1 in Ht.
        pose proof (ind_bound (negb (holder k l =? 0))).
        assert (0 ≤ msum (λ th, csum (tok l) (code th)) (threads k)).
        { apply msum_nonneg. intros. eapply good_tokens, inv_good; done. }
        cbn. rewrite u32_small by (c_unfold; lia). lia.
      * intros s' _. by rewrite H3.
      * right. rewrite H3. lia.
    + unfold intr_set_level, intr_enable, intr_disable in Hres.
      destruct (intr_get_level k); by inv_res.
  - inv_res. split.
    + eapply intr_set_level_inv; [|exact Hres]. apply intr_off_inv.
      destruct (neutral_inv true fl k) as []; [by split_and!|done|]. split; cbn; try done.
      intros l. case_decide; auto.
    + unfold intr_set_level, intr_enable, intr_disable in Hres.
      destruct (intr_get_level k); by inv_res.
Qed.

Lemma lock_try_acquire_inv k k' th l :
  popped (Call (LockTryAcquire l)) k th → lock_try_acquire l k = Ok k' → inv k'.
Proof.
  intros Hp H. pose proof Hp as [Hinv Hth Hr _ Hl Hid]. unfold lock_try_acquire in H. inv_res.
  destruct a1 as [k1 b].
  destruct (sema_try_down_inv _ _ _ _ _ Hinv (neutral_call _) Hres1) as (Hinv1 & Ec & Et & Ei).
  inv_res. apply upd_inv in Hres2 as (th1 & Hth1 & ->). rewrite Et, Ec, Hth in Hth1.
  injection Hth1 as <-. rewrite <- Ec, <- Et in Hth.
  pose proof (recode_same _ _ _ (with_ret (Z.b2z b)) Hinv1 Hth eq_refl eq_refl) as Hinv2.
  destruct b.
  - eapply (push_inv _ _ _ (with_ret 1 th)); [exact Hinv2|cbn; apply lookup_insert_eq|exact H|..];
      cbn; try done.
    + split_and!; [done|right; by apply Hl|]. by apply (inv_good _ _ _ Hinv1).
    + rewrite Ec, Ei. intros E. by destruct (Hid eq_refl).
    + intros x. destruct (Z.eqb_spec l x) as [->|]; [by rewrite decide_True|].
      rewrite decide_False; [done|congruence].
  - injection H as <-. eapply (neutral_inv true); [|exact Hinv2].
    split_and!; try done. intros x. cbn. by case_decide.
Qed.

(** ** Condition variables *)

Lemma cond_wait_inv k k' th c l :
  popped (Call (CondWait c l)) k th → cond_wait c l k = Ok k' → inv k'.
Proof.
  intros Hp H. pose proof Hp as [Hinv Hth Hr Hg Hl Hid]. unfold cond_wait in H. inv_res.
  eapply (push_neutral (Call (CondWait c l)) _ _ th); [|done|done|exact H|good_cs..].
  split; cbn; try done. eapply inv_ext; [..|eapply (sema_init_inv true _ k)]; try done.
  eapply own_sema_no_waiters; [done|by left].
Qed.

Lemma cond_signal_inv k k' th c l :
  popped (Call (CondSignal c l)) k th → cond_signal c l k = Ok k' → inv k'.
Proof.
  intros Hp H. pose proof Hp as [Hinv Hth Hr Hg Hl Hid]. unfold cond_signal in H. inv_res.
  destruct (cond_waiters k c) as [|w ws].
  - injection H as <-. by eapply neutral_inv.
  - eapply (push_neutral (Call (CondSignal c l)) _ _ th); [|done|done|exact H|good_cs..].
    split; cbn; try done. by eapply inv_ext; [..|exact Hinv].
Qed.

Lemma cond_broadcast_inv k k' th c l :
  popped (Call (CondBroadcast c l)) k th → cond_broadcast c l k = Ok k' → inv k'.
Proof.
  intros Hp H. unfold cond_broadcast in H. destruct (cond_waiters k c) as [|w ws].
  - injection H as <-. eapply neutral_inv; [by apply neutral_call|apply Hp].
  - eapply push_neutral; [done|done|done|exact H|good_cs..].
Qed.

(** ** Yielding and exiting *)

Lemma thread_yield_inv fl k k' th :
  inv_f true fl k → neutral fl → threads k !! current k = Some th →
  thread_yield k = Ok k' → inv k'.
Proof.
  intros Hinv Hn Hth H. apply (neutral_inv true) in Hinv; [|done]. unfold thread_yield in H.
  inv_res. apply thread_current_inv in Hres as ->. rename a1 into k1, a2 into k2.
  set (c := ISetLevel (intr_get_level k) :: code th).
  assert (inv_f false no_float k2); [|by eapply schedule_inv]. clear H.
  revert Hres1 Hres2. cbn [intr_disable set_intr idle_thread].
  destruct (Z.eqb_spec (current k) (idle_thread k)) as [Ei|Ei]; cbn [negb];
    intros Hres1 Hres2; kernel_ops.
  all: eapply (deschedule no_float no_float k _ th (with_status THREAD_READY (with_code c th)));
    try done; cbn; try (by rewrite insert_insert_eq); try (by left).
  all: assert (idle_code (code th) → idle_code c) as Hci
    by (intros; apply (idle_code_push (code th) [ISetLevel _]); [by repeat constructor|done]).
  all: try (by intros _; apply Hci).
  all: try (split_and!; [done|by left|by apply (inv_good _ _ _ Hinv)]).
  all: try (intros s; split; [done|right]; rewrite pend_running by done; cbn; lia).
  - intros _. right. destruct (inv_idle _ _ _ Hinv) as (x & Hx & Hc).
    + rewrite <- Ei. intros E. rewrite E, (inv_null _ _ _ Hinv) in Hth. done.
    + rewrite <- Ei, Hth in Hx. injection Hx as <-. by apply Hci.
  - by right.
  - intros _. left. apply elem_of_app. right. by apply list_elem_of_singleton.
Qed.

Lemma thread_exit_inv k k' th :
  popped (Call Exit) k th → thread_exit k = Ok k' → inv k'.
Proof.
  intros [Hinv Hth Hr Hg Hl Hid] H. unfold thread_exit in H. inv_res.
  apply thread_current_inv in Hres0 as ->. cbn in Hg. kernel_ops.
  eapply schedule_inv; [|exact H]. clear H.
  eapply (deschedule (float_of (Call Exit)) no_float k _ th
    (with_code [] (with_status THREAD_DYING th))); try done; cbn; try (by left).
  - intros Ei. by destruct (Hid eq_refl).
  - intros l. by rewrite (calls_sum (tok l)).
  - intros t. by rewrite (calls_sum (orp t)).
  - intros s. split; [done|right]. rewrite (calls_sum (ploop s)) by done. apply pend_nonneg.
Qed.

(** ** Creating threads *)

Lemma thread_create_inv i k k' th page pri f :
  popped i k th → neutral (float_of i) → idle_pre i = false →
  thread_create page pri f k = Ok k' → inv k'.
Proof.
  intros Hp Hn Hi H. pose proof Hp as [Hinv Hth _ _ _ _]. unfold thread_create in H.
  destruct (page =? 0).
  - apply upd_inv in H as (x & Hx & ->). apply (neutral_inv true) in Hinv; [|done].
    rewrite Hth in Hx. injection Hx as <-. by apply recode_same.
  - eapply push_neutral; [done|done|done|exact H|..]; good_cs.
Qed.

Lemma thread_start_inv k k' th page :
  popped (Call (ThreadStart page)) k th → thread_start page k = Ok k' → inv k'.
Proof.
  intros Hp H. pose proof Hp as [Hinv Hth Hr Hg Hl Hid]. unfold thread_start in H. inv_res.
  rename a into k1. set (s := SIdle (current k)) in *.
  assert (inv_f true (float_of (Call (ThreadStart page))) (sema_init s 0 k)) as Hinv0.
  { eapply (sema_init_inv true _ k); try done. eapply own_sema_no_waiters; [done|by right]. }
  pose proof Hres as Hpush. apply upd_inv in Hpush as (x & Hx & ->). cbn in Hx.
  rewrite Hth in Hx. injection Hx as <-.
  eapply (thread_create_inv (Call (ThreadStart page)) _ _
    (with_code ([ISetLevel true; ISemaDown s] ++ code th) th)); [|done|done|exact H].
  split; cbn; rewrite ?lookup_insert_eq; try done.
  - eapply neutral_inv in Hinv0; [|by apply neutral_call].
    change (float_of (Call (ThreadStart page))) with no_float.
    eapply (push_inv no_float (sema_init s 0 k)); [done|done|exact Hres|..]; try done.
    + apply good_app; [by apply (inv_good _ _ _ Hinv)|done|by apply Hl].
    + intros E. by destruct (Hid eq_refl).
Qed.

Lemma calls_good t c : Forall (λ i, is_call i = true) c → good t c.
Proof.
  induction 1 as [|i c Hi Hc IH]; [done|].
  destruct i as [cl| | | | | | | | | | | | |]; try done.
  assert (no_loop c = true) by (apply forallb_forall; intros x Hx%list_elem_of_In;
    rewrite Forall_forall in Hc; specialize (Hc x Hx); by destruct x).
  split_and!; [by destruct cl|by right|done].
Qed.

Lemma calls_Forall cs : Forall (λ i, is_call i = true) (Call <$> cs).
Proof. apply Forall_fmap, Forall_true. done. Qed.
#[local] Hint Resolve calls_Forall : core.

Lemma kernel_thread_good t f : good t (kernel_thread f).
Proof.
  unfold kernel_thread. destruct f as [cs|s].
  - split_and!; [done|by left|]. apply calls_good, Forall_app. split; [done|].
    by repeat constructor.
  - cbn. split_and!; eauto.
Qed.

Lemma kernel_thread_sums f :
  (∀ l, csum (tok l) (kernel_thread f) = 0) ∧
  (∀ t, csum (orp t) (kernel_thread f) = 0) ∧ (∀ s, csum (ploop s) (kernel_thread f) = 0).
Proof.
  unfold kernel_thread. destruct f as [cs|s].
  - assert (Forall (λ i, is_call i = true) ((Call <$> cs) ++ [Call Exit])) as Hc.
    { apply Forall_app. split; [done|]. by repeat constructor. }
    cbn. split_and!; intros; rewrite calls_sum; done.
  - done.
Qed.

Lemma init_thread_inv k k' th t pri f :
  popped (IInitThread t pri f) k th → init_thread t pri f k = Ok k' → inv k'.
Proof.
  intros [Hinv Hth Hr Hg Hl Hid] H. unfold init_thread in H. inv_res.
  destruct (threads k !! t) eqn:Et; [done|]. injection H as <-.
  apply negb_true_iff, Z.eqb_neq in Hres.
  set (nt := Thread (ret a1) THREAD_BLOCKED pri 0 0 (kernel_thread f) 0).
  destruct (kernel_thread_sums f) as (S1 & S2 & S3).
  assert (∀ s, t ∉ waiters (semas k s)) as Hnw.
  { intros s Hs. destruct (inv_wait _ _ _ Hinv s t Hs) as (x & Hx & _). congruence. }
  assert (waiters (semas k (STimer t)) = []) as Hw.
  { destruct (waiters (semas k (STimer t))) as [|x ws] eqn:Ew; [done|].
    destruct (inv_wait _ _ _ Hinv (STimer t) x) as (y & Hy & _ & Hwt); [rewrite Ew; by left|].
    pose proof (inv_good _ _ _ Hinv x y Hy) as Hgy. destruct (code y) as [|[] ?]; try done.
    apply bool_decide_eq_true in Hwt as ->. destruct Hgy as [Hgy _]. cbn in Hgy. subst x.
    congruence. }
  eapply inv_ext; [..|eapply (sema_init_inv true _ (set_threads (<[t := nt]> (threads k)) k)
    (STimer t) 0)]; try done.
  destruct Hinv. split; cbn; try done.
  - by rewrite lookup_insert_ne.
  - exists th. rewrite lookup_insert_ne by congruence. split; [done|]. by rewrite Hr.
  - intros x y Hx Hs. thr Hx; [done|eauto].
  - intros x Hx. destruct (inv_ready0 x Hx) as (y & Hy & Hs). exists y.
    by rewrite lookup_insert_ne by congruence.
  - intros x y Hx Hs. thr Hx; [done|eauto].
  - intros s x Hx. destruct (inv_wait0 s x Hx) as (y & Hy & Hs). exists y.
    by rewrite lookup_insert_ne by congruence.
  - intros x y Hx Hs. thr Hx; [by exists f|eauto].
  - intros x y Hx Hs. thr Hx; [done|eauto].
  - intros Hi. destruct (inv_idle0 Hi) as (x & Hx & Hc). exists x.
    by rewrite lookup_insert_ne by congruence.
  - intros x y Hx. thr Hx; [apply kernel_thread_good|eauto].
  - intros x. rewrite msum_new, newborn_insert by done. cbn [code nt]. rewrite S2.
    specialize (inv_orphans0 x). cbn in inv_orphans0.
    destruct (decide (t = x)) as [<-|].
    + rewrite Z.eqb_refl in inv_orphans0. unfold newborn in inv_orphans0.
      rewrite Et in inv_orphans0. unfold is_status.
      rewrite bool_decide_eq_true_2 by done. cbn in *. lia.
    + rewrite (proj2 (Z.eqb_neq t x)) in inv_orphans0 by done. cbn in *. lia.
  - intros l. rewrite msum_new by done. cbn [code nt]. rewrite S1.
    specialize (inv_tokens0 l). cbn in inv_tokens0. lia.
  - intros s Hs. rewrite msum_new by done. unfold pend at 1. cbn [code nt]. rewrite S3.
    specialize (inv_pend0 s Hs). cbn in *. rewrite andb_false_r. cbn. lia.
Qed.

Lemma unblock_inv k k' th t :
  popped (IUnblock t) k th → thread_unblock t k = Ok k' → inv k'.
Proof.
  intros [Hinv Hth Hr Hg Hl Hid] H.
  apply thread_unblock_inv in H as (x & Hx & Hst & E1 & E2 & E3 & E4 & E5 & E6).
  assert (0 ≤ msum (λ th, csum (orp t) (code th)) (threads k)) as H0.
  { apply msum_nonneg. intros. eapply good_orphans, inv_good; done. }
  pose proof (inv_orphans _ _ _ Hinv t) as Ho. cbn in Ho. rewrite Z.eqb_refl in Ho. cbn in Ho.
  assert (newborn (threads k) t ≤ 1) as H1.
  { unfold newborn. rewrite Hx. apply ind_bound. }
  assert (fresh_code (code x) = true) as Hfresh.
  { destruct (fresh_code (code x)) eqn:Ef; [done|].
    rewrite (newborn_zero _ _ _ Hx) in Ho by by right. lia. }
  eapply (make_ready true (float_of (IUnblock t)) no_float k _ t x); try done; rewrite ?E6; try done.
  - intros s. by left.
  - intros s Hs. destruct (inv_wait _ _ _ Hinv s t Hs) as (y & Hy & _ & Hw).
    rewrite Hx in Hy. injection Hy as <-. by destruct (code x) as [|[] ?].
  - intros y. cbn. destruct (Z.eqb_spec t y) as [<-|]; [rewrite decide_True by done; cbn; lia|].
    by rewrite decide_False.
  - intros s. cbn. apply ind_bound.
Qed.

Lemma set_idle_inv k k' th :
  popped ISetIdle k th → exec ISetIdle k = Ok k' → inv k'.
Proof.
  intros [Hinv Hth Hr Hg Hl Hid] H. cbn in H. inv_res. apply thread_current_inv in Hres as ->.
  apply (neutral_inv true) in Hinv; [|done]. destruct Hinv. split; cbn; try done.
  intros _. exists th. split; [done|]. cbn in Hg. destruct Hg as (s & c & ->).
  exists [ISemaUp s], c. split; [done|]. by repeat constructor.
Qed.

(** The idle thread goes to sleep without being on any list. *)
Lemma idle_loop_inv k k1 k' th c :
  inv k → threads k !! current k = Some th → code th = IIdleLoop :: c →
  upd (current k) (with_code c) k = Ok k1 → exec IIdleLoop k1 = Ok k' → inv k'.
Proof.
  intros Hinv Hth Hc Hk1 H. apply upd_inv in Hk1 as (x & Hx & ->). rewrite Hth in Hx.
  injection Hx as <-. cbn in H. inv_res. kernel_ops. cbn in *.
  apply thread_block_inv in H as (y & Hy & H). cbn in *. kernel_ops.
  eapply schedule_inv; [|exact H]. clear H.
  pose proof (inv_good _ _ _ Hinv _ _ Hth) as Hg. rewrite Hc in Hg. destruct Hg as (_ & Hl & Hg).
  assert (no_loop c = true) as Hl' by by destruct Hl.
  eapply (deschedule no_float no_float k _ th
    (with_status THREAD_BLOCKED (with_code (ISti :: IIdleLoop :: c) th))); try done; cbn;
    try (by left); try (by rewrite !insert_insert_eq).
  - intros _ _. exists [ISti], c. split; [done|]. by repeat constructor.
  - intros l. rewrite Hc. done.
  - intros t. rewrite Hc. done.
  - intros s. split; [done|right]. rewrite Hc. cbn. rewrite (no_loop_sum s c) by done.
    apply pend_nonneg.
Qed.

(** ** The timer *)

Lemma thread_tick_inv run fl k k' : inv_f run fl k → thread_tick k = Ok k' →
  inv_f run fl k' ∧ current k' = current k ∧ threads k' = threads k.
Proof.
  intros Hinv H. unfold thread_tick in H. inv_res.
  destruct (if a =? idle_thread k then _ else _) as [[it kt] ut].
  unfold intr_yield_on_return in H. destruct (TIME_SLICE <=? _); inv_res;
    (split; [by eapply inv_ext; [..|exact Hinv]|done]).
Qed.

Lemma timer_wake_inv l k k' : inv k → timer_wake l k = Ok k' →
  inv k' ∧ current k' = current k.
Proof.
  revert k. induction l as [|t l IH]; intros k Hinv H; cbn in H.
  { injection H as <-. split; [|done]. by eapply inv_ext; [..|exact Hinv]. }
  inv_res. destruct (ticks k <? wakeup_time a).
  { injection H as <-. split; [|done]. by eapply inv_ext; [..|exact Hinv]. }
  inv_res. destruct (sema_up_inv no_float k a0 (STimer t)) as (Hinv1 & Ec & _); try done.
  destruct (IH (set_wait_list l a0)) as [Hi Hc]; [by eapply inv_ext; [..|exact Hinv1]|done|].
  split; [done|]. by rewrite Hc.
Qed.

Lemma intr_handler_inv k k' : inv k → intr_handler k = Ok k' → inv k'.
Proof.
  intros Hinv H. unfold intr_handler, timer_interrupt in H. inv_res.
  rename a into k1, a2 into k2.
  assert (inv k1) as Hk1.
  { match goal with H : thread_tick _ = Ok _ |- _ =>
      eapply thread_tick_inv in H as (Hi & _); [|by eapply inv_ext; [..|exact Hinv]] end.
    by eapply timer_wake_inv. }
  destruct (inv_current _ _ _ Hk1) as (th & Hth & _).
  assert (inv k2) as Hk2.
  { eapply (push_inv no_float (set_external false (yield_on_return k1) k1));
      [by eapply inv_ext; [..|exact Hk1]|exact Hth|done|..]; try done.
    - split_and!; [done|by left|]. by apply (inv_good _ _ _ Hk1).
    - intros _. by repeat constructor. }
  destruct (yield_on_return k1); [|by injection H as <-].
  destruct (inv_current _ _ _ Hk2) as (th2 & Hth2 & _). by eapply thread_yield_inv.
Qed.

(** ** Every step preserves the invariant *)

Lemma exec_call_inv c k k' th :
  popped (Call c) k th → exec_call c k = Ok k' → inv k'.
Proof.
  intros Hp H. pose proof Hp as [Hinv Hth Hr Hg Hl Hid].
  destruct c; cbn in H; try (by eauto using lock_acquire_inv, lock_release_inv,
    lock_try_acquire_inv, cond_wait_inv, cond_signal_inv, cond_broadcast_inv, thread_exit_inv,
    thread_start_inv).
  - eapply sema_down_inv; [exact Hinv|exact Hth|..|exact H]; auto. split_and!; try done.
    intros. cbn. case_decide; lia.
  - by eapply (sema_up_inv _ _ _ (SPlain s)) in H as [? _].
  - inv_res. destruct a as [k1 b].
    destruct (sema_try_down_inv _ _ _ _ _ Hinv (neutral_call _) Hres) as (Hinv1 & Ec & Et & Ei).
    apply upd_inv in H as (x & Hx & ->). eapply (neutral_inv true); [|by apply recode_same].
    done.
  - by eapply (thread_yield_inv _ _ _ th).
  - unfold timer_sleep in H. inv_res. apply thread_current_inv in Hres as ->.
    apply upd_inv in Hres0 as (x & Hx & ->). rewrite Hth in Hx. injection Hx as <-.
    eapply (push_neutral (Call (TimerSleep ticks)) _ _ (with_wakeup _ th));
      [|done|done|exact H|good_cs..].
    split; cbn; rewrite ?lookup_insert_eq; try done. by apply recode_same.
  - unfold thread_set_priority in H. inv_res. apply thread_current_inv in Hres as ->.
    apply upd_inv in H as (x & Hx & ->). eapply (neutral_inv true); [|by apply recode_same].
    by apply neutral_call.
  - by eapply thread_create_inv.
Qed.

Lemma sema_float_of i s : i = ISemaDown s ∨ (∃ old, i = ISemaDownLoop s old) →
  sema_float s (-1) (float_of i).
Proof.
  intros Hi. split_and!.
  - intros l. assert (tok l i = tok l (ISemaDown s)) as E by by destruct Hi as [-> |[? ->]].
    cbn [fl_tok float_of]. rewrite E. destruct s; cbn; try (by rewrite decide_False).
    destruct (Z.eqb_spec l0 l) as [->|]; [by rewrite decide_True|].
    rewrite decide_False; [done|congruence].
  - intros t. by destruct Hi as [-> |[? ->]].
  - intros s'. destruct Hi as [-> |[? ->]]; cbn; [case_decide; lia|].
    case_bool_decide; [rewrite decide_True by done|rewrite decide_False by done]; cbn; lia.
Qed.

Lemma exec_inv i k k' th : popped i k th → i ≠ IIdleLoop → exec i k = Ok k' → inv k'.
Proof.
  intros Hp Hi H. pose proof Hp as [Hinv Hth Hr Hg Hl Hid].
  destruct i; try done; cbn [exec] in H; try (by eauto using exec_call_inv, lock_set_holder_inv,
    init_thread_inv, unblock_inv, set_idle_inv).
  - eapply sema_down_inv; [exact Hinv|exact Hth|..|exact H]; auto using sema_float_of.
  - eapply sema_down_loop_inv; [exact Hinv|exact Hth|..|exact H]; eauto using sema_float_of.
  - eapply (sema_up_inv _ _ _ s) in H as [? _]; try done. intros l. cbn.
    destruct s; cbn; try (by rewrite decide_False).
    destruct (Z.eqb_spec l0 l) as [->|]; [by rewrite decide_True|].
    rewrite decide_False; [done|congruence].
  - eapply neutral_inv; [|by eapply intr_set_level_inv]. done.
  - injection H as <-. eapply neutral_inv; [|by eapply inv_ext; [..|exact Hinv]]. done.
  - unfold allocate_tid in H. inv_res. apply upd_inv in Hres as (x & Hx & ->).
    pose proof (recode_same _ _ _ (with_ret (next_tid k)) Hinv Hx eq_refl eq_refl) as Hk.
    eapply neutral_inv; [|by eapply inv_ext; [..|exact Hk]]. done.
  - unfold timer_insert, intr_enable in H. inv_res.
    eapply neutral_inv; [|by eapply inv_ext; [..|exact Hinv]]. done.
  - unfold intr_enable in H. inv_res.
    eapply neutral_inv; [|by eapply inv_ext; [..|exact Hinv]]. done.
Qed.

Lemma step_inv k k' : inv k → step k k' → inv k'.
Proof.
  intros Hinv [H|Hlevel H]; [|by eapply intr_handler_inv].
  unfold thread_step, running_thread in H. inv_res. rename a into th.
  destruct (code th) as [|i c] eqn:Hc; [done|]. inv_res.
  assert (i = IIdleLoop ∨ i ≠ IIdleLoop) as [->|Hi] by (destruct i; auto);
    [by eapply idle_loop_inv|].
  apply upd_inv in Hres0 as (x & Hx & ->). rewrite Hres in Hx. injection Hx as <-.
  by eapply exec_inv; [eapply pop_inv|..].
Qed.

Lemma thread_init_inv main init fs :
  main ≠ 0 → (∀ n, 0 ≤ init n) → inv (thread_init main init fs).
Proof.
  intros Hm Hi. assert (∀ s, waiters (semas (thread_init main init fs) s) = []) as Hw
    by by intros [].
  assert (∀ f, (∀ c, f (Call c) = 0) →
    msum (λ th, csum f (code th)) (threads (thread_init main init fs)) = 0) as Hsum.
  { intros f Hf. cbn. rewrite <- insert_empty, msum_new by done. cbn. by rewrite calls_sum. }
  assert (∀ t th, threads (thread_init main init fs) !! t = Some th →
    t = main ∧ status th = THREAD_RUNNING ∧ code th = Call <$> fs) as Hth.
  { intros t th H. cbn in H. by apply lookup_singleton_Some in H as [<- <-]. }
  split.
  - cbn. by rewrite lookup_singleton_ne.
  - eexists. cbn. rewrite lookup_singleton_eq. done.
  - intros t th H _. by apply Hth in H as [-> _].
  - constructor.
  - intros t Ht. by apply not_elem_of_nil in Ht.
  - intros t th H Hs. apply Hth in H as (_ & H & _). congruence.
  - intros s. rewrite Hw. constructor.
  - intros s t. rewrite Hw. by intros Ht%not_elem_of_nil.
  - intros t th H Hs. apply Hth in H as (_ & H & _). congruence.
  - intros t th H Hs. apply Hth in H as (_ & H & _). congruence.
  - done.
  - intros t th H. apply Hth in H as (_ & _ & ->). by apply calls_good.
  - intros t. rewrite Hsum by done. cbn. unfold newborn. cbn.
    destruct (decide (main = t)) as [<-|];
      [by rewrite lookup_singleton_eq|by rewrite lookup_singleton_ne].
  - intros []; cbn; try done; lia.
  - intros l. rewrite Hsum by done. done.
  - intros s Hs. by rewrite Hw in Hs.
Qed.

Lemma reachable_inv main init fs k :
  main ≠ 0 → (∀ n, 0 ≤ init n) → reachable main init fs k → inv k.
Proof. intros Hm Hi. induction 1; eauto using thread_init_inv, step_inv. Qed.
