(* ===== verification/ThreadProps.v ===== *)
(** * Threads: the theorems

    What holds in every state the machine of Thread.v can reach, for any
    thread code and any interleaving with the timer: thread elements are on
    at most one list, locks exclude, wake-ups are not lost, the semaphore
    operations do not fail; and what the timer does to its wait list. *)

From stdpp Require Import functions.
From S2P Require Import Prelude KListSort Thread ThreadInv.

(** The comment in thread.h on the two uses of [elem]: in every reachable
    state a thread is at most once on the run queue, and then it is ready;
    at most once on one semaphore's wait queue, and then it is blocked; so
    never on two lists.  Exactly one thread, the current one, is running,
    and it is on no list. *)
Theorem elem_exclusive main init fs k :
  main ≠ 0 → (∀ n, 0 ≤ init n) → reachable main init fs k →
  NoDup (ready_list k) ∧ (∀ s, NoDup (waiters (semas k s))) ∧
  (∀ t th, threads k !! t = Some th → (status th = THREAD_RUNNING ↔ t = current k)) ∧
  (∀ t, t ∈ ready_list k → ∃ th, threads k !! t = Some th ∧ status th = THREAD_READY) ∧
  (∀ s t, t ∈ waiters (semas k s) →
     (∃ th, threads k !! t = Some th ∧ status th = THREAD_BLOCKED) ∧
     (t ∉ ready_list k) ∧ ∀ s', t ∈ waiters (semas k s') → s' = s).
Proof.
  intros Hm Hi Hr. pose proof (reachable_inv _ _ _ _ Hm Hi Hr) as Hinv.
  split_and!; [apply Hinv..| | |].
  - intros t th Ht. split; [by apply Hinv|]. intros ->. by eapply inv_current_run.
  - apply Hinv.
  - intros s t Hs. destruct (inv_wait _ _ _ Hinv s t Hs) as (th & Ht & Hst & Hw).
    split_and!; [by eauto| |].
    + intros Hready. destruct (inv_ready _ _ _ Hinv t Hready) as (x & Hx & Hxs). congruence.
    + intros s' Hs'. destruct (inv_wait _ _ _ Hinv s' t Hs') as (x & Hx & _ & Hw').
      rewrite Ht in Hx. injection Hx as <-. destruct (code th) as [|[] ?]; try done.
      apply bool_decide_eq_true in Hw, Hw'. congruence.
Qed.

(** [inside k l t]: thread [t] has taken the semaphore of lock [l] and not
    given it back. *)
Definition inside (k : kernel) (l t : Z) : Prop :=
  t ≠ 0 ∧ holder k l = t ∨
  ∃ th, threads k !! t = Some th ∧ 0 < csum (tok l) (code th).

Lemma inside_tokens k l t : inv k → inside k l t →
  value (semas k (SLock l)) = 0 ∧
  (t ≠ 0 ∧ holder k l = t ∧ msum (λ th, csum (tok l) (code th)) (threads k) = 0 ∨
   holder k l = 0 ∧ ∃ th, threads k !! t = Some th ∧ csum (tok l) (code th) = 1 ∧
     msum (λ th, csum (tok l) (code th)) (threads k) = 1).
Proof.
  intros Hinv Hin. pose proof (inv_tokens _ _ _ Hinv l) as Ht. cbn [fl_tok no_float] in Ht.
  pose proof (inv_value _ _ _ Hinv (SLock l)).
  assert (0 ≤ msum (λ th, csum (tok l) (code th)) (threads k)).
  { apply msum_nonneg. intros. eapply good_tokens, inv_good; done. }
  destruct Hin as [[Hn0 <-]|(th & Hth & Hpos)].
  - rewrite (proj2 (Z.eqb_neq _ _)) in Ht by done. cbn in Ht. split; [lia|left; auto with lia].
  - pose proof (tokens_ge _ _ _ _ _ l Hinv Hth).
    pose proof (ind_bound (negb (holder k l =? 0))). split; [lia|]. right. split; [|eauto with lia].
    destruct (Z.eq_dec (holder k l) 0) as [|Hne]; [done|].
    rewrite (proj2 (Z.eqb_neq _ _)) in Ht by done. cbn in Ht. lia.
Qed.

(** C6. Mutual exclusion: in every reachable state at most one thread is
    between the return of [sema_down] in [lock_acquire] (or a successful
    [lock_try_acquire]) and the [sema_up] of [lock_release] of the same
    lock, and while there is one the lock's semaphore is 0. *)
Theorem lock_mutual_exclusion main init fs k l t1 t2 :
  main ≠ 0 → (∀ n, 0 ≤ init n) → reachable main init fs k →
  inside k l t1 → inside k l t2 → t1 = t2 ∧ value (semas k (SLock l)) = 0.
Proof.
  intros Hm Hi Hr H1 H2. pose proof (reachable_inv _ _ _ _ Hm Hi Hr) as Hinv.
  destruct (inside_tokens _ _ _ Hinv H1) as [Hv [(Hn1 & Hh1 & Hs1)|(Hh1 & th1 & Ht1 & Hc1 & Hs1)]];
  destruct (inside_tokens _ _ _ Hinv H2) as [_ [(Hn2 & Hh2 & Hs2)|(Hh2 & th2 & Ht2 & Hc2 & Hs2)]];
    split; try done; try lia; try congruence.
  destruct (Z.eq_dec t1 t2) as [|Hne]; [done|]. exfalso.
  pose proof (msum_delete (λ th, csum (tok l) (code th)) _ _ _ Ht1) as Hd.
  cbn beta in Hd.
  assert (csum (tok l) (code th2) ≤
    msum (λ th, csum (tok l) (code th)) (delete t1 (threads k))); [|lia].
  apply (msum_ge (λ th, csum (tok l) (code th)) _ t2).
  - intros t th [_ Ht]%lookup_delete_Some. eapply good_tokens, inv_good; done.
  - by rewrite lookup_delete_ne.
Qed.

Lemma kernel_thread_no_loop c : (∃ f, c = kernel_thread f) → no_loop c = true.
Proof.
  intros [f ->]. unfold kernel_thread. cbn [no_loop forallb andb]. change (no_loop (match f with FCalls cs => Call <$> cs | FIdle t => idle (SIdle t) end ++ [Call Exit]) = true).
  rewrite no_loop_app, andb_true_r. destruct f as [cs|t]; [|done]. by induction cs.
Qed.

Lemma idle_code_no_loop t c : good t c → idle_code c → no_loop c = true.
Proof.
  intros Hg (pre & post & -> & Hpre). induction Hpre as [|i pre Hi _ IH]; cbn in Hg |- *.
  - by destruct Hg as (_ & [?|?] & _).
  - destruct Hg as (_ & _ & Hg). apply andb_true_iff. split; [by destruct i|by apply IH].
Qed.

(** A thread that is woken and has yet to test the value is running or in the
    run queue. *)
Lemma pend_runs s k t th : inv k → threads k !! t = Some th → 0 < pend s th →
  t = current k ∨ status th = THREAD_READY ∧ t ∈ ready_list k.
Proof.
  intros Hinv Ht Hpos. pose proof (inv_good _ _ _ Hinv t th Ht) as Hg.
  assert (no_loop (code th) = true → False) as Hno.
  { intros H. unfold pend in Hpos. rewrite (no_loop_sum s _ H) in Hpos.
    pose proof (ind_bound (is_status THREAD_BLOCKED th && waits_on s (code th))). lia. }
  destruct (status th) eqn:Hst.
  - left. by eapply inv_running.
  - right. split; [done|]. destruct (inv_ready_conv _ _ _ Hinv t th Ht Hst) as [?|Hi]; [done|].
    destruct (Hno (idle_code_no_loop t _ Hg Hi)).
  - destruct Hno. pose proof (inv_blocked _ _ _ Hinv t th Ht Hst) as Hb. unfold blocked_ok in Hb.
    unfold pend, is_status in Hpos. rewrite bool_decide_eq_true_2 in Hpos by done. cbn [andb] in Hpos.
    destruct (code th) as [|i c] eqn:Hc; [done|]. destruct i; try (by apply kernel_thread_no_loop).
    + exfalso. destruct Hg as (_ & [?|Hl] & _); [done|]. cbn in Hpos. rewrite (no_loop_sum s c Hl) in Hpos. lia.
    + by destruct Hg as (_ & [?|Hl] & _).
  - by rewrite (inv_dying _ _ _ Hinv t th Ht Hst) in Hno.
Qed.

(** C13. No lost wake-ups: in every reachable state, if a thread sleeps on a
    semaphore whose value is positive, then some other thread has been woken
    from that semaphore and has yet to test the value again; it is not
    asleep, but is the running thread or is ready and in the run queue. *)
Theorem sema_no_lost_wakeup main init fs k s :
  main ≠ 0 → (∀ n, 0 ≤ init n) → reachable main init fs k →
  waiters (semas k s) ≠ [] → 0 < value (semas k s) →
  ∃ t th old, threads k !! t = Some th ∧ ISemaDownLoop s old ∈ code th ∧
    (t ∉ waiters (semas k s)) ∧ (t = current k ∨ status th = THREAD_READY ∧ t ∈ ready_list k).
Proof.
  intros Hm Hi Hr Hw Hv. pose proof (reachable_inv _ _ _ _ Hm Hi Hr) as Hinv.
  pose proof (inv_pend _ _ _ Hinv s Hw) as Hp. cbn in Hp.
  destruct (msum_pos (pend s) (threads k)) as (t & th & Ht & Hpos); [lia|].
  assert (1 ≤ csum (ploop s) (code th)) as Hc.
  { unfold pend in Hpos. pose proof (ind_bound (is_status THREAD_BLOCKED th && waits_on s (code th))).
    lia. }
  destruct (ploop_in s (code th) Hc) as [old Hold]. pose proof (pend_runs s k t th Hinv Ht ltac:(lia)) as Hrun.
  exists t, th, old. split_and!; [done..| |done].
  intros Hin. destruct (inv_wait _ _ _ Hinv s t Hin) as (x & Hx & Hst & _). rewrite Ht in Hx. injection Hx as <-.
  destruct Hrun as [->|[? _]]; [|congruence]. destruct (inv_current _ _ _ Hinv) as (y & Hy & [_ Hrun]).
  rewrite Ht in Hy. injection Hy as <-. specialize (Hrun eq_refl). congruence.
Qed.

(** ** Waking threads *)

Lemma intr_set_level_ok b k : in_external_intr k = false ∨ b = false →
  ∃ k', intr_set_level b k = Ok k' ∧ threads k' = threads k ∧ ready_list k' = ready_list k ∧
    semas k' = semas k ∧ ticks k' = ticks k ∧ intr_level k' = b ∧
    in_external_intr k' = in_external_intr k ∧ wait_list k' = wait_list k ∧
    current k' = current k.
Proof.
  intros Hb. unfold intr_set_level, intr_enable, intr_disable, intr_context.
  destruct b; [|by eexists]. destruct Hb as [Hb|?]; [|done].
  assert (negb (in_external_intr k) = true) as -> by by rewrite Hb. by eexists.
Qed.

(** What [sema_up] does to the first waiter, the run queue and the value. *)
Definition sema_up_post (s : sid) (k k' : kernel) : Prop :=
  semas k' s = Semaphore (u32 (value (semas k s) + 1)) (tail (waiters (semas k s))) ∧
  (∀ s', s' ≠ s → semas k' s' = semas k s') ∧
  ready_list k' = ready_list k ++ firstn 1 (waiters (semas k s)) ∧
  (∀ t, head (waiters (semas k s)) = Some t → ∃ th, threads k !! t = Some th ∧
     threads k' = <[t := with_status THREAD_READY th]> (threads k)) ∧
  (waiters (semas k s) = [] → threads k' = threads k) ∧
  ticks k' = ticks k ∧ in_external_intr k' = in_external_intr k ∧
  intr_level k' = intr_level k ∧ current k' = current k ∧ wait_list k' = wait_list k.

Lemma sema_up_ok s k :
  inv k → in_external_intr k = false ∨ intr_level k = false →
  ∃ k', sema_up s k = Ok k' ∧ sema_up_post s k k'.
Proof.
  intros Hinv Hb. unfold sema_up. cbn [intr_disable set_intr semas].
  destruct (waiters (semas k s)) as [|t ws] eqn:Ew; cbn [mbind res_bind].
  - destruct (intr_set_level_ok (intr_get_level k) (set_sema s
      (Semaphore (u32 (value (semas k s) + 1)) (waiters (semas k s))) (intr_disable k)))
      as (k' & E & E1 & E2 & E3 & E4 & E5 & E6 & E7 & E8); [done|].
    exists k'. unfold intr_get_level in *. cbn in *. rewrite Ew in E |- *. split; [exact E|].
    unfold sema_up_post. rewrite E1, E2, E3, E4, E5, E6, E7, E8, Ew. cbn.
    rewrite fn_lookup_insert, app_nil_r. split_and!; try done.
    intros s' Hs'. by rewrite fn_lookup_insert_ne.
  - destruct (inv_wait _ _ _ Hinv s t) as (th & Hth & Hst & _); [rewrite Ew; by left|].
    unfold thread_unblock, is_thread, upd. cbn. rewrite !Hth. cbn.
    rewrite bool_decide_eq_true_2 by done. cbn.
    destruct (intr_set_level_ok (intr_get_level k) (set_sema s
      (Semaphore (u32 (value (semas k s) + 1)) ws)
      (set_intr false (set_threads (<[t := with_status THREAD_READY th]> (threads k))
        (set_ready (ready_list k ++ [t]) (set_intr false
          (set_sema s (Semaphore (value (semas k s)) ws) k)))))))
      as (k' & E & E1 & E2 & E3 & E4 & E5 & E6 & E7 & E8); [done|].
    exists k'. cbn. rewrite fn_lookup_insert. cbn. split; [exact E|].
    unfold sema_up_post. rewrite E1, E2, E3, E4, E5, E6, E7, E8, Ew. cbn.
    rewrite fn_lookup_insert. split_and!; try done.
    + intros s' Hs'. by rewrite !fn_lookup_insert_ne.
    + intros t' [= <-]. eauto.
Qed.

(** In every reachable state [sema_up] succeeds: the first waiter is
    blocked, as [thread_unblock] asserts, and moves from the front of the
    wait queue to the back of the run queue, ready; the value grows by one;
    nothing else changes. *)
Theorem sema_up_correct main init fs k s :
  main ≠ 0 → (∀ n, 0 ≤ init n) → reachable main init fs k →
  in_external_intr k = false ∨ intr_level k = false →
  ∃ k', sema_up s k = Ok k' ∧ sema_up_post s k k'.
Proof.
  intros Hm Hi Hr Hb. apply sema_up_ok; [|done]. by eapply reachable_inv.
Qed.

(** ** The timer *)

(** Wake-up time of a thread in the wait list. *)
Definition wakeup (k : kernel) (t : Z) : Z :=
  match threads k !! t with Some th => wakeup_time th | None => 0 end.

Lemma sema_up_wakeup s k k' t : sema_up_post s k k' →
  wakeup k' t = wakeup k t ∧ (is_Some (threads k !! t) → is_Some (threads k' !! t)).
Proof.
  intros (_ & _ & _ & Hw & Hn & _). unfold wakeup.
  destruct (waiters (semas k s)) as [|x ws]; [by rewrite Hn|].
  destruct (Hw x eq_refl) as (th & Hth & ->). destruct (decide (x = t)) as [->|].
  - rewrite lookup_insert_eq, Hth. by split; [|eexists].
  - by rewrite lookup_insert_ne.
Qed.

(** The wait list from [l] on is in order and its threads exist. *)
Definition wait_ok (k : kernel) (l : list Z) : Prop :=
  (∀ t, t ∈ l → is_Some (threads k !! t)) ∧
  StronglySorted (λ a b, wakeup k a ≤ wakeup k b) l ∧ NoDup l.

Lemma wait_ok_sema_up s k k' l : sema_up_post s k k' → wait_ok k l → wait_ok k' l.
Proof.
  intros Hp (H1 & H2 & H3). split_and!; [| |done].
  - intros t Ht. apply (sema_up_wakeup _ _ _ t Hp). by apply H1.
  - induction H2 as [|t l Hs IH Hf]; constructor.
    + apply IH; [intros; apply H1; by right|by apply NoDup_cons in H3 as [_ ?]].
    + eapply Forall_impl; [exact Hf|]. intros x Hx. cbn in *.
      by rewrite !(proj1 (sema_up_wakeup _ _ _ _ Hp)).
Qed.

Definition woken (k : kernel) (l : list Z) (k' : kernel) : Prop :=
  wait_list k' = filter (λ t, ticks k < wakeup k t) l ∧
  ∀ t, value (semas k' (STimer t)) =
    if decide (t ∈ l ∧ wakeup k t ≤ ticks k)
    then u32 (value (semas k (STimer t)) + 1) else value (semas k (STimer t)).

Lemma filter_late k t l : ticks k < wakeup k t →
  Forall (λ b, wakeup k t ≤ wakeup k b) l → filter (λ t, ticks k < wakeup k t) l = l.
Proof.
  intros Ht. induction 1 as [|x l Hx _ IH]; [done|].
  rewrite filter_cons_True by lia. by rewrite IH.
Qed.

Lemma timer_wake_spec l k :
  inv k → intr_level k = false → wait_ok k l →
  ∃ k', timer_wake l k = Ok k' ∧ woken k l k'.
Proof.
  revert k. induction l as [|t l IH]; intros k Hinv Hl (H1 & H2 & H3); cbn [timer_wake].
  { eexists. split; [done|]. split; [done|]. intros t. rewrite decide_False; [done|].
    by intros [Ht%not_elem_of_nil _]. }
  destruct (H1 t) as [th Hth]; [by left|]. rewrite Hth. cbn [deref mbind res_bind].
  assert (wakeup_time th = wakeup k t) as -> by by unfold wakeup; rewrite Hth.
  apply StronglySorted_inv in H2 as [H2 Hle]. apply NoDup_cons in H3 as [Hnin H3].
  destruct (Z.ltb_spec (ticks k) (wakeup k t)) as [Hlt|Hge].
  - eexists. split; [done|]. split.
    + cbn [wait_list set_wait_list]. rewrite filter_cons_True by done.
      by rewrite (filter_late k t).
    + intros x. rewrite decide_False; [done|]. intros [Hx Hwx].
      rewrite Forall_forall in Hle. apply elem_of_cons in Hx as [->|Hx]; [lia|].
      specialize (Hle x Hx). lia.
  - destruct (sema_up_ok (STimer t) k Hinv) as (k1 & E & Hp); [by right|].
    rewrite E. cbn [mbind res_bind].
    destruct (sema_up_inv no_float k k1 (STimer t)) as (Hinv1 & _); try done.
    pose proof Hp as (Hs & Hso & _ & _ & _ & Etk & _ & El & _ & _).
    destruct (IH (set_wait_list l k1)) as (k' & E' & Hw1 & Hw2).
    + by eapply inv_ext; [..|exact Hinv1].
    + cbn. congruence.
    + eapply wait_ok_sema_up in Hp; [exact Hp|]. split_and!; [|done..]. intros. apply H1. by right.
    + exists k'. split; [done|].
      assert (∀ x, wakeup (set_wait_list l k1) x = wakeup k x) as Ewk
        by (intros x; exact (proj1 (sema_up_wakeup _ _ _ x Hp))).
      split.
      * rewrite Hw1, filter_cons_False by lia. cbn [ticks set_wait_list]. rewrite Etk.
        apply list_filter_iff. intros x. by rewrite Ewk.
      * intros x. rewrite Hw2, Ewk. cbn [ticks set_wait_list semas]. rewrite Etk.
        destruct (decide (x = t)) as [->|Hne].
        -- rewrite decide_False by tauto. rewrite decide_True by (split; [by left|done]).
           by rewrite Hs.
        -- rewrite Hso by congruence.
           destruct (decide (x ∈ l ∧ wakeup k x ≤ ticks k)) as [Hx|Hx].
           ++ rewrite decide_True; [done|]. split; [right; apply Hx|apply Hx].
           ++ rewrite decide_False; [done|]. intros [[->|?]%elem_of_cons ?]; tauto.
Qed.

(** The timer wakes exactly the threads that are due: on a wait list in
    order of wake-up time, the loop of [timer_interrupt] removes every thread
    whose time has come, with one [sema_up] of its [timer_sema] each, and
    keeps the others; inserting a thread with [list_insert_ordered], as
    [timer_sleep] does, keeps the list in order. *)
Theorem timer_wake_correct main init fs k :
  main ≠ 0 → (∀ n, 0 ≤ init n) → reachable main init fs k →
  intr_level k = false → wait_ok k (wait_list k) →
  (∃ k', timer_wake (wait_list k) k = Ok k' ∧ woken k (wait_list k) k') ∧
  Sorted (le (compare_threads_by_wakeup_time k))
    (insert_ordered (compare_threads_by_wakeup_time k) (current k) (wait_list k)).
Proof.
  intros Hm Hi Hr Hl Hw. pose proof (reachable_inv _ _ _ _ Hm Hi Hr) as Hinv. split.
  - by apply timer_wake_spec.
  - apply insert_ordered_Sorted.
    + intros a b. unfold compare_threads_by_wakeup_time.
      destruct (threads k !! a), (threads k !! b); lia || done.
    + apply StronglySorted_Sorted. destruct Hw as (H1 & H2 & _).
      induction H2 as [|t l Hs IH Hf]; constructor; [apply IH; intros; apply H1; by right|].
      apply Forall_forall. intros x Hx. rewrite Forall_forall in Hf. specialize (Hf x Hx).
      destruct (H1 t) as [a Ha]; [by left|]. destruct (H1 x) as [b Hb]; [by right|].
      unfold le, compare_threads_by_wakeup_time, wakeup in *. rewrite Ha, Hb in *. lia.
Qed.

(** ** Witnesses *)

(** At most [n] steps of the running threads, without interrupts. *)
Fixpoint run (n : nat) (k : kernel) : kernel :=
  match n with
  | O => k
  | S n' => match thread_step k with Ok k' => run n' k' | Err _ => k end
  end.

Lemma run_reachable main init fs n k :
  reachable main init fs k → reachable main init fs (run n k).
Proof.
  revert k. induction n as [|n IH]; intros k Hk; cbn; [done|].
  destruct (thread_step k) eqn:E; [|done]. apply IH. eapply reach_step; [exact Hk|].
  by constructor.
Qed.

(** Two threads sleep on semaphore 0 and the initial thread wakes one. *)
Definition demo_wake_code : list call :=
  [ThreadCreate 8192 31 [SemaDown 0]; ThreadCreate 12288 31 [SemaDown 0]; Yield; SemaUp 0].
Definition demo_wake : kernel := run 60 (thread_init 4096 (λ _, 0) demo_wake_code).
(** The initial thread holds lock 5. *)
Definition demo_lock : kernel := run 3 (thread_init 4096 (λ _, 0) [LockAcquire 5]).
(** The initial thread sleeps in [timer_sleep] and the idle thread is next. *)
Definition demo_timer_code : list call := [ThreadStart 8192; TimerSleep 5].
Definition demo_timer : kernel := run 21 (thread_init 4096 (λ _, 0) demo_timer_code).

Lemma demo_wake_reachable : reachable 4096 (λ _, 0) demo_wake_code demo_wake.
Proof. exact (run_reachable _ _ _ 60 _ (reach_init _ _ _)). Qed.
Lemma demo_lock_reachable : reachable 4096 (λ _, 0) [LockAcquire 5] demo_lock.
Proof. exact (run_reachable _ _ _ 3 _ (reach_init _ _ _)). Qed.
Lemma demo_timer_reachable : reachable 4096 (λ _, 0) demo_timer_code demo_timer.
Proof. exact (run_reachable _ _ _ 21 _ (reach_init _ _ _)). Qed.
Lemma demo_init n : 0 ≤ (λ _ : Z, 0) n.
Proof. done. Qed.

Lemma elem_exclusive_witness : NoDup (ready_list demo_wake).
Proof.
  refine (proj1 (elem_exclusive 4096 (λ _, 0) demo_wake_code demo_wake _ demo_init
    demo_wake_reachable)). lia.
Defined.

Lemma lock_mutual_exclusion_witness :
  4096 = 4096 ∧ value (semas demo_lock (SLock 5)) = 0.
Proof.
  refine (lock_mutual_exclusion 4096 (λ _, 0) [LockAcquire 5] demo_lock 5 4096 4096
    _ demo_init demo_lock_reachable _ _).
  - lia.
  - left. split; [lia|]. vm_compute. reflexivity.
  - left. split; [lia|]. vm_compute. reflexivity.
Defined.

Lemma sema_no_lost_wakeup_witness :
  ∃ t th old, threads demo_wake !! t = Some th ∧ ISemaDownLoop (SPlain 0) old ∈ code th ∧
    (t ∉ waiters (semas demo_wake (SPlain 0))) ∧
    (t = current demo_wake ∨ status th = THREAD_READY ∧ t ∈ ready_list demo_wake).
Proof.
  refine (sema_no_lost_wakeup 4096 (λ _, 0) demo_wake_code demo_wake (SPlain 0)
    _ demo_init demo_wake_reachable _ _).
  - lia.
  - vm_compute. intros E. discriminate E.
  - vm_compute. reflexivity.
Defined.

Lemma sema_up_witness :
  ∃ k', sema_up (SPlain 0) demo_wake = Ok k' ∧ sema_up_post (SPlain 0) demo_wake k'.
Proof.
  refine (sema_up_correct 4096 (λ _, 0) demo_wake_code demo_wake (SPlain 0)
    _ demo_init demo_wake_reachable _).
  - lia.
  - left. vm_compute. reflexivity.
Defined.

Lemma timer_wake_witness :
  ∃ k', timer_wake (wait_list demo_timer) demo_timer = Ok k' ∧
    woken demo_timer (wait_list demo_timer) k'.
Proof.
  refine (proj1 (timer_wake_correct 4096 (λ _, 0) demo_timer_code demo_timer
    _ demo_init demo_timer_reachable _ _)).
  - lia.
  - vm_compute. reflexivity.
  - assert (wait_list demo_timer = [4096]) as -> by (vm_compute; reflexivity). split_and!.
    + intros t ->%list_elem_of_singleton. vm_compute. eexists. reflexivity.
    + repeat constructor.
    + apply NoDup_singleton.
Defined.
