(* ===== verification/Arith64.v ===== *)
(** * lib/arithmetic.c

    The 64-bit division routines that the compiler calls, built on the
    32-bit [DIVL] instruction, which traps when its quotient does not fit.
    They are proved never to trap on a non-zero divisor and to compute the
    quotient; the remainder routines return only 32 bits of it. *)

From S2P Require Import Prelude.

(** [DIVL]: 64 by 32 bits to a 32-bit quotient, or a divide error. *)
Definition divl (n d : Z) : res Z :=
  let n1 := u32 (Z.shiftr n 32) in let n0 := u32 n in
  let m := n1 * 2 ^ 32 + n0 in
  if (d =? 0) || (2 ^ 32 <=? m / d) then Err EFault else Ok (m / d).

Definition nlz (x : Z) : Z :=
  let n := 0 in
  let '(n, x) := if x <=? 65535 then (n + 16, u32 (Z.shiftl x 16)) else (n, x) in
  let '(n, x) := if x <=? 16777215 then (n + 8, u32 (Z.shiftl x 8)) else (n, x) in
  let '(n, x) := if x <=? 268435455 then (n + 4, u32 (Z.shiftl x 4)) else (n, x) in
  let '(n, x) := if x <=? 1073741823 then (n + 2, u32 (Z.shiftl x 2)) else (n, x) in
  if x <=? 2147483647 then n + 1 else n.

Definition udiv64 (n d : Z) : res Z :=
  if Z.shiftr d 32 =? 0 then
    let b := 2 ^ 32 in
    let n1 := u32 (Z.shiftr n 32) in let n0 := u32 n in let d0 := u32 d in
    if d0 =? 0 then Err EFault else
    q ← divl (u64 (b * (n1 mod d0) + n0)) d0;
    Ok (u64 (q + u64 (b * (n1 / d0))))
  else if n <? d then Ok 0
  else
    let d1 := u32 (Z.shiftr d 32) in
    let s := nlz d1 in
    q ← divl (Z.shiftr n 1) (u32 (Z.shiftr (u64 (Z.shiftl d s)) 32));
    let q := Z.shiftr q (31 - s) in
    Ok (if u64 (n - u64 (u64 (q - 1) * d)) <? d then u64 (q - 1) else q).

Definition umod64 (n d : Z) : res Z :=
  q ← udiv64 n d; Ok (u32 (u64 (n - u64 (d * q)))).

Definition sdiv64 (n d : Z) : res Z :=
  let n_abs := if 0 <=? n then u64 n else u64 (- u64 n) in
  let d_abs := if 0 <=? d then u64 d else u64 (- u64 d) in
  q_abs ← udiv64 n_abs d_abs;
  Ok (if eqb (n <? 0) (d <? 0) then s64 q_abs else s64 (- s64 q_abs)).

Definition smod64 (n d : Z) : res Z :=
  q ← sdiv64 n d; Ok (s32 (s64 (n - s64 (d * q)))).

Definition __divdi3 (n d : Z) : res Z := sdiv64 n d.
Definition __moddi3 (n d : Z) : res Z := smod64 n d.
Definition __udivdi3 (n d : Z) : res Z := udiv64 n d.
Definition __umoddi3 (n d : Z) : res Z := umod64 n d.

(** ** Lemmas *)

Lemma divl_spec n d : is_u64 n → 0 < d → n / d < 2 ^ 32 → divl n d = Ok (n / d).
Proof.
  intros Hn Hd Hq. unfold divl. rewrite Z.shiftr_div_pow2 by lia.
  assert (u32 (n / 2 ^ 32) * 2 ^ 32 + u32 n = n) as -> by c_lia.
  rewrite (proj2 (Z.eqb_neq d 0)), (proj2 (Z.leb_gt (2 ^ 32) (n / d))) by lia. done.
Qed.

(** One step of [nlz]: a value of at least [l] is shifted by [k] when it is
    at most [m], and is then more than [m]; [n] counts the shifts. *)
Lemma nlz_step x l m k n y : 0 ≤ k → 0 ≤ n → 0 < l ≤ y → y < 2 ^ 32 →
  l * 2 ^ k = m + 1 → (m + 1) * 2 ^ k = 2 ^ 32 → y = x * 2 ^ n →
  ∃ n' y', (if y <=? m then (n + k, u32 (Z.shiftl y k)) else (n, y)) = (n', y') ∧
    m + 1 ≤ y' < 2 ^ 32 ∧ y' = x * 2 ^ n' ∧ n ≤ n' ≤ n + k.
Proof.
  intros Hk Hn Hl Hy Hlk Hp E.
  assert (0 < 2 ^ k) by (apply Z.pow_pos_nonneg; lia).
  destruct (Z.leb_spec y m); do 2 eexists; (split; [done|]); [|lia].
  rewrite Z.shiftl_mul_pow2 by done. rewrite (u32_small (y * 2 ^ k)) by (split; nia).
  rewrite Z.pow_add_r by lia. split_and!; nia.
Qed.

Lemma nlz_spec x : 0 < x < 2 ^ 32 →
  0 ≤ nlz x ≤ 31 ∧ 2 ^ 31 ≤ x * 2 ^ nlz x < 2 ^ 32.
Proof.
  intros Hx. unfold nlz.
  destruct (nlz_step x 1 65535 16 0 x) as (n1 & y1 & -> & ? & ? & ?); [lia..|].
  destruct (nlz_step x 65536 16777215 8 n1 y1) as (n2 & y2 & -> & ? & ? & ?); [lia..|].
  destruct (nlz_step x 16777216 268435455 4 n2 y2) as (n3 & y3 & -> & ? & ? & ?); [lia..|].
  destruct (nlz_step x 268435456 1073741823 2 n3 y3) as (n4 & y4 & -> & ? & ? & ?); [lia..|].
  destruct (Z.leb_spec y4 2147483647); [|lia].
  rewrite Z.pow_add_r by lia. lia.
Qed.

(** The quotient estimate of the wide case: dividing by the divisor with its
    low bits cleared is too big by at most one. *)
Lemma quotient_estimate n d p v : 0 ≤ n < 2 ^ 64 → 2 ≤ p → 2 ^ 32 mod p = 0 →
  v = d / p → 2 ^ 31 ≤ v → d ≤ n → n / d ≤ n / (v * p) ≤ n / d + 1.
Proof.
  intros Hn Hp2 Hp Ev Hv Hd.
  assert (d = v * p + d mod p) as Ed by (subst v; rewrite (Z.div_mod d p) at 1; lia).
  pose proof (Z.mod_pos_bound d p ltac:(lia)) as He.
  set (e := d mod p) in *. set (q := n / d).
  assert (0 ≤ q) by (apply Z.div_pos; nia).
  assert (q * d ≤ n < (q + 1) * d) as Hq.
  { assert (0 < d) as Hd0 by nia. pose proof (Z.mul_div_le n d Hd0).
    pose proof (Z.mul_succ_div_gt n d Hd0). subst q. lia. }
  split; [apply Z.div_le_lower_bound; nia|].
  assert ((q + 1) * p ≤ 2 ^ 33) as Hqp.
  { apply Z.mod_divide in Hp as [k Hk]; [|lia]. 
    assert (q * p * 2 ^ 31 ≤ q * d) by (rewrite Ed; nia).
    assert (q < 2 * k) by nia. nia. }
  enough (n / (v * p) < q + 2) by lia. apply Z.div_lt_upper_bound; [nia|].
  assert ((q + 1) * e ≤ v * p); [|nia].
  assert ((q + 1) * e ≤ (q + 1) * p - (q + 1)) by nia.
  destruct (decide (p < 4)); [|nia].
  assert (p = 2) as -> by (assert (p = 2 ∨ p = 3) as [->| ->] by lia; [done|]; done).
  nia.
Qed.

Lemma udiv64_narrow n d : is_u64 n → 0 < d < 2 ^ 32 → udiv64 n d = Ok (n / d).
Proof.
  intros Hn Hd. unfold udiv64. rewrite !Z.shiftr_div_pow2 by lia.
  rewrite (Z.div_small d) by lia. rewrite (u32_small d) by c_lia.
  rewrite Z.eqb_refl, (proj2 (Z.eqb_neq d 0)) by lia.
  set (n1 := n / 2 ^ 32). set (n0 := u32 n).
  assert (n = 2 ^ 32 * n1 + n0) as En by (subst n1 n0; c_lia).
  assert (0 ≤ n1 < 2 ^ 32 ∧ 0 ≤ n0 < 2 ^ 32) by (subst n1 n0; c_lia).
  clearbody n1 n0. rewrite (u32_small n1) by c_lia.
  pose proof (Z.mod_pos_bound n1 d ltac:(lia)). pose proof (Z.div_mod n1 d ltac:(lia)).
  assert (0 ≤ n1 / d ≤ n1) by (split; [apply Z.div_pos|apply Z.div_le_upper_bound]; nia).
  assert (n / d = (2 ^ 32 * (n1 mod d) + n0) / d + 2 ^ 32 * (n1 / d)) as Eq.
  { rewrite <- Z.div_add by lia. f_equal. nia. }
  assert ((2 ^ 32 * (n1 mod d) + n0) / d < 2 ^ 32) by (apply Z.div_lt_upper_bound; nia).
  rewrite (u64_small (2 ^ 32 * (n1 mod d) + n0)) by (unfold is_u64 in *; nia).
  rewrite divl_spec; [cbn [mbind res_bind]|unfold is_u64; nia|lia|lia].
  assert (0 ≤ (2 ^ 32 * (n1 mod d) + n0) / d) by (apply Z.div_pos; lia).
  rewrite Eq. rewrite (u64_small (2 ^ 32 * (n1 / d))), u64_small; [done|..];
    unfold is_u64; lia.
Qed.

(** The last step of the wide case: an estimate too big by at most one is
    corrected by one comparison. *)
Lemma udiv64_adjust n d q : is_u64 n → 2 ^ 32 ≤ d ≤ n → n / d ≤ q ≤ n / d + 1 →
  Ok (if u64 (n - u64 (u64 (q - 1) * d)) <? d then u64 (q - 1) else q) = Ok (n / d).
Proof.
  intros Hn Hd Hq. unfold is_u64 in Hn.
  pose proof (Z.mul_div_le n d ltac:(lia)). pose proof (Z.mul_succ_div_gt n d ltac:(lia)).
  assert (1 ≤ n / d) by (apply Z.div_le_lower_bound; lia).
  assert (n / d < 2 ^ 32) by (apply Z.div_lt_upper_bound; lia).
  rewrite (u64_small (q - 1)), (u64_small ((q - 1) * d)) by (unfold is_u64; nia).
  rewrite (u64_small (n - (q - 1) * d)) by (unfold is_u64; nia).
  f_equal. destruct (Z.ltb_spec (n - (q - 1) * d) d); nia.
Qed.

Lemma udiv64_wide n d : is_u64 n → 2 ^ 32 ≤ d < 2 ^ 64 → udiv64 n d = Ok (n / d).
Proof.
  intros Hn Hd. unfold udiv64. rewrite !Z.shiftr_div_pow2 by lia.
  assert (1 ≤ d / 2 ^ 32 < 2 ^ 32) as Hd1 by c_lia.
  rewrite (proj2 (Z.eqb_neq (d / 2 ^ 32) 0)) by lia.
  destruct (Z.ltb_spec n d); [by rewrite Z.div_small by c_lia|].
  rewrite (u32_small (d / 2 ^ 32)) by c_lia.
  destruct (nlz_spec (d / 2 ^ 32)) as [Hs Hn1]; [lia|].
  set (s := nlz (d / 2 ^ 32)) in *. clearbody s.
  assert (2 ^ 32 = 2 ^ (32 - s) * 2 ^ s) as Ep by (rewrite <- Z.pow_add_r by lia; f_equal; lia).
  assert (0 < 2 ^ s) by (apply Z.pow_pos_nonneg; lia).
  assert (2 ≤ 2 ^ (32 - s)) by (change 2 with (2 ^ 1) at 1; apply Z.pow_le_mono_r; lia).
  set (p := 2 ^ (32 - s)) in *.
  assert (d * 2 ^ s < 2 ^ 64) as Hds.
  { pose proof (Z.mul_succ_div_gt d (2 ^ 32) ltac:(lia)).
    assert (d / 2 ^ 32 < p) by nia. nia. }
  rewrite Z.shiftl_mul_pow2, (u64_small (d * 2 ^ s)) by (unfold is_u64; nia).
  assert (d * 2 ^ s / 2 ^ 32 = d / p) as ->.
  { rewrite Ep. rewrite Z.div_mul_cancel_r by lia. done. }
  assert (2 ^ 31 ≤ d / p < 2 ^ 32) as Hv.
  { pose proof (Z.mul_div_le d (2 ^ 32) ltac:(lia)).
    split; [apply Z.div_le_lower_bound|apply Z.div_lt_upper_bound]; try lia; nia. }
  destruct (quotient_estimate n d p (d / p)) as [Hq1 Hq2]; [done|lia| |done|lia|lia|].
  { rewrite Ep, Z.mul_comm. apply Z.mod_mul. lia. }
  rewrite (u32_small (d / p)) by c_lia.
  rewrite divl_spec; [cbn [mbind res_bind]|c_lia|lia|apply Z.div_lt_upper_bound; c_lia].
  assert (Z.shiftr (n / 2 ^ 1 / (d / p)) (31 - s) = n / (d / p * p)) as ->.
  { rewrite Z.shiftr_div_pow2 by lia.
    assert (p = 2 * 2 ^ (31 - s)) as Ep2.
    { subst p. rewrite <- Z.pow_succ_r by lia. f_equal. lia. }
    rewrite !Z.div_div by lia. f_equal. rewrite Ep2 at 3. lia. }
  apply udiv64_adjust; [done|lia|lia].
Qed.

Lemma udiv64_spec n d : is_u64 n → 0 < d < 2 ^ 64 → udiv64 n d = Ok (n / d).
Proof.
  intros Hn Hd. destruct (decide (d < 2 ^ 32)); [apply udiv64_narrow|apply udiv64_wide]; lia || done.
Qed.

Lemma magnitude x : is_s64 x →
  (if 0 <=? x then u64 x else u64 (- u64 x)) = Z.abs x.
Proof. intros Hx. destruct (Z.leb_spec 0 x); c_lia. Qed.

Lemma sdiv64_spec n d : is_s64 n → is_s64 d → d ≠ 0 → (n, d) ≠ (- 2 ^ 63, -1) →
  sdiv64 n d = Ok (Z.quot n d).
Proof.
  intros Hn Hd Hd0 Hov. unfold sdiv64. rewrite !magnitude by done.
  rewrite udiv64_spec by c_lia. cbn [mbind res_bind].
  rewrite (Z.quot_div n d Hd0).
  assert (0 ≤ Z.abs n / Z.abs d ≤ 2 ^ 63) as Hq.
  { split; [apply Z.div_pos; lia|apply Z.div_le_upper_bound; c_lia]. }
  assert (Z.abs n / Z.abs d = 2 ^ 63 → n = - 2 ^ 63 ∧ Z.abs d = 1) as Hmax.
  { intros E. pose proof (Z.mul_div_le (Z.abs n) (Z.abs d) ltac:(lia)). c_lia. }
  assert (n = 0 → Z.abs n / Z.abs d = 0) as H0 by (intros ->; apply Z.div_0_l; lia).
  set (q := Z.abs n / Z.abs d) in *. clearbody q.
  assert (n < 0 → d < 0 → q < 2 ^ 63).
  { intros. destruct (decide (q = 2 ^ 63)) as [E|]; [|lia].
    destruct Hov. destruct (Hmax E). f_equal; lia. }
  f_equal. destruct (Z.ltb_spec n 0), (Z.ltb_spec d 0); cbn [eqb]; c_lia.
Qed.

(** ** Theorems *)

(** 64-bit unsigned division is exact for every non-zero divisor: neither
    the narrow case, which divides in two steps, nor the wide case, which
    normalises the divisor and corrects an estimate, makes [DIVL] overflow,
    and both give the quotient. *)
Theorem udiv64_correct n d : is_u64 n → is_u64 d → d ≠ 0 →
  __udivdi3 n d = Ok (n / d).
Proof. intros Hn Hd H0. apply udiv64_spec; [done|c_lia]. Qed.

Lemma udiv64_correct_witness :
  __udivdi3 (2 ^ 64 - 1) (2 ^ 33 - 1) = Ok ((2 ^ 64 - 1) / (2 ^ 33 - 1)).
Proof. apply udiv64_correct; [split; lia|split; lia|lia]. Defined.

(** 64-bit signed division rounds toward zero for every non-zero divisor,
    the one quotient that does not fit, [INT64_MIN / -1], excepted. *)
Theorem sdiv64_correct n d : is_s64 n → is_s64 d → d ≠ 0 → (n, d) ≠ (- 2 ^ 63, -1) →
  __divdi3 n d = Ok (Z.quot n d).
Proof. apply sdiv64_spec. Qed.

Lemma sdiv64_correct_witness :
  __divdi3 (- 2 ^ 63) 3 = Ok (Z.quot (- 2 ^ 63) 3).
Proof. apply sdiv64_correct; [split; lia|split; lia|lia|intros [=]]. Defined.

(** The remainder routines return the low 32 bits of the remainder: they
    are exact when the remainder fits in 32 bits, and [__umoddi3] is wrong on
    [2^32 mod (2^32 + 1)], which is [2^32] and comes out as 0. *)
Theorem umod64_truncates n d : is_u64 n → is_u64 d → d ≠ 0 →
  __umoddi3 n d = Ok (u32 (n mod d)) ∧ __umoddi3 (2 ^ 32) (2 ^ 32 + 1) = Ok 0.
Proof.
  intros Hn Hd H0. split; [|vm_compute; reflexivity].
  unfold __umoddi3, umod64. rewrite udiv64_spec by (done || c_lia). cbn [mbind res_bind].
  pose proof (Z.div_mod n d H0). pose proof (Z.mod_pos_bound n d ltac:(c_lia)).
  assert (0 ≤ n / d) by (apply Z.div_pos; c_lia).
  rewrite (u64_small (d * (n / d))), (u64_small (n - _)) by (unfold is_u64 in *; nia).
  do 2 f_equal. lia.
Qed.

Lemma umod64_truncates_witness :
  __umoddi3 (10 ^ 15) 1000 = Ok (u32 (10 ^ 15 mod 1000)) ∧
  __umoddi3 (2 ^ 32) (2 ^ 32 + 1) = Ok 0.
Proof. apply umod64_truncates; [split; lia|split; lia|lia]. Defined.
