(* ===== verification/Intq.v ===== *)
(** * devices/intq.c

    The byte queue between kernel threads and interrupt handlers.  All its
    functions run with interrupts off, so that the code between two places
    where the running thread can block is one step.  A thread in
    [intq_getc] or [intq_putc] can block in [lock_acquire] or in [wait];
    the machine of this file interleaves the calls of any number of threads
    with the calls of interrupt handlers. *)

From stdpp Require Import functions.
From S2P Require Import Prelude.

Definition INTQ_BUFSIZE : Z := 64.

Record intq := mkIntq {
  lock : option nat;        (* holder of the lock *)
  not_full : option nat;    (* thread waiting for the not-full condition *)
  not_empty : option nat;   (* thread waiting for the not-empty condition *)
  buf : list Z;
  head : Z;
  tail : Z;
}.

(** Where the code runs: the interrupt level, whether an external interrupt
    handler is running, and the running thread. *)
Record ctx := mkCtx { intr_off : bool; intr_context : bool; thread_current : nat }.

(** [waiter == &q->not_empty] or [waiter == &q->not_full]. *)
Inductive cond := NotEmpty | NotFull.

#[global] Instance cond_eq_dec : EqDecision cond.
Proof. solve_decision. Defined.

Definition intq_init (b : list Z) : intq := mkIntq None None None b 0 0.

Definition next (pos : Z) : Z := Z.rem (s32 (pos + 1)) INTQ_BUFSIZE.

Definition intq_empty (c : ctx) (q : intq) : res bool :=
  _ ← ASSERT (intr_off c); Ok (head q =? tail q).

Definition intq_full (c : ctx) (q : intq) : res bool :=
  _ ← ASSERT (intr_off c); Ok (next (head q) =? tail q).

Definition waiter (w : cond) (q : intq) : option nat :=
  match w with NotEmpty => not_empty q | NotFull => not_full q end.

Definition set_waiter (w : cond) (t : option nat) (q : intq) : intq :=
  match w with
  | NotEmpty => mkIntq (lock q) (not_full q) t (buf q) (head q) (tail q)
  | NotFull => mkIntq (lock q) t (not_empty q) (buf q) (head q) (tail q)
  end.

(** The test in the assertions of [wait] and [signal]: whether the condition
    of the waiter is false, that is, the queue is empty or full. *)
Definition must_wait (c : ctx) (w : cond) (q : intq) : res bool :=
  match w with NotEmpty => intq_empty c q | NotFull => intq_full c q end.

(** [wait] up to the point where [thread_block] leaves the thread. *)
Definition wait (c : ctx) (w : cond) (q : intq) : res intq :=
  _ ← ASSERT (negb (intr_context c));
  _ ← ASSERT (intr_off c);
  b ← must_wait c w q;
  _ ← ASSERT b;
  Ok (set_waiter w (Some (thread_current c)) q).

(** [signal]: the queue, and the thread passed to [thread_unblock]. *)
Definition signal (c : ctx) (w : cond) (q : intq) : res (intq * option nat) :=
  _ ← ASSERT (intr_off c);
  b ← must_wait c w q;
  _ ← ASSERT (negb b);
  match waiter w q with
  | Some t => Ok (set_waiter w None q, Some t)
  | None => Ok (q, None)
  end.

Inductive op := Get | Put (byte : Z).

Definition cond_of (o : op) : cond := match o with Get => NotEmpty | Put _ => NotFull end.

(** What a thread is doing: not in the queue's code, blocked in the [lock_acquire]
    of [intq_getc] or [intq_putc], blocked in [wait], or unblocked inside
    [wait] and ready to run. *)
Inductive pc := Out | Lock (o : op) | Wait (o : op) | Woken (o : op).

(** After the loop: [intq_getc] takes a byte and [intq_putc] adds one. *)
Definition after_loop (c : ctx) (o : op) (q : intq) : res (intq * option nat * option Z) :=
  match o with
  | Get =>
      byte ← deref (buf q !! Z.to_nat (tail q));
      let q := mkIntq (lock q) (not_full q) (not_empty q) (buf q) (head q) (next (tail q)) in
      '(q, w) ← signal c NotFull q;
      Ok (q, w, Some byte)
  | Put byte =>
      _ ← deref (buf q !! Z.to_nat (head q));
      let q := mkIntq (lock q) (not_full q) (not_empty q)
                 (<[Z.to_nat (head q) := byte]> (buf q)) (next (head q)) (tail q) in
      '(q, w) ← signal c NotEmpty q;
      Ok (q, w, None)
  end.

(** [lock_acquire] by a thread that does not hold the lock. *)
Definition lock_acquire (c : ctx) (q : intq) : option intq :=
  match lock q with
  | Some _ => None
  | None => Some (mkIntq (Some (thread_current c)) (not_full q) (not_empty q)
                    (buf q) (head q) (tail q))
  end.

Definition lock_release (c : ctx) (q : intq) : res intq :=
  _ ← ASSERT (bool_decide (lock q = Some (thread_current c)));
  Ok (mkIntq None (not_full q) (not_empty q) (buf q) (head q) (tail q)).

(** From the call of [lock_acquire] in the loop until the thread blocks. *)
Definition loop_lock (c : ctx) (o : op) (q : intq) : res (intq * pc) :=
  match lock_acquire c q with
  | None => Ok (q, Lock o)
  | Some q => q ← wait c (cond_of o) q; Ok (q, Wait o)
  end.

(** One pass from the loop's test: the call finishes ([inr]) or the thread
    blocks ([inl]). *)
Definition loop_test (c : ctx) (o : op) (q : intq)
    : res ((intq * pc) + (intq * option nat * option Z)) :=
  b ← must_wait c (cond_of o) q;
  if b : bool then
    _ ← ASSERT (negb (intr_context c));
    r ← loop_lock c o q; Ok (inl r)
  else r ← after_loop c o q; Ok (inr r).

(** ** The machine *)

Record state := mkState {
  queue : intq;
  pcs : nat → pc;
  gets : list Z;    (* bytes returned by [intq_getc] so far *)
  puts : list Z;    (* bytes accepted by [intq_putc] so far *)
}.

(** A thread calls [intq_getc] or [intq_putc] with interrupts off, a thread
    that can run does, or an interrupt handler calls one of the two. *)
Inductive event := Call (t : nat) (o : op) | Run (t : nat) | Intr (o : op).

Definition thread_unblock (w : option nat) (p : nat → pc) : res (nat → pc) :=
  match w with
  | None => Ok p
  | Some t => match p t with
              | Wait o => Ok (<[t := Woken o]> p)
              | _ => Err EAssert
              end
  end.

Definition finish (o : op) (r : intq * option nat * option Z) (p : nat → pc)
    (s : state) : res state :=
  let '(q, w, byte) := r in
  p ← thread_unblock w p;
  Ok (mkState q p (gets s ++ option_list byte)
        (puts s ++ match o with Get => [] | Put b => [b] end)).

Definition run_test (t : nat) (o : op) (q : intq) (s : state) : res state :=
  r ← loop_test (mkCtx true false t) o q;
  match r with
  | inl (q, p) => Ok (mkState q (<[t := p]> (pcs s)) (gets s) (puts s))
  | inr r => finish o r (<[t := Out]> (pcs s)) s
  end.

Definition step (s : state) (e : event) : res state :=
  match e with
  | Call t o =>
      match pcs s t with
      | Out => run_test t o (queue s) s
      | _ => Ok s
      end
  | Run t =>
      match pcs s t with
      | Out | Wait _ => Ok s
      | Lock o =>
          '(q, p) ← loop_lock (mkCtx true false t) o (queue s);
          Ok (mkState q (<[t := p]> (pcs s)) (gets s) (puts s))
      | Woken o =>
          q ← lock_release (mkCtx true false t) (queue s); run_test t o q s
      end
  | Intr o =>
      r ← loop_test (mkCtx true true 0) o (queue s);
      match r with
      | inl _ => Err EBlock
      | inr r => finish o r (pcs s) s
      end
  end.

Definition run (s : state) (es : list event) : res state :=
  foldl (λ r e, s ← r; step s e) (Ok s) es.

Definition start (b : list Z) : state := mkState (intq_init b) (λ _, Out) [] [].

(** ** The queue as a sequence *)

(** The bytes of the queue, oldest first. *)
Definition ring (b : list Z) (h t : Z) : list Z :=
  (λ i, b !!! Z.to_nat ((t + Z.of_nat i) mod 64)) <$>
    seq 0 (Z.to_nat ((h - t) mod 64)).
Definition contents (q : intq) : list Z := ring (buf q) (head q) (tail q).

Definition intq_wf (q : intq) : Prop :=
  length (buf q) = 64%nat ∧ 0 ≤ head q < 64 ∧ 0 ≤ tail q < 64.

Lemma next_spec pos : 0 ≤ pos < 64 → next pos = (pos + 1) mod 64.
Proof.
  intros H. unfold next. rewrite s32_small by c_lia. apply Z.rem_mod_nonneg; lia.
Qed.

Lemma ring_empty b h t : 0 ≤ h < 64 → 0 ≤ t < 64 → (h =? t) = true ↔ ring b h t = [].
Proof.
  intros Hh Ht. rewrite <- length_zero_iff_nil, Z.eqb_eq. unfold ring.
  rewrite length_fmap, length_seq. split; intros; c_lia.
Qed.

Lemma ring_full b h t : 0 ≤ h < 64 → 0 ≤ t < 64 →
  (next h =? t) = true ↔ length (ring b h t) = 63%nat.
Proof.
  intros Hh Ht. unfold ring. rewrite length_fmap, length_seq, Z.eqb_eq, next_spec by done.
  split; intros; c_lia.
Qed.

Lemma ring_length b h t : (length (ring b h t) ≤ 63)%nat.
Proof.
  unfold ring. rewrite length_fmap, length_seq.
  pose proof (Z.mod_pos_bound (h - t) 64). lia.
Qed.

Lemma ring_get b h t x : 0 ≤ h < 64 → 0 ≤ t < 64 → h ≠ t →
  b !! Z.to_nat t = Some x → ring b h t = x :: ring b h (next t).
Proof.
  intros Hh Ht Hne Hx. unfold ring. rewrite next_spec by done.
  assert (Z.to_nat ((h - t) mod 64) = S (Z.to_nat ((h - (t + 1) mod 64) mod 64))) as -> by c_lia.
  cbn [seq fmap list_fmap]. rewrite Z.add_0_r, Z.mod_small by lia.
  rewrite (list_lookup_total_correct _ _ _ Hx). f_equal.
  rewrite <- fmap_S_seq, <- list_fmap_compose. apply list_fmap_ext.
  intros i y _. cbn. do 2 f_equal. c_lia.
Qed.

Lemma ring_put b h t x : length b = 64%nat → 0 ≤ h < 64 → 0 ≤ t < 64 → next h ≠ t →
  ring (<[Z.to_nat h := x]> b) (next h) t = ring b h t ++ [x].
Proof.
  intros Hb Hh Ht Hne. unfold ring. rewrite next_spec in * by done.
  assert (Z.to_nat (((h + 1) mod 64 - t) mod 64) = Z.to_nat ((h - t) mod 64) + 1)%nat as -> by c_lia.
  rewrite seq_app, fmap_app. cbn [seq fmap list_fmap]. f_equal.
  - apply list_fmap_ext. intros i y [Hy Hi]%lookup_seq.
    rewrite list_lookup_total_insert_ne by c_lia. done.
  - f_equal. rewrite Nat.add_0_l, Z2Nat.id by (apply Z.mod_pos_bound; lia).
    assert ((t + (h - t) mod 64) mod 64 = h) as -> by c_lia.
    apply list_lookup_total_insert_eq. lia.
Qed.

(** ** The invariant of the machine *)

Definition blocked (w : cond) (q : intq) : bool :=
  match w with NotEmpty => head q =? tail q | NotFull => next (head q) =? tail q end.
Definition waits_for (p : pc) : option cond :=
  match p with Wait o => Some (cond_of o) | _ => None end.
Definition holds (p : pc) : bool := match p with Wait _ | Woken _ => true | _ => false end.
Definition opposite (w : cond) : cond :=
  match w with NotEmpty => NotFull | NotFull => NotEmpty end.
Definition put_of (o : op) : list Z := match o with Get => [] | Put b => [b] end.

(** The threads inside [wait] are the ones the queue names and the holder of
    the lock, and each has its reason to wait. *)
Record threads_ok (q : intq) (p : nat → pc) : Prop := {
  ok_lock t : lock q = Some t ↔ holds (p t) = true;
  ok_waiter w t : waiter w q = Some t ↔ waits_for (p t) = Some w;
  ok_blocked w t : waits_for (p t) = Some w → blocked w q = true;
}.

Record inv (s : state) : Prop := {
  inv_wf : intq_wf (queue s);
  inv_data : gets s ++ contents (queue s) = puts s;
  inv_threads : threads_ok (queue s) (pcs s);
}.

Lemma must_wait_ok c w q : intr_off c = true → must_wait c w q = Ok (blocked w q).
Proof. intros H. destruct w; cbn; unfold intq_empty, intq_full; by rewrite H. Qed.

Lemma signal_spec c w q : intr_off c = true → blocked w q = false →
  signal c w q = Ok (set_waiter w None q, waiter w q).
Proof.
  intros Hc Hb. unfold signal. rewrite Hc, must_wait_ok, Hb by done. cbn.
  destruct (waiter w q) eqn:E; [done|]. destruct w, q; cbn in *; by subst.
Qed.

Lemma after_loop_spec c o q : intr_off c = true → intq_wf q → blocked (cond_of o) q = false →
  ∃ q' byte, after_loop c o q = Ok (q', waiter (opposite (cond_of o)) q, byte) ∧
    intq_wf q' ∧ lock q' = lock q ∧ waiter (opposite (cond_of o)) q' = None ∧
    waiter (cond_of o) q' = waiter (cond_of o) q ∧
    option_list byte ++ contents q' = contents q ++ put_of o.
Proof.
  intros Hc (Hb & Hh & Ht) Hw. destruct q as [l nf ne b h t]. cbn in *.
  pose proof (Z.mod_pos_bound (h + 1) 64) as Hmh. pose proof (Z.mod_pos_bound (t + 1) 64) as Hmt.
  destruct o as [|x]; cbn in Hw |- *; rewrite Z.eqb_neq in Hw.
  - destruct (lookup_lt_is_Some_2 b (Z.to_nat t)) as [x Hx]; [lia|]. rewrite Hx. cbn.
    rewrite signal_spec; [cbn|done|cbn; apply Z.eqb_neq; rewrite !next_spec by done; c_lia].
    do 2 eexists. split; [done|]. unfold intq_wf, contents. cbn.
    rewrite next_spec in * by done. split_and!; try (done || lia).
    rewrite app_nil_r. symmetry. rewrite <- (next_spec t) by done. by apply ring_get.
  - destruct (lookup_lt_is_Some_2 b (Z.to_nat h)) as [y Hy]; [lia|]. rewrite Hy. cbn.
    rewrite signal_spec; [cbn|done|cbn; apply Z.eqb_neq; rewrite !next_spec in * by done; c_lia].
    do 2 eexists. split; [done|]. unfold intq_wf, contents. cbn.
    rewrite ring_put by done. rewrite next_spec in * by done.
    rewrite length_insert. split_and!; done || lia.
Qed.

(** Look thread [u] up after an update at [t]. *)
Ltac at_thread u t :=
  destruct (decide (u = t)) as [->|];
  [rewrite !fn_lookup_insert|rewrite !fn_lookup_insert_ne by done].

Lemma threads_ok_ext q p p' : (∀ t, p t = p' t) → threads_ok q p → threads_ok q p'.
Proof.
  intros E [H1 H2 H3].
  split; [intros t|intros w t|intros w t]; rewrite <- E; [apply H1|apply H2|apply H3].
Qed.

Lemma threads_ok_no_waiter q p w : threads_ok q p → blocked w q = false → waiter w q = None.
Proof.
  intros Hp Hb. destruct (waiter w q) as [t|] eqn:E; [|done].
  apply (ok_waiter _ _ Hp) in E. apply (ok_blocked _ _ Hp) in E. congruence.
Qed.

(** After a byte is taken or added nobody is left waiting. *)
Lemma threads_ok_finish q q' p w : threads_ok q p → lock q' = lock q →
  (∀ w, waiter w q' = None) → blocked (opposite w) q = false →
  ∃ p', thread_unblock (waiter w q) p = Ok p' ∧ threads_ok q' p' ∧
    (∀ t, holds (p t) = false → p' t = p t) ∧ (∀ t, holds (p' t) = holds (p t)).
Proof.
  intros Hp Hl Hw Hb.
  assert (∀ t, waits_for (p t) = Some (opposite w) → False) as Hno.
  { intros t Ht. apply (ok_blocked _ _ Hp) in Ht. congruence. }
  unfold thread_unblock. destruct (waiter w q) as [t|] eqn:E.
  - apply (ok_waiter _ _ Hp) in E as E'. destruct (p t) as [| |o|] eqn:Ept; try done.
    eexists. split; [done|].
    assert (∀ t' w', waits_for (<[t:=Woken o]> p t') = Some w' → False) as Hnone.
    { intros t' w'. destruct (decide (t' = t)) as [->|Hne].
      - by rewrite fn_lookup_insert.
      - rewrite fn_lookup_insert_ne by done. intros H.
        destruct (decide (w' = w)) as [->|Hww].
        + apply (ok_waiter _ _ Hp) in H. congruence.
        + apply (Hno t'). destruct w, w'; done. }
    split; [split|].
    + intros t'. rewrite Hl, (ok_lock _ _ Hp). destruct (decide (t' = t)) as [->|Hne].
      * by rewrite fn_lookup_insert, Ept.
      * by rewrite fn_lookup_insert_ne.
    + intros w' t'. rewrite Hw. split; [done|]. intros H. by apply Hnone in H.
    + intros w' t' H. by apply Hnone in H.
    + split; intros t'; at_thread t' t; by rewrite ?Ept.
  - eexists. split; [done|]. split; [|done].
    assert (∀ t' w', waits_for (p t') = Some w' → False) as Hnone.
    { intros t' w' H. destruct (decide (w' = w)) as [->|Hww].
      - apply (ok_waiter _ _ Hp) in H. congruence.
      - apply (Hno t'). destruct w, w'; done. }
    split.
    + intros t'. by rewrite Hl, (ok_lock _ _ Hp).
    + intros w' t'. rewrite Hw. split; [done|]. intros H. by apply Hnone in H.
    + intros w' t' H. by apply Hnone in H.
Qed.

Lemma finish_inv c o q p s : intr_off c = true → intq_wf q → threads_ok q p →
  blocked (cond_of o) q = false → gets s ++ contents q = puts s →
  ∃ r s', after_loop c o q = Ok r ∧ finish o r p s = Ok s' ∧ inv s' ∧
    (∀ t, holds (p t) = false → pcs s' t = p t) ∧ (∀ t, holds (pcs s' t) = holds (p t)).
Proof.
  intros Hc Hwf Hp Hb Hd.
  destruct (after_loop_spec c o q) as (q' & byte & -> & Hwf' & Hl & Hw1 & Hw2 & Hcs); [done..|].
  destruct (threads_ok_finish q q' p (opposite (cond_of o))) as (p' & Hu & Hp' & Hout & Hh).
  { done. } { done. }
  { intros w. pose proof (threads_ok_no_waiter q p (cond_of o) Hp Hb).
    destruct o, w; cbn in *; congruence. }
  { by destruct o. }
  do 2 eexists. split; [done|]. unfold finish. rewrite Hu. cbn. split; [done|].
  split; [|done]. split; cbn; [done| |done].
  fold (put_of o). by rewrite <- app_assoc, Hcs, app_assoc, Hd.
Qed.

(** A thread that finds the lock taken blocks without changing the queue. *)
Lemma threads_ok_lock q p t o : threads_ok q p → holds (p t) = false →
  threads_ok q (<[t := Lock o]> p).
Proof.
  intros Hp Ht. split.
  - intros u. at_thread u t; [by rewrite (ok_lock _ _ Hp), Ht|apply (ok_lock _ _ Hp)].
  - intros w u. at_thread u t; [|apply (ok_waiter _ _ Hp)].
    rewrite (ok_waiter _ _ Hp). destruct (p t); done.
  - intros w u. at_thread u t; [done|]. apply (ok_blocked _ _ Hp).
Qed.

Lemma threads_ok_free q p : threads_ok q p → lock q = None →
  (∀ u, holds (p u) = false) ∧ not_empty q = None ∧ not_full q = None.
Proof.
  intros Hp El.
  assert (∀ u, holds (p u) = false) as Hno.
  { intros u. destruct (holds (p u)) eqn:E; [|done]. apply (ok_lock _ _ Hp) in E. congruence. }
  assert (∀ w, waiter w q = None) as Hnw.
  { intros w. destruct (waiter w q) as [u|] eqn:E; [|done].
    apply (ok_waiter _ _ Hp) in E. specialize (Hno u). destruct (p u); done. }
  split_and!; [done|apply (Hnw NotEmpty)|apply (Hnw NotFull)].
Qed.

(** A thread outside the critical section that finds its condition false
    blocks, in [lock_acquire] or in [wait]. *)
Lemma loop_lock_inv t o q p : threads_ok q p → holds (p t) = false →
  blocked (cond_of o) q = true →
  ∃ q' x, loop_lock (mkCtx true false t) o q = Ok (q', x) ∧ threads_ok q' (<[t := x]> p) ∧
    (intq_wf q → intq_wf q') ∧ contents q' = contents q ∧ (lock q = None → x = Wait o).
Proof.
  intros Hp Ht Hb. unfold loop_lock, lock_acquire. destruct (lock q) as [t'|] eqn:El.
  - do 2 eexists. split; [done|]. split_and!; try done. by apply threads_ok_lock.
  - destruct (threads_ok_free q p Hp El) as (Hno & Hn1 & Hn2).
    unfold wait. cbn [negb intr_context intr_off ASSERT mbind res_bind].
    rewrite must_wait_ok by done.
    assert (∀ w, blocked w (mkIntq (Some t) (not_full q) (not_empty q) (buf q) (head q) (tail q)) =
      blocked w q) as Hbe by (by intros []).
    cbn [mbind res_bind]. rewrite Hbe, Hb. cbn [ASSERT mbind res_bind thread_current].
    do 2 eexists. split; [done|].
    split_and!; [|by destruct o|by destruct o|done].
    split.
    + intros u. at_thread u t.
      * by destruct o.
      * rewrite Hno. destruct o; cbn; naive_solver.
    + intros w u. at_thread u t.
      * destruct o, w; cbn; rewrite ?Hn1, ?Hn2; naive_solver.
      * specialize (Hno u). destruct o, w; cbn; rewrite ?Hn1, ?Hn2; destruct (p u); naive_solver.
    + intros w u. at_thread u t.
      * intros [= <-]. by destruct o.
      * specialize (Hno u). by destruct (p u).
Qed.

(** One pass of the loop of a call, by a thread that is outside: the call
    returns or the thread blocks, and no assertion fails. *)
Lemma run_test_inv t o q s : intq_wf q → threads_ok q (<[t := Out]> (pcs s)) →
  gets s ++ contents q = puts s →
  ∃ s', run_test t o q s = Ok s' ∧ inv s' ∧
    (∀ u, u ≠ t → pcs s u = Out → pcs s' u = Out) ∧
    (lock q = None → ∀ o', pcs s' t ≠ Lock o').
Proof.
  intros Hwf Hp Hd. unfold run_test, loop_test. rewrite must_wait_ok by done.
  cbn [mbind res_bind]. destruct (blocked (cond_of o) q) eqn:Eb.
  - destruct (loop_lock_inv t o q (<[t := Out]> (pcs s))) as (q' & x & -> & Hp' & Hw & Hc & Hx);
      [done|by rewrite fn_lookup_insert|done|].
    cbn. eexists. split; [done|]. cbn. split_and!.
    + split; cbn; [auto|congruence|]. revert Hp'. apply threads_ok_ext. intros u. by at_thread u t.
    + intros u Hu. by rewrite fn_lookup_insert_ne.
    + intros El o'. rewrite fn_lookup_insert, Hx; done.
  - destruct (finish_inv (mkCtx true false t) o q (<[t := Out]> (pcs s)) s)
      as (r & s' & -> & Hf & Hi & Hout & _); [done..|].
    cbn. exists s'. split_and!; [done|done|..].
    + intros u Hu E. rewrite Hout; by rewrite fn_lookup_insert_ne, ?E.
    + intros _ o'. rewrite Hout; by rewrite fn_lookup_insert.
Qed.

(** A thread that leaves [wait] gives the lock back. *)
Lemma release_inv t o s : inv s → pcs s t = Woken o →
  ∃ q, lock_release (mkCtx true false t) (queue s) = Ok q ∧ lock q = None ∧
    intq_wf q ∧ threads_ok q (<[t := Out]> (pcs s)) ∧ gets s ++ contents q = puts s.
Proof.
  intros [Hwf Hd Hp] Et. assert (lock (queue s) = Some t) as El by (apply (ok_lock _ _ Hp); by rewrite Et).
  unfold lock_release. cbn [thread_current]. rewrite bool_decide_eq_true_2 by done. cbn.
  eexists. split; [done|]. split_and!; [done|apply Hwf..| |done]. split.
  - intros u. cbn. split; [done|]. at_thread u t; [done|].
    intros Hu. apply (ok_lock _ _ Hp) in Hu. congruence.
  - intros w u. transitivity (waiter w (queue s) = Some u); [by destruct w|].
    rewrite (ok_waiter _ _ Hp). at_thread u t; [by rewrite Et|done].
  - intros w u. at_thread u t; [done|]. intros Hu. apply (ok_blocked _ _ Hp) in Hu. by destruct w.
Qed.

Lemma out_inv t s : threads_ok (queue s) (pcs s) → pcs s t = Out →
  threads_ok (queue s) (<[t := Out]> (pcs s)).
Proof.
  intros Hp Et. revert Hp. apply threads_ok_ext. intros u. by at_thread u t.
Qed.

(** Every step that does not fail an assertion keeps the invariant. *)
Lemma queue_step_inv s e s' : inv s → step s e = Ok s' → inv s'.
Proof.
  intros Hi Hs. pose proof Hi as [Hwf Hd Hp]. destruct e as [t o|t|o]; cbn in Hs.
  - destruct (pcs s t) eqn:Et; try by inv_res.
    destruct (run_test_inv t o (queue s) s) as (s1 & Hs1 & Hi1 & _); [done|by apply out_inv|done|].
    rewrite Hs1 in Hs. by inv_res.
  - destruct (pcs s t) as [|o|o|o] eqn:Et; try by inv_res.
    + destruct (blocked (cond_of o) (queue s)) eqn:Eb.
      * destruct (loop_lock_inv t o (queue s) (pcs s)) as (q' & x & Hl & Hp' & Hw & Hc & _);
          [done|by rewrite Et|done|].
        rewrite Hl in Hs. cbn in Hs. inv_res. split; cbn; [auto|congruence|done].
      * unfold loop_lock in Hs. destruct (lock_acquire _ _) as [q1|] eqn:Ea.
        -- apply bind_ok in Hs as ([q x] & Hs & _). unfold wait in Hs.
           rewrite must_wait_ok in Hs by done. cbn in Hs. unfold lock_acquire in Ea.
           destruct (lock (queue s)); [done|]. injection Ea as <-.
           assert (blocked (cond_of o) (queue s) = false → False); [|done]. by destruct o; cbn in *; rewrite ?Eb in Hs.
        -- cbn in Hs. inv_res. split; cbn; [done|done|]. apply threads_ok_lock; [done|by rewrite Et].
    + destruct (release_inv t o s Hi Et) as (q & Hr & _ & Hwq & Hpq & Hdq).
      rewrite Hr in Hs. cbn in Hs.
      destruct (run_test_inv t o q s) as (s1 & Hs1 & Hi1 & _); [done..|].
      rewrite Hs1 in Hs. by inv_res.
  - unfold loop_test in Hs. rewrite must_wait_ok in Hs by done. cbn [mbind res_bind] in Hs.
    destruct (blocked (cond_of o) (queue s)) eqn:Eb; [done|].
    destruct (finish_inv (mkCtx true true 0) o (queue s) (pcs s) s)
      as (r & s1 & Ha & Hf & Hi1 & _); [done..|].
    rewrite Ha in Hs. cbn in Hs. rewrite Hf in Hs. by inv_res.
Qed.

Lemma run_inv s es s' : inv s → run s es = Ok s' → inv s'.
Proof.
  intros Hi. revert s'. induction es as [|e es IH] using rev_ind; unfold run; intros s' Hr.
  - cbn in Hr. by inv_res.
  - rewrite foldl_app in Hr. cbn in Hr. inv_res. eapply queue_step_inv; [|done]. by apply IH.
Qed.

Lemma start_inv b : length b = 64%nat → inv (start b).
Proof.
  intros Hb. split; [split_and!; cbn; done || lia|done|]. by split; [|intros []|].
Qed.

(** With one thread using the queue no step of it fails: it is never found
    blocked in [lock_acquire], where [wait]'s assertion could go stale. *)
Record alone (t : nat) (s : state) : Prop := {
  alone_inv : inv s;
  alone_others u : u ≠ t → pcs s u = Out;
  alone_lock o : pcs s t ≠ Lock o;
}.

Definition allowed (t : nat) (s : state) (e : event) : bool :=
  match e with
  | Call u _ | Run u => Nat.eqb u t
  | Intr o => negb (blocked (cond_of o) (queue s))
  end.

Lemma alone_free t s : alone t s → pcs s t = Out → lock (queue s) = None.
Proof.
  intros [[_ _ Hp] Ho _] Et. destruct (lock (queue s)) as [u|] eqn:E; [|done].
  apply (ok_lock _ _ Hp) in E. destruct (decide (u = t)) as [->|]; [by rewrite Et in E|].
  by rewrite Ho in E.
Qed.

Lemma alone_step t s e : alone t s → allowed t s e = true →
  ∃ s', step s e = Ok s' ∧ alone t s'.
Proof.
  intros Ha He. pose proof Ha as [Hi Ho Hl]. pose proof Hi as [Hwf Hd Hp].
  destruct e as [u o|u|o]; cbn in He |- *; [apply Nat.eqb_eq in He as ->..|].
  - destruct (pcs s t) eqn:Et; try by exists s.
    destruct (run_test_inv t o (queue s) s) as (s1 & -> & Hi1 & Ho1 & Hl1);
      [done|by apply out_inv|done|].
    exists s1. split; [done|]. split; [done|auto|]. by apply Hl1, alone_free with t.
  - destruct (pcs s t) as [|o|o|o] eqn:Et; try by exists s.
    { by destruct (Hl o). }
    destruct (release_inv t o s Hi Et) as (q & -> & Hf & Hwq & Hpq & Hdq). cbn [mbind res_bind].
    destruct (run_test_inv t o q s) as (s1 & -> & Hi1 & Ho1 & Hl1); [done..|].
    exists s1. split; [done|]. split; auto.
  - apply negb_true_iff in He. unfold loop_test. rewrite must_wait_ok, He by done. cbn [mbind res_bind].
    destruct (finish_inv (mkCtx true true 0) o (queue s) (pcs s) s)
      as (r & s1 & -> & Hf & Hi1 & Ho1 & Hh); [done..|].
    cbn [mbind res_bind]. exists s1. split; [done|]. split; [done|..].
    + intros u Hu. rewrite Ho1; rewrite Ho; done.
    + intros o' E. apply (Hl o'). rewrite <- Ho1; [done|]. by rewrite <- Hh, E.
Qed.

(** ** Theorems *)

(** Whatever threads and interrupt handlers do with the queue, as long as
    no assertion fails: the bytes returned by [intq_getc] followed by the
    bytes in the queue are the bytes given to [intq_putc], in order; the
    queue holds at most 63 bytes; and no wake-up is lost, since a thread
    blocked in [wait] for a byte finds the queue empty and one blocked for
    room finds it full. *)
Theorem intq_fifo b es s : length b = 64%nat → run (start b) es = Ok s →
  gets s ++ contents (queue s) = puts s ∧ (length (contents (queue s)) ≤ 63)%nat ∧
  (∀ t, pcs s t = Wait Get → contents (queue s) = []) ∧
  (∀ t x, pcs s t = Wait (Put x) → length (contents (queue s)) = 63%nat).
Proof.
  intros Hb Hr. destruct (run_inv _ _ _ (start_inv b Hb) Hr) as [(Hl & Hh & Ht) Hd Hp].
  split_and!; [done|apply ring_length|..].
  - intros t E. apply ring_empty; [done..|]. apply (ok_blocked _ _ Hp NotEmpty t). by rewrite E.
  - intros t x E. apply ring_full; [done..|]. apply (ok_blocked _ _ Hp NotFull t). by rewrite E.
Qed.

Definition demo_buf : list Z := repeat 0 64.
Definition demo : list event :=
  [Call 1 Get; Intr (Put 65); Intr (Put 66); Run 1; Call 1 Get; Call 1 Get].

Definition demo_end : state := result (start demo_buf) (run (start demo_buf) demo).

Lemma demo_runs : run (start demo_buf) demo = Ok demo_end.
Proof. vm_compute. reflexivity. Qed.

Lemma intq_fifo_witness :
  gets demo_end = [65; 66] ∧ gets demo_end ++ contents (queue demo_end) = puts demo_end.
Proof.
  split; [vm_compute; reflexivity|].
  exact (proj1 (intq_fifo demo_buf demo demo_end eq_refl demo_runs)).
Defined.

(** A queue used by one thread and by interrupt handlers that respect the
    rule in the comments, not to take from an empty queue nor to add to a
    full one, never fails an assertion: every call returns or blocks. *)
Theorem intq_one_thread_safe b t es s e : length b = 64%nat →
  (∀ es1 e1 es2 s1, es = es1 ++ e1 :: es2 → run (start b) es1 = Ok s1 → allowed t s1 e1 = true) →
  run (start b) es = Ok s → allowed t s e = true → is_ok (step s e) = true.
Proof.
  intros Hb Hall Hr He. enough (alone t s) as Ha.
  { by destruct (alone_step t s e Ha He) as (s' & -> & _). }
  revert s e Hr He. induction es as [|e1 es IH] using rev_ind; intros s e Hr He.
  { injection Hr as <-. by split; [apply start_inv| |]. }
  unfold run in Hr. rewrite foldl_app in Hr. cbn in Hr. apply bind_ok in Hr as (s1 & Hr1 & Hs).
  assert (allowed t s1 e1 = true) as He1 by by apply (Hall es e1 []).
  assert (alone t s1) as Ha1.
  { apply (IH) with e1; [|done..]. intros es1 e2 es2 s2 ->. apply Hall with (es2 ++ [e1]).
    by rewrite <- app_assoc. }
  destruct (alone_step t s1 e1 Ha1 He1) as (s' & Hs' & Ha'). congruence.
Qed.

Definition demo_wait : state :=
  result (start demo_buf) (run (start demo_buf) [Call 1 Get; Intr (Put 65)]).

Lemma demo_wait_runs : run (start demo_buf) [Call 1 Get; Intr (Put 65)] = Ok demo_wait.
Proof. vm_compute. reflexivity. Qed.

Lemma demo_wait_allowed es1 e1 es2 s1 : [Call 1 Get; Intr (Put 65)] = es1 ++ e1 :: es2 →
  run (start demo_buf) es1 = Ok s1 → allowed 1 s1 e1 = true.
Proof.
  intros E Hr. destruct es1 as [|? [|? [|? ?]]]; cbn in E; simplify_eq; vm_compute in Hr;
    injection Hr as <-; vm_compute; reflexivity.
Qed.

Lemma intq_one_thread_safe_witness : is_ok (step demo_wait (Run 1)) = true.
Proof.
  refine (intq_one_thread_safe demo_buf 1 [Call 1 Get; Intr (Put 65)] demo_wait (Run 1)
    eq_refl demo_wait_allowed demo_wait_runs _).
  vm_compute. reflexivity.
Defined.

(** The assertion in [wait] does not hold for every use: when one thread
    waits for a byte, a second one waits for the lock, and two bytes arrive
    before the first runs, the second finds the queue not empty once it gets
    the lock, and the assertion fails. *)
Theorem intq_second_reader_fails :
  run (start demo_buf)
    [Call 1 Get; Call 2 Get; Intr (Put 65); Intr (Put 66); Run 1; Run 2] = Err EAssert ∧
  is_ok (run (start demo_buf)
    [Call 1 Get; Call 2 Get; Intr (Put 65); Intr (Put 66); Run 1]) = true.
Proof. split; vm_compute; reflexivity. Qed.
