(* ===== verification/Str.v ===== *)
(** * lib/string.c

    The C library's blocks of memory and null-terminated strings.  Memory is
    a finite map from addresses to bytes: an access to an address with no
    byte is a fault, so that a theorem that a function returns also says
    that it stays inside the objects it was given.  A [char] is the byte
    that represents it; a null pointer is 0. *)

From S2P Require Import Prelude.

Abbreviation store := (gmap Z Z).

Definition rd (m : store) (a : Z) : res Z := deref (m !! u32 a).
Definition wr (m : store) (a b : Z) : res store :=
  _ ← rd m a; Ok (<[u32 a := u8 b]> m).

(** A loop over consecutive addresses meets a null byte or an address with
    no byte before it has made more steps than there are bytes. *)
Definition steps (m : store) : nat := S (size m).

(** [dst != NULL || size == 0] *)
Definition nonnull_or_empty (p size : Z) : res unit :=
  ASSERT (negb (p =? 0) || (size =? 0)).
Definition nonnull (p : Z) : res unit := ASSERT (negb (p =? 0)).

Definition memcpy (m : store) (dst_ src_ size : Z) : res (store * Z) :=
  _ ← nonnull_or_empty dst_ size;
  _ ← nonnull_or_empty src_ size;
  m ← for_up (Z.to_nat size) 0 (λ i m, b ← rd m (src_ + i); wr m (dst_ + i) b) m;
  Ok (m, dst_).

Definition memmove (m : store) (dst_ src_ size : Z) : res (store * Z) :=
  _ ← nonnull_or_empty dst_ size;
  _ ← nonnull_or_empty src_ size;
  if dst_ <? src_ then
    '(m, dst, _) ← for_up (Z.to_nat size) 0 (λ _ '(m, dst, src),
        b ← rd m src;
        m ← wr m dst b;
        Ok (m, u32 (dst + 1), u32 (src + 1))) (m, dst_, src_);
    Ok (m, dst)
  else
    '(m, dst, _) ← for_up (Z.to_nat size) 0 (λ _ '(m, dst, src),
        let dst := u32 (dst - 1) in
        let src := u32 (src - 1) in
        b ← rd m src;
        m ← wr m dst b;
        Ok (m, dst, src)) (m, u32 (dst_ + size), u32 (src_ + size));
    Ok (m, dst).

Definition memcmp (m : store) (a_ b_ size : Z) : res Z :=
  _ ← nonnull_or_empty a_ size;
  _ ← nonnull_or_empty b_ size;
  r ← for_ret (Z.to_nat size) 0 (λ i _,
    a ← rd m (a_ + i);
    b ← rd m (b_ + i);
    Ok (if negb (a =? b) then inr (if b <? a then 1 else -1) else inl tt)) tt;
  Ok (match r with inl _ => 0 | inr c => c end).

Definition strcmp (m : store) (a_ b_ : Z) : res Z :=
  _ ← nonnull a_;
  _ ← nonnull b_;
  loop (steps m) (λ '(a, b),
    x ← rd m a;
    y ← rd m b;
    Ok (if negb (x =? 0) && (x =? y) then inl (u32 (a + 1), u32 (b + 1))
        else inr (if x <? y then -1 else if y <? x then 1 else 0))) (a_, b_).

Definition memchr (m : store) (block_ ch_ size : Z) : res Z :=
  let ch := u8 ch_ in
  _ ← nonnull_or_empty block_ size;
  r ← for_ret (Z.to_nat size) 0 (λ i _,
    b ← rd m (block_ + i);
    Ok (if b =? ch then inr (u32 (block_ + i)) else inl tt)) tt;
  Ok (match r with inl _ => 0 | inr p => p end).

Definition strchr (m : store) (string c_ : Z) : res Z :=
  let c := u8 c_ in
  _ ← nonnull string;
  loop (steps m) (λ string,
    x ← rd m string;
    Ok (if x =? c then inr string
        else if x =? 0 then inr 0
        else inl (u32 (string + 1)))) string.

Definition strcspn (m : store) (string stop : Z) : res Z :=
  loop (steps m) (λ length,
    x ← rd m (string + length);
    if x =? 0 then Ok (inr length) else
    p ← strchr m stop x;
    Ok (if negb (p =? 0) then inr length else inl (u32 (length + 1)))) 0.

Definition strpbrk (m : store) (string stop : Z) : res Z :=
  loop (steps m) (λ string,
    x ← rd m string;
    if x =? 0 then Ok (inr 0) else
    p ← strchr m stop x;
    Ok (if negb (p =? 0) then inr string else inl (u32 (string + 1)))) string.

Definition strrchr (m : store) (string c_ : Z) : res Z :=
  let c := u8 c_ in
  loop (steps m) (λ '(string, p),
    x ← rd m string;
    Ok (if x =? 0 then inr p
        else inl (u32 (string + 1), if x =? c then string else p))) (string, 0).

Definition strspn (m : store) (string skip : Z) : res Z :=
  loop (steps m) (λ length,
    x ← rd m (string + length);
    if x =? 0 then Ok (inr length) else
    p ← strchr m skip x;
    Ok (if p =? 0 then inr length else inl (u32 (length + 1)))) 0.

Definition strlen (m : store) (string : Z) : res Z :=
  _ ← nonnull string;
  loop (steps m) (λ p,
    x ← rd m p;
    Ok (if x =? 0 then inr (u32 (p - string)) else inl (u32 (p + 1)))) string.

Definition strstr (m : store) (haystack needle : Z) : res Z :=
  haystack_len ← strlen m haystack;
  needle_len ← strlen m needle;
  if needle_len <=? haystack_len then
    r ← for_ret (Z.to_nat (haystack_len - needle_len + 1)) 0 (λ i _,
      c ← memcmp m (u32 (haystack + i)) needle needle_len;
      Ok (if c =? 0 then inr (u32 (haystack + i)) else inl tt)) tt;
    Ok (match r with inl _ => 0 | inr p => p end)
  else Ok 0.

(** The variable [*save_ptr] is passed in and returned; [s] is null or the
    string to start from.  The result is the memory, the new value of
    [*save_ptr] and the token. *)
Definition strtok_r (m : store) (s delimiters save_ptr : Z) : res (store * Z * Z) :=
  _ ← nonnull delimiters;
  let s := if s =? 0 then save_ptr else s in
  _ ← nonnull s;
  r ← loop (steps m) (λ s,
    x ← rd m s;
    p ← strchr m delimiters x;
    if negb (p =? 0) then
      if x =? 0 then Ok (inr (inl s)) else Ok (inl (u32 (s + 1)))
    else Ok (inr (inr s))) s;
  match r with
  | inl s => Ok (m, s, 0)
  | inr token =>
      s ← loop (steps m) (λ s,
        x ← rd m s;
        p ← strchr m delimiters x;
        Ok (if p =? 0 then inl (u32 (s + 1)) else inr s)) token;
      x ← rd m s;
      if negb (x =? 0) then
        m ← wr m s 0;
        Ok (m, u32 (s + 1), token)
      else Ok (m, s, token)
  end.

Definition memset (m : store) (dst_ value size : Z) : res (store * Z) :=
  _ ← nonnull_or_empty dst_ size;
  m ← for_up (Z.to_nat size) 0 (λ i m, wr m (dst_ + i) value) m;
  Ok (m, dst_).

Definition strnlen (m : store) (string maxlen : Z) : res Z :=
  loop (steps m) (λ length,
    x ← rd m (string + length);
    Ok (if negb (x =? 0) && (length <? maxlen) then inl (u32 (length + 1))
        else inr length)) 0.

Definition strlcpy (m : store) (dst src size : Z) : res (store * Z) :=
  _ ← nonnull dst;
  _ ← nonnull src;
  src_len ← strlen m src;
  if 0 <? size then
    let dst_len := size - 1 in
    let dst_len := if src_len <? dst_len then src_len else dst_len in
    '(m, _) ← memcpy m dst src dst_len;
    m ← wr m (dst + dst_len) 0;
    Ok (m, src_len)
  else Ok (m, src_len).

Definition strlcat (m : store) (dst src size : Z) : res (store * Z) :=
  _ ← nonnull dst;
  _ ← nonnull src;
  src_len ← strlen m src;
  dst_len ← strlen m dst;
  if (0 <? size) && (dst_len <? size) then
    let copy_cnt := u32 (size - dst_len - 1) in
    let copy_cnt := if src_len <? copy_cnt then src_len else copy_cnt in
    '(m, _) ← memcpy m (u32 (dst + dst_len)) src copy_cnt;
    m ← wr m (dst + dst_len + copy_cnt) 0;
    Ok (m, u32 (src_len + dst_len))
  else Ok (m, u32 (src_len + dst_len)).

(** ** Bytes in memory *)

Definition bytes_at (m : store) (a : Z) (l : list Z) : Prop :=
  ∀ i b, l !! i = Some b → m !! (a + Z.of_nat i) = Some b.

(** The [n] bytes from [a] on are an object: not null and in the address
    space. *)
Definition region (a n : Z) : Prop := 0 < a ∧ 0 ≤ n ∧ a + n ≤ 2 ^ 32.

Definition disjoint_regions (a n b k : Z) : Prop := a + n ≤ b ∨ b + k ≤ a.

Definition mapped (m : store) (a n : Z) : Prop :=
  ∀ k, a ≤ k < a + n → is_Some (m !! k).

(** [put m a l] is [m] with the bytes [l] from [a] on. *)
Fixpoint put (m : store) (a : Z) (l : list Z) : store :=
  match l with
  | [] => m
  | b :: l => <[a := b]> (put m (a + 1) l)
  end.

(** The string [s] lies at [a]. *)
Definition cstr (m : store) (a : Z) (s : list Z) : Prop :=
  region a (Z.of_nat (length s) + 1) ∧ Forall (λ c, 0 < c < 256) s ∧ bytes_at m a (s ++ [0]).

Lemma put_lookup m a l k :
  put m a l !! k =
    if decide (a ≤ k < a + Z.of_nat (length l)) then l !! Z.to_nat (k - a) else m !! k.
Proof.
  revert a. induction l as [|b l IH]; intros a; cbn [put length].
  { rewrite decide_False by lia. done. }
  destruct (decide (k = a)) as [->|Hk].
  - rewrite lookup_insert_eq, decide_True by lia. by replace (a - a) with 0 by lia.
  - rewrite lookup_insert_ne, IH by done. repeat case_decide; try lia; [|done].
    replace (Z.to_nat (k - a)) with (S (Z.to_nat (k - (a + 1)))) by lia. done.
Qed.

Lemma bytes_at_put m a l : bytes_at (put m a l) a l.
Proof.
  intros i b Hi. pose proof (lookup_lt_Some _ _ _ Hi).
  rewrite put_lookup, decide_True by lia. by replace (Z.to_nat _) with i by lia.
Qed.

Lemma put_mapped m a n b l : mapped m a n → mapped (put m b l) a n.
Proof.
  intros Hm k Hk. rewrite put_lookup. case_decide; [|by apply Hm].
  apply lookup_lt_is_Some. lia.
Qed.

Lemma put_snoc m a l b : put m a (l ++ [b]) = <[a + Z.of_nat (length l) := b]> (put m a l).
Proof.
  revert a. induction l as [|c l IH]; intros a; cbn [put app length].
  { by rewrite Z.add_0_r. }
  rewrite IH. replace (a + 1 + Z.of_nat (length l)) with (a + Z.of_nat (S (length l))) by lia.
  apply insert_insert_ne. lia.
Qed.

Lemma bytes_at_mapped m a l : bytes_at m a l → mapped m a (Z.of_nat (length l)).
Proof.
  intros H k Hk. destruct (lookup_lt_is_Some_2 l (Z.to_nat (k - a))) as [b Hb]; [lia|].
  exists b. rewrite <- (H _ _ Hb). f_equal. lia.
Qed.

Lemma rd_spec m a b : is_u32 a → m !! a = Some b → rd m a = Ok b.
Proof. intros Ha Hb. unfold rd. by rewrite u32_small, Hb. Qed.

Lemma wr_spec m a b : is_u32 a → is_Some (m !! a) → wr m a b = Ok (<[a := u8 b]> m).
Proof.
  intros Ha [c Hc]. unfold wr. rewrite (rd_spec _ _ c) by done. cbn. by rewrite u32_small.
Qed.

Lemma nonnull_ok p : p ≠ 0 → nonnull p = Ok tt.
Proof. intros. unfold nonnull. by rewrite (proj2 (Z.eqb_neq _ _)). Qed.

Lemma nonnull_or_empty_ok p n : p ≠ 0 → nonnull_or_empty p n = Ok tt.
Proof. intros. unfold nonnull_or_empty. by rewrite (proj2 (Z.eqb_neq _ _)). Qed.

(** ** Copies *)

Lemma take_S_snoc {A} (l : list A) i b : l !! i = Some b → take (S i) l = take i l ++ [b].
Proof. apply take_S_r. Qed.

(** A copy that goes up reads [l] from [src] if no byte of [src] it has yet
    to read has been overwritten. *)
Lemma copy_up m dst src l i b :
  is_u32 (dst + Z.of_nat i) → is_u32 (src + Z.of_nat i) →
  Forall is_u8 l → bytes_at m src l → mapped m dst (Z.of_nat (length l)) →
  dst ≤ src ∨ src + Z.of_nat (length l) ≤ dst →
  l !! i = Some b →
  let m1 := put m dst (take i l) in
  rd m1 (src + Z.of_nat i) = Ok b ∧
  wr m1 (dst + Z.of_nat i) b = Ok (put m dst (take (S i) l)).
Proof.
  intros Hd Hs H8 Hl Hm Ho Hi m1. pose proof (lookup_lt_Some _ _ _ Hi).
  assert (length (take i l) = i) as Hlen by (rewrite length_take; lia). split.
  - apply rd_spec; [done|]. unfold m1. rewrite put_lookup, decide_False by lia. by apply Hl.
  - rewrite wr_spec; [|done|].
    + rewrite take_S_snoc with (b := b), put_snoc, Hlen by done. do 2 f_equal.
      apply u8_small. by eapply Forall_lookup_1.
    + apply (put_mapped _ dst (Z.of_nat (length l))); [done|lia].
Qed.

Lemma memcpy_spec m dst src l :
  let n := Z.of_nat (length l) in
  region dst n → region src n → disjoint_regions dst n src n →
  Forall is_u8 l → bytes_at m src l → mapped m dst n →
  memcpy m dst src n = Ok (put m dst l, dst).
Proof.
  intros n (Hd & ? & Hd') (Hs & ? & Hs') Ho H8 Hl Hm. subst n. unfold memcpy.
  rewrite !nonnull_or_empty_ok by lia. cbn [mbind res_bind]. rewrite Nat2Z.id.
  destruct (for_up_total (λ i m', m' = put m dst (take (Z.to_nat i) l))
    (λ i m, b ← rd m (src + i); wr m (dst + i) b) (length l) 0 m) as (m' & -> & ->).
  - intros i ? Hi ->. destruct (lookup_lt_is_Some_2 l (Z.to_nat i)) as [b Hb]; [lia|].
    destruct (copy_up m dst src l (Z.to_nat i) b) as [Hr Hw]; [split; lia..| | | | | |]; try done.
    { destruct Ho; lia. }
    rewrite Z2Nat.id in Hr, Hw by lia. eexists. rewrite Hr. cbn. rewrite Hw. split; [done|].
    do 2 f_equal. lia.
  - done.
  - cbn. do 3 f_equal. rewrite firstn_all2 by lia. done.
Qed.

(** The copy that goes down. *)
Lemma copy_down m dst src l i b :
  is_u32 (dst + Z.of_nat i) → is_u32 (src + Z.of_nat i) →
  Forall is_u8 l → bytes_at m src l → mapped m dst (Z.of_nat (length l)) →
  src ≤ dst → l !! i = Some b →
  let m1 := put m (dst + Z.of_nat (S i)) (drop (S i) l) in
  rd m1 (src + Z.of_nat i) = Ok b ∧
  wr m1 (dst + Z.of_nat i) b = Ok (put m (dst + Z.of_nat i) (drop i l)).
Proof.
  intros Hd Hs H8 Hl Hm Ho Hi m1. pose proof (lookup_lt_Some _ _ _ Hi). split.
  - apply rd_spec; [done|]. unfold m1. rewrite put_lookup, decide_False by lia. by apply Hl.
  - rewrite wr_spec; [|done|].
    + rewrite (drop_S _ _ _ Hi). cbn [put]. unfold m1. rewrite u8_small by (by eapply Forall_lookup_1).
      do 3 f_equal. lia.
    + apply (put_mapped _ dst (Z.of_nat (length l))); [done|lia].
Qed.

Lemma memmove_spec m dst src l :
  let n := Z.of_nat (length l) in
  region dst n → region src n → dst + n < 2 ^ 32 → src + n < 2 ^ 32 →
  Forall is_u8 l → bytes_at m src l → mapped m dst n →
  memmove m dst src n = Ok (put m dst l, if dst <? src then dst + n else dst).
Proof.
  intros n (Hd & ? & _) (Hs & ? & _) Hd' Hs' H8 Hl Hm. subst n. unfold memmove.
  rewrite !nonnull_or_empty_ok by lia. cbn [mbind res_bind]. rewrite Nat2Z.id.
  destruct (Z.ltb_spec dst src) as [Ho|Ho].
  - edestruct (for_up_total (λ i '(m', d, s), m' = put m dst (take (Z.to_nat i) l) ∧
        d = dst + i ∧ s = src + i)) with (n := length l) (lo := 0) (s := (m, dst, src))
      as ([[m' d] s] & -> & -> & -> & ->); last (cbn; rewrite firstn_all2 by lia; done).
    + intros i [[? d] s] Hi (-> & -> & ->).
      destruct (lookup_lt_is_Some_2 l (Z.to_nat i)) as [b Hb]; [lia|].
      destruct (copy_up m dst src l (Z.to_nat i) b) as [Hr Hw]; [split; lia..| | | | | |]; try done; [lia|].
      rewrite Z2Nat.id in Hr, Hw by lia. eexists. cbn beta iota. rewrite Hr. cbn. rewrite Hw. cbn.
      split; [done|]. cbn. rewrite !u32_small by (split; lia).
      split_and!; [|lia..]. do 2 f_equal. lia.
    + split_and!; [done|lia..].
  - rewrite (u32_small (dst + _)), (u32_small (src + _)) by (split; lia).
    edestruct (for_up_total (λ i '(m', d, s),
        let k := Z.of_nat (length l) - i in
        m' = put m (dst + k) (drop (Z.to_nat k) l) ∧ d = dst + k ∧ s = src + k))
      with (n := length l) (lo := 0)
      as ([[m' d] s] & -> & Hk); last (cbn in *; destruct Hk as (-> & -> & ->)).
    + intros i [[? d] s] Hi (-> & -> & ->). set (k := Z.of_nat (length l) - (i + 1)).
      destruct (lookup_lt_is_Some_2 l (Z.to_nat k)) as [b Hb]; [lia|].
      destruct (copy_down m dst src l (Z.to_nat k) b) as [Hr Hw]; [split; lia..| | | | | |]; try done.
      eexists. cbn beta iota zeta.
      replace (u32 (dst + _ - 1)) with (dst + Z.of_nat (Z.to_nat k)) by (rewrite u32_small; [|split]; lia).
      replace (u32 (src + _ - 1)) with (src + Z.of_nat (Z.to_nat k)) by (rewrite u32_small; [|split]; lia).
      replace (Z.of_nat (length l) - i) with (Z.of_nat (S (Z.to_nat k))) by lia.
      rewrite Nat2Z.id, Hr. cbn [mbind res_bind]. rewrite Hw. split; [done|].
      split_and!; [|lia..]. f_equal. lia.
    + cbn. rewrite Z.sub_0_r, Nat2Z.id, drop_ge by lia. done.
    + rewrite Z.sub_diag, Z.add_0_r. done.
Qed.

(** ** Strings *)

Lemma mapped_size m a n : 0 ≤ n → mapped m a n → n ≤ Z.of_nat (size m).
Proof.
  intros Hn Hm. rewrite <- size_dom.
  assert (list_to_set (seqZ a n) ⊆ dom m) as Hsub.
  { intros k Hk. apply elem_of_list_to_set, elem_of_seqZ in Hk. apply elem_of_dom, Hm. lia. }
  apply subseteq_size in Hsub. rewrite size_list_to_set in Hsub by apply NoDup_seqZ.
  rewrite length_seqZ in Hsub. lia.
Qed.

Lemma cstr_steps m a s : cstr m a s → (length s < size m)%nat.
Proof.
  intros (_ & _ & Hb). apply bytes_at_mapped, mapped_size in Hb; [|lia].
  rewrite length_app in Hb. cbn in Hb. lia.
Qed.

Lemma cstr_rd m a s i x : cstr m a s → (s ++ [0]) !! i = Some x →
  rd m (a + Z.of_nat i) = Ok x ∧ is_u32 (a + Z.of_nat i) ∧ 0 ≤ x < 256 ∧
  (x = 0 ↔ i = length s).
Proof.
  intros ((? & ? & ?) & H8 & Hb) Hi. pose proof (lookup_lt_Some _ _ _ Hi) as Hlt.
  rewrite length_app in Hlt. cbn in Hlt.
  assert (is_u32 (a + Z.of_nat i)) by (split; lia).
  split; [by apply rd_spec; [|apply Hb]|]. split; [done|].
  destruct (decide (i = length s)) as [->|Hne].
  - rewrite list_lookup_middle in Hi by done. simplify_eq. lia.
  - rewrite lookup_app_l in Hi by lia. pose proof (Forall_lookup_1 _ _ _ _ H8 Hi). cbn in *. lia.
Qed.

(** [i] is the first index of [l] whose element satisfies [f]. *)
Definition first_with (f : Z → bool) (l : list Z) (i : nat) (x : Z) : Prop :=
  l !! i = Some x ∧ f x = true ∧ ∀ j y, (j < i)%nat → l !! j = Some y → f y = false.

Lemma first_with_unique f l i x j y : first_with f l i x → first_with f l j y → i = j ∧ x = y.
Proof.
  intros (Hi & Hx & Hbi) (Hj & Hy & Hbj). destruct (lt_eq_lt_dec i j) as [[H|H]|H].
  - specialize (Hbj i x H Hi). congruence.
  - subst. split; congruence.
  - specialize (Hbi j y H Hj). congruence.
Qed.

Lemma first_with_end f s : f 0 = true → (∀ c, c ∈ s → f c = false) →
  first_with f (s ++ [0]) (length s) 0.
Proof.
  intros H0 Hs. split; [by rewrite list_lookup_middle|]. split; [done|].
  intros j y Hj Hy. rewrite lookup_app_l in Hy by done. eapply Hs, list_elem_of_lookup_2, Hy.
Qed.

(** A loop that walks along a string and stops at the latest at its null
    byte.  The loop state is an offset [o] from the string's address. *)
Lemma scan_string {R} m a s o (f : Z → bool) (g : Z → Z → R) (body : Z → res (Z + R)) :
  cstr m a s → is_u32 o → is_u32 (o + Z.of_nat (length s)) → f 0 = true →
  (∀ i x, (s ++ [0]) !! i = Some x → rd m (a + Z.of_nat i) = Ok x → 0 ≤ x < 256 →
     body (o + Z.of_nat i) =
       Ok (if f x then inr (g (o + Z.of_nat i) x) else inl (u32 (o + Z.of_nat i + 1)))) →
  ∃ i x, first_with f (s ++ [0]) i x ∧
    loop (steps m) body o = Ok (g (o + Z.of_nat i) x).
Proof.
  intros Hs Ho Ho' H0 Hbody.
  destruct (loop_total (λ k p, ∃ i, p = o + Z.of_nat i ∧ (i + k = length s)%nat ∧
      ∀ j y, (j < i)%nat → (s ++ [0]) !! j = Some y → f y = false)
    (λ r, ∃ i x, first_with f (s ++ [0]) i x ∧ r = g (o + Z.of_nat i) x)
    body) with (n := steps m) (k := length s) (s := o) as (r & Hr & i & x & Hf & ->).
  - intros k p (i & -> & Hik & Hj).
    destruct (lookup_lt_is_Some_2 (s ++ [0]) i) as [x Hx]; [rewrite length_app; cbn; lia|].
    destruct (cstr_rd _ _ _ _ _ Hs Hx) as (Hrd & Hu & Hx8 & Hz). eexists. split; [by apply (Hbody i x)|].
    destruct (f x) eqn:Hf; [by exists i, x|].
    assert (i ≠ length s) by (intros ->; rewrite (proj2 Hz eq_refl) in Hf; congruence).
    exists (pred k). split; [lia|]. exists (S i). rewrite u32_small by (split; c_unfold; lia).
    split; [lia|]. split; [lia|]. intros j y Hji Hy.
    destruct (decide (j = i)) as [->|]; [congruence|]. apply (Hj j); [lia|done].
  - exists O. split; [lia|]. split; [lia|]. intros j y Hj0. lia.
  - pose proof (cstr_steps _ _ _ Hs). unfold steps. lia.
  - exists i, x. by rewrite Hr.
Qed.

Lemma cstr_u32 m a s : cstr m a s → is_u32 a ∧ is_u32 (a + Z.of_nat (length s)) ∧ a ≠ 0 ∧
  is_u32 (Z.of_nat (length s)).
Proof. intros ((? & ? & ?) & _). repeat split; lia. Qed.

Lemma strlen_spec m a s : cstr m a s → strlen m a = Ok (Z.of_nat (length s)).
Proof.
  intros Hs. destruct (cstr_u32 _ _ _ Hs) as (Ha & Ha' & Hnz & Hl).
  unfold strlen. rewrite nonnull_ok by done. cbn [mbind res_bind].
  edestruct (scan_string m a s a (λ x, x =? 0) (λ p _, u32 (p - a))) as (i & x & Hf & ->); try done.
  { intros i x Hi Hrd Hx. cbn. rewrite Hrd. cbn. by destruct (x =? 0). }
  destruct (first_with_unique _ _ _ _ _ _ Hf (first_with_end (λ x, x =? 0) s eq_refl ltac:(
    intros c Hc; destruct Hs as (_ & H8 & _); rewrite Forall_forall in H8;
    specialize (H8 c Hc); cbn in *; lia))) as [-> ->].
  rewrite u32_small; f_equal; [lia|split; c_unfold; lia].
Qed.

(** [strchr] returns the address of the first [c], or null. *)
Lemma strchr_spec m a s c : cstr m a s →
  strchr m a c = Ok (match list_find (λ x, x = u8 c) (s ++ [0]) with
                     | Some (i, _) => a + Z.of_nat i
                     | None => 0
                     end).
Proof.
  intros Hs. destruct (cstr_u32 _ _ _ Hs) as (Ha & Ha' & Hnz & Hl).
  unfold strchr. rewrite nonnull_ok by done. cbn [mbind res_bind].
  edestruct (scan_string m a s a (λ x, (x =? u8 c) || (x =? 0))
    (λ p x, if x =? u8 c then p else 0)) as (i & x & Hf & ->); try done.
  { apply orb_true_r. }
  { intros i x Hi Hrd Hx. cbn. rewrite Hrd. cbn. by destruct (x =? u8 c), (x =? 0). }
  destruct Hf as (Hi & Hx & Hj).
  assert (∀ j y, s !! j = Some y → (j < i)%nat → y ≠ u8 c) as Hbefore.
  { intros j y Hy Hji. specialize (Hj j y Hji). rewrite lookup_app_l in Hj by by eapply lookup_lt_Some.
    specialize (Hj Hy). lia. }
  destruct (list_find _ _) as [[k y]|] eqn:Hfind.
  - apply list_find_Some in Hfind as (Hk & -> & Hk').
    destruct (lt_eq_lt_dec i k) as [[H|H]|H].
    + assert (x ≠ u8 c) by (by apply (Hk' i)).
      assert (x = 0) as -> by lia. destruct (cstr_rd _ _ _ _ _ Hs Hi) as (_ & _ & _ & Hz).
      pose proof (lookup_lt_Some _ _ _ Hk) as Hkl. rewrite length_app in Hkl. cbn in Hkl. lia.
    + subst. assert (x = u8 c) as -> by congruence. by rewrite Z.eqb_refl.
    + specialize (Hj k _ H Hk). lia.
  - apply list_find_None in Hfind. rewrite Forall_forall in Hfind.
    assert (x ≠ u8 c) by (apply Hfind; by eapply list_elem_of_lookup_2).
    by rewrite (proj2 (Z.eqb_neq _ _)).
Qed.

(** The use of [strchr] as a test for membership in a set of characters. *)
Definition stops (ds : list Z) (x : Z) : bool := bool_decide (x ∈ ds ++ [0]).

Lemma strchr_in m d ds x : cstr m d ds → 0 ≤ x < 256 →
  ∃ p, strchr m d x = Ok p ∧ (p =? 0) = negb (stops ds x).
Proof.
  intros Hd Hx. rewrite (strchr_spec _ _ _ _ Hd). eexists. split; [done|].
  rewrite u8_small by (split; c_unfold; lia). unfold stops.
  destruct (list_find _ _) as [[k y]|] eqn:Hf.
  - apply list_find_Some in Hf as (Hk & -> & _). destruct (cstr_u32 _ _ _ Hd) as ([? ?] & _ & ? & _).
    rewrite bool_decide_eq_true_2 by (by eapply list_elem_of_lookup_2). apply Z.eqb_neq. lia.
  - apply list_find_None in Hf. rewrite Forall_forall in Hf. rewrite bool_decide_eq_false_2; [done|].
    intros Hin. by apply (Hf x).
Qed.

Lemma stops_0 ds : stops ds 0 = true.
Proof. apply bool_decide_eq_true_2. rewrite elem_of_app. right. by left. Qed.

(** ** Tokens

    [tokens ds s] are the maximal non-empty pieces of [s] without a
    character of [ds], from left to right. *)

Definition flush (w : list Z) : list (list Z) := match w with [] => [] | _ => [w] end.

Fixpoint tokens_from (ds w s : list Z) : list (list Z) :=
  match s with
  | [] => flush w
  | c :: s => if bool_decide (c ∈ ds) then flush w ++ tokens_from ds [] s
              else tokens_from ds (w ++ [c]) s
  end.
Definition tokens (ds s : list Z) : list (list Z) := tokens_from ds [] s.

Lemma tokens_skip ds pre s : Forall (λ c, c ∈ ds) pre → tokens ds (pre ++ s) = tokens ds s.
Proof.
  induction 1 as [|c pre Hc _ IH]; [done|]. unfold tokens. cbn.
  by rewrite bool_decide_eq_true_2.
Qed.

Lemma tokens_from_word ds v w s :
  Forall (λ c, c ∉ ds) w → tokens_from ds v (w ++ s) = tokens_from ds (v ++ w) s.
Proof.
  intros Hw. revert v. induction Hw as [|c w Hc _ IH]; intros v; [by rewrite app_nil_r|].
  cbn. rewrite bool_decide_eq_false_2, IH by done. by rewrite <- app_assoc.
Qed.

Lemma tokens_word ds w c s : w ≠ [] → Forall (λ c, c ∉ ds) w → c ∈ ds →
  tokens ds (w ++ c :: s) = w :: tokens ds s.
Proof.
  intros Hne Hw Hc. unfold tokens. rewrite tokens_from_word by done. cbn.
  rewrite bool_decide_eq_true_2 by done. by destruct w.
Qed.

Lemma tokens_last ds w : w ≠ [] → Forall (λ c, c ∉ ds) w → tokens ds w = [w].
Proof.
  intros Hne Hw. unfold tokens. rewrite <- (app_nil_r w) at 1.
  rewrite tokens_from_word by done. by destruct w.
Qed.

Lemma cstr_drop m a s i : cstr m a s → (i ≤ length s)%nat → cstr m (a + Z.of_nat i) (drop i s).
Proof.
  intros ((? & ? & ?) & H8 & Hb) Hi. split_and!.
  - rewrite length_drop. repeat split; lia.
  - by apply Forall_drop.
  - intros k b Hk. replace (a + Z.of_nat i + Z.of_nat k) with (a + Z.of_nat (i + k)) by lia.
    apply Hb. rewrite <- lookup_drop, drop_app_le by done. done.
Qed.

(** Writing outside a string leaves it alone. *)
Lemma cstr_ext m m' a s : cstr m a s →
  (∀ k, a ≤ k ≤ a + Z.of_nat (length s) → m' !! k = m !! k) → cstr m' a s.
Proof.
  intros (Hr & H8 & Hb) He. split_and!; [done..|]. intros i b Hi.
  pose proof (lookup_lt_Some _ _ _ Hi) as Hlt. rewrite length_app in Hlt. cbn in Hlt.
  rewrite He by lia. by apply Hb.
Qed.

(** Ending a string after its first [i] characters. *)
Lemma cstr_cut m a s i : cstr m a s → (i ≤ length s)%nat →
  cstr (<[a + Z.of_nat i := 0]> m) a (take i s).
Proof.
  intros ((? & ? & ?) & H8 & Hb) Hi. split_and!.
  - rewrite length_take. repeat split; lia.
  - by apply Forall_take.
  - intros k b Hk. destruct (decide (k = i)) as [->|Hne].
    + rewrite list_lookup_middle in Hk by (rewrite length_take; lia). simplify_eq.
      by rewrite lookup_insert_eq.
    + pose proof (lookup_lt_Some _ _ _ Hk) as Hlt. rewrite length_app, length_take in Hlt. cbn in Hlt.
      rewrite lookup_insert_ne by lia. apply Hb.
      rewrite lookup_app_l in Hk by (rewrite length_take; lia).
      rewrite lookup_app_l by lia. rewrite lookup_take_lt in Hk by lia. done.
Qed.

Lemma first_with_split f s i x : f 0 = true → first_with f (s ++ [0]) i x →
  Forall (λ c, 0 < c < 256) s →
  (i ≤ length s)%nat ∧ Forall (λ c, f c = false) (take i s) ∧
  match drop i s with
  | [] => x = 0 ∧ i = length s
  | c :: _ => x = c ∧ f c = true ∧ 0 < c < 256
  end.
Proof.
  intros H0 (Hi & Hx & Hb) H8. pose proof (lookup_lt_Some _ _ _ Hi) as Hlt.
  rewrite length_app in Hlt. cbn in Hlt. split; [lia|]. split.
  - apply Forall_lookup_2. intros j y Hj. pose proof (lookup_lt_Some _ _ _ Hj) as Hjl.
    rewrite length_take in Hjl. rewrite lookup_take_lt in Hj by lia.
    apply (Hb j); [lia|]. by rewrite lookup_app_l by lia.
  - destruct (drop i s) as [|c r] eqn:Hd.
    + assert (i = length s) as ->.
      { apply (f_equal length) in Hd. rewrite length_drop in Hd. cbn in Hd. lia. }
      rewrite list_lookup_middle in Hi by done. by simplify_eq.
    + assert (s !! i = Some c) as Hc by (rewrite <- (Nat.add_0_r i), <- lookup_drop, Hd; done).
      rewrite (lookup_app_l_Some _ _ _ _ Hc) in Hi. simplify_eq.
      pose proof (Forall_lookup_1 _ _ _ _ H8 Hc). naive_solver.
Qed.

Lemma stops_iff ds x : x ≠ 0 → stops ds x = bool_decide (x ∈ ds).
Proof.
  intros Hx. unfold stops. apply bool_decide_ext. rewrite elem_of_app, list_elem_of_singleton. tauto.
Qed.

Lemma stops_split ds s : Forall (λ c, 0 < c < 256) s →
  Forall (λ c, stops ds c = true → c ∈ ds) s ∧ Forall (λ c, stops ds c = false → c ∉ ds) s.
Proof.
  intros H8. split; eapply Forall_impl; try exact H8; intros c Hc; cbn in Hc;
    rewrite stops_iff by lia; intros H; [by apply bool_decide_eq_true in H|
      by apply bool_decide_eq_false in H].
Qed.

(** The first loop of [strtok_r] passes over delimiters. *)
Lemma strtok_skip m p s d ds : cstr m p s → cstr m d ds →
  ∃ i, (i ≤ length s)%nat ∧ Forall (λ c, c ∈ ds) (take i s) ∧
    loop (steps m) (λ s,
      x ← rd m s;
      p ← strchr m d x;
      if negb (p =? 0) then
        if x =? 0 then Ok (inr (inl s)) else Ok (inl (u32 (s + 1)))
      else Ok (inr (inr s))) p =
    Ok (match drop i s with
        | [] => inl (p + Z.of_nat (length s))
        | _ => inr (p + Z.of_nat i)
        end) ∧ match drop i s with [] => True | c :: _ => c ∉ ds end.
Proof.
  intros Hs Hd. destruct (cstr_u32 _ _ _ Hs) as (Hp & Hp' & _). pose proof Hs as (_ & H8 & _).
  edestruct (scan_string m p s p (λ x, (x =? 0) || negb (stops ds x))
    (λ p x, if x =? 0 then inl p else inr p)) as (i & x & Hf & ->); try done.
  { intros i x Hi Hrd Hx. cbn. rewrite Hrd. cbn [mbind res_bind].
    destruct (strchr_in m d ds x) as (q & -> & Hq); [done..|]. cbn [mbind res_bind]. rewrite Hq.
    destruct (Z.eqb_spec x 0) as [->|]; [by rewrite stops_0|]. by destruct (stops ds x). }
  apply first_with_split in Hf as (Hi & Ht & Hx); [|done..].
  exists i. split; [done|]. split; [|split].
  - pose proof (proj1 (stops_split ds s H8)) as Hin. apply (Forall_take _ i) in Hin.
    eapply Forall_impl; [exact (proj2 (Forall_and _ _) (conj Ht Hin))|]. cbn. intros c [H1 H2].
    apply orb_false_iff in H1 as [_ H1]. apply H2. by destruct (stops ds c).
  - destruct (drop i s); [by destruct Hx as [-> ->]|]. destruct Hx as (-> & _ & ?).
    by rewrite (proj2 (Z.eqb_neq _ _)) by lia.
  - destruct (drop i s) as [|c r]; [done|]. destruct Hx as (_ & Hc & ?).
    rewrite (proj2 (Z.eqb_neq _ _)) in Hc by lia. cbn in Hc. rewrite stops_iff in Hc by lia.
    intros Hin. by rewrite bool_decide_eq_true_2 in Hc.
Qed.

(** The second loop of [strtok_r] stops at the next delimiter. *)
Lemma strtok_word m p s d ds : cstr m p s → cstr m d ds →
  ∃ i, (i ≤ length s)%nat ∧ Forall (λ c, c ∉ ds) (take i s) ∧
    loop (steps m) (λ s,
      x ← rd m s;
      p ← strchr m d x;
      Ok (if p =? 0 then inl (u32 (s + 1)) else inr s)) p = Ok (p + Z.of_nat i) ∧
    rd m (p + Z.of_nat i) = Ok (match drop i s with [] => 0 | c :: _ => c end) ∧
    match drop i s with [] => i = length s | c :: _ => c ∈ ds ∧ 0 < c end.
Proof.
  intros Hs Hd. destruct (cstr_u32 _ _ _ Hs) as (Hp & Hp' & _). pose proof Hs as (_ & H8 & _).
  edestruct (scan_string m p s p (stops ds) (λ p x, p)) as (i & x & Hf & ->); try done.
  { apply stops_0. }
  { intros i x Hi Hrd Hx. cbn. rewrite Hrd. cbn [mbind res_bind].
    destruct (strchr_in m d ds x) as (q & -> & Hq); [done..|]. cbn [mbind res_bind]. rewrite Hq.
    by destruct (stops ds x). }
  destruct (cstr_rd _ _ _ _ _ Hs (proj1 Hf)) as (Hrd & _).
  apply first_with_split in Hf as (Hi & Ht & Hx); [|apply stops_0|done].
  exists i. split; [done|]. split; [|split; [done|split]].
  - pose proof (proj2 (stops_split ds s H8)) as Hin. apply (Forall_take _ i) in Hin.
    eapply Forall_impl; [exact (proj2 (Forall_and _ _) (conj Ht Hin))|]. cbn. intros c [H1 H2]. auto.
  - rewrite Hrd. destruct (drop i s); by destruct Hx as [-> _].
  - destruct (drop i s) as [|c r]; [tauto|]. destruct Hx as (_ & Hc & ?). split; [|lia].
    rewrite stops_iff in Hc by lia. by apply bool_decide_eq_true in Hc.
Qed.

(** One call of [strtok_r]: it returns the first token of the string that it
    starts from, ended by a null byte, and leaves the other tokens to the
    calls that follow.  It writes at most one byte, the one that ends the
    token. *)
Lemma strtok_r_spec m start save p s d ds :
  p = (if start =? 0 then save else start) →
  cstr m p s → cstr m d ds →
  disjoint_regions p (Z.of_nat (length s) + 1) d (Z.of_nat (length ds) + 1) →
  match tokens ds s with
  | [] => strtok_r m start d save = Ok (m, p + Z.of_nat (length s), 0)
  | w :: ws => ∃ m' save' token rest,
      strtok_r m start d save = Ok (m', save', token) ∧
      w ≠ [] ∧ cstr m' token w ∧ cstr m' save' rest ∧ tokens ds rest = ws ∧
      p ≤ token ∧ token + Z.of_nat (length w) ≤ save' ∧
      save' + Z.of_nat (length rest) = p + Z.of_nat (length s) ∧
      (m' = m ∧ rest = [] ∨
       m' = <[token + Z.of_nat (length w) := 0]> m ∧ token + Z.of_nat (length w) < save')
  end.
Proof.
  intros Hp Hs Hd Hdj. destruct (cstr_u32 _ _ _ Hs) as (? & ? & Hnz & _).
  assert (strtok_r m start d save = strtok_r m p d save) as ->.
  { unfold strtok_r. rewrite <- Hp. by rewrite (proj2 (Z.eqb_neq _ _) Hnz). }
  unfold strtok_r. rewrite (proj2 (Z.eqb_neq _ _) Hnz), !nonnull_ok by first [done|apply (cstr_u32 _ _ _ Hd)].
  cbn [mbind res_bind]. destruct (strtok_skip m p s d ds Hs Hd) as (i & Hi & Hpre & -> & Hc).
  assert (tokens ds s = tokens ds (drop i s)) as ->.
  { rewrite <- (tokens_skip ds (take i s) (drop i s)), take_drop by done. done. }
  pose proof (cstr_drop m p s i Hs Hi) as Hs'.
  destruct (drop i s) as [|c r] eqn:Hdrop; [done|]. cbn [mbind res_bind].
  set (s1 := c :: r) in *. set (t := p + Z.of_nat i) in *.
  assert (length s1 = length s - i)%nat as Hlen by (rewrite <- Hdrop, length_drop; done).
  destruct (strtok_word m t s1 d ds Hs' Hd) as (j & Hj & Hw & Hloop & Hrd & Hnext).
  rewrite Hloop. cbn [mbind res_bind]. rewrite Hrd. cbn [mbind res_bind].
  assert (take j s1 ≠ []) as Hne.
  { destruct j; [|done]. exfalso. cbn in Hnext. tauto. }
  assert (length (take j s1) = j) as Hlj by (rewrite length_take; lia).
  pose proof (cstr_drop m t s1 j Hs' Hj) as Hs2.
  destruct (cstr_u32 _ _ _ Hs2) as (Ht2 & Ht2' & _).
  destruct (drop j s1) as [|e r2] eqn:Hd2.
  - subst j. rewrite firstn_all in *. rewrite (tokens_last ds s1) by done.
    exists m, (t + Z.of_nat (length s1)), t, []. cbn [negb Z.eqb].
    split_and!; try done; try (cbn [length]; lia). by left.
  - destruct Hnext as [He Hepos]. rewrite (proj2 (Z.eqb_neq _ _)) by lia.
    assert (tokens ds s1 = take j s1 :: tokens ds r2) as ->.
    { rewrite <- (tokens_word ds _ e), <- Hd2, take_drop by done. done. }
    assert (length (e :: r2) = length s1 - j)%nat as Hl2 by (rewrite <- Hd2, length_drop; done).
    cbn [length] in Hl2. cbn [negb]. rewrite wr_spec; [|done|].
    2:{ destruct Hs2 as (_ & _ & Hb). eexists. specialize (Hb O e eq_refl).
        by rewrite Z.add_0_r in Hb. }
    cbn [mbind res_bind]. change (u8 0) with 0. cbn [length] in Ht2'.
    rewrite (u32_small (t + _ + 1)) by (split; c_unfold; lia).
    exists (<[t + Z.of_nat j := 0]> m), (t + Z.of_nat j + 1), t, r2.
    rewrite Hlj. split_and!; try done; try (unfold t; lia); [by apply cstr_cut| |by right; split; [|lia]].
    apply (cstr_ext m). { exact (cstr_drop _ _ _ 1 Hs2 ltac:(cbn; lia)). }
    intros k Hk. rewrite lookup_insert_ne by lia. done.
Qed.

(** ** Bounded copies of strings *)

Lemma cstr_u8 m a s : cstr m a s → Forall is_u8 s.
Proof. intros (_ & H8 & _). eapply Forall_impl; [exact H8|]. intros c Hc. cbn in Hc. split; c_unfold; lia. Qed.

Lemma cstr_bytes_take m a s n : cstr m a s → bytes_at m a (take n s).
Proof.
  intros (_ & _ & Hb) i b Hi. apply Hb. apply lookup_take_Some in Hi as [Hi _].
  by apply lookup_app_l_Some.
Qed.

(** Copying the first [n] characters of a string and ending the copy. *)
Lemma copy_chars m dst src s n :
  cstr m src s → (n ≤ length s)%nat →
  region dst (Z.of_nat n + 1) → mapped m dst (Z.of_nat n + 1) →
  disjoint_regions dst (Z.of_nat n + 1) src (Z.of_nat (length s) + 1) →
  memcpy m dst src (Z.of_nat n) = Ok (put m dst (take n s), dst) ∧
  wr (put m dst (take n s)) (dst + Z.of_nat n) 0 = Ok (put m dst (take n s ++ [0])).
Proof.
  intros Hs Hn (? & ? & ?) Hm Hdj. assert (length (take n s) = n) as Hl by (rewrite length_take; lia).
  pose proof Hs as ((? & ? & ?) & _). split.
  - rewrite <- Hl at 1. apply memcpy_spec; rewrite ?Hl.
    + repeat split; lia.
    + repeat split; lia.
    + destruct Hdj; [left|right]; lia.
    + eapply Forall_take, cstr_u8, Hs.
    + by apply cstr_bytes_take.
    + intros k Hk. apply Hm. lia.
  - rewrite wr_spec; [|split; lia|].
    + by rewrite put_snoc, Hl.
    + apply (put_mapped _ dst (Z.of_nat n + 1)); [done|lia].
Qed.

Lemma cstr_put m a s : Forall (λ c, 0 < c < 256) s → region a (Z.of_nat (length s) + 1) →
  cstr (put m a (s ++ [0])) a s.
Proof. intros H8 Hr. split_and!; [done..|]. apply bytes_at_put. Qed.

Lemma strlcpy_spec m dst src s size :
  cstr m src s → 0 < size → region dst size → mapped m dst size →
  disjoint_regions dst size src (Z.of_nat (length s) + 1) →
  let t := take (Z.to_nat (size - 1)) s in
  strlcpy m dst src size = Ok (put m dst (t ++ [0]), Z.of_nat (length s)) ∧
  cstr (put m dst (t ++ [0])) dst t.
Proof.
  intros Hs H0 (? & ? & ?) Hm Hdj t. pose proof Hs as ((? & ? & ?) & H8 & _).
  set (n := Nat.min (Z.to_nat (size - 1)) (length s)).
  assert (t = take n s) as -> by (unfold t, n; destruct (Nat.min_spec (Z.to_nat (size - 1)) (length s))
    as [[? ->]|[? ->]]; [done|rewrite !firstn_all2 by lia; done]).
  destruct (copy_chars m dst src s n) as [Hc Hw]; [done|lia|repeat split; lia| | |].
  { intros k Hk. apply Hm. lia. }
  { destruct Hdj; [left|right]; lia. }
  split.
  - unfold strlcpy. rewrite !nonnull_ok by lia. cbn [mbind res_bind].
    rewrite (strlen_spec _ _ _ Hs). cbn [mbind res_bind]. rewrite (proj2 (Z.ltb_lt _ _) H0).
    replace (if Z.of_nat (length s) <? size - 1 then _ else _) with (Z.of_nat n)
      by (unfold n; destruct (Z.ltb_spec (Z.of_nat (length s)) (size - 1)); lia).
    rewrite Hc. cbn [mbind res_bind]. by rewrite Hw.
  - apply cstr_put; [by apply Forall_take|]. rewrite length_take. repeat split; lia.
Qed.

Lemma strlcat_spec m dst src s t size :
  cstr m src s → cstr m dst t → Z.of_nat (length t) < size →
  Z.of_nat (length s + length t) < 2 ^ 32 →
  region dst size → mapped m dst size →
  disjoint_regions dst size src (Z.of_nat (length s) + 1) →
  let u := take (Z.to_nat (size - 1)) (t ++ s) in
  ∃ m', strlcat m dst src size = Ok (m', Z.of_nat (length s + length t)) ∧ cstr m' dst u ∧
    ∀ k, k < dst ∨ dst + size ≤ k → m' !! k = m !! k.
Proof.
  intros Hs Ht Hsz Hsum (? & ? & ?) Hm Hdj u.
  pose proof Hs as ((? & ? & ?) & H8 & _). pose proof Ht as ((? & ? & ?) & H8t & Hbt).
  set (n := Nat.min (Z.to_nat size - length t - 1) (length s)).
  assert (u = t ++ take n s) as ->.
  { unfold u, n. rewrite take_app_ge by lia. f_equal.
    destruct (Nat.min_spec (Z.to_nat size - length t - 1) (length s)) as [[? ->]|[? ->]];
      [f_equal; lia|rewrite !firstn_all2 by lia; done]. }
  set (e := dst + Z.of_nat (length t)).
  destruct (copy_chars m e src s n) as [Hc Hw]; [done|lia|repeat split; lia| | |].
  { intros k Hk. apply Hm. lia. }
  { destruct Hdj; [left|right]; lia. }
  exists (put m e (take n s ++ [0])).
  assert (∀ k, k < e ∨ e + Z.of_nat n < k → put m e (take n s ++ [0]) !! k = m !! k) as Hout.
  { intros k Hk. rewrite put_lookup, decide_False; [done|]. rewrite length_app, length_take. cbn. lia. }
  split_and!.
  - unfold strlcat. rewrite !nonnull_ok by lia. cbn [mbind res_bind].
    rewrite (strlen_spec _ _ _ Hs), (strlen_spec _ _ _ Ht). cbn [mbind res_bind].
    rewrite !(proj2 (Z.ltb_lt _ _)) by lia. cbn [andb].
    rewrite (u32_small (size - _ - 1)), (u32_small (dst + _)), (u32_small (_ + _)) by (split; lia).
    replace (if Z.of_nat (length s) <? _ then _ else _) with (Z.of_nat n)
      by (unfold n; destruct (Z.ltb_spec (Z.of_nat (length s)) (size - Z.of_nat (length t) - 1)); lia).
    fold e. rewrite Hc. cbn [mbind res_bind]. rewrite Hw. cbn [mbind res_bind]. do 2 f_equal. lia.
  - split_and!.
    + rewrite length_app, length_take. repeat split; lia.
    + apply Forall_app. split; [done|by apply Forall_take].
    + intros i b Hi. rewrite <- app_assoc in Hi. apply lookup_app_Some in Hi as [Hi|[Hge Hi]].
      * pose proof (lookup_lt_Some _ _ _ Hi). rewrite Hout by lia. apply Hbt. by apply lookup_app_l_Some.
      * apply (bytes_at_put m e) in Hi. rewrite <- Hi. f_equal. lia.
  - intros k Hk. apply Hout. lia.
Qed.

(** ** Comparison and search *)

(** The lexicographic order of byte strings, as a sign. *)
Fixpoint lex (s t : list Z) : Z :=
  match s, t with
  | [], [] => 0
  | [], _ :: _ => -1
  | _ :: _, [] => 1
  | x :: s, y :: t => if x =? y then lex s t else if x <? y then -1 else 1
  end.

Lemma lex_eq s t : lex s t = 0 ↔ s = t.
Proof.
  revert t. induction s as [|x s IH]; intros [|y t]; cbn; try done.
  destruct (Z.eqb_spec x y) as [->|]; [rewrite IH; naive_solver|].
  destruct (x <? y); naive_solver.
Qed.

Lemma memcmp_spec m a b s t : length s = length t →
  region a (Z.of_nat (length s)) → region b (Z.of_nat (length s)) →
  bytes_at m a s → bytes_at m b t →
  memcmp m a b (Z.of_nat (length s)) = Ok (lex s t).
Proof.
  intros Hl (? & ? & ?) (? & ? & ?) Hs Ht. unfold memcmp. rewrite !nonnull_or_empty_ok by lia.
  cbn [mbind res_bind]. rewrite Nat2Z.id.
  destruct (for_ret_total (λ i _, lex s t = lex (drop (Z.to_nat i) s) (drop (Z.to_nat i) t))
    (λ c, c = lex s t) (λ i (_ : unit),
    x ← rd m (a + i);
    y ← rd m (b + i);
    Ok (if negb (x =? y) then inr (if y <? x then 1 else -1) else inl tt)) (length s) 0 tt)
    as ([u|c] & -> & HQ).
  - intros i [] Hi HI. set (k := Z.to_nat i) in *.
    destruct (lookup_lt_is_Some_2 s k) as [x Hx]; [lia|].
    destruct (lookup_lt_is_Some_2 t k) as [y Hy]; [lia|].
    replace (a + i) with (a + Z.of_nat k) by lia. replace (b + i) with (b + Z.of_nat k) by lia.
    rewrite (rd_spec m (a + _) x), (rd_spec m (b + _) y) by first [split; lia|by apply Hs|by apply Ht].
    cbn [mbind res_bind]. rewrite (drop_S _ _ _ Hx), (drop_S _ _ _ Hy) in HI. cbn [lex] in HI.
    eexists. split; [done|]. destruct (Z.eqb_spec x y) as [->|Hne]; cbn [negb].
    + replace (Z.to_nat (i + 1)) with (S k) by lia. done.
    + rewrite HI. destruct (Z.ltb_spec y x), (Z.ltb_spec x y); lia.
  - done.
  - cbn in *. rewrite HQ, !drop_ge by lia. done.
  - cbn. by rewrite HQ.
Qed.

Lemma strcmp_spec m a b s t : cstr m a s → cstr m b t → strcmp m a b = Ok (lex s t).
Proof.
  intros Hs Ht. unfold strcmp. rewrite !nonnull_ok by first [apply (cstr_u32 _ _ _ Hs)|apply (cstr_u32 _ _ _ Ht)].
  cbn [mbind res_bind].
  eapply (loop_ok (λ k '(p, q), ∃ i, p = a + Z.of_nat i ∧ q = b + Z.of_nat i ∧
    (i + k = length s)%nat ∧ (i ≤ length t)%nat ∧ lex s t = lex (drop i s) (drop i t)))
    with (k := length s).
  - intros k [p q] (i & -> & -> & Hk & Hit & Hlex).
    destruct (lookup_lt_is_Some_2 (s ++ [0]) i) as [x Hx]; [rewrite length_app; cbn; lia|].
    destruct (lookup_lt_is_Some_2 (t ++ [0]) i) as [y Hy]; [rewrite length_app; cbn; lia|].
    destruct (cstr_rd _ _ _ _ _ Hs Hx) as (-> & ? & ? & Hx0).
    destruct (cstr_rd _ _ _ _ _ Ht Hy) as (-> & ? & ? & Hy0). cbn [mbind res_bind].
    eexists. split; [done|]. rewrite Hlex.
    destruct (decide (i = length s)) as [Hi|Hi], (decide (i = length t)) as [Hj|Hj].
    + rewrite !drop_ge by lia. rewrite (proj2 Hx0 Hi), (proj2 Hy0 Hj). done.
    + rewrite (drop_ge s) by lia. rewrite lookup_app_l in Hy by lia.
      rewrite (drop_S _ _ _ Hy), (proj2 Hx0 Hi). cbn. rewrite (proj2 (Z.ltb_lt _ _)) by lia. done.
    + rewrite (drop_ge t) by lia. rewrite lookup_app_l in Hx by lia.
      rewrite (drop_S _ _ _ Hx), (proj2 Hy0 Hj). cbn. rewrite andb_comm.
      rewrite (proj2 (Z.eqb_neq _ _)), (proj2 (Z.ltb_ge _ _)), (proj2 (Z.ltb_lt _ _)) by lia. done.
    + rewrite lookup_app_l in Hx, Hy by lia. rewrite (drop_S _ _ _ Hx), (drop_S _ _ _ Hy) in *. cbn [lex] in *.
      rewrite (proj2 (Z.eqb_neq x 0)) by lia. cbn [negb andb]. destruct (Z.eqb_spec x y) as [->|Hne].
      * exists (pred k). split; [lia|]. exists (S i).
        pose proof (cstr_u32 _ _ _ Hs) as (_ & ? & _). pose proof (cstr_u32 _ _ _ Ht) as (_ & ? & _).
        rewrite !u32_small by (split; c_unfold; lia). split_and!; [lia..|done].
      * destruct (Z.ltb_spec x y), (Z.ltb_spec y x); lia.
  - exists O. split_and!; [lia..|done].
  - pose proof (cstr_steps _ _ _ Hs). unfold steps. lia.
Qed.

(** [t] occurs in [s] at index [i]. *)
Definition occurs (t s : list Z) (i : nat) : Prop := take (length t) (drop i s) = t.

Lemma strstr_spec m h n s t : cstr m h s → cstr m n t →
  ∃ p, strstr m h n = Ok p ∧
    (p = 0 ∧ (∀ i, (i ≤ length s)%nat → ¬ occurs t s i) ∨
     ∃ i, p = h + Z.of_nat i ∧ (i + length t ≤ length s)%nat ∧ occurs t s i ∧
       ∀ j, (j < i)%nat → ¬ occurs t s j).
Proof.
  intros Hs Ht. pose proof Hs as ((? & ? & ?) & _ & Hbs). pose proof Ht as ((? & ? & ?) & _).
  unfold strstr. rewrite (strlen_spec _ _ _ Hs), (strlen_spec _ _ _ Ht). cbn [mbind res_bind].
  assert (∀ i, (length s - length t < i ∧ i ≤ length s ∨ length s < length t)%nat → ¬ occurs t s i) as Hlong.
  { intros i Hi Hocc. apply (f_equal length) in Hocc. rewrite length_take, length_drop in Hocc. lia. }
  destruct (Z.leb_spec (Z.of_nat (length t)) (Z.of_nat (length s))) as [Hle|Hgt].
  2:{ exists 0. split; [done|]. left. split; [done|]. intros i Hi. apply Hlong. lia. }
  edestruct (for_ret_total (λ i (_ : unit), ∀ j, (j < Z.to_nat i)%nat → ¬ occurs t s j)
    (λ p, ∃ i, p = h + Z.of_nat i ∧ (i + length t ≤ length s)%nat ∧ occurs t s i ∧
       ∀ j, (j < i)%nat → ¬ occurs t s j))
    with (n := Z.to_nat (Z.of_nat (length s) - Z.of_nat (length t) + 1)) (lo := 0)
    as ([u|c] & Heq & HQ); last first.
  - rewrite Heq. exists c. auto.
  - rewrite Heq. exists 0. split; [done|]. left. split; [done|]. intros i Hi.
    destruct (decide (i + length t ≤ length s)%nat); [apply HQ; lia|apply Hlong; lia].
  - cbn. lia.
  - intros i [] Hi HI. set (k := Z.to_nat i) in *. replace i with (Z.of_nat k) in * by lia.
    rewrite (u32_small (h + _)) by (split; lia).
    assert (length t = length (take (length t) (drop k s))) as Hlen
      by (rewrite length_take, length_drop; lia).
    pose proof (memcmp_spec m (h + Z.of_nat k) n (take (length t) (drop k s)) t) as Hc.
    rewrite <- Hlen in Hc. rewrite Hc; try done.
    + cbn [mbind res_bind]. eexists. split; [done|].
      destruct (Z.eqb_spec (lex (take (length t) (drop k s)) t) 0) as [E|E].
      * exists k. split_and!; [done|lia|by apply lex_eq in E|done].
      * intros j Hj. destruct (decide (j = k)) as [->|]; [by rewrite lex_eq in E|]. apply HI. lia.
    + repeat split; lia.
    + repeat split; lia.
    + apply cstr_bytes_take, cstr_drop; [done|lia].
    + rewrite <- (firstn_all t) at 1. by apply cstr_bytes_take.
Qed.

(** ** The library's promises *)

(** [memmove] copies [SIZE] bytes between objects that may overlap in any
    way: afterwards the destination holds what the source held before, and
    every other byte is unchanged.  The pointer it returns is [DST] when it
    copies downwards, but the end of the destination when it copies upwards,
    because it returns the pointer that the loop has moved. *)
Theorem memmove_correct (m : store) (dst src : Z) (l : list Z) :
  let n := Z.of_nat (length l) in
  region dst n → region src n → dst + n < 2 ^ 32 → src + n < 2 ^ 32 →
  Forall is_u8 l → bytes_at m src l → mapped m dst n →
  ∃ m', memmove m dst src n = Ok (m', if dst <? src then dst + n else dst) ∧
    bytes_at m' dst l ∧ ∀ k, k < dst ∨ dst + n ≤ k → m' !! k = m !! k.
Proof.
  intros n Hd Hs Hd' Hs' H8 Hl Hm. exists (put m dst l).
  split; [by apply memmove_spec|]. split; [apply bytes_at_put|].
  intros k Hk. rewrite put_lookup, decide_False; [done|]. fold n. lia.
Qed.

Definition demo_bytes : store := put ∅ 100 [7; 8; 9; 10; 11].

Lemma demo_mapped : mapped demo_bytes 100 5.
Proof.
  intros k Hk. unfold demo_bytes. rewrite put_lookup, decide_True by (cbn; lia).
  apply lookup_lt_is_Some. cbn. lia.
Qed.

Lemma memmove_witness : ∃ m',
  memmove demo_bytes 100 101 4 = Ok (m', 104) ∧ bytes_at m' 100 [8; 9; 10; 11] ∧
    ∀ k, k < 100 ∨ 104 ≤ k → m' !! k = demo_bytes !! k.
Proof.
  apply (memmove_correct demo_bytes 100 101 [8; 9; 10; 11]); cbn; try (repeat split; lia).
  - repeat constructor; c_unfold; lia.
  - intros i b Hi. apply (bytes_at_put ∅ 100 [7; 8; 9; 10; 11] (S i)) in Hi as <-.
    unfold demo_bytes. f_equal. lia.
  - intros k Hk. apply demo_mapped. lia.
Defined.

(** One call of [strtok_r] on a string [s], given or saved by the call
    before, with delimiters [ds]: when [s] has no token left it returns null;
    otherwise it returns the address of the first token, ended by a null
    byte, and saves the address of a string whose tokens are the remaining
    ones.  No token is empty, and at most the one byte that ends the token is
    written, within [s]. *)
Theorem strtok_r_correct (m : store) (start save p : Z) (s : list Z) (d : Z) (ds : list Z) :
  p = (if start =? 0 then save else start) →
  cstr m p s → cstr m d ds →
  disjoint_regions p (Z.of_nat (length s) + 1) d (Z.of_nat (length ds) + 1) →
  match tokens ds s with
  | [] => strtok_r m start d save = Ok (m, p + Z.of_nat (length s), 0)
  | w :: ws => ∃ m' save' token rest,
      strtok_r m start d save = Ok (m', save', token) ∧
      w ≠ [] ∧ cstr m' token w ∧ cstr m' save' rest ∧ tokens ds rest = ws ∧
      p ≤ token ∧ token + Z.of_nat (length w) ≤ save' ∧
      save' + Z.of_nat (length rest) = p + Z.of_nat (length s) ∧
      (m' = m ∧ rest = [] ∨
       m' = <[token + Z.of_nat (length w) := 0]> m ∧ token + Z.of_nat (length w) < save')
  end.
Proof. apply strtok_r_spec. Qed.

(** The string " ls -l" at address 200 and the delimiter " " at address 100. *)
Definition demo_line : store := put (put ∅ 100 [32; 0]) 200 [32; 108; 115; 32; 45; 108; 0].

Lemma demo_line_strings : cstr demo_line 200 [32; 108; 115; 32; 45; 108] ∧ cstr demo_line 100 [32].
Proof.
  split.
  - apply cstr_put; [repeat constructor; lia|cbn; repeat split; lia].
  - apply (cstr_ext (put ∅ 100 [32; 0])).
    + apply (cstr_put ∅ 100 [32]); [repeat constructor; lia|cbn; repeat split; lia].
    + intros k Hk. unfold demo_line. rewrite put_lookup, decide_False; [done|]. cbn in *. lia.
Qed.

Lemma strtok_witness : ∃ m' save' token rest,
  strtok_r demo_line 200 100 0 = Ok (m', save', token) ∧
  [108; 115] ≠ [] ∧ cstr m' token [108; 115] ∧ cstr m' save' rest ∧
  tokens [32] rest = [[45; 108]] ∧ 200 ≤ token ∧ token + 2 ≤ save' ∧
  save' + Z.of_nat (length rest) = 206 ∧
  (m' = demo_line ∧ rest = [] ∨ m' = <[token + 2 := 0]> demo_line ∧ token + 2 < save').
Proof.
  destruct demo_line_strings as [H1 H2].
  apply (strtok_r_correct demo_line 200 0 200 [32; 108; 115; 32; 45; 108] 100 [32]); [done..|].
  right. cbn. lia.
Defined.

(** [strlcat] appends to the string [t] in a buffer of [SIZE] bytes as
    much of [s] as fits with a null byte, never touches a byte outside the
    buffer, and returns the length that the whole result would have. *)
Theorem strlcat_correct (m : store) (dst src : Z) (s t : list Z) (size : Z) :
  cstr m src s → cstr m dst t → Z.of_nat (length t) < size →
  Z.of_nat (length s + length t) < 2 ^ 32 →
  region dst size → mapped m dst size →
  disjoint_regions dst size src (Z.of_nat (length s) + 1) →
  ∃ m', strlcat m dst src size = Ok (m', Z.of_nat (length s + length t)) ∧
    cstr m' dst (take (Z.to_nat (size - 1)) (t ++ s)) ∧
    ∀ k, k < dst ∨ dst + size ≤ k → m' !! k = m !! k.
Proof. apply strlcat_spec. Qed.

(** The buffer of 5 bytes at 200 holds "ls"; "-la" is at 100. *)
Definition demo_buffer : store := put (put ∅ 100 [45; 108; 97; 0]) 200 [108; 115; 0; 0; 0].

Lemma strlcat_witness : ∃ m', strlcat demo_buffer 200 100 5 = Ok (m', 5) ∧
  cstr m' 200 [108; 115; 45; 108] ∧ ∀ k, k < 200 ∨ 205 ≤ k → m' !! k = demo_buffer !! k.
Proof.
  apply (strlcat_correct demo_buffer 200 100 [45; 108; 97] [108; 115] 5); try (cbn; lia).
  - apply (cstr_ext (put ∅ 100 [45; 108; 97; 0])).
    + apply (cstr_put ∅ 100 [45; 108; 97]); [repeat constructor; lia|cbn; repeat split; lia].
    + intros k Hk. unfold demo_buffer. rewrite put_lookup, decide_False; [done|]. cbn in *. lia.
  - apply (cstr_ext (put ∅ 200 [108; 115; 0])).
    + apply (cstr_put ∅ 200 [108; 115]); [repeat constructor; lia|cbn; repeat split; lia].
    + intros k Hk. unfold demo_buffer. rewrite !put_lookup, !decide_True by (cbn in *; lia).
      assert (k = 200 ∨ k = 201 ∨ k = 202) as [->|[->| ->]] by (cbn in *; lia); done.
  - repeat split; lia.
  - intros k Hk. unfold demo_buffer. rewrite put_lookup, decide_True by (cbn; lia).
    apply lookup_lt_is_Some. cbn. lia.
  - right. cbn. lia.
Defined.

(** [strnlen] looks at the byte after the [MAXLEN] it is allowed to: on an
    array of [MAXLEN] non-null bytes it faults. *)
Lemma strnlen_overreads : strnlen (put ∅ 100 [65; 66]) 100 2 = Err EFault.
Proof. reflexivity. Qed.
