(* ===== verification/Heapsort.v ===== *)
(** * lib/stdlib.c: sorting and searching

    [sort] is a heap sort of an array of [cnt] elements of [size] bytes each,
    in memory as in Str; [binary_search] looks for a key in a sorted array.
    The comparison function of the caller may read memory but does not
    change it; [AUX] is part of it. *)

From S2P Require Import Prelude Str.

Section code.
Variable compare : store → Z → Z → Z.

Definition do_swap (m : store) (array a_idx b_idx size : Z) : res store :=
  let a := u32 (array + u32 (u32 (a_idx - 1) * size)) in
  let b := u32 (array + u32 (u32 (b_idx - 1) * size)) in
  for_up (Z.to_nat size) 0 (λ i m,
    t ← rd m (a + i);
    x ← rd m (b + i);
    m ← wr m (a + i) x;
    wr m (b + i) t) m.

Definition do_compare (m : store) (array a_idx b_idx size : Z) : Z :=
  compare m (u32 (array + u32 (u32 (a_idx - 1) * size)))
            (u32 (array + u32 (u32 (b_idx - 1) * size))).

Definition heapify (m : store) (array i cnt size : Z) : res store :=
  loop (S (Z.to_nat cnt)) (λ '(m, i),
    let left := u32 (2 * i) in
    let right := u32 (2 * i + 1) in
    let max := i in
    let max := if (left <=? cnt) && (0 <? do_compare m array left max size) then left else max in
    let max := if (right <=? cnt) && (0 <? do_compare m array right max size) then right else max in
    if max =? i then Ok (inr m) else
    m ← do_swap m array i max size;
    Ok (inl (m, max))) (m, i).

Definition sort (m : store) (array cnt size : Z) : res store :=
  _ ← ASSERT (negb (array =? 0) || (cnt =? 0));
  _ ← ASSERT (0 <? size);
  m ← for_up (Z.to_nat (cnt / 2)) 0 (λ k m, heapify m array (cnt / 2 - k) cnt size) m;
  for_up (Z.to_nat (cnt - 1)) 0 (λ k m,
    let i := cnt - k in
    m ← do_swap m array 1 i size;
    heapify m array 1 (i - 1) size) m.

Definition binary_search (m : store) (key array cnt size : Z) : res Z :=
  loop (S (Z.to_nat cnt)) (λ '(first, last),
    if first <? last then
      let range := u32 (s32 (last - first)) / size in
      let middle := u32 (first + u32 (range / 2 * size)) in
      let cmp := compare m key middle in
      if cmp <? 0 then Ok (inl (first, middle))
      else if 0 <? cmp then Ok (inl (u32 (middle + size), last))
      else Ok (inr middle)
    else Ok (inr 0)) (array, u32 (array + u32 (size * cnt))).

End code.

(** [qsort] and [bsearch] take a comparison function without [AUX], which
    [compare_thunk] calls. *)
Definition compare_thunk (compare : store → Z → Z → Z) (m : store) (a b : Z) : Z := compare m a b.
Definition qsort (compare : store → Z → Z → Z) (m : store) (array cnt size : Z) : res store :=
  sort (compare_thunk compare) m array cnt size.
Definition bsearch (compare : store → Z → Z → Z) (m : store) (key array cnt size : Z) : res Z :=
  binary_search (compare_thunk compare) m key array cnt size.

(** ** Arrays in memory *)

(** The element with the 1-based index [i]. *)
Definition at1 (l : list (list Z)) (i : Z) : list Z := l !!! Z.to_nat (i - 1).
Definition swap1 (l : list (list Z)) (i j : Z) : list (list Z) :=
  <[Z.to_nat (i - 1) := at1 l j]> (<[Z.to_nat (j - 1) := at1 l i]> l).

Definition valid (l : list (list Z)) (i : Z) : Prop := 1 ≤ i ≤ Z.of_nat (length l).

Lemma length_swap1 l i j : length (swap1 l i j) = length l.
Proof. unfold swap1. by rewrite !length_insert. Qed.

Lemma at1_swap l i j k : valid l i → valid l j → valid l k →
  at1 (swap1 l i j) k = if k =? i then at1 l j else if k =? j then at1 l i else at1 l k.
Proof.
  unfold valid. intros Hi Hj Hk. unfold at1 at 1, swap1. rewrite list_lookup_total_alt.
  destruct (Z.eqb_spec k i) as [->|Hki].
  - by rewrite list_lookup_insert_eq by (rewrite length_insert; lia).
  - rewrite list_lookup_insert_ne by lia. destruct (Z.eqb_spec k j) as [->|Hkj].
    + by rewrite list_lookup_insert_eq by lia.
    + rewrite list_lookup_insert_ne by lia. unfold at1. by rewrite list_lookup_total_alt.
Qed.

Lemma swap1_perm l i j : valid l i → valid l j → swap1 l i j ≡ₚ l.
Proof.
  unfold valid. intros Hi Hj.
  apply Permutation_insert_swap; unfold at1; apply list_lookup_lookup_total_lt; lia.
Qed.

(** Every element of [l'] in positions 1 to [cnt] comes from these positions
    of [l], and the elements after them are those of [l]. *)
Definition shuffles (cnt : Z) (l l' : list (list Z)) : Prop :=
  l' ≡ₚ l ∧ (∀ k, 1 ≤ k ≤ cnt → ∃ j, 1 ≤ j ≤ cnt ∧ at1 l' k = at1 l j) ∧
  (∀ k, cnt < k → valid l k → at1 l' k = at1 l k).

Lemma shuffles_refl cnt l : shuffles cnt l l.
Proof. split_and!; [done|eauto|done]. Qed.

Lemma shuffles_trans cnt l1 l2 l3 : shuffles cnt l1 l2 → shuffles cnt l2 l3 → shuffles cnt l1 l3.
Proof.
  intros (H1 & H2 & H3) (K1 & K2 & K3). split_and!.
  - by etrans.
  - intros k Hk. destruct (K2 k Hk) as (j & Hj & ->). by apply H2.
  - intros k Hk Hv. rewrite K3; [by apply H3|done|]. unfold valid in *. by rewrite H1.
Qed.

Lemma shuffles_swap cnt l i j : cnt ≤ Z.of_nat (length l) → 1 ≤ i ≤ cnt → 1 ≤ j ≤ cnt →
  shuffles cnt l (swap1 l i j).
Proof.
  intros Hc Hi Hj. assert (valid l i) by (split; lia). assert (valid l j) by (split; lia).
  split_and!.
  - by apply swap1_perm.
  - intros k Hk. rewrite at1_swap by (done || (split; lia)).
    destruct (k =? i); [eauto|]. destruct (k =? j); eauto.
  - intros k Hk Hv. rewrite at1_swap by done.
    destruct (Z.eqb_spec k i); [lia|]. destruct (Z.eqb_spec k j); [lia|done].
Qed.

(** The array of elements [l] of [size] bytes lies at [a]. *)
Record arr (m : store) (a size : Z) (l : list (list Z)) : Prop := {
  arr_region : region a (size * Z.of_nat (length l)) ∧ 0 < size ∧ a + size * Z.of_nat (length l) < 2 ^ 32;
  arr_size : Forall (λ x, Z.of_nat (length x) = size ∧ Forall is_u8 x) l;
  arr_bytes i : valid l i → bytes_at m (a + (i - 1) * size) (at1 l i);
}.

Lemma arr_at1 m a size l i : arr m a size l → valid l i →
  Z.of_nat (length (at1 l i)) = size ∧ Forall is_u8 (at1 l i).
Proof.
  intros [_ Hs _] Hv. unfold valid in Hv. apply (Forall_lookup_1 _ _ (Z.to_nat (i - 1)) _ Hs).
  unfold at1. apply list_lookup_lookup_total_lt. lia.
Qed.

Lemma elem_addr m a size l i : arr m a size l → valid l i →
  u32 (a + u32 (u32 (i - 1) * size)) = a + (i - 1) * size ∧
  0 < a ∧ 0 ≤ (i - 1) * size ∧ (i - 1) * size + size ≤ size * Z.of_nat (length l).
Proof.
  intros [((? & ? & ?) & ? & ?) _ _] Hv. unfold valid in Hv.
  assert (0 ≤ (i - 1) * size) by nia.
  assert ((i - 1) * size + size ≤ size * Z.of_nat (length l)) by nia.
  assert (i - 1 ≤ (i - 1) * size) by nia.
  rewrite (u32_small (i - 1)) by (split; c_unfold; lia).
  rewrite (u32_small (_ * _)) by (split; c_unfold; lia).
  rewrite u32_small by (split; c_unfold; lia). lia.
Qed.

Lemma elems_apart size i j : 0 < size → i < j → (i - 1) * size + size ≤ (j - 1) * size.
Proof. nia. Qed.

(** A byte-wise exchange of two elements. *)
Lemma exchange_spec m a b x y n : n = Z.of_nat (length x) → length x = length y →
  region a n → region b n → disjoint_regions a n b n →
  Forall is_u8 x → Forall is_u8 y → bytes_at m a x → bytes_at m b y →
  for_up (Z.to_nat n) 0 (λ i m,
    t ← rd m (a + i);
    x ← rd m (b + i);
    m ← wr m (a + i) x;
    wr m (b + i) t) m = Ok (put (put m a y) b x).
Proof.
  intros -> Hl (? & ? & ?) (? & ? & ?) Hdj Hx8 Hy8 Hx Hy. rewrite Nat2Z.id.
  edestruct (for_up_total (λ i m', m' = put (put m a (take (Z.to_nat i) y)) b (take (Z.to_nat i) x)))
    with (n := length x) (lo := 0) (s := m) as (m' & -> & ->);
    [|done|by rewrite !firstn_all2 by lia].
  intros i m' Hi ->. set (k := Z.to_nat i). replace i with (Z.of_nat k) by lia.
  destruct (lookup_lt_is_Some_2 x k) as [u Hu]; [lia|].
  destruct (lookup_lt_is_Some_2 y k) as [v Hv]; [lia|].
  assert (length (take k x) = k ∧ length (take k y) = k) as [Lx Ly] by (rewrite !length_take; lia).
  set (m1 := put (put m a (take k y)) b (take k x)).
  assert (m1 !! (a + Z.of_nat k) = Some u) as Ha.
  { unfold m1. rewrite !put_lookup, !decide_False by (destruct Hdj; lia). by apply Hx. }
  assert (m1 !! (b + Z.of_nat k) = Some v) as Hb.
  { unfold m1. rewrite !put_lookup, !decide_False by (destruct Hdj; lia). by apply Hy. }
  rewrite (rd_spec m1 (a + _) u), (rd_spec m1 (b + _) v) by (done || (split; lia)). cbn [mbind res_bind].
  rewrite wr_spec by first [split; lia|by eexists]. cbn [mbind res_bind].
  rewrite wr_spec by first [split; lia|rewrite lookup_insert_ne by (destruct Hdj; lia); by eexists].
  eexists. split; [done|]. replace (Z.to_nat (Z.of_nat k + 1)) with (S k) by lia.
  rewrite (u8_small u), (u8_small v) by first [exact (Forall_lookup_1 _ _ _ _ Hx8 Hu)
    |exact (Forall_lookup_1 _ _ _ _ Hy8 Hv)].
  rewrite (take_S_r x k u), (take_S_r y k v), !put_snoc, Lx, Ly by done. f_equal.
  unfold m1. apply map_eq. intros z.
  destruct (decide (z = a + Z.of_nat k)) as [->|Hne].
  - rewrite lookup_insert_eq, put_lookup, decide_False, lookup_insert_eq by (destruct Hdj; lia). done.
  - rewrite lookup_insert_ne, !put_lookup by done. case_decide; [done|].
    by rewrite lookup_insert_ne, put_lookup by done.
Qed.

(** The bytes outside the array are the same. *)
Definition outside (a n : Z) (m m' : store) : Prop :=
  ∀ k, k < a ∨ a + n ≤ k → m' !! k = m !! k.

Lemma do_swap_spec m a size l i j : arr m a size l → valid l i → valid l j → i ≠ j →
  ∃ m', do_swap m a i j size = Ok m' ∧ arr m' a size (swap1 l i j) ∧
    outside a (size * Z.of_nat (length l)) m m'.
Proof.
  intros Ha Hi Hj Hne. destruct (elem_addr _ _ _ _ _ Ha Hi) as (Ei & ? & ? & ?).
  destruct (elem_addr _ _ _ _ _ Ha Hj) as (Ej & ? & ? & ?).
  destruct (arr_at1 _ _ _ _ _ Ha Hi) as [Li Bi]. destruct (arr_at1 _ _ _ _ _ Ha Hj) as [Lj Bj].
  pose proof (arr_region _ _ _ _ Ha) as (_ & Hs & Hend).
  assert (disjoint_regions (a + (i - 1) * size) size (a + (j - 1) * size) size) as Hdj.
  { destruct (Z.lt_total i j) as [H'|[H'|H']]; [left|done|right];
      pose proof (elems_apart size _ _ Hs H'); lia. }
  unfold do_swap. rewrite Ei, Ej.
  rewrite (exchange_spec m _ _ (at1 l i) (at1 l j)); [|by rewrite Li|lia|repeat split; lia|repeat split; lia|done|done|done
    |by apply (arr_bytes _ _ _ _ Ha)|by apply (arr_bytes _ _ _ _ Ha)].
  eexists. split; [done|]. split.
  - split; rewrite ?length_swap1.
    + apply Ha.
    + rewrite (swap1_perm l i j) by done. apply Ha.
    + intros k Hk. unfold valid in Hk. rewrite length_swap1 in Hk. rewrite at1_swap by done.
      destruct (elem_addr _ _ _ _ _ Ha Hk) as (_ & _ & ? & ?).
      destruct (arr_at1 _ _ _ _ _ Ha Hk) as [Lk _].
      intros p b Hp. destruct (Z.eqb_spec k i) as [->|Hki]; [|destruct (Z.eqb_spec k j) as [->|Hkj]].
      * pose proof (lookup_lt_Some _ _ _ Hp). rewrite !put_lookup.
        rewrite decide_False, decide_True by (destruct Hdj; lia). rewrite <- Hp. f_equal. lia.
      * by apply bytes_at_put.
      * pose proof (lookup_lt_Some _ _ _ Hp).
        assert (∀ i, k ≠ i → (i - 1) * size + size ≤ (k - 1) * size ∨ (k - 1) * size + size ≤ (i - 1) * size) as Hap.
        { intros i' ?. destruct (Z.lt_total i' k) as [H'|[H'|H']]; [left|lia|right]; by apply elems_apart. }
        pose proof (Hap i Hki). pose proof (Hap j Hkj).
        rewrite !put_lookup, !decide_False by lia. by apply (arr_bytes _ _ _ _ Ha).
  - intros k Hk. rewrite !put_lookup, !decide_False by lia. done.
Qed.

(** ** The heap *)

Definition child (p c : Z) : Prop := c = 2 * p ∨ c = 2 * p + 1.

Section heap.
(** [compare] compares the elements it is given the addresses of, with a
    [strcmp]-type result that orders them totally. *)
Context (compare : store → Z → Z → Z) (cmp : list Z → list Z → Z) (size : Z).

Definition le (x y : list Z) : Prop := cmp x y ≤ 0.

Record comparison : Prop := {
  compare_elems m p q x y : bytes_at m p x → bytes_at m q y →
    Z.of_nat (length x) = size → Z.of_nat (length y) = size → compare m p q = cmp x y;
  cmp_sign x y : cmp x y < 0 ↔ 0 < cmp y x;
  cmp_refl x : le x x;
  cmp_trans x y z : le x y → le y z → le x z;
}.
Hypothesis Hcmp : comparison.

Lemma cmp_flip x y : 0 < cmp x y → le y x.
Proof using Hcmp. unfold le. intros H. apply (cmp_sign Hcmp) in H. lia. Qed.

(** Every parent from [lo] on, [hole] apart, is at least its children up to
    [cnt]. *)
Definition heap_but (l : list (list Z)) (lo cnt hole : Z) : Prop :=
  ∀ p c, lo ≤ p → p ≠ hole → child p c → c ≤ cnt → le (at1 l c) (at1 l p).
Definition heap (l : list (list Z)) (lo cnt : Z) : Prop :=
  ∀ p c, lo ≤ p → child p c → c ≤ cnt → le (at1 l c) (at1 l p).

Lemma do_compare_spec m a l i j : arr m a size l → valid l i → valid l j →
  do_compare compare m a i j size = cmp (at1 l i) (at1 l j).
Proof using Hcmp.
  intros Ha Hi Hj. unfold do_compare. rewrite (proj1 (elem_addr _ _ _ _ _ Ha Hi)).
  rewrite (proj1 (elem_addr _ _ _ _ _ Ha Hj)).
  apply (compare_elems Hcmp); first [by apply (arr_bytes _ _ _ _ Ha)|eapply arr_at1; eassumption].
Qed.

(** The largest of an element and its children. *)
Lemma pick_max m a l i cnt : arr m a size l → valid l i → cnt ≤ Z.of_nat (length l) →
  let left := u32 (2 * i) in
  let right := u32 (2 * i + 1) in
  let max := i in
  let max := if (left <=? cnt) && (0 <? do_compare compare m a left max size) then left else max in
  let max := if (right <=? cnt) && (0 <? do_compare compare m a right max size) then right else max in
  2 * Z.of_nat (length l) + 1 < 2 ^ 32 →
  (max = i ∨ child i max ∧ max ≤ cnt) ∧ le (at1 l i) (at1 l max) ∧
  ∀ c, child i c → c ≤ cnt → le (at1 l c) (at1 l max).
Proof using Hcmp.
  intros Ha Hi Hc left right max0 max1 max2 Hlen. unfold valid in Hi.
  assert (left = 2 * i) as El by (apply u32_small; split; lia).
  assert (right = 2 * i + 1) as Er by (apply u32_small; split; lia).
  assert (max1 = i ∧ (left ≤ cnt → le (at1 l left) (at1 l i)) ∨
          max1 = left ∧ left ≤ cnt ∧ le (at1 l i) (at1 l left)) as H1.
  { unfold max1, max0. destruct (Z.leb_spec left cnt) as [Hle|]; cbn [andb]; [|left; split; [done|lia]].
    rewrite (do_compare_spec m a l left i) by (done || (split; lia)).
    destruct (Z.ltb_spec 0 (cmp (at1 l left) (at1 l i))); [right|left; auto].
    split_and!; [done..|]. by apply cmp_flip. }
  assert (max2 = max1 ∧ (right ≤ cnt → le (at1 l right) (at1 l max1)) ∨
          max2 = right ∧ right ≤ cnt ∧ le (at1 l max1) (at1 l right)) as H2.
  { unfold max2. destruct (Z.leb_spec right cnt) as [Hle|]; cbn [andb]; [|left; split; [done|lia]].
    rewrite (do_compare_spec m a l right max1) by (done || split; lia).
    destruct (Z.ltb_spec 0 (cmp (at1 l right) (at1 l max1))); [right|left; auto].
    split_and!; [done..|]. by apply cmp_flip. }
  clearbody max2 max1. clear max0. unfold child.
  pose proof (cmp_refl Hcmp) as Hr. pose proof (cmp_trans Hcmp) as Ht.
  destruct H1 as [[-> H1]|(-> & ? & H1)], H2 as [[-> H2]|(-> & ? & H2)];
    (split; [lia|split; [eauto|]]); intros c [->| ->] Hcc; rewrite <- ?El, <- ?Er in *; eauto.
Qed.

(** Moving the element down to its larger child leaves a hole there. *)
Lemma sift_step l lo cnt i max : cnt ≤ Z.of_nat (length l) → 1 ≤ lo ≤ i →
  valid l i → child i max → max ≤ cnt →
  heap_but l lo cnt i →
  (∀ p c, lo ≤ p → child p i → child i c → c ≤ cnt → le (at1 l c) (at1 l p)) →
  le (at1 l i) (at1 l max) → (∀ c, child i c → c ≤ cnt → le (at1 l c) (at1 l max)) →
  heap_but (swap1 l i max) lo cnt max ∧
  (∀ p c, lo ≤ p → child p max → child max c → c ≤ cnt →
     le (at1 (swap1 l i max) c) (at1 (swap1 l i max) p)).
Proof using Hcmp.
  clear Hcmp. unfold child. intros Hcnt Hlo Hi Hch Hm H1 H2 Him Hmax. unfold valid in Hi.
  assert (valid l i ∧ valid l max) as [Vi Vm] by (unfold valid; lia).
  assert (∀ k, 1 ≤ k ≤ cnt → at1 (swap1 l i max) k =
    if k =? i then at1 l max else if k =? max then at1 l i else at1 l k) as Hat.
  { intros k Hk. apply at1_swap; [done..|split; lia]. }
  split.
  - intros p c Hp Hne Hpc Hc. unfold child in Hpc. rewrite !Hat by lia.
    destruct (Z.eqb_spec p i) as [->|Hpi].
    + rewrite (proj2 (Z.eqb_neq c i)) by lia. destruct (Z.eqb_spec c max); auto.
    + rewrite (proj2 (Z.eqb_neq p max)), (proj2 (Z.eqb_neq c max)) by lia.
      destruct (Z.eqb_spec c i) as [->|]; [by apply H2|by apply H1].
  - intros p c Hp Hpm Hmc Hc. assert (p = i) as -> by lia. rewrite !Hat by lia.
    rewrite Z.eqb_refl, (proj2 (Z.eqb_neq c i)), (proj2 (Z.eqb_neq c max)) by lia.
    apply H1; unfold child; lia.
Qed.

Lemma heapify_spec m a l lo i cnt : arr m a size l → cnt ≤ Z.of_nat (length l) →
  2 * Z.of_nat (length l) + 1 < 2 ^ 32 → 1 ≤ lo ≤ i → i ≤ Z.max 1 cnt → valid l i →
  heap_but l lo cnt i →
  (∀ p c, lo ≤ p → child p i → child i c → c ≤ cnt → le (at1 l c) (at1 l p)) →
  ∃ m' l', heapify compare m a i cnt size = Ok m' ∧ arr m' a size l' ∧ shuffles (Z.max 1 cnt) l l' ∧
    outside a (size * Z.of_nat (length l)) m m' ∧ heap l' lo cnt.
Proof using Hcmp.
  intros Ha Hcnt Hlen Hlo Hi Hv HB HP. unfold heapify.
  edestruct (loop_total (λ k '(m', i'), ∃ l', arr m' a size l' ∧ shuffles (Z.max 1 cnt) l l' ∧
      outside a (size * Z.of_nat (length l)) m m' ∧ lo ≤ i' ≤ Z.max 1 cnt ∧ valid l' i' ∧
      k = Z.to_nat (cnt - i') ∧ heap_but l' lo cnt i' ∧
      ∀ p c, lo ≤ p → child p i' → child i' c → c ≤ cnt → le (at1 l' c) (at1 l' p))
    (λ m', ∃ l', arr m' a size l' ∧ shuffles (Z.max 1 cnt) l l' ∧
      outside a (size * Z.of_nat (length l)) m m' ∧ heap l' lo cnt))
    with (n := S (Z.to_nat cnt)) (k := Z.to_nat (cnt - i)) (s := (m, i))
    as (m' & -> & l' & HQ); last (by exists m', l').
  2:{ exists l. split_and!; try done; try lia. apply shuffles_refl. }
  2:{ lia. }
  destruct Hlo as [Hlo _]. clear i Ha Hi Hv HB HP.
  intros k [m' i] (l' & Ha & Hsh & Ho & Hi & Hv & -> & HB & HP).
  assert (length l' = length l) as El by (by rewrite (proj1 Hsh)).
  destruct (pick_max m' a l' i cnt) as (Hm & Him & Hch); rewrite ?El; try done.
  cbv zeta. match type of Him with le _ (at1 _ ?x) => set (max := x) in * end. clearbody max.
  destruct (Z.eqb_spec max i) as [->|Hne].
  { eexists. split; [done|]. cbn. exists l'. split_and!; try done. intros p c Hp Hpc Hc.
    destruct (decide (p = i)) as [->|]; [by apply Hch|by apply HB]. }
  destruct Hm as [|[Hpc Hmc]]; [done|].
  assert (i < max) by (unfold child in Hpc; lia).
  destruct (do_swap_spec m' a size l' i max) as (m2 & -> & Ha2 & Ho2); [done..|unfold valid; lia|lia|].
  cbn. eexists. split; [done|]. cbn. exists (Z.to_nat (cnt - max)). split; [lia|].
  destruct (sift_step l' lo cnt i max) as [HB' HP']; rewrite ?El; try done; [lia|].
  exists (swap1 l' i max). split_and!; try done; try lia.
  - eapply shuffles_trans; [done|]. apply shuffles_swap; lia.
  - intros z Hz. rewrite Ho2 by (by rewrite El). by apply Ho.
  - split; rewrite ?length_swap1; lia.
Qed.

(** The root of a heap is its largest element. *)
Lemma heap_root l cnt j : heap l 1 cnt → 1 ≤ j ≤ cnt → le (at1 l j) (at1 l 1).
Proof using Hcmp.
  intros Hh. remember (Z.to_nat j) as n eqn:Hn. revert j Hn.
  induction (lt_wf n) as [n _ IH]. intros j -> Hj.
  destruct (decide (j = 1)) as [->|]; [apply (cmp_refl Hcmp)|].
  assert (1 ≤ j / 2 < j ∧ child (j / 2) j) as [Hd Hc] by (unfold child; Z.div_mod_to_equations; lia).
  eapply (cmp_trans Hcmp); [apply (Hh (j / 2) j); [lia|done|lia]|].
  apply (IH (Z.to_nat (j / 2))); lia.
Qed.

(** ** The two phases of the sort *)

Lemma build_heap m a l : arr m a size l → 2 * Z.of_nat (length l) + 1 < 2 ^ 32 →
  let cnt := Z.of_nat (length l) in
  ∃ m' l', for_up (Z.to_nat (cnt / 2)) 0 (λ k m, heapify compare m a (cnt / 2 - k) cnt size) m = Ok m' ∧
    arr m' a size l' ∧ l' ≡ₚ l ∧ outside a (size * cnt) m m' ∧ heap l' 1 cnt.
Proof using Hcmp.
  intros Ha Hlen cnt.
  assert (0 ≤ cnt / 2 ∧ 2 * (cnt / 2) ≤ cnt < 2 * (cnt / 2) + 2) as Hh by (unfold cnt; Z.div_mod_to_equations; lia).
  set (h := cnt / 2) in *. clearbody h.
  edestruct (for_up_total (λ k m', ∃ l', arr m' a size l' ∧ l' ≡ₚ l ∧
      outside a (size * cnt) m m' ∧ heap l' (h - k + 1) cnt))
    with (n := Z.to_nat h) (lo := 0) (s := m) as (m' & -> & l' & Ha' & Hp & Ho & Hheap).
  - intros k m' Hk (l' & Ha' & Hp & Ho & Hheap). assert (length l' = length l) as El by (by rewrite Hp).
    destruct (heapify_spec m' a l' (h - k) (h - k) cnt) as (m2 & l2 & -> & Ha2 & Hs2 & Ho2 & Hh2);
      unfold valid; rewrite ?El; try done; try lia.
    + intros p c Hp1 Hne. apply Hheap. lia.
    + unfold child. lia.
    + rewrite El in Ho2. eexists. split; [done|]. exists l2. split_and!; try done.
      * etrans; [apply Hs2|done].
      * intros z Hz. rewrite Ho2 by done. by apply Ho.
      * by replace (h - (k + 1) + 1) with (h - k) by lia.
  - exists l. split_and!; try done. unfold heap, child. lia.
  - exists m', l'. split_and!; try done. intros p c Hp1. apply Hheap. lia.
Qed.

(** The elements after the first [i] are in order and not less than these. *)
Definition tail_sorted (l : list (list Z)) (i : Z) : Prop :=
  ∀ j k, 1 ≤ j → i < k → j ≤ k → k ≤ Z.of_nat (length l) → le (at1 l j) (at1 l k).

Lemma extract_step m a l i : arr m a size l → 2 * Z.of_nat (length l) + 1 < 2 ^ 32 →
  2 ≤ i ≤ Z.of_nat (length l) → heap l 1 i → tail_sorted l i →
  ∃ m' l', (m ← do_swap m a 1 i size; heapify compare m a 1 (i - 1) size) = Ok m' ∧
    arr m' a size l' ∧ l' ≡ₚ l ∧ outside a (size * Z.of_nat (length l)) m m' ∧
    heap l' 1 (i - 1) ∧ tail_sorted l' (i - 1).
Proof using Hcmp.
  intros Ha Hlen Hi Hh Ht. assert (valid l 1 ∧ valid l i) as [V1 Vi] by (unfold valid; lia).
  destruct (do_swap_spec m a size l 1 i) as (m1 & -> & Ha1 & Ho1); [done..|lia|]. cbn [mbind res_bind].
  set (l1 := swap1 l 1 i) in *. assert (length l1 = length l) as El by apply length_swap1.
  assert (∀ k, valid l k → at1 l1 k = if k =? 1 then at1 l i else if k =? i then at1 l 1 else at1 l k) as Hat.
  { intros k Hk. by apply at1_swap. }
  destruct (heapify_spec m1 a l1 1 1 (i - 1)) as (m2 & l2 & -> & Ha2 & (Hp2 & Hin & Hout) & Ho2 & Hh2);
    unfold valid, child; rewrite ?El; try done; try lia.
  { intros p c Hp Hne Hpc Hc. unfold child in Hpc. rewrite !Hat by (split; lia).
    rewrite !(proj2 (Z.eqb_neq _ _)) by lia. apply Hh; unfold child; lia. }
  exists m2, l2. split; [done|]. split; [done|]. split; [|split; [|split; [done|]]].
  { rewrite Hp2. by apply swap1_perm. }
  { intros z Hz. rewrite Ho2 by (by rewrite El). by apply Ho1. }
  assert (length l2 = length l) as El2 by (rewrite <- El; by rewrite Hp2).
  rewrite Z.max_r in Hin, Hout by lia.
  assert (∀ k, i ≤ k → valid l k → at1 l2 k = if k =? i then at1 l 1 else at1 l k) as Hat2.
  { intros k Hk Hv. rewrite Hout, Hat by (unfold valid in *; rewrite ?El; lia).
    by rewrite (proj2 (Z.eqb_neq k 1)) by lia. }
  assert (∀ j, 1 ≤ j < i → ∃ j', 1 ≤ j' ≤ i ∧ at1 l2 j = at1 l j') as Hlow.
  { intros j Hj. destruct (Hin j) as (j' & Hj' & ->); [lia|]. rewrite Hat by (unfold valid; lia).
    rewrite (proj2 (Z.eqb_neq j' i)) by lia.
    destruct (j' =? 1); [exists i|exists j']; split; done || lia. }
  intros j k Hj Hk Hjk Hkl. rewrite El2 in Hkl. rewrite (Hat2 k) by (unfold valid; lia).
  destruct (Z.lt_ge_cases j i) as [Hji|Hji].
  - destruct (Hlow j) as (j' & Hj' & ->); [lia|]. destruct (Z.eqb_spec k i) as [->|].
    + apply (heap_root l i); [done|lia].
    + apply Ht; lia.
  - rewrite Hat2 by (unfold valid; lia). destruct (Z.eqb_spec k i), (Z.eqb_spec j i); try lia.
    + apply (cmp_refl Hcmp).
    + apply Ht; lia.
    + apply Ht; lia.
Qed.

Lemma extract_all m a l : arr m a size l → 2 * Z.of_nat (length l) + 1 < 2 ^ 32 →
  let cnt := Z.of_nat (length l) in
  heap l 1 cnt →
  ∃ m' l', for_up (Z.to_nat (cnt - 1)) 0 (λ k m,
      let i := cnt - k in
      m ← do_swap m a 1 i size;
      heapify compare m a 1 (i - 1) size) m = Ok m' ∧
    arr m' a size l' ∧ l' ≡ₚ l ∧ outside a (size * cnt) m m' ∧ tail_sorted l' 1.
Proof using Hcmp.
  intros Ha Hlen cnt Hh.
  edestruct (for_up_total (λ k m', ∃ l', arr m' a size l' ∧ l' ≡ₚ l ∧
      outside a (size * cnt) m m' ∧ heap l' 1 (cnt - k) ∧ tail_sorted l' (cnt - k)))
    with (n := Z.to_nat (cnt - 1)) (lo := 0) (s := m)
    as (m' & Heq & l' & Ha' & Hp & Ho & _ & Ht).
  - intros k m' Hk (l' & Ha' & Hp & Ho & Hh' & Ht). assert (length l' = length l) as El by (by rewrite Hp).
    destruct (extract_step m' a l' (cnt - k)) as (m2 & l2 & Heq & Ha2 & Hp2 & Ho2 & Hh2 & Ht2);
      rewrite ?El; try done; try lia.
    exists m2. split; [exact Heq|]. exists l2. rewrite El in Ho2. fold cnt in Ho2.
    replace (cnt - (k + 1)) with (cnt - k - 1) by lia. split_and!; try done.
    + by rewrite Hp2.
    + intros z Hz. rewrite Ho2 by done. by apply Ho.
  - exists l. rewrite Z.sub_0_r. split_and!; try done. intros j k. fold cnt. lia.
  - exists m', l'. split_and!; try done. intros j k Hj Hk. apply Ht; [done|].
    lia.
Qed.

Lemma strongly_sorted_lookup (R : list Z → list Z → Prop) l :
  StronglySorted R l ↔ ∀ i j x y, (i < j)%nat → l !! i = Some x → l !! j = Some y → R x y.
Proof.
  induction l as [|z l IH]; split.
  - done.
  - constructor.
  - intros [Hl Hz]%StronglySorted_inv i j x y Hij Hx Hy. destruct j as [|j]; [lia|].
    destruct i as [|i]; cbn in *; [|by eapply (proj1 IH Hl i j); [lia|..]].
    simplify_eq. rewrite Forall_forall in Hz. by eapply Hz, list_elem_of_lookup_2.
  - intros H. constructor.
    + apply IH. intros i j x y Hij Hx Hy. by apply (H (S i) (S j)); [lia|..].
    + apply Forall_lookup_2. intros i x Hx. by apply (H O (S i)); [lia|..].
Qed.

Lemma lookup_at1 l i x : l !! i = Some x → x = at1 l (Z.of_nat i + 1) ∧ valid l (Z.of_nat i + 1).
Proof.
  intros Hx. pose proof (lookup_lt_Some _ _ _ Hx). unfold at1, valid. split; [|lia].
  replace (Z.to_nat _) with i by lia. symmetry. by apply list_lookup_total_correct.
Qed.

Lemma sort_spec m a l : arr m a size l → 2 * Z.of_nat (length l) + 1 < 2 ^ 32 →
  ∃ m' l', sort compare m a (Z.of_nat (length l)) size = Ok m' ∧
    arr m' a size l' ∧ l' ≡ₚ l ∧ StronglySorted le l' ∧
    outside a (size * Z.of_nat (length l)) m m'.
Proof using Hcmp.
  intros Ha Hlen. unfold sort. pose proof (arr_region _ _ _ _ Ha) as ((? & _) & Hs & _).
  rewrite (proj2 (Z.eqb_neq a 0)), (proj2 (Z.ltb_lt 0 size)) by lia. cbn [ASSERT negb orb mbind res_bind].
  destruct (build_heap m a l Ha Hlen) as (m1 & l1 & -> & Ha1 & Hp1 & Ho1 & Hh1). cbn [mbind res_bind].
  assert (length l1 = length l) as El by (by rewrite Hp1). rewrite <- El in *.
  destruct (extract_all m1 a l1 Ha1 Hlen Hh1) as (m2 & l2 & Heq & Ha2 & Hp2 & Ho2 & Ht).
  exists m2, l2. split; [exact Heq|]. split_and!; try done.
  - by rewrite Hp2.
  - apply strongly_sorted_lookup. intros i j x y Hij Hx Hy.
    apply lookup_at1 in Hx as [-> _]. apply lookup_at1 in Hy as [-> [_ ?]]. apply Ht; lia.
  - intros z Hz. rewrite Ho2 by done. by apply Ho1.
Qed.

(** ** Binary search *)

Lemma key_before k x y : cmp k x < 0 → le x y → cmp k y < 0.
Proof using Hcmp.
  intros Hk Hxy. destruct (Z.lt_ge_cases (cmp k y) 0) as [|Hge]; [done|]. exfalso.
  assert (le y k) by (unfold le; destruct (Z.lt_ge_cases 0 (cmp y k)) as [H|]; [apply (cmp_sign Hcmp) in H|]; lia).
  assert (le x k) by (by eapply (cmp_trans Hcmp)). apply (cmp_sign Hcmp) in Hk. unfold le in *. lia.
Qed.

Lemma key_after k x y : 0 < cmp k y → le x y → 0 < cmp k x.
Proof using Hcmp.
  intros Hk Hxy. destruct (Z.lt_ge_cases 0 (cmp k x)) as [|Hge]; [done|]. exfalso.
  assert (le k y) by (by eapply (cmp_trans Hcmp); [exact Hge|]). unfold le in *. lia.
Qed.

Lemma sorted_at1 l i j : StronglySorted le l → valid l i → valid l j → i ≤ j → le (at1 l i) (at1 l j).
Proof using Hcmp.
  intros Hs Hi Hj Hij. unfold valid in *. destruct (decide (i = j)) as [->|]; [apply (cmp_refl Hcmp)|].
  rewrite strongly_sorted_lookup in Hs. apply (Hs (Z.to_nat (i - 1)) (Z.to_nat (j - 1))); [lia|..];
    unfold at1; apply list_lookup_lookup_total_lt; lia.
Qed.

Lemma binary_search_spec m key k a l : arr m a size l → StronglySorted le l →
  bytes_at m key k → Z.of_nat (length k) = size →
  ∃ p, binary_search compare m key a (Z.of_nat (length l)) size = Ok p ∧
    ((p = 0 ∧ ∀ i, valid l i → cmp k (at1 l i) ≠ 0) ∨
     ∃ i, valid l i ∧ p = a + (i - 1) * size ∧ cmp k (at1 l i) = 0).
Proof using Hcmp.
  intros Ha Hs Hk Hkl. set (cnt := Z.of_nat (length l)). unfold binary_search.
  pose proof (arr_region _ _ _ _ Ha) as ((? & ? & _) & Hsz & Hend). fold cnt in Hend.
  rewrite (u32_small (size * cnt)), (u32_small (a + _)) by (split; c_unfold; lia).
  eapply (loop_total (λ n '(first, last), ∃ f t, first = a + f * size ∧ last = a + t * size ∧
      0 ≤ f ≤ t ∧ t ≤ cnt ∧ n = Z.to_nat (t - f) ∧
      (∀ i, 1 ≤ i ≤ f → 0 < cmp k (at1 l i)) ∧ (∀ i, t < i ≤ cnt → cmp k (at1 l i) < 0)))
    with (k := Z.to_nat cnt).
  - intros n [first last] (f & t & -> & -> & Hft & Ht & -> & Hlo & Hhi).
    destruct (Z.ltb_spec (a + f * size) (a + t * size)) as [Hlt|Hge].
    2:{ eexists. split; [done|]. cbn. left. split; [done|]. intros i [Hi1 Hi2]. assert (f = t) as -> by nia.
        destruct (Z.le_gt_cases i t); [specialize (Hlo i)|specialize (Hhi i)]; lia. }
    assert (f < t) as Hltt by nia. assert (t * size ≤ size * cnt) by nia.
    replace (a + t * size - (a + f * size)) with ((t - f) * size) by lia.
    assert (u32 (s32 ((t - f) * size)) = (t - f) * size) as ->.
    { assert (0 ≤ (t - f) * size ≤ size * cnt) by nia. c_lia. }
    rewrite Z.div_mul by lia. set (h := (t - f) / 2).
    assert (0 ≤ h < t - f) as Hh by (unfold h; Z.div_mod_to_equations; lia).
    assert (0 ≤ h * size ∧ (f + h) * size + size ≤ size * cnt) as [? ?] by nia.
    rewrite (u32_small (h * size)), (u32_small (a + _ + _)) by (split; c_unfold; nia).
    replace (a + f * size + h * size) with (a + (f + h + 1 - 1) * size) by lia.
    assert (valid l (f + h + 1)) as Hv by (unfold valid; lia).
    rewrite (compare_elems Hcmp m key _ k (at1 l (f + h + 1)));
      [|done|by apply (arr_bytes _ _ _ _ Ha)|done|by eapply arr_at1].
    cbv zeta. destruct (Z.ltb_spec (cmp k (at1 l (f + h + 1))) 0) as [Hneg|Hnneg];
      [|destruct (Z.ltb_spec 0 (cmp k (at1 l (f + h + 1)))) as [Hpos|]]; eexists; (split; [done|]).
    + exists (Z.to_nat h). split; [lia|]. exists f, (f + h). split_and!; try done; try lia.
      intros i Hi. eapply key_before; [exact Hneg|]. apply sorted_at1; unfold valid; done || lia.
    + exists (Z.to_nat (t - (f + h + 1))). split; [lia|]. exists (f + h + 1), t.
      rewrite u32_small by (split; c_unfold; nia). split_and!; try done; try lia.
      intros i Hi. eapply key_after; [exact Hpos|]. apply sorted_at1; unfold valid; done || lia.
    + cbn. right. exists (f + h + 1). split_and!; [done|lia..].
  - exists 0, cnt. split_and!; lia.
  - lia.
Qed.
End heap.

(** ** The library's promises *)

(** Heap sort is correct: with a comparison function that orders the
    elements totally, [sort] terminates with a permutation of the array's
    elements in non-decreasing order, and changes no byte outside the
    array. *)
Theorem sort_correct (compare : store → Z → Z → Z) (cmp : list Z → list Z → Z) (size : Z)
    (m : store) (a : Z) (l : list (list Z)) :
  comparison compare cmp size → arr m a size l → 2 * Z.of_nat (length l) + 1 < 2 ^ 32 →
  ∃ m' l', sort compare m a (Z.of_nat (length l)) size = Ok m' ∧
    arr m' a size l' ∧ l' ≡ₚ l ∧ StronglySorted (le cmp) l' ∧
    outside a (size * Z.of_nat (length l)) m m'.
Proof. intros Hc. by apply sort_spec. Qed.

(** [binary_search] on a sorted array terminates; it returns the address
    of an element equal to the key, or null when no element is. *)
Theorem binary_search_correct (compare : store → Z → Z → Z) (cmp : list Z → list Z → Z) (size : Z)
    (m : store) (key : Z) (k : list Z) (a : Z) (l : list (list Z)) :
  comparison compare cmp size → arr m a size l → StronglySorted (le cmp) l →
  bytes_at m key k → Z.of_nat (length k) = size →
  ∃ p, binary_search compare m key a (Z.of_nat (length l)) size = Ok p ∧
    ((p = 0 ∧ ∀ i, valid l i → cmp k (at1 l i) ≠ 0) ∨
     ∃ i, valid l i ∧ p = a + (i - 1) * size ∧ cmp k (at1 l i) = 0).
Proof. intros Hc. by apply binary_search_spec. Qed.

(** An array of bytes, compared as unsigned numbers. *)
Definition byte_compare (m : store) (p q : Z) : Z := default 0 (m !! p) - default 0 (m !! q).
Definition byte_cmp (x y : list Z) : Z := x !!! O - y !!! O.

Lemma byte_comparison : comparison byte_compare byte_cmp 1.
Proof.
  split; unfold byte_cmp, le; try lia.
  intros m p q [|x [|? ?]] [|y [|? ?]] Hx Hy Lx Ly; cbn in Lx, Ly; try lia.
  unfold byte_compare. specialize (Hx O x eq_refl). specialize (Hy O y eq_refl).
  rewrite Z.add_0_r in Hx, Hy. by rewrite Hx, Hy.
Qed.

Definition demo_array : store := put ∅ 100 [3; 1; 2].

Lemma demo_arr : arr demo_array 100 1 [[3]; [1]; [2]].
Proof.
  split.
  - cbn. repeat split; lia.
  - repeat constructor; c_unfold; lia.
  - intros i Hi. unfold valid in Hi. cbn in Hi.
    assert (i = 1 ∨ i = 2 ∨ i = 3) as [->|[->| ->]] by lia;
      (intros [|j] b Hj; [|by destruct j]); exact (eq_trans eq_refl Hj).
Qed.

Lemma sort_witness : ∃ m' l', sort byte_compare demo_array 100 3 1 = Ok m' ∧
  arr m' 100 1 l' ∧ l' ≡ₚ [[3]; [1]; [2]] ∧ StronglySorted (le byte_cmp) l' ∧
  outside 100 3 demo_array m'.
Proof.
  apply (sort_correct byte_compare byte_cmp 1 demo_array 100 [[3]; [1]; [2]]);
    [exact byte_comparison|exact demo_arr|cbn; lia].
Defined.

Definition demo_sorted : store := put ∅ 100 [1; 2; 3].

Lemma demo_sorted_arr : arr demo_sorted 100 1 [[1]; [2]; [3]].
Proof.
  split.
  - cbn. repeat split; lia.
  - repeat constructor; c_unfold; lia.
  - intros i Hi. unfold valid in Hi. cbn in Hi.
    assert (i = 1 ∨ i = 2 ∨ i = 3) as [->|[->| ->]] by lia;
      (intros [|j] b Hj; [|by destruct j]); exact (eq_trans eq_refl Hj).
Qed.

Lemma binary_search_witness :
  ∃ p, binary_search byte_compare demo_sorted 101 100 3 1 = Ok p ∧
    ((p = 0 ∧ ∀ i, valid [[1]; [2]; [3]] i → byte_cmp [2] (at1 [[1]; [2]; [3]] i) ≠ 0) ∨
     ∃ i, valid [[1]; [2]; [3]] i ∧ p = 100 + (i - 1) * 1 ∧ byte_cmp [2] (at1 [[1]; [2]; [3]] i) = 0).
Proof.
  apply (binary_search_correct byte_compare byte_cmp 1 demo_sorted 101 [2] 100 [[1]; [2]; [3]]);
    [exact byte_comparison|exact demo_sorted_arr| | |done].
  - repeat constructor; unfold le, byte_cmp; cbn; lia.
  - exact (arr_bytes _ _ _ _ demo_sorted_arr 2 ltac:(split; cbn; lia)).
Defined.
