(* ===== verification/Stdio.v ===== *)
(** * lib/stdio.c, and [atoi] of lib/stdlib.c

    The formatting engine of [printf] and the functions built on it.  The
    [output] function of the caller acts on auxiliary data of any type [A];
    [mem] is the memory that a load sees in a state of [A].  A format string
    is the list of the bytes of its object from the current position on, so
    that a read past its last byte is a fault.  A [va_list] is the list of
    the 32-bit words that are left of the arguments on the stack. *)

From Stdlib Require Import Ascii.
From S2P Require Import Prelude Str.

(** Characters: the bytes of a literal, with and without its null byte. *)
Definition chars (s : string) : list Z :=
  (λ c, Z.of_N (Ascii.N_of_ascii c)) <$> String.list_ascii_of_string s.
Definition lit (s : string) : list Z := chars s ++ [0].
Definition ch (c : Ascii.ascii) : Z := Z.of_N (Ascii.N_of_ascii c).
Arguments ch c%_char.

(** ** lib/ctype.h *)

Definition isdigit (c : Z) : bool := (ch "0" <=? c) && (c <=? ch "9").
Definition isspace (c : Z) : bool :=
  (c =? ch " ") || (c =? 12) || (c =? 10) || (c =? 13) || (c =? 9) || (c =? 11).
Definition isprint (c : Z) : bool := (32 <=? c) && (c <? 127).

(** ** [atoi]

    A byte from 128 on is a negative [char]: no digit and no sign. *)

Definition atoi (m : store) (s : Z) : res Z :=
  _ ← nonnull s;
  s ← loop (steps m) (λ s,
    x ← rd m s;
    Ok (if isspace x then inl (u32 (s + 1)) else inr s)) s;
  x ← rd m s;
  let '(negative, s) := if x =? ch "+" then (false, u32 (s + 1))
                        else if x =? ch "-" then (true, u32 (s + 1))
                        else (false, s) in
  value ← loop (steps m) (λ '(s, value),
    x ← rd m s;
    Ok (if isdigit x then inl (u32 (s + 1), s32 (value * 10 - (x - ch "0")))
        else inr value)) (s, 0);
  Ok (if negb negative then s32 (- value) else value).

(** ** Conversions *)

Definition MINUS : Z := 1.
Definition PLUS : Z := 2.
Definition SPACE : Z := 4.
Definition POUND : Z := 8.
Definition ZERO : Z := 16.
Definition GROUP : Z := 32.

Inductive int_type := CHAR | SHORT | INT | INTMAX | LONG | LONGLONG | PTRDIFFT | SIZET.

Record printf_conversion := Conversion {
  flags : Z;
  width : Z;
  precision : Z;
  type : int_type;
}.

Record integer_base := Base {
  base : Z;
  digits : list Z;
  x : Z;
  group : Z;
}.

Definition base_d : integer_base := Base 10 (lit "0123456789") 0 3.
Definition base_o : integer_base := Base 8 (lit "01234567") 0 3.
Definition base_x : integer_base := Base 16 (lit "0123456789abcdef") (ch "x") 4.
Definition base_X : integer_base := Base 16 (lit "0123456789ABCDEF") (ch "X") 4.

(** [c->flags & f] as a condition *)
Definition has (flags f : Z) : bool := negb (Z.land flags f =? 0).

(** [*format], and the format after it. *)
Definition peek (format : list Z) : res Z := deref (head format).
Definition next (format : list Z) : res (list Z) := _ ← peek format; Ok (tail format).

(** [va_arg] for the types of one and of two words. *)
Definition va_list := list Z.
Definition va_word (args : va_list) : res (Z * va_list) :=
  match args with [] => Err EFault | w :: args => Ok (u32 w, args) end.
Definition va_int (args : va_list) : res (Z * va_list) :=
  '(w, args) ← va_word args; Ok (s32 w, args).
Definition va_uint64 (args : va_list) : res (Z * va_list) :=
  '(lo, args) ← va_word args;
  '(hi, args) ← va_word args;
  Ok (lo + Z.shiftl hi 32, args).
Definition va_int64 (args : va_list) : res (Z * va_list) :=
  '(v, args) ← va_uint64 args; Ok (s64 v, args).

Definition flag_of (c : Z) : option Z :=
  if c =? ch "-" then Some MINUS
  else if c =? ch "+" then Some PLUS
  else if c =? ch " " then Some SPACE
  else if c =? ch "#" then Some POUND
  else if c =? ch "0" then Some ZERO
  else if c =? ch "'" then Some GROUP
  else None.

Definition parse_flags (format : list Z) : res (list Z * Z) :=
  '(format, flags) ← loop (S (length format)) (λ '(format, flags),
    c ← peek format;
    Ok (match flag_of c with
        | Some f => inl (tail format, Z.lor flags f)
        | None => inr (format, flags)
        end)) (format, 0);
  let flags := if has flags MINUS then Z.land flags (Z.lnot ZERO) else flags in
  let flags := if has flags PLUS then Z.land flags (Z.lnot SPACE) else flags in
  Ok (format, flags).

(** The loop over the decimal digits of a width or a precision. *)
Definition parse_number (format : list Z) : res (list Z * Z) :=
  loop (S (length format)) (λ '(format, n),
    c ← peek format;
    Ok (if isdigit c then inl (tail format, s32 (n * 10 + c - ch "0"))
        else inr (format, n))) (format, 0).

Definition parse_width (format : list Z) (args : va_list) : res (list Z * Z * va_list) :=
  c ← peek format;
  if c =? ch "*" then
    '(w, args) ← va_int args;
    Ok (tail format, w, args)
  else
    '(format, w) ← parse_number format;
    Ok (format, w, args).

Definition parse_precision (format : list Z) (args : va_list) : res (list Z * Z * va_list) :=
  c ← peek format;
  if c =? ch "." then
    let format := tail format in
    c ← peek format;
    '(format, precision, args) ←
      (if c =? ch "*" then
         '(p, args) ← va_int args;
         Ok (tail format, p, args)
       else
         '(format, p) ← parse_number format;
         Ok (format, p, args));
    Ok (format, if precision <? 0 then -1 else precision, args)
  else Ok (format, -1, args).

Definition parse_type (format : list Z) : res (list Z * int_type) :=
  c ← peek format;
  let format' := tail format in
  if c =? ch "h" then
    c ← peek format';
    Ok (if c =? ch "h" then (tail format', CHAR) else (format', SHORT))
  else if c =? ch "j" then Ok (format', INTMAX)
  else if c =? ch "l" then
    c ← peek format';
    Ok (if c =? ch "l" then (tail format', LONGLONG) else (format', LONG))
  else if c =? ch "t" then Ok (format', PTRDIFFT)
  else if c =? ch "z" then Ok (format', SIZET)
  else Ok (format, INT).

Definition parse_conversion (format : list Z) (args : va_list)
    : res (list Z * printf_conversion * va_list) :=
  '(format, flags) ← parse_flags format;
  '(format, width, args) ← parse_width format args;
  let '(width, flags) := if width <? 0 then (s32 (- width), Z.lor flags MINUS)
                         else (width, flags) in
  '(format, precision, args) ← parse_precision format args;
  let flags := if 0 <=? precision then Z.land flags (Z.lnot ZERO) else flags in
  '(format, type) ← parse_type format;
  Ok (format, Conversion flags width precision type, args).

(** The argument of a signed and of an unsigned conversion. *)
Definition signed_arg (t : int_type) (args : va_list) : res (Z * va_list) :=
  match t with
  | CHAR => '(w, args) ← va_int args; Ok (swrap 8 w, args)
  | SHORT => '(w, args) ← va_int args; Ok (swrap 16 w, args)
  | INT | LONG | PTRDIFFT => va_int args
  | INTMAX | LONGLONG => va_int64 args
  | SIZET =>
      '(value, args) ← va_word args;
      Ok (if 4294967295 / 2 <? value then value - 4294967295 - 1 else value, args)
  end.

Definition unsigned_arg (t : int_type) (args : va_list) : res (Z * va_list) :=
  match t with
  | CHAR => '(w, args) ← va_word args; Ok (wrap 8 w, args)
  | SHORT => '(w, args) ← va_word args; Ok (wrap 16 w, args)
  | INT | LONG | SIZET => va_word args
  | INTMAX | LONGLONG => va_uint64 args
  | PTRDIFFT =>
      '(w, args) ← va_int args;
      Ok (Z.land (u64 w) (Z.lor (Z.shiftl 2147483647 1) 1), args)
  end.

(** A string to print: one in memory, or the bytes of a variable or a
    literal. *)
Inductive text := Ptr (p : Z) | Local (l : list Z).

(** The part of [format_integer] that fills [buf]; [cp - buf] is the length
    of the list, whose last element is [cp[-1]]. *)
Definition BUF : nat := 64.
Definition put_char (buf : list Z) (c : Z) : res (list Z) :=
  if (length buf <? BUF)%nat then Ok (buf ++ [c]) else Err EFault.

Definition digits_buf (value : Z) (b : integer_base) (c : printf_conversion) : res (list Z) :=
  '(buf, _) ← loop (S BUF) (λ '(value, buf, digit_cnt),
    if 0 <? value then
      buf ← (if has (flags c) GROUP && (0 <? digit_cnt) && (Z.rem digit_cnt (group b) =? 0)
             then put_char buf (ch ",") else Ok buf);
      d ← deref (digits b !! Z.to_nat (value mod base b));
      buf ← put_char buf d;
      Ok (inl (value / base b, buf, digit_cnt + 1))
    else Ok (inr (buf, digit_cnt))) (value, [], 0);
  let precision := if precision c <? 0 then 1 else precision c in
  buf ← loop (S BUF) (λ buf,
    if (Z.of_nat (length buf) <? precision) && (length buf <? BUF - 1)%nat
    then buf ← put_char buf (ch "0"); Ok (inl buf)
    else Ok (inr buf)) buf;
  if has (flags c) POUND && (base b =? 8)
     && (bool_decide (buf = []) || negb (bool_decide (last buf = Some (ch "0"))))
  then put_char buf (ch "0") else Ok buf.

Section output.
Context {A : Type} (mem : A → store) (output : Z → A → res A).

Definition output_dup (ch cnt : Z) (s : A) : res A :=
  for_up (Z.to_nat cnt) 0 (λ _, output ch) s.

(** The loop that prints the buffer backwards. *)
Fixpoint output_buf (buf : list Z) (s : A) : res A :=
  match buf with
  | [] => Ok s
  | c :: buf => s ← output_buf buf s; output c s
  end.

Definition format_integer (value : Z) (is_signed negative : bool) (b : integer_base)
    (c : printf_conversion) (s : A) : res A :=
  let sign := if is_signed then
                if has (flags c) PLUS then if negative then ch "-" else ch "+"
                else if has (flags c) SPACE then if negative then ch "-" else ch " "
                else if negative then ch "-" else 0
              else 0 in
  let x := if has (flags c) POUND && negb (value =? 0) then x b else 0 in
  buf ← digits_buf value b c;
  let pad_cnt := s32 (width c - Z.of_nat (length buf) - (if x =? 0 then 0 else 2)
                      - (if sign =? 0 then 0 else 1)) in
  let pad_cnt := if pad_cnt <? 0 then 0 else pad_cnt in
  s ← (if Z.land (flags c) (Z.lor MINUS ZERO) =? 0 then output_dup (ch " ") pad_cnt s else Ok s);
  s ← (if negb (sign =? 0) then output sign s else Ok s);
  s ← (if negb (x =? 0) then s ← output (ch "0") s; output x s else Ok s);
  s ← (if has (flags c) ZERO then output_dup (ch "0") pad_cnt s else Ok s);
  s ← output_buf buf s;
  (if has (flags c) MINUS then output_dup (ch " ") pad_cnt s else Ok s).

Definition text_at (t : text) (i : Z) (s : A) : res Z :=
  match t with
  | Ptr p => rd (mem s) (p + i)
  | Local l => deref (l !! Z.to_nat i)
  end.

Definition format_string (string : text) (length : Z) (c : printf_conversion) (s : A) : res A :=
  s ← (if (length <? width c) && negb (has (flags c) MINUS)
       then output_dup (ch " ") (width c - length) s else Ok s);
  s ← for_up (Z.to_nat length) 0 (λ i s, x ← text_at string i s; output x s) s;
  (if (length <? width c) && has (flags c) MINUS
   then output_dup (ch " ") (width c - length) s else Ok s).

(** A conversion of [__vprintf], from the character after the percent sign
    on; the result is the format before the loop's [format++].  [again] is
    the call of [__printf]. *)
Definition conversion (again : list Z → va_list → A → res A)
    (format : list Z) (args : va_list) (s : A) : res (list Z * va_list * A) :=
  '(format, c, args) ← parse_conversion format args;
  k ← peek format;
  if (k =? ch "d") || (k =? ch "i") then
    '(value, args) ← signed_arg (type c) args;
    s ← format_integer (u64 (if value <? 0 then - value else value)) true (value <? 0) base_d c s;
    Ok (format, args, s)
  else if (k =? ch "o") || (k =? ch "u") || (k =? ch "x") || (k =? ch "X") then
    '(value, args) ← unsigned_arg (type c) args;
    let b := if k =? ch "o" then base_o else if k =? ch "u" then base_d
             else if k =? ch "x" then base_x else base_X in
    s ← format_integer value false false b c s;
    Ok (format, args, s)
  else if k =? ch "c" then
    '(v, args) ← va_int args;
    s ← format_string (Local [u8 v]) 1 c s;
    Ok (format, args, s)
  else if k =? ch "s" then
    '(p, args) ← va_word args;
    let maxlen := u32 (precision c) in
    '(t, length) ← (if p =? 0
      then Ok (Local (lit "(null)"), if maxlen <? 6 then maxlen else 6)
      else n ← strnlen (mem s) p maxlen; Ok (Ptr p, n));
    s ← format_string t (s32 length) c s;
    Ok (format, args, s)
  else if k =? ch "p" then
    '(p, args) ← va_word args;
    s ← format_integer p false false base_x (Conversion POUND (width c) (precision c) (type c)) s;
    Ok (format, args, s)
  else if (k =? ch "f") || (k =? ch "e") || (k =? ch "E") || (k =? ch "g") || (k =? ch "G")
          || (k =? ch "n") then
    s ← again (lit "<<no %%%c in kernel>>") [k] s;
    Ok (format, args, s)
  else
    s ← again (lit "<<no %%%c conversion>>") [k] s;
    Ok (format, args, s).

(** One round of the loop of [__vprintf]. *)
Definition vprintf_step (again : list Z → va_list → A → res A)
    (st : list Z * va_list * A) : res (list Z * va_list * A + A) :=
  let '(format, args, s) := st in
  k ← peek format;
  if k =? 0 then Ok (inr s) else
  if negb (k =? ch "%") then
    s ← output k s;
    Ok (inl (tail format, args, s))
  else
    let format := tail format in
    k ← peek format;
    if k =? ch "%" then
      s ← output (ch "%") s;
      Ok (inl (tail format, args, s))
    else
      '(format, args, s) ← conversion again format args s;
      Ok (inl (tail format, args, s)).

Definition vprintf_loop (again : list Z → va_list → A → res A)
    (format : list Z) (args : va_list) (s : A) : res A :=
  loop (S (length format)) (vprintf_step again) (format, args, s).

(** [__vprintf] calls [__printf], and so itself, to report a conversion it
    does not know.  The formats of these calls have only conversions that
    it knows, so that one level of recursion is enough. *)
Definition __printf (format : list Z) (args : va_list) (s : A) : res A :=
  vprintf_loop (λ _ _ _, Err EFuel) format args s.
Definition __vprintf (format : list Z) (args : va_list) (s : A) : res A :=
  vprintf_loop __printf format args s.

(** [buf_] is the address of the bytes to dump. *)
Definition hex_dump (ofs buf_ size : Z) (ascii : bool) (s : A) : res A :=
  let per_line := 16 in
  let printf f args := __vprintf (lit f) args in
  loop (S (Z.to_nat size)) (λ '(ofs, buf, size, s),
    if 0 <? size then
      let start := ofs mod per_line in
      let end_ := if size <? per_line - start then start + size else per_line in
      let n := end_ - start in
      s ← printf "%08jx  " [ofs / per_line * per_line; 0] s;
      s ← for_up (Z.to_nat start) 0 (λ _, printf "   " []) s;
      s ← for_up (Z.to_nat n) start (λ i s,
        b ← rd (mem s) (buf + (i - start));
        printf "%02hhx%c" [b; if i =? per_line / 2 - 1 then ch "-" else ch " "] s) s;
      s ← (if ascii then
        s ← for_up (Z.to_nat (per_line - end_)) end_ (λ _, printf "   " []) s;
        s ← printf "|" [] s;
        s ← for_up (Z.to_nat start) 0 (λ _, printf " " []) s;
        s ← for_up (Z.to_nat n) start (λ i s,
          b ← rd (mem s) (buf + (i - start));
          printf "%c" [if isprint b then b else ch "."] s) s;
        s ← for_up (Z.to_nat (per_line - end_)) end_ (λ _, printf " " []) s;
        printf "|" [] s
      else Ok s);
      s ← printf (String (Ascii.ascii_of_nat 10) EmptyString) [] s;
      Ok (inl (u32 (ofs + n), u32 (buf + n), size - n, s))
    else Ok (inr s)) (ofs, buf_, size, s).

End output.

(** ** Output to a buffer *)

Record vsnprintf_aux := VsnprintfAux {
  heap : store;
  p : Z;
  length_ : Z;
  max_length : Z;
}.

(** The overflow of the signed [aux->length] is undefined behaviour, and a
    fault of the model. *)
Definition vsnprintf_helper (ch : Z) (aux : vsnprintf_aux) : res vsnprintf_aux :=
  let old := length_ aux in
  length ← (if old =? INT_MAX then Err EFault else Ok (old + 1));
  if old <? max_length aux then
    m ← wr (heap aux) (p aux) ch;
    Ok (VsnprintfAux m (u32 (p aux + 1)) length (max_length aux))
  else Ok (VsnprintfAux (heap aux) (p aux) length (max_length aux)).

Definition vsnprintf (m : store) (buffer buf_size : Z) (format : list Z) (args : va_list)
    : res (store * Z) :=
  let aux := VsnprintfAux m buffer 0 (if 0 <? buf_size then s32 (buf_size - 1) else 0) in
  aux ← __vprintf heap vsnprintf_helper format args aux;
  if 0 <? buf_size then
    m ← wr (heap aux) (p aux) 0;
    Ok (m, length_ aux)
  else Ok (heap aux, length_ aux).

Definition snprintf (m : store) (buffer buf_size : Z) (format : list Z) (args : va_list)
    : res (store * Z) :=
  vsnprintf m buffer buf_size format args.


(** ** What a conversion prints *)

Section emit.
Context {A : Type} (output : Z → A → res A).

(** The characters [cs], one after the other. *)
Fixpoint emit (cs : list Z) (s : A) : res A :=
  match cs with [] => Ok s | c :: cs => s ← output c s; emit cs s end.

Lemma emit_app cs cs' s : emit (cs ++ cs') s = emit cs s ≫= emit cs'.
Proof.
  revert s. induction cs as [|c cs IH]; intros s; [done|]. cbn [app emit].
  destruct (output c s); cbn; [apply IH|done].
Qed.

Lemma for_up_emit n lo c s : for_up n lo (λ _, output c) s = emit (repeat c n) s.
Proof.
  revert lo s. induction n as [|n IH]; intros lo s; [done|]. cbn.
  destruct (output c s); cbn; [apply IH|done].
Qed.

Lemma output_buf_emit buf s : output_buf output buf s = emit (rev buf) s.
Proof.
  revert s. induction buf as [|c buf IH]; intros s; [done|]. cbn [output_buf rev].
  rewrite emit_app, IH. destruct (emit (rev buf) s) as [a|]; cbn; [|done]. by destruct (output c a).
Qed.

Lemma emit_seq (m : res A) f cs cs' s :
  m = emit cs s → (∀ s, f s = emit cs' s) → m ≫= f = emit (cs ++ cs') s.
Proof. intros -> Hf. rewrite emit_app. destruct (emit cs s); [apply Hf|done]. Qed.

Lemma emit_if (b : bool) cs s : (if b then emit cs s else Ok s) = emit (if b then cs else []) s.
Proof. by destruct b. Qed.
End emit.

(** The sign, the prefix and the padding of an integer conversion. *)
Definition sign_text (is_signed negative : bool) (fl : Z) : list Z :=
  if negb is_signed then [] else
  if negative then chars "-" else
  if has fl PLUS then chars "+" else if has fl SPACE then chars " " else [].
Definition prefix_text (value : Z) (b : integer_base) (fl : Z) : list Z :=
  if has fl POUND && negb (value =? 0) && negb (x b =? 0) then [ch "0"; x b] else [].

(** What [format_integer] prints for the digits [ds], most significant
    first: blanks on the left unless the field is left-justified or filled
    with zeros, the sign, the prefix, zeros, the digits, blanks on the right. *)
Definition integer_text (sgn pre ds : list Z) (c : printf_conversion) : list Z :=
  let pad := Z.to_nat (width c - Z.of_nat (length (sgn ++ pre ++ ds))) in
  (if negb (has (flags c) MINUS) && negb (has (flags c) ZERO) then repeat (ch " ") pad else []) ++
  sgn ++ pre ++ (if has (flags c) ZERO then repeat (ch "0") pad else []) ++ ds ++
  (if has (flags c) MINUS then repeat (ch " ") pad else []).

Lemma has_lor fl f g : has fl (Z.lor f g) = has fl f || has fl g.
Proof.
  unfold has. rewrite Z.land_lor_distr_r.
  destruct (Z.eqb_spec (Z.lor (Z.land fl f) (Z.land fl g)) 0) as [E|E].
  - apply Z.lor_eq_0_iff in E as [-> ->]. done.
  - destruct (Z.eqb_spec (Z.land fl f) 0) as [E1|], (Z.eqb_spec (Z.land fl g) 0) as [E2|]; try done.
    by rewrite E1, E2 in E.
Qed.

Lemma format_integer_emit {A} (output : Z → A → res A) value is_signed negative b c buf s :
  digits_buf value b c = Ok buf → (length buf ≤ 64)%nat → - 2 ^ 31 + 100 ≤ width c < 2 ^ 31 →
  format_integer output value is_signed negative b c s =
  emit output (integer_text (sign_text is_signed negative (flags c))
    (prefix_text value b (flags c)) (rev buf) c) s.
Proof.
  intros Hbuf Hlen Hw. unfold format_integer. rewrite Hbuf. cbn [mbind res_bind].
  set (sign := if is_signed then _ else 0). set (xc := if has (flags c) POUND && _ then _ else 0).
  set (sgn := sign_text _ _ _). set (pre := prefix_text _ _ _).
  assert (sgn = if negb (sign =? 0) then [sign] else []) as Esgn.
  { unfold sgn, sign_text, sign. destruct is_signed, negative; cbn [negb]; try done;
      destruct (has (flags c) PLUS), (has (flags c) SPACE); done. }
  assert (pre = if negb (xc =? 0) then [ch "0"; xc] else []) as Epre.
  { unfold pre, prefix_text, xc. by destruct (has (flags c) POUND && negb (value =? 0)). }
  assert (Z.to_nat (if s32 (width c - Z.of_nat (length buf) - (if xc =? 0 then 0 else 2)
      - (if sign =? 0 then 0 else 1)) <? 0 then 0 else s32 (width c - Z.of_nat (length buf) -
      (if xc =? 0 then 0 else 2) - (if sign =? 0 then 0 else 1))) =
      Z.to_nat (width c - Z.of_nat (length (sgn ++ pre ++ rev buf)))) as Epad.
  { rewrite !length_app, length_rev, Esgn, Epre.
    rewrite s32_small by (split; c_unfold; destruct (xc =? 0), (sign =? 0); lia).
    destruct (Z.ltb_spec (width c - Z.of_nat (length buf) - (if xc =? 0 then 0 else 2) - (if sign =? 0 then 0 else 1)) 0);
      destruct (xc =? 0), (sign =? 0); cbn [negb length] in *; lia. }
  unfold output_dup, integer_text. rewrite Epad. set (pad := Z.to_nat (width c - _)).
  rewrite Esgn, Epre. clearbody pad sign xc. clear.
  apply emit_seq; [|intros s1; apply emit_seq; [|intros s2; apply emit_seq; [|intros s3;
    apply emit_seq; [|intros s4; apply emit_seq; [|intros s5]]]]].
  - rewrite for_up_emit, emit_if. f_equal.
    replace (Z.land (flags c) (Z.lor MINUS ZERO) =? 0) with (negb (has (flags c) (Z.lor MINUS ZERO)))
      by (unfold has; apply negb_involutive).
    rewrite has_lor. by destruct (has (flags c) MINUS), (has (flags c) ZERO).
  - destruct (sign =? 0); [done|]. cbn. by destruct (output sign s1).
  - destruct (xc =? 0); [done|]. cbn. destruct (output (ch "0") s2) as [s'|]; cbn; [|done].
    by destruct (output xc s').
  - by rewrite for_up_emit, emit_if.
  - apply output_buf_emit.
  - by rewrite for_up_emit, emit_if.
Qed.

(** ** Digits *)

Definition bases : list integer_base := [base_d; base_o; base_x; base_X].

Definition digit (b : integer_base) (d : Z) : Z := digits b !!! Z.to_nat d.

(** The number with the digits [ds], least significant first. *)
Definition number (b : Z) (ds : list Z) : Z := foldr (λ d v, d + b * v) 0 ds.

Lemma bases_digit b v : b ∈ bases → 0 ≤ v →
  digits b !! Z.to_nat (v mod base b) = Some (digit b (v mod base b)) ∧ 8 ≤ base b ≤ 16.
Proof.
  intros Hb Hv. assert (8 ≤ base b ≤ 16 ∧ length (digits b) = S (Z.to_nat (base b))) as [H1 H2].
  { unfold bases in Hb. elems; cbn; lia. }
  pose proof (Z.mod_pos_bound v (base b)). split; [|done].
  apply list_lookup_lookup_total_lt. lia.
Qed.

Lemma put_char_ok buf c : (length buf < 64)%nat → put_char buf c = Ok (buf ++ [c]).
Proof. intros H. unfold put_char, BUF. by rewrite (proj2 (Nat.ltb_lt _ _) H). Qed.

Lemma number_snoc b ds d : number b (ds ++ [d]) = number b ds + d * b ^ Z.of_nat (length ds).
Proof.
  induction ds as [|e ds IH]; [unfold number; cbn; lia|].
  change (number b ((e :: ds) ++ [d])) with (e + b * number b (ds ++ [d])). rewrite IH.
  change (number b (e :: ds)) with (e + b * number b ds). cbn [length].
  rewrite Nat2Z.inj_succ, Z.pow_succ_r by lia. lia.
Qed.

(** The state of the loop over the digits: [ds] have been written. *)
Definition digits_state (b : integer_base) (fl v0 : Z) (k : nat) (st : Z * list Z * Z) : Prop :=
  let '(v, buf, cnt) := st in
  0 ≤ v < 8 ^ Z.of_nat k ∧ 0 ≤ cnt ∧ cnt + Z.of_nat k = 22 ∧
  Z.of_nat (length buf) ≤ 2 * cnt ∧
  (has fl GROUP = false → ∃ ds, buf = map (digit b) ds ∧ Forall (λ d, 0 ≤ d < base b) ds ∧
     number (base b) ds + v * base b ^ Z.of_nat (length ds) = v0 ∧ (v = 0 → last ds ≠ Some 0)).

Lemma digits_step b fl v0 v buf buf' cnt k :
  b ∈ bases → digits_state b fl v0 k (v, buf, cnt) → 0 < v →
  (buf' = buf ∨ has fl GROUP = true ∧ buf' = buf ++ [ch ","]) →
  ∃ k', (k' < k)%nat ∧
    digits_state b fl v0 k' (v / base b, buf' ++ [digit b (v mod base b)], cnt + 1).
Proof.
  intros Hb (Hv & Hc & Hck & Hl & Hds) Hpos Hbuf.
  destruct (bases_digit b v Hb) as [_ Hbase]; [lia|].
  assert (k ≠ 0%nat) by (intros ->; cbn in Hv; lia). exists (pred k). split; [lia|].
  assert (8 ^ Z.of_nat k = 8 * 8 ^ Z.of_nat (pred k)) as E.
  { replace (Z.of_nat k) with (Z.succ (Z.of_nat (pred k))) by lia. apply Z.pow_succ_r. lia. }
  pose proof (Z.div_mod v (base b)). pose proof (Z.mod_pos_bound v (base b)).
  assert (0 ≤ v / base b) by (apply Z.div_pos; lia).
  assert (v / base b ≤ v / 8) by (apply Z.div_le_compat_l; lia).
  assert (v / 8 < 8 ^ Z.of_nat (pred k)) by (apply Z.div_lt_upper_bound; lia).
  unfold digits_state. split_and!; try lia.
  - rewrite length_app. cbn. destruct Hbuf as [->|[_ ->]]; rewrite ?length_app; cbn; lia.
  - intros Hg. destruct Hbuf as [->|[? _]]; [|congruence]. destruct (Hds Hg) as (ds & -> & Hall & Hnum & _).
    exists (ds ++ [v mod base b]). rewrite map_app, number_snoc, length_app, Forall_app. cbn [length map].
    split_and!; [done|done|repeat constructor; lia| |].
    + rewrite Nat2Z.inj_add, Z.pow_add_r, Z.pow_1_r by lia. rewrite <- Hnum.
      rewrite (Z.div_mod v (base b)) at 3 by lia. lia.
    + intros Hzero. rewrite last_snoc. intros [=]. lia.
Qed.

(** The characters of the number, without those the flags add. *)
Definition plain_digits (value : Z) (b : integer_base) (c : printf_conversion) (buf : list Z) : Prop :=
  ∃ ds, Forall (λ d, 0 ≤ d < base b) ds ∧ number (base b) ds = value ∧ last ds ≠ Some 0 ∧
    let prec := Z.to_nat (Z.min (if precision c <? 0 then 1 else precision c) 63) in
    buf = map (digit b) ds ++ repeat (ch "0") (prec - length ds).

Lemma precision_loop p buf : (length buf ≤ 63)%nat →
  loop (S BUF) (λ buf,
    if (Z.of_nat (length buf) <? p) && (length buf <? BUF - 1)%nat
    then buf ← put_char buf (ch "0"); Ok (inl buf)
    else Ok (inr buf)) buf =
  Ok (buf ++ repeat (ch "0") (Z.to_nat (Z.min p 63) - length buf)).
Proof.
  intros Hl.
  apply (loop_ok (λ k buf', ∃ j, buf' = buf ++ repeat (ch "0") j ∧ (length buf' ≤ 63)%nat ∧
    k = (63 - length buf')%nat ∧ (j ≤ Z.to_nat (Z.min p 63) - length buf)%nat))
    with (k := (63 - length buf)%nat).
  - intros k buf' (j & -> & Hle & -> & Hj). rewrite length_app, repeat_length in *.
    set (n := (length buf + j)%nat) in *.
    assert (n = length (buf ++ repeat (ch "0") j)) as En by (by rewrite length_app, repeat_length).
    destruct (Z.ltb_spec (Z.of_nat n) p), (Nat.ltb_spec n (BUF - 1)); cbn [andb]; unfold BUF in *.
    + rewrite put_char_ok by lia. cbn. eexists. split; [done|]. exists (63 - S n)%nat. split; [lia|].
      exists (S j). rewrite <- app_assoc, length_app. cbn [repeat]. rewrite length_app, repeat_length.
      split_and!; [|cbn; lia..|lia]. do 2 f_equal. clear. induction j; [done|]. cbn. by f_equal.
    + eexists. split; [done|]. do 2 f_equal. lia.
    + eexists. split; [done|]. do 2 f_equal. lia.
    + eexists. split; [done|]. do 2 f_equal. lia.
  - exists O. rewrite app_nil_r. split_and!; try done; lia.
  - unfold BUF. lia.
Qed.

Lemma digits_buf_spec value b c : b ∈ bases → is_u64 value →
  ∃ buf, digits_buf value b c = Ok buf ∧ (length buf ≤ 64)%nat ∧
    (has (flags c) GROUP = false → has (flags c) POUND && (base b =? 8) = false →
     plain_digits value b c buf).
Proof.
  intros Hb Hv. unfold digits_buf.
  edestruct (loop_total (digits_state b (flags c) value)
    (λ '(buf, cnt), ∃ k, digits_state b (flags c) value k (0, buf, cnt)))
    with (n := S BUF) (k := 22%nat) (s := (value, @nil Z, 0)) as ([buf cnt] & -> & k & HQ).
  - intros k [[v buf] cnt] HI. destruct (Z.ltb_spec 0 v) as [Hpos|Hz].
    2:{ eexists. split; [done|]. cbn. exists k. assert (v = 0) as -> by (destruct HI; lia). exact HI. }
    assert (∃ buf', (if has (flags c) GROUP && (0 <? cnt) && (Z.rem cnt (group b) =? 0)
              then put_char buf (ch ",") else Ok buf) = Ok buf' ∧
            (buf' = buf ∨ has (flags c) GROUP = true ∧ buf' = buf ++ [ch ","])) as (buf' & -> & Hbuf').
    { destruct HI as (Hk & ? & ? & ? & _). destruct (has (flags c) GROUP); cbn [andb]; [|eauto].
      destruct (_ && _); [|eauto]. rewrite put_char_ok by lia. eauto. }
    cbn [mbind res_bind]. destruct (bases_digit b v Hb) as [-> _]; [lia|]. cbn [deref mbind res_bind].
    rewrite put_char_ok.
    2:{ destruct HI as (Hk & ? & ? & ? & _). assert (k ≠ 0%nat) by (intros ->; cbn in Hk; lia).
        destruct Hbuf' as [->|[_ ->]]; rewrite ?length_app; cbn; lia. }
    eexists. split; [done|]. by apply digits_step with (buf := buf).
  - split_and!; try (cbn; c_unfold; lia). intros _. exists []. cbn. split_and!; [done|done|lia|done].
  - unfold BUF. lia.
  - destruct HQ as (Hk & ? & ? & Hl & Hds). cbn [mbind res_bind]. rewrite precision_loop by lia.
    cbn [mbind res_bind]. set (prec := if precision c <? 0 then 1 else precision c) in *.
    set (buf1 := buf ++ _). assert (length buf1 ≤ 63)%nat as Hl1.
    { unfold buf1. rewrite length_app, repeat_length. lia. }
    destruct (has (flags c) POUND && (base b =? 8)) eqn:Ep; cbn [andb].
    + destruct (_ || _).
      * rewrite put_char_ok by lia. eexists. split; [done|]. split; [rewrite length_app; cbn; lia|done].
      * eexists. split; [done|]. split; [lia|done].
    + eexists. split; [done|]. split; [lia|]. intros Hg _.
      destruct (Hds Hg) as (ds & Hmap & Hall & Hnum & Hlast). exists ds. split_and!; [done|lia|by apply Hlast|].
      unfold buf1. rewrite Hmap, length_map. done.
Qed.

(** ** Output to a buffer, and reading numbers back *)

Lemma emit_buffer m buffer M cs : 0 ≤ M < 2 ^ 31 → region buffer (M + 1) → buffer + M + 1 < 2 ^ 32 →
  mapped m buffer (M + 1) → Forall is_u8 cs → Z.of_nat (length cs) < 2 ^ 31 - 1 →
  emit vsnprintf_helper cs (VsnprintfAux m buffer 0 M) =
  Ok (VsnprintfAux (put m buffer (take (Z.to_nat M) cs))
        (buffer + Z.min M (Z.of_nat (length cs))) (Z.of_nat (length cs)) M).
Proof.
  intros HM (? & ? & ?) Hend Hm. induction cs as [|c cs IH] using rev_ind; intros H8 Hl.
  { cbn [length]. rewrite take_nil, Z.min_r, Z.add_0_r by lia. done. }
  apply Forall_app in H8 as [H8 Hc]. rewrite length_app in *. cbn [length] in *.
  rewrite emit_app, IH by (done || lia). cbn [mbind res_bind emit]. unfold vsnprintf_helper. cbn.
  rewrite (proj2 (Z.eqb_neq _ INT_MAX)) by (c_unfold; lia). cbn [mbind res_bind]. apply Forall_inv in Hc.
  destruct (Z.ltb_spec (Z.of_nat (length cs)) M) as [Hlt|Hge].
  - rewrite !firstn_all2 by (rewrite ?length_app; cbn; lia). rewrite Z.min_r by lia.
    rewrite wr_spec; [|split; lia|apply (put_mapped _ buffer (M + 1)); [done|lia]].
    cbn. rewrite put_snoc, u32_small by (split; c_unfold; lia). rewrite u8_small by done.
    do 2 f_equal; lia.
  - rewrite take_app_le by lia. cbn [mbind res_bind]. do 2 f_equal; lia.
Qed.

Definition decimal (ds : list Z) : Z := fold_left (λ v d, v * 10 + d) ds 0.

Lemma decimal_number ds : decimal ds = number 10 (rev ds).
Proof.
  unfold decimal, number. rewrite <- fold_left_rev_right.
  induction (rev ds) as [|d l IH]; [done|]. cbn. rewrite IH. lia.
Qed.

Lemma decimal_snoc ds d : decimal (ds ++ [d]) = decimal ds * 10 + d.
Proof. unfold decimal. by rewrite fold_left_app. Qed.

Lemma decimal_prefix ds i : Forall (λ d, 0 ≤ d < 10) ds → 0 ≤ decimal (take i ds) ≤ decimal ds.
Proof.
  revert i. induction ds as [|d ds IH] using rev_ind; intros i H; [by rewrite take_nil|].
  apply Forall_app in H as [H Hd%Forall_inv]. rewrite decimal_snoc.
  destruct (decide (i ≤ length ds)%nat).
  - rewrite take_app_le by lia. specialize (IH i H). lia.
  - rewrite firstn_all2 by (rewrite length_app; cbn; lia). rewrite decimal_snoc.
    specialize (IH 0%nat H). change (decimal (take 0 ds)) with 0 in IH. lia.
Qed.

(** The digits at the end of the string [s]. *)
Lemma atoi_digits m p pre ds :
  cstr m p (pre ++ map (λ d, 48 + d) ds) → Forall (λ d, 0 ≤ d < 10) ds → decimal ds ≤ 2 ^ 31 →
  loop (steps m) (λ '(s, value),
    x ← rd m s;
    Ok (if isdigit x then inl (u32 (s + 1), s32 (value * 10 - (x - ch "0")))
        else inr value)) (p + Z.of_nat (length pre), 0) = Ok (- decimal ds).
Proof.
  intros Hs Hd Hmax. set (str := pre ++ _) in *.
  assert (length str = length pre + length ds)%nat as Hlen by (unfold str; by rewrite length_app, length_map).
  apply (loop_ok (λ k '(q, v), ∃ i, q = p + Z.of_nat (length pre + i) ∧ v = - decimal (take i ds) ∧
    (i + k = length ds)%nat)) with (k := length ds).
  - intros k [q v] (i & -> & -> & Hk).
    destruct (lookup_lt_is_Some_2 (str ++ [0]) (length pre + i)) as [c Hc].
    { rewrite length_app. cbn. lia. }
    destruct (cstr_rd _ _ _ _ _ Hs Hc) as (-> & Hu & Hc8 & Hz). cbn [mbind res_bind].
    eexists. split; [done|]. destruct (decide (i = length ds)) as [->|Hne].
    + rewrite (proj2 Hz) by lia. cbn. by rewrite firstn_all.
    + destruct (lookup_lt_is_Some_2 ds i) as [d Hdi]; [lia|].
      assert (c = 48 + d) as ->.
      { unfold str in Hc. rewrite <- app_assoc, lookup_app_r in Hc by lia.
        replace (length pre + i - length pre)%nat with i in Hc by lia.
        rewrite lookup_app_l in Hc by (rewrite length_map; lia).
        change (map ?f ?l) with (f <$> l) in Hc. rewrite list_lookup_fmap, Hdi in Hc. by simplify_eq/=. }
      pose proof (Forall_lookup_1 _ _ _ _ Hd Hdi) as Hd10. cbn in Hd10.
      assert (isdigit (48 + d) = true) as ->.
      { unfold isdigit. change (ch "0") with 48. change (ch "9") with 57. apply andb_true_iff. lia. }
      exists (pred k). split; [lia|]. exists (S i). destruct (cstr_u32 _ _ _ Hs) as (_ & ? & _).
      rewrite (take_S_r _ _ _ Hdi), decimal_snoc.
      pose proof (decimal_prefix ds (S i) Hd) as Hb. rewrite (take_S_r _ _ _ Hdi), decimal_snoc in Hb.
      change (ch "0") with 48. rewrite u32_small, s32_small by (split; c_unfold; lia). lia.
  - exists O. rewrite Nat.add_0_r. done.
  - pose proof (cstr_steps _ _ _ Hs). unfold steps. lia.
Qed.

Lemma atoi_spec m p (neg : bool) ds :
  cstr m p ((if neg then chars "-" else []) ++ map (λ d, 48 + d) ds) → ds ≠ [] →
  Forall (λ d, 0 ≤ d < 10) ds → decimal ds ≤ (if neg then 2 ^ 31 else 2 ^ 31 - 1) →
  atoi m p = Ok (if neg then - decimal ds else decimal ds).
Proof.
  intros Hs Hne Hd Hmax. destruct (cstr_u32 _ _ _ Hs) as (Hp & Hp' & Hnz & _).
  unfold atoi. rewrite nonnull_ok by done. cbn [mbind res_bind].
  pose proof (decimal_prefix ds 0 Hd) as [_ Hpos]. change (decimal (take 0 ds)) with 0 in Hpos.
  destruct ds as [|d ds]; [done|]. pose proof (Forall_inv Hd) as Hd0. cbn in Hd0.
  assert (∃ c, rd m p = Ok c ∧ c = if neg then 45 else 48 + d) as (c & Hrd & Ec).
  { destruct neg; [pose proof (cstr_rd _ _ _ 0%nat 45 Hs eq_refl) as (Hrd & _)|
      pose proof (cstr_rd _ _ _ 0%nat (48 + d) Hs eq_refl) as (Hrd & _)];
      rewrite Z.add_0_r in Hrd; eauto. }
  assert (isspace c = false) as Hsp.
  { unfold isspace. change (ch " ") with 32. rewrite Ec. destruct neg; [done|].
    rewrite !(proj2 (Z.eqb_neq _ _)) by lia. done. }
  assert (loop (steps m) (λ s, x ← rd m s;
    Ok (if isspace x then inl (u32 (s + 1)) else inr s)) p = Ok p) as ->.
  { unfold steps. cbn [loop]. rewrite Hrd. cbn. by rewrite Hsp. }
  cbn [mbind res_bind]. rewrite Hrd. cbn [mbind res_bind].
  change (ch "+") with 43. change (ch "-") with 45. rewrite Ec. destruct neg.
  - change (45 =? 43) with false. change (45 =? 45) with true. cbv iota beta.
    change (chars "-") with [45] in *. cbn [length app] in Hp'. rewrite u32_small by (split; c_unfold; lia).
    change (p + 1) with (p + Z.of_nat (length [45])). rewrite atoi_digits with (ds := d :: ds) by done.
    done.
  - rewrite !(proj2 (Z.eqb_neq _ _)) by lia. cbv iota beta.
    pose proof (atoi_digits m p [] (d :: ds) Hs Hd ltac:(lia)) as Hloop. rewrite Z.add_0_r in Hloop.
    rewrite Hloop. cbn [mbind res_bind negb]. rewrite Z.opp_involutive, s32_small by (split; c_unfold; lia). done.
Qed.

Lemma vprintf_d {A} (mem : A → store) (output : Z → A → res A) n s : is_s32 n →
  __vprintf mem output (lit "%d") [n] s =
  format_integer output (Z.abs n) true (n <? 0) base_d (Conversion 0 0 (-1) INT) s.
Proof.
  intros Hn. unfold __vprintf, vprintf_loop, vprintf_step.
  assert (s32 (u32 n) = n) as E by (c_unfold; Z.div_mod_to_equations; lia).
  assert (u64 (if n <? 0 then - n else n) = Z.abs n) as E2.
  { rewrite u64_small; destruct (Z.ltb_spec n 0); c_unfold; lia. }
  change (length (lit "%d")) with 3%nat.
  change (lit "%d") with [37; 100; 0]. cbn [loop peek head deref mbind res_bind tail].
  change (37 =? 0) with false. change (negb (37 =? ch "%")) with false.
  change (100 =? ch "%") with false. cbv iota. unfold conversion.
  change (parse_conversion [100; 0] [n]) with (Ok ([100; 0], Conversion 0 0 (-1) INT, [n])).
  cbn [mbind res_bind peek head deref]. change ((100 =? ch "d") || (100 =? ch "i")) with true. cbv iota.
  cbn [signed_arg type va_int va_word mbind res_bind]. rewrite E, E2.
  by destruct (format_integer _ _ _ _ _ _ _).
Qed.

Lemma digit_d d : 0 ≤ d < 10 → digit base_d d = 48 + d.
Proof.
  intros H. assert (d = 0 ∨ d = 1 ∨ d = 2 ∨ d = 3 ∨ d = 4 ∨ d = 5 ∨ d = 6 ∨ d = 7 ∨ d = 8 ∨ d = 9) as Hd by lia.
  repeat (destruct Hd as [->|Hd]; [done|]). by subst.
Qed.

Lemma number_nonneg b ds : 0 ≤ b → Forall (λ d, 0 ≤ d < b) ds → 0 ≤ number b ds.
Proof. intros Hb. induction 1 as [|d ds Hd _ IH]; [done|]. unfold number in *. cbn in *. nia. Qed.

Lemma number_leading b ds : 0 < b → Forall (λ d, 0 ≤ d < b) ds → last ds ≠ Some 0 → ds ≠ [] →
  b ^ (Z.of_nat (length ds) - 1) ≤ number b ds.
Proof.
  intros Hb Hall Hlast Hne. destruct ds as [|d ds _] using rev_ind; [done|].
  apply Forall_app in Hall as [Hall Hd%Forall_inv]. rewrite last_snoc in Hlast.
  rewrite number_snoc, length_app. cbn [length].
  replace (Z.of_nat (length ds + 1) - 1) with (Z.of_nat (length ds)) by lia.
  pose proof (number_nonneg b ds ltac:(lia) Hall).
  assert (1 ≤ d) by (destruct (decide (d = 0)) as [->|]; [done|lia]).
  pose proof (Z.pow_pos_nonneg b (Z.of_nat (length ds))). nia.
Qed.

(** The decimal digits of [v], most significant first; there is one for 0. *)
Lemma decimal_text v : is_u64 v → v ≤ 2 ^ 31 →
  ∃ buf ds, digits_buf v base_d (Conversion 0 0 (-1) INT) = Ok buf ∧
    rev buf = map (λ d, 48 + d) ds ∧ ds ≠ [] ∧ Forall (λ d, 0 ≤ d < 10) ds ∧
    decimal ds = v ∧ (length ds ≤ 10)%nat.
Proof.
  intros Hv Hmax. destruct (digits_buf_spec v base_d (Conversion 0 0 (-1) INT)) as (buf & -> & _ & Hp);
    [unfold bases; elems|done|].
  destruct Hp as (ds & Hall & Hnum & Hlast & Hbuf); [done..|].
  change (buf = map (digit base_d) ds ++ repeat (ch "0") (1 - length ds)) in Hbuf.
  change (base base_d) with 10 in *. exists buf.
  destruct (decide (ds = [])) as [->|Hne].
  { exists [0]. split; [done|]. cbn in Hbuf, Hnum. subst. split_and!; try done; [|cbn; lia].
    repeat constructor; lia. }
  exists (rev ds). split; [done|]. rewrite Hbuf.
  replace (1 - length ds)%nat with O by (destruct ds; cbn; [done|lia]). cbn [repeat]. rewrite app_nil_r.
  rewrite <- map_rev, decimal_number, rev_involutive, length_rev. split_and!; try done.
  - apply map_ext_in. intros d Hd. apply digit_d. rewrite <- in_rev in Hd.
    rewrite List.Forall_forall in Hall. by apply Hall.
  - intros Hr. apply (f_equal length) in Hr. rewrite length_rev in Hr. by destruct ds.
  - by apply Forall_rev.
  - pose proof (number_leading 10 ds ltac:(lia) Hall Hlast Hne).
    destruct (decide (length ds ≤ 10)%nat); [done|].
    assert (10 ^ 10 ≤ 10 ^ (Z.of_nat (length ds) - 1)) by (apply Z.pow_le_mono_r; lia). lia.
Qed.

Lemma snprintf_d_spec m buffer size n : is_s32 n → 12 ≤ size < 2 ^ 31 → region buffer size →
  buffer + size < 2 ^ 32 → mapped m buffer size →
  ∃ ds, let s := (if n <? 0 then chars "-" else []) ++ map (λ d, 48 + d) ds in
    let m' := put m buffer (s ++ [0]) in
    snprintf m buffer size (lit "%d") [n] = Ok (m', Z.of_nat (length s)) ∧
    cstr m' buffer s ∧ ds ≠ [] ∧ Forall (λ d, 0 ≤ d < 10) ds ∧ decimal ds = Z.abs n.
Proof.
  intros Hn Hsize (? & ? & ?) Hend Hm.
  destruct (decimal_text (Z.abs n)) as (buf & ds & Hbuf & Hrev & Hne & Hall & Hdec & Hlen); [c_unfold; lia..|].
  exists ds. cbv zeta. set (s := _ ++ map _ ds).
  assert (length s ≤ 11)%nat as Hs.
  { unfold s. rewrite length_app, length_map. destruct (n <? 0); cbn; lia. }
  assert (Forall (λ c, 0 < c < 256) s) as H8.
  { unfold s. apply Forall_app. split; [destruct (n <? 0); repeat constructor|].
    apply Forall_map. eapply Forall_impl; [exact Hall|]. cbn. lia. }
  split_and!; try done.
  - unfold snprintf, vsnprintf. rewrite (proj2 (Z.ltb_lt 0 size)) by lia.
    rewrite vprintf_d by done. rewrite s32_small by (split; c_unfold; lia).
    rewrite (format_integer_emit _ _ _ _ _ _ buf) by
      (done || (cbn; lia) || (rewrite <- length_rev, Hrev, length_map; lia)).
    assert (integer_text (sign_text true (n <? 0) 0) (prefix_text (Z.abs n) base_d 0) (rev buf)
      (Conversion 0 0 (-1) INT) = s) as Htext.
    { unfold integer_text. cbn [width flags]. rewrite Hrev. unfold s, sign_text.
      replace (Z.to_nat (0 - _)) with O by lia. destruct (n <? 0); cbn -[map]; by rewrite app_nil_r. }
    cbn [flags]. rewrite Htext, emit_buffer; try done; try (repeat split; lia).
    + cbn [mbind res_bind heap p]. rewrite Z.min_r, firstn_all2 by lia.
      rewrite wr_spec; [|split; lia|apply (put_mapped _ buffer size); [done|lia]].
      cbn [mbind res_bind]. by rewrite put_snoc.
    + intros k Hk. apply Hm. lia.
    + eapply Forall_impl; [exact H8|]. intros c Hc. cbn in Hc. split; c_unfold; lia.
  - apply cstr_put; [done|]. repeat split; lia.
Qed.

(** Printing an integer and reading it back is the identity: for every
    [int] and a buffer of at least 12 bytes, [snprintf] with the format
    ["%d"] returns the length of the string it has put in the buffer, and
    [atoi] of that string is the integer. *)
Theorem snprintf_atoi_roundtrip (m : store) (buffer size n : Z) :
  is_s32 n → 12 ≤ size < 2 ^ 31 → region buffer size → buffer + size < 2 ^ 32 →
  mapped m buffer size →
  ∃ m' s, snprintf m buffer size (lit "%d") [n] = Ok (m', Z.of_nat (length s)) ∧
    cstr m' buffer s ∧ atoi m' buffer = Ok n.
Proof.
  intros Hn Hs Hr He Hm.
  destruct (snprintf_d_spec m buffer size n) as (ds & Hp & Hstr & Hne & Hall & Hdec); [done..|].
  eexists _, _. split; [exact Hp|]. split; [exact Hstr|].
  rewrite (atoi_spec _ _ (n <? 0) ds); try done; destruct (Z.ltb_spec n 0); try (f_equal; lia);
    c_unfold; lia.
Qed.

Lemma snprintf_atoi_witness :
  ∃ m' s, snprintf (put ∅ 100 (repeat 0 12)) 100 12 (lit "%d") [-2147483648] =
      Ok (m', Z.of_nat (length s)) ∧
    cstr m' 100 s ∧ atoi m' 100 = Ok (-2147483648).
Proof.
  apply (snprintf_atoi_roundtrip (put ∅ 100 (repeat 0 12)) 100 12 (-2147483648));
    try (repeat split; lia).
  exact (bytes_at_mapped _ 100 (repeat 0 12) (bytes_at_put ∅ 100 (repeat 0 12))).
Defined.

(** ** Termination of the engine *)

Lemma ends_peek format (Q : Z → Prop) :
  (∀ c f, format = c :: f → Q c) → ends (peek format) Q.
Proof. intros H. destruct format; cbn; [done|]. by eapply H. Qed.

(** [ends_tac] follows the code from call to call. *)
Ltac ends_step :=
  match goal with
  | |- ends (_ ≫= _) _ => apply ends_bind
  | |- ends (Ok _) _ => apply ends_ok
  | |- ends (Err _) _ => discriminate
  | |- ends (peek _) _ =>
      apply ends_peek; let E := fresh "E" in intros ? ? E; cbn [tail] in E; subst
  | |- ends (if ?b then _ else _) _ => destruct b
  | |- ends (let '(_, _) := ?p in _) _ => destruct p
  end.
Ltac ends_tac := repeat (ends_step; cbn beta iota).

(** Parsers return a suffix of the format they are given. *)
Definition shorter (format : list Z) (f : list Z) : Prop := (length f ≤ length format)%nat.

Lemma parse_flags_ends format : ends (parse_flags format) (λ '(f, _), shorter format f).
Proof.
  unfold parse_flags. apply ends_bind.
  apply (ends_mono _ (λ '(f, _), shorter format f)); [|intros [f fl] Hf; exact Hf].
  eapply (ends_loop (λ k '(f, _), k = length f ∧ shorter format f));
    [|split; [done|by unfold shorter]|lia].
  intros k [f fl] [-> Hf]. ends_tac. unfold shorter in *. cbn [length tail] in *.
  destruct (flag_of c); [|done]. exists (length f0). split; [lia|]. split; [done|lia].
Qed.

Lemma parse_number_ends format : ends (parse_number format) (λ '(f, _), shorter format f).
Proof.
  unfold parse_number.
  eapply (ends_loop (λ k '(f, _), k = length f ∧ shorter format f)); [|split; [done|by unfold shorter]|lia].
  intros k [f n] [-> Hf]. ends_tac. unfold shorter in *. cbn [length tail] in *.
  destruct (isdigit c); [|done]. exists (length f0). split; [lia|]. split; [done|lia].
Qed.

Lemma va_word_ends args : ends (va_word args) (λ _, True).
Proof. by destruct args. Qed.
Lemma va_int_ends args : ends (va_int args) (λ _, True).
Proof. by destruct args. Qed.
Lemma va_uint64_ends args : ends (va_uint64 args) (λ '(v, _), is_u64 v).
Proof.
  destruct args as [|lo [|hi args]]; cbn; [done..|]. rewrite Z.shiftl_mul_pow2 by lia.
  pose proof (u32_range lo). pose proof (u32_range hi). c_unfold. lia.
Qed.
Lemma va_int64_ends args : ends (va_int64 args) (λ _, True).
Proof. by destruct args as [|lo [|hi args]]. Qed.

Lemma parse_width_ends format args :
  ends (parse_width format args) (λ '(f, _, _), shorter format f).
Proof.
  unfold parse_width. ends_tac.
  - eapply ends_mono; [apply va_int_ends|]. intros [w a] _. cbn. unfold shorter. cbn. lia.
  - eapply ends_mono; [apply parse_number_ends|]. intros [f' n] Hf. exact Hf.
Qed.

Lemma parse_precision_ends format args :
  ends (parse_precision format args) (λ '(f, _, _), shorter format f).
Proof.
  unfold parse_precision. ends_tac.
  - eapply ends_mono; [apply va_int_ends|]. intros [w a] _. cbn. unfold shorter. cbn. lia.
  - eapply ends_mono; [apply parse_number_ends|]. intros [f' n] Hf. cbn. unfold shorter in *. cbn in *. lia.
  - by unfold shorter.
Qed.

Lemma parse_type_ends format : ends (parse_type format) (λ '(f, _), shorter format f).
Proof.
  unfold parse_type, shorter. ends_tac; cbn [tail]; ends_tac; cbn;
    repeat match goal with |- context [if ?b then _ else _] => destruct b end; cbn; lia.
Qed.

Lemma parse_conversion_ends format args :
  ends (parse_conversion format args) (λ '(f, _, _), shorter format f).
Proof.
  unfold parse_conversion. apply ends_bind. eapply ends_mono; [apply parse_flags_ends|].
  intros [f1 fl] H1. apply ends_bind. eapply ends_mono; [apply parse_width_ends|].
  intros [[f2 w] a] H2. destruct (if w <? 0 then _ else _) as [w' fl'].
  apply ends_bind. eapply ends_mono; [apply parse_precision_ends|].
  intros [[f3 p3] a3] H3. apply ends_bind. eapply ends_mono; [apply parse_type_ends|].
  intros [f4 t] H4. unfold shorter in *. cbn. lia.
Qed.

Lemma signed_arg_ends t args : ends (signed_arg t args) (λ _, True).
Proof.
  destruct t; cbn; try apply va_int_ends; try apply va_int64_ends; by destruct args.
Qed.

Lemma wrap_u64 w v : 0 ≤ w ≤ 64 → is_u64 (wrap w v).
Proof.
  intros Hw. unfold wrap. pose proof (Z.mod_pos_bound v (2 ^ w) ltac:(lia)).
  pose proof (Z.pow_le_mono_r 2 w 64). c_unfold. lia.
Qed.

Lemma unsigned_arg_ends t args : ends (unsigned_arg t args) (λ '(v, _), is_u64 v).
Proof.
  destruct t; cbn; try apply va_uint64_ends; destruct args as [|w args]; cbn; try done;
    try (apply wrap_u64; lia).
  assert (Z.lor (Z.shiftl 2147483647 1) 1 = Z.ones 32) as -> by done.
  rewrite Z.land_ones by lia. apply (wrap_u64 32). lia.
Qed.

(** [strnlen] sees different addresses as long as it goes on. *)
Lemma distinct_addresses (m : store) a n : 0 ≤ n ≤ 2 ^ 32 →
  (∀ j, 0 ≤ j < n → is_Some (m !! u32 (a + j))) → n ≤ Z.of_nat (size m).
Proof.
  intros Hn Hm. rewrite <- size_dom.
  assert (list_to_set ((λ j, u32 (a + j)) <$> seqZ 0 n) ⊆ dom m) as Hsub.
  { intros k Hk. apply elem_of_list_to_set, list_elem_of_fmap in Hk as (j & -> & Hj).
    apply elem_of_seqZ in Hj. apply elem_of_dom, Hm. lia. }
  apply subseteq_size in Hsub. rewrite size_list_to_set in Hsub.
  - rewrite length_fmap, length_seqZ in Hsub. lia.
  - apply NoDup_fmap_2_strong; [|apply NoDup_seqZ]. intros x y Hx Hy E.
    apply elem_of_seqZ in Hx, Hy. unfold u32, wrap in E.
    apply (f_equal (λ z, (z - a mod 2 ^ 32) mod 2 ^ 32)) in E.
    rewrite <- !Zminus_mod in E. replace (a + x - a) with x in E by lia. replace (a + y - a) with y in E by lia.
    rewrite !Z.mod_small in E by lia. done.
Qed.

Lemma strnlen_ends m string maxlen : is_u32 maxlen → ends (strnlen m string maxlen) (λ _, True).
Proof.
  intros Hmax. unfold strnlen.
  eapply (ends_loop (λ k n, is_u32 n ∧ n ≤ maxlen ∧ (k + Z.to_nat n = size m)%nat ∧
    ∀ j, 0 ≤ j < n → is_Some (m !! u32 (string + j)))) with (k := size m).
  - intros k n ([Hn0 Hn1] & Hle & Hk & Hm). unfold rd. apply ends_bind, ends_deref. intros x Hx. cbn.
    destruct (negb (x =? 0)); cbn [andb]; [|done]. destruct (Z.ltb_spec n maxlen); [|done].
    assert (u32 (n + 1) = n + 1) as -> by (apply u32_small; split; c_unfold; lia).
    assert (∀ j, 0 ≤ j < n + 1 → is_Some (m !! u32 (string + j))) as Hm'.
    { intros j Hj. destruct (decide (j = n)) as [->|]; [by eexists|apply Hm; lia]. }
    pose proof (distinct_addresses m string (n + 1)) as Hd. specialize (Hd ltac:(c_unfold; lia) Hm').
    exists (pred k). split; [lia|]. split_and!; [split; c_unfold; lia|lia|lia|done].
  - split_and!; [split; c_unfold; lia|c_unfold; lia|lia|]. intros j Hj. lia.
  - unfold steps. lia.
Qed.

Section engine.
Context {A : Type} (mem : A → store) (output : Z → A → res A) (P : A → Prop).
Hypothesis Hout : ∀ c s, P s → ends (output c s) P.

Lemma emit_ends cs s : P s → ends (emit output cs s) P.
Proof using Hout.
  revert s. induction cs as [|c cs IH]; intros s Hs; [done|]. cbn.
  apply ends_bind. eapply ends_mono; [by apply Hout|]. auto.
Qed.

Lemma output_dup_ends c cnt s : P s → ends (output_dup output c cnt s) P.
Proof using Hout. intros Hs. unfold output_dup. rewrite for_up_emit. by apply emit_ends. Qed.

Lemma format_integer_ends value is_signed negative b c s : b ∈ bases → is_u64 value → P s →
  ends (format_integer output value is_signed negative b c s) P.
Proof using Hout.
  intros Hb Hv Hs. unfold format_integer.
  destruct (digits_buf_spec value b c Hb Hv) as (buf & -> & _). cbn [mbind res_bind].
  set (pad := if _ <? 0 then 0 else _). set (sign := if is_signed then _ else 0).
  set (xc := if has _ POUND && _ then _ else 0). clearbody pad sign xc.
  pose proof output_dup_ends as Hdup.
  apply ends_bind. apply (ends_mono _ P); [by destruct (_ =? 0); [apply Hdup|]|]. intros s1 H1.
  apply ends_bind. apply (ends_mono _ P); [by destruct (negb (sign =? 0)); [apply Hout|]|]. intros s2 H2.
  apply ends_bind. apply (ends_mono _ P).
  { destruct (negb (xc =? 0)); [|done]. apply ends_bind. eapply ends_mono; [by apply Hout|]. auto. }
  intros s3 H3. apply ends_bind. apply (ends_mono _ P); [by destruct (has _ ZERO); [apply Hdup|]|].
  intros s4 H4. apply ends_bind. rewrite output_buf_emit. eapply ends_mono; [by apply emit_ends|].
  intros s5 H5. by destruct (has _ MINUS); [apply Hdup|].
Qed.

Lemma format_string_ends t n c s : P s → ends (format_string mem output t n c s) P.
Proof using Hout.
  intros Hs. unfold format_string. pose proof output_dup_ends as Hdup.
  apply ends_bind. apply (ends_mono _ P); [by destruct (_ && _); [apply Hdup|]|]. intros s1 H1.
  apply ends_bind. apply (ends_mono _ P).
  { apply ends_for_up; [|done]. intros i s2 H2. apply ends_bind.
    apply (ends_mono _ (λ _, True)); [|intros x _; by apply Hout].
    destruct t; cbn; apply ends_deref; done. }
  intros s2 H2. by destruct (_ && _); [apply Hdup|].
Qed.

(** A conversion, if the reports of unknown conversions end. *)
Lemma conversion_ends again format args s : P s →
  (∀ k s, P s → ends (again (lit "<<no %%%c in kernel>>") [k] s) P ∧
                ends (again (lit "<<no %%%c conversion>>") [k] s) P) →
  ends (conversion mem output again format args s) (λ '(f, _, s'), shorter format f ∧ P s').
Proof using Hout.
  intros Hs Hagain. unfold conversion. apply ends_bind.
  eapply ends_mono; [apply parse_conversion_ends|]. intros [[f c] a] Hf.
  assert (∀ (m : res A) (a' : va_list), ends m P →
    ends (m ≫= λ s', Ok (f, a', s')) (λ '(f', _, s'), shorter format f' ∧ P s')) as Hret.
  { intros m a' Hm. apply ends_bind. eapply ends_mono; [exact Hm|]. done. }
  apply ends_bind, ends_peek. intros k f' _.
  destruct (_ || (k =? ch "i")).
  { apply ends_bind. eapply ends_mono; [apply signed_arg_ends|]. intros [v a1] _. apply Hret.
    apply format_integer_ends; [unfold bases; elems|apply u64_range|done]. }
  destruct (_ || (k =? ch "X")).
  { apply ends_bind. eapply ends_mono; [apply unsigned_arg_ends|]. intros [v a1] Hv. apply Hret.
    apply format_integer_ends; [|done|done].
    destruct (k =? ch "o"), (k =? ch "u"), (k =? ch "x"); unfold bases; elems. }
  destruct (k =? ch "c").
  { apply ends_bind. eapply ends_mono; [apply va_int_ends|]. intros [v a1] _. apply Hret.
    by apply format_string_ends. }
  destruct (k =? ch "s").
  { apply ends_bind. eapply ends_mono; [apply va_word_ends|]. intros [v a1] _. apply ends_bind.
    apply (ends_mono _ (λ _, True)); [|intros [t n] _; apply Hret; by apply format_string_ends].
    destruct (v =? 0); [done|]. apply ends_bind. eapply ends_mono; [apply strnlen_ends, u32_range|done]. }
  destruct (k =? ch "p").
  { destruct a as [|w a1]; cbn [va_word mbind res_bind]; [done|]. apply Hret.
    apply format_integer_ends; [unfold bases; elems| |done]. apply (wrap_u64 32). lia. }
  destruct (_ || (k =? ch "n")); apply Hret; by apply Hagain.
Qed.

Lemma vprintf_loop_ends again format args s : P s →
  (∀ k s, P s → ends (again (lit "<<no %%%c in kernel>>") [k] s) P ∧
                ends (again (lit "<<no %%%c conversion>>") [k] s) P) →
  ends (vprintf_loop mem output again format args s) P.
Proof using Hout.
  intros Hs Hagain. unfold vprintf_loop.
  eapply (ends_loop (λ k '(f, _, s), k = length f ∧ P s)); [|by split|lia].
  clear s Hs. intros k [[f a] s] [-> Hs]. unfold vprintf_step. apply ends_bind, ends_peek.
  intros c f' ->. cbn [tail length]. destruct (c =? 0); [done|]. destruct (negb _).
  { apply ends_bind. eapply ends_mono; [by apply Hout|]. intros s' Hs'. exists (length f'). auto. }
  apply ends_bind, ends_peek. intros c' f2 ->. destruct (c' =? _); cbn [tail length].
  { apply ends_bind. eapply ends_mono; [by apply Hout|]. intros s' Hs'. exists (length f2). auto. }
  apply ends_bind. eapply ends_mono; [by apply conversion_ends|]. intros [[f3 a3] s'] [Hf Hs'].
  exists (length (tail f3)). unfold shorter in Hf. cbn in Hf. split; [|done].
  destruct f3; cbn in *; lia.
Qed.

(** The two formats of [__printf], which it handles without a call of
    itself. *)
Lemma step_plain again cs n f args s : Forall (λ c, c ≠ 0 ∧ c ≠ 37) cs →
  loop (length cs + n) (vprintf_step mem output again) (cs ++ f, args, s) =
  emit output cs s ≫= λ s', loop n (vprintf_step mem output again) (f, args, s').
Proof using Type.
  intros H. revert s. induction H as [|c cs [H0 H37] _ IH]; intros s; [done|].
  assert (vprintf_step mem output again (c :: cs ++ f, args, s) =
    s' ← output c s; Ok (inl (cs ++ f, args, s'))) as Hstep.
  { unfold vprintf_step. cbn [peek head deref mbind res_bind tail]. change (ch "%") with 37.
    rewrite !(proj2 (Z.eqb_neq _ _)) by done. done. }
  cbn [length app Nat.add loop emit]. rewrite Hstep.
  destruct (output c s) as [s'|]; cbn; [apply IH|done].
Qed.

Lemma step_percent again f args s :
  vprintf_step mem output again (37 :: 37 :: f, args, s) =
    s' ← output 37 s; Ok (inl (f, args, s')).
Proof using Type. reflexivity. Qed.

Lemma step_char again f k s :
  vprintf_step mem output again (37 :: 99 :: f, [k], s) =
    s' ← output (u8 (s32 (u32 k))) s; Ok (inl (f, [], s')).
Proof using Type.
  unfold vprintf_step. cbn [peek head deref mbind res_bind tail].
  change (37 =? 0) with false. change (negb (37 =? ch "%")) with false.
  change (99 =? ch "%") with false. cbv iota. unfold conversion.
  change (parse_conversion (99 :: f) [k]) with (Ok (99 :: f, Conversion 0 0 (-1) INT, [k])).
  cbn [mbind res_bind peek head deref].
  change ((99 =? ch "d") || (99 =? ch "i")) with false.
  change ((99 =? ch "o") || (99 =? ch "u") || (99 =? ch "x") || (99 =? ch "X")) with false.
  change (99 =? ch "c") with true. cbn [va_int va_word mbind res_bind]. unfold format_string.
  cbn [width flags]. change ((1 <? 0) && negb (has 0 MINUS)) with false.
  change ((1 <? 0) && has 0 MINUS) with false. change (Z.to_nat 1) with 1%nat.
  cbn [mbind res_bind for_up text_at]. change ([u8 (s32 (u32 k))] !! Z.to_nat 0) with (Some (u8 (s32 (u32 k)))).
  cbn [deref mbind res_bind]. by destruct (output _ s).
Qed.

Lemma step_report again n f k s :
  loop (S (S n)) (vprintf_step mem output again) (37 :: 37 :: 37 :: 99 :: f, [k], s) =
  emit output [37; u8 (s32 (u32 k))] s ≫= λ s', loop n (vprintf_step mem output again) (f, [], s').
Proof using Type.
  cbn [loop]. rewrite step_percent. cbn [emit]. destruct (output 37 s) as [s1|]; cbn [mbind res_bind]; [|done].
  rewrite step_char. by destruct (output _ s1).
Qed.

Lemma printf_reports k s :
  __printf mem output (lit "<<no %%%c in kernel>>") [k] s =
    emit output (chars "<<no %" ++ [u8 (s32 (u32 k))] ++ chars " in kernel>>") s ∧
  __printf mem output (lit "<<no %%%c conversion>>") [k] s =
    emit output (chars "<<no %" ++ [u8 (s32 (u32 k))] ++ chars " conversion>>") s.
Proof using Type.
  assert (∀ t, Forall (λ c, c ≠ 0 ∧ c ≠ 37) (chars t) →
    vprintf_loop mem output (λ _ _ _, Err EFuel) (chars "<<no " ++ [37; 37; 37; 99] ++ lit t) [k] s =
    emit output (chars "<<no " ++ [37; u8 (s32 (u32 k))] ++ chars t) s) as H.
  { intros t Ht. unfold vprintf_loop. rewrite length_app.
    replace (S (length (chars "<<no ") + length ([37; 37; 37; 99] ++ lit t)))
      with (length (chars "<<no ") + S (S (length (chars t) + 4)))%nat
      by (unfold lit; rewrite !length_app; cbn; lia).
    rewrite step_plain, emit_app by (repeat constructor; done).
    destruct (emit output (chars "<<no ") s) as [s1|]; cbn [mbind res_bind]; [|done].
    cbn [app]. rewrite step_report. change (37 :: u8 (s32 (u32 k)) :: chars t)
      with ([37; u8 (s32 (u32 k))] ++ chars t). rewrite emit_app.
    destruct (emit output [37; _] s1) as [s2|]; cbn [mbind res_bind]; [|done].
    unfold lit. rewrite step_plain by done. by destruct (emit output (chars t) s2). }
  split; apply H; repeat constructor; done.
Qed.

(** Whatever the format and the arguments are, [__vprintf] ends, and it
    keeps what every single output keeps. *)
Lemma vprintf_ends format args s : P s → ends (__vprintf mem output format args s) P.
Proof using Hout.
  intros Hs. apply vprintf_loop_ends; [done|]. intros k s' Hs'.
  destruct (printf_reports k s') as [-> ->]. split; by apply emit_ends.
Qed.

(** [hex_dump] ends as well: every line takes at least one byte. *)
Lemma hex_dump_ends ofs buf_ size ascii s : P s →
  ends (hex_dump mem output ofs buf_ size ascii s) P.
Proof using Hout.
  intros Hs. unfold hex_dump.
  eapply (ends_loop (λ k '(ofs, _, size, s), k = Z.to_nat size ∧ P s)); [|by split|lia].
  clear s Hs. intros k [[[o b] n] s] [-> Hs]. destruct (Z.ltb_spec 0 n); [|done].
  pose proof vprintf_ends as Hv.
  assert (∀ m lo t, ∀ s, P s → ends (for_up m lo (λ _, __vprintf mem output (lit t) []) s) P) as Hpad.
  { intros m lo t s' Hs'. apply ends_for_up; [|done]. intros i s2 H2. by apply Hv. }
  assert (∀ m lo t (f : Z → Z → list Z) g, ∀ s, P s → ends (for_up m lo (λ i s,
    x ← rd (mem s) (g i); __vprintf mem output (lit t) (f i x) s) s) P) as Hbytes.
  { intros m lo t f g s' Hs'. apply ends_for_up; [|done]. intros i s2 H2. apply ends_bind, ends_deref.
    intros x _. by apply Hv. }
  apply ends_bind. eapply ends_mono; [by apply Hv|]. intros s1 H1.
  apply ends_bind. eapply ends_mono; [by apply Hpad|]. intros s2 H2.
  apply ends_bind. eapply ends_mono; [by apply Hbytes|]. intros s3 H3.
  apply ends_bind. apply (ends_mono _ P).
  { destruct ascii; [|done].
    apply ends_bind. eapply ends_mono; [by apply Hpad|]. intros s4 H4.
    apply ends_bind. eapply ends_mono; [by apply Hv|]. intros s5 H5.
    apply ends_bind. eapply ends_mono; [by apply Hpad|]. intros s6 H6.
    apply ends_bind. eapply ends_mono; [by apply (Hbytes _ _ _ (λ _ x, [if isprint x then x else ch "."]))|].
    intros s7 H7. apply ends_bind. eapply ends_mono; [by apply Hpad|]. intros s8 H8. by apply Hv. }
  intros s4 H4. apply ends_bind. eapply ends_mono; [by apply Hv|]. intros s5 H5. cbn.
  pose proof (Z.mod_pos_bound o 16 ltac:(lia)). eexists. split; [|split; [reflexivity|done]].
  destruct (Z.ltb_spec n (16 - o mod 16)); lia.
Qed.
End engine.

(** ** The library's promises *)

(** C36. Every loop of the [printf] engine terminates: whatever the format
    and the arguments are, [__vprintf] returns, or stops at a missing byte or
    argument, if the output function it is given does. *)
Theorem vprintf_terminates {A} (mem : A → store) (output : Z → A → res A) :
  (∀ c s, output c s ≠ Err EFuel) →
  ∀ format args s, __vprintf mem output format args s ≠ Err EFuel.
Proof.
  intros Hout format args s H.
  assert (ends (__vprintf mem output format args s) (λ _, True)) as He.
  { apply vprintf_ends; [|done]. intros c s' _. specialize (Hout c s').
    destruct (output c s') as [|e]; cbn; [done|congruence]. }
  rewrite H in He. by apply He.
Qed.

(** A console that collects what is written to it. *)
Definition console_output (c : Z) (s : list Z) : res (list Z) := Ok (s ++ [c]).

Lemma vprintf_terminates_witness :
  (∀ c s, console_output c s ≠ Err EFuel) ∧
  __vprintf (λ _, ∅) console_output (lit "%q %5d") [7; 8] [] ≠ Err EFuel.
Proof.
  split; [done|].
  apply (vprintf_terminates (λ _, ∅) console_output (λ c s, ltac:(discriminate)) (lit "%q %5d") [7; 8] []).
Defined.

(** C37. [vsnprintf] never writes outside its buffer: for every format and
    all arguments it ends, and when it returns, no byte outside the
    [BUF_SIZE] bytes of the buffer has changed, and a null byte follows the
    characters written, of which there are as many as fit before it. *)
Theorem vsnprintf_bounded (m : store) (buffer buf_size : Z) (format args : list Z) :
  0 ≤ buf_size < 2 ^ 31 → region buffer buf_size → buffer + buf_size < 2 ^ 32 →
  mapped m buffer buf_size →
  ends (vsnprintf m buffer buf_size format args) (λ '(m', n),
    0 ≤ n ∧ (∀ k, k < buffer ∨ buffer + buf_size ≤ k → m' !! k = m !! k) ∧
    (0 < buf_size → m' !! (buffer + Z.min (buf_size - 1) n) = Some 0)).
Proof.
  intros Hsize (? & _ & ?) Hend Hm. unfold vsnprintf. apply ends_bind.
  set (M := if 0 <? buf_size then s32 (buf_size - 1) else 0).
  assert (M = Z.max 0 (buf_size - 1)) as HM.
  { unfold M. destruct (Z.ltb_spec 0 buf_size); [rewrite s32_small by (split; c_unfold; lia)|]; lia. }
  clearbody M. eapply ends_mono.
  - apply (vprintf_ends heap vsnprintf_helper (λ aux, max_length aux = M ∧ 0 ≤ length_ aux ∧
      p aux = buffer + Z.min M (length_ aux) ∧ mapped (heap aux) buffer buf_size ∧
      ∀ k, k < buffer ∨ buffer + buf_size ≤ k → heap aux !! k = m !! k)).
    + intros c [h q n M'] (HM' & Hn & Hq & Hmap & Ho). cbn in *. subst M'. unfold vsnprintf_helper.
      cbn [length_ max_length heap p]. destruct (Z.eqb_spec n INT_MAX); [done|]. cbn [mbind res_bind].
      destruct (Z.ltb_spec n M).
      * rewrite wr_spec; [|split; lia|apply Hmap; lia]. cbn.
        rewrite u32_small by (split; c_unfold; lia). split_and!; try lia.
        -- intros k Hk. destruct (decide (q = k)) as [->|]; [rewrite lookup_insert_eq; by eexists|].
           rewrite lookup_insert_ne by done. by apply Hmap.
        -- intros k Hk. rewrite lookup_insert_ne by lia. by apply Ho.
      * cbn. split_and!; try lia; done.
    + cbn. split_and!; try done. lia.
  - intros [h q n M'] (_ & Hn & Hq & Hmap & Ho). cbn in *. destruct (Z.ltb_spec 0 buf_size).
    + rewrite wr_spec; [|split; lia|apply Hmap; lia]. cbn. split_and!; [done| |intros _].
      * intros k Hk. rewrite lookup_insert_ne by lia. by apply Ho.
      * rewrite Hq, HM, Z.max_r by lia. by rewrite lookup_insert_eq.
    + cbn. split_and!; [done..|lia].
Qed.

Lemma vsnprintf_bounded_witness :
  ends (vsnprintf (put ∅ 100 [1; 2; 3; 4; 5]) 100 4 (lit "%x") [3735928559]) (λ '(m', n),
    0 ≤ n ∧ (∀ k, k < 100 ∨ 104 ≤ k → m' !! k = put ∅ 100 [1; 2; 3; 4; 5] !! k) ∧
    (0 < 4 → m' !! (100 + Z.min 3 n) = Some 0)).
Proof.
  apply (vsnprintf_bounded (put ∅ 100 [1; 2; 3; 4; 5]) 100 4 (lit "%x") [3735928559]);
    try (repeat split; lia).
  intros k Hk. apply (bytes_at_mapped _ 100 [1; 2; 3; 4; 5] (bytes_at_put ∅ 100 _)). cbn. lia.
Defined.

(** [format_integer] computes the text that the conversion asks for.
    Its buffer of 64 characters never overflows, whatever the flags and the
    precision are.  Without grouping and the octal prefix, the digits it
    prints are those of the value in the base, without leading zeros and
    extended with zeros to the precision, with the sign, prefix and padding
    of the flags around them. *)
Theorem format_integer_correct {A} (output : Z → A → res A) (value : Z) (is_signed negative : bool)
    (b : integer_base) (c : printf_conversion) (s : A) :
  b ∈ bases → is_u64 value → 0 ≤ width c < 2 ^ 31 →
  ∃ buf, digits_buf value b c = Ok buf ∧ (length buf ≤ 64)%nat ∧
    format_integer output value is_signed negative b c s =
      emit output (integer_text (sign_text is_signed negative (flags c))
        (prefix_text value b (flags c)) (rev buf) c) s ∧
    (has (flags c) GROUP = false → has (flags c) POUND && (base b =? 8) = false →
     plain_digits value b c buf).
Proof.
  intros Hb Hv Hw. destruct (digits_buf_spec value b c Hb Hv) as (buf & Hbuf & Hlen & Hp).
  exists buf. split_and!; try done. apply format_integer_emit; [done..|lia].
Qed.

Lemma format_integer_witness :
  ∃ buf, digits_buf 255 base_x (Conversion 8 6 (-1) INT) = Ok buf ∧ (length buf ≤ 64)%nat ∧
    format_integer console_output 255 false false base_x (Conversion 8 6 (-1) INT) [] =
      emit console_output (integer_text [] [48; 120] (rev buf) (Conversion 8 6 (-1) INT)) [] ∧
    (has 8 GROUP = false → has 8 POUND && (16 =? 8) = false →
     plain_digits 255 base_x (Conversion 8 6 (-1) INT) buf).
Proof.
  apply (format_integer_correct console_output 255 false false base_x (Conversion 8 6 (-1) INT) []);
    [unfold bases; elems|split; lia|cbn; lia].
Defined.

(** A format that ends in a percent sign makes [__vprintf] read past the
    end of the format: after the report of the unknown conversion it skips
    the null byte that ends the format. *)
Theorem vprintf_trailing_percent (args : va_list) (s : list Z) :
  __vprintf (λ _, ∅) console_output (lit "%") args s = Err EFault.
Proof. reflexivity. Qed.
