(* ===== verification/Vaddr.v ===== *)
(** * threads/vaddr.h

    Pages and the mapping of physical memory at [PHYS_BASE].  Addresses are
    32-bit integers. *)

From S2P Require Import Prelude.

Definition BITMASK (SHIFT CNT : Z) : Z :=
  u32 (Z.shiftl (u32 (u32 (Z.shiftl 1 CNT) - 1)) SHIFT).
Definition PGSHIFT : Z := 0.
Definition PGBITS : Z := 12.
Definition PGSIZE : Z := Z.shiftl 1 PGBITS.
Definition PGMASK : Z := BITMASK PGSHIFT PGBITS.
(** [LOADER_PHYS_BASE] of threads/loader.h. *)
Definition PHYS_BASE : Z := 3221225472.

(** The complement [~x] of a 32-bit value. *)
Definition not32 (x : Z) : Z := u32 (Z.lnot x).

Definition pg_ofs (va : Z) : Z := Z.land va PGMASK.
Definition pg_no (va : Z) : Z := Z.shiftr va PGBITS.
Definition pg_round_up (va : Z) : Z := Z.land (u32 (va + PGSIZE - 1)) (not32 PGMASK).
Definition pg_round_down (va : Z) : Z := Z.land va (not32 PGMASK).
Definition is_user_vaddr (vaddr : Z) : bool := vaddr <? PHYS_BASE.
Definition is_kernel_vaddr (vaddr : Z) : bool := PHYS_BASE <=? vaddr.
Definition ptov (paddr : Z) : res Z :=
  _ ← ASSERT (paddr <? PHYS_BASE); Ok (u32 (paddr + PHYS_BASE)).
Definition vtop (vaddr : Z) : res Z :=
  _ ← ASSERT (is_kernel_vaddr vaddr); Ok (u32 (vaddr - PHYS_BASE)).

(** [ROUND_UP] and [DIV_ROUND_UP] of lib/round.h, on [size_t]. *)
Definition DIV_ROUND_UP (X STEP : Z) : Z := u32 (u32 (X + STEP) - 1) / STEP.
Definition ROUND_UP (X STEP : Z) : Z := u32 (DIV_ROUND_UP X STEP * STEP).

(** ** The page functions as arithmetic *)

Lemma pg_ofs_mod va : pg_ofs va = va mod 4096.
Proof. unfold pg_ofs. change PGMASK with (Z.ones 12). by rewrite Z.land_ones. Qed.

Lemma pg_no_div va : pg_no va = va / 4096.
Proof. unfold pg_no, PGBITS. by rewrite Z.shiftr_div_pow2. Qed.

Lemma land_not_pgmask va : is_u32 va → Z.land va (not32 PGMASK) = va / 4096 * 4096.
Proof.
  intros Hva. change (not32 PGMASK) with (Z.shiftl (Z.ones 20) 12).
  change 4096 with (2 ^ 12). rewrite <- (Z.shiftr_div_pow2 va), <- Z.shiftl_mul_pow2 by done.
  apply Z.bits_inj'. intros i Hi. rewrite Z.land_spec, !Z.shiftl_spec by done.
  destruct (Z.lt_ge_cases i 12).
  { rewrite !(Z.testbit_neg_r _ (i - 12)) by lia. by rewrite andb_false_r. }
  rewrite Z.shiftr_spec by lia. replace (i - 12 + 12) with i by lia.
  destruct (Z.lt_ge_cases i 32).
  - rewrite Z.ones_spec_low by lia. apply andb_true_r.
  - by rewrite (high_bits 32 va i).
Qed.

Lemma pg_round_down_eq va : is_u32 va → pg_round_down va = va / 4096 * 4096.
Proof. apply land_not_pgmask. Qed.

Lemma pg_round_up_eq va : 0 ≤ va ≤ 2 ^ 32 - 4096 →
  pg_round_up va = (va + 4095) / 4096 * 4096.
Proof.
  intros Hva. unfold pg_round_up. change PGSIZE with 4096.
  rewrite (u32_small (va + 4096 - 1)) by c_lia. rewrite land_not_pgmask by c_lia.
  do 2 f_equal. lia.
Qed.
