(* ===== verification/Palloc.v ===== *)
(** * threads/palloc.c

    The page allocator: two pools of pages, each with a bitmap of its pages
    in use.  A function call is one step of the model; the pools' locks make
    it one for the threads that call [palloc_get_multiple].  Memory is a map
    from addresses to bytes; the bitmaps, which lie at the base of their
    pools, are kept beside it. *)

From S2P Require Import Prelude Bitmap Vaddr.

Definition PAL_ASSERT : Z := 1.
Definition PAL_ZERO : Z := 2.
Definition PAL_USER : Z := 4.

Record pool := Pool { used_map : bitmap; base : Z }.

Definition memory := Z → Z.
Definition memset (m : memory) (dst value size : Z) : memory :=
  λ a, if (dst <=? a) && (a <? dst + size) then value else m a.

Record palloc := Palloc { kernel_pool : pool; user_pool : pool; mem : memory }.

(** The [n] 32-bit words from address [a] on, least significant byte first. *)
Definition words (m : memory) (a : Z) (n : nat) : list Z :=
  (λ i, let b := a + 4 * Z.of_nat i in
        u32 (m b + Z.shiftl (m (b + 1)) 8 + Z.shiftl (m (b + 2)) 16 + Z.shiftl (m (b + 3)) 24))
    <$> seq 0 n.

Definition init_pool (m : memory) (base page_cnt : Z) : res pool :=
  let bm_pages := DIV_ROUND_UP (bitmap_buf_size page_cnt) PGSIZE in
  if page_cnt <? bm_pages then Err EPanic else
  let page_cnt := page_cnt - bm_pages in
  used_map ← bitmap_create_in_buf page_cnt
    (words m (base + 8) (Z.to_nat (elem_cnt page_cnt))) (u32 (bm_pages * PGSIZE));
  Ok (Pool used_map (u32 (base + u32 (bm_pages * PGSIZE)))).

Definition palloc_init (m : memory) (init_ram_pages user_page_limit : Z) : res palloc :=
  free_start ← ptov (1024 * 1024);
  free_end ← ptov (u32 (init_ram_pages * PGSIZE));
  let free_pages := u32 (Z.quot (s32 (free_end - free_start)) PGSIZE) in
  let user_pages := free_pages / 2 in
  let user_pages := if user_page_limit <? user_pages then user_page_limit else user_pages in
  let kernel_pages := u32 (free_pages - user_pages) in
  kernel_pool ← init_pool m free_start kernel_pages;
  user_pool ← init_pool m (u32 (free_start + u32 (kernel_pages * PGSIZE))) user_pages;
  Ok (Palloc kernel_pool user_pool m).

Definition page_from_pool (p : pool) (page : Z) : bool :=
  let page_no := pg_no page in
  let start_page := pg_no (base p) in
  let end_page := u32 (start_page + bitmap_size (used_map p)) in
  (start_page <=? page_no) && (page_no <? end_page).

(** Which of the two pools a pointer [struct pool *] names. *)
Inductive pool_id := Kernel | User.
Definition get_pool (s : palloc) (i : pool_id) : pool :=
  match i with Kernel => kernel_pool s | User => user_pool s end.
Definition set_pool (s : palloc) (i : pool_id) (p : pool) : palloc :=
  match i with
  | Kernel => Palloc p (user_pool s) (mem s)
  | User => Palloc (kernel_pool s) p (mem s)
  end.
Definition set_mem (s : palloc) (m : memory) : palloc :=
  Palloc (kernel_pool s) (user_pool s) m.

Definition flag (flags f : Z) : bool := negb (Z.land flags f =? 0).

Definition palloc_get_multiple (s : palloc) (flags page_cnt : Z) : res (palloc * Z) :=
  let i := if flag flags PAL_USER then User else Kernel in
  let pool := get_pool s i in
  if page_cnt =? 0 then Ok (s, 0) else
  '(m, page_idx) ← bitmap_scan_and_flip (used_map pool) 0 page_cnt false;
  let s := set_pool s i (Pool m (base pool)) in
  let pages := if negb (page_idx =? BITMAP_ERROR)
               then u32 (base pool + u32 (PGSIZE * page_idx)) else 0 in
  if negb (pages =? 0) then
    let s := if flag flags PAL_ZERO
             then set_mem s (memset (mem s) pages 0 (u32 (PGSIZE * page_cnt))) else s in
    Ok (s, pages)
  else if flag flags PAL_ASSERT then Err EPanic
  else Ok (s, pages).

Definition palloc_get_page (s : palloc) (flags : Z) : res (palloc * Z) :=
  palloc_get_multiple s flags 1.

Definition palloc_free_multiple (s : palloc) (pages page_cnt : Z) : res palloc :=
  _ ← ASSERT (pg_ofs pages =? 0);
  if (pages =? 0) || (page_cnt =? 0) then Ok s else
  i ← (if page_from_pool (kernel_pool s) pages then Ok Kernel
       else if page_from_pool (user_pool s) pages then Ok User
       else Err EPanic);
  let pool := get_pool s i in
  let page_idx := u32 (pg_no pages - pg_no (base pool)) in
  let s := set_mem s (memset (mem s) pages 204 (u32 (PGSIZE * page_cnt))) in
  all ← bitmap_all (used_map pool) page_idx page_cnt;
  _ ← ASSERT all;
  m ← bitmap_set_multiple (used_map pool) page_idx page_cnt false;
  Ok (set_pool s i (Pool m (base pool))).

Definition palloc_free_page (s : palloc) (page : Z) : res palloc :=
  palloc_free_multiple s page 1.

(** ** Pages in use *)

Record pool_wf (p : pool) : Prop := {
  pool_bits : bitmap_wf (used_map p);
  pool_align : base p mod 4096 = 0;
  pool_range : PHYS_BASE < base p ∧ base p + 4096 * bit_cnt (used_map p) ≤ 2 ^ 32;
}.

(** Page number [n] belongs to the pool; it is in use. *)
Definition in_pool (p : pool) (n : Z) : bool :=
  (base p / 4096 <=? n) && (n <? base p / 4096 + bit_cnt (used_map p)).
Definition used (p : pool) (n : Z) : bool :=
  in_pool p n && bit (used_map p) (n - base p / 4096).
Definition page_used (s : palloc) (n : Z) : bool :=
  used (kernel_pool s) n || used (user_pool s) n.

Record palloc_wf (s : palloc) : Prop := {
  wf_pool i : pool_wf (get_pool s i);
  wf_disjoint : base (kernel_pool s) + 4096 * bit_cnt (used_map (kernel_pool s))
                  ≤ base (user_pool s);
}.

(** The pools lie where they did. *)
Definition same_pools (s s' : palloc) : Prop :=
  ∀ i, base (get_pool s' i) = base (get_pool s i) ∧
    bit_cnt (used_map (get_pool s' i)) = bit_cnt (used_map (get_pool s i)).

(** Exactly the [cnt] pages from page number [n] on change, and become [v]. *)
Definition flips (s s' : palloc) (n cnt : Z) (v : bool) : Prop :=
  ∀ k, page_used s' k = if (n <=? k) && (k <? n + cnt) then v else page_used s k.

Lemma used_sets p m r cnt v k : 0 ≤ r → r + cnt ≤ bit_cnt (used_map p) →
  sets (used_map p) m r cnt v →
  used (Pool m (base p)) k =
    if (base p / 4096 + r <=? k) && (k <? base p / 4096 + r + cnt) then v else used p k.
Proof.
  intros Hr Hc (_ & Hcnt & Hb). unfold used, in_pool. cbn. rewrite Hcnt.
  destruct (Z.leb_spec (base p / 4096) k); cbn.
  2: { by replace (base p / 4096 + r <=? k) with false by lia. }
  destruct (Z.ltb_spec k (base p / 4096 + bit_cnt (used_map p))); cbn.
  2: { replace (k <? base p / 4096 + r + cnt) with false by lia. by rewrite andb_false_r. }
  rewrite Hb by lia.
  replace (r <=? k - base p / 4096) with (base p / 4096 + r <=? k) by lia.
  by replace (k - base p / 4096 <? r + cnt) with (k <? base p / 4096 + r + cnt) by lia.
Qed.

(** The two pools have no page in common. *)
Lemma pools_disjoint s i j n : palloc_wf s → in_pool (get_pool s i) n = true →
  in_pool (get_pool s j) n = true → i = j.
Proof.
  intros Hs. pose proof (wf_disjoint _ Hs).
  pose proof (pool_align _ (wf_pool _ Hs Kernel)). pose proof (pool_align _ (wf_pool _ Hs User)).
  destruct i, j; cbn in *; unfold in_pool; intros; done || c_lia.
Qed.

Lemma page_used_pool s i n : palloc_wf s → in_pool (get_pool s i) n = true →
  page_used s n = used (get_pool s i) n.
Proof.
  intros Hs Hi. unfold page_used, used.
  destruct (in_pool (kernel_pool s) n) eqn:E1, (in_pool (user_pool s) n) eqn:E2.
  - assert (Kernel = User) by by apply (pools_disjoint s _ _ n Hs). done.
  - destruct i; cbn in *; rewrite ?E1, ?E2 in *; [|done]. apply orb_false_r.
  - destruct i; cbn in *; rewrite ?E1, ?E2 in *; done.
  - destruct i; cbn in *; congruence.
Qed.

(** Setting a range of a pool's bitmap changes the use of these pages only. *)
Lemma set_pool_flips s i m r cnt v : palloc_wf s → 0 ≤ r → 0 ≤ cnt →
  r + cnt ≤ bit_cnt (used_map (get_pool s i)) →
  sets (used_map (get_pool s i)) m r cnt v →
  let s' := set_pool s i (Pool m (base (get_pool s i))) in
  palloc_wf s' ∧ same_pools s s' ∧
  flips s s' (base (get_pool s i) / 4096 + r) cnt v.
Proof.
  intros Hs Hr Hcnt Hc Hm s'. pose proof Hm as (Hw & Hcn & _).
  assert (same_pools s s') as Hsame by (intros []; destruct i; cbn in *; auto).
  split_and!; [|done|].
  - split.
    + intros j. destruct (wf_pool _ Hs j) as [H1 H2 H3], (Hsame j) as [E1 E2].
      split; rewrite ?E1, ?E2; try done. destruct i, j; cbn in *; done.
    + destruct (Hsame Kernel) as [E1 E2], (Hsame User) as [E3 E4]. cbn [get_pool] in *.
      rewrite E1, E2, E3. apply (wf_disjoint _ Hs).
  - intros k. pose proof (used_sets _ _ _ _ _ k Hr Hc Hm) as Hu.
    assert ((base (get_pool s i) / 4096 + r <=? k) && (k <? base (get_pool s i) / 4096 + r + cnt) = true
      → in_pool (get_pool s i) k = true) as Hin by (unfold in_pool; lia).
    destruct (_ && _) eqn:E.
    + specialize (Hin eq_refl). unfold page_used. subst s'.
      destruct (in_pool (kernel_pool s) k) eqn:E1, (in_pool (user_pool s) k) eqn:E2.
      * assert (Kernel = User) by by apply (pools_disjoint s _ _ k Hs). done.
      * destruct i; cbn in *; [|congruence]. rewrite Hu. unfold used. rewrite E2. apply orb_false_r.
      * destruct i; cbn in *; [congruence|]. rewrite Hu. unfold used. by rewrite E1.
      * destruct i; cbn in *; congruence.
    + unfold page_used. subst s'. destruct i; cbn in *; by rewrite Hu.
Qed.

(** What a successful [palloc_get_multiple] gives: [cnt] pages of the pool
    that were free and are now in use, and nothing else changes. *)
Record got_pages (s s' : palloc) (i : pool_id) (a cnt : Z) : Prop := {
  got_wf : palloc_wf s';
  got_same : same_pools s s';
  got_align : a mod 4096 = 0;
  got_range : base (get_pool s i) ≤ a ∧
    a + 4096 * cnt ≤ base (get_pool s i) + 4096 * bit_cnt (used_map (get_pool s i));
  got_free k : a / 4096 ≤ k < a / 4096 + cnt → page_used s k = false;
  got_used : flips s s' (a / 4096) cnt true;
}.

(** No [cnt] consecutive pages of the pool are free. *)
Definition out_of_pages (s : palloc) (i : pool_id) (cnt : Z) : Prop :=
  ∀ n, (∀ k, n ≤ k < n + cnt → in_pool (get_pool s i) k = true) →
    ¬ (∀ k, n ≤ k < n + cnt → page_used s k = false).

Lemma wf_set_mem s m : palloc_wf s → palloc_wf (set_mem s m).
Proof. intros [H1 H2]. split; [|done]. intros i. specialize (H1 i). by destruct i. Qed.

Lemma got_set_mem s s' i a cnt m : got_pages s s' i a cnt → got_pages s (set_mem s' m) i a cnt.
Proof.
  intros [H1 H2 H3 H4 H5 H6]. split; try done. by apply wf_set_mem.
Qed.

Definition pool_of (flags : Z) : pool_id := if flag flags PAL_USER then User else Kernel.

Lemma palloc_get_spec s flags cnt : palloc_wf s → 0 < cnt < 2 ^ 32 →
  (out_of_pages s (pool_of flags) cnt ∧
   palloc_get_multiple s flags cnt = if flag flags PAL_ASSERT then Err EPanic else Ok (s, 0)) ∨
  (∃ s' a, palloc_get_multiple s flags cnt = Ok (s', a) ∧ a ≠ 0 ∧
     got_pages s s' (pool_of flags) a cnt ∧
     mem s' = if flag flags PAL_ZERO then memset (mem s) a 0 (4096 * cnt) else mem s).
Proof.
  intros Hs Hc. unfold palloc_get_multiple. fold (pool_of flags). set (i := pool_of flags).
  rewrite (proj2 (Z.eqb_neq cnt 0)) by lia.
  destruct (wf_pool _ Hs i) as [Hw Ha Hr]. pose proof (wf_cnt _ Hw). unfold PHYS_BASE in Hr.
  destruct (bitmap_scan_and_flip_spec (used_map (get_pool s i)) 0 cnt false)
    as (m & r & -> & [(-> & -> & Hno)|(Hne & (Hr0 & Hrc & Hg & _) & Hm)]); [done|lia|lia|..];
    cbn [mbind res_bind].
  - left. rewrite Z.eqb_refl. cbn [negb]. rewrite Z.eqb_refl. cbn [negb]. split.
    + intros n Hin Hfree. remember (base (get_pool s i) / 4096) as b eqn:Eb.
      assert (b ≤ n ∧ n + cnt ≤ b + bit_cnt (used_map (get_pool s i))).
      { pose proof (Hin n). pose proof (Hin (n + cnt - 1)). unfold in_pool in *. lia. }
      apply (Hno (n - b)); [lia|lia|]. intros j Hj.
      specialize (Hfree (j + b)). rewrite (page_used_pool s i) in Hfree by (done || (apply Hin; lia)).
      unfold used in Hfree. rewrite Hin, <- Eb in Hfree by lia. cbn in Hfree.
      replace (j + b - b) with j in Hfree by lia. apply Hfree; lia.
    + destruct (flag flags PAL_ASSERT); [done|]. do 2 f_equal.
      destruct s as [[] [] ?], i; done.
  - right. rewrite (proj2 (Z.eqb_neq r _)) by done. cbn [negb]. change PGSIZE with 4096.
    rewrite (u32_small (4096 * r)), (u32_small (base _ + _)) by c_lia.
    rewrite (proj2 (Z.eqb_neq _ 0)) by lia. cbn [negb].
    destruct (set_pool_flips s i m r cnt true) as (Hs' & Hsame & Hf); [done..|lia|lia|done|].
    set (a := base (get_pool s i) + 4096 * r).
    set (s' := set_pool s i _) in *.
    assert (a / 4096 = base (get_pool s i) / 4096 + r) as Ea by (subst a; c_lia).
    assert (got_pages s s' i a cnt) as Hgot.
    { split; try (done || (subst a; c_lia)).
      - intros k Hk. rewrite (page_used_pool s i) by (done || unfold in_pool; lia).
        unfold used. rewrite (Hg (k - base (get_pool s i) / 4096)) by lia. apply andb_false_r.
      - by rewrite Ea. }
    destruct (flag flags PAL_ZERO) eqn:Ez; do 2 eexists; (split; [done|]);
      (split; [subst a; lia|]); split.
    + by apply got_set_mem.
    + rewrite (u32_small (4096 * cnt)) by (unfold is_u32; lia). by destruct i.
    + done.
    + by destruct i.
Qed.

(** [cnt] pages from address [a] on, inside pool [i]. *)
Definition pages_in (s : palloc) (i : pool_id) (a cnt : Z) : Prop :=
  a mod 4096 = 0 ∧ base (get_pool s i) ≤ a ∧
  a + 4096 * cnt ≤ base (get_pool s i) + 4096 * bit_cnt (used_map (get_pool s i)).

Lemma page_from_pool_spec s i a : palloc_wf s →
  page_from_pool (get_pool s i) a = in_pool (get_pool s i) (a / 4096).
Proof.
  intros Hs. destruct (wf_pool _ Hs i) as [Hw Ha Hr]. unfold PHYS_BASE in *.
  unfold page_from_pool, in_pool, bitmap_size. rewrite !pg_no_div, u32_small; [done|].
  pose proof (wf_cnt _ Hw). c_lia.
Qed.

Lemma find_pool s i a : palloc_wf s → in_pool (get_pool s i) (a / 4096) = true →
  (if page_from_pool (kernel_pool s) a then Ok Kernel
   else if page_from_pool (user_pool s) a then Ok User else Err EPanic) = Ok i.
Proof.
  intros Hs Hi.
  change (kernel_pool s) with (get_pool s Kernel). change (user_pool s) with (get_pool s User).
  rewrite !page_from_pool_spec by done.
  destruct (in_pool (get_pool s Kernel) (a / 4096)) eqn:E1.
  - f_equal. by apply (pools_disjoint s _ _ (a / 4096)).
  - destruct i; [congruence|by rewrite Hi].
Qed.

Lemma palloc_free_spec s i a cnt : palloc_wf s → 0 < cnt → pages_in s i a cnt →
  palloc_free_multiple s a cnt = Err EAssert ∧
    (∃ k, a / 4096 ≤ k < a / 4096 + cnt ∧ page_used s k = false) ∨
  (∀ k, a / 4096 ≤ k < a / 4096 + cnt → page_used s k = true) ∧
  ∃ s', palloc_free_multiple s a cnt = Ok s' ∧ palloc_wf s' ∧ same_pools s s' ∧
    flips s s' (a / 4096) cnt false ∧ mem s' = memset (mem s) a 204 (4096 * cnt).
Proof.
  intros Hs Hc (Ha & Hlo & Hhi). destruct (wf_pool _ Hs i) as [Hw Hal Hr]. unfold PHYS_BASE in *.
  pose proof (wf_cnt _ Hw).
  unfold palloc_free_multiple. rewrite pg_ofs_mod, Ha. cbn [Z.eqb ASSERT mbind res_bind].
  rewrite (proj2 (Z.eqb_neq a 0)), (proj2 (Z.eqb_neq cnt 0)) by lia. cbn [orb].
  remember (base (get_pool s i) / 4096) as b eqn:Eb.
  assert (∀ k, a / 4096 ≤ k < a / 4096 + cnt → in_pool (get_pool s i) k = true) as Hin
    by (intros k Hk; unfold in_pool; c_lia).
  rewrite (find_pool s i a) by (done || (apply Hin; lia)).
  cbn [mbind res_bind]. rewrite !pg_no_div, <- Eb. change PGSIZE with 4096.
  assert (b ≤ a / 4096 ∧ a / 4096 - b + cnt ≤ bit_cnt (used_map (get_pool s i))) as [H1 H2]
    by (subst b; c_lia).
  rewrite (u32_small (a / 4096 - b)), (u32_small (4096 * cnt)) by (unfold is_u32; lia).
  assert (∀ k, a / 4096 ≤ k < a / 4096 + cnt →
    page_used s k = bit (used_map (get_pool s i)) (k - b)) as Hu.
  { intros k Hk. rewrite (page_used_pool s i) by (done || by apply Hin).
    unfold used. rewrite Hin, Eb by done. done. }
  unfold bitmap_all. destruct (bitmap_contains_spec (used_map (get_pool s i)) (a / 4096 - b) cnt false)
    as (r & -> & Hcon); [done|lia|lia|lia|]. destruct r; cbn [mbind res_bind negb ASSERT].
  - left. split; [done|]. destruct Hcon as (j & Hj & Hb). exists (j + b). split; [lia|].
    rewrite Hu by lia. by replace (j + b - b) with j by lia.
  - right. split; [intros k Hk; rewrite Hu by done; apply Hcon; lia|].
    destruct (bitmap_set_multiple_spec (used_map (get_pool s i)) (a / 4096 - b) cnt false)
      as (m & -> & Hm); [done|lia..|]. cbn [mbind res_bind].
    destruct (set_pool_flips (set_mem s (memset (mem s) a 204 (4096 * cnt))) i m (a / 4096 - b) cnt false)
      as (Hs' & Hsame & Hf); [by apply wf_set_mem|lia|lia|by destruct i|by destruct i|].
    eexists. split; [done|].
    assert (get_pool (set_mem s (memset (mem s) a 204 (4096 * cnt))) i = get_pool s i) as Eg
      by (by destruct i).
    rewrite Eg, <- Eb in *.
    replace (b + (a / 4096 - b)) with (a / 4096) in Hf by lia.
    split_and!; [done| |done|by destruct i].
    intros j. specialize (Hsame j). by destruct j.
Qed.

Lemma words_u32 m a n : Forall is_u32 (words m a n).
Proof. apply Forall_fmap, Forall_true. intros i. apply u32_range. Qed.

Lemma bitmap_buf_size_eq n : 0 ≤ n < 2 ^ 18 → bitmap_buf_size n = 8 + 4 * ((n + 31) / 32).
Proof. intros Hn. unfold bitmap_buf_size, byte_cnt. rewrite elem_cnt_eq by lia. c_lia. Qed.

(** The pool's bitmap takes the first pages of the pool's memory, and all the
    pages that are left are free. *)
Lemma init_pool_spec m b n : PHYS_BASE < b → b mod 4096 = 0 → 0 < n < 2 ^ 18 →
  b + 4096 * n < 2 ^ 32 →
  ∃ p, init_pool m b n = Ok p ∧ pool_wf p ∧ b < base p ∧
    base p + 4096 * bit_cnt (used_map p) = b + 4096 * n ∧ (∀ k, used p k = false).
Proof.
  intros Hb Ha Hn He. unfold init_pool, PHYS_BASE in *. change PGSIZE with 4096.
  pose proof (bitmap_buf_size_eq n ltac:(lia)) as Ebs.
  set (k := DIV_ROUND_UP (bitmap_buf_size n) 4096).
  assert (k = (bitmap_buf_size n + 4095) / 4096) as Ek by (unfold k, DIV_ROUND_UP; c_lia).
  assert (0 < k ≤ n ∧ bitmap_buf_size n ≤ 4096 * k) as [Hk Hsz] by (rewrite Ek; c_lia).
  clearbody k. rewrite (proj2 (Z.ltb_ge n k)) by lia.
  destruct (bitmap_create_in_buf_spec (n - k) (words m (b + 8) (Z.to_nat (elem_cnt (n - k))))
    (u32 (k * 4096))) as (bm & _ & -> & Hw & Hc & Hbits).
  - lia.
  - unfold words. rewrite length_fmap, length_seq. rewrite elem_cnt_eq by lia. c_lia.
  - apply words_u32.
  - rewrite (u32_small (k * 4096)) by (unfold is_u32; lia).
    rewrite bitmap_buf_size_eq in * by lia.
    pose proof (Z.div_le_mono (n - k + 31) (n + 31) 32). lia.
  - cbn [mbind res_bind]. eexists. split; [done|].
    rewrite (u32_small (k * 4096)), (u32_small (b + k * 4096)) by (unfold is_u32; lia).
    split_and!; [split; cbn; [done|c_lia|unfold PHYS_BASE; lia]|cbn; lia|cbn; lia|].
    intros j. unfold used, in_pool. cbn. rewrite Hc.
    apply not_true_is_false. intros [Hj Hbit]%andb_true_iff. rewrite Hbits in Hbit by lia. done.
Qed.

Lemma palloc_init_spec m ram limit : 258 ≤ ram < 2 ^ 18 → 0 < limit < 2 ^ 32 →
  ∃ s, palloc_init m ram limit = Ok s ∧ palloc_wf s ∧
    (∀ n, page_used s n = false) ∧ bit_cnt (used_map (user_pool s)) < limit ∧
    base (user_pool s) + 4096 * bit_cnt (used_map (user_pool s)) = PHYS_BASE + 4096 * ram.
Proof.
  intros Hram Hlim. unfold palloc_init, ptov, PHYS_BASE. change PGSIZE with 4096.
  rewrite (u32_small (ram * 4096)) by c_lia.
  rewrite (proj2 (Z.ltb_lt (1024 * 1024) _)), (proj2 (Z.ltb_lt (ram * 4096) _)) by lia.
  cbn [ASSERT mbind res_bind]. change (u32 (1024 * 1024 + 3221225472)) with 3222274048.
  rewrite (u32_small (ram * 4096 + 3221225472)) by c_lia.
  set (free_pages := u32 (Z.quot _ _)).
  assert (free_pages = ram - 256) as ->.
  { unfold free_pages. rewrite s32_small by c_lia. rewrite Z.quot_div_nonneg by lia. c_lia. }
  set (u := if limit <? (ram - 256) / 2 then limit else (ram - 256) / 2).
  assert (0 < u ≤ limit ∧ u < ram - 256) as Hu by (unfold u; destruct (Z.ltb_spec limit ((ram - 256) / 2)); c_lia).
  clearbody u. rewrite (u32_small (ram - 256 - u)) by c_lia.
  destruct (init_pool_spec m 3222274048 (ram - 256 - u)) as (kp & -> & Hk & Hkb & Hke & Hku);
    [unfold PHYS_BASE; lia|done|lia|lia|]. cbn [mbind res_bind].
  rewrite (u32_small ((ram - 256 - u) * 4096)), (u32_small (3222274048 + _)) by c_lia.
  destruct (init_pool_spec m (3222274048 + (ram - 256 - u) * 4096) u) as (up & -> & Hup & Hub & Hue & Huu);
    [unfold PHYS_BASE; lia|c_lia|lia|lia|]. cbn [mbind res_bind].
  eexists. split; [done|]. split_and!.
  - split; [by intros []|cbn; lia].
  - intros n. unfold page_used. cbn. by rewrite Hku, Huu.
  - cbn. lia.
  - cbn. lia.
Qed.

(** ** Theorems *)

(** [palloc_init] divides the memory above 1 MB into two well-formed
    pools with no page in common, all of whose pages are free, for any
    machine of more than 1 MB and 8 kB and less than 1 GB and any non-zero
    limit on the user pool, which it respects. *)
Theorem palloc_init_correct m ram limit : 258 ≤ ram < 2 ^ 18 → 0 < limit < 2 ^ 32 →
  ∃ s, palloc_init m ram limit = Ok s ∧ palloc_wf s ∧
    (∀ n, page_used s n = false) ∧ bit_cnt (used_map (user_pool s)) < limit ∧
    base (user_pool s) + 4096 * bit_cnt (used_map (user_pool s)) = PHYS_BASE + 4096 * ram.
Proof. apply palloc_init_spec. Qed.

(** [palloc_get_multiple] gives page-aligned pages of the requested pool
    that were free, marks exactly these as used, and zeroes them if asked to;
    only when no group of enough free pages exists does it return a null
    pointer, or panic if asked to. *)
Theorem palloc_get_correct s flags cnt : palloc_wf s → 0 < cnt < 2 ^ 32 →
  (out_of_pages s (pool_of flags) cnt ∧
   palloc_get_multiple s flags cnt = if flag flags PAL_ASSERT then Err EPanic else Ok (s, 0)) ∨
  (∃ s' a, palloc_get_multiple s flags cnt = Ok (s', a) ∧ a ≠ 0 ∧
     got_pages s s' (pool_of flags) a cnt ∧
     mem s' = if flag flags PAL_ZERO then memset (mem s) a 0 (4096 * cnt) else mem s).
Proof. apply palloc_get_spec. Qed.

(** [palloc_free_multiple] frees exactly the pages it is given, in the
    pool they belong to, and overwrites them; if one of them is not in use,
    an assertion fails. *)
Theorem palloc_free_correct s i a cnt : palloc_wf s → 0 < cnt → pages_in s i a cnt →
  palloc_free_multiple s a cnt = Err EAssert ∧
    (∃ k, a / 4096 ≤ k < a / 4096 + cnt ∧ page_used s k = false) ∨
  (∀ k, a / 4096 ≤ k < a / 4096 + cnt → page_used s k = true) ∧
  ∃ s', palloc_free_multiple s a cnt = Ok s' ∧ palloc_wf s' ∧ same_pools s s' ∧
    flips s s' (a / 4096) cnt false ∧ mem s' = memset (mem s) a 204 (4096 * cnt).
Proof. apply palloc_free_spec. Qed.

(** ** Witnesses *)

Definition demo_init : res palloc := palloc_init (λ _, 0) 300 8.
Definition demo_pages : palloc := result (Palloc (Pool (Bitmap 0 []) 0) (Pool (Bitmap 0 []) 0) (λ _, 0)) demo_init.
Lemma demo_pages_wf : palloc_wf demo_pages.
Proof.
  unfold demo_pages, demo_init.
  destruct (palloc_init_spec (λ _, 0) 300 8) as (s & -> & Hs & _); [lia|lia|done].
Qed.

Lemma palloc_init_witness : ∃ s, palloc_init (λ _, 0) 300 8 = Ok s ∧ palloc_wf s.
Proof.
  destruct (palloc_init_correct (λ _, 0) 300 8) as (s & E & Hs & _); [lia|lia|].
  exists s. split; [exact E|exact Hs].
Defined.

Lemma palloc_get_witness : ∃ s a, palloc_get_multiple demo_pages PAL_USER 3 = Ok (s, a) ∧ a ≠ 0.
Proof.
  destruct (palloc_get_correct demo_pages PAL_USER 3) as [[_ E]|(s & a & E & Ha & _)].
  - exact demo_pages_wf.
  - lia.
  - vm_compute in E. discriminate E.
  - exists s, a. split; [exact E|exact Ha].
Defined.

Lemma palloc_free_witness : palloc_free_multiple demo_pages (base (user_pool demo_pages)) 2 = Err EAssert.
Proof.
  destruct (palloc_free_correct demo_pages User (base (user_pool demo_pages)) 2)
    as [[E _]|[H _]].
  - exact demo_pages_wf.
  - lia.
  - vm_compute. split; [reflexivity|]. split; discriminate.
  - exact E.
  - specialize (H (base (user_pool demo_pages) / 4096)). vm_compute in H.
    discriminate H. split; [discriminate|reflexivity].
Defined.
