(* ===== verification/Malloc.v ===== *)
(** * threads/malloc.c

    The block allocator.  A request is served from the free list of the
    smallest sufficient block size, whose blocks are cut from one-page
    arenas, or, when it is too big, by whole pages.  The arena headers,
    which the code keeps at the start of their pages, are a map from page
    addresses; the free lists, whose links the code keeps in the free
    blocks, are sequences of block addresses.  A function call is one step;
    the descriptors' locks make it one for the threads that call it. *)

From stdpp Require Import gmap.
From S2P Require Import Prelude Bitmap Vaddr Palloc.

Record desc := Desc {
  desc_block_size : Z;
  blocks_per_arena : Z;
  free_list : list Z;
}.

Definition ARENA_MAGIC : Z := 2589232877.

Record arena := Arena {
  magic : Z;
  arena_desc : option nat;   (* index of the descriptor, none for a big block *)
  free_cnt : Z;
}.
Definition sizeof_arena : Z := 12.

Record heap := Heap { pal : palloc; descs : list desc; arenas : gmap Z arena }.

Definition malloc_init (p : palloc) : res heap :=
  ds ← loop 32 (λ '(block_size, ds),
    if block_size <? Z.quot PGSIZE 2 then
      let ds := ds ++ [Desc block_size ((PGSIZE - sizeof_arena) / block_size) []] in
      _ ← ASSERT (Nat.leb (length ds) 10);
      Ok (inl (u32 (block_size * 2), ds))
    else Ok (inr ds)) (16, []);
  Ok (Heap p ds ∅).

Definition get_desc (h : heap) (A : arena) : option desc :=
  match arena_desc A with Some i => descs h !! i | None => None end.

Definition block_to_arena (h : heap) (b : Z) : res Z :=
  let a := pg_round_down b in
  _ ← ASSERT (negb (a =? 0));
  A ← deref (arenas h !! a);
  _ ← ASSERT (magic A =? ARENA_MAGIC);
  _ ← ASSERT (match get_desc h A with
              | None => true
              | Some d => u32 (pg_ofs b - sizeof_arena) mod desc_block_size d =? 0
              end);
  _ ← ASSERT (match get_desc h A with
              | None => pg_ofs b =? sizeof_arena
              | Some _ => true
              end);
  Ok a.

Definition arena_to_block (h : heap) (a idx : Z) : res Z :=
  _ ← ASSERT (negb (a =? 0));
  A ← deref (arenas h !! a);
  _ ← ASSERT (magic A =? ARENA_MAGIC);
  d ← deref (get_desc h A);
  _ ← ASSERT (idx <? blocks_per_arena d);
  Ok (u32 (a + sizeof_arena + u32 (idx * desc_block_size d))).

Definition set_arena (h : heap) (a : Z) (A : arena) : heap :=
  Heap (pal h) (descs h) (<[a := A]> (arenas h)).
Definition set_pal (h : heap) (p : palloc) : heap := Heap p (descs h) (arenas h).
Definition set_free_list (h : heap) (i : nat) (l : list Z) : heap :=
  Heap (pal h)
    (alter (λ d, Desc (desc_block_size d) (blocks_per_arena d) l) i (descs h))
    (arenas h).

(** [list_push_back], [list_push_front], [list_pop_front] and [list_remove]
    on the free list of descriptor [i]. *)
Definition push_back (h : heap) (i : nat) (b : Z) : res heap :=
  d ← deref (descs h !! i); Ok (set_free_list h i (free_list d ++ [b])).
Definition push_front (h : heap) (i : nat) (b : Z) : res heap :=
  d ← deref (descs h !! i); Ok (set_free_list h i (b :: free_list d)).
Definition pop_front (h : heap) (i : nat) : res (heap * Z) :=
  d ← deref (descs h !! i);
  match free_list d with
  | [] => Err EAssert
  | b :: l => Ok (set_free_list h i l, b)
  end.
Definition remove_block (h : heap) (i : nat) (b : Z) : res heap :=
  d ← deref (descs h !! i);
  if decide (b ∈ free_list d)
  then Ok (set_free_list h i (filter (λ c, c ≠ b) (free_list d)))
  else Err EFault.

(** The arena of [malloc]'s empty free list: a fresh page cut into blocks. *)
Definition new_arena (h : heap) (i : nat) (a : Z) : res heap :=
  d ← deref (descs h !! i);
  let h := set_arena h a (Arena ARENA_MAGIC (Some i) (blocks_per_arena d)) in
  for_up (Z.to_nat (blocks_per_arena d)) 0 (λ k h,
    b ← arena_to_block h a k; push_back h i b) h.

(** The end of [malloc]: take a block from the free list. *)
Definition take_block (h : heap) (i : nat) : res (heap * Z) :=
  '(h, b) ← pop_front h i;
  a ← block_to_arena h b;
  A ← deref (arenas h !! a);
  Ok (set_arena h a (Arena (magic A) (arena_desc A) (u32 (free_cnt A - 1))), b).

Definition malloc (h : heap) (size : Z) : res (heap * Z) :=
  if size =? 0 then Ok (h, 0) else
  match list_find (λ d, size ≤ desc_block_size d) (descs h) with
  | None =>
      let page_cnt := DIV_ROUND_UP (u32 (size + sizeof_arena)) PGSIZE in
      '(p, a) ← palloc_get_multiple (pal h) 0 page_cnt;
      let h := set_pal h p in
      if a =? 0 then Ok (h, 0) else
      Ok (set_arena h a (Arena ARENA_MAGIC None page_cnt), u32 (a + sizeof_arena))
  | Some (i, d) =>
      match free_list d with
      | [] =>
          '(p, a) ← palloc_get_page (pal h) 0;
          let h := set_pal h p in
          if a =? 0 then Ok (h, 0) else
          h ← new_arena h i a; take_block h i
      | _ :: _ => take_block h i
      end
  end.

Definition memory_set (h : heap) (p value size : Z) : heap :=
  set_pal h (set_mem (pal h) (memset (mem (pal h)) p value size)).

Definition calloc (h : heap) (a b : Z) : res (heap * Z) :=
  let size := u32 (a * b) in
  if (size <? a) || (size <? b) then Ok (h, 0) else
  '(h, p) ← malloc h size;
  if negb (p =? 0) then Ok (memory_set h p 0 size, p) else Ok (h, p).

Definition block_size (h : heap) (block : Z) : res Z :=
  a ← block_to_arena h block;
  A ← deref (arenas h !! a);
  Ok (match get_desc h A with
      | Some d => desc_block_size d
      | None => u32 (u32 (PGSIZE * free_cnt A) - pg_ofs block)
      end).

(** [palloc_free_multiple] overwrites the arena header with the page. *)
Definition free_arena (h : heap) (a cnt : Z) : res heap :=
  p ← palloc_free_multiple (pal h) a cnt;
  Ok (Heap p (descs h) (delete a (arenas h))).

(** The arena is now entirely unused: take its blocks off the free list and
    give the page back. *)
Definition retire_arena (h : heap) (i : nat) (d : desc) (a : Z) : res heap :=
  h ← for_up (Z.to_nat (blocks_per_arena d)) 0 (λ k h,
    b ← arena_to_block h a k; remove_block h i b) h;
  free_arena h a 1.

Definition free (h : heap) (p : Z) : res heap :=
  if negb (p =? 0) then
    a ← block_to_arena h p;
    A ← deref (arenas h !! a);
    match arena_desc A with
    | Some i =>
        d ← deref (descs h !! i);
        let h := memory_set h p 204 (desc_block_size d) in
        h ← push_front h i p;
        let A := Arena (magic A) (arena_desc A) (u32 (free_cnt A + 1)) in
        let h := set_arena h a A in
        if blocks_per_arena d <=? free_cnt A then
          _ ← ASSERT (free_cnt A =? blocks_per_arena d);
          retire_arena h i d a
        else Ok h
    | None => free_arena h a (free_cnt A)
    end
  else Ok h.

Definition memcpy (m : memory) (dst src size : Z) : memory :=
  λ a, if (dst <=? a) && (a <? dst + size) then m (src + (a - dst)) else m a.

Definition realloc (h : heap) (old_block new_size : Z) : res (heap * Z) :=
  if new_size =? 0 then
    h ← free h old_block; Ok (h, 0)
  else
    '(h, new_block) ← malloc h new_size;
    if negb (old_block =? 0) && negb (new_block =? 0) then
      old_size ← block_size h old_block;
      let min_size := if new_size <? old_size then new_size else old_size in
      let h := set_pal h (set_mem (pal h) (memcpy (mem (pal h)) new_block old_block min_size)) in
      h ← free h old_block;
      Ok (h, new_block)
    else Ok (h, new_block).

(** ** The invariant of the heap *)

(** The sizes and numbers of blocks that [malloc_init] sets up. *)
Definition desc_table : list (Z * Z) :=
  [(16, 255); (32, 127); (64, 63); (128, 31); (256, 15); (512, 7); (1024, 3)].

(** The blocks of the arena at [a] of descriptor [d]. *)
Definition block_at (a : Z) (d : desc) (k : Z) : Z := a + 12 + k * desc_block_size d.
Definition blocks (a : Z) (d : desc) : list Z :=
  (λ k, block_at a d (Z.of_nat k)) <$> seq 0 (Z.to_nat (blocks_per_arena d)).

Definition page_of (b : Z) : Z := b / 4096 * 4096.
Definition free_in (a : Z) (d : desc) : list Z := filter (λ b, page_of b = a) (free_list d).

Definition arena_pages (A : arena) : Z :=
  match arena_desc A with Some _ => 1 | None => free_cnt A end.

Record arena_ok (h : heap) (a : Z) (A : arena) : Prop := {
  ar_magic : magic A = ARENA_MAGIC;
  ar_pages : pages_in (pal h) Kernel a (arena_pages A);
  ar_used k : a / 4096 ≤ k < a / 4096 + arena_pages A → page_used (pal h) k = true;
  ar_kind : match arena_desc A with Some i => is_Some (descs h !! i) | None => 0 < free_cnt A end;
}.

Record heap_wf (h : heap) : Prop := {
  hw_pal : palloc_wf (pal h);
  hw_table : (λ d, (desc_block_size d, blocks_per_arena d)) <$> descs h = desc_table;
  hw_arena a A : arenas h !! a = Some A → arena_ok h a A;
  hw_disjoint a A a' A' : arenas h !! a = Some A → arenas h !! a' = Some A' → a ≠ a' →
    a + 4096 * arena_pages A ≤ a' ∨ a' + 4096 * arena_pages A' ≤ a;
  hw_free i d b : descs h !! i = Some d → b ∈ free_list d →
    ∃ a A, arenas h !! a = Some A ∧ arena_desc A = Some i ∧ b ∈ blocks a d;
  hw_nodup i d : descs h !! i = Some d → NoDup (free_list d);
  hw_count a A i d : arenas h !! a = Some A → arena_desc A = Some i → descs h !! i = Some d →
    free_cnt A = Z.of_nat (length (free_in a d));
}.

(** A block of the heap at [q] of [s] bytes, free or not; a live block is one
    that is not free. *)
Definition slot_at (h : heap) (a : Z) (A : arena) (q s : Z) : Prop :=
  match arena_desc A with
  | Some i => ∃ d, descs h !! i = Some d ∧ q ∈ blocks a d ∧ s = desc_block_size d
  | None => q = a + 12 ∧ s = 4096 * free_cnt A - 12
  end.
Definition slot (h : heap) (q s : Z) : Prop :=
  ∃ a A, arenas h !! a = Some A ∧ slot_at h a A q s.
Definition is_free (h : heap) (q : Z) : Prop :=
  ∃ i d, descs h !! i = Some d ∧ q ∈ free_list d.
Definition live (h : heap) (q s : Z) : Prop := slot h q s ∧ ¬ is_free h q.

Definition desc_ok (d : desc) : Prop :=
  (desc_block_size d, blocks_per_arena d) ∈ desc_table.

Lemma desc_ok_bounds d : desc_ok d →
  16 ≤ desc_block_size d ≤ 1024 ∧ 3 ≤ blocks_per_arena d ≤ 255 ∧
  12 + blocks_per_arena d * desc_block_size d ≤ 4096.
Proof.
  unfold desc_ok, desc_table. destruct d as [s n l]. cbn.
  rewrite !elem_of_cons, elem_of_nil. intros H.
  repeat (destruct H as [[= -> ->]|H]; [lia|]). done.
Qed.

Lemma heap_desc_ok h i d : heap_wf h → descs h !! i = Some d → desc_ok d.
Proof.
  intros Hh Hd. unfold desc_ok. rewrite <- (hw_table _ Hh).
  apply list_elem_of_fmap. exists d. split; [done|]. by eapply list_elem_of_lookup_2.
Qed.

Lemma elem_of_blocks b a d :
  b ∈ blocks a d ↔ ∃ k, 0 ≤ k < blocks_per_arena d ∧ b = block_at a d k.
Proof.
  unfold blocks. rewrite list_elem_of_fmap. split.
  - intros (k & -> & Hk%elem_of_seq). exists (Z.of_nat k). split; [lia|done].
  - intros (k & Hk & ->). exists (Z.to_nat k). rewrite Z2Nat.id by lia.
    split; [done|]. apply elem_of_seq. lia.
Qed.

Lemma block_bounds b a d : desc_ok d → a mod 4096 = 0 → b ∈ blocks a d →
  a + 12 ≤ b ∧ b + desc_block_size d ≤ a + 4096 ∧ page_of b = a ∧
  (b mod 4096 - 12) mod desc_block_size d = 0 ∧ b / 4096 = a / 4096.
Proof.
  intros Hd Ha (k & Hk & ->)%elem_of_blocks. destruct (desc_ok_bounds d Hd) as (H1 & H2 & H3).
  unfold block_at, page_of.
  assert (0 ≤ k * desc_block_size d ∧
    k * desc_block_size d + desc_block_size d ≤ 4084) as Hkb by nia.
  assert ((a + 12 + k * desc_block_size d) / 4096 = a / 4096) as Eq by c_lia.
  split_and!; [lia|lia| | |done].
  - rewrite Eq. c_lia.
  - assert ((a + 12 + k * desc_block_size d) mod 4096 - 12 = k * desc_block_size d) as -> by c_lia.
    apply Z.mod_mul. lia.
Qed.

Lemma blocks_nodup a d : desc_ok d → NoDup (blocks a d).
Proof.
  intros Hd. destruct (desc_ok_bounds d Hd) as (H1 & _). apply NoDup_fmap_2; [|apply NoDup_seq].
  intros i j. unfold block_at. nia.
Qed.

Definition with_list (d : desc) (l : list Z) : desc :=
  Desc (desc_block_size d) (blocks_per_arena d) l.

Lemma descs_set_free_list h i l j d : descs (set_free_list h i l) !! j = Some d ↔
  (j = i ∧ ∃ d0, descs h !! i = Some d0 ∧ d = with_list d0 l) ∨ (j ≠ i ∧ descs h !! j = Some d).
Proof.
  cbn. destruct (decide (j = i)) as [->|Hne].
  - rewrite list_lookup_alter_eq, fmap_Some. naive_solver.
  - rewrite list_lookup_alter_ne by done. naive_solver.
Qed.

Lemma table_set_free_list h i l :
  (λ d, (desc_block_size d, blocks_per_arena d)) <$> descs (set_free_list h i l) =
  (λ d, (desc_block_size d, blocks_per_arena d)) <$> descs h.
Proof.
  cbn. apply list_eq. intros j. rewrite !list_lookup_fmap.
  destruct (decide (j = i)) as [->|]; [rewrite list_lookup_alter_eq|by rewrite list_lookup_alter_ne].
  by destruct (descs h !! i).
Qed.

Lemma is_Some_set_free_list h i l j :
  is_Some (descs (set_free_list h i l) !! j) ↔ is_Some (descs h !! j).
Proof.
  cbn. destruct (decide (j = i)) as [->|]; [rewrite list_lookup_alter_eq|by rewrite list_lookup_alter_ne].
  apply fmap_is_Some.
Qed.

(** [block_to_arena] finds the arena of every block; its checks hold. *)
Lemma block_to_arena_spec h a A i d b :
  arenas h !! a = Some A → magic A = ARENA_MAGIC → arena_desc A = Some i →
  descs h !! i = Some d → desc_ok d → a mod 4096 = 0 → 0 < a ≤ 2 ^ 32 - 4096 →
  b ∈ blocks a d → block_to_arena h b = Ok a.
Proof.
  intros HA Hm Hi Hd Hok Ha Hr Hb. destruct (block_bounds b a d) as (H1 & H2 & H3 & H4 & H5); [done..|].
  destruct (desc_ok_bounds d Hok) as (Hs & _).
  unfold block_to_arena. rewrite pg_round_down_eq by (split; lia). fold (page_of b). rewrite H3.
  rewrite (proj2 (Z.eqb_neq a 0)) by lia. cbn [negb ASSERT mbind res_bind]. rewrite HA.
  cbn [deref mbind res_bind]. unfold get_desc. rewrite Hm, Hi, Hd, Z.eqb_refl.
  cbn [ASSERT mbind res_bind]. rewrite pg_ofs_mod. unfold sizeof_arena.
  assert (12 ≤ b mod 4096 < 4096) by (unfold page_of in H3; c_lia).
  rewrite u32_small by (split; lia). by rewrite H4.
Qed.

Lemma block_to_arena_big h a A : arenas h !! a = Some A → magic A = ARENA_MAGIC →
  arena_desc A = None → a mod 4096 = 0 → 0 < a ≤ 2 ^ 32 - 4096 →
  block_to_arena h (a + 12) = Ok a.
Proof.
  intros HA Hm Hi Ha Hr. unfold block_to_arena. rewrite pg_round_down_eq by (split; lia).
  assert ((a + 12) / 4096 * 4096 = a) as -> by c_lia.
  rewrite (proj2 (Z.eqb_neq a 0)) by lia. cbn [negb ASSERT mbind res_bind]. rewrite HA.
  cbn [deref mbind res_bind]. unfold get_desc. rewrite Hm, Hi, Z.eqb_refl.
  cbn [ASSERT mbind res_bind]. rewrite pg_ofs_mod.
  assert ((a + 12) mod 4096 = 12) as -> by c_lia. done.
Qed.

Lemma arena_to_block_spec h a A i d k :
  arenas h !! a = Some A → magic A = ARENA_MAGIC → arena_desc A = Some i →
  descs h !! i = Some d → desc_ok d → 0 < a ≤ 2 ^ 32 - 4096 → 0 ≤ k < blocks_per_arena d →
  arena_to_block h a k = Ok (block_at a d k).
Proof.
  intros HA Hm Hi Hd Hok Hr Hk. destruct (desc_ok_bounds d Hok) as (H1 & H2 & H3).
  unfold arena_to_block. rewrite (proj2 (Z.eqb_neq a 0)) by lia. cbn [negb ASSERT mbind res_bind].
  rewrite HA. cbn [deref mbind res_bind]. rewrite Hm, Z.eqb_refl. cbn [ASSERT mbind res_bind].
  unfold get_desc. rewrite Hi, Hd. cbn [deref mbind res_bind].
  rewrite (proj2 (Z.ltb_lt k _)) by lia. cbn [ASSERT mbind res_bind]. unfold sizeof_arena, block_at.
  rewrite (u32_small (k * _)), u32_small; [done|split; nia..].
Qed.

(** Where arenas lie. *)
Lemma arena_range h a A : heap_wf h → arenas h !! a = Some A →
  a mod 4096 = 0 ∧ PHYS_BASE < a ∧ 0 < arena_pages A ∧ a + 4096 * arena_pages A ≤ 2 ^ 32.
Proof.
  intros Hh HA. destruct (hw_arena _ Hh _ _ HA) as [_ (H1 & H2 & H3) _ Hk].
  pose proof (pool_range _ (wf_pool _ (hw_pal _ Hh) Kernel)).
  unfold arena_pages in *. destruct (arena_desc A); split_and!; lia || done.
Qed.

(** A page belongs to one arena. *)
Lemma arena_unique h a A a' A' b : heap_wf h → arenas h !! a = Some A → arenas h !! a' = Some A' →
  a ≤ b < a + 4096 * arena_pages A → a' ≤ b < a' + 4096 * arena_pages A' → a = a' ∧ A = A'.
Proof.
  intros Hh HA HA' H H'. destruct (decide (a = a')) as [->|Hne]; [split; congruence|].
  destruct (hw_disjoint _ Hh _ _ _ _ HA HA' Hne); lia.
Qed.

(** The heap with another free list for descriptor [i] and another count in
    the arena at [a]. *)
Definition relist (h : heap) (i : nat) (l : list Z) (a : Z) (A : arena) (n : Z) : heap :=
  set_arena (set_free_list h i l) a (Arena (magic A) (Some i) n).

Section relist.
Context (h : heap) (i : nat) (d : desc) (l : list Z) (a : Z) (A : arena) (n : Z).
Context (Hd : descs h !! i = Some d) (HA : arenas h !! a = Some A) (Hi : arena_desc A = Some i).

Lemma relist_arena a' A' : arenas (relist h i l a A n) !! a' = Some A' →
  ∃ A0, arenas h !! a' = Some A0 ∧ magic A' = magic A0 ∧ arena_desc A' = arena_desc A0 ∧
    arena_pages A' = arena_pages A0 ∧ (a' ≠ a → A' = A0) ∧ (a' = a → free_cnt A' = n) ∧
    (arena_desc A' = None → A' = A0).
Proof using HA Hi.
  cbn. destruct (decide (a' = a)) as [->|Hne].
  - rewrite lookup_insert_eq. intros [= <-]. exists A. unfold arena_pages. cbn. rewrite Hi.
    split_and!; done.
  - rewrite lookup_insert_ne by done. intros HA'. exists A'. split_and!; done.
Qed.

Lemma relist_arena_back a' A0 : arenas h !! a' = Some A0 →
  ∃ A', arenas (relist h i l a A n) !! a' = Some A' ∧ arena_desc A' = arena_desc A0 ∧
    (arena_desc A0 = None → A' = A0).
Proof using HA Hi.
  intros HA0. cbn. destruct (decide (a' = a)) as [->|Hne].
  - rewrite lookup_insert_eq. eexists. split; [done|]. cbn. split; congruence.
  - rewrite lookup_insert_ne by done. by exists A0.
Qed.

Lemma relist_desc j d' : descs (relist h i l a A n) !! j = Some d' ↔
  j = i ∧ d' = with_list d l ∨ j ≠ i ∧ descs h !! j = Some d'.
Proof using Hd.
  unfold relist. change (descs (set_arena ?x _ _)) with (descs x).
  rewrite descs_set_free_list, Hd. naive_solver.
Qed.

Lemma relist_wf : heap_wf h → NoDup l →
  (∀ b, b ∈ l → ∃ a' A', arenas h !! a' = Some A' ∧ arena_desc A' = Some i ∧ b ∈ blocks a' d) →
  n = Z.of_nat (length (free_in a (with_list d l))) →
  (∀ a', a' ≠ a → free_in a' (with_list d l) = free_in a' d) →
  heap_wf (relist h i l a A n).
Proof using All.
  intros Hh Hnd Hl Hn Hother. split.
  - apply (hw_pal _ Hh).
  - unfold relist. cbn. rewrite <- (hw_table _ Hh). apply table_set_free_list.
  - intros a' A' (A0 & HA0 & Em & Ed & Ep & E1 & E2 & E3)%relist_arena.
    destruct (hw_arena _ Hh _ _ HA0) as [H1 H2 H3 H4].
    split; rewrite ?Em, ?Ep; try done. rewrite Ed. destruct (arena_desc A0) eqn:E0.
    + by apply is_Some_set_free_list.
    + rewrite E3 by congruence. done.
  - intros a1 A1 a2 A2 (A0 & HA0 & _ & _ & -> & _)%relist_arena (A0' & HA0' & _ & _ & -> & _)%relist_arena.
    by apply (hw_disjoint _ Hh).
  - intros j d' b [[-> ->]|[Hj Hd']]%relist_desc Hb.
    + destruct (Hl b Hb) as (a' & A' & HA' & Hi' & Hb').
      destruct (relist_arena_back a' A' HA') as (A2 & HA2 & Hi2 & _).
      exists a', A2. split_and!; [done|congruence|done].
    + destruct (hw_free _ Hh j d' b Hd' Hb) as (a' & A' & HA' & Hi' & Hb').
      destruct (relist_arena_back a' A' HA') as (A2 & HA2 & Hi2 & _).
      exists a', A2. split_and!; [done|congruence|done].
  - intros j d' [[-> ->]|[Hj Hd']]%relist_desc; [done|by apply (hw_nodup _ Hh j)].
  - intros a' A' j d' (A0 & HA0 & Em & Ed & Ep & E1 & E2 & E3)%relist_arena Hj.
    rewrite Ed in Hj. intros [[-> ->]|[Hj' Hd']]%relist_desc.
    + destruct (decide (a' = a)) as [->|Hne]; [by rewrite E2|].
      rewrite E1, Hother by done. by apply (hw_count _ Hh a' A0 i d).
    + assert (a' ≠ a) as Hne by congruence. rewrite E1 by done. by apply (hw_count _ Hh a' A0 j d').
Qed.

Lemma relist_slot q s : slot (relist h i l a A n) q s ↔ slot h q s.
Proof using All.
  split.
  - intros (a' & A' & HA' & Hm). destruct (relist_arena a' A' HA') as (A0 & HA0 & _ & Ed & _ & _ & _ & E3).
    exists a', A0. split; [done|]. revert Hm. unfold slot_at. rewrite <- Ed. intros Hm. destruct (arena_desc A') eqn:E; [|by rewrite <- E3].
    destruct Hm as (d' & [[-> ->]|[Hj Hd']]%relist_desc & Hq & ->); eauto.
  - intros (a' & A0 & HA0 & Hm). destruct (relist_arena_back a' A0 HA0) as (A' & HA' & Ed & E3).
    exists a', A'. split; [done|]. revert Hm. unfold slot_at. rewrite Ed. intros Hm. destruct (arena_desc A0) as [j|] eqn:E; [|by rewrite E3].
    destruct Hm as (d' & Hd' & Hq & ->). destruct (decide (j = i)) as [->|Hj].
    + assert (d' = d) as -> by congruence. exists (with_list d l). rewrite relist_desc. auto.
    + exists d'. rewrite relist_desc. auto.
Qed.
End relist.

(** ** Blocks do not overlap *)

Lemma slot_bounds h a A q s : heap_wf h → arenas h !! a = Some A → slot_at h a A q s →
  a + 12 ≤ q ∧ 16 ≤ s ∧ q + s ≤ a + 4096 * arena_pages A.
Proof.
  intros Hh HA Hm. destruct (arena_range h a A Hh HA) as (H1 & H2 & H3 & H4).
  unfold slot_at, arena_pages in *. destruct (arena_desc A) as [i|].
  - destruct Hm as (d & Hd & Hb & ->). pose proof (heap_desc_ok h i d Hh Hd) as Hok.
    destruct (block_bounds q a d) as (? & ? & _); [done..|]. destruct (desc_ok_bounds d Hok). lia.
  - destruct Hm as [-> ->]. lia.
Qed.

Lemma slot_disjoint h q s r t : heap_wf h → slot h q s → slot h r t →
  q = r ∧ s = t ∨ q + s ≤ r ∨ r + t ≤ q.
Proof.
  intros Hh (a & A & HA & Hq) (a' & A' & HA' & Hr).
  pose proof (slot_bounds h a A q s Hh HA Hq). pose proof (slot_bounds h a' A' r t Hh HA' Hr).
  destruct (decide (a = a')) as [<-|Hne].
  2: { destruct (hw_disjoint _ Hh _ _ _ _ HA HA' Hne); lia. }
  assert (A' = A) as -> by congruence. unfold slot_at in *.
  destruct (arena_desc A) as [i|]; [|left; lia].
  destruct Hq as (d & Hd & (k & Hk & ->)%elem_of_blocks & ->),
    Hr as (d' & Hd' & (k' & Hk' & ->)%elem_of_blocks & ->).
  assert (d' = d) as -> by congruence. unfold block_at.
  destruct (desc_ok_bounds d (heap_desc_ok h _ d Hh Hd)) as (Hs & _).
  destruct (Z.lt_trichotomy k k') as [|[->|]]; [right; left; nia|by left|right; right; nia].
Qed.

Lemma free_slot h i d b : heap_wf h → descs h !! i = Some d → b ∈ free_list d →
  slot h b (desc_block_size d).
Proof.
  intros Hh Hd Hb. destruct (hw_free _ Hh i d b Hd Hb) as (a & A & HA & Hi & Hbl).
  exists a, A. split; [done|]. unfold slot_at. rewrite Hi. eauto.
Qed.

(** A free block is on the list of its own descriptor only. *)
Lemma free_unique h i d j d' b : heap_wf h → descs h !! i = Some d → b ∈ free_list d →
  descs h !! j = Some d' → b ∈ free_list d' → i = j.
Proof.
  intros Hh Hd Hb Hd' Hb'.
  destruct (hw_free _ Hh i d b Hd Hb) as (a & A & HA & Hi & Hbl).
  destruct (hw_free _ Hh j d' b Hd' Hb') as (a' & A' & HA' & Hj & Hbl').
  destruct (arena_range h a A Hh HA) as (Hal & _). destruct (arena_range h a' A' Hh HA') as (Hal' & _).
  destruct (block_bounds b a d (heap_desc_ok h _ d Hh Hd) Hal Hbl) as (_ & _ & E & _).
  destruct (block_bounds b a' d' (heap_desc_ok h _ d' Hh Hd') Hal' Hbl') as (_ & _ & E' & _).
  congruence.
Qed.

(** The free blocks of an arena are some of its blocks. *)
Lemma free_in_blocks h i d a b : heap_wf h → descs h !! i = Some d → b ∈ free_in a d →
  b ∈ blocks a d.
Proof.
  intros Hh Hd (Hp & Hb)%list_elem_of_filter.
  destruct (hw_free _ Hh i d b Hd Hb) as (a' & A' & HA' & Hi & Hbl).
  destruct (arena_range h a' A' Hh HA') as (Hal & _).
  destruct (block_bounds b a' d (heap_desc_ok h _ d Hh Hd) Hal Hbl) as (_ & _ & E & _). congruence.
Qed.

Lemma free_in_submseteq h i d a : heap_wf h → descs h !! i = Some d → free_in a d ⊆+ blocks a d.
Proof.
  intros Hh Hd. apply NoDup_submseteq.
  - by apply NoDup_filter, (hw_nodup _ Hh i).
  - intros b. by apply (free_in_blocks h i).
Qed.

Lemma length_blocks a d : desc_ok d → Z.of_nat (length (blocks a d)) = blocks_per_arena d.
Proof.
  intros Hok. destruct (desc_ok_bounds d Hok). unfold blocks. rewrite length_fmap, length_seq. lia.
Qed.

Lemma free_cnt_bound h a A i d : heap_wf h → arenas h !! a = Some A → arena_desc A = Some i →
  descs h !! i = Some d → 0 ≤ free_cnt A ≤ blocks_per_arena d.
Proof.
  intros Hh HA Hi Hd. rewrite (hw_count _ Hh a A i d) by done.
  pose proof (submseteq_length _ _ (free_in_submseteq h i d a Hh Hd)).
  pose proof (length_blocks a d (heap_desc_ok h _ d Hh Hd)). lia.
Qed.

(** Which blocks are free after a change of one list. *)
Lemma relist_free h i d l a A n q : descs h !! i = Some d →
  is_free (relist h i l a A n) q ↔
    q ∈ l ∨ ∃ j d', j ≠ i ∧ descs h !! j = Some d' ∧ q ∈ free_list d'.
Proof.
  intros Hd. unfold is_free. setoid_rewrite (relist_desc h i d l a A n Hd). split.
  - intros (j & d' & [[-> ->]|[Hj Hd']] & Hq); [by left|right; eauto].
  - intros [Hq|(j & d' & Hj & Hd' & Hq)]; [exists i, (with_list d l)|exists j, d']; auto.
Qed.

(** ** Taking a block *)

Lemma take_block_spec h i d b l : heap_wf h → descs h !! i = Some d → free_list d = b :: l →
  ∃ h', take_block h i = Ok (h', b) ∧ heap_wf h' ∧ pal h' = pal h ∧
    (∀ q s, slot h' q s ↔ slot h q s) ∧ (∀ q, is_free h' q ↔ is_free h q ∧ q ≠ b).
Proof.
  intros Hh Hd Hl. pose proof (heap_desc_ok h i d Hh Hd) as Hok.
  assert (b ∈ free_list d) as Hb by (rewrite Hl; apply elem_of_cons; auto).
  pose proof (hw_nodup _ Hh i d Hd) as Hnd. rewrite Hl in Hnd. apply NoDup_cons in Hnd as [Hbl Hnd].
  destruct (hw_free _ Hh i d b Hd Hb) as (a & A & HA & Hi & Hba).
  destruct (arena_range h a A Hh HA) as (Hal & Hlo & Hp & Hhi).
  unfold arena_pages, PHYS_BASE in *. rewrite Hi in *.
  destruct (block_bounds b a d Hok Hal Hba) as (_ & _ & Hpg & _).
  pose proof (hw_count _ Hh a A i d HA Hi Hd) as Hc. unfold free_in in Hc. rewrite Hl in Hc.
  rewrite filter_cons_True in Hc by done. cbn [length] in Hc.
  destruct (desc_ok_bounds d Hok) as (_ & Hbpa & _).
  pose proof (free_cnt_bound h a A i d Hh HA Hi Hd) as Hfc.
  assert (take_block h i = Ok (relist h i l a A (free_cnt A - 1), b)) as ->.
  { unfold take_block, pop_front. rewrite Hd. cbn [deref mbind res_bind]. rewrite Hl.
    cbn [mbind res_bind]. rewrite (block_to_arena_spec _ a A i (with_list d l) b); try done; [..|lia].
    - cbn [mbind res_bind arenas set_free_list]. rewrite HA. cbn [deref mbind res_bind].
      rewrite Hi, u32_small by (split; lia). done.
    - apply (hw_arena _ Hh a A HA).
    - apply descs_set_free_list. left. eauto. }
  eexists. split; [done|]. split_and!.
  - apply (relist_wf h i d l a A _ Hd HA Hi Hh Hnd).
    + intros c Hcl. apply (hw_free _ Hh i d c Hd). rewrite Hl. apply elem_of_cons. auto.
    + unfold free_in. cbn. lia.
    + intros a' Ha'. unfold free_in. cbn. rewrite Hl. by rewrite filter_cons_False by congruence.
  - done.
  - intros q s. by apply relist_slot with d.
  - intros q. rewrite (relist_free h i d) by done. split.
    + intros [Hq|(j & d' & Hj & Hd' & Hq)].
      * split; [exists i, d; rewrite Hl; split; [done|apply elem_of_cons; auto]|congruence].
      * split; [exists j, d'; done|]. intros ->. by apply Hj, (free_unique h j d' i d b).
    + intros [(j & d' & Hd' & Hq) Hne]. destruct (decide (j = i)) as [->|Hj]; [|right; eauto].
      left. assert (d' = d) as -> by congruence. rewrite Hl in Hq. by apply elem_of_cons in Hq as [?|?].
Qed.

(** ** Adding an arena *)

Lemma set_free_list_twice h i l l' :
  set_free_list (set_free_list h i l) i l' = set_free_list h i l'.
Proof.
  unfold set_free_list. cbn. f_equal. apply list_eq. intros j.
  destruct (decide (j = i)) as [->|]; [|by rewrite !list_lookup_alter_ne].
  rewrite !list_lookup_alter_eq. by destruct (descs h !! i).
Qed.

Lemma set_free_list_id h i d : descs h !! i = Some d → set_free_list h i (free_list d) = h.
Proof.
  intros Hd. destruct h as [p ds ars]. unfold set_free_list. cbn in *. f_equal.
  apply list_eq. intros j. destruct (decide (j = i)) as [->|].
  - rewrite list_lookup_alter_eq, Hd. by destruct d.
  - by rewrite list_lookup_alter_ne.
Qed.

(** Pages that come from the page allocator are in no arena. *)
Lemma fresh_disjoint h p a cnt a' A' : heap_wf h → 0 < cnt → got_pages (pal h) p Kernel a cnt →
  arenas h !! a' = Some A' → a + 4096 * cnt ≤ a' ∨ a' + 4096 * arena_pages A' ≤ a.
Proof.
  intros Hh Hc Hg HA'. destruct (hw_arena _ Hh a' A' HA') as [_ (Hal & _) Hu _].
  destruct (arena_range h a' A' Hh HA') as (_ & _ & Hp & _).
  pose proof (got_align _ _ _ _ _ Hg) as Hga. pose proof (got_free _ _ _ _ _ Hg) as Hf.
  specialize (Hf (Z.max (a / 4096) (a' / 4096))). specialize (Hu (Z.max (a / 4096) (a' / 4096))).
  destruct (decide (a + 4096 * cnt ≤ a')), (decide (a' + 4096 * arena_pages A' ≤ a)); try lia.
  rewrite Hu in Hf by c_lia. assert (true = false); [|done]. apply Hf. c_lia.
Qed.

Lemma got_arena_ok h h' p a cnt a' A' : heap_wf h → got_pages (pal h) p Kernel a cnt →
  pal h' = p → (∀ i, is_Some (descs h !! i) → is_Some (descs h' !! i)) →
  arena_ok h a' A' → arena_ok h' a' A'.
Proof.
  intros Hh Hg Ep Hds [H1 (H2 & H3 & H4) H5 H6].
  destruct (got_same _ _ _ _ _ Hg Kernel) as [E1 E2].
  split; [done|split_and!; subst p; rewrite ?E1, ?E2; done|..].
  - intros k Hk. rewrite Ep, (got_used _ _ _ _ _ Hg). destruct (_ && _); auto.
  - destruct (arena_desc A'); auto.
Qed.

Section add_arena.
Context (h : heap) (p : palloc) (a : Z) (A : arena) (ds : list desc).
Context (Hh : heap_wf h) (Hpos : 0 < arena_pages A) (Hm : magic A = ARENA_MAGIC)
  (Hg : got_pages (pal h) p Kernel a (arena_pages A)).
(** The descriptors after the arena is added: the blocks of the arena, if it
    has some, are all on the descriptor's list. *)
Context (Hds : match arena_desc A with
               | None => ds = descs h
               | Some i => ∃ d, descs h !! i = Some d ∧ free_list d = [] ∧
                   ds = descs (set_free_list h i (blocks a d)) ∧ free_cnt A = blocks_per_arena d
               end).

Let h' := Heap p ds (<[a := A]> (arenas h)).

Lemma add_arena_fresh : arenas h !! a = None.
Proof using Hh Hpos Hg.
  destruct (arenas h !! a) as [A'|] eqn:E; [|done].
  destruct (arena_range h a A' Hh E) as (_ & _ & Hp & _).
  destruct (fresh_disjoint h p a _ a A' Hh Hpos Hg E); lia.
Qed.

Lemma add_arena_lookup a' A' : arenas h' !! a' = Some A' ↔
  a' = a ∧ A' = A ∨ a' ≠ a ∧ arenas h !! a' = Some A'.
Proof using.
  clear Hh Hpos Hm Hg Hds. cbn. destruct (decide (a' = a)) as [->|]; [rewrite lookup_insert_eq|rewrite lookup_insert_ne by done];
    naive_solver.
Qed.

Lemma add_arena_desc j d' : descs h' !! j = Some d' ↔
  (arena_desc A ≠ Some j ∧ descs h !! j = Some d') ∨
  (arena_desc A = Some j ∧ ∃ d, descs h !! j = Some d ∧ free_list d = [] ∧
     free_cnt A = blocks_per_arena d ∧ d' = with_list d (blocks a d)).
Proof using Hds.
  subst h'. cbn [descs]. destruct (arena_desc A) as [i|].
  - destruct Hds as (d & Hd & Hl & -> & Hf). rewrite descs_set_free_list. naive_solver.
  - subst ds. naive_solver.
Qed.

Lemma add_arena_wf : heap_wf h'.
Proof using All.
  assert (∀ j, is_Some (descs h !! j) → is_Some (descs h' !! j)) as Hsome.
  { intros j. subst h'. cbn [descs]. destruct (arena_desc A) as [i|]; [|by subst ds].
    destruct Hds as (d & _ & _ & -> & _). by rewrite is_Some_set_free_list. }
  destruct (got_same _ _ _ _ _ Hg Kernel) as [E1 E2].
  split.
  - apply (got_wf _ _ _ _ _ Hg).
  - rewrite <- (hw_table _ Hh). subst h'. cbn [descs]. destruct (arena_desc A) as [i|]; [|by subst ds].
    destruct Hds as (d & _ & _ & -> & _). apply table_set_free_list.
  - intros a' A' [[-> ->]|[_ HA']]%add_arena_lookup.
    + split; [done|..].
      * unfold pages_in. change (pal h') with p. rewrite E1, E2.
        split; [apply (got_align _ _ _ _ _ Hg)|apply (got_range _ _ _ _ _ Hg)].
      * intros k Hk. cbn. rewrite (got_used _ _ _ _ _ Hg). by replace (_ && _) with true by lia.
      * destruct (arena_desc A) as [i|] eqn:Ei; [|revert Hpos; unfold arena_pages; by rewrite Ei].
        apply Hsome. destruct Hds as (d & -> & _). done.
    + by apply (got_arena_ok h h' p a (arena_pages A)), (hw_arena _ Hh).
  - intros a1 A1 a2 A2 [[-> ->]|[H1 HA1]]%add_arena_lookup [[-> ->]|[H2 HA2]]%add_arena_lookup Hne.
    + done.
    + by apply (fresh_disjoint h p).
    + destruct (fresh_disjoint h p a _ a1 A1 Hh Hpos Hg HA1); auto.
    + by apply (hw_disjoint _ Hh).
  - intros j d' b [[Hj Hd']|(Hj & d & Hd & Hl & Hf & ->)]%add_arena_desc Hb.
    + destruct (hw_free _ Hh j d' b Hd' Hb) as (a' & A' & HA' & Hi' & Hb').
      exists a', A'. rewrite add_arena_lookup. split_and!; [|done..]. right. split; [|done].
      intros ->. by rewrite add_arena_fresh in HA'.
    + exists a, A. rewrite add_arena_lookup. auto.
  - intros j d' [[Hj Hd']|(Hj & d & Hd & Hl & Hf & ->)]%add_arena_desc; [by apply (hw_nodup _ Hh j)|].
    by apply blocks_nodup, (heap_desc_ok h j).
  - intros a' A' j d' [[-> ->]|[Hne HA']]%add_arena_lookup Hi'
      [[Hj Hd']|(Hj & d & Hd & Hl & Hf & ->)]%add_arena_desc.
    + done.
    + pose proof (heap_desc_ok h j d Hh Hd) as Hok. rewrite Hf, <- (length_blocks a d Hok).
      unfold free_in. cbn. rewrite list_filter_all; [done|].
      intros b Hb. by apply (block_bounds b a d Hok), Hb; try apply (got_align _ _ _ _ _ Hg).
    + by apply (hw_count _ Hh a' A' j d').
    + rewrite (hw_count _ Hh a' A' j d) by done. unfold free_in. rewrite Hl. cbn.
      rewrite list_filter_none; [done|].
      intros b Hb. pose proof (heap_desc_ok h j d Hh Hd) as Hok.
      destruct (block_bounds b a d Hok (got_align _ _ _ _ _ Hg) Hb) as (_ & _ & E & _). congruence.
Qed.
Lemma add_arena_slot q s : slot h' q s ↔ slot h q s ∨ slot_at h a A q s.
Proof using All.
  assert (∀ a' A', slot_at h' a' A' q s ↔ slot_at h a' A' q s) as Hat.
  { intros a' A'. unfold slot_at. destruct (arena_desc A') as [j|]; [|done].
    setoid_rewrite add_arena_desc. split.
    - intros (d' & [[_ Hd']|(_ & d & Hd & _ & _ & ->)] & Hq & ->); eauto.
    - intros (d & Hd & Hq & ->). destruct (decide (arena_desc A = Some j)) as [Hj|Hj]; [|eauto 6].
      assert (∃ d0, descs h !! j = Some d0 ∧ free_list d0 = [] ∧ free_cnt A = blocks_per_arena d0)
        as (d0 & Hd0 & Hl & Hf) by (rewrite Hj in Hds; naive_solver).
      assert (d0 = d) as -> by congruence. exists (with_list d (blocks a d)). eauto 10. }
  unfold slot. setoid_rewrite add_arena_lookup. setoid_rewrite Hat. split.
  - intros (a' & A' & [[-> ->]|[_ HA']] & Hs); [by right|left; eauto].
  - intros [(a' & A' & HA' & Hs)|Hs]; [|by exists a, A; auto]. exists a', A'. split; [|done].
    right. split; [|done]. intros ->. by rewrite add_arena_fresh in HA'.
Qed.

Lemma add_arena_is_free q : is_free h' q ↔
  is_free h q ∨ ∃ i d, arena_desc A = Some i ∧ descs h !! i = Some d ∧ q ∈ blocks a d.
Proof using All.
  unfold is_free. setoid_rewrite add_arena_desc. split.
  - intros (j & d' & [[Hj Hd']|(Hj & d & Hd & Hl & Hf & ->)] & Hq); [left; eauto|right; eauto].
  - intros [(j & d' & Hd' & Hq)|(i & d & Hi & Hd & Hq)].
    + destruct (decide (arena_desc A = Some j)) as [Hj|Hj]; [|eauto 10].
      rewrite Hj in Hds. destruct Hds as (d & Hd & Hl & _). assert (d = d') as -> by congruence.
      rewrite Hl in Hq. by apply not_elem_of_nil in Hq.
    + rewrite Hi in Hds. destruct Hds as (d0 & Hd0 & Hl & _ & Hf). assert (d0 = d) as -> by congruence.
      exists i, (with_list d (blocks a d)). split; [|done]. right. eauto 10.
Qed.

Lemma add_arena_not_slot q s : slot h q s → ¬ (a ≤ q < a + 4096 * arena_pages A).
Proof using Hh Hpos Hg.
  intros (a' & A' & HA' & Hs) Hq. pose proof (slot_bounds h a' A' q s Hh HA' Hs).
  destruct (fresh_disjoint h p a _ a' A' Hh Hpos Hg HA'); lia.
Qed.
End add_arena.

Lemma new_arena_spec h i d p a : heap_wf h → descs h !! i = Some d → free_list d = [] →
  got_pages (pal h) p Kernel a 1 →
  new_arena (set_pal h p) i a =
    Ok (Heap p (descs (set_free_list h i (blocks a d)))
          (<[a := Arena ARENA_MAGIC (Some i) (blocks_per_arena d)]> (arenas h))).
Proof.
  intros Hh Hd Hl Hg. pose proof (heap_desc_ok h i d Hh Hd) as Hok.
  unfold new_arena. cbn [descs set_pal]. rewrite Hd. cbn [deref mbind res_bind].
  set (h1 := set_arena _ _ _).
  destruct (got_range _ _ _ _ _ Hg) as [Hlo Hhi].
  pose proof (pool_range _ (wf_pool _ (hw_pal _ Hh) Kernel)) as [Hr1 Hr2]. unfold PHYS_BASE in *.
  destruct (for_up_total
    (λ k s, s = set_free_list h1 i ((λ k, block_at a d (Z.of_nat k)) <$> seq 0 (Z.to_nat k)))
    (λ k h, b ← arena_to_block h a k; push_back h i b) (Z.to_nat (blocks_per_arena d)) 0 h1)
    as (h2 & -> & ->).
  - intros k s Hk ->. set (l := _ <$> _).
    assert (descs (set_free_list h1 i l) !! i = Some (with_list d l)) as Hdl
      by (apply descs_set_free_list; left; eauto).
    rewrite (arena_to_block_spec _ a (Arena ARENA_MAGIC (Some i) (blocks_per_arena d)) i (with_list d l) k);
      try done; [..|lia|cbn; lia].
    2: { cbn. by rewrite lookup_insert_eq. }
    cbn [mbind res_bind]. unfold push_back. rewrite Hdl. cbn [deref mbind res_bind free_list with_list].
    eexists. split; [done|]. rewrite set_free_list_twice. f_equal. subst l.
    replace (Z.to_nat (k + 1)) with (Z.to_nat k + 1)%nat by lia.
    rewrite seq_app, fmap_app. cbn. by rewrite Z2Nat.id by lia.
  - transitivity (set_free_list h1 i (free_list d)); [symmetry; by apply set_free_list_id|by rewrite Hl].
  - replace (0 + Z.of_nat (Z.to_nat (blocks_per_arena d))) with (Z.of_nat (Z.to_nat (blocks_per_arena d))) by lia.
    rewrite Nat2Z.id. done.
Qed.

(** [h'] is [h] with one more live block, at [p] of [sz] bytes. *)
Definition allocated (h h' : heap) (p sz : Z) : Prop :=
  heap_wf h' ∧ (∀ t, ¬ live h p t) ∧
  (∀ q s, live h' q s ↔ live h q s ∨ q = p ∧ s = sz) ∧ mem (pal h') = mem (pal h).

Lemma take_block_allocated h i d b l : heap_wf h → descs h !! i = Some d → free_list d = b :: l →
  ∃ h', take_block h i = Ok (h', b) ∧ allocated h h' b (desc_block_size d).
Proof.
  intros Hh Hd Hl.
  destruct (take_block_spec h i d b l) as (h' & -> & Hw & Hp & Hs & Hf); [done..|].
  assert (b ∈ free_list d) as Hb by (rewrite Hl; apply elem_of_cons; auto).
  assert (is_free h b) as Hfb by by exists i, d.
  exists h'. split; [done|]. split_and!; [done|by intros t [_ ?]| |by rewrite Hp].
  intros q s. unfold live. rewrite Hs, Hf. split.
  - intros [Hsl Hn]. destruct (decide (q = b)) as [->|]; [|tauto]. right. split; [done|].
    destruct (slot_disjoint h b s b (desc_block_size d) Hh Hsl) as [[_ ?]|Hd']; [|done|].
    + by apply (free_slot h i).
    + destruct Hsl as (a' & A' & HA' & Hsa). pose proof (slot_bounds h a' A' b s Hh HA' Hsa).
      destruct (desc_ok_bounds d (heap_desc_ok h i d Hh Hd)). lia.
  - intros [[Hsl Hn]|[-> ->]]; [tauto|]. split; [by apply (free_slot h i)|tauto].
Qed.

Lemma new_arena_live h i d p a h1 : heap_wf h → descs h !! i = Some d → free_list d = [] →
  got_pages (pal h) p Kernel a 1 → new_arena (set_pal h p) i a = Ok h1 →
  heap_wf h1 ∧ pal h1 = p ∧ descs h1 !! i = Some (with_list d (blocks a d)) ∧
  ∀ q s, live h1 q s ↔ live h q s.
Proof.
  intros Hh Hd Hl Hg. rewrite (new_arena_spec h i d p a) by done. intros [= <-].
  set (A := Arena ARENA_MAGIC (Some i) (blocks_per_arena d)).
  assert (match arena_desc A with
     | None => descs (set_free_list h i (blocks a d)) = descs h
     | Some i => ∃ d0, descs h !! i = Some d0 ∧ free_list d0 = [] ∧
         descs (set_free_list h i (blocks a d)) = descs (set_free_list h i (blocks a d0)) ∧
         free_cnt A = blocks_per_arena d0 end) as Hds by (cbn; eauto).
  split_and!.
  - by apply add_arena_wf.
  - done.
  - apply descs_set_free_list. left. eauto.
  - intros q s. unfold live. rewrite (add_arena_slot h p a A), (add_arena_is_free h p a A) by done.
    pose proof (add_arena_not_slot h p a A Hh) as Hno. unfold slot_at. cbn [arena_desc A]. split.
    + intros [[Hs|(d0 & Hd0 & Hq & ->)] Hn]; [tauto|]. destruct Hn. right. eauto 6.
    + intros [Hs Hn]. split; [by left|]. intros [?|(j & d0 & [= <-] & Hd0 & Hq)]; [done|].
      apply (Hno ltac:(done) Hg q s Hs). assert (d0 = d) as -> by congruence.
      destruct (block_bounds q a d (heap_desc_ok h i d Hh Hd) (got_align _ _ _ _ _ Hg) Hq) as (? & ? & _).
      destruct (desc_ok_bounds d (heap_desc_ok h i d Hh Hd)). cbn. lia.
Qed.

(** A request that is served by whole pages. *)
Lemma malloc_big h size : heap_wf h → 1024 < size ≤ 2 ^ 32 - 4108 →
  list_find (λ d, size ≤ desc_block_size d) (descs h) = None →
  malloc h size = Ok (h, 0) ∨
  ∃ h' p sz, malloc h size = Ok (h', p) ∧ p ≠ 0 ∧ size ≤ sz ∧ allocated h h' p sz.
Proof.
  intros Hh Hs Hf. unfold malloc. rewrite (proj2 (Z.eqb_neq size 0)), Hf by lia.
  unfold sizeof_arena. rewrite (u32_small (size + 12)) by (split; lia).
  set (cnt := DIV_ROUND_UP (size + 12) PGSIZE).
  assert (cnt = (size + 12 + 4095) / 4096) as Ec
    by (unfold cnt, DIV_ROUND_UP; change PGSIZE with 4096; c_lia).
  clearbody cnt. assert (0 < cnt < 2 ^ 20 ∧ size + 12 ≤ 4096 * cnt) as [Hc Hsz] by c_lia.
  destruct (palloc_get_spec (pal h) 0 cnt) as [[_ ->]|(p & a & -> & Ha & Hg & Hm)];
    [apply Hh|lia|left; by destruct h|].
  right. cbn [mbind res_bind]. rewrite (proj2 (Z.eqb_neq a 0)) by done.
  change (pool_of 0) with Kernel in Hg. change (flag 0 PAL_ZERO) with false in Hm.
  destruct (got_range _ _ _ _ _ Hg) as [Hlo Hhi].
  pose proof (pool_range _ (wf_pool _ (hw_pal _ Hh) Kernel)) as [Hr1 Hr2]. unfold PHYS_BASE in *.
  rewrite (u32_small (a + 12)) by (split; lia).
  set (A := Arena ARENA_MAGIC None cnt). assert (0 < arena_pages A) as Hpos by (cbn; lia).
  exists (set_arena (set_pal h p) a A), (a + 12), (4096 * cnt - 12). split; [done|].
  split; [lia|]. split; [lia|].
  assert (∀ s, ¬ slot h (a + 12) s) as Hno.
  { intros s Hs'. apply (add_arena_not_slot h p a A Hh ltac:(cbn; lia) Hg _ _ Hs'). cbn. lia. }
  split_and!; [|by intros t [?%Hno _]| |done].
  - by apply (add_arena_wf h p a A (descs h)).
  - intros q s. unfold live.
    rewrite (add_arena_slot h p a A (descs h)), (add_arena_is_free h p a A (descs h)) by done.
    unfold slot_at. cbn [arena_desc A free_cnt]. split.
    + intros [[Hsl|[-> ->]] Hn]; [left|by right]. split; [done|]. tauto.
    + intros [[Hsl Hn]|[-> ->]].
      * split; [by left|]. intros [?|(? & ? & [=] & _)]. done.
      * split; [by right|]. intros [(i & d & Hd & Hb)|(? & ? & [=] & _)].
        by apply (Hno (desc_block_size d)), (free_slot h i).
Qed.

Lemma malloc_spec h size : heap_wf h → 0 < size ≤ 2 ^ 32 - 4108 →
  malloc h size = Ok (h, 0) ∨
  ∃ h' p sz, malloc h size = Ok (h', p) ∧ p ≠ 0 ∧ size ≤ sz ∧ allocated h h' p sz.
Proof.
  intros Hh Hs.
  destruct (list_find (λ d, size ≤ desc_block_size d) (descs h)) as [[i d]|] eqn:Hf.
  2: { apply malloc_big; [done| |done]. split; [|lia]. apply list_find_None in Hf.
       assert ((1024, 3) ∈ (λ d, (desc_block_size d, blocks_per_arena d)) <$> descs h) as Hin.
       { rewrite (hw_table _ Hh). unfold desc_table. rewrite !elem_of_cons. tauto. }
       apply list_elem_of_fmap in Hin as (d & [= E _] & Hd).
       rewrite Forall_forall in Hf. specialize (Hf d Hd). lia. }
  unfold malloc. rewrite (proj2 (Z.eqb_neq size 0)), Hf by lia.
  apply list_find_Some in Hf as (Hd & Hle & _). pose proof (heap_desc_ok h i d Hh Hd) as Hok.
  destruct (desc_ok_bounds d Hok) as (Hb1 & Hb2 & Hb3).
  pose proof (pool_range _ (wf_pool _ (hw_pal _ Hh) Kernel)) as [Hr1 Hr2]. unfold PHYS_BASE in *.
  destruct (free_list d) as [|b l] eqn:Hl.
  - unfold palloc_get_page. destruct (palloc_get_spec (pal h) 0 1)
      as [[_ ->]|(p & a & -> & Ha & Hg & Hm)]; [apply Hh|lia|left; by destruct h|].
    right. cbn [mbind res_bind]. rewrite (proj2 (Z.eqb_neq a 0)) by done.
    change (pool_of 0) with Kernel in Hg. change (flag 0 PAL_ZERO) with false in Hm.
    destruct (got_range _ _ _ _ _ Hg) as [Hlo Hhi].
    pose proof (new_arena_spec h i d p a Hh Hd Hl Hg) as En.
    destruct (new_arena_live h i d p a _ Hh Hd Hl Hg En) as (Hw1 & Hp1 & Hd1 & Hlive).
    rewrite En in *. cbn [mbind res_bind]. set (h1 := Heap _ _ _) in *.
    assert (blocks a d = a + 12 :: tl (blocks a d)) as Ebl.
    { unfold blocks. destruct (Z.to_nat (blocks_per_arena d)) eqn:E; [lia|]. cbn. f_equal. unfold block_at. lia. }
    destruct (take_block_allocated h1 i (with_list d (blocks a d)) (a + 12) (tl (blocks a d)))
      as (h' & Et & Hw & Hnl & Hal & Hmem); [done..|].
    exists h', (a + 12), (desc_block_size d). split_and!; [done|lia|done|].
    split_and!; [done|by setoid_rewrite <- Hlive| |cbn in Hmem; congruence].
    intros q s. by rewrite Hal, Hlive.
  - right. destruct (take_block_allocated h i d b l) as (h' & -> & Hal); [done..|].
    exists h', b, (desc_block_size d). split_and!; [done| |done|done].
    destruct (hw_free _ Hh i d b Hd) as (a & A & HA & Hi & Hba); [rewrite Hl; apply elem_of_cons; auto|].
    destruct (arena_range h a A Hh HA) as (Hal' & Hlo & _). unfold PHYS_BASE in *.
    destruct (block_bounds b a d Hok Hal' Hba). lia.
Qed.

(** ** Removing an arena *)

(** The free list of [d] without the blocks of the arena at [a]. *)
Definition without_arena (a : Z) (d : desc) : list Z :=
  filter (λ b, b ∉ blocks a d) (free_list d).

Section remove_arena.
Context (h : heap) (p : palloc) (a : Z) (A : arena) (ds : list desc).
Context (Hh : heap_wf h) (HA : arenas h !! a = Some A)
  (Hp : palloc_wf p) (Hsame : same_pools (pal h) p)
  (Hf : flips (pal h) p (a / 4096) (arena_pages A) false).
Context (Hds : match arena_desc A with
               | None => ds = descs h
               | Some i => ∃ d, descs h !! i = Some d ∧
                   ds = descs (set_free_list h i (without_arena a d))
               end).

Let h' := Heap p ds (delete a (arenas h)).

Lemma remove_arena_lookup a' A' : arenas h' !! a' = Some A' ↔ a' ≠ a ∧ arenas h !! a' = Some A'.
Proof using.
  clear Hh HA Hp Hsame Hf Hds. cbn. rewrite lookup_delete_Some. naive_solver.
Qed.

Lemma remove_arena_desc j d' : descs h' !! j = Some d' ↔
  (arena_desc A ≠ Some j ∧ descs h !! j = Some d') ∨
  (arena_desc A = Some j ∧ ∃ d, descs h !! j = Some d ∧ d' = with_list d (without_arena a d)).
Proof using Hds.
  clear Hh HA Hp Hsame Hf. subst h'. cbn [descs]. destruct (arena_desc A) as [i|].
  - destruct Hds as (d & Hd & ->). rewrite descs_set_free_list. naive_solver.
  - subst ds. naive_solver.
Qed.

(** A block of another arena is not a block of this one. *)
Lemma other_block a' A' j d b : arenas h !! a' = Some A' → arena_desc A' = Some j →
  descs h !! j = Some d → a' ≠ a → b ∈ blocks a' d → b ∉ blocks a d.
Proof using Hh HA.
  intros HA' Hj Hd Hne Hb Hb'. pose proof (heap_desc_ok h j d Hh Hd) as Hok.
  destruct (arena_range h a A Hh HA) as (Hal & _). destruct (arena_range h a' A' Hh HA') as (Hal' & _).
  destruct (block_bounds b a d Hok Hal Hb') as (_ & _ & E & _).
  destruct (block_bounds b a' d Hok Hal' Hb) as (_ & _ & E' & _). congruence.
Qed.

Lemma remove_arena_ok a' A' : a' ≠ a → arenas h !! a' = Some A' → arena_ok h' a' A'.
Proof using All.
  intros Hne HA'. destruct (hw_arena _ Hh a' A' HA') as [H1 (H2 & H3 & H4) H5 H6].
  destruct (Hsame Kernel) as [E1 E2].
  destruct (arena_range h a A Hh HA) as (Hal & _ & Hpos & _).
  destruct (arena_range h a' A' Hh HA') as (Hal' & _ & Hpos' & _).
  split; [done|unfold pages_in; change (pal h') with p; by rewrite E1, E2|..].
  - intros k Hk. cbn. rewrite Hf. destruct (_ && _) eqn:E; [|by apply H5].
    exfalso. destruct (hw_disjoint _ Hh a A a' A' HA HA'); [done|c_lia..].
  - destruct (arena_desc A') as [j|]; [|done]. subst h'. cbn [descs].
    destruct (arena_desc A); [|by subst ds]. destruct Hds as (d & _ & ->). by apply is_Some_set_free_list.
Qed.

Lemma remove_arena_wf : heap_wf h'.
Proof using All.
  split.
  - done.
  - rewrite <- (hw_table _ Hh). subst h'. cbn [descs]. destruct (arena_desc A) as [i|]; [|by subst ds].
    destruct Hds as (d & _ & ->). apply table_set_free_list.
  - intros a' A' [Hne HA']%remove_arena_lookup. by apply remove_arena_ok.
  - intros a1 A1 a2 A2 [H1 HA1]%remove_arena_lookup [H2 HA2]%remove_arena_lookup Hne.
    by apply (hw_disjoint _ Hh).
  - intros j d' b [[Hj Hd']|(Hj & d & Hd & ->)]%remove_arena_desc Hb; setoid_rewrite remove_arena_lookup.
    + destruct (hw_free _ Hh j d' b Hd' Hb) as (a' & A' & HA' & Hi' & Hb').
      exists a', A'. split_and!; try done. congruence.
    + cbn in Hb. apply list_elem_of_filter in Hb as [Hnb Hb].
      destruct (hw_free _ Hh j d b Hd Hb) as (a' & A' & HA' & Hi' & Hb').
      exists a', A'. split_and!; try done. intros ->. done.
  - intros j d' [[Hj Hd']|(Hj & d & Hd & ->)]%remove_arena_desc; [by apply (hw_nodup _ Hh j)|].
    by apply NoDup_filter, (hw_nodup _ Hh j).
  - intros a' A' j d' [Hne HA']%remove_arena_lookup Hi' [[Hj Hd']|(Hj & d & Hd & ->)]%remove_arena_desc.
    + by apply (hw_count _ Hh a' A' j d').
    + rewrite (hw_count _ Hh a' A' j d) by done. unfold free_in, without_arena. cbn.
      rewrite list_filter_filter. do 2 f_equal. apply list_filter_iff'. intros b Hb.
      split; [|tauto]. intros Hpg. split; [done|].
      apply (other_block a' A' j d b HA' Hi' Hd Hne).
      apply (free_in_blocks h j d a' b Hh Hd). by apply list_elem_of_filter.
Qed.

Lemma remove_arena_slot q s : slot h' q s ↔ slot h q s ∧ ¬ slot_at h a A q s.
Proof using All.
  assert (∀ a' A', slot_at h' a' A' q s ↔ slot_at h a' A' q s) as Hat.
  { intros a' A'. unfold slot_at. destruct (arena_desc A') as [j|]; [|done].
    setoid_rewrite remove_arena_desc. split.
    - intros (d' & [[_ Hd']|(_ & d & Hd & ->)] & Hq & ->); eauto.
    - intros (d & Hd & Hq & ->). destruct (decide (arena_desc A = Some j)) as [Hj|Hj]; [|eauto 6].
      exists (with_list d (without_arena a d)). eauto 10. }
  unfold slot. setoid_rewrite remove_arena_lookup. setoid_rewrite Hat. split.
  - intros (a' & A' & [Hne HA'] & Hs). split; [eauto|]. intros Hs'.
    pose proof (slot_bounds h a' A' q s Hh HA' Hs). pose proof (slot_bounds h a A q s Hh HA Hs').
    destruct (hw_disjoint _ Hh a A a' A' HA HA'); [done|lia..].
  - intros [(a' & A' & HA' & Hs) Hn]. exists a', A'. split_and!; try done. intros ->. by simplify_eq.
Qed.

Lemma remove_arena_is_free q : is_free h' q → is_free h q.
Proof using Hds.
  intros (j & d' & [[Hj Hd']|(Hj & d & Hd & ->)]%remove_arena_desc & Hq); [by exists j, d'|].
  exists j, d. split; [done|]. cbn in Hq. by apply list_elem_of_filter in Hq as [_ ?].
Qed.

Lemma remove_arena_is_free_back q : is_free h q → (∀ s, ¬ slot_at h a A q s) → is_free h' q.
Proof using Hds.
  intros (j & d & Hd & Hq) Hn. unfold is_free. setoid_rewrite remove_arena_desc.
  destruct (decide (arena_desc A = Some j)) as [Hj|Hj]; [|by exists j, d; auto].
  exists j, (with_list d (without_arena a d)). split; [eauto 10|].
  apply list_elem_of_filter. split; [|done]. intros Hb. apply (Hn (desc_block_size d)).
  unfold slot_at. rewrite Hj. eauto.
Qed.
End remove_arena.

(** ** Freeing *)

(** The loop of [free] that empties an unused arena. *)
Lemma remove_blocks_spec h i d a A n : heap_wf h → descs h !! i = Some d →
  arenas h !! a = Some A → arena_desc A = Some i → free_cnt A = blocks_per_arena d →
  n = Z.to_nat (blocks_per_arena d) →
  for_up n 0 (λ k h, b ← arena_to_block h a k; remove_block h i b) h =
    Ok (set_free_list h i (without_arena a d)).
Proof.
  intros Hh Hd HA Hi Hc ->. pose proof (heap_desc_ok h i d Hh Hd) as Hok.
  destruct (desc_ok_bounds d Hok) as (Hb1 & Hb2 & Hb3).
  destruct (arena_range h a A Hh HA) as (Hal & Hlo & Hpos & Hhi). unfold arena_pages, PHYS_BASE in *.
  rewrite Hi in *.
  assert (∀ b, b ∈ blocks a d → b ∈ free_list d) as Hall.
  { intros b Hb. enough (b ∈ free_in a d) as [_ ?]%list_elem_of_filter by done.
    rewrite (submseteq_length_Permutation _ _ (free_in_submseteq h i d a Hh Hd)); [done|].
    pose proof (hw_count _ Hh a A i d HA Hi Hd). pose proof (length_blocks a d Hok). lia. }
  set (pre := λ k, (λ k, block_at a d (Z.of_nat k)) <$> seq 0 (Z.to_nat k)).
  destruct (for_up_total
    (λ k s, s = set_free_list h i (filter (λ b, b ∉ pre k) (free_list d)))
    (λ k h, b ← arena_to_block h a k; remove_block h i b) (Z.to_nat (blocks_per_arena d)) 0 h)
    as (h2 & -> & ->).
  - intros k s Hk ->. set (l := filter _ _).
    assert (descs (set_free_list h i l) !! i = Some (with_list d l)) as Hdl
      by (apply descs_set_free_list; left; eauto).
    rewrite (arena_to_block_spec _ a A i (with_list d l) k); try done; [|apply (hw_arena _ Hh _ _ HA)|lia|cbn; lia].
    cbn [mbind res_bind]. unfold remove_block. rewrite Hdl. cbn [deref mbind res_bind free_list with_list].
    change (block_at a (with_list d l) k) with (block_at a d k).
    assert (block_at a d k ∈ l) as Hin.
    { apply list_elem_of_filter. split.
      - subst pre. cbn. intros (j & E & Hj%elem_of_seq)%list_elem_of_fmap. unfold block_at in E. nia.
      - apply Hall, elem_of_blocks. exists k. split; [lia|done]. }
    rewrite decide_True by done. eexists. split; [done|]. rewrite set_free_list_twice. f_equal.
    subst l. rewrite list_filter_filter. apply list_filter_iff'. intros b _. subst pre. cbn.
    replace (Z.to_nat (k + 1)) with (Z.to_nat k + 1)%nat by lia.
    rewrite seq_app, fmap_app, not_elem_of_app. cbn. rewrite Z2Nat.id, list_elem_of_singleton by lia. tauto.
  - transitivity (set_free_list h i (free_list d)); [symmetry; by apply set_free_list_id|].
    f_equal. symmetry. apply list_filter_all. intros b _. apply not_elem_of_nil.
  - do 2 f_equal. unfold without_arena, blocks. subst pre. cbv beta.
    by replace (Z.to_nat (0 + Z.of_nat (Z.to_nat (blocks_per_arena d))))
      with (Z.to_nat (blocks_per_arena d)) by lia.
Qed.

(** Giving the pages of an arena back. *)
Lemma palloc_free_arena h a A : heap_wf h → arenas h !! a = Some A →
  ∃ p, palloc_free_multiple (pal h) a (arena_pages A) = Ok p ∧ palloc_wf p ∧
    same_pools (pal h) p ∧ flips (pal h) p (a / 4096) (arena_pages A) false ∧
    mem p = memset (mem (pal h)) a 204 (4096 * arena_pages A).
Proof.
  intros Hh HA. destruct (arena_range h a A Hh HA) as (_ & _ & Hpos & _).
  destruct (hw_arena _ Hh a A HA) as [_ H2 H3 _].
  destruct (palloc_free_spec (pal h) Kernel a (arena_pages A)) as [[_ (k & Hk & E)]|[_ Hok]];
    [apply Hh|done|done| |done]. rewrite H3 in E by done. done.
Qed.

Lemma heap_wf_mem h m : heap_wf h → heap_wf (set_pal h (set_mem (pal h) m)).
Proof.
  intros [H1 H2 H3 H4 H5 H6 H7]. split; try done; [by apply wf_set_mem|].
  intros a A HA. destruct (H3 a A HA) as [? ? ? ?]. by split.
Qed.

(** [h'] is [h] without the live block at [p]; the contents of the blocks
    that stay are unchanged. *)
Definition freed (h h' : heap) (p : Z) : Prop :=
  heap_wf h' ∧ (∀ q s, live h' q s ↔ live h q s ∧ q ≠ p) ∧
  (∀ q s x, live h' q s → q ≤ x < q + s → mem (pal h') x = mem (pal h) x).

Lemma memset_out m dst v n x : ¬ (dst ≤ x < dst + n) → memset m dst v n x = m x.
Proof. intros H. unfold memset. by replace (_ && _) with false by lia. Qed.

Lemma free_big h p sz a A : heap_wf h → live h p sz → arenas h !! a = Some A →
  arena_desc A = None → slot_at h a A p sz → ∃ h', free h p = Ok h' ∧ freed h h' p.
Proof.
  intros Hh Hlive HA Hi Hs. destruct (arena_range h a A Hh HA) as (Hal & Hlo & Hpos & Hhi).
  pose proof (slot_bounds h a A p sz Hh HA Hs) as Hb.
  unfold slot_at in Hs. rewrite Hi in Hs. destruct Hs as [-> ->].
  unfold free, PHYS_BASE in *. rewrite (proj2 (Z.eqb_neq _ 0)) by lia. cbn [negb].
  rewrite (block_to_arena_big h a A) by (done || lia || apply (hw_arena _ Hh _ _ HA)).
  cbn [mbind res_bind]. rewrite HA. cbn [deref mbind res_bind]. rewrite Hi. unfold free_arena.
  destruct (palloc_free_arena h a A Hh HA) as (p & Ep & Hp & Hsame & Hf & Hm).
  assert (free_cnt A = arena_pages A) as Ea by (unfold arena_pages; by rewrite Hi).
  rewrite Ea, Ep. cbn [mbind res_bind]. eexists. split; [done|].
  assert (match arena_desc A with
    | None => descs h = descs h
    | Some i => ∃ d, descs h !! i = Some d ∧ descs h = descs (set_free_list h i (without_arena a d))
    end) as Hds by by rewrite Hi.
  assert (∀ q s, slot_at h a A q s ↔ q = a + 12 ∧ s = 4096 * free_cnt A - 12) as Hat
    by (intros; unfold slot_at; by rewrite Hi).
  assert (∀ q s, slot h q s → (slot_at h a A q s ↔ q = a + 12)) as Hq.
  { intros q s Hq. rewrite Hat. split; [tauto|]. intros ->. split; [done|].
    destruct (slot_disjoint h (a + 12) s (a + 12) (4096 * free_cnt A - 12) Hh Hq); [apply Hlive|lia|].
    destruct Hq as (a' & A' & HA' & Hq'). pose proof (slot_bounds h a' A' _ _ Hh HA' Hq'). lia. }
  split_and!.
  - by apply (remove_arena_wf h p a A (descs h)).
  - intros q s. unfold live. rewrite (remove_arena_slot h p a A (descs h)) by done. split.
    + intros [[H1 H2] H3]. rewrite Hq in H2 by done. split; [|done]. split; [done|].
      intros Hfr. apply H3, remove_arena_is_free_back with A; [done..|].
      intros t Ht%Hat. by destruct Ht.
    + intros [[H1 H2] H3]. split; [by rewrite Hq|]. intros Hfr. apply H2.
      by apply (remove_arena_is_free h p a A (descs h)).
  - intros q s x [Hql _] Hx. apply (remove_arena_slot h p a A (descs h)) in Hql as [Hql Hn]; [|done..].
    cbn. rewrite Hm. apply memset_out. rewrite Hq in Hn by done.
    destruct Hql as (a' & A' & HA' & Hq'). pose proof (slot_bounds h a' A' _ _ Hh HA' Hq').
    destruct (decide (a' = a)) as [->|Hne].
    + simplify_eq. apply Hat in Hq' as [-> _]. done.
    + destruct (hw_disjoint _ Hh a' A' a A HA' HA Hne); lia.
Qed.

(** An arena all of whose blocks are free can go: no live block is in it. *)
Lemma retire_arena_spec h i d d0 a A : heap_wf h → descs h !! i = Some d →
  blocks_per_arena d0 = blocks_per_arena d → arenas h !! a = Some A →
  arena_desc A = Some i → free_cnt A = blocks_per_arena d →
  ∃ h', retire_arena h i d0 a = Ok h' ∧ heap_wf h' ∧ (∀ q s, live h' q s ↔ live h q s) ∧
    (∀ q s x, live h' q s → q ≤ x < q + s → mem (pal h') x = mem (pal h) x).
Proof.
  intros Hh Hd E0 HA Hi Hc. unfold retire_arena.
  rewrite (remove_blocks_spec h i d a A) by (done || by rewrite E0). cbn [mbind res_bind].
  unfold free_arena. cbn [pal set_free_list].
  destruct (palloc_free_arena h a A Hh HA) as (p & Ep & Hp & Hsame & Hf & Hm).
  assert (arena_pages A = 1) as Ea by (unfold arena_pages; by rewrite Hi).
  rewrite <- Ea, Ep. cbn [mbind res_bind]. eexists. split; [done|].
  cbn [arenas set_free_list]. set (ds := descs (set_free_list h i (without_arena a d))).
  assert (match arena_desc A with
    | None => ds = descs h
    | Some i => ∃ d, descs h !! i = Some d ∧ ds = descs (set_free_list h i (without_arena a d))
    end) as Hds by (rewrite Hi; eauto).
  change (alter _ i (descs h)) with ds.
  assert (∀ q s, slot_at h a A q s → is_free h q) as Hfull.
  { intros q s. unfold slot_at. rewrite Hi. intros (d' & Hd' & Hq & _).
    assert (d' = d) as -> by congruence. exists i, d. split; [done|].
    enough (q ∈ free_in a d) as [_ ?]%list_elem_of_filter by done.
    rewrite (submseteq_length_Permutation _ _ (free_in_submseteq h i d a Hh Hd)); [done|].
    pose proof (hw_count _ Hh a A i d HA Hi Hd).
    pose proof (length_blocks a d (heap_desc_ok h i d Hh Hd)). lia. }
  assert (∀ q s, live (Heap p ds (delete a (arenas h))) q s ↔ live h q s) as Hlive.
  { intros q s. unfold live. rewrite (remove_arena_slot h p a A ds) by done. split.
    - intros [[H1 H2] H3]. split; [done|]. intros Hfr.
      apply H3, remove_arena_is_free_back with A; [done..|]. intros t Ht. apply H2.
      destruct (slot_disjoint h q s q t Hh H1) as [[_ ->]|?]; [by exists a, A|done|].
      destruct H1 as (a' & A' & HA' & Hq'). pose proof (slot_bounds h a' A' _ _ Hh HA' Hq').
      pose proof (slot_bounds h a A _ _ Hh HA Ht). lia.
    - intros [H1 H2]. split; [split; [done|by intros ?%Hfull]|]. intros Hfr. apply H2.
      by apply (remove_arena_is_free h p a A ds). }
  split_and!; [by apply (remove_arena_wf h p a A ds)|done|].
  intros q s x Hl%Hlive Hx. cbn. rewrite Hm. apply memset_out.
  destruct Hl as [(a' & A' & HA' & Hq') Hn]. pose proof (slot_bounds h a' A' _ _ Hh HA' Hq').
  destruct (decide (a' = a)) as [->|Hne].
  - simplify_eq. by apply Hfull in Hq'.
  - destruct (hw_disjoint _ Hh a' A' a A HA' HA Hne); lia.
Qed.

(** Putting a live block on its free list. *)
Lemma push_freed h i d a A p : heap_wf h → descs h !! i = Some d → arenas h !! a = Some A →
  arena_desc A = Some i → p ∈ blocks a d → ¬ is_free h p →
  freed h (relist (memory_set h p 204 (desc_block_size d)) i (p :: free_list d) a A (free_cnt A + 1)) p.
Proof.
  intros Hh Hd HA Hi Hp Hnf. pose proof (heap_desc_ok h i d Hh Hd) as Hok.
  destruct (arena_range h a A Hh HA) as (Hal & _).
  destruct (block_bounds p a d Hok Hal Hp) as (_ & _ & Hpg & _).
  assert (p ∉ free_list d) as Hpl by (intros ?; apply Hnf; by exists i, d).
  set (h0 := memory_set _ _ _ _). assert (heap_wf h0) as Hh0 by by apply heap_wf_mem.
  assert (slot h p (desc_block_size d)) as Hsp.
  { exists a, A. split; [done|]. unfold slot_at. rewrite Hi. eauto. }
  assert (∀ q s, slot (relist h0 i (p :: free_list d) a A (free_cnt A + 1)) q s ↔ slot h q s) as Hsl
    by (intros q s; by apply (relist_slot h0 i d)).
  assert (∀ q s, live (relist h0 i (p :: free_list d) a A (free_cnt A + 1)) q s ↔
    live h q s ∧ q ≠ p) as Hlive.
  { intros q s. unfold live. rewrite Hsl, (relist_free h0 i d) by done.
    assert (is_free h q ↔ q ∈ free_list d ∨ ∃ j d', j ≠ i ∧ descs h !! j = Some d' ∧ q ∈ free_list d') as ->.
    { unfold is_free. split.
      - intros (j & d' & Hd' & Hq). destruct (decide (j = i)) as [->|]; [left; congruence|right; eauto].
      - intros [?|(j & d' & _ & ? & ?)]; eauto. }
    rewrite elem_of_cons. change (descs h0) with (descs h). tauto. }
  split_and!; [|done|].
  - apply (relist_wf h0 i d); try done.
    + apply NoDup_cons. split; [done|by apply (hw_nodup _ Hh i)].
    + intros b [->|Hb]%elem_of_cons; [by exists a, A|by apply (hw_free _ Hh i d)].
    + unfold free_in. cbn [free_list with_list]. rewrite filter_cons_True by done. cbn [length].
      pose proof (hw_count _ Hh a A i d HA Hi Hd). unfold free_in in *. lia.
    + intros a' Ha'. unfold free_in. cbn [free_list with_list]. by rewrite filter_cons_False by congruence.
  - intros q s x [[Hq _] Hne]%Hlive Hx. cbn. apply memset_out.
    destruct (slot_disjoint h q s p (desc_block_size d) Hh Hq Hsp) as [[? _]|?]; [done|lia].
Qed.

Lemma free_spec h p sz : heap_wf h → live h p sz → ∃ h', free h p = Ok h' ∧ freed h h' p.
Proof.
  intros Hh Hlive. pose proof Hlive as [(a & A & HA & Hs) Hnf].
  destruct (arena_desc A) as [i|] eqn:Hi; [|by apply (free_big h p sz a A)].
  pose proof Hs as Hs'. unfold slot_at in Hs'. rewrite Hi in Hs'. destruct Hs' as (d & Hd & Hp & ->).
  pose proof (heap_desc_ok h i d Hh Hd) as Hok. destruct (desc_ok_bounds d Hok) as (_ & Hbpa & _).
  destruct (arena_range h a A Hh HA) as (Hal & Hlo & _ & Hhi).
  pose proof (slot_bounds h a A _ _ Hh HA Hs) as Hb. unfold arena_pages, PHYS_BASE in *. rewrite Hi in *.
  destruct (push_freed h i d a A p) as (Hw1 & Hl1 & Hm1); [done..|].
  pose proof (free_cnt_bound h a A i d Hh HA Hi Hd) as Hfc.
  unfold free. rewrite (proj2 (Z.eqb_neq p 0)) by lia. cbn [negb].
  rewrite (block_to_arena_spec h a A i d p) by (done || lia || apply (hw_arena _ Hh _ _ HA)).
  cbn [mbind res_bind]. rewrite HA. cbn [deref mbind res_bind]. rewrite Hi, Hd. cbn [deref mbind res_bind].
  unfold push_front. change (descs (memory_set h p 204 _)) with (descs h). rewrite Hd.
  cbn [deref mbind res_bind free_cnt]. rewrite u32_small by (split; lia).
  fold (relist (memory_set h p 204 (desc_block_size d)) i (p :: free_list d) a A (free_cnt A + 1)).
  set (h1 := relist _ _ _ _ _ _) in *.
  assert (arenas h1 !! a = Some (Arena (magic A) (Some i) (free_cnt A + 1))) as HA1
    by (apply lookup_insert_eq).
  assert (descs h1 !! i = Some (with_list d (p :: free_list d))) as Hd1
    by (apply (relist_desc (memory_set h p 204 (desc_block_size d)) i d); auto).
  pose proof (free_cnt_bound h1 a _ i _ Hw1 HA1 eq_refl Hd1) as Hfc1. cbn in Hfc1.
  destruct (Z.leb_spec (blocks_per_arena d) (free_cnt A + 1)); [|by eexists].
  rewrite (proj2 (Z.eqb_eq (free_cnt A + 1) _)) by lia. cbn [ASSERT mbind res_bind].
  destruct (retire_arena_spec h1 i _ d a _ Hw1 Hd1 eq_refl HA1 eq_refl) as (h' & -> & Hw & Hl & Hm);
    [cbn; lia|]. exists h'. split; [done|]. split_and!; [done|..].
  - intros q s. by rewrite Hl, Hl1.
  - intros q s x Hq Hx. rewrite (Hm q s) by done. apply (Hm1 q s); [by apply Hl|done].
Qed.

Lemma block_size_spec h p sz : heap_wf h → slot h p sz → block_size h p = Ok sz.
Proof.
  intros Hh (a & A & HA & Hs). destruct (arena_range h a A Hh HA) as (Hal & Hlo & Hpos & Hhi).
  pose proof (slot_bounds h a A _ _ Hh HA Hs) as Hb. unfold slot_at, arena_pages, PHYS_BASE in *.
  unfold block_size. destruct (arena_desc A) as [i|] eqn:Hi.
  - destruct Hs as (d & Hd & Hp & ->).
    rewrite (block_to_arena_spec h a A i d p)
      by (done || lia || apply (hw_arena _ Hh _ _ HA) || by apply (heap_desc_ok h i)).
    cbn [mbind res_bind]. rewrite HA. cbn [deref mbind res_bind]. unfold get_desc. by rewrite Hi, Hd.
  - destruct Hs as [-> ->].
    rewrite (block_to_arena_big h a A) by (done || lia || apply (hw_arena _ Hh _ _ HA)).
    cbn [mbind res_bind]. rewrite HA. cbn [deref mbind res_bind]. unfold get_desc.
    rewrite Hi, pg_ofs_mod. assert ((a + 12) mod 4096 = 12) as -> by c_lia.
    change PGSIZE with 4096. by rewrite (u32_small (4096 * free_cnt A)), u32_small by (split; lia).
Qed.

Lemma malloc_init_spec p : palloc_wf p →
  ∃ h, malloc_init p = Ok h ∧ heap_wf h ∧ pal h = p ∧ ∀ q s, ¬ live h q s.
Proof.
  intros Hp. eexists. split; [vm_compute; reflexivity|]. split_and!; [|done|].
  - split; try done.
    intros i d b Hd Hb. exfalso.
    do 7 (destruct i as [|i]; [injection Hd as <-; by apply not_elem_of_nil in Hb|]). done.
    intros i d Hd. do 7 (destruct i as [|i]; [injection Hd as <-; constructor|]). done.
  - intros q s [(a & A & HA & _) _]. done.
Qed.

(** ** Theorems *)

(** C20. [malloc] returns a null pointer and changes nothing, when the page
    allocator has no page, or a block that is big enough, was not live,
    overlaps no live block, and is now the only additional live block; the
    heap stays well-formed and no byte changes.  Every request of up to
    [2^32 - 4108] bytes is covered. *)
Theorem malloc_correct h size : heap_wf h → 0 < size ≤ 2 ^ 32 - 4108 →
  malloc h size = Ok (h, 0) ∨
  ∃ h' p sz, malloc h size = Ok (h', p) ∧ p ≠ 0 ∧ size ≤ sz ∧ allocated h h' p sz ∧
    (∀ q s, live h q s → p + sz ≤ q ∨ q + s ≤ p).
Proof.
  intros Hh Hs. destruct (malloc_spec h size Hh Hs) as [E|(h' & p & sz & E & Hp & Hsz & Hal)]; [by left|].
  right. exists h', p, sz. split_and!; try done. destruct Hal as (Hw & Hn & Hl & _).
  intros q s Hq. assert (live h' p sz) as [Hp' _] by (apply Hl; auto).
  assert (live h' q s) as [Hq' _] by (apply Hl; auto).
  destruct (slot_disjoint h' p sz q s Hw Hp' Hq') as [[-> _]|?]; [|done]. by destruct (Hn s).
Qed.

(** [free] of a live block succeeds: no assertion fails, exactly this
    block is no longer live, the contents of all other live blocks stay, and
    the heap stays well-formed, also when the block was the last one of its
    arena and the arena goes back to the page allocator. *)
Theorem free_correct h p sz : heap_wf h → live h p sz → ∃ h', free h p = Ok h' ∧ freed h h' p.
Proof. apply free_spec. Qed.

(** [realloc] of a live block to a non-zero size either returns a null
    pointer and leaves everything as it was, or returns a new block of at
    least that size, the only change to the set of live blocks being the
    exchange of the old block for it, whose bytes are those of the old block
    as far as both reach. *)
Theorem realloc_correct h p sz n : heap_wf h → live h p sz → 0 < n ≤ 2 ^ 32 - 4108 →
  realloc h p n = Ok (h, 0) ∨
  ∃ h' p' sz', realloc h p n = Ok (h', p') ∧ p' ≠ 0 ∧ n ≤ sz' ∧ heap_wf h' ∧
    (∀ q s, live h' q s ↔ live h q s ∧ q ≠ p ∨ q = p' ∧ s = sz') ∧
    (∀ x, 0 ≤ x < Z.min n sz → mem (pal h') (p' + x) = mem (pal h) (p + x)).
Proof.
  intros Hh Hp Hn. unfold realloc. rewrite (proj2 (Z.eqb_neq n 0)) by lia.
  assert (p ≠ 0) as Hp0.
  { destruct Hp as [(a & A & HA & Hs) _]. destruct (arena_range h a A Hh HA) as (_ & Hlo & _).
    pose proof (slot_bounds h a A p sz Hh HA Hs). unfold PHYS_BASE in *. lia. }
  rewrite (proj2 (Z.eqb_neq p 0)) by done.
  destruct (malloc_spec h n Hh Hn) as [->|(h1 & p' & sz' & -> & Hp' & Hsz & Hw & Hnl & Hl & Hmem)]; [by left|].
  right. cbn [mbind res_bind negb]. rewrite (proj2 (Z.eqb_neq p' 0)) by done. cbn [negb andb].
  assert (live h1 p sz) as Hp1 by (apply Hl; auto). assert (live h1 p' sz') as Hp1' by (apply Hl; auto).
  rewrite (block_size_spec h1 p sz) by (done || apply Hp1). cbn [mbind res_bind].
  replace (if n <? sz then n else sz) with (Z.min n sz) by (destruct (Z.ltb_spec n sz); lia).
  set (h2 := set_pal h1 _).
  assert (heap_wf h2) as Hw2 by by apply heap_wf_mem.
  destruct (free_spec h2 p sz Hw2 Hp1) as (h' & -> & Hw' & Hl' & Hm'). cbn [mbind res_bind].
  exists h', p', sz'. split_and!; try done.
  - intros q s. rewrite Hl'. change (live h2 q s) with (live h1 q s). rewrite Hl.
    split; [tauto|]. intros [?|[-> ->]]; [tauto|]. split; [tauto|]. intros ->. by destruct (Hnl sz).
  - intros x Hx. rewrite (Hm' p' sz'); [|apply Hl'; split; [done|intros ->; by destruct (Hnl sz)]|lia].
    cbn. unfold memcpy. replace (_ && _) with true by lia. rewrite Hmem. f_equal. lia.
Qed.

Definition demo_heap : heap := result (Heap demo_pages [] ∅) (malloc_init demo_pages).
Definition demo_malloc : heap * Z := result (demo_heap, 0) (malloc demo_heap 100).

(** The call returned a block of [n] bytes. *)
Definition gives (r : res (heap * Z)) (n : Z) : bool :=
  match r with
  | Ok (h, p) =>
      negb (p =? 0) && match block_size h p with Ok s => s =? n | Err _ => false end
  | Err _ => false
  end.

(** The size computations wrap around: a request for [2^32 - 5] bytes is
    served by a block of one page, and [calloc (65537, 65537)], whose product
    is more than [2^32], passes the overflow test and gets 135156 bytes. *)
Theorem malloc_size_overflow :
  gives (malloc demo_heap (2 ^ 32 - 5)) 4084 = true ∧
  gives (calloc demo_heap 65537 65537) 135156 = true.
Proof. split; vm_compute; reflexivity. Qed.

(** ** Witnesses *)

Lemma demo_heap_wf : heap_wf demo_heap.
Proof.
  unfold demo_heap. by destruct (malloc_init_spec demo_pages demo_pages_wf) as (h & -> & Hh & _).
Qed.

Lemma demo_malloc_live : heap_wf demo_malloc.1 ∧ live demo_malloc.1 demo_malloc.2 128.
Proof.
  unfold demo_malloc.
  destruct (malloc_spec demo_heap 100 demo_heap_wf) as [E|(h & p & sz & E & Hp & Hs & Hw & Hn & Hl & _)];
    [lia|vm_compute in E; discriminate|].
  rewrite E. cbn. split; [done|]. assert (sz = 128) as <-; [|apply Hl; auto].
  assert (live h p sz) as [Hsl _] by (apply Hl; auto).
  apply (block_size_spec h p sz Hw) in Hsl.
  assert (demo_malloc = (h, p)) as Ed by (unfold demo_malloc; by rewrite E).
  assert (block_size demo_malloc.1 demo_malloc.2 = Ok 128) as Eb by (vm_compute; reflexivity).
  rewrite Ed in Eb. cbn in Eb. congruence.
Qed.

Lemma malloc_witness : ∃ h p sz, malloc demo_heap 100 = Ok (h, p) ∧ 100 ≤ sz ∧
  allocated demo_heap h p sz.
Proof.
  destruct (malloc_correct demo_heap 100 demo_heap_wf) as [E|(h & p & sz & E & _ & Hs & Hal & _)].
  - lia.
  - vm_compute in E. discriminate E.
  - exists h, p, sz. split; [exact E|]. split; [exact Hs|exact Hal].
Defined.

Lemma free_witness : ∃ h, free demo_malloc.1 demo_malloc.2 = Ok h ∧
  freed demo_malloc.1 h demo_malloc.2.
Proof.
  exact (free_correct demo_malloc.1 demo_malloc.2 128 (proj1 demo_malloc_live) (proj2 demo_malloc_live)).
Defined.

Lemma realloc_witness : ∃ h p, realloc demo_malloc.1 demo_malloc.2 5000 = Ok (h, p) ∧ p ≠ 0.
Proof.
  destruct (realloc_correct demo_malloc.1 demo_malloc.2 128 5000
    (proj1 demo_malloc_live) (proj2 demo_malloc_live)) as [E|(h & p & sz & E & Hp & _)].
  - lia.
  - apply (f_equal (λ r, match r with Ok (_, p) => p | Err _ => 0 end)) in E.
    vm_compute in E. discriminate E.
  - exists h, p. split; [exact E|exact Hp].
Defined.
