(* ===== verification/Pagedir.v ===== *)
(** * userprog/pagedir.c and threads/pte.h

    The two-level page tables of a process.  A page directory is a page of
    1024 words, and the entries of its user part point to page tables, which
    come from the page allocator.  The state adds to the allocator's the
    processor's page directory base register and the translations that it
    may have cached. *)

From S2P Require Import Prelude Vaddr Palloc.

(** ** threads/pte.h *)

Definition PTSHIFT : Z := PGBITS.
Definition PTBITS : Z := 10.
Definition PTMASK : Z := BITMASK PTSHIFT PTBITS.
Definition PDSHIFT : Z := PTSHIFT + PTBITS.

Definition pt_no (va : Z) : Z := Z.shiftr (Z.land va PTMASK) PTSHIFT.
Definition pd_no (va : Z) : Z := Z.shiftr va PDSHIFT.

Definition PTE_ADDR : Z := 4294963200.
Definition PTE_P : Z := 1.
Definition PTE_W : Z := 2.
Definition PTE_U : Z := 4.
Definition PTE_A : Z := 32.
Definition PTE_D : Z := 64.

Definition pde_create (pt : Z) : res Z :=
  _ ← ASSERT (pg_ofs pt =? 0);
  p ← vtop pt;
  Ok (Z.lor (Z.lor (Z.lor p PTE_U) PTE_P) PTE_W).

Definition pde_get_pt (pde : Z) : res Z :=
  _ ← ASSERT (flag pde PTE_P);
  ptov (Z.land pde PTE_ADDR).

Definition pte_create_kernel (page : Z) (writable : bool) : res Z :=
  _ ← ASSERT (pg_ofs page =? 0);
  p ← vtop page;
  Ok (Z.lor (Z.lor p PTE_P) (if writable then PTE_W else 0)).

Definition pte_create_user (page : Z) (writable : bool) : res Z :=
  p ← pte_create_kernel page writable;
  Ok (Z.lor p PTE_U).

Definition pte_get_page (pte : Z) : res Z := ptov (Z.land pte PTE_ADDR).

(** ** Words of memory, least significant byte first *)

Definition rd32 (m : memory) (a : Z) : Z :=
  m a + 256 * m (a + 1) + 65536 * m (a + 2) + 16777216 * m (a + 3).
Definition wr32 (m : memory) (a v : Z) : memory :=
  λ k, if k =? a then v mod 256
       else if k =? a + 1 then v / 256 mod 256
       else if k =? a + 2 then v / 65536 mod 256
       else if k =? a + 3 then v / 16777216 mod 256
       else m k.
Definition copy_page (m : memory) (dst src : Z) : memory :=
  λ k, if (dst <=? k) && (k <? dst + PGSIZE) then m (src + (k - dst)) else m k.

(** ** The processor

    [tlb] holds the translations that the processor may still use: the
    address of a user page and the page table entry it was read from. *)
Record mmu := Mmu { pal : palloc; cr3 : Z; tlb : list (Z * Z) }.

Definition word (s : mmu) (a : Z) : Z := rd32 (mem (pal s)) a.
Definition store_word (s : mmu) (a v : Z) : mmu :=
  Mmu (set_mem (pal s) (wr32 (mem (pal s)) a v)) (cr3 s) (tlb s).

Section code.
(** The globals of threads/init.c. *)
Variables init_page_dir init_ram_pages : Z.

Definition pagedir_create (s : mmu) : res (mmu * Z) :=
  '(p, pd) ← palloc_get_page (pal s) 0;
  let p := if negb (pd =? 0) then set_mem p (copy_page (mem p) pd init_page_dir) else p in
  Ok (Mmu p (cr3 s) (tlb s), pd).

Definition pagedir_destroy (s : mmu) (pd : Z) : res mmu :=
  if pd =? 0 then Ok s else
  _ ← ASSERT (negb (pd =? init_page_dir));
  p ← for_up (Z.to_nat (pd_no PHYS_BASE)) 0 (λ i p,
    let pde := rd32 (mem p) (pd + 4 * i) in
    if flag pde PTE_P then pt ← pde_get_pt pde; palloc_free_page p pt else Ok p) (pal s);
  p ← palloc_free_page p pd;
  Ok (Mmu p (cr3 s) (tlb s)).

(** The result is the address of the entry, or null. *)
Definition lookup_page (s : mmu) (pd vaddr : Z) (create : bool) : res (mmu * Z) :=
  _ ← ASSERT (negb (pd =? 0));
  _ ← ASSERT (negb create || is_user_vaddr vaddr);
  let pde := pd + 4 * pd_no vaddr in
  let found s :=
    pt ← pde_get_pt (word s pde);
    Ok (s, pt + 4 * pt_no vaddr) in
  if word s pde =? 0 then
    if create then
      '(p, pt) ← palloc_get_page (pal s) PAL_ZERO;
      let s := Mmu p (cr3 s) (tlb s) in
      if pt =? 0 then Ok (s, 0) else
      e ← pde_create pt;
      found (store_word s pde e)
    else Ok (s, 0)
  else found s.

Definition pagedir_set_page (s : mmu) (pd upage kpage : Z) (writable : bool) : res (mmu * bool) :=
  _ ← ASSERT (pg_ofs upage =? 0);
  _ ← ASSERT (pg_ofs kpage =? 0);
  _ ← ASSERT (is_user_vaddr upage);
  frame ← vtop kpage;
  _ ← ASSERT (Z.shiftr frame PTSHIFT <? init_ram_pages);
  _ ← ASSERT (negb (pd =? init_page_dir));
  '(s, pte) ← lookup_page s pd upage true;
  if negb (pte =? 0) then
    _ ← ASSERT (Z.land (word s pte) PTE_P =? 0);
    e ← pte_create_user kpage writable;
    Ok (store_word s pte e, true)
  else Ok (s, false).

Definition pagedir_get_page (s : mmu) (pd uaddr : Z) : res Z :=
  _ ← ASSERT (is_user_vaddr uaddr);
  '(s, pte) ← lookup_page s pd uaddr false;
  if negb (pte =? 0) && flag (word s pte) PTE_P then
    page ← pte_get_page (word s pte);
    Ok (u32 (page + pg_ofs uaddr))
  else Ok 0.

Definition pagedir_activate (s : mmu) (pd : Z) : res mmu :=
  let pd := if pd =? 0 then init_page_dir else pd in
  p ← vtop pd;
  Ok (Mmu (pal s) p []).

Definition active_pd (s : mmu) : res Z := ptov (cr3 s).

Definition invalidate_pagedir (s : mmu) (pd : Z) : res mmu :=
  a ← active_pd s;
  if a =? pd then pagedir_activate s pd else Ok s.

Definition pagedir_clear_page (s : mmu) (pd upage : Z) : res mmu :=
  _ ← ASSERT (pg_ofs upage =? 0);
  _ ← ASSERT (is_user_vaddr upage);
  '(s, pte) ← lookup_page s pd upage false;
  if negb (pte =? 0) && flag (word s pte) PTE_P then
    invalidate_pagedir (store_word s pte (Z.land (word s pte) (not32 PTE_P))) pd
  else Ok s.

(** The test and the update of one flag, for the dirty and the accessed bit. *)
Definition pagedir_is_dirty (s : mmu) (pd vpage : Z) : res bool :=
  '(s, pte) ← lookup_page s pd vpage false;
  Ok (negb (pte =? 0) && flag (word s pte) PTE_D).

Definition pagedir_set_dirty (s : mmu) (pd vpage : Z) (dirty : bool) : res mmu :=
  '(s, pte) ← lookup_page s pd vpage false;
  if negb (pte =? 0) then
    if dirty then Ok (store_word s pte (Z.lor (word s pte) PTE_D))
    else invalidate_pagedir (store_word s pte (Z.land (word s pte) (not32 PTE_D))) pd
  else Ok s.

Definition pagedir_is_accessed (s : mmu) (pd vpage : Z) : res bool :=
  '(s, pte) ← lookup_page s pd vpage false;
  Ok (negb (pte =? 0) && flag (word s pte) PTE_A).

Definition pagedir_set_accessed (s : mmu) (pd vpage : Z) (accessed : bool) : res mmu :=
  '(s, pte) ← lookup_page s pd vpage false;
  if negb (pte =? 0) then
    if accessed then Ok (store_word s pte (Z.lor (word s pte) PTE_A))
    else invalidate_pagedir (store_word s pte (Z.land (word s pte) (not32 PTE_A))) pd
  else Ok s.

End code.

(** ** Entries as arithmetic *)

(** The flags of an entry are its low 12 bits, the page the others. *)
Lemma land_addr e : is_u32 e → Z.land e PTE_ADDR = e / 4096 * 4096.
Proof. apply land_not_pgmask. Qed.

Lemma lor_flags a f : a mod 4096 = 0 → 0 ≤ f < 4096 → Z.lor a f = a + f.
Proof.
  intros Ha Hf. rewrite <- Z.add_lor_land. replace (Z.land a f) with 0; [lia|].
  apply Z.bits_inj'. intros i Hi. rewrite Z.bits_0, Z.land_spec.
  destruct (Z.lt_ge_cases i 12).
  - replace a with (a / 4096 * 2 ^ 12) by (change (2 ^ 12) with 4096; Z.div_mod_to_equations; lia).
    rewrite Z.mul_pow2_bits_low by lia. done.
  - rewrite (high_bits 12 f) by (change (2 ^ 12) with 4096; lia). by rewrite andb_false_r.
Qed.

Lemma pt_no_eq va : is_u32 va → pt_no va = va / 4096 mod 1024.
Proof.
  intros Hva. unfold pt_no. change PTMASK with (Z.shiftl (Z.ones 10) 12). change PTSHIFT with 12.
  rewrite Z.shiftr_land, Z.shiftr_shiftl_l, Z.shiftl_0_r by lia.
  rewrite Z.land_ones by lia. by rewrite Z.shiftr_div_pow2 by lia.
Qed.

Lemma pd_no_eq va : pd_no va = va / 4194304.
Proof. unfold pd_no. change PDSHIFT with 22. by rewrite Z.shiftr_div_pow2. Qed.

Lemma user_index va : 0 ≤ va < PHYS_BASE →
  0 ≤ pd_no va < 768 ∧ 0 ≤ pt_no va < 1024 ∧ va / 4096 = 1024 * pd_no va + pt_no va.
Proof.
  intros H. unfold PHYS_BASE in H. rewrite pd_no_eq, pt_no_eq by c_lia.
  Z.div_mod_to_equations. lia.
Qed.

(** ** Words *)

Lemma rd32_range m a : (∀ k, is_u8 (m k)) → is_u32 (rd32 m a).
Proof.
  intros H. unfold rd32. pose proof (H a). pose proof (H (a + 1)). pose proof (H (a + 2)).
  pose proof (H (a + 3)). c_unfold. lia.
Qed.

Lemma rd32_wr32_eq m a v : is_u32 v → rd32 (wr32 m a v) a = v.
Proof.
  intros Hv. unfold rd32, wr32. rewrite !Z.eqb_refl.
  rewrite !(proj2 (Z.eqb_neq (_ + _) _)) by lia. c_lia.
Qed.

Lemma rd32_wr32_ne m a b v : a + 4 ≤ b ∨ b + 4 ≤ a → rd32 (wr32 m a v) b = rd32 m b.
Proof.
  intros H. unfold rd32, wr32. rewrite !(proj2 (Z.eqb_neq _ _)) by lia. done.
Qed.

Lemma wr32_bytes m a v : (∀ k, is_u8 (m k)) → ∀ k, is_u8 (wr32 m a v k).
Proof. intros H k. unfold wr32. repeat case_match; try done; apply (u8_range _). Qed.

(** ** Address spaces *)

(** A page of the kernel that is in use. *)
Definition kpage (s : mmu) (a : Z) : Prop :=
  a mod 4096 = 0 ∧ PHYS_BASE < a ∧ a + 4096 ≤ 2 ^ 32 ∧ page_used (pal s) (a / 4096) = true.

Definition pde (s : mmu) (pd i : Z) : Z := word s (pd + 4 * i).
Definition pt_of (e : Z) : Z := e / 4096 * 4096 + PHYS_BASE.

(** The address and the value of the entry for [v]; both are 0 when the
    directory has no page table for it. *)
Definition slot (s : mmu) (pd v : Z) : Z :=
  if pde s pd (pd_no v) =? 0 then 0 else pt_of (pde s pd (pd_no v)) + 4 * pt_no v.
Definition entry (s : mmu) (pd v : Z) : Z :=
  if slot s pd v =? 0 then 0 else word s (slot s pd v).

(** The page directories [pds] are well formed, and no page table is shared,
    within a directory or between two of them. *)
Record vm_inv (s : mmu) (pds : list Z) : Prop := {
  vm_pal : palloc_wf (pal s);
  vm_bytes a : is_u8 (mem (pal s) a);
  vm_dirs pd : pd ∈ pds → kpage s pd;
  vm_tables pd i : pd ∈ pds → 0 ≤ i < 768 → pde s pd i ≠ 0 →
    flag (pde s pd i) PTE_P = true ∧ kpage s (pt_of (pde s pd i)) ∧ pt_of (pde s pd i) ∉ pds;
  vm_inj pd i pd' i' : pd ∈ pds → pd' ∈ pds → 0 ≤ i < 768 → 0 ≤ i' < 768 →
    pde s pd i ≠ 0 → pde s pd' i' ≠ 0 → pt_of (pde s pd i) = pt_of (pde s pd' i') → pd = pd' ∧ i = i';
}.

Lemma slots_apart p q i j : p mod 4096 = 0 → q mod 4096 = 0 → 0 ≤ i < 1024 → 0 ≤ j < 1024 →
  p ≠ q ∨ i ≠ j → p + 4 * i + 4 ≤ q + 4 * j ∨ q + 4 * j + 4 ≤ p + 4 * i.
Proof.
  intros Hp Hq Hi Hj Hne. pose proof (Z.div_mod p 4096). pose proof (Z.div_mod q 4096).
  destruct (decide (p = q)) as [->|]; [lia|].
  assert (p / 4096 + 1 ≤ q / 4096 ∨ q / 4096 + 1 ≤ p / 4096) by lia. lia.
Qed.

Lemma kpage_word s a i : kpage s a → 0 ≤ i < 1024 → PHYS_BASE < a + 4 * i ∧ a + 4 * i + 4 ≤ 2 ^ 32.
Proof. intros (? & ? & ? & _) Hi. lia. Qed.

(** The address of an entry, whether or not the table exists. *)
Lemma pde_get_pt_ok s pds pd i : vm_inv s pds → pd ∈ pds → 0 ≤ i < 768 → pde s pd i ≠ 0 →
  pde_get_pt (pde s pd i) = Ok (pt_of (pde s pd i)).
Proof.
  intros Hs Hpd Hi Hne. destruct (vm_tables _ _ Hs pd i Hpd Hi Hne) as (HP & (_ & Hlo & Hhi & _) & _).
  unfold pde_get_pt. rewrite HP. cbn [ASSERT mbind res_bind].
  pose proof (rd32_range (mem (pal s)) (pd + 4 * i) (vm_bytes _ _ Hs)) as Hr.
  fold (word s (pd + 4 * i)) in Hr. fold (pde s pd i) in Hr.
  rewrite land_addr by done. unfold ptov, pt_of in *. unfold PHYS_BASE in *.
  rewrite (proj2 (Z.ltb_lt _ _)) by lia. cbn [ASSERT mbind res_bind].
  rewrite u32_small by (c_unfold; lia). done.
Qed.

Lemma lookup_false s pds pd v : vm_inv s pds → pd ∈ pds → 0 ≤ v < PHYS_BASE →
  lookup_page s pd v false = Ok (s, slot s pd v).
Proof.
  intros Hs Hpd Hv. destruct (vm_dirs _ _ Hs pd Hpd) as (_ & Hlo & _). unfold PHYS_BASE in Hlo.
  unfold lookup_page. rewrite (proj2 (Z.eqb_neq pd 0)) by lia. cbn [negb ASSERT mbind res_bind orb].
  destruct (user_index v Hv) as (Hi & Hj & _).
  unfold slot. fold (pde s pd (pd_no v)). destruct (Z.eqb_spec (pde s pd (pd_no v)) 0); [done|].
  rewrite (pde_get_pt_ok s pds) by done. done.
Qed.

(** A slot that exists lies in a page table of its directory. *)
Lemma slot_nonzero s pds pd v : vm_inv s pds → pd ∈ pds → 0 ≤ v < PHYS_BASE →
  pde s pd (pd_no v) ≠ 0 → slot s pd v = pt_of (pde s pd (pd_no v)) + 4 * pt_no v ∧ slot s pd v ≠ 0.
Proof.
  intros Hs Hpd Hv Hne. destruct (user_index v Hv) as (Hi & Hj & _).
  unfold slot. rewrite (proj2 (Z.eqb_neq _ 0)) by done. split; [done|].
  destruct (vm_tables _ _ Hs pd _ Hpd Hi Hne) as (_ & (_ & Hlo & _) & _). unfold PHYS_BASE in *. lia.
Qed.

Lemma kpage_mem s m c t a : kpage (Mmu (set_mem (pal s) m) c t) a ↔ kpage s a.
Proof. done. Qed.

(** Writing an entry changes that entry, and no other of any directory. *)
Lemma store_entry s pds pd v e : vm_inv s pds → pd ∈ pds → 0 ≤ v < PHYS_BASE → is_u32 e →
  pde s pd (pd_no v) ≠ 0 →
  let s' := store_word s (slot s pd v) e in
  vm_inv s' pds ∧ ∀ pd' v', pd' ∈ pds → 0 ≤ v' < PHYS_BASE →
    slot s' pd' v' = slot s pd' v' ∧
    entry s' pd' v' = if (pd' =? pd) && (v' / 4096 =? v / 4096) then e else entry s pd' v'.
Proof.
  intros Hs Hpd Hv He Hne s'.
  destruct (user_index v Hv) as (Hi & Hj & Ev).
  destruct (slot_nonzero s pds pd v) as [Hslot Hsn]; [done..|].
  destruct (vm_tables _ _ Hs pd _ Hpd Hi Hne) as (_ & Hk & Hnin).
  assert (∀ pd' i, pd' ∈ pds → 0 ≤ i < 768 → pde s' pd' i = pde s pd' i) as Hpde.
  { intros pd' i Hpd' Hi'. unfold pde, word, s'. cbn. apply rd32_wr32_ne. rewrite Hslot.
    apply slots_apart; try lia; [apply Hk|apply (vm_dirs _ _ Hs pd' Hpd')|]. left. congruence. }
  assert (∀ pd' v', pd' ∈ pds → 0 ≤ v' < PHYS_BASE → slot s' pd' v' = slot s pd' v') as Hsl.
  { intros pd' v' Hpd' Hv'. unfold slot.
    rewrite Hpde; [reflexivity|exact Hpd'|exact (proj1 (user_index v' Hv'))]. }

  split.
  - split.
    + apply wf_set_mem, Hs.
    + apply wr32_bytes, Hs.
    + apply Hs.
    + intros pd' i Hpd' Hi'. rewrite Hpde by done. by apply Hs.
    + intros pd1 i1 pd2 i2 H1 H2 Hi1 Hi2. rewrite !Hpde by done. by apply Hs.
  - intros pd' v' Hpd' Hv'. split; [by apply Hsl|]. unfold entry. rewrite Hsl by done.
    destruct (user_index v' Hv') as (Hi' & Hj' & Ev').
    destruct (Z.eqb_spec (pde s pd' (pd_no v')) 0) as [E0|E0].
    { unfold slot. rewrite (proj2 (Z.eqb_eq _ 0) E0). cbn.
      destruct (Z.eqb_spec pd' pd) as [->|]; [|done]. destruct (Z.eqb_spec (v' / 4096) (v / 4096)) as [E|]; [|done].
      rewrite Ev, Ev' in E. assert (pd_no v' = pd_no v) as Ep by lia. by rewrite Ep in E0. }
    destruct (slot_nonzero s pds pd' v') as [Hslot' Hsn']; [done..|].
    rewrite (proj2 (Z.eqb_neq _ 0) Hsn'). unfold word, s'. cbn.
    destruct (Z.eqb_spec pd' pd) as [->|Hd]; cbn [andb].
    + destruct (Z.eqb_spec (v' / 4096) (v / 4096)) as [E|E].
      * assert (pd_no v' = pd_no v ∧ pt_no v' = pt_no v) as [E1 E2] by lia.
        unfold slot. rewrite E1, E2. by apply rd32_wr32_eq.
      * apply rd32_wr32_ne. rewrite Hslot, Hslot'.
        destruct (vm_tables _ _ Hs pd _ Hpd Hi' E0) as (_ & Hk' & _).
        apply slots_apart; [apply Hk|apply Hk'|lia|lia|].
        destruct (decide (pt_no v = pt_no v')) as [Ep|]; [left|by right]. intros Ept.
        destruct (vm_inj _ _ Hs _ _ _ _ Hpd Hpd Hi Hi' Hne E0 Ept). lia.
    + apply rd32_wr32_ne. rewrite Hslot, Hslot'.
      destruct (vm_tables _ _ Hs pd' _ Hpd' Hi' E0) as (_ & Hk' & _).
      apply slots_apart; [apply Hk|apply Hk'|lia|lia|]. left. intros Ept.
      destruct (vm_inj _ _ Hs _ _ _ _ Hpd Hpd' Hi Hi' Hne E0 Ept). congruence.
Qed.

(** ** New page tables *)

Lemma rd32_memset m a b c n : b + 4 ≤ a ∨ a + n ≤ b → rd32 (memset m a c n) b = rd32 m b.
Proof.
  intros H. unfold rd32, memset.
  assert (∀ k, b ≤ k < b + 4 → (a <=? k) && (k <? a + n) = false) as E by (intros k Hk; lia).
  rewrite !E by lia. done.
Qed.

Lemma rd32_zeroed m a b n : a ≤ b → b + 4 ≤ a + n → rd32 (memset m a 0 n) b = 0.
Proof.
  intros H1 H2. unfold rd32, memset.
  assert (∀ k, b ≤ k < b + 4 → (a <=? k) && (k <? a + n) = true) as E by (intros k Hk; lia).
  rewrite !E by lia. done.
Qed.

(** The directory entry for a page table. *)
Lemma pde_create_eq pt : pt mod 4096 = 0 → PHYS_BASE < pt < 2 ^ 32 →
  pde_create pt = Ok (pt - PHYS_BASE + 7).
Proof.
  intros Ha Hr. unfold pde_create, vtop, is_kernel_vaddr. rewrite pg_ofs_mod, Ha.
  cbn [Z.eqb ASSERT mbind res_bind]. rewrite (proj2 (Z.leb_le _ _)) by lia. cbn [ASSERT mbind res_bind].
  unfold PHYS_BASE in *. rewrite u32_small by (c_unfold; lia). f_equal.
  rewrite <- !Z.lor_assoc. change (Z.lor PTE_U _) with 7. apply lor_flags; [|lia].
  Z.div_mod_to_equations. lia.
Qed.

Lemma flag_low a f k : a mod 4096 = 0 → 0 ≤ f < 4096 → 0 ≤ k < 4096 → flag (a + f) k = flag f k.
Proof.
  intros Ha Hf Hk. unfold flag. do 2 f_equal. rewrite <- lor_flags, Z.land_lor_distr_l by done.
  replace (Z.land a k) with 0; [done|]. pose proof (Z.add_lor_land a k). rewrite lor_flags in H; lia.
Qed.

Lemma pt_of_create pt f : pt mod 4096 = 0 → 0 ≤ f < 4096 → pt_of (pt - PHYS_BASE + f) = pt.
Proof. intros. unfold pt_of, PHYS_BASE. Z.div_mod_to_equations. lia. Qed.

Lemma kpage_grow s p c t a b : got_pages (pal s) p Kernel b 1 → kpage s a → kpage (Mmu p c t) a.
Proof.
  intros [_ _ _ _ _ Hu] (H1 & H2 & H3 & H4). split_and!; try done. cbn. rewrite (Hu _).
  by destruct (_ && _).
Qed.

Lemma fresh_page s p c t b : palloc_wf (pal s) → got_pages (pal s) p Kernel b 1 →
  kpage (Mmu p c t) b ∧ ∀ a, kpage s a → a ≠ b.
Proof.
  intros Hs [_ _ Ha Hr Hf Hu]. destruct (wf_pool _ Hs Kernel) as [_ _ Hrange]. split.
  - split_and!; [done|lia|lia|]. cbn. rewrite (Hu _).
    rewrite (proj2 (Z.leb_le _ _)), (proj2 (Z.ltb_lt _ _)) by lia. done.
  - intros a (_ & _ & _ & H) ->. rewrite Hf in H by lia. done.
Qed.

(** A directory entry for a fresh, zeroed page table: every address
    translates as before. *)
Section new_table.
Context (s : mmu) (pds : list Z) (pd v : Z) (p : palloc) (pt : Z).
Hypotheses (Hs : vm_inv s pds) (Hpd : pd ∈ pds) (Hv : 0 ≤ v < PHYS_BASE)
  (H0 : pde s pd (pd_no v) = 0) (Hgot : got_pages (pal s) p Kernel pt 1)
  (Hmem : mem p = memset (mem (pal s)) pt 0 4096).

Definition new_pde : Z := pt - PHYS_BASE + 7.
Definition with_table : mmu := store_word (Mmu p (cr3 s) (tlb s)) (pd + 4 * pd_no v) new_pde.

Lemma new_page : kpage with_table pt ∧ (∀ a, kpage s a → a ≠ pt ∧ kpage with_table a).
Proof using All.
  destruct (fresh_page s p (cr3 s) (tlb s) pt (vm_pal _ _ Hs) Hgot) as [Hk Hf].
  split; [exact Hk|]. intros a Ha. split; [by apply Hf|]. exact (kpage_grow s p _ _ a pt Hgot Ha).
Qed.

Lemma new_pde_ok : is_u32 new_pde ∧ pt_of new_pde = pt ∧ flag new_pde PTE_P = true ∧ new_pde ≠ 0.
Proof using All.
  destruct new_page as [(Ha & Hlo & Hhi & _) _]. unfold new_pde.
  split; [|split; [by apply pt_of_create; [|lia]|split]].
  - unfold PHYS_BASE in *. c_unfold. lia.
  - rewrite flag_low; [done| |unfold PTE_P; lia..]. unfold PHYS_BASE. Z.div_mod_to_equations. lia.
  - lia.
Qed.

(** A word of a page in use, other than the one written. *)
Lemma old_word a i : kpage s a → 0 ≤ i < 1024 → a ≠ pd ∨ i ≠ pd_no v →
  word with_table (a + 4 * i) = word s (a + 4 * i).
Proof using All.
  intros Ha Hi Hne. destruct (user_index v Hv) as (Hj & _).
  pose proof (vm_dirs _ _ Hs pd Hpd) as (Hal & _). pose proof Ha as (Hala & _).
  unfold word, with_table. cbn [store_word pal mem set_mem].
  rewrite rd32_wr32_ne by (apply slots_apart; lia). rewrite Hmem. apply rd32_memset.
  destruct new_page as [(Hpta & _) Hf]. destruct (Hf a Ha) as [Hn _].
  pose proof (Z.div_mod pt 4096). pose proof (Z.div_mod a 4096). lia.
Qed.

Lemma table_pde pd' i : pd' ∈ pds → 0 ≤ i < 768 →
  pde with_table pd' i = if (pd' =? pd) && (i =? pd_no v) then new_pde else pde s pd' i.
Proof using All.
  intros Hpd' Hi. pose proof (vm_dirs _ _ Hs pd' Hpd') as Hk.
  destruct (Z.eqb_spec pd' pd) as [->|Hd]; cbn [andb]; [|apply old_word; [done|lia|by left]].
  destruct (Z.eqb_spec i (pd_no v)) as [->|Hne]; [|apply old_word; [done|lia|by right]].
  unfold pde, word, with_table. cbn [store_word pal mem set_mem]. apply rd32_wr32_eq, new_pde_ok.
Qed.

Lemma table_inv : vm_inv with_table pds.
Proof using All.
  destruct new_page as [Hkpt Hold]. destruct new_pde_ok as (He & Hpt & HP & Hn0).
  assert (∀ pd' i, pd' ∈ pds → 0 ≤ i < 768 → pde s pd' i ≠ 0 → pt_of (pde s pd' i) ≠ pt) as Hne.
  { intros pd' i Hpd' Hi' Hne. by apply Hold, (vm_tables _ _ Hs). }
  split.
  - apply wf_set_mem, (got_wf _ _ _ _ _ Hgot).
  - intros a. apply wr32_bytes. intros k. cbn. rewrite Hmem. unfold memset.
    destruct (_ && _); [by vm_compute|apply Hs].
  - intros pd' Hpd'. by apply Hold, Hs.
  - intros pd' i Hpd' Hi. rewrite table_pde by done. destruct (_ && _).
    + intros _. rewrite Hpt. split_and!; [done..|]. intros Hin.
      by destruct (Hold pt (vm_dirs _ _ Hs pt Hin)).
    + intros Hn. destruct (vm_tables _ _ Hs pd' i Hpd' Hi Hn) as (H1 & H2 & H3). split_and!; [done| |done].
      by apply Hold.
  - intros pd1 i1 pd2 i2 H1 H2 Hi1 Hi2. rewrite !table_pde by done.
    destruct ((pd1 =? pd) && (i1 =? pd_no v)) eqn:E1, ((pd2 =? pd) && (i2 =? pd_no v)) eqn:E2.
    + intros _ _ _. lia.
    + intros _ Hn E. exfalso. by apply (Hne pd2 i2); [..|congruence].
    + intros Hn _ E. exfalso. by apply (Hne pd1 i1); [..|congruence].
    + by apply Hs.
Qed.

Lemma table_entry pd' v' : pd' ∈ pds → 0 ≤ v' < PHYS_BASE →
  entry with_table pd' v' = entry s pd' v'.
Proof using All.
  intros Hpd' Hv'. destruct (user_index v' Hv') as (Hi' & Hj' & _).
  destruct (decide (pd' = pd ∧ pd_no v' = pd_no v)) as [[-> Ei]|Hne].
  - destruct new_pde_ok as (_ & Hpt & _ & Hn). destruct (user_index v Hv) as (Hi & _).
    assert (entry s pd v' = 0) as ->.
    { unfold entry, slot. rewrite Ei. unfold pde in H0 |- *. by rewrite H0. }
    unfold entry. destruct (_ =? 0) eqn:E0; [done|]. unfold slot in *.
    rewrite Ei, (table_pde pd (pd_no v)), !Z.eqb_refl in * by done. cbn [andb] in *.
    rewrite (proj2 (Z.eqb_neq new_pde 0)), Hpt in * by done.
    unfold word, with_table. cbn [store_word pal mem set_mem].
    destruct new_page as [(Hpta & _) Hold]. destruct (Hold pd (vm_dirs _ _ Hs pd Hpd)) as [Hnpd _].
    pose proof (vm_dirs _ _ Hs pd Hpd) as (Hal & _).
    rewrite rd32_wr32_ne by (apply slots_apart; (done || lia)). rewrite Hmem. apply rd32_zeroed; lia.
  - assert (pde with_table pd' (pd_no v') = pde s pd' (pd_no v')) as Ep.
    { rewrite table_pde by done. destruct (Z.eqb_spec pd' pd), (Z.eqb_spec (pd_no v') (pd_no v)); cbn; tauto. }
    assert (slot with_table pd' v' = slot s pd' v') as Es by (unfold slot; by rewrite Ep).
    unfold entry. rewrite Es. destruct (Z.eqb_spec (pde s pd' (pd_no v')) 0) as [E0|E0].
    { unfold slot. by rewrite (proj2 (Z.eqb_eq _ _) E0). }
    destruct (slot_nonzero s pds pd' v') as [Hsl Hn]; [done..|]. rewrite (proj2 (Z.eqb_neq _ 0) Hn), Hsl.
    destruct (vm_tables _ _ Hs pd' _ Hpd' Hi' E0) as (_ & Hk & Hnin).
    apply old_word; [done|done|]. left. congruence.
Qed.
End new_table.

(** ** The operations *)

Lemma flag_testbit e n : 0 ≤ n → flag e (2 ^ n) = Z.testbit e n.
Proof.
  intros Hn. unfold flag. destruct (Z.testbit e n) eqn:E.
  - destruct (Z.eqb_spec (Z.land e (2 ^ n)) 0) as [H|]; [|done].
    apply (f_equal (λ z, Z.testbit z n)) in H.
    rewrite Z.land_spec, Z.pow2_bits_true, Z.bits_0, E in H by done. done.
  - replace (Z.land e (2 ^ n)) with 0; [done|]. apply Z.bits_inj'. intros i Hi.
    rewrite Z.bits_0, Z.land_spec. destruct (decide (i = n)) as [->|]; [by rewrite E|].
    by rewrite Z.pow2_bits_false, andb_false_r.
Qed.

(** Setting and clearing a flag: the other flags and the page stay. *)
Lemma set_flag e n : is_u32 e → 0 ≤ n < 12 →
  is_u32 (Z.lor e (2 ^ n)) ∧ pt_of (Z.lor e (2 ^ n)) = pt_of e ∧
  ∀ k, 0 ≤ k → flag (Z.lor e (2 ^ n)) (2 ^ k) = (k =? n) || flag e (2 ^ k).
Proof.
  intros He Hn. split_and!.
  - apply is_u32_lor; [done|]. pose proof (Z.pow_le_mono_r 2 n 12). pose proof (Z.pow_pos_nonneg 2 n).
    c_unfold. lia.
  - unfold pt_of. do 2 f_equal. change 4096 with (2 ^ 12). rewrite <- !Z.shiftr_div_pow2 by lia.
    apply Z.bits_inj'. intros i Hi. rewrite !Z.shiftr_spec, Z.lor_spec, Z.pow2_bits_false by lia.
    apply orb_false_r.
  - intros k Hk. rewrite !flag_testbit, Z.lor_spec, Z.pow2_bits_eqb by lia.
    rewrite orb_comm. by rewrite Z.eqb_sym.
Qed.

Lemma clear_flag e n : is_u32 e → 0 ≤ n < 12 →
  is_u32 (Z.land e (not32 (2 ^ n))) ∧ pt_of (Z.land e (not32 (2 ^ n))) = pt_of e ∧
  ∀ k, 0 ≤ k → flag (Z.land e (not32 (2 ^ n))) (2 ^ k) = negb (k =? n) && flag e (2 ^ k).
Proof.
  intros He Hn.
  assert (∀ i, 0 ≤ i → Z.testbit (Z.land e (not32 (2 ^ n))) i = Z.testbit e i && negb (i =? n)) as Hb.
  { intros i Hi. rewrite Z.land_spec. unfold not32. destruct (Z.lt_ge_cases i 32).
    - unfold u32. rewrite wrap_bits, Z.lnot_spec, Z.pow2_bits_eqb by lia. by rewrite Z.eqb_sym.
    - rewrite (high_bits 32 e) by done. done. }
  split_and!.
  - apply is_u32_land; [done|apply u32_range].
  - unfold pt_of. do 2 f_equal. change 4096 with (2 ^ 12). rewrite <- !Z.shiftr_div_pow2 by lia.
    apply Z.bits_inj'. intros i Hi. rewrite !Z.shiftr_spec, Hb by lia.
    rewrite (proj2 (Z.eqb_neq _ _)) by lia. apply andb_true_r.
  - intros k Hk. rewrite !flag_testbit, Hb by lia. apply andb_comm.
Qed.

Lemma entry_u32 s pds pd v : vm_inv s pds → is_u32 (entry s pd v).
Proof.
  intros Hs. unfold entry. destruct (_ =? 0); [by vm_compute|]. apply rd32_range, Hs.
Qed.

(** What an address translates to: a kernel page and whether it may be
    written. *)
Definition xlate (e : Z) : option (Z * bool) :=
  if flag e PTE_P then Some (pt_of e, flag e PTE_W) else None.

(** The entry of the page of [v] in [pd] becomes [e]; nothing else does. *)
Definition updates (s s' : mmu) (pds : list Z) (pd v e : Z) : Prop :=
  vm_inv s' pds ∧ ∀ pd' v', pd' ∈ pds → 0 ≤ v' < PHYS_BASE →
    entry s' pd' v' = if (pd' =? pd) && (v' / 4096 =? v / 4096) then e else entry s pd' v'.

Lemma updates_same s s' pds pd v e :
  (∀ pd' v', pd' ∈ pds → 0 ≤ v' < PHYS_BASE → entry s' pd' v' = entry s pd' v') →
  ∀ s2, updates s' s2 pds pd v e → updates s s2 pds pd v e.
Proof. intros He s2 [Hi Hu]. split; [done|]. intros pd' v' H1 H2. by rewrite Hu, He. Qed.

Lemma pde_of_entry s pds pd v : vm_inv s pds → pd ∈ pds → 0 ≤ v < PHYS_BASE →
  (slot s pd v =? 0) = (pde s pd (pd_no v) =? 0) ∧ (pde s pd (pd_no v) = 0 → entry s pd v = 0).
Proof.
  intros Hs Hpd Hv. destruct (Z.eqb_spec (pde s pd (pd_no v)) 0) as [E|E].
  - unfold entry, slot. rewrite (proj2 (Z.eqb_eq _ _) E). done.
  - destruct (slot_nonzero s pds pd v) as [_ Hn]; [done..|]. split; [by apply Z.eqb_neq|done].
Qed.

(** The page table entry for a kernel page. *)
Definition user_pte (kpage : Z) (writable : bool) : Z :=
  kpage - PHYS_BASE + (if writable then 7 else 5).

Lemma pte_create_user_eq k w : k mod 4096 = 0 → PHYS_BASE ≤ k < 2 ^ 32 →
  pte_create_user k w = Ok (user_pte k w) ∧ is_u32 (user_pte k w) ∧
  xlate (user_pte k w) = Some (k, w) ∧ flag (user_pte k w) PTE_U = true.
Proof.
  intros Ha Hr. unfold pte_create_user, pte_create_kernel, vtop, is_kernel_vaddr, user_pte.
  assert ((k - PHYS_BASE) mod 4096 = 0) as Hm by (unfold PHYS_BASE in *; Z.div_mod_to_equations; lia).
  rewrite pg_ofs_mod, Ha. cbn [Z.eqb ASSERT mbind res_bind].
  rewrite (proj2 (Z.leb_le _ _)) by lia. cbn [ASSERT mbind res_bind].
  rewrite u32_small by (unfold PHYS_BASE in *; c_unfold; lia). split_and!.
  - f_equal. rewrite <- !Z.lor_assoc. destruct w; (rewrite lor_flags; [done|done|vm_compute; done]).
  - unfold PHYS_BASE in *. c_unfold. destruct w; lia.
  - unfold xlate. rewrite !flag_low, pt_of_create by (done || (unfold PTE_P, PTE_W; destruct w; lia)).
    by destruct w.
  - rewrite flag_low by (done || (unfold PTE_U; destruct w; lia)). by destruct w.
Qed.

Lemma user_pte_typed ram k w : k mod 4096 = 0 → PHYS_BASE ≤ k < 2 ^ 32 → (k - PHYS_BASE) / 4096 < ram →
  PHYS_BASE ≤ pt_of (user_pte k w) < PHYS_BASE + 4096 * ram ∧ flag (user_pte k w) PTE_U = true.
Proof.
  intros Ha Hk Hr. destruct (pte_create_user_eq k w Ha Hk) as (_ & _ & Hx & HU). split; [|done].
  unfold xlate in Hx. destruct (flag _ PTE_P); [|done]. injection Hx as -> _.
  unfold PHYS_BASE in *. pose proof (Z.div_mod (k - 3221225472) 4096 ltac:(lia)).
  pose proof (Z.mod_pos_bound (k - 3221225472) 4096 ltac:(lia)). lia.
Qed.

Lemma lookup_true s pds pd v : vm_inv s pds → pd ∈ pds → 0 ≤ v < PHYS_BASE →
  (lookup_page s pd v true = Ok (s, 0) ∧ out_of_pages (pal s) Kernel 1 ∧ pde s pd (pd_no v) = 0) ∨
  ∃ s', lookup_page s pd v true = Ok (s', slot s' pd v) ∧ vm_inv s' pds ∧ pde s' pd (pd_no v) ≠ 0 ∧
    cr3 s' = cr3 s ∧ tlb s' = tlb s ∧
    ∀ pd' v', pd' ∈ pds → 0 ≤ v' < PHYS_BASE → entry s' pd' v' = entry s pd' v'.
Proof.
  intros Hs Hpd Hv. destruct (vm_dirs _ _ Hs pd Hpd) as (_ & Hlo & _). unfold PHYS_BASE in Hlo.
  destruct (user_index v Hv) as (Hi & Hj & _).
  unfold lookup_page. rewrite (proj2 (Z.eqb_neq pd 0)) by lia. unfold is_user_vaddr.
  rewrite (proj2 (Z.ltb_lt v PHYS_BASE)) by lia. cbn [negb ASSERT mbind res_bind orb].
  fold (pde s pd (pd_no v)). destruct (Z.eqb_spec (pde s pd (pd_no v)) 0) as [E|E].
  - unfold palloc_get_page.
    destruct (palloc_get_spec (pal s) PAL_ZERO 1 (vm_pal _ _ Hs)) as [[Ho ->]|(p & pt & -> & Hpt & Hgot & Hmem)];
      [lia|left; by destruct s|right].
    change (flag PAL_ZERO PAL_ZERO) with true in Hmem. cbn in Hmem. change (pool_of PAL_ZERO) with Kernel in Hgot.
    cbn [mbind res_bind]. rewrite (proj2 (Z.eqb_neq pt 0)) by done.
    destruct (new_page s pds pd v p pt) as [(Hpa & Hplo & Hphi & _) _]; [done..|].
    rewrite pde_create_eq by (done || lia). cbn [mbind res_bind].
    change (store_word _ _ _) with (with_table s pd v p pt).
    fold (pde (with_table s pd v p pt) pd (pd_no v)).
    pose proof (table_inv s pds pd v p pt Hs Hpd Hv E Hgot Hmem) as Hinv.
    assert (pde (with_table s pd v p pt) pd (pd_no v) ≠ 0) as Hn.
    { rewrite (table_pde s pds pd v p pt), !Z.eqb_refl by done. by apply (new_pde_ok s pds pd v p pt). }
    rewrite (pde_get_pt_ok _ pds) by done. cbn [mbind res_bind].
    destruct (slot_nonzero _ pds pd v Hinv Hpd Hv Hn) as [Hsl _].
    eexists. split; [by rewrite <- Hsl|]. split_and!; try done. intros pd' v' H1 H2. by apply (table_entry s pds).
  - right. exists s. rewrite (pde_get_pt_ok s pds) by done. cbn [mbind res_bind].
    destruct (slot_nonzero s pds pd v) as [<- _]; [done..|]. done.
Qed.

Lemma set_page_spec ipd ram s pds pd u k w : vm_inv s pds → pd ∈ pds → pd ≠ ipd →
  0 ≤ u < PHYS_BASE → u mod 4096 = 0 →
  k mod 4096 = 0 → PHYS_BASE ≤ k < 2 ^ 32 → (k - PHYS_BASE) / 4096 < ram →
  match xlate (entry s pd u) with
  | Some _ => pagedir_set_page ipd ram s pd u k w = Err EAssert
  | None =>
      (pagedir_set_page ipd ram s pd u k w = Ok (s, false) ∧ out_of_pages (pal s) Kernel 1) ∨
      ∃ s', pagedir_set_page ipd ram s pd u k w = Ok (s', true) ∧
        updates s s' pds pd u (user_pte k w) ∧ cr3 s' = cr3 s ∧ tlb s' = tlb s
  end.
Proof.
  intros Hs Hpd Hipd Hu Hua Hka Hk Hram. unfold pagedir_set_page.
  rewrite !pg_ofs_mod, Hua, Hka. unfold is_user_vaddr. rewrite (proj2 (Z.ltb_lt u _)) by lia.
  cbn [Z.eqb ASSERT mbind res_bind]. unfold vtop, is_kernel_vaddr.
  rewrite (proj2 (Z.leb_le _ _)) by lia. cbn [ASSERT mbind res_bind].
  rewrite u32_small by (unfold PHYS_BASE in *; c_unfold; lia).
  change PTSHIFT with 12. rewrite Z.shiftr_div_pow2 by lia. change (2 ^ 12) with 4096.
  rewrite (proj2 (Z.ltb_lt _ ram)), (proj2 (Z.eqb_neq pd ipd)) by done. cbn [ASSERT negb mbind res_bind].
  destruct (pte_create_user_eq k w Hka Hk) as (Hpte & Hpu & _).
  destruct (lookup_true s pds pd u Hs Hpd Hu) as [(-> & Ho & E)|(s1 & -> & Hs1 & Hn1 & Hc & Ht & He)];
    cbn [mbind res_bind].
  { destruct (pde_of_entry s pds pd u) as [_ E0]; [done..|]. rewrite (E0 E). cbn. by left. }
  destruct (slot_nonzero s1 pds pd u) as [_ Hsn]; [done..|].
  rewrite (proj2 (Z.eqb_neq _ 0) Hsn). cbn [negb].
  assert (word s1 (slot s1 pd u) = entry s pd u) as Ew.
  { rewrite <- He by done. unfold entry. by rewrite (proj2 (Z.eqb_neq _ 0) Hsn). }
  rewrite Ew. unfold xlate, flag. destruct (Z.land (entry s pd u) PTE_P =? 0); cbn [negb ASSERT mbind res_bind]; [|done].
  rewrite Hpte. cbn [mbind res_bind]. right. eexists. split; [done|].
  destruct (store_entry s1 pds pd u (user_pte k w)) as [Hinv Hent]; [done..|].
  split; [|split; [exact Hc|exact Ht]]. apply (updates_same s s1); [done|]. split; [done|].
  intros pd' v' H1 H2. by apply Hent.
Qed.

Lemma get_page_spec s pds pd u : vm_inv s pds → pd ∈ pds → 0 ≤ u < PHYS_BASE →
  (flag (entry s pd u) PTE_P = true → pt_of (entry s pd u) < 2 ^ 32) →
  pagedir_get_page s pd u = Ok (match xlate (entry s pd u) with
                                | Some (k, _) => k + u mod 4096
                                | None => 0
                                end).
Proof.
  intros Hs Hpd Hu Hpt. unfold pagedir_get_page, is_user_vaddr.
  rewrite (proj2 (Z.ltb_lt u _)) by lia. cbn [ASSERT mbind res_bind].
  rewrite (lookup_false s pds) by done. cbn [mbind res_bind].
  pose proof (entry_u32 s pds pd u Hs) as He. unfold xlate, entry in *.
  destruct (slot s pd u =? 0) eqn:E0; [done|]. cbn [negb andb].
  destruct (flag (word s (slot s pd u)) PTE_P); [|done]. specialize (Hpt eq_refl).
  unfold pte_get_page. rewrite land_addr by done. unfold ptov, pt_of in *.
  set (a := word s (slot s pd u) / 4096 * 4096) in *.
  assert (0 ≤ a ∧ a mod 4096 = 0) as [Ha Hm].
  { unfold a. split; [|apply Z.mod_mul; lia]. apply Z.mul_nonneg_nonneg; [apply Z.div_pos; [apply He|]|]; lia. }
  unfold PHYS_BASE in *. rewrite (proj2 (Z.ltb_lt a _)) by lia. cbn [ASSERT mbind res_bind].
  rewrite pg_ofs_mod, (u32_small (a + _)) by (c_unfold; lia).
  pose proof (Z.mod_pos_bound u 4096 ltac:(lia)).
  pose proof (Z.div_mod a 4096 ltac:(lia)). rewrite u32_small; [done|]. unfold is_u32. lia.
Qed.

(** The tables are in the memory of the allocator. *)
Lemma entry_pal s s' pd v : pal s' = pal s → entry s' pd v = entry s pd v.
Proof. intros E. unfold entry, slot, pde, word. by rewrite E. Qed.

Lemma vm_inv_pal s s' pds : pal s' = pal s → vm_inv s pds → vm_inv s' pds.
Proof.
  intros E [H1 H2 H3 H4 H5]. unfold kpage, pde, word in *. rewrite <- E in *.
  split; unfold kpage, pde, word; assumption.
Qed.

(** Writing an entry and throwing the translations of the directory away. *)
Lemma invalidate_spec ipd s pds pd : vm_inv s pds → pd ∈ pds → 0 ≤ cr3 s < PHYS_BASE →
  cr3 s + PHYS_BASE < 2 ^ 32 →
  ∃ s', invalidate_pagedir ipd s pd = Ok s' ∧ pal s' = pal s ∧ cr3 s' = cr3 s ∧
    tlb s' = (if cr3 s + PHYS_BASE =? pd then [] else tlb s).
Proof.
  intros Hs Hpd Hc Hc2. destruct (vm_dirs _ _ Hs pd Hpd) as (_ & Hlo & _).
  unfold invalidate_pagedir, active_pd, ptov. rewrite (proj2 (Z.ltb_lt _ _)) by lia.
  cbn [ASSERT mbind res_bind]. unfold PHYS_BASE in *. rewrite u32_small by (c_unfold; lia).
  destruct (Z.eqb_spec (cr3 s + 3221225472) pd) as [E|E]; [|by exists s].
  unfold pagedir_activate. rewrite (proj2 (Z.eqb_neq pd 0)) by lia. unfold vtop, is_kernel_vaddr.
  unfold PHYS_BASE. rewrite (proj2 (Z.leb_le _ _)) by lia. cbn [ASSERT mbind res_bind].
  eexists. split; [done|]. split_and!; try done. cbn. rewrite u32_small by (c_unfold; lia). lia.
Qed.

(** The shape of the operations that change a flag of an existing entry. *)
Lemma update_entry ipd s pds pd u e : vm_inv s pds → pd ∈ pds → 0 ≤ u < PHYS_BASE →
  0 ≤ cr3 s < PHYS_BASE → cr3 s + PHYS_BASE < 2 ^ 32 → is_u32 e → slot s pd u ≠ 0 →
  ∃ s', invalidate_pagedir ipd (store_word s (slot s pd u) e) pd = Ok s' ∧
    updates s s' pds pd u e ∧ cr3 s' = cr3 s ∧
    tlb s' = (if cr3 s + PHYS_BASE =? pd then [] else tlb s).
Proof.
  intros Hs Hpd Hu Hc Hc2 He Hn. destruct (pde_of_entry s pds pd u Hs Hpd Hu) as [Hpde _].
  destruct (store_entry s pds pd u e) as [Hinv Hent]; [done..| |].
  { intros E. rewrite E in Hpde. lia. }
  destruct (invalidate_spec ipd (store_word s (slot s pd u) e) pds pd) as (s' & -> & Hp & Hcr & Ht); [done..|].
  exists s'. split; [done|]. split; [|split; [done|done]].
  split; [by apply (vm_inv_pal _ _ _ Hp)|]. intros pd' v' H1 H2. rewrite (entry_pal _ _ _ _ Hp).
  by apply Hent.
Qed.

(** The three operations that change a flag of an existing entry. *)
Lemma clear_page_spec ipd s pds pd u : vm_inv s pds → pd ∈ pds → 0 ≤ u < PHYS_BASE →
  u mod 4096 = 0 → 0 ≤ cr3 s < PHYS_BASE → cr3 s + PHYS_BASE < 2 ^ 32 →
  if flag (entry s pd u) PTE_P then
    ∃ s', pagedir_clear_page ipd s pd u = Ok s' ∧
      updates s s' pds pd u (Z.land (entry s pd u) (not32 PTE_P)) ∧ cr3 s' = cr3 s ∧
      tlb s' = (if cr3 s + PHYS_BASE =? pd then [] else tlb s)
  else pagedir_clear_page ipd s pd u = Ok s.
Proof.
  intros Hs Hpd Hu Hua Hc Hc2. unfold pagedir_clear_page, is_user_vaddr.
  rewrite pg_ofs_mod, Hua, (proj2 (Z.ltb_lt u _)) by lia. cbn [Z.eqb ASSERT mbind res_bind].
  rewrite (lookup_false s pds) by done. cbn [mbind res_bind].
  pose proof (entry_u32 s pds pd u Hs) as He. unfold entry in *.
  destruct (Z.eqb_spec (slot s pd u) 0) as [E0|E0]; [done|]. cbn [negb andb].
  destruct (flag (word s (slot s pd u)) PTE_P); [|done].
  apply update_entry; try done. apply is_u32_land; [done|apply u32_range].
Qed.

Lemma set_flag_spec ipd s pds pd u f (on : bool) : vm_inv s pds → pd ∈ pds → 0 ≤ u < PHYS_BASE →
  0 ≤ cr3 s < PHYS_BASE → cr3 s + PHYS_BASE < 2 ^ 32 → is_u32 f →
  let e := if on then Z.lor (entry s pd u) f else Z.land (entry s pd u) (not32 f) in
  ∃ s', ('(s, pte) ← lookup_page s pd u false;
         if negb (pte =? 0) then
           if on then Ok (store_word s pte (Z.lor (word s pte) f))
           else invalidate_pagedir ipd (store_word s pte (Z.land (word s pte) (not32 f))) pd
         else Ok s) = Ok s' ∧
    (slot s pd u = 0 ∧ s' = s ∨ updates s s' pds pd u e) ∧ cr3 s' = cr3 s ∧
    tlb s' = (if negb (slot s pd u =? 0) && negb on && (cr3 s + PHYS_BASE =? pd) then [] else tlb s).
Proof.
  intros Hs Hpd Hu Hc Hc2 Hf e. rewrite (lookup_false s pds) by done. cbn [mbind res_bind].
  pose proof (entry_u32 s pds pd u Hs) as He. destruct (pde_of_entry s pds pd u Hs Hpd Hu) as [Hpde _].
  unfold e. clear e. unfold entry in *. destruct (Z.eqb_spec (slot s pd u) 0) as [E0|E0]; cbn [negb andb].
  { exists s. rewrite E0. auto. }
  destruct on; cbn [negb andb].
  - eexists. split; [done|]. split; [right|done]. destruct (store_entry s pds pd u (Z.lor (word s (slot s pd u)) f))
      as [Hinv Hent]; [done..|by apply is_u32_lor|intros E; rewrite E in Hpde; lia|].
    split; [done|]. intros pd' v' H1 H2. by apply Hent.
  - destruct (update_entry ipd s pds pd u (Z.land (word s (slot s pd u)) (not32 f)))
      as (s' & Hok & Hup & Hcr & Ht); try done; [apply is_u32_land; [done|apply u32_range]|].
    exists s'. auto.
Qed.

(** ** Invariants of the running system *)

(** Every present entry maps a page of memory, for the user, and the
    directory in the base register is one of [pds]. *)
Record typed (ram : Z) (s : mmu) (pds : list Z) : Prop := {
  ty_inv : vm_inv s pds;
  ty_entry pd v : pd ∈ pds → 0 ≤ v < PHYS_BASE → flag (entry s pd v) PTE_P = true →
    PHYS_BASE ≤ pt_of (entry s pd v) < PHYS_BASE + 4096 * ram ∧ flag (entry s pd v) PTE_U = true;
  ty_cr3 : 0 ≤ cr3 s ∧ cr3 s + PHYS_BASE ∈ pds;
}.

(** The processor's translations are those of the active directory. *)
Definition coherent (s : mmu) : Prop :=
  ∀ v e, (v, e) ∈ tlb s → 0 ≤ v < PHYS_BASE ∧
    xlate e = xlate (entry s (cr3 s + PHYS_BASE) v) ∧ xlate e ≠ None.

Lemma typed_cr3 ram s pds : typed ram s pds → 0 ≤ cr3 s < PHYS_BASE ∧ cr3 s + PHYS_BASE < 2 ^ 32.
Proof.
  intros [Hs _ [Hc Hin]]. destruct (vm_dirs _ _ Hs _ Hin) as (_ & ? & ? & _). unfold PHYS_BASE in *. lia.
Qed.

(** An update whose new entry is well typed keeps the tables well typed. *)
Lemma typed_update ram s s' pds pd u e : typed ram s pds → updates s s' pds pd u e →
  cr3 s' + PHYS_BASE ∈ pds → 0 ≤ cr3 s' →
  (flag e PTE_P = true → PHYS_BASE ≤ pt_of e < PHYS_BASE + 4096 * ram ∧ flag e PTE_U = true) →
  typed ram s' pds.
Proof.
  intros [Hs Hty Hc] [Hinv Hent] Hin Hge He. split; [done| |done].
  intros pd' v' H1 H2. rewrite Hent by done. destruct (_ && _); [done|]. by apply Hty.
Qed.

Lemma entry_page s pd v u : 0 ≤ v < PHYS_BASE → 0 ≤ u < PHYS_BASE → v / 4096 = u / 4096 →
  entry s pd v = entry s pd u.
Proof.
  intros Hv Hu E. destruct (user_index v Hv) as (_ & ? & E1). destruct (user_index u Hu) as (_ & ? & E2).
  assert (pd_no v = pd_no u ∧ pt_no v = pt_no u) as [Ep Et] by lia.
  unfold entry, slot. by rewrite Ep, Et.
Qed.

(** It keeps the translations coherent if it keeps the translation of the
    page, if no translation of it is kept, or if the directory is not the
    active one. *)
Lemma coherent_update s s' pds pd u e : coherent s → updates s s' pds pd u e → cr3 s' = cr3 s →
  cr3 s + PHYS_BASE ∈ pds → 0 ≤ u < PHYS_BASE →
  tlb s' = [] ∨ tlb s' = tlb s ∧
    (xlate e = xlate (entry s pd u) ∨ xlate (entry s pd u) = None ∨ cr3 s + PHYS_BASE ≠ pd) →
  coherent s'.
Proof.
  intros Hco [Hinv Hent] Hc Hin Hu Ht v e' Hv. destruct Ht as [Ht|[Ht Hcase]]; rewrite Ht in Hv; [by elems|].
  destruct (Hco v e' Hv) as (Hr & Hx & Hn). split; [done|]. split; [|done].
  rewrite Hc, Hent by done.
  destruct (Z.eqb_spec (cr3 s + PHYS_BASE) pd) as [Ep|]; cbn [andb]; [|done].
  destruct (Z.eqb_spec (v / 4096) (u / 4096)) as [Ev|]; [|done].
  rewrite Ep, (entry_page s pd v u) in Hx by done.
  destruct Hcase as [E|[E|]]; [congruence| |done]. congruence.
Qed.

(** ** Steps of the system

    A step is a call of an operation on one of the directories [pds], or one
    of the processor: it caches the translation of a present entry of the
    active directory, or marks the entry of a cached page accessed or dirty
    on an access. *)
Section system.
Variables init_page_dir init_ram_pages : Z.
Variable pds : list Z.

Inductive vm_step : mmu → mmu → Prop :=
  | step_set s s' pd u k w b :
      pd ∈ pds → 0 ≤ u < PHYS_BASE → PHYS_BASE ≤ k < 2 ^ 32 →
      pagedir_set_page init_page_dir init_ram_pages s pd u k w = Ok (s', b) → vm_step s s'
  | step_clear s s' pd u :
      pd ∈ pds → 0 ≤ u < PHYS_BASE → pagedir_clear_page init_page_dir s pd u = Ok s' → vm_step s s'
  | step_dirty s s' pd u b :
      pd ∈ pds → 0 ≤ u < PHYS_BASE → pagedir_set_dirty init_page_dir s pd u b = Ok s' → vm_step s s'
  | step_accessed s s' pd u b :
      pd ∈ pds → 0 ≤ u < PHYS_BASE → pagedir_set_accessed init_page_dir s pd u b = Ok s' → vm_step s s'
  | step_activate s s' pd :
      pd ∈ pds → pagedir_activate init_page_dir s pd = Ok s' → vm_step s s'
  | step_fill s u :
      0 ≤ u < PHYS_BASE → flag (entry s (cr3 s + PHYS_BASE) u) PTE_P = true →
      vm_step s (Mmu (pal s) (cr3 s) ((u, entry s (cr3 s + PHYS_BASE) u) :: tlb s))
  | step_touch s u f :
      0 ≤ u < PHYS_BASE → f = PTE_A ∨ f = PTE_D → flag (entry s (cr3 s + PHYS_BASE) u) PTE_P = true →
      vm_step s (store_word s (slot s (cr3 s + PHYS_BASE) u)
                   (Z.lor (entry s (cr3 s + PHYS_BASE) u) f)).

Definition safe (s : mmu) : Prop := typed init_ram_pages s pds ∧ coherent s.

(** A change of the accessed or the dirty flag. *)
Lemma flag_update s s' pd u n (on : bool) : safe s → pd ∈ pds → 0 ≤ u < PHYS_BASE → 3 ≤ n < 12 →
  updates s s' pds pd u (if on then Z.lor (entry s pd u) (2 ^ n)
                         else Z.land (entry s pd u) (not32 (2 ^ n))) →
  cr3 s' = cr3 s → tlb s' = [] ∨ tlb s' = tlb s → safe s'.
Proof using Type.
  intros [Hty Hco] Hpd Hu Hn Hup Hc Ht. destruct (ty_cr3 _ _ _ Hty) as [Hc0 Hin].
  pose proof (entry_u32 s pds pd u (ty_inv _ _ _ Hty)) as He. pose proof (ty_entry _ _ _ Hty pd u Hpd Hu) as Hte.
  set (e := if on then _ else _) in Hup.
  assert (pt_of e = pt_of (entry s pd u) ∧ ∀ k, 0 ≤ k < 3 → flag e (2 ^ k) = flag (entry s pd u) (2 ^ k))
    as [Hpt Hfl].
  { unfold e. destruct on.
    - destruct (set_flag _ n He ltac:(lia)) as (_ & -> & Hf). split; [done|]. intros k Hk.
      rewrite Hf, (proj2 (Z.eqb_neq k n)) by lia. done.
    - destruct (clear_flag _ n He ltac:(lia)) as (_ & -> & Hf). split; [done|]. intros k Hk.
      rewrite Hf, (proj2 (Z.eqb_neq k n)) by lia. done. }
  pose proof (Hfl 0 ltac:(lia)) as HP. pose proof (Hfl 1 ltac:(lia)) as HW. pose proof (Hfl 2 ltac:(lia)) as HU.
  change (2 ^ 0) with PTE_P in HP. change (2 ^ 1) with PTE_W in HW. change (2 ^ 2) with PTE_U in HU.
  split.
  - apply (typed_update _ s s' pds pd u e); rewrite ?Hc, ?Hpt, ?HP, ?HU; done.
  - apply (coherent_update s s' pds pd u e); try done. destruct Ht as [|Ht]; [by left|right].
    split; [done|]. left. unfold xlate. by rewrite HP, HW, Hpt.
Qed.

Lemma set_step_safe s s' pd u k w b : safe s → pd ∈ pds → 0 ≤ u < PHYS_BASE → PHYS_BASE ≤ k < 2 ^ 32 →
  pagedir_set_page init_page_dir init_ram_pages s pd u k w = Ok (s', b) → safe s'.
Proof using Type.
  intros [Hty Hco] Hpd Hu Hk Hok.
  assert (u mod 4096 = 0 ∧ k mod 4096 = 0 ∧ (k - PHYS_BASE) / 4096 < init_ram_pages ∧ pd ≠ init_page_dir)
    as (Hua & Hka & Hram & Hne).
  { revert Hok. unfold pagedir_set_page, vtop. rewrite !pg_ofs_mod. change PTSHIFT with 12. intros Hok. inv_res.
    rewrite u32_small, Z.shiftr_div_pow2 in * by (unfold PHYS_BASE in *; c_unfold; lia).
    change (2 ^ 12) with 4096 in *. split_and!; [lia..|]. intros ->. by rewrite Z.eqb_refl in *. }
  pose proof (set_page_spec init_page_dir init_ram_pages s pds pd u k w (ty_inv _ _ _ Hty) Hpd Hne Hu Hua Hka Hk Hram)
    as Hspec. destruct (ty_cr3 _ _ _ Hty) as [Hc0 Hin].
  destruct (xlate (entry s pd u)) eqn:Hnone; [congruence|].
  destruct Hspec as [[Hs _]|(s2 & Hs & Hup & Hc & Ht)]; rewrite Hs in Hok; injection Hok as <- <-; [by split|].
  split.
  - apply (typed_update _ s s2 pds pd u (user_pte k w)); rewrite ?Hc; try done. intros _.
    by apply user_pte_typed.
  - apply (coherent_update s s2 pds pd u (user_pte k w)); try done. right. split; [done|]. auto.
Qed.

Lemma clear_step_safe s s' pd u : safe s → pd ∈ pds → 0 ≤ u < PHYS_BASE →
  pagedir_clear_page init_page_dir s pd u = Ok s' → safe s'.
Proof using Type.
  intros [Hty Hco] Hpd Hu Hok. destruct (typed_cr3 _ _ _ Hty) as [Hc1 Hc2].
  destruct (ty_cr3 _ _ _ Hty) as [Hc0 Hin].
  assert (u mod 4096 = 0) as Hua.
  { revert Hok. unfold pagedir_clear_page. rewrite pg_ofs_mod. intros Hok. inv_res. lia. }
  pose proof (clear_page_spec init_page_dir s pds pd u (ty_inv _ _ _ Hty) Hpd Hu Hua Hc1 Hc2) as Hspec.
  destruct (flag (entry s pd u) PTE_P) eqn:HP; [|rewrite Hspec in Hok; by injection Hok as <-].
  destruct Hspec as (s2 & Hs & Hup & Hc & Ht). rewrite Hs in Hok. injection Hok as <-.
  pose proof (entry_u32 s pds pd u (ty_inv _ _ _ Hty)) as He.
  destruct (clear_flag (entry s pd u) 0 He ltac:(lia)) as (_ & _ & Hf).
  change (not32 (2 ^ 0)) with (not32 PTE_P) in Hf. specialize (Hf 0 ltac:(lia)). change (2 ^ 0) with PTE_P in Hf.
  split.
  - eapply (typed_update _ s s2 pds pd u); rewrite ?Hc; try done. by rewrite Hf.
  - eapply (coherent_update s s2 pds pd u); try done. rewrite Ht.
    destruct (Z.eqb_spec (cr3 s + PHYS_BASE) pd); [by left|right]. auto.
Qed.

(** The operation on one of the flags keeps the system safe. *)
Lemma flag_step_safe s s' pd u n (on : bool) : safe s → pd ∈ pds → 0 ≤ u < PHYS_BASE → 3 ≤ n < 12 →
  ('(s, pte) ← lookup_page s pd u false;
   if negb (pte =? 0) then
     if on then Ok (store_word s pte (Z.lor (word s pte) (2 ^ n)))
     else invalidate_pagedir init_page_dir (store_word s pte (Z.land (word s pte) (not32 (2 ^ n)))) pd
   else Ok s) = Ok s' → safe s'.
Proof using Type.
  intros [Hty Hco] Hpd Hu Hn Hok. destruct (typed_cr3 _ _ _ Hty) as [Hc1 Hc2].
  destruct (set_flag_spec init_page_dir s pds pd u (2 ^ n) on (ty_inv _ _ _ Hty) Hpd Hu Hc1 Hc2)
    as (s2 & Hs & Hup & Hc & Ht).
  { pose proof (Z.pow_le_mono_r 2 n 12). pose proof (Z.pow_pos_nonneg 2 n). c_unfold. lia. }
  rewrite Hs in Hok. injection Hok as <-. destruct Hup as [[_ ->]|Hup]; [by split|].
  apply (flag_update s s2 pd u n on); try done. rewrite Ht. destruct (_ && _); auto.
Qed.

Lemma step_safe s s' : safe s → vm_step s s' → safe s'.
Proof using Type.
  intros Hs Hstep. pose proof Hs as [Hty Hco]. destruct (ty_cr3 _ _ _ Hty) as [Hc0 Hin].
  destruct Hstep as [? ? pd u k w b|? ? pd u|? ? pd u b|? ? pd u b|? s' pd|s u Hu HP|s u f Hu Hf HP].
  - apply (set_step_safe s s' pd u k w b); assumption.
  - apply (clear_step_safe s s' pd u); assumption.
  - apply (flag_step_safe s s' pd u 6 b); [assumption..|done|assumption].
  - apply (flag_step_safe s s' pd u 5 b); [assumption..|done|assumption].
  - destruct (vm_dirs _ _ (ty_inv _ _ _ Hty) pd) as (_ & Hlo & Hhi & _); [done|]. revert H0.
    unfold pagedir_activate. unfold PHYS_BASE in Hlo. rewrite (proj2 (Z.eqb_neq pd 0)) by lia. unfold vtop.
    intros Hok. inv_res. rewrite u32_small by (unfold PHYS_BASE; c_unfold; lia). split.
    + split.
      * apply (vm_inv_pal s); [done|apply Hty].
      * intros pd' v'. rewrite (entry_pal s) by done. apply Hty.
      * cbn. unfold PHYS_BASE. split; [lia|]. by replace (pd - 3221225472 + 3221225472) with pd by lia.
    + intros v e Hv. cbn in Hv. elems.
  - split.
    + split; [apply (vm_inv_pal s); [done|apply Hty]| |done]. intros pd' v'. rewrite (entry_pal s) by done. apply Hty.
    + intros v e Hv. cbn in Hv |- *. rewrite (entry_pal s) by done. elems_step; [|by apply Hco].
      simplify_eq. split_and!; [lia..|done|]. unfold xlate. by rewrite HP.
  - destruct (pde_of_entry s pds (cr3 s + PHYS_BASE) u) as [Hpde H0]; [apply Hty|done|done|].
    assert (pde s (cr3 s + PHYS_BASE) (pd_no u) ≠ 0) as Hn by (intros E; by rewrite (H0 E) in HP).
    pose proof (entry_u32 s pds (cr3 s + PHYS_BASE) u (ty_inv _ _ _ Hty)) as He.
    assert (∃ n, f = 2 ^ n ∧ 3 ≤ n < 12) as (n & -> & Hn12) by (destruct Hf as [->| ->]; [exists 5|exists 6]; done).
    destruct (store_entry s pds (cr3 s + PHYS_BASE) u (Z.lor (entry s (cr3 s + PHYS_BASE) u) (2 ^ n)))
      as [Hinv Hent]; [apply Hty|done|done| |done|].
    { apply (set_flag _ n He). lia. }
    eapply (flag_update s _ _ u n true); try done; [|by right]. split; [done|]. intros pd' v' H1 H2. by apply Hent.
Qed.
End system.

(** ** Creation and destruction of address spaces *)

(** Words of the pages in [keep] are the same in [m] as in [s]. *)
Definition same_words (s : mmu) (m : memory) (keep : Z → Prop) : Prop :=
  ∀ a i, kpage s a → keep a → 0 ≤ i < 1024 → rd32 m (a + 4 * i) = word s (a + 4 * i).

Lemma page_in_pool p n : page_used p n = true → ∃ i, in_pool (get_pool p i) n = true.
Proof.
  unfold page_used, used. intros H. destruct (in_pool (kernel_pool p) n) eqn:E; [by exists Kernel|].
  cbn in H. exists User. cbn. by destruct (in_pool (user_pool p) n).
Qed.

Lemma free_page_spec p a : palloc_wf p → a mod 4096 = 0 → page_used p (a / 4096) = true →
  ∃ p', palloc_free_page p a = Ok p' ∧ palloc_wf p' ∧
    (∀ n, page_used p' n = page_used p n && negb (n =? a / 4096)) ∧
    mem p' = memset (mem p) a 204 4096.
Proof.
  intros Hp Ha Hu. destruct (page_in_pool p (a / 4096) Hu) as [i Hi].
  destruct (wf_pool _ Hp i) as [_ Hb _].
  destruct (palloc_free_spec p i a 1) as [[_ (k & Hk & Hf)]|(_ & p' & Hok & Hp' & _ & Hfl & Hm)].
  - done.
  - lia.
  - unfold pages_in, in_pool in *. pose proof (Z.div_mod a 4096). pose proof (Z.div_mod (base (get_pool p i)) 4096). lia.
  - replace k with (a / 4096) in Hf by lia. congruence.
  - exists p'. split_and!; [done..| |done]. intros n. rewrite (Hfl n).
    destruct (Z.eqb_spec n (a / 4096)) as [->|].
    + rewrite (proj2 (Z.leb_le _ _)), (proj2 (Z.ltb_lt _ _)) by lia. cbn. by rewrite andb_false_r.
    + replace (_ && _) with false by lia. by rewrite andb_true_r.
Qed.

Section destroy.
Context (s : mmu) (pds : list Z) (pd : Z).
Hypotheses (Hs : vm_inv s (pd :: pds)) (Hn : pd ∉ pds).

Definition table (i a : Z) : Prop := pde s pd i ≠ 0 ∧ a = pt_of (pde s pd i).

(** The state of the allocator after the first [i] directory entries. *)
Record freed (i : Z) (p : palloc) : Prop := {
  fr_wf : palloc_wf p;
  fr_bytes a : is_u8 (mem p a);
  fr_used a : a mod 4096 = 0 → page_used p (a / 4096) = true ↔
    page_used (pal s) (a / 4096) = true ∧ ∀ j, 0 ≤ j < i → ¬ table j a;
  fr_words : same_words s (mem p) (λ a, ∀ j, 0 ≤ j < i → ¬ table j a);
}.

Lemma free_keeps i p a p' (T : Z → Prop) : freed i p → a mod 4096 = 0 →
  (∀ n, page_used p' n = page_used p n && negb (n =? a / 4096)) →
  mem p' = memset (mem p) a 204 4096 → palloc_wf p' →
  (∀ b, T b ↔ b = a) →
  (∀ b, b mod 4096 = 0 → page_used p' (b / 4096) = true ↔
    page_used (pal s) (b / 4096) = true ∧ (∀ j, 0 ≤ j < i → ¬ table j b) ∧ ¬ T b) ∧
  same_words s (mem p') (λ b, (∀ j, 0 ≤ j < i → ¬ table j b) ∧ ¬ T b) ∧ ∀ b, is_u8 (mem p' b).
Proof using Type.
  clear Hs Hn. intros Hf Ha Hu Hm Hw HT. split_and!.
  - intros b Hb. rewrite Hu, andb_true_iff, (fr_used _ _ Hf b Hb), HT, negb_true_iff, Z.eqb_neq.
    pose proof (Z.div_mod a 4096). pose proof (Z.div_mod b 4096).
    split; [intros [[H1 H2] H3]|intros (H1 & H2 & H3)]; split_and!; try done; intros E; apply H3; lia.
  - intros b w Hk [Hj Hb] Hw4. rewrite Hm. rewrite HT in Hb. destruct Hk as (Hbm & Hrest).
    rewrite rd32_memset; [apply (fr_words _ _ Hf); done|].
    pose proof (Z.div_mod a 4096). pose proof (Z.div_mod b 4096). lia.
  - intros b. rewrite Hm. unfold memset. destruct (_ && _); [by vm_compute|apply Hf].
Qed.

Lemma free_tables : ∃ p, for_up 768 0 (λ i p,
    if flag (rd32 (mem p) (pd + 4 * i)) PTE_P
    then pt ← pde_get_pt (rd32 (mem p) (pd + 4 * i)); palloc_free_page p pt else Ok p) (pal s) = Ok p ∧
  freed 768 p.
Proof using Hs.
  clear Hn. assert (pd ∈ pd :: pds) as Hin by by left.
  apply (for_up_total freed) with (lo := 0).
  - intros i p Hi Hf.
    assert (rd32 (mem p) (pd + 4 * i) = pde s pd i) as ->.
    { apply (fr_words _ _ Hf); [by apply Hs| |lia]. intros j Hj [Hne E].
      destruct (vm_tables _ _ Hs pd j Hin ltac:(lia) Hne) as (_ & _ & Hnin). rewrite <- E in Hnin. by elems. }
    destruct (Z.eqb_spec (pde s pd i) 0) as [E0|E0].
    { rewrite E0. change (flag 0 PTE_P) with false. eexists. split; [done|]. destruct Hf as [F1 F2 F3 F4].
      assert (∀ a, (∀ j, 0 ≤ j < i + 1 → ¬ table j a) ↔ (∀ j, 0 ≤ j < i → ¬ table j a)) as Hiff.
      { intros a. split; intros H j Hj; [apply H; lia|]. destruct (decide (j = i)) as [->|]; [by intros []|apply H; lia]. }
      split; try done.
      - intros a Ha. by rewrite F3, Hiff.
      - intros a w Hk Ha. apply F4; [done|]. by apply Hiff. }
    destruct (vm_tables _ _ Hs pd i Hin ltac:(lia) E0) as (HP & Hk & Hnin). rewrite HP.
    rewrite (pde_get_pt_ok s (pd :: pds)) by (done || lia). cbn [mbind res_bind].
    set (a := pt_of (pde s pd i)) in *.
    assert (∀ j, 0 ≤ j < i → ¬ table j a) as Hnew.
    { intros j Hj [Hne E]. destruct (vm_inj _ _ Hs pd j pd i Hin Hin ltac:(lia) ltac:(lia) Hne E0) as [_ ->]; [done|lia]. }
    destruct (free_page_spec p a) as (p' & -> & Hp' & Hu & Hm).
    { apply Hf. } { apply Hk. } { apply (fr_used _ _ Hf); [apply Hk|]. split; [apply Hk|done]. }
    exists p'. split; [done|].
    destruct (free_keeps i p a p' (table i)) as (K1 & K2 & K3); try done; [apply Hk| |].
    { intros b. split; [by intros [_ ->]|intros ->; by split]. }
    assert (∀ b, (∀ j, 0 ≤ j < i + 1 → ¬ table j b) ↔ (∀ j, 0 ≤ j < i → ¬ table j b) ∧ ¬ table i b) as Hiff.
    { intros b. split; [intros H; split; [intros j Hj|]; apply H; lia|]. intros [H1 H2] j Hj.
      destruct (decide (j = i)) as [->|]; [done|apply H1; lia]. }
    split; try done.
    + intros b Hb. by rewrite K1, Hiff.
    + intros b w Hkb Hb. apply K2; [done|]. by apply Hiff.
  - split; [apply Hs|apply Hs| |done]. intros a Ha. split; [|tauto]. intros H. split; [done|lia].
Qed.

Lemma destroy_spec ipd : pd ≠ ipd →
  ∃ s', pagedir_destroy ipd s pd = Ok s' ∧ vm_inv s' pds ∧ cr3 s' = cr3 s ∧ tlb s' = tlb s ∧
    (∀ pd' i, pd' ∈ pds → 0 ≤ i < 768 → pde s' pd' i = pde s pd' i) ∧
    (∀ pd' v, pd' ∈ pds → 0 ≤ v < PHYS_BASE → entry s' pd' v = entry s pd' v) ∧
    ∀ a, a mod 4096 = 0 → page_used (pal s') (a / 4096) = true ↔
      page_used (pal s) (a / 4096) = true ∧ a ≠ pd ∧ ∀ i, 0 ≤ i < 768 → ¬ table i a.
Proof using All.
  intros Hipd. assert (pd ∈ pd :: pds) as Hin by by left.
  pose proof (vm_dirs _ _ Hs pd Hin) as Hk. pose proof Hk as (Hal & Hlo & _).
  unfold pagedir_destroy. rewrite (proj2 (Z.eqb_neq pd 0)), (proj2 (Z.eqb_neq pd ipd)) by (unfold PHYS_BASE in *; lia).
  cbn [negb ASSERT mbind res_bind]. change (Z.to_nat (pd_no PHYS_BASE)) with 768%nat.
  destruct free_tables as (p & -> & Hf). cbn [mbind res_bind].
  assert (∀ i, 0 ≤ i < 768 → ¬ table i pd) as Hpdt.
  { intros i Hi [Hne E]. destruct (vm_tables _ _ Hs pd i Hin Hi Hne) as (_ & _ & Hnin). rewrite <- E in Hnin. by elems. }
  destruct (free_page_spec p pd) as (p' & -> & Hp' & Hu & Hm).
  { apply Hf. } { done. } { apply (fr_used _ _ Hf); [done|]. split; [apply Hk|done]. }
  destruct (free_keeps 768 p pd p' (λ b, b = pd)) as (K1 & K2 & K3); try done.
  cbn [mbind res_bind]. eexists. split; [done|]. set (s' := Mmu p' (cr3 s) (tlb s)).
  assert (∀ a, kpage s a → a ≠ pd → (∀ i, 0 ≤ i < 768 → ¬ table i a) → kpage s' a) as Hkeep.
  { intros a (H1 & H2 & H3 & H4) Hne Ht. split_and!; try done. apply K1; done. }
  assert (∀ pd' i, pd' ∈ pds → 0 ≤ i < 768 → ¬ table i pd') as Hdir.
  { intros pd' i Hpd' Hi [Hne E]. destruct (vm_tables _ _ Hs pd i Hin Hi Hne) as (_ & _ & Hnin).
    rewrite <- E in Hnin. elems. }
  assert (∀ pd' i, pd' ∈ pds → 0 ≤ i < 768 → pde s pd' i ≠ 0 →
    pt_of (pde s pd' i) ≠ pd ∧ ∀ j, 0 ≤ j < 768 → ¬ table j (pt_of (pde s pd' i))) as Htab.
  { intros pd' i Hpd' Hi Hne. assert (pd' ∈ pd :: pds) as Hin' by by right. split.
    - intros E. destruct (vm_tables _ _ Hs pd' i Hin' Hi Hne) as (_ & _ & Hnin). rewrite E in Hnin. by elems.
    - intros j Hj [Hnej E]. destruct (vm_inj _ _ Hs pd' i pd j Hin' Hin Hi Hj Hne Hnej E) as [-> _]. done. }
  assert (∀ pd', pd' ∈ pds → kpage s pd' ∧ pd' ≠ pd) as Hdirs.
  { intros pd' Hpd'. split; [apply (vm_dirs _ _ Hs); by right|]. by intros ->. }
  assert (∀ pd' i, pd' ∈ pds → 0 ≤ i < 768 → pde s' pd' i = pde s pd' i) as Hpde.
  { intros pd' i Hpd' Hi. apply K2; [by apply Hdirs| |lia]. split; [intros j Hj; by apply Hdir|by apply Hdirs]. }
  split_and!; try done.
  - split; try done.
    + intros pd' Hpd'. apply Hkeep; [by apply Hdirs..|]. intros i Hi. by apply Hdir.
    + intros pd' i Hpd' Hi. rewrite Hpde by done. intros Hne.
      destruct (vm_tables _ _ Hs pd' i ltac:(by right) Hi Hne) as (T1 & T2 & T3).
      destruct (Htab pd' i Hpd' Hi Hne). split_and!; [done|by apply Hkeep|elems].
    + intros pd1 i1 pd2 i2 H1 H2 Hi1 Hi2. rewrite !Hpde by done. apply Hs; try done; by right.
  - intros pd' v Hpd' Hv. destruct (user_index v Hv) as (Hi & Hj & _).
    assert (slot s' pd' v = slot s pd' v) as Es by (unfold slot; by rewrite Hpde).
    unfold entry. rewrite Es. destruct (Z.eqb_spec (pde s pd' (pd_no v)) 0) as [E0|E0].
    { unfold slot. by rewrite (proj2 (Z.eqb_eq _ _) E0). }
    destruct (slot_nonzero s (pd :: pds) pd' v) as [Hsl Hz]; [done|by right|done..|].
    rewrite (proj2 (Z.eqb_neq _ 0) Hz), Hsl. destruct (Htab pd' _ Hpd' Hi E0).
    apply K2; [by apply (vm_tables _ _ Hs); [right| |]|by split|done].
  - intros a Ha. unfold s'. cbn [pal]. rewrite (K1 a Ha). tauto.
Qed.
End destroy.

(** A fresh page whose user part is zero is a new, empty directory. *)
Lemma new_dir s pds p a m c t : vm_inv s pds → got_pages (pal s) p Kernel a 1 →
  (∀ b, is_u8 (m b)) → (∀ b i, kpage s b → 0 ≤ i < 1024 → rd32 m (b + 4 * i) = word s (b + 4 * i)) →
  (∀ i, 0 ≤ i < 768 → rd32 m (a + 4 * i) = 0) →
  let s' := Mmu (set_mem p m) c t in
  (a ∉ pds) ∧ vm_inv s' (a :: pds) ∧ (∀ v, 0 ≤ v < PHYS_BASE → entry s' a v = 0) ∧
  ∀ pd v, pd ∈ pds → 0 ≤ v < PHYS_BASE → entry s' pd v = entry s pd v.
Proof.
  intros Hs Hgot H8 Hold Hnew s'. destruct (fresh_page s p c t a (vm_pal _ _ Hs) Hgot) as [Hka Hfresh].
  assert (∀ b, kpage s b → kpage s' b) as Hgrow by (intros b Hb; exact (kpage_grow s p c t b a Hgot Hb)).
  assert (∀ pd i, pd ∈ pds → 0 ≤ i < 768 → pde s' pd i = pde s pd i) as Hpde.
  { intros pd i Hpd Hi. apply Hold; [by apply Hs|lia]. }
  assert (∀ i, 0 ≤ i < 768 → pde s' a i = 0) as Hzero by apply Hnew.
  split_and!.
  - intros Hin. by apply (Hfresh a (vm_dirs _ _ Hs a Hin)).
  - split.
    + apply wf_set_mem, Hgot.
    + done.
    + intros pd Hpd. elems_step; [done|]. by apply Hgrow, Hs.
    + intros pd i Hpd Hi Hne. elems_step; [by rewrite Hzero in Hne|]. rewrite Hpde in * by done.
      destruct (vm_tables _ _ Hs pd i Hpd Hi Hne) as (T1 & T2 & T3). split_and!; [done|by apply Hgrow|].
      pose proof (Hfresh _ T2). elems.
    + intros pd1 i1 pd2 i2 H1 H2 Hi1 Hi2 N1 N2.
      apply elem_of_cons in H1 as [->|H1]; [by rewrite Hzero in N1|].
      apply elem_of_cons in H2 as [->|H2]; [by rewrite Hzero in N2|].
      rewrite !Hpde in * by done. by apply Hs.
  - intros v Hv. destruct (user_index v Hv) as (Hi & _). unfold entry, slot. by rewrite Hzero.
  - intros pd v Hpd Hv. destruct (user_index v Hv) as (Hi & Hj & _).
    assert (slot s' pd v = slot s pd v) as Es by (unfold slot; by rewrite Hpde).
    unfold entry. rewrite Es. destruct (Z.eqb_spec (pde s pd (pd_no v)) 0) as [E0|E0].
    { unfold slot. by rewrite (proj2 (Z.eqb_eq _ _) E0). }
    destruct (slot_nonzero s pds pd v) as [Hsl Hz]; [done..|].
    rewrite (proj2 (Z.eqb_neq _ 0) Hz), Hsl. apply Hold; [by apply (vm_tables _ _ Hs)|done].
Qed.

Lemma copied_word m dst src i : 0 ≤ i < 1024 → rd32 (copy_page m dst src) (dst + 4 * i) = rd32 m (src + 4 * i).
Proof.
  intros Hi. unfold rd32, copy_page. change PGSIZE with 4096.
  assert (∀ k, 0 ≤ k < 4096 → (dst <=? dst + k) && (dst + k <? dst + 4096) = true) as E by (intros; lia).
  assert (∀ k, src + (dst + k - dst) = src + k) as E2 by (intros; lia).
  rewrite <- !(Z.add_assoc dst), !E, !E2, !Z.add_assoc by lia. done.
Qed.

Lemma not_copied_word m dst src b i : dst mod 4096 = 0 → b mod 4096 = 0 → b ≠ dst → 0 ≤ i < 1024 →
  rd32 (copy_page m dst src) (b + 4 * i) = rd32 m (b + 4 * i).
Proof.
  intros Hd Hb Hne Hi. unfold rd32, copy_page. change PGSIZE with 4096.
  pose proof (Z.div_mod dst 4096). pose proof (Z.div_mod b 4096).
  assert (∀ k, b ≤ k < b + 4096 → (dst <=? k) && (k <? dst + 4096) = false) as E by (intros; lia).
  rewrite !E by lia. done.
Qed.

Lemma create_spec ipd s pds : vm_inv s pds → ipd ∈ pds → (∀ i, 0 ≤ i < 768 → pde s ipd i = 0) →
  (pagedir_create ipd s = Ok (s, 0) ∧ out_of_pages (pal s) Kernel 1) ∨
  ∃ s' pd, pagedir_create ipd s = Ok (s', pd) ∧ pd ≠ 0 ∧ (pd ∉ pds) ∧ vm_inv s' (pd :: pds) ∧
    cr3 s' = cr3 s ∧ tlb s' = tlb s ∧
    (∀ i, 768 ≤ i < 1024 → pde s' pd i = pde s ipd i) ∧
    (∀ i, 0 ≤ i < 768 → pde s' ipd i = 0) ∧
    (∀ v, 0 ≤ v < PHYS_BASE → entry s' pd v = 0) ∧
    ∀ pd' v, pd' ∈ pds → 0 ≤ v < PHYS_BASE → entry s' pd' v = entry s pd' v.
Proof.
  intros Hs Hin Hz. unfold pagedir_create, palloc_get_page.
  destruct (palloc_get_spec (pal s) 0 1 (vm_pal _ _ Hs)) as [[Ho ->]|(p & pd & -> & Hpd & Hgot & Hmem)];
    [lia|left; by destruct s|right].
  change (flag 0 PAL_ZERO) with false in Hmem. change (pool_of 0) with Kernel in Hgot.
  cbn [mbind res_bind]. rewrite (proj2 (Z.eqb_neq pd 0)) by done. cbn [negb].
  destruct (fresh_page s p (cr3 s) (tlb s) pd (vm_pal _ _ Hs) Hgot) as [(Ha & _) Hfresh].
  destruct (new_dir s pds p pd (copy_page (mem p) pd ipd) (cr3 s) (tlb s) Hs Hgot) as (H1 & H2 & H3 & H4).
  - intros b. unfold copy_page. rewrite Hmem. destruct (_ && _); apply Hs.
  - intros b i Hb Hi. rewrite not_copied_word; [by rewrite Hmem|done|apply Hb|by apply Hfresh|done].
  - intros i Hi. rewrite copied_word by lia. rewrite Hmem. by apply Hz.
  - eexists _, pd. split; [done|]. split_and!; try done; intros i Hi; unfold pde, word; cbn.
    + rewrite copied_word by lia. by rewrite Hmem.
    + rewrite not_copied_word; [rewrite Hmem; by apply Hz|done|apply (vm_dirs _ _ Hs _ Hin)|congruence|lia].
Qed.

(** ** A small system

    The page directory of the kernel and one of a process, in the pages of
    [demo_pages]. *)

Definition demo_boot : palloc * Z := result (demo_pages, 0) (palloc_get_page demo_pages PAL_ZERO).
Definition demo_ipd : Z := snd demo_boot.
Definition demo_kernel : mmu := Mmu (fst demo_boot) (demo_ipd - PHYS_BASE) [].
Definition demo_create : mmu * Z := result (demo_kernel, 0) (pagedir_create demo_ipd demo_kernel).
Definition demo_pd : Z := snd demo_create.
Definition demo_mmu : mmu := fst demo_create.

Lemma demo_ipd_eq : demo_ipd = 3222278144.
Proof. vm_compute. reflexivity. Qed.

(** A zeroed page is a directory without user pages. *)
Lemma zero_dir p0 p a : palloc_wf p0 → (∀ b, is_u8 (mem p0 b)) →
  palloc_get_page p0 PAL_ZERO = Ok (p, a) → a ≠ 0 →
  let s := Mmu p (a - PHYS_BASE) [] in
  vm_inv s [a] ∧ (∀ i, 0 ≤ i < 768 → pde s a i = 0) ∧ ∀ v, 0 ≤ v < PHYS_BASE → entry s a v = 0.
Proof.
  intros Hp H8 Hget Hnz. unfold palloc_get_page in Hget.
  destruct (palloc_get_spec p0 PAL_ZERO 1 Hp) as [[_ E]|(p' & a' & E & _ & Hgot & Hm)];
    [lia|rewrite E in Hget; by injection Hget as _ <-|]. rewrite E in Hget. injection Hget as -> ->.
  change (flag PAL_ZERO PAL_ZERO) with true in Hm. change (pool_of PAL_ZERO) with Kernel in Hgot. cbv iota in Hm.
  assert (vm_inv (Mmu p0 0 []) []) as H0.
  { split; [done|done|intros ? []%not_elem_of_nil|intros ? ? []%not_elem_of_nil|intros ? ? ? ? []%not_elem_of_nil]. }
  destruct (new_dir (Mmu p0 0 []) [] p a (mem p) (a - PHYS_BASE) [] H0 Hgot) as (_ & H1 & H2 & _).
  - intros b. rewrite Hm. unfold memset. destruct (_ && _); [by vm_compute|done].
  - intros b i (Hb & Hr) Hi. rewrite Hm. destruct (fresh_page (Mmu p0 0 []) p 0 [] a Hp Hgot)
      as [(Ha & _) Hf]. specialize (Hf b (conj Hb Hr)). apply rd32_memset.
    pose proof (Z.div_mod a 4096). pose proof (Z.div_mod b 4096). lia.
  - intros i Hi. rewrite Hm. apply rd32_zeroed; lia.
  - assert (set_mem p (mem p) = p) as Ep by (by destruct p). rewrite Ep in H1, H2. split; [exact H1|].
    split; [|exact H2]. intros i Hi. unfold pde, word. cbn [pal]. rewrite Hm. apply rd32_zeroed; lia.
Qed.

Lemma result_ok {A} (d : A) (m : res A) : is_ok m = true → m = Ok (result d m).
Proof. by destruct m. Qed.

Lemma demo_kernel_inv : vm_inv demo_kernel [demo_ipd] ∧
  (∀ i, 0 ≤ i < 768 → pde demo_kernel demo_ipd i = 0) ∧
  ∀ v, 0 ≤ v < PHYS_BASE → entry demo_kernel demo_ipd v = 0.
Proof.
  apply (zero_dir demo_pages (fst demo_boot) demo_ipd).
  - exact demo_pages_wf.
  - intros b. assert (mem demo_pages b = 0) as -> by (vm_compute; reflexivity). by vm_compute.
  - rewrite (result_ok (demo_pages, 0) (palloc_get_page demo_pages PAL_ZERO)) by (vm_compute; reflexivity).
    apply (f_equal Ok). apply surjective_pairing.
  - rewrite demo_ipd_eq. discriminate.
Qed.

Lemma demo_pd_eq : demo_pd = 3222282240.
Proof. vm_compute. reflexivity. Qed.

(** A new process beside the kernel. *)
Lemma created_safe ram ipd s0 s pd : vm_inv s0 [ipd] → (∀ i, 0 ≤ i < 768 → pde s0 ipd i = 0) →
  (∀ v, 0 ≤ v < PHYS_BASE → entry s0 ipd v = 0) → tlb s0 = [] → cr3 s0 = ipd - PHYS_BASE →
  pagedir_create ipd s0 = Ok (s, pd) → pd ≠ 0 → safe ram [pd; ipd] s.
Proof.
  intros Hk Hz He Ht0 Hc0 Hok Hnz.
  destruct (create_spec ipd s0 [ipd] Hk) as [[E _]|(s' & pd' & E & _ & Hn & Hs & Hc & Ht & _ & _ & H1 & H2)];
    [by left|done|rewrite E in Hok; by injection Hok as _ <-|].
  rewrite E in Hok. injection Hok as -> ->.
  assert (∀ pd' v, pd' ∈ [pd; ipd] → 0 ≤ v < PHYS_BASE → entry s pd' v = 0) as Hent.
  { intros pd' v Hin Hv. apply elem_of_cons in Hin as [->|Hin]; [by apply H1|]. apply list_elem_of_singleton in Hin as ->.
    rewrite H2 by (done || by left). by apply He. }
  destruct (vm_dirs _ _ Hk ipd) as (_ & Hlo & _); [by left|].
  split.
  - split; [done| |].
    + intros pd' v Hin Hv. by rewrite Hent.
    + rewrite Hc, Hc0. split; [lia|]. replace (ipd - PHYS_BASE + PHYS_BASE) with ipd by lia. by right; left.
  - intros v e Hv. rewrite Ht, Ht0 in Hv. by apply not_elem_of_nil in Hv.
Qed.

Lemma demo_safe : safe 300 [demo_pd; demo_ipd] demo_mmu.
Proof.
  destruct demo_kernel_inv as (Hk & Hz & He).
  apply (created_safe 300 demo_ipd demo_kernel demo_mmu demo_pd); [exact Hk|exact Hz|exact He|reflexivity..| |].
  - rewrite (result_ok (demo_kernel, 0) (pagedir_create demo_ipd demo_kernel)) by (vm_compute; reflexivity).
    apply (f_equal Ok). apply surjective_pairing.
  - rewrite demo_pd_eq. discriminate.
Qed.

(** ** The theorems *)

(** What the user address [v] translates to in the directory [pd]: a kernel
    page and whether the process may write it. *)
Definition space (s : mmu) (pd v : Z) : option (Z * bool) := xlate (entry s pd v).

(** C1. The page tables implement a finite map for every process.
    [pagedir_get_page] looks an address up.  [pagedir_set_page] adds one
    page to one map, or fails because there is no page for a page table and
    changes nothing; it rejects a page that is mapped already.
    [pagedir_clear_page] removes one page from one map.  All other pages, of
    this and of all other address spaces, translate as before. *)
Theorem pagedir_refines_map (ipd ram : Z) (pds : list Z) (s : mmu) (pd u k : Z) (w : bool) :
  typed ram s pds → 4096 * ram ≤ 2 ^ 32 - PHYS_BASE → pd ∈ pds → pd ≠ ipd →
  0 ≤ u < PHYS_BASE → u mod 4096 = 0 →
  k mod 4096 = 0 → PHYS_BASE ≤ k < 2 ^ 32 → (k - PHYS_BASE) / 4096 < ram →
  (∀ v, u ≤ v < u + 4096 → pagedir_get_page s pd v =
     Ok (match space s pd u with Some (p, _) => p + v mod 4096 | None => 0 end)) ∧
  match space s pd u with
  | Some _ => pagedir_set_page ipd ram s pd u k w = Err EAssert
  | None =>
      (pagedir_set_page ipd ram s pd u k w = Ok (s, false) ∧ out_of_pages (pal s) Kernel 1) ∨
      ∃ s', pagedir_set_page ipd ram s pd u k w = Ok (s', true) ∧ typed ram s' pds ∧
        ∀ pd' v, pd' ∈ pds → 0 ≤ v < PHYS_BASE →
          space s' pd' v = if (pd' =? pd) && (v / 4096 =? u / 4096) then Some (k, w) else space s pd' v
  end ∧
  ∃ s', pagedir_clear_page ipd s pd u = Ok s' ∧ typed ram s' pds ∧
    ∀ pd' v, pd' ∈ pds → 0 ≤ v < PHYS_BASE →
      space s' pd' v = if (pd' =? pd) && (v / 4096 =? u / 4096) then None else space s pd' v.
Proof.
  intros Hty Hram Hpd Hne Hu Hua Hka Hk Hkr. pose proof (ty_inv _ _ _ Hty) as Hs.
  destruct (ty_cr3 _ _ _ Hty) as [Hc0 Hin]. destruct (typed_cr3 _ _ _ Hty) as [Hc1 Hc2].
  unfold space. split_and!.
  - intros v Hv. assert (v / 4096 = u / 4096 ∧ v < PHYS_BASE) as [Ev Hv'].
    { unfold PHYS_BASE in *. Z.div_mod_to_equations. lia. }
    rewrite <- (entry_page s pd v u) by (done || lia). apply (get_page_spec s pds); [done|done|lia|].
    intros HP. pose proof (ty_entry _ _ _ Hty pd v Hpd ltac:(lia) HP). lia.
  - pose proof (set_page_spec ipd ram s pds pd u k w Hs Hpd Hne Hu Hua Hka Hk Hkr) as Hspec.
    destruct (xlate (entry s pd u)); [done|].
    destruct Hspec as [|(s' & Hok & Hup & Hc & _)]; [by left|right].
    destruct (pte_create_user_eq k w Hka Hk) as (_ & _ & Hx & _). exists s'. split; [done|]. split.
    + apply (typed_update _ s s' pds pd u (user_pte k w)); rewrite ?Hc; try done. intros _.
      by apply user_pte_typed.
    + intros pd' v H1 H2. destruct Hup as [_ He]. rewrite He by done. destruct (_ && _); [exact Hx|done].
  - pose proof (clear_page_spec ipd s pds pd u Hs Hpd Hu Hua Hc1 Hc2) as Hspec.
    destruct (flag (entry s pd u) PTE_P) eqn:HP.
    + destruct Hspec as (s' & Hok & Hup & Hc & _). exists s'. split; [done|].
      destruct (clear_flag (entry s pd u) 0 (entry_u32 s pds pd u Hs) ltac:(lia)) as (_ & _ & Hf).
      specialize (Hf 0 ltac:(lia)). change (2 ^ 0) with PTE_P in Hf. split.
      * eapply (typed_update _ s s' pds pd u); rewrite ?Hc; [done..|]. rewrite Hf. done.
      * intros pd' v H1 H2. destruct Hup as [_ He]. rewrite He by done.
        destruct ((pd' =? pd) && (v / 4096 =? u / 4096)); [|reflexivity].
        unfold xlate. by rewrite Hf.
    + exists s. split; [done|]. split; [done|]. intros pd' v H1 H2.
      destruct (Z.eqb_spec pd' pd) as [->|]; [|done]. destruct (Z.eqb_spec (v / 4096) (u / 4096)) as [E|]; [|done].
      cbn [andb]. rewrite (entry_page s pd v u) by done. unfold xlate. by rewrite HP.
Qed.

(** The page at 0x08048000 of a new process. *)
Lemma pagedir_refines_witness :
  (∀ v, 134512640 ≤ v < 134512640 + 4096 → pagedir_get_page demo_mmu demo_pd v =
     Ok (match space demo_mmu demo_pd 134512640 with Some (p, _) => p + v mod 4096 | None => 0 end)) ∧
  match space demo_mmu demo_pd 134512640 with
  | Some _ => pagedir_set_page demo_ipd 300 demo_mmu demo_pd 134512640 3222286336 true = Err EAssert
  | None =>
      (pagedir_set_page demo_ipd 300 demo_mmu demo_pd 134512640 3222286336 true = Ok (demo_mmu, false) ∧
       out_of_pages (pal demo_mmu) Kernel 1) ∨
      ∃ s', pagedir_set_page demo_ipd 300 demo_mmu demo_pd 134512640 3222286336 true = Ok (s', true) ∧
        typed 300 s' [demo_pd; demo_ipd] ∧
        ∀ pd' v, pd' ∈ [demo_pd; demo_ipd] → 0 ≤ v < PHYS_BASE →
          space s' pd' v = if (pd' =? demo_pd) && (v / 4096 =? 134512640 / 4096)
                           then Some (3222286336, true) else space demo_mmu pd' v
  end ∧
  ∃ s', pagedir_clear_page demo_ipd demo_mmu demo_pd 134512640 = Ok s' ∧ typed 300 s' [demo_pd; demo_ipd] ∧
    ∀ pd' v, pd' ∈ [demo_pd; demo_ipd] → 0 ≤ v < PHYS_BASE →
      space s' pd' v = if (pd' =? demo_pd) && (v / 4096 =? 134512640 / 4096)
                       then None else space demo_mmu pd' v.
Proof.
  apply (pagedir_refines_map demo_ipd 300 [demo_pd; demo_ipd] demo_mmu demo_pd 134512640 3222286336 true).
  - exact (proj1 demo_safe).
  - unfold PHYS_BASE. lia.
  - by left.
  - rewrite demo_pd_eq, demo_ipd_eq. discriminate.
  - unfold PHYS_BASE. lia.
  - reflexivity.
  - reflexivity.
  - unfold PHYS_BASE. lia.
  - reflexivity.
Defined.

(** The processor never uses a translation that the page tables have
    lost: whenever it has cached one for a user page, the active directory
    has a present entry for the page with the same kernel page and the same
    right to write.  This holds because the operations that remove a page or
    clear a flag of an active directory throw the cached translations away. *)
Theorem tlb_coherent (ipd ram : Z) (pds : list Z) (s s' : mmu) (v e : Z) :
  safe ram pds s → rtc (vm_step ipd ram pds) s s' → (v, e) ∈ tlb s' →
  ∃ k w, xlate e = Some (k, w) ∧ space s' (cr3 s' + PHYS_BASE) v = Some (k, w).
Proof.
  intros Hs Hrun Hin. enough (safe ram pds s') as [_ Hco].
  { destruct (Hco v e Hin) as (_ & Hx & Hn). destruct (xlate e) as [[k w]|] eqn:E; [|done].
    exists k, w. split; [done|]. by rewrite Hx. }
  clear v e Hin. induction Hrun as [|s s1 s' Hstep _ IH]; [done|]. apply IH.
  by apply (step_safe ipd ram pds s).
Qed.

(** The process maps the page at 0x08048000, is activated and accesses it. *)
Definition demo_mapped : mmu := fst (result (demo_mmu, false)
  (pagedir_set_page demo_ipd 300 demo_mmu demo_pd 134512640 3222286336 true)).
Definition demo_active : mmu := Mmu (pal demo_mapped) (demo_pd - PHYS_BASE) [].
Definition demo_cached : mmu :=
  Mmu (pal demo_active) (cr3 demo_active)
    ((134512640, entry demo_active (cr3 demo_active + PHYS_BASE) 134512640) :: tlb demo_active).

Lemma demo_cached_run : rtc (vm_step demo_ipd 300 [demo_pd; demo_ipd]) demo_mmu demo_cached.
Proof.
  apply (rtc_l _ _ demo_mapped); [|apply (rtc_l _ _ demo_active); [|apply rtc_once]].
  - apply (step_set _ _ _ _ _ demo_pd 134512640 3222286336 true true); [by left|unfold PHYS_BASE; lia..|].
    rewrite (result_ok (demo_mmu, false) (pagedir_set_page _ _ _ _ _ _ _)) by (vm_compute; reflexivity).
    unfold demo_mapped. apply (f_equal Ok). rewrite (surjective_pairing (result _ _)) at 1. f_equal.
  - apply (step_activate _ _ _ _ _ demo_pd); [by left|]. unfold pagedir_activate, demo_active.
    rewrite demo_pd_eq. reflexivity.
  - apply step_fill; [unfold PHYS_BASE; lia|]. vm_compute. reflexivity.
Qed.

Lemma tlb_coherent_witness :
  rtc (vm_step demo_ipd 300 [demo_pd; demo_ipd]) demo_mmu demo_cached ∧
  ∃ k w, xlate (entry demo_active (cr3 demo_active + PHYS_BASE) 134512640) = Some (k, w) ∧
    space demo_cached (cr3 demo_cached + PHYS_BASE) 134512640 = Some (k, w).
Proof.
  split; [exact demo_cached_run|].
  apply (tlb_coherent demo_ipd 300 [demo_pd; demo_ipd] demo_mmu demo_cached);
    [exact demo_safe|exact demo_cached_run|by left].
Defined.

(** [pagedir_destroy] frees exactly the pages of one address space, its
    directory and its page tables, each of them once; all other address
    spaces translate as before. *)
Theorem pagedir_destroy_correct (ipd : Z) (pds : list Z) (s : mmu) (pd : Z) :
  vm_inv s (pd :: pds) → pd ∉ pds → pd ≠ ipd →
  ∃ s', pagedir_destroy ipd s pd = Ok s' ∧ vm_inv s' pds ∧
    (∀ pd' v, pd' ∈ pds → 0 ≤ v < PHYS_BASE → space s' pd' v = space s pd' v) ∧
    ∀ a, a mod 4096 = 0 → page_used (pal s') (a / 4096) = true ↔
      page_used (pal s) (a / 4096) = true ∧ a ≠ pd ∧
      ∀ i, 0 ≤ i < 768 → pde s pd i ≠ 0 → a ≠ pt_of (pde s pd i).
Proof.
  intros Hs Hn Hne. destruct (destroy_spec s pds pd Hs Hn ipd Hne) as (s' & Hok & Hinv & _ & _ & _ & He & Hu).
  exists s'. split_and!; try done.
  - intros pd' v H1 H2. unfold space. by rewrite He.
  - intros a Ha. rewrite (Hu a Ha). unfold table. naive_solver.
Qed.

Lemma pagedir_destroy_witness : ∃ s', pagedir_destroy demo_ipd demo_mmu demo_pd = Ok s' ∧
  vm_inv s' [demo_ipd] ∧
  (∀ pd' v, pd' ∈ [demo_ipd] → 0 ≤ v < PHYS_BASE → space s' pd' v = space demo_mmu pd' v) ∧
  ∀ a, a mod 4096 = 0 → page_used (pal s') (a / 4096) = true ↔
    page_used (pal demo_mmu) (a / 4096) = true ∧ a ≠ demo_pd ∧
    ∀ i, 0 ≤ i < 768 → pde demo_mmu demo_pd i ≠ 0 → a ≠ pt_of (pde demo_mmu demo_pd i).
Proof.
  apply (pagedir_destroy_correct demo_ipd [demo_ipd] demo_mmu demo_pd).
  - exact (ty_inv _ _ _ (proj1 demo_safe)).
  - rewrite demo_pd_eq, demo_ipd_eq. intros H. elems.
  - rewrite demo_pd_eq, demo_ipd_eq. discriminate.
Defined.
