(* ===== verification/Cmdline.v ===== *)
(** * userprog/process.c: the command line of a new process

    [init_cmd_line] lays the arguments of a process out on the first page of
    its stack.  The kernel sees the page at [kpage], the process at [upage];
    memory is that of Str.  The literal of the delimiters, a single space,
    lies at the address [space]. *)

From S2P Require Import Prelude Str Vaddr.

(** ** Words in memory, least significant byte first *)

Definition le32 (v : Z) : list Z := [v mod 256; v / 256 mod 256; v / 65536 mod 256; v / 16777216 mod 256].

Definition rdw (m : store) (a : Z) : res Z :=
  b0 ← rd m a;
  b1 ← rd m (a + 1);
  b2 ← rd m (a + 2);
  b3 ← rd m (a + 3);
  Ok (b0 + 256 * b1 + 65536 * b2 + 16777216 * b3).

(** Stores of several bytes, [memcpy] from a variable. *)
Fixpoint wr_bytes (m : store) (a : Z) (l : list Z) : res store :=
  match l with
  | [] => Ok m
  | b :: l => m ← wr m a b; wr_bytes m (a + 1) l
  end.
Definition wrw (m : store) (a v : Z) : res store := wr_bytes m a (le32 v).

(** ** The code *)

Definition reverse (m : store) (argc argv : Z) : res store :=
  loop (S (Z.to_nat argc)) (λ '(m, argc, argv),
    if 1 <? argc then
      tmp ← rdw m argv;
      x ← rdw m (argv + 4 * (argc - 1));
      m ← wrw m argv x;
      m ← wrw m (argv + 4 * (argc - 1)) tmp;
      Ok (inl (m, argc - 2, argv + 4))
    else Ok (inr m)) (m, argc, argv).

(** What [push] copies: an object in memory, or a variable. *)
Inductive object := At (p : Z) | Val (l : list Z).

(** The result is the memory, the new value of [*ofs] and the pointer. *)
Definition push (m : store) (kpage ofs : Z) (buf : object) (size : Z) : res (store * Z * Z) :=
  let padsize := ROUND_UP size 4 in
  if ofs <? padsize then Ok (m, ofs, 0) else
  let ofs := ofs - padsize in
  let dst := kpage + ofs + (padsize - size) in
  m ← match buf with
      | At p => '(m, _) ← memcpy m dst p size; Ok m
      | Val l => wr_bytes m dst l
      end;
  Ok (m, ofs, dst).

(** A value of four bytes. *)
Definition push_word (m : store) (kpage ofs v : Z) : res (store * Z * Z) :=
  push m kpage ofs (Val (le32 v)) 4.

Section code.
Variable space : Z.

(** The loop over the arguments: the state is the memory, [ofs], [argc],
    [saveptr] and [karg]; the result is [None] for [return false]. *)
Definition push_args (m : store) (kpage upage ofs cmd_line_copy : Z) : res (option (store * Z * Z)) :=
  '(m, saveptr, karg) ← strtok_r m cmd_line_copy space 0;
  loop (S (Z.to_nat PGSIZE)) (λ '(m, ofs, argc, saveptr, karg),
    if negb (karg =? 0) then
      let uarg := u32 (upage + (karg - kpage)) in
      '(m, ofs, p) ← push_word m kpage ofs uarg;
      if p =? 0 then Ok (inr None) else
      '(m, saveptr, karg) ← strtok_r m 0 space saveptr;
      Ok (inl (m, ofs, argc + 1, saveptr, karg))
    else Ok (inr (Some (m, ofs, argc)))) (m, ofs, 0, saveptr, karg).

(** The result is [None] for [return false], or the memory and [*esp]. *)
Definition init_cmd_line (m : store) (kpage upage cmd_line : Z) : res (option (store * Z)) :=
  len ← strlen m cmd_line;
  '(m, ofs, cmd_line_copy) ← push m kpage PGSIZE (At cmd_line) (u32 (len + 1));
  if cmd_line_copy =? 0 then Ok None else
  '(m, ofs, p) ← push_word m kpage ofs 0;
  if p =? 0 then Ok None else
  r ← push_args m kpage upage ofs cmd_line_copy;
  match r with
  | None => Ok None
  | Some (m, ofs, argc) =>
      let argv := u32 (upage + ofs) in
      m ← reverse m argc (kpage + ofs);
      '(m, ofs, p) ← push_word m kpage ofs argv;
      if p =? 0 then Ok None else
      '(m, ofs, p) ← push_word m kpage ofs argc;
      if p =? 0 then Ok None else
      '(m, ofs, p) ← push_word m kpage ofs 0;
      if p =? 0 then Ok None else
      Ok (Some (m, u32 (upage + ofs)))
  end.

End code.

(** ** Words *)

Definition word_at (m : store) (a v : Z) : Prop := bytes_at m a (le32 v).
Definition words_at (m : store) (a : Z) (l : list Z) : Prop :=
  ∀ i v, l !! i = Some v → word_at m (a + 4 * Z.of_nat i) v.

Lemma le32_u8 v : Forall is_u8 (le32 v).
Proof. repeat constructor; apply (u8_range _). Qed.

Lemma rdw_spec m a v : is_u32 v → region a 4 → word_at m a v → rdw m a = Ok v.
Proof.
  intros Hv (? & _ & ?) Hw. unfold rdw.
  pose proof (Hw 0%nat _ eq_refl) as W0. pose proof (Hw 1%nat _ eq_refl) as W1.
  pose proof (Hw 2%nat _ eq_refl) as W2. pose proof (Hw 3%nat _ eq_refl) as W3. rewrite Z.add_0_r in W0.
  rewrite (rd_spec m a _ ltac:(split; lia) W0), (rd_spec m (a + 1) _ ltac:(split; lia) W1),
    (rd_spec m (a + 2) _ ltac:(split; lia) W2), (rd_spec m (a + 3) _ ltac:(split; lia) W3).
  cbn [mbind res_bind]. f_equal. c_lia.
Qed.

Lemma put_insert_lt m k b a l : k < a → put (<[k := b]> m) a l = <[k := b]> (put m a l).
Proof.
  revert a. induction l as [|c l IH]; intros a Hk; [done|]. cbn. rewrite IH by lia.
  apply insert_insert_ne. lia.
Qed.

Lemma wr_bytes_spec m a l : region a (Z.of_nat (length l)) → mapped m a (Z.of_nat (length l)) →
  Forall is_u8 l → wr_bytes m a l = Ok (put m a l).
Proof.
  revert m a. induction l as [|b l IH]; intros m a (? & ? & ?) Hm H8; [done|].
  cbn [length] in *. inversion_clear H8. cbn [wr_bytes].
  rewrite wr_spec by first [split; lia|apply Hm; lia]. cbn [mbind res_bind]. rewrite u8_small by done.
  rewrite IH; [|repeat split; lia| |done].
  - cbn [put]. rewrite put_insert_lt by lia. done.
  - intros k Hk. rewrite lookup_insert_ne by lia. apply Hm. lia.
Qed.

(** Memory is the same outside [n] bytes from [a] on. *)
Definition outside (a n : Z) (m m' : store) : Prop :=
  ∀ k, k < a ∨ a + n ≤ k → m' !! k = m !! k.

Lemma put_outside m a l b n : b ≤ a → a + Z.of_nat (length l) ≤ b + n → outside b n m (put m a l).
Proof. intros H1 H2 k Hk. rewrite put_lookup, decide_False by lia. done. Qed.

Lemma outside_trans a n m1 m2 m3 : outside a n m1 m2 → outside a n m2 m3 → outside a n m1 m3.
Proof. intros H1 H2 k Hk. by rewrite H2, H1. Qed.

Lemma outside_mono a n b k m m' : outside a n m m' → b ≤ a → a + n ≤ b + k → outside b k m m'.
Proof. intros H H1 H2 z Hz. apply H. lia. Qed.

(** An object that does not meet the bytes that changed. *)
Lemma bytes_at_outside m m' a n b l : outside a n m m' → bytes_at m b l →
  b + Z.of_nat (length l) ≤ a ∨ a + n ≤ b → bytes_at m' b l.
Proof.
  intros Ho Hb Hd i x Hi. pose proof (lookup_lt_Some _ _ _ Hi). rewrite Ho by lia. by apply Hb.
Qed.

Lemma words_at_outside m m' a n b l : outside a n m m' → words_at m b l →
  b + 4 * Z.of_nat (length l) ≤ a ∨ a + n ≤ b → words_at m' b l.
Proof.
  intros Ho Hw Hd i v Hi. pose proof (lookup_lt_Some _ _ _ Hi).
  apply (bytes_at_outside m m' a n); [done|by apply Hw|]. cbn. lia.
Qed.

Lemma cstr_outside m m' a n b s : outside a n m m' → cstr m b s →
  b + Z.of_nat (length s) < a ∨ a + n ≤ b → cstr m' b s.
Proof. intros Ho Hs Hd. apply (cstr_ext m); [done|]. intros k Hk. apply Ho. lia. Qed.

Lemma words_at_nil m a : words_at m a [].
Proof. intros i v Hi. done. Qed.

Lemma words_at_cons m a v l : word_at m a v → words_at m (a + 4) l → words_at m a (v :: l).
Proof.
  intros Hv Hl [|i] w Hi; cbn in Hi.
  - simplify_eq. by rewrite Z.add_0_r.
  - replace (a + 4 * Z.of_nat (S i)) with (a + 4 + 4 * Z.of_nat i) by lia. by apply Hl.
Qed.

Lemma words_at_tail m a v l : words_at m a (v :: l) → word_at m a v ∧ words_at m (a + 4) l.
Proof.
  intros H. split; [specialize (H 0%nat v eq_refl); by rewrite Z.add_0_r in H|].
  intros i w Hi. replace (a + 4 + 4 * Z.of_nat i) with (a + 4 * Z.of_nat (S i)) by lia. by apply H.
Qed.

Lemma words_at_app m a l l' : words_at m a (l ++ l') ↔
  words_at m a l ∧ words_at m (a + 4 * Z.of_nat (length l)) l'.
Proof.
  revert a. induction l as [|v l IH]; intros a; cbn [app length].
  { rewrite Z.add_0_r. pose proof (words_at_nil m a). tauto. }
  split.
  - intros [Hv [H1 H2]%IH]%words_at_tail. split; [by apply words_at_cons|].
    by replace (a + 4 * Z.of_nat (S (length l))) with (a + 4 + 4 * Z.of_nat (length l)) by lia.
  - intros [[Hv Hl]%words_at_tail H2]. apply words_at_cons; [done|]. apply IH. split; [done|].
    by replace (a + 4 + 4 * Z.of_nat (length l)) with (a + 4 * Z.of_nat (S (length l))) by lia.
Qed.

Lemma mapped_outside m m' a n b k : outside b k m m' → mapped m a n → mapped m' b k →
  mapped m' a n.
Proof.
  intros Ho Hm Hm' z Hz. destruct (decide (b ≤ z < b + k)); [by apply Hm'|].
  rewrite Ho by lia. by apply Hm.
Qed.

(** ** Reversal *)

Lemma wrw_spec m a v : region a 4 → mapped m a 4 → wrw m a v = Ok (put m a (le32 v)).
Proof. intros Hr Hm. unfold wrw. apply wr_bytes_spec; [done..|apply le32_u8]. Qed.

Lemma words_mapped m a l : words_at m a l → mapped m a (4 * Z.of_nat (length l)).
Proof.
  intros Hw k Hk. set (i := Z.to_nat ((k - a) / 4)).
  destruct (lookup_lt_is_Some_2 l i) as [v Hv]; [unfold i; Z.div_mod_to_equations; lia|].
  apply (bytes_at_mapped _ _ _ (Hw i v Hv)). cbn. unfold i. Z.div_mod_to_equations. lia.
Qed.

Lemma reverse_spec l : ∀ n m a, (length l < n)%nat → region a (4 * Z.of_nat (length l)) →
  Forall is_u32 l → words_at m a l →
  ∃ m', loop n (λ '(m, argc, argv),
    if 1 <? argc then
      tmp ← rdw m argv;
      x ← rdw m (argv + 4 * (argc - 1));
      m ← wrw m argv x;
      m ← wrw m (argv + 4 * (argc - 1)) tmp;
      Ok (inl (m, argc - 2, argv + 4))
    else Ok (inr m)) (m, Z.of_nat (length l), a) = Ok m' ∧
    words_at m' a (rev l) ∧ outside a (4 * Z.of_nat (length l)) m m'.
Proof.
  remember (length l) as len eqn:Hlen. revert l Hlen.
  induction (lt_wf len) as [len _ IH]. intros l -> n m a Hn (? & ? & ?) H32 Hw.
  destruct n as [|n]; [lia|]. cbn [loop].
  destruct (Z.ltb_spec 1 (Z.of_nat (length l))) as [Hlong|Hshort].
  2:{ exists m. split; [done|]. split; [|by intros k Hk]. destruct l as [|x [|]]; cbn in *; [done..|lia]. }
  destruct l as [|x l]; [cbn in *; lia|]. destruct l as [|y l _] using rev_ind; [cbn in *; lia|].
  cbn [length] in *. rewrite length_app in *. cbn [length] in *.
  inversion_clear H32 as [|? ? Hx Hl]. apply Forall_app in Hl as [Hl Hy%Forall_inv].
  pose proof (words_mapped _ _ _ Hw) as Hm. cbn [length] in Hm. rewrite length_app in Hm. cbn [length] in Hm.
  destruct (words_at_tail _ _ _ _ Hw) as [Wx [Wl Wy]%words_at_app]. apply words_at_tail in Wy as [Wy _].
  set (e := a + 4 * (Z.of_nat (S (length l + 1)) - 1)).
  replace (a + 4 + 4 * Z.of_nat (length l)) with e in Wy by lia.
  rewrite (rdw_spec m a x) by (done || (repeat split; lia)). cbn [mbind res_bind].
  rewrite (rdw_spec m e y) by (done || (repeat split; lia)). cbn [mbind res_bind].
  rewrite wrw_spec by first [repeat split; lia|intros k Hk; apply Hm; lia]. cbn [mbind res_bind].
  rewrite wrw_spec by first [repeat split; lia|apply put_mapped; intros k Hk; apply Hm; lia].
  cbn [mbind res_bind]. set (m2 := put (put m a (le32 y)) e (le32 x)).
  replace (Z.of_nat (S (length l + 1)) - 2) with (Z.of_nat (length l)) by lia.
  assert (words_at m2 (a + 4) l) as Wl2.
  { apply (words_at_outside (put m a (le32 y)) _ e 4).
    - apply put_outside; cbn; lia.
    - apply (words_at_outside m _ a 4); [apply put_outside; cbn; lia|done|lia].
    - lia. }
  destruct (IH (length l) ltac:(lia) l eq_refl n m2 (a + 4)) as (m' & -> & Wr & Ho);
    [lia|repeat split; lia|done|done|].
  exists m'. split; [done|]. split.
  - change (rev (x :: l ++ [y])) with (rev (l ++ [y]) ++ [x]). rewrite rev_app_distr. cbn [rev app].
    apply words_at_cons; [|apply words_at_app; split; [done|]].
    + apply (bytes_at_outside m2 _ (a + 4) (4 * Z.of_nat (length l))); [done| |cbn; lia].
      apply (bytes_at_outside (put m a (le32 y)) _ e 4); [apply put_outside; cbn; lia|apply bytes_at_put|cbn; lia].
    + rewrite length_rev. apply words_at_cons; [|apply words_at_nil].
      replace (a + 4 + 4 * Z.of_nat (length l)) with e by lia.
      apply (bytes_at_outside m2 _ (a + 4) (4 * Z.of_nat (length l))); [done|apply bytes_at_put|lia].
  - eapply outside_trans; [|apply (outside_mono _ _ _ _ _ _ Ho); lia].
    eapply outside_trans; [apply (put_outside m a (le32 y)); cbn; lia|]. apply put_outside; cbn; lia.
Qed.

(** ** The arguments on the stack *)

Lemma tokens_length ds s : ∀ v, (length (tokens_from ds v s) ≤ length v + length s)%nat.
Proof.
  induction s as [|c s IH]; intros v; cbn [tokens_from length]; [destruct v; cbn; lia|].
  case_bool_decide.
  - rewrite length_app. specialize (IH []). cbn in IH. destruct v; cbn; lia.
  - specialize (IH (v ++ [c])). rewrite length_app in IH. cbn in IH. lia.
Qed.

Section args.
(** [m0] is the memory before, [c] the address of the copy of the command
    line at the end of the page, and [top] the offset of the null word that
    ends [argv]. *)
Context (space kpage upage c top : Z) (m0 : store).
Hypotheses (Hkp : 0 < kpage) (Hkp2 : kpage + 4096 < 2 ^ 32) (Htop : 0 ≤ top) (Hc : kpage + top + 4 ≤ c).
Hypothesis Hspace : disjoint_regions kpage 4096 space 2.

Definition user_addr (t : Z) : Z := u32 (upage + (t - kpage)).

(** [pushed] are the arguments on the stack, [toks] those found so far, each
    with its address, and [rest] is the string at [save] still to be
    split. *)
Record stack (m : store) (ofs : Z) (pushed toks : list (Z * list Z)) (save : Z) (rest : list Z) : Prop := {
  st_out : outside kpage 4096 m0 m;
  st_map : mapped m kpage 4096;
  st_ofs : ofs = top - 4 * Z.of_nat (length pushed) ∧ 0 ≤ ofs;
  st_words : words_at m (kpage + ofs) (rev (map (user_addr ∘ fst) pushed) ++ [0]);
  st_toks t w : (t, w) ∈ toks → cstr m t w ∧ c ≤ t ∧ t + Z.of_nat (length w) ≤ save;
  st_rest : cstr m save rest ∧ c ≤ save ∧ save + Z.of_nat (length rest) + 1 = kpage + 4096;
  st_space : cstr m space [32];
}.

Lemma strtok_step m ofs pushed toks save rest start saved :
  stack m ofs pushed toks save rest → save = (if start =? 0 then saved else start) →
  match tokens [32] rest with
  | [] => ∃ save', strtok_r m start space saved = Ok (m, save', 0)
  | w :: ws => ∃ m' save' t rest', strtok_r m start space saved = Ok (m', save', t) ∧ t ≠ 0 ∧
      stack m' ofs pushed (toks ++ [(t, w)]) save' rest' ∧ tokens [32] rest' = ws
  end.
Proof using Hkp Hkp2 Htop Hc Hspace.
  intros [S1 S2 S3 S4 S5 (S6 & S7 & S8) S9] Hstart.
  pose proof (strtok_r_spec m start saved save rest space [32] Hstart S6 S9) as Hspec.
  destruct (tokens [32] rest) as [|w ws].
  { eexists. apply Hspec. destruct Hspace; [left|right]; cbn; lia. }
  destruct Hspec as (m' & save' & t & rest' & Hok & Hw & Ht & Hr & Hws & H1 & H2 & H3 & Hm).
  { destruct Hspace; [left|right]; cbn; lia. }
  exists m', save', t, rest'. split; [done|]. split; [lia|]. split; [|done].
  assert (∃ j, save < j ∧ j < kpage + 4096 ∧ outside j 1 m m' ∧ (∀ k, is_Some (m !! k) → is_Some (m' !! k)))
    as (j & Hj1 & Hj2 & Hout & Hmap).
  { assert (0 < length w)%nat by (destruct w; [done|cbn; lia]).
    destruct Hm as [[-> _]|[-> Hlt]]; [exists (save + 1)|exists (t + Z.of_nat (length w))].
    - split_and!; [lia..|done|done].
    - split_and!; [lia|lia| |].
      + intros k Hk. rewrite lookup_insert_ne by lia. done.
      + intros k Hk. destruct (decide (t + Z.of_nat (length w) = k)) as [->|];
          [rewrite lookup_insert_eq; by eexists|by rewrite lookup_insert_ne]. }
  split; try done.
  - eapply outside_trans; [exact S1|]. apply (outside_mono _ _ _ _ _ _ Hout); lia.
  - intros k Hk. by apply Hmap, S2.
  - apply (words_at_outside m _ j 1); [done..|]. rewrite length_app, length_rev, length_map. cbn. lia.
  - intros t' w' Hin. rewrite elem_of_app, list_elem_of_singleton in Hin. destruct Hin as [Hin|[= -> ->]].
    + destruct (S5 t' w' Hin) as (T1 & T2 & T3). split_and!; [|lia..].
      apply (cstr_outside m _ j 1); [done..|]. lia.
    + split_and!; [done|lia..].
  - split_and!; [done|lia..].
  - apply (cstr_outside m _ j 1); [done..|]. destruct Hspace; cbn; lia.
Qed.

Lemma push_word_eq m ofs v : 0 ≤ ofs ≤ 4096 → mapped m kpage 4096 →
  push_word m kpage ofs v =
  Ok (if ofs <? 4 then (m, ofs, 0) else (put m (kpage + ofs - 4) (le32 v), ofs - 4, kpage + ofs - 4)).
Proof using Hkp Hkp2.
  intros Ho Hm. unfold push_word, push. change (ROUND_UP 4 4) with 4.
  destruct (Z.ltb_spec ofs 4); [done|]. replace (kpage + (ofs - 4) + (4 - 4)) with (kpage + ofs - 4) by lia.
  rewrite wr_bytes_spec; [done|repeat split; cbn; lia| |apply le32_u8]. intros k Hk. apply Hm. cbn in Hk. lia.
Qed.

(** Storing a word below the stack. *)
Lemma below_stack m ofs pushed toks save rest v : stack m ofs pushed toks save rest → 4 ≤ ofs →
  let m' := put m (kpage + ofs - 4) (le32 v) in
  outside kpage 4096 m0 m' ∧ mapped m' kpage 4096 ∧ outside (kpage + ofs - 4) 4 m m' ∧
  words_at m' (kpage + ofs - 4) (v :: rev (map (user_addr ∘ fst) pushed) ++ [0]) ∧
  (∀ t w, (t, w) ∈ toks → cstr m' t w).
Proof using Hkp Hkp2 Htop Hc.
  clear Hspace. intros [S1 S2 [S3 _] S4 S5 (_ & S7 & S8) _] H4 m'.
  assert (outside (kpage + ofs - 4) 4 m m') as Ho by (apply put_outside; cbn; lia).
  split_and!.
  - eapply outside_trans; [exact S1|]. apply (outside_mono _ _ _ _ _ _ Ho); lia.
  - by apply put_mapped.
  - done.
  - apply words_at_cons; [apply bytes_at_put|]. replace (kpage + ofs - 4 + 4) with (kpage + ofs) by lia.
    apply (words_at_outside m _ (kpage + ofs - 4) 4); [done..|]. lia.
  - intros t w Hin. destruct (S5 t w Hin) as (T1 & T2 & _). apply (cstr_outside m _ (kpage + ofs - 4) 4); [done..|]. lia.
Qed.

Lemma push_step m ofs pushed t w save rest : stack m ofs pushed (pushed ++ [(t, w)]) save rest → 4 ≤ ofs →
  push_word m kpage ofs (user_addr t) =
    Ok (put m (kpage + ofs - 4) (le32 (user_addr t)), ofs - 4, kpage + ofs - 4) ∧
  stack (put m (kpage + ofs - 4) (le32 (user_addr t))) (ofs - 4)
    (pushed ++ [(t, w)]) (pushed ++ [(t, w)]) save rest.
Proof using Hkp Hkp2 Htop Hc Hspace.
  intros Hst H4. pose proof Hst as [S1 S2 [S3 S3'] S4 S5 (S6 & S7 & S8) S9]. split.
  { rewrite push_word_eq by (done || lia). by rewrite (proj2 (Z.ltb_ge ofs 4)). }
  destruct (below_stack m ofs pushed _ save rest (user_addr t) Hst H4) as (B1 & B2 & B3 & B4 & B5).
  split; try done.
  - rewrite length_app. cbn. lia.
  - rewrite map_app, rev_app_distr. replace (kpage + (ofs - 4)) with (kpage + ofs - 4) by lia. exact B4.
  - intros t' w' Hin. destruct (S5 t' w' Hin) as (_ & T2 & T3). split_and!; [by apply B5|done..].
  - split_and!; [|done..]. apply (cstr_outside m _ (kpage + ofs - 4) 4); [done..|]. lia.
  - apply (cstr_outside m _ (kpage + ofs - 4) 4); [done..|]. destruct Hspace; cbn; lia.
Qed.

(** The loop pushes all arguments, or stops when the page is full. *)
Lemma push_args_spec m s : stack m top [] [] c s →
  ∃ r, push_args space m kpage upage top c = Ok r ∧
    let ws := tokens [32] s in
    match r with
    | None => top < 4 * Z.of_nat (length ws)
    | Some (m', ofs, argc) => ∃ toks save rest, stack m' ofs toks toks save rest ∧
        map snd toks = ws ∧ argc = Z.of_nat (length ws)
    end.
Proof using Hkp Hkp2 Htop Hc Hspace.
  intros Hst. set (ws := tokens [32] s). unfold push_args.
  set (I := λ (k : nat) '(m', ofs, argc, save, karg),
    ∃ pushed rest, argc = Z.of_nat (length pushed) ∧ (length pushed + k = length ws)%nat ∧
      ((karg = 0 ∧ k = 0%nat ∧ map snd pushed = ws ∧ ∃ save, stack m' ofs pushed pushed save rest) ∨
       (karg ≠ 0 ∧ ∃ w, stack m' ofs pushed (pushed ++ [(karg, w)]) save rest ∧
          map snd pushed ++ w :: tokens [32] rest = ws))).
  assert (∃ m1 save karg, strtok_r m c space 0 = Ok (m1, save, karg) ∧
    I (length ws) (m1, top, 0, save, karg)) as (m1 & save1 & karg1 & -> & HI).
  { pose proof (strtok_step m top [] [] c s c 0 Hst) as H.
    rewrite (proj2 (Z.eqb_neq c 0)) in H by lia. specialize (H eq_refl). fold ws in H.
    destruct ws as [|w ws'] eqn:Ews.
    - destruct H as [save' H]. rewrite H. eexists _, _, _. split; [done|]. exists [], s.
      split_and!; try done. left. split_and!; try done. by exists c.
    - destruct H as (m' & save' & t & rest' & H1 & H2 & H3 & H4). exists m', save', t. split; [done|].
      exists [], rest'. split_and!; try done. right. split; [done|]. exists w. split; [done|]. cbn. by rewrite H4. }
  cbn [mbind res_bind]. eapply (loop_total I); [|exact HI|].
  - clear m1 save1 karg1 HI m Hst. intros k [[[[m ofs] argc] save] karg] (pushed & rest & -> & Hk & Hcase).
    destruct Hcase as [(-> & -> & Hws & save' & Hst)|(Hkarg & w & Hst & Hws)].
    { eexists. split; [done|]. cbn. exists pushed, save', rest. split_and!; try done.
      rewrite <- Hws, length_map. done. }
    rewrite (proj2 (Z.eqb_neq karg 0)) by done. cbn [negb]. fold (user_addr karg).
    assert (length ws = length pushed + S (length (tokens [32%Z] rest)))%nat as Hlen
      by (rewrite <- Hws, length_app, length_map; done).
    destruct (Z.lt_ge_cases ofs 4) as [Hlt|Hge].
    { rewrite push_word_eq by (try apply Hst; destruct (st_ofs _ _ _ _ _ _ Hst); lia).
      rewrite (proj2 (Z.ltb_lt ofs 4)) by done. cbn. eexists. split; [done|]. cbn.
      destruct (st_ofs _ _ _ _ _ _ Hst). lia. }
    destruct (push_step m ofs pushed karg w save rest Hst Hge) as [-> Hst']. cbn [mbind res_bind].
    rewrite (proj2 (Z.eqb_neq (kpage + ofs - 4) 0)) by lia.
    pose proof (strtok_step _ _ _ _ _ _ 0 save Hst' eq_refl) as H.
    destruct (tokens [32] rest) as [|w' ws'] eqn:Ews.
    + destruct H as [save' ->]. cbn. eexists. split; [done|]. cbn. exists 0%nat. cbn in Hlen. split; [lia|].
      exists (pushed ++ [(karg, w)]), rest. rewrite length_app. cbn [length]. split_and!; [lia..|]. left.
      split_and!; try done; [|by exists save]. by rewrite map_app.
    + destruct H as (m' & save' & t & rest' & -> & H2 & H3 & H4). cbn. eexists. split; [done|]. cbn.
      cbn [length] in Hlen. exists (pred k). split; [lia|]. exists (pushed ++ [(karg, w)]), rest'.
      rewrite length_app. cbn [length]. split_and!; [lia..|]. right. split; [done|]. exists w'.
      split; [done|]. rewrite map_app, H4, <- app_assoc. exact Hws.
  - pose proof (tokens_length [32] s []) as Hl. fold (tokens [32] s) in Hl. fold ws in Hl. cbn in Hl.
    destruct (st_rest _ _ _ _ _ _ Hst) as (_ & _ & ?). change (Z.to_nat PGSIZE) with 4096%nat. lia.
Qed.
End args.

(** ** The whole page *)

Lemma ROUND_UP_4 n : 0 ≤ n < 2 ^ 31 → ROUND_UP n 4 = (n + 3) / 4 * 4.
Proof.
  intros Hn. unfold ROUND_UP, DIV_ROUND_UP. rewrite (u32_small (n + 4)) by (split; lia).
  rewrite (u32_small (n + 4 - 1)) by (split; lia). replace (n + 4 - 1) with (n + 3) by lia.
  apply u32_small. split; [|c_unfold]; Z.div_mod_to_equations; lia.
Qed.

(** The three words below [argv]. *)
Lemma push_frame kpage upage m ofs argc argv l : 0 < kpage → kpage + 4096 < 2 ^ 32 →
  0 ≤ ofs ≤ 4096 → mapped m kpage 4096 → words_at m (kpage + ofs) l →
  ∃ m', ('(m, ofs, p) ← push_word m kpage ofs argv;
         if p =? 0 then Ok None else
         '(m, ofs, p) ← push_word m kpage ofs argc;
         if p =? 0 then Ok None else
         '(m, ofs, p) ← push_word m kpage ofs 0;
         if p =? 0 then Ok None else
         Ok (Some (m, u32 (upage + ofs)))) =
        Ok (if ofs <? 12 then None else Some (m', u32 (upage + (ofs - 12)))) ∧
    (12 ≤ ofs → words_at m' (kpage + ofs - 12) (0 :: argc :: argv :: l) ∧
       outside (kpage + ofs - 12) 12 m m').
Proof.
  intros Hk Hk2 Ho Hm Hw.
  set (m1 := put m (kpage + ofs - 4) (le32 argv)). set (m2 := put m1 (kpage + ofs - 8) (le32 argc)).
  set (m3 := put m2 (kpage + ofs - 12) (le32 0)).
  assert (mapped m1 kpage 4096) as Hm1 by by apply put_mapped.
  assert (mapped m2 kpage 4096) as Hm2 by by apply put_mapped.
  exists m3. split.
  - rewrite push_word_eq by done. destruct (Z.ltb_spec ofs 4).
    { cbn [mbind res_bind]. by rewrite (proj2 (Z.ltb_lt ofs 12)) by lia. }
    cbn [mbind res_bind]. rewrite (proj2 (Z.eqb_neq _ 0)) by lia. fold m1.
    rewrite push_word_eq by (done || lia). destruct (Z.ltb_spec (ofs - 4) 4).
    { cbn [mbind res_bind]. by rewrite (proj2 (Z.ltb_lt ofs 12)) by lia. }
    cbn [mbind res_bind]. replace (kpage + (ofs - 4) - 4) with (kpage + ofs - 8) by lia.
    rewrite (proj2 (Z.eqb_neq _ 0)) by lia. fold m2.
    rewrite push_word_eq by (done || lia). destruct (Z.ltb_spec (ofs - 4 - 4) 4).
    { cbn [mbind res_bind]. by rewrite (proj2 (Z.ltb_lt ofs 12)) by lia. }
    cbn [mbind res_bind]. replace (kpage + (ofs - 4 - 4) - 4) with (kpage + ofs - 12) by lia.
    rewrite (proj2 (Z.eqb_neq _ 0)), (proj2 (Z.ltb_ge ofs 12)) by lia. fold m3.
    do 4 f_equal. lia.
  - intros H12.
    assert (outside (kpage + ofs - 4) 4 m m1) as O1 by (apply put_outside; cbn; lia).
    assert (outside (kpage + ofs - 8) 4 m1 m2) as O2 by (apply put_outside; cbn; lia).
    assert (outside (kpage + ofs - 12) 4 m2 m3) as O3 by (apply put_outside; cbn; lia).
    split.
    + apply words_at_cons; [apply bytes_at_put|]. replace (kpage + ofs - 12 + 4) with (kpage + ofs - 8) by lia.
      apply (words_at_outside m2 _ (kpage + ofs - 12) 4); [done| |lia].
      apply words_at_cons; [apply bytes_at_put|]. replace (kpage + ofs - 8 + 4) with (kpage + ofs - 4) by lia.
      apply (words_at_outside m1 _ (kpage + ofs - 8) 4); [done| |lia].
      apply words_at_cons; [apply bytes_at_put|]. replace (kpage + ofs - 4 + 4) with (kpage + ofs) by lia.
      apply (words_at_outside m _ (kpage + ofs - 4) 4); [done..|lia].
    + eapply outside_trans; [apply (outside_mono _ _ _ _ _ _ O1); lia|].
      eapply outside_trans; [apply (outside_mono _ _ _ _ _ _ O2); lia|].
      apply (outside_mono _ _ _ _ _ _ O3); lia.
Qed.

(** The bytes that the command line [s] needs on the stack. *)
Definition stack_bytes (s : list Z) : Z :=
  (Z.of_nat (length s) + 4) / 4 * 4 + 4 + 4 * Z.of_nat (length (tokens [32] s)) + 12.

(** The stack of a process started with the arguments [ws], from the word at
    the kernel address [a], which is [esp] for the process: a return address,
    [argc], [argv], the elements of [argv] and a null pointer. *)
Definition process_stack (m : store) (kpage upage a : Z) (ws : list (list Z)) : Prop :=
  ∃ addrs, words_at m a
      ([0; Z.of_nat (length ws); upage + (a - kpage) + 12]
         ++ map (λ t, upage + (t - kpage)) addrs ++ [0]) ∧
    Forall2 (λ t w, cstr m t w ∧ kpage ≤ t ∧ t + Z.of_nat (length w) < kpage + 4096) addrs ws.

Section page.
Context (space kpage upage cmd_line : Z) (m : store) (s : list Z).
Hypotheses (Hkp : 0 < kpage) (Hkp2 : kpage + 4096 < 2 ^ 32) (Hup : 0 ≤ upage) (Hup2 : upage + 4096 < 2 ^ 32).
Hypotheses (Hm : mapped m kpage 4096) (Hs : cstr m cmd_line s) (Hlen : Z.of_nat (length s) < 2 ^ 31 - 8)
  (Hd : disjoint_regions kpage 4096 cmd_line (Z.of_nat (length s) + 1))
  (Hsp : cstr m space [32]) (Hspd : disjoint_regions kpage 4096 space 2).

(** Its first two words. *)
Lemma stack_start : let pad := (Z.of_nat (length s) + 4) / 4 * 4 in
  let c := kpage + 4096 - (Z.of_nat (length s) + 1) in
  let m1 := put m c (s ++ [0]) in
  let m2 := put m1 (kpage + (4096 - pad) - 4) (le32 0) in
  push m kpage PGSIZE (At cmd_line) (u32 (Z.of_nat (length s) + 1)) =
    Ok (if 4096 <? pad then (m, 4096, 0) else (m1, 4096 - pad, c)) ∧
  (pad ≤ 4092 →
   push_word m1 kpage (4096 - pad) 0 = Ok (m2, 4096 - pad - 4, kpage + (4096 - pad) - 4) ∧
   stack space kpage upage c (4096 - pad - 4) m m2 (4096 - pad - 4) [] [] c s).
Proof using Hkp Hkp2 Hm Hs Hlen Hd Hsp Hspd.
  cbv zeta. set (n := Z.of_nat (length s) + 1).
  assert (n = Z.of_nat (length (s ++ [0]))) as En by (rewrite length_app; cbn; lia).
  replace (Z.of_nat (length s) + 4) with (n + 3) by lia. set (pad := (n + 3) / 4 * 4).
  assert (n ≤ pad < n + 4) as Hpad by (unfold pad; Z.div_mod_to_equations; lia).
  assert (Forall (λ c, 0 < c < 256) s) as H8 by apply Hs.
  split.
  - rewrite u32_small by (split; lia). unfold push. change PGSIZE with 4096.
    rewrite ROUND_UP_4 by lia. fold pad. destruct (Z.ltb_spec 4096 pad); [done|].
    replace (kpage + (4096 - pad) + (pad - n)) with (kpage + 4096 - n) by lia.
    rewrite En at 2. rewrite memcpy_spec; rewrite <- ?En.
    + done.
    + repeat split; lia.
    + destruct Hs as (Hr & _). exact Hr.
    + destruct Hd; [left|right]; lia.
    + apply Forall_app. split; [eapply cstr_u8, Hs|]. repeat constructor; c_unfold; lia.
    + apply Hs.
    + intros k Hk. apply Hm. lia.
  - intros Hle. set (c := kpage + 4096 - n). set (m1 := put m c (s ++ [0])).
    assert (mapped m1 kpage 4096) as Hm1 by by apply put_mapped.
    assert (outside c n m m1) as O1 by (apply put_outside; lia).
    split.
    { rewrite push_word_eq by (done || lia). by rewrite (proj2 (Z.ltb_ge _ 4)) by lia. }
    set (m2 := put m1 _ (le32 0)).
    assert (outside (kpage + (4096 - pad) - 4) 4 m1 m2) as O2 by (apply put_outside; cbn; lia).
    split.
    + eapply outside_trans; [apply (outside_mono _ _ _ _ _ _ O1); lia|]. apply (outside_mono _ _ _ _ _ _ O2); lia.
    + by apply put_mapped.
    + cbn. lia.
    + apply words_at_cons; [|apply words_at_nil].
      replace (kpage + (4096 - pad - 4)) with (kpage + (4096 - pad) - 4) by lia. apply bytes_at_put.
    + intros t w Hin. elems.
    + split_and!; [|lia|lia]. apply (cstr_outside m1 _ (kpage + (4096 - pad) - 4) 4); [done| |lia].
      apply cstr_put; [done|]. repeat split; lia.
    + apply (cstr_outside m1 _ (kpage + (4096 - pad) - 4) 4); [done| |destruct Hspd; cbn; lia].
      apply (cstr_outside m _ c n); [done..|]. destruct Hspd; cbn; lia.
Qed.

(** From the pushed words to the end. *)
Lemma finish_stack m3 c top ofs toks save rest : kpage + top + 4 ≤ c → top ≤ 4096 →
  stack space kpage upage c top m m3 ofs toks toks save rest →
  map snd toks = tokens [32] s →
  let argc := Z.of_nat (length (tokens [32] s)) in
  ∃ m', (m ← reverse m3 argc (kpage + ofs);
         '(m, ofs, p) ← push_word m kpage ofs (u32 (upage + ofs));
         if p =? 0 then Ok None else
         '(m, ofs, p) ← push_word m kpage ofs argc;
         if p =? 0 then Ok None else
         '(m, ofs, p) ← push_word m kpage ofs 0;
         if p =? 0 then Ok None else
         Ok (Some (m, u32 (upage + ofs)))) =
        Ok (if ofs <? 12 then None else Some (m', upage + (ofs - 12))) ∧
    (12 ≤ ofs → outside kpage 4096 m m' ∧
       process_stack m' kpage upage (kpage + (ofs - 12)) (tokens [32] s)).
Proof using Hkp Hkp2 Hup Hup2.
  intros Hc Htop [S1 S2 [S3 S3'] S4 S5 (S6 & S7 & S8) S9] Hws argc.
  assert (argc = Z.of_nat (length toks)) as -> by (unfold argc; rewrite <- Hws; by rewrite length_map).
  set (uas := map (user_addr kpage upage ∘ fst) toks) in *.
  assert (length uas = length toks) as Hlu by apply length_map.
  destruct (proj1 (words_at_app _ _ _ _) S4) as [W1 W2]. rewrite length_rev in W2.
  destruct (reverse_spec (rev uas) (S (Z.to_nat (Z.of_nat (length toks)))) m3 (kpage + ofs)) as (m4 & Hrev & W4 & O4).
  { rewrite length_rev. lia. } { rewrite length_rev. repeat split; lia. }
  { apply Forall_rev, Forall_map. apply Forall_forall. intros x _. apply u32_range. } { done. }
  rewrite length_rev, rev_involutive, Hlu in *.
  unfold reverse. rewrite Hrev. cbn [mbind res_bind].
  assert (mapped m4 kpage 4096) as Hm4.
  { apply (mapped_outside m3 _ _ _ _ _ O4); [done|]. rewrite <- Hlu. by apply words_mapped. }
  assert (words_at m4 (kpage + ofs) (uas ++ [0])) as W5.
  { apply words_at_app. split; [done|]. rewrite Hlu. apply (words_at_outside m3 _ _ _ _ _ O4); [done|lia]. }
  destruct (push_frame kpage upage m4 ofs (Z.of_nat (length toks)) (u32 (upage + ofs)) (uas ++ [0]))
    as (m5 & -> & Hm5); [lia|lia|lia|done|done|].
  exists m5. destruct (Z.ltb_spec ofs 12) as [|Hfit]; [by split; [|lia]|].
  destruct (Hm5 Hfit) as [W6 O6]. rewrite u32_small by (split; lia). split; [done|]. intros _. split.
  { eapply outside_trans; [exact S1|]. eapply outside_trans; [apply (outside_mono _ _ _ _ _ _ O4); lia|].
    apply (outside_mono _ _ _ _ _ _ O6); lia. }
  assert (∀ t w, (t, w) ∈ toks → cstr m5 t w ∧ kpage ≤ t ∧ t + Z.of_nat (length w) < kpage + 4096) as Ht.
  { intros t w Hin. destruct (S5 t w Hin) as (T1 & T2 & T3). split; [|lia].
    apply (cstr_outside m4 _ _ _ _ _ O6); [|lia]. apply (cstr_outside m3 _ _ _ _ _ O4); [done|lia]. }
  exists (map fst toks). rewrite <- Hws, length_map. split.
  - replace (kpage + (ofs - 12)) with (kpage + ofs - 12) by lia.
    replace (upage + (kpage + ofs - 12 - kpage) + 12) with (u32 (upage + ofs)) by (rewrite u32_small; [|split]; lia).
    replace (map (λ t, upage + (t - kpage)) (map fst toks)) with uas; [exact W6|].
    unfold uas. rewrite map_map. apply map_ext_in. intros [t w] Hin. cbn. unfold user_addr.
    apply list_elem_of_In in Hin. destruct (Ht t w Hin) as (_ & T2 & T3). apply u32_small. split; lia.
  - clear -Ht. induction toks as [|[t w] toks IH]; constructor; [apply Ht; left|].
    apply IH. intros t' w' Hin. apply Ht. by right.
Qed.

Lemma init_cmd_line_spec :
  if stack_bytes s <=? 4096 then
    ∃ m', init_cmd_line space m kpage upage cmd_line = Ok (Some (m', upage + (4096 - stack_bytes s))) ∧
      outside kpage 4096 m m' ∧
      process_stack m' kpage upage (kpage + (4096 - stack_bytes s)) (tokens [32] s)
  else init_cmd_line space m kpage upage cmd_line = Ok None.
Proof using All.
  unfold init_cmd_line. rewrite (strlen_spec _ _ _ Hs). cbn [mbind res_bind].
  destruct stack_start as [Hp1 Hp2]. set (pad := (Z.of_nat (length s) + 4) / 4 * 4) in *.
  set (c := kpage + 4096 - _) in *. set (m1 := put m c _) in *. rewrite Hp1.
  set (argc := Z.of_nat (length (tokens [32] s))).
  assert (stack_bytes s = pad + 16 + 4 * argc) as Hneed by (unfold stack_bytes, argc; fold pad; lia).
  assert (Z.of_nat (length s) + 1 ≤ pad) as Hpad by (unfold pad; Z.div_mod_to_equations; lia).
  rewrite Hneed. destruct (Z.ltb_spec 4096 pad) as [Hbig|Hfit]; cbn [mbind res_bind].
  { by rewrite (proj2 (Z.leb_gt _ _)) by lia. }
  rewrite (proj2 (Z.eqb_neq c 0)) by lia.
  destruct (Z.lt_ge_cases (4096 - pad) 4) as [Hbig|Hfit2].
  { rewrite push_word_eq by first [lia|by apply put_mapped]. rewrite (proj2 (Z.ltb_lt _ 4)) by done.
    cbn [mbind res_bind]. by rewrite (proj2 (Z.leb_gt _ _)) by lia. }
  destruct Hp2 as [-> Hst]; [lia|]. cbn [mbind res_bind]. rewrite (proj2 (Z.eqb_neq _ 0)) by lia.
  destruct (push_args_spec space kpage upage c (4096 - pad - 4) m Hkp Hkp2 ltac:(lia) ltac:(lia) Hspd _ s Hst)
    as (r & -> & Hr). cbn [mbind res_bind]. destruct r as [[[m3 ofs] argc']|]; cbv zeta in Hr.
  2:{ fold argc in Hr. by rewrite (proj2 (Z.leb_gt _ _)) by lia. }
  destruct Hr as (toks & save & rest & Hst3 & Hws & ->).
  assert (argc = Z.of_nat (length toks)) as Hlt by (unfold argc; rewrite <- Hws; by rewrite length_map).
  destruct (st_ofs _ _ _ _ _ _ _ _ _ _ _ _ Hst3) as [Hofs _].
  destruct (finish_stack m3 c (4096 - pad - 4) ofs toks save rest ltac:(lia) ltac:(lia) Hst3 Hws) as (m' & -> & Hm').
  destruct (Z.ltb_spec ofs 12) as [Hbig|Hfit3].
  { by rewrite (proj2 (Z.leb_gt _ _)) by lia. }
  rewrite (proj2 (Z.leb_le _ _)) by lia. exists m'.
  replace (4096 - (pad + 16 + 4 * argc)) with (ofs - 12) by lia. split; [done|]. by apply Hm'.
Qed.
End page.

(** [init_cmd_line] builds the stack of a new process.  Let [s] be the
    command line and [tokens [32] s] its words, that is, the maximal runs of
    characters other than a space.  When the words, the pointers to them and
    the frame fit in the page, the process finds at its stack pointer a return
    address of 0, [argc], [argv], and then [argc] pointers, in the order of the
    command line and as the process sees the page, to null-terminated copies
    of the words, and a null pointer; nothing outside the page has changed.
    When they do not fit, and only then, the result is a failure. *)
Theorem init_cmd_line_correct (space kpage upage cmd_line : Z) (m : store) (s : list Z) :
  0 < kpage → kpage + 4096 < 2 ^ 32 → 0 ≤ upage → upage + 4096 < 2 ^ 32 →
  mapped m kpage 4096 → cstr m cmd_line s → Z.of_nat (length s) < 2 ^ 31 - 8 →
  disjoint_regions kpage 4096 cmd_line (Z.of_nat (length s) + 1) →
  cstr m space [32] → disjoint_regions kpage 4096 space 2 →
  if stack_bytes s <=? 4096 then
    ∃ m', init_cmd_line space m kpage upage cmd_line = Ok (Some (m', upage + (4096 - stack_bytes s))) ∧
      outside kpage 4096 m m' ∧
      process_stack m' kpage upage (kpage + (4096 - stack_bytes s)) (tokens [32] s)
  else init_cmd_line space m kpage upage cmd_line = Ok None.
Proof. apply init_cmd_line_spec. Qed.

(** [echo  x] in the page at 8192. *)
Definition demo_line : list Z := [101; 99; 104; 111; 32; 32; 120].
Definition demo_strings (m : store) : store := put (put m 100 (demo_line ++ [0])) 200 [32; 0].
Definition demo_cmd : store := demo_strings (put ∅ 8192 (replicate (Z.to_nat 4096) 0)).

Lemma demo_strings_spec m n : mapped (put m 8192 (replicate n 0)) 8192 (Z.of_nat n) ∧
  cstr (demo_strings m) 100 demo_line ∧ cstr (demo_strings m) 200 [32].
Proof.
  split_and!.
  - intros k Hk. pose proof (bytes_at_put m 8192 (replicate n 0) (Z.to_nat (k - 8192)) 0) as H.
    replace (8192 + Z.of_nat (Z.to_nat (k - 8192))) with k in H by lia.
    rewrite H; [by eexists|]. apply lookup_replicate_2. lia.
  - apply (cstr_outside (put m 100 (demo_line ++ [0])) _ 200 2).
    + apply put_outside; cbn; lia.
    + apply cstr_put; [repeat constructor; lia|cbn; repeat split; lia].
    + cbn. lia.
  - apply cstr_put; [repeat constructor; lia|cbn; repeat split; lia].
Qed.

Lemma demo_page : mapped demo_cmd 8192 4096.
Proof.
  unfold demo_cmd, demo_strings. do 2 apply put_mapped.
  pose proof (proj1 (demo_strings_spec ∅ (Z.to_nat 4096))) as H. by rewrite Z2Nat.id in H.
Qed.

Lemma init_cmd_line_witness :
  ∃ m', init_cmd_line 200 demo_cmd 8192 3221221376 100 = Ok (Some (m', 3221225472 - 32)) ∧
    outside 8192 4096 demo_cmd m' ∧
    process_stack m' 8192 3221221376 (12288 - 32) [[101; 99; 104; 111]; [120]].
Proof.
  assert (stack_bytes demo_line = 32) as E by reflexivity.
  assert (tokens [32] demo_line = [[101; 99; 104; 111]; [120]]) as E2 by reflexivity.
  rewrite <- E2, <- E. destruct (demo_strings_spec (put ∅ 8192 (replicate (Z.to_nat 4096) 0)) 0) as (_ & D1 & D2).
  assert (3221225472 - stack_bytes demo_line = 3221221376 + (4096 - stack_bytes demo_line)) as -> by lia.
  assert (12288 - stack_bytes demo_line = 8192 + (4096 - stack_bytes demo_line)) as -> by lia.
  apply (init_cmd_line_correct 200 8192 3221221376 100 demo_cmd demo_line);
    [lia|lia|lia|lia|exact demo_page|exact D1|cbn; lia|right; cbn; lia|exact D2|right; cbn; lia].
Defined.
