(* ===== verification/Lcs.v ===== *)
(** * project4: the longest common substring of two lines

    [lcs_dynamic] fills a table of the lengths of the common suffixes of the
    prefixes of two strings, and copies the longest common substring out.  The
    strings are lists of bytes; a load beyond a string, a load of a cell of the
    table that was never stored to, and a store beyond an object are faults.
    The programs are compiled for a host where [unsigned long], the programs'
    [uint32], is 64 bits wide; [cell_bits] is the width of a cell of the
    table. *)

From S2P Require Import Prelude.

(** ** The code *)

Definition load (s : list Z) (i : Z) : res Z :=
  if i <? 0 then Err EFault else deref (s !! Z.to_nat i).

Definition store (s : list Z) (i v : Z) : res (list Z) :=
  if (0 <=? i) && (i <? Z.of_nat (length s)) then Ok (<[Z.to_nat i := v]> s) else Err EFault.

Section code.
(** [malloc] fails or not; [-1] stands for the array of rows. *)
Context (cell_bits : Z) (malloc_ok : Z → bool).

Section table.
Context (a_size b_size : Z).

(** The cells that hold a value. *)
Definition get (t : gmap (Z * Z) Z) (i j : Z) : res Z :=
  if malloc_ok i then deref (t !! (i, j)) else Err EFault.

Definition set (t : gmap (Z * Z) Z) (i j v : Z) : res (gmap (Z * Z) Z) :=
  if malloc_ok i && (0 <=? i) && (i <? a_size) && (0 <=? j) && (j <? b_size)
  then Ok (<[(i, j) := wrap cell_bits v]> t) else Err EFault.

(** The body of the two loops; the state is the table, [a_idx_max],
    [b_idx_max] and [max_length]. *)
Definition compare (a b : list Z) (a_idx b_idx : Z) (s : gmap (Z * Z) Z * Z * Z * Z)
    : res (gmap (Z * Z) Z * Z * Z * Z) :=
  let '(t, a_idx_max, b_idx_max, max_length) := s in
  x ← load a a_idx;
  y ← load b b_idx;
  if x =? y then
    t ← (if (a_idx =? 0) || (b_idx =? 0) then set t a_idx b_idx 1
         else v ← get t (a_idx - 1) (b_idx - 1); set t a_idx b_idx (v + 1));
    v ← get t a_idx b_idx;
    if max_length <? v then Ok (t, a_idx, b_idx, v)
    else Ok (t, a_idx_max, b_idx_max, max_length)
  else
    t ← set t a_idx b_idx 0;
    Ok (t, a_idx_max, b_idx_max, max_length).
End table.

(** The result is the buffer [ret] and the length. *)
Definition lcs_dynamic (ret a : list Z) (a_size : Z) (b : list Z) (b_size : Z) : res (list Z * Z) :=
  _ ← for_up (Z.to_nat a_size) 0 (λ _ _, if malloc_ok (-1) then Ok tt else Err EFault) tt;
  '(_, a_idx_max, _, max_length) ←
    for_up (Z.to_nat a_size) 0 (λ a_idx,
      for_up (Z.to_nat b_size) 0 (compare a_size b_size a b a_idx)) (∅, 0, 0, 0);
  ret ← for_up (Z.to_nat max_length) 0 (λ i ret,
    c ← load a (u64 (a_idx_max - max_length + i + 1));
    store ret i c) ret;
  ret ← store ret max_length 0;
  Ok (ret, max_length).
End code.

(** ** Common substrings *)

(** The [n] characters of [a] from [i] on are those of [b] from [j] on. *)
Definition common (a b : list Z) (i j n : nat) : Prop :=
  (i + n ≤ length a)%nat ∧ (j + n ≤ length b)%nat ∧ take n (drop i a) = take n (drop j b).

(** [w] is a longest common substring of [a] and [b]. *)
Definition substring (w a : list Z) : Prop := ∃ l r, a = l ++ w ++ r.
Definition is_lcs (a b w : list Z) : Prop :=
  substring w a ∧ substring w b ∧
  ∀ w', substring w' a → substring w' b → (length w' ≤ length w)%nat.

(** The length of the longest common suffix of the prefixes that end at [i]
    and [j]: the reference for the cells of the table. *)
Fixpoint common_suffix (a b : list Z) (i j : nat) : nat :=
  match a !! i, b !! j with
  | Some x, Some y =>
      if decide (x = y) then
        match i, j with
        | S i', S j' => S (common_suffix a b i' j')
        | _, _ => 1%nat
        end
      else 0%nat
  | _, _ => 0%nat
  end.

Lemma common_suffix_eq a b i j : common_suffix a b i j =
  match a !! i, b !! j with
  | Some x, Some y =>
      if decide (x = y) then
        if (Nat.eqb i 0 || Nat.eqb j 0)%bool then 1%nat else S (common_suffix a b (i - 1) (j - 1))
      else 0%nat
  | _, _ => 0%nat
  end.
Proof.
  destruct i as [|i], j as [|j]; cbn [common_suffix Nat.eqb orb]; try done.
  by replace (S i - 1)%nat with i by lia; replace (S j - 1)%nat with j by lia.
Qed.

Lemma common_suffix_le a b i j : (common_suffix a b i j ≤ S i)%nat ∧ (common_suffix a b i j ≤ S j)%nat.
Proof.
  revert j. induction i as [|i IH]; intros j; cbn [common_suffix].
  all: destruct (a !! _); [|lia]; destruct (b !! j); [|lia]; case_decide; [|lia].
  - lia.
  - destruct j as [|j]; [lia|]. specialize (IH j). lia.
Qed.

Lemma common_0 a b i j : (i ≤ length a)%nat → (j ≤ length b)%nat → common a b i j 0.
Proof. intros ??. split_and!; [lia|lia|by rewrite !take_0]. Qed.

Lemma common_snoc a b i j n : common a b i j (S n) ↔
  common a b i j n ∧ ∃ x, a !! (i + n)%nat = Some x ∧ b !! (j + n)%nat = Some x.
Proof.
  split.
  - intros (Ha & Hb & E).
    destruct (lookup_lt_is_Some_2 a (i + n)) as [x Hx]; [lia|].
    destruct (lookup_lt_is_Some_2 b (j + n)) as [y Hy]; [lia|].
    rewrite (take_S_r _ n x), (take_S_r _ n y) in E by (rewrite lookup_drop; done).
    apply app_inj_tail in E as [E ->]. split; [|eauto]. split_and!; [lia|lia|done].
  - intros ((Ha & Hb & E) & x & Hx & Hy).
    pose proof (lookup_lt_Some _ _ _ Hx). pose proof (lookup_lt_Some _ _ _ Hy).
    split_and!; [lia|lia|]. rewrite !(take_S_r _ n x) by (rewrite lookup_drop; done). by rewrite E.
Qed.

(** The cell at [i], [j] is a common substring that ends there, and none that
    ends there is longer. *)
Lemma common_suffix_spec a b i j : (i < length a)%nat → (j < length b)%nat →
  let n := common_suffix a b i j in common a b (S i - n) (S j - n) n.
Proof.
  revert j. induction i as [i IH] using lt_wf_ind. intros j Hi Hj. cbv zeta.
  pose proof (common_suffix_le a b i j) as Hle. rewrite common_suffix_eq in *.
  destruct (a !! i) as [x|] eqn:Hx; [|apply common_0; lia].
  destruct (b !! j) as [y|] eqn:Hy; [|apply common_0; lia].
  case_decide as E; [subst y|apply common_0; lia].
  destruct (Nat.eqb i 0 || Nat.eqb j 0) eqn:E0.
  - apply common_snoc. split; [apply common_0; lia|]. exists x.
    by replace (S i - 1 + 0)%nat with i by lia; replace (S j - 1 + 0)%nat with j by lia.
  - apply orb_false_iff in E0 as [H1%Nat.eqb_neq H2%Nat.eqb_neq].
    specialize (IH (i - 1)%nat ltac:(lia) (j - 1)%nat ltac:(lia) ltac:(lia)). cbv zeta in IH.
    set (n := common_suffix a b (i - 1) (j - 1)) in *.
    pose proof (common_suffix_le a b (i - 1) (j - 1)) as Hle'. fold n in Hle'.
    replace (S (i - 1) - n)%nat with (S i - S n)%nat in IH by lia.
    replace (S (j - 1) - n)%nat with (S j - S n)%nat in IH by lia.
    apply common_snoc. split; [done|]. exists x.
    by replace (S i - S n + n)%nat with i by lia; replace (S j - S n + n)%nat with j by lia.
Qed.

Lemma common_suffix_max a b i j n : common a b i j (S n) → (S n ≤ common_suffix a b (i + n) (j + n))%nat.
Proof.
  induction n as [|n IH]; intros [Hc (x & Hx & Hy)]%common_snoc; rewrite common_suffix_eq, Hx, Hy, decide_True by done.
  - case_match; lia.
  - destruct (Nat.eqb (i + S n) 0 || Nat.eqb (j + S n) 0) eqn:E; [apply orb_true_iff in E as [E|E];
      apply Nat.eqb_eq in E; lia|].
    replace (i + S n - 1)%nat with (i + n)%nat by lia. replace (j + S n - 1)%nat with (j + n)%nat by lia.
    specialize (IH Hc). lia.
Qed.

Lemma substring_common a b w : substring w a → substring w b → ∃ i j, common a b i j (length w).
Proof.
  intros (l & r & ->) (l' & r' & ->). exists (length l), (length l').
  unfold common. rewrite !length_app, !drop_app_length, !take_app_length. split_and!; [lia|lia|done].
Qed.

Lemma common_substring a b i j n : common a b i j n →
  let w := take n (drop i a) in substring w a ∧ substring w b ∧ length w = n.
Proof.
  intros (Ha & Hb & E) w. split_and!.
  - exists (take i a), (drop n (drop i a)). unfold w. by rewrite !take_drop.
  - exists (take j b), (drop n (drop j b)). unfold w. rewrite E. by rewrite !take_drop.
  - unfold w. rewrite length_take, length_drop. lia.
Qed.

(** ** The table *)

Lemma load_app s r i x : 0 ≤ i → s !! Z.to_nat i = Some x → load (s ++ r) i = Ok x.
Proof.
  intros Hi Hx. unfold load. rewrite (proj2 (Z.ltb_ge i 0)) by done.
  rewrite lookup_app_l by (by eapply lookup_lt_Some). by rewrite Hx.
Qed.

Lemma store_ok s i v : 0 ≤ i < Z.of_nat (length s) → store s i v = Ok (<[Z.to_nat i := v]> s).
Proof. intros ?. unfold store. by rewrite (proj2 (Z.leb_le 0 i)), (proj2 (Z.ltb_lt i _)) by lia. Qed.

Section proof.
Context (cell_bits : Z) (malloc_ok : Z → bool) (sa ra sb rb : list Z).
Let n : Z := Z.of_nat (length sa).
Let m : Z := Z.of_nat (length sb).
Context (Hmalloc : ∀ i, malloc_ok i = true) (Hcell : Z.min n m < 2 ^ cell_bits).

Definition cell (i j : Z) : Z := Z.of_nat (common_suffix sa sb (Z.to_nat i) (Z.to_nat j)).

(** The cells before [i], [j] in the order of the loops. *)
Definition seen (i j i' j' : Z) : Prop := (0 ≤ i' < i ∧ 0 ≤ j' < m) ∨ (i' = i ∧ 0 ≤ j' < j).

Record table_inv (i j : Z) (s : gmap (Z * Z) Z * Z * Z * Z) : Prop := {
  ti_cells i' j' : seen i j i' j' → s.1.1.1 !! (i', j') = Some (cell i' j');
  ti_max i' j' : seen i j i' j' → cell i' j' ≤ s.2;
  ti_at : s.2 = 0 ∨ 0 ≤ s.1.1.2 < n ∧ 0 ≤ s.1.2 < m ∧ cell s.1.1.2 s.1.2 = s.2;
}.

Lemma cell_range i j : 0 ≤ i < n → 0 ≤ j < m → 0 ≤ cell i j < 2 ^ cell_bits ∧ cell i j ≤ i + 1.
Proof using Hcell.
  intros Hi Hj. unfold cell. pose proof (common_suffix_le sa sb (Z.to_nat i) (Z.to_nat j)). lia.
Qed.

Lemma set_ok t i j v : 0 ≤ i < n → 0 ≤ j < m → v = cell i j →
  set cell_bits malloc_ok n m t i j v = Ok (<[(i, j) := cell i j]> t).
Proof using Hmalloc Hcell.
  intros Hi Hj ->. unfold set. rewrite Hmalloc.
  rewrite (proj2 (Z.leb_le 0 i)), (proj2 (Z.ltb_lt i n)), (proj2 (Z.leb_le 0 j)), (proj2 (Z.ltb_lt j m)) by lia.
  cbn [andb]. destruct (cell_range i j Hi Hj) as [Hr _]. unfold wrap. by rewrite Z.mod_small.
Qed.

Lemma get_ok t i j v : t !! (i, j) = Some v → get malloc_ok t i j = Ok v.
Proof using Hmalloc. intros E. unfold get. by rewrite Hmalloc, E. Qed.

(** One more cell. *)
Lemma seen_next i j t am bm ml t' am' bm' ml' :
  table_inv i j (t, am, bm, ml) → 0 ≤ i < n → 0 ≤ j < m →
  t' = <[(i, j) := cell i j]> t → ml' = Z.max ml (cell i j) →
  (am' = am ∧ bm' = bm ∧ cell i j ≤ ml ∨ am' = i ∧ bm' = j ∧ ml < cell i j) →
  table_inv i (j + 1) (t', am', bm', ml').
Proof.
  intros [H1 H2 H3] Hi Hj -> -> Hmax. cbn in *.
  assert (∀ i' j', seen i (j + 1) i' j' → seen i j i' j' ∨ i' = i ∧ j' = j) as Hs.
  { unfold seen. intros i' j' ?. lia. }
  split; cbn.
  - intros i' j' H'. destruct (decide ((i, j) = (i', j'))) as [[= -> ->]|Hne].
    + by rewrite lookup_insert_eq.
    + rewrite lookup_insert_ne by done. apply H1. destruct (Hs i' j' H') as [?|[-> ->]]; [done|congruence].
  - intros i' j' [H'|[-> ->]]%Hs; [|lia]. specialize (H2 i' j' H'). lia.
  - destruct Hmax as [(-> & -> & ?)|(-> & -> & ?)].
    + rewrite Z.max_l by done. done.
    + right. rewrite Z.max_r by lia. lia.
Qed.

(** What is stored in a cell. *)
Lemma cell_eq i j x y : sa !! Z.to_nat i = Some x → sb !! Z.to_nat j = Some y → 0 ≤ i → 0 ≤ j →
  cell i j = if x =? y then if (i =? 0) || (j =? 0) then 1 else cell (i - 1) (j - 1) + 1 else 0.
Proof.
  intros Hx Hy Hi Hj. unfold cell. rewrite common_suffix_eq, Hx, Hy.
  case_decide as E; [subst; rewrite Z.eqb_refl|by rewrite (proj2 (Z.eqb_neq x y))].
  destruct (Z.eqb_spec i 0) as [->|]; [done|]. destruct (Z.eqb_spec j 0) as [->|].
  { replace (Nat.eqb (Z.to_nat 0) 0) with true by done. by rewrite orb_true_r. }
  rewrite (proj2 (Nat.eqb_neq (Z.to_nat i) 0)), (proj2 (Nat.eqb_neq (Z.to_nat j) 0)) by lia.
  cbn [orb]. replace (Z.to_nat (i - 1)) with (Z.to_nat i - 1)%nat by lia.
  replace (Z.to_nat (j - 1)) with (Z.to_nat j - 1)%nat by lia. lia.
Qed.

Lemma compare_spec i j s : table_inv i j s → 0 ≤ i < n → 0 ≤ j < m →
  ∃ s', compare cell_bits malloc_ok n m (sa ++ ra) (sb ++ rb) i j s = Ok s' ∧ table_inv i (j + 1) s'.
Proof using Hmalloc Hcell.
  destruct s as [[[t am] bm] ml]. intros HI Hi Hj.
  destruct (lookup_lt_is_Some_2 sa (Z.to_nat i)) as [x Hx]; [lia|].
  destruct (lookup_lt_is_Some_2 sb (Z.to_nat j)) as [y Hy]; [lia|].
  unfold compare. rewrite (load_app sa ra i x), (load_app sb rb j y) by (done || lia). cbn [mbind res_bind].
  pose proof (cell_eq i j x y Hx Hy ltac:(lia) ltac:(lia)) as Hc. revert Hc.
  assert (∀ v, v = cell i j →
    ∃ s', (t ← set cell_bits malloc_ok n m t i j v; v ← get malloc_ok t i j;
           if ml <? v then Ok (t, i, j, v) else Ok (t, am, bm, ml)) = Ok s' ∧ table_inv i (j + 1) s') as Hin.
  { intros v ->. rewrite set_ok by done. cbn [mbind res_bind].
    rewrite (get_ok _ _ _ (cell i j)) by apply lookup_insert_eq. cbn [mbind res_bind].
    destruct (Z.ltb_spec ml (cell i j)); eexists; (split; [done|]); eapply seen_next; try done; lia. }
  destruct (x =? y).
  - destruct ((i =? 0) || (j =? 0)) eqn:E0; intros Hc; [by apply Hin|].
    apply orb_false_iff in E0 as [Hi0%Z.eqb_neq Hj0%Z.eqb_neq].
    assert (t !! (i - 1, j - 1) = Some (cell (i - 1) (j - 1))) as Hp by (apply HI; unfold seen; lia).
    rewrite (get_ok _ _ _ _ Hp). cbn [mbind res_bind]. by apply Hin.
  - intros Hc. rewrite set_ok by done. cbn [mbind res_bind]. eexists. split; [done|].
    destruct (ti_at _ _ _ HI) as [H0|(? & ? & H0)]; cbn in H0.
    + eapply seen_next; try done; lia.
    + pose proof (cell_range am bm ltac:(done) ltac:(done)). eapply seen_next; try done; lia.
Qed.

Lemma fill_spec : ∃ s,
  for_up (Z.to_nat n) 0 (λ a_idx, for_up (Z.to_nat m) 0
    (compare cell_bits malloc_ok n m (sa ++ ra) (sb ++ rb) a_idx)) (∅, 0, 0, 0) = Ok s ∧ table_inv n 0 s.
Proof using Hmalloc Hcell.
  destruct (for_up_total (λ i s, table_inv i 0 s) (λ a_idx, for_up (Z.to_nat m) 0
    (compare cell_bits malloc_ok n m (sa ++ ra) (sb ++ rb) a_idx)) (Z.to_nat n) 0 (∅, 0, 0, 0))
    as (s & Hs & HI).
  - intros i s Hi HI.
    destruct (for_up_total (λ j s, table_inv i j s) (compare cell_bits malloc_ok n m (sa ++ ra) (sb ++ rb) i)
      (Z.to_nat m) 0 s) as (s' & Hs' & HI'); [|done|].
    + intros j s0 Hj H0. apply compare_spec; [done|lia|lia].
    + exists s'. split; [done|]. destruct HI' as [H1 H2 H3]. replace (0 + Z.of_nat (Z.to_nat m)) with m in * by lia.
      split; [| |done]; intros i' j' Hij; [apply H1|apply H2]; unfold seen in *; lia.
  - split; cbn; [| |by left]; unfold seen; intros; lia.
  - exists s. split; [done|]. by replace (0 + Z.of_nat (Z.to_nat n)) with n in HI by lia.
Qed.

(** The longest one is copied out. *)
Lemma copy_spec ret w am ml : (length w ≤ length ret)%nat →
  (∀ k x, w !! k = Some x → load (sa ++ ra) (u64 (am - ml + Z.of_nat k + 1)) = Ok x) →
  for_up (length w) 0 (λ i ret, c ← load (sa ++ ra) (u64 (am - ml + i + 1)); store ret i c) ret =
    Ok (w ++ drop (length w) ret).
Proof.
  intros Hlen Hw.
  destruct (for_up_total (λ i r, r = take (Z.to_nat i) w ++ drop (Z.to_nat i) ret)
    (λ i ret, c ← load (sa ++ ra) (u64 (am - ml + i + 1)); store ret i c) (length w) 0 ret) as (r & -> & ->).
  - intros i r Hi ->. destruct (lookup_lt_is_Some_2 w (Z.to_nat i)) as [x Hx]; [lia|].
    pose proof (Hw _ _ Hx) as Hl. rewrite Z2Nat.id in Hl by lia. rewrite Hl. cbn [mbind res_bind].
    rewrite store_ok by (rewrite length_app, length_take, length_drop; lia).
    eexists. split; [done|]. rewrite insert_app_r_alt by (rewrite length_take; lia).
    rewrite length_take, Nat.min_l, Nat.sub_diag by lia.
    destruct (drop (Z.to_nat i) ret) as [|y l] eqn:E.
    { apply (f_equal length) in E. rewrite length_drop in E. cbn in E. lia. }
    replace (Z.to_nat (i + 1)) with (S (Z.to_nat i)) by lia. rewrite (take_S_r _ _ x Hx), <- app_assoc.
    f_equal. cbn. f_equal. change l with (drop 1 (y :: l)). rewrite <- E, drop_drop. f_equal. lia.
  - done.
  - rewrite Z.add_0_l, Nat2Z.id, firstn_all. done.
Qed.

Lemma lcs_dynamic_spec ret : Z.min n m < Z.of_nat (length ret) → n + m < 2 ^ 63 →
  ∃ w, lcs_dynamic cell_bits malloc_ok ret (sa ++ ra) n (sb ++ rb) m =
      Ok (w ++ 0 :: drop (S (length w)) ret, Z.of_nat (length w)) ∧ is_lcs sa sb w.
Proof using Hmalloc Hcell.
  intros Hret Hlong. unfold lcs_dynamic.
  destruct (for_up_total (λ _ _, True) (λ _ (_ : unit), if malloc_ok (-1) then Ok tt else Err EFault)
    (Z.to_nat n) 0 tt) as ([] & -> & _); [intros i [] _ _; rewrite Hmalloc; by exists tt|done|].
  cbn [mbind res_bind]. destruct fill_spec as ([[[t am] bm] ml] & -> & [_ Hmax Hat]). cbn [mbind res_bind fst snd] in *.
  set (w := take (Z.to_nat ml) (drop (Z.to_nat (am - ml + 1)) sa)).
  assert (0 ≤ ml ∧ ml ≤ Z.min n m ∧ (0 < ml → 0 ≤ am < n ∧ ml ≤ am + 1) ∧
    substring w sa ∧ substring w sb ∧ length w = Z.to_nat ml) as (H0 & Hm & Ham & Hwa & Hwb & Hlw).
  { destruct Hat as [->|(Hi & Hj & <-)].
    - split_and!; try lia; [by exists [], sa|by exists [], sb|done].
    - pose proof (common_suffix_le sa sb (Z.to_nat am) (Z.to_nat bm)) as Hle.
      pose proof (common_suffix_spec sa sb (Z.to_nat am) (Z.to_nat bm) ltac:(lia) ltac:(lia)) as Hc.
      cbv zeta in Hc. apply common_substring in Hc. cbv zeta in Hc. unfold w, cell in *.
      rewrite Nat2Z.id. replace (Z.to_nat (am - _ + 1)) with
        (S (Z.to_nat am) - common_suffix sa sb (Z.to_nat am) (Z.to_nat bm))%nat by lia.
      split_and!; try apply Hc; lia. }
  rewrite <- Hlw. rewrite copy_spec; [|lia|].
  - cbn [mbind res_bind]. rewrite store_ok by (rewrite length_app, length_drop; lia).
    exists w. replace (Z.of_nat (length w)) with ml by lia. split; [|split_and!; [done..|]].
    + do 2 f_equal. rewrite insert_app_r_alt, <- Hlw, Nat.sub_diag by lia.
      destruct (drop (length w) ret) as [|y l] eqn:E.
      { apply (f_equal length) in E. rewrite length_drop in E. cbn in E. lia. }
      cbn. change l with (drop 1 (y :: l)). rewrite <- E, drop_drop. by rewrite Nat.add_1_r.
    + intros w' Ha' Hb'. destruct (substring_common _ _ _ Ha' Hb') as (i & j & Hc).
      destruct (length w') as [|k]; [lia|]. pose proof (common_suffix_max _ _ _ _ _ Hc) as Hle.
      destruct Hc as (? & ? & _). specialize (Hmax (Z.of_nat (i + k)) (Z.of_nat (j + k))).
      unfold cell, seen in Hmax. rewrite !Nat2Z.id in Hmax. lia.
  - intros k x Hk. pose proof (lookup_lt_Some _ _ _ Hk). destruct Ham as [Ha1 Ha2]; [lia|].
    rewrite u64_small by (split; lia). apply load_app; [lia|].
    apply lookup_take_Some in Hk as [Hk _]. rewrite lookup_drop in Hk. rewrite <- Hk. f_equal. lia.
Qed.
End proof.
