(* ===== verification/LcsThreads.v ===== *)
(** * project4: the programs around [lcs_dynamic]

    The three programs read the lines of a file, give each thread (or MPI
    process) an equal share of the pairs of neighbouring lines, and print the
    longest common substring of each pair.  They differ in their constants and
    in the width of [actual_num_lines]; their text is otherwise the same.

    The threads of p4_omp.c and p4_pth.c share [data], which nobody writes
    once they run, and [lcs_data].  A turn of a thread is the computation for
    one pair of lines, which touches only what is its own, or one byte of
    [strcpy] into the shared [lcs_data]; a schedule is the list of the threads
    in the order of their turns. *)

From Stdlib Require Import Ascii.
From stdpp Require Import functions.
From S2P Require Import Prelude Lcs.

(** ** The code *)

Definition chars (s : string) : list Z := map (λ c, Z.of_nat (nat_of_ascii c)) (String.list_ascii_of_string s).

(** [fgets] of [n + 1] bytes: the line and what is left. *)
Fixpoint fgets (n : nat) (input : list Z) : list Z * list Z :=
  match n, input with
  | O, _ | _, [] => ([], input)
  | S n', c :: input' =>
      if c =? 10 then ([c], input')
      else let '(l, rest) := fgets n' input' in (c :: l, rest)
  end.

Fixpoint strlen (s : list Z) : res Z :=
  match s with
  | [] => Err EFault
  | c :: s => if c =? 0 then Ok 0 else n ← strlen s; Ok (n + 1)
  end.

(** The local variables of [thandle]; [copying] is the source of a [strcpy]
    under way and the index it has reached. *)
Record thread := {
  line_number : Z;
  end_ : Z;
  ret : list Z;
  copying : option (list Z * Z);
}.

Section code.
Context (NUM_THREADS NUM_LINES LINE_LENGTH count_bits cell_bits : Z) (malloc_ok : Z → bool).

Definition NUM_LINES_PER_THREAD : Z := NUM_LINES / NUM_THREADS.

(** The rows of [data] and [lcs_data] are objects of their own; both arrays
    are zero when the program starts. *)
Definition zeros : Z → list Z := λ _, replicate (Z.to_nat LINE_LENGTH) 0.

(** The loop of [open_file]. *)
Fixpoint read_lines (n : nat) (count : Z) (data : Z → list Z) (input : list Z) : (Z → list Z) * Z :=
  match n with
  | O => (data, count)
  | S n' =>
      match input with
      | [] => (data, count)
      | _ =>
          let '(l, rest) := fgets (Z.to_nat (LINE_LENGTH - 1)) input in
          read_lines n' (count + 1) (<[count := l ++ 0 :: drop (S (length l)) (data count)]> data) rest
      end
  end.

(** [None] is a file that cannot be opened; the result is [data] and
    [actual_num_lines]. *)
Definition open_file (file : option (list Z)) : (Z → list Z) * Z :=
  match file with
  | None => (zeros, 0)
  | Some input =>
      let '(data, count) := read_lines (Z.to_nat NUM_LINES) 0 zeros input in
      (data, wrap count_bits count)
  end.

Section run.
Context (data : Z → list Z) (actual_num_lines : Z).

Definition last_line : Z := wrap count_bits (actual_num_lines - 1).

(** [thandle] up to its loop. *)
Definition thandle (tid : Z) : thread :=
  let start := tid * NUM_LINES_PER_THREAD in
  let end_ := start + NUM_LINES_PER_THREAD in
  {| line_number := start; end_ := if last_line <? end_ then last_line else end_;
     ret := replicate (Z.to_nat LINE_LENGTH) 0; copying := None |}.

Definition data_at (i : Z) : res (list Z) :=
  if (0 <=? i) && (i <? NUM_LINES) then Ok (data i) else Err EFault.

Definition set_lcs (lcs_data : Z → list Z) (i k c : Z) : res (Z → list Z) :=
  if (0 <=? i) && (i <? NUM_LINES - 1) then
    row ← store (lcs_data i) k c; Ok (<[i := row]> lcs_data)
  else Err EFault.

(** The body of its loop, up to [strcpy]. *)
Definition find_lcs (t : thread) : res thread :=
  s1 ← data_at (line_number t);
  s2 ← data_at (line_number t + 1);
  n1 ← strlen s1;
  n2 ← strlen s2;
  '(ret, len_lcs) ← lcs_dynamic cell_bits malloc_ok (ret t) s1 n1 s2 n2;
  Ok {| line_number := line_number t; end_ := end_ t; ret := ret;
        copying := Some (if 0 <? len_lcs then ret else chars "No common substring." ++ [0], 0) |}.

(** A turn of a thread; a thread that has returned does nothing. *)
Definition turn (lcs_data : Z → list Z) (t : thread) : res ((Z → list Z) * thread) :=
  match copying t with
  | None =>
      if line_number t <? end_ t then t ← find_lcs t; Ok (lcs_data, t) else Ok (lcs_data, t)
  | Some (src, k) =>
      c ← load src k;
      lcs_data ← set_lcs lcs_data (line_number t) k c;
      Ok (lcs_data, {|
        line_number := if c =? 0 then line_number t + 1 else line_number t; end_ := end_ t; ret := ret t;
        copying := if c =? 0 then None else Some (src, k + 1) |})
  end.

Fixpoint run (sched : list nat) (lcs_data : Z → list Z) (ts : list thread) : res ((Z → list Z) * list thread) :=
  match sched with
  | [] => Ok (lcs_data, ts)
  | tid :: sched =>
      match ts !! tid with
      | None => run sched lcs_data ts
      | Some t => '(lcs_data, t) ← turn lcs_data t; run sched lcs_data (<[tid := t]> ts)
      end
  end.

Definition start_threads : list thread := map (λ i, thandle (Z.of_nat i)) (seq 0 (Z.to_nat NUM_THREADS)).

(** The loop of [main] that prints the results, as the list of what it
    prints. *)
Definition report (lcs_data : Z → list Z) : res (list (Z * Z * list Z)) :=
  for_up (Z.to_nat last_line) 0 (λ i out,
    if i <? NUM_LINES - 1 then
      n ← strlen (lcs_data i);
      Ok (out ++ [(i, i + 1, take (Z.to_nat n) (lcs_data i))])
    else Err EFault) [].
End run.

(** [main]; the threads take turns as [sched] says. *)
Definition main (sched : list nat) (file : option (list Z)) : res (list (Z * Z * list Z)) :=
  let '(data, actual_num_lines) := open_file file in
  '(lcs_data, _) ← run data sched zeros (start_threads actual_num_lines);
  report actual_num_lines lcs_data.
End code.

(** The constants of the programs. *)
Definition omp_main := main 16 1000000 2003 64 32.
Definition pth_main := main 16 10000 2003 32 32.

(** The process of rank [rank] of p4_mpi.c: every process reads the file and
    works on its own share and its own memory.  [MPI_Bcast] sends every
    process what it has read itself. *)
Definition mpi_main (malloc_ok : Z → bool) (processNum rank : Z) (sched : list nat) (file : option (list Z))
    : res (list (Z * Z * list Z)) :=
  let '(data, actual_num_lines) := open_file 1000000 2003 64 file in
  '(lcs_data, _) ← run 1000000 32 malloc_ok data sched (zeros 2003)
    [thandle processNum 1000000 2003 64 actual_num_lines rank];
  report 1000000 64 actual_num_lines lcs_data.

(** ** Strings *)

Definition cstring (row s : list Z) : Prop := ∃ r, row = s ++ 0 :: r ∧ 0 ∉ s.

Lemma strlen_cstring row s : cstring row s → strlen row = Ok (Z.of_nat (length s)).
Proof.
  intros (r & -> & Hs). induction s as [|c s IH]; [done|]. cbn.
  rewrite not_elem_of_cons in Hs. destruct Hs as [Hc Hs].
  rewrite (proj2 (Z.eqb_neq c 0)) by congruence. rewrite IH by done. cbn [mbind res_bind]. f_equal. lia.
Qed.

Lemma cstring_take row s : cstring row s → take (length s) row = s.
Proof. intros (r & -> & _). by rewrite take_app_length. Qed.

(** What the programs print for the lines [a] and [b]. *)
Definition answer (a b w : list Z) : Prop :=
  (w ≠ [] ∧ is_lcs a b w) ∨ (is_lcs a b [] ∧ w = chars "No common substring.").

(** ** The threads *)

Section proof.
Context (NUM_THREADS NUM_LINES LINE_LENGTH count_bits cell_bits : Z) (malloc_ok : Z → bool).
Context (Hmalloc : ∀ i, malloc_ok i = true) (Hthreads : 0 < NUM_THREADS) (Hdiv : (NUM_THREADS | NUM_LINES))
  (Hlines : 0 < NUM_LINES < 2 ^ 31) (Hcount : 31 ≤ count_bits) (Hlen : 21 ≤ LINE_LENGTH < 2 ^ 31)
  (Hcell : LINE_LENGTH ≤ 2 ^ cell_bits).

Let per : Z := NUM_LINES_PER_THREAD NUM_THREADS NUM_LINES.

Section run.
Context (data : Z → list Z) (actual : Z) (line : Z → list Z).
Context (Hactual : 1 ≤ actual ≤ NUM_LINES)
  (Hdata : ∀ i, 0 ≤ i < actual → cstring (data i) (line i) ∧ Z.of_nat (length (line i)) < LINE_LENGTH).

Definition row_done (lcs_data : Z → list Z) (i : Z) : Prop :=
  ∃ w, answer (line i) (line (i + 1)) w ∧ cstring (lcs_data i) w.

Definition copy_inv (lcs_data : Z → list Z) (t : thread) : Prop :=
  match copying t with
  | None => True
  | Some (src, k) => line_number t < end_ t ∧
      ∃ w, answer (line (line_number t)) (line (line_number t + 1)) w ∧ cstring src w ∧
        Z.of_nat (length w) < LINE_LENGTH ∧ 0 ≤ k ≤ Z.of_nat (length w) ∧
        take (Z.to_nat k) (lcs_data (line_number t)) = take (Z.to_nat k) w
  end.

Record thread_inv (lcs_data : Z → list Z) (tid : nat) (t : thread) : Prop := {
  th_ret : length (ret t) = Z.to_nat LINE_LENGTH;
  th_end : end_ t = Z.min (Z.of_nat tid * per + per) (actual - 1);
  th_line : Z.of_nat tid * per ≤ line_number t ≤ Z.max (Z.of_nat tid * per) (end_ t);
  th_done i : Z.of_nat tid * per ≤ i < line_number t → row_done lcs_data i;
  th_copy : copy_inv lcs_data t;
}.

Definition rows_inv (lcs_data : Z → list Z) : Prop := ∀ i, length (lcs_data i) = Z.to_nat LINE_LENGTH.

Definition inv (lcs_data : Z → list Z) (ts : list thread) : Prop :=
  rows_inv lcs_data ∧ ∀ tid t, ts !! tid = Some t → thread_inv lcs_data tid t.

(** The turns a thread still needs. *)
Definition left_ (t : thread) : Z :=
  (end_ t - line_number t) * (LINE_LENGTH + 1) -
  match copying t with None => 0 | Some (_, k) => k + 1 end.

Lemma find_lcs_spec t : length (ret t) = Z.to_nat LINE_LENGTH →
  0 ≤ line_number t → line_number t + 1 < actual →
  ∃ w r src, find_lcs NUM_LINES cell_bits malloc_ok data t =
      Ok {| line_number := line_number t; end_ := end_ t; ret := r; copying := Some (src, 0) |} ∧
    length r = Z.to_nat LINE_LENGTH ∧ answer (line (line_number t)) (line (line_number t + 1)) w ∧
    cstring src w ∧ Z.of_nat (length w) < LINE_LENGTH.
Proof using All.
  intros Hret H0 H1. destruct (Hdata (line_number t)) as [Hs1 Hl1]; [lia|].
  destruct (Hdata (line_number t + 1)) as [Hs2 Hl2]; [lia|]. unfold find_lcs, data_at.
  rewrite (proj2 (Z.leb_le 0 _)), (proj2 (Z.ltb_lt _ _)) by lia. cbn [andb mbind res_bind].
  rewrite (proj2 (Z.leb_le 0 _)), (proj2 (Z.ltb_lt _ _)) by lia. cbn [andb mbind res_bind].
  rewrite (strlen_cstring _ _ Hs1), (strlen_cstring _ _ Hs2). cbn [mbind res_bind].
  destruct Hs1 as (r1 & -> & Hz1), Hs2 as (r2 & -> & Hz2).
  destruct (lcs_dynamic_spec cell_bits malloc_ok (line (line_number t)) (0 :: r1) (line (line_number t + 1))
    (0 :: r2) Hmalloc ltac:(lia) (ret t) ltac:(lia) ltac:(lia)) as (w & -> & Hw). cbn [mbind res_bind].
  assert (0 ∉ w) as Hz; [|assert (length w ≤ length (line (line_number t)))%nat as Hlw].
  { destruct Hw as [(l & r & E) _]. rewrite E in Hz1. rewrite !elem_of_app in Hz1. tauto. }
  { destruct Hw as [(l & r & E) _]. rewrite E, !length_app. lia. }
  destruct (Z.ltb_spec 0 (Z.of_nat (length w))) as [Hp|Hp].
  - exists w. do 2 eexists. split; [done|]. split_and!; [|left|by eexists|lia].
    + rewrite length_app. cbn [length]. rewrite length_drop. lia.
    + split; [|done]. intros ->. cbn in Hp. lia.
  - destruct w; [|cbn in Hp; lia]. exists (chars "No common substring."). do 2 eexists. split; [done|].
    split_and!; [|right; by split| |cbn; lia].
    + cbn [app length]. rewrite length_drop. cbn. lia.
    + exists []. split; [done|]. cbn. intros Hin. repeat (apply elem_of_cons in Hin as [?|Hin]; [done|]).
      by apply elem_of_nil in Hin.
Qed.

Lemma thread_inv_ext lcs_data lcs_data' tid t :
  (∀ i, Z.of_nat tid * per ≤ i < Z.of_nat tid * per + per → lcs_data' i = lcs_data i) →
  thread_inv lcs_data tid t → thread_inv lcs_data' tid t.
Proof.
  intros Heq [H1 H2 H3 H4 H5]. split; [done..| |].
  - intros i Hi. destruct (H4 i Hi) as (w & ?). exists w. by rewrite Heq by lia.
  - unfold copy_inv in *. destruct (copying t) as [[src k]|]; [|done].
    destruct H5 as (Hl & w & Hw). split; [done|]. exists w. by rewrite Heq by lia.
Qed.

(** One byte of [strcpy]. *)
Lemma copy_byte row w k x : (length w < length row)%nat → 0 ∉ w → 0 ≤ k ≤ Z.of_nat (length w) →
  take (Z.to_nat k) row = take (Z.to_nat k) w → (w ++ [0]) !! Z.to_nat k = Some x →
  let row' := <[Z.to_nat k := x]> row in
  if x =? 0 then k = Z.of_nat (length w) ∧ cstring row' w
  else k < Z.of_nat (length w) ∧ take (Z.to_nat (k + 1)) row' = take (Z.to_nat (k + 1)) w.
Proof.
  intros Hlw Hz Hk Ht Hx row'.
  destruct (decide (k = Z.of_nat (length w))) as [->|Hne].
  - rewrite Nat2Z.id in *. rewrite lookup_app_r, Nat.sub_diag in Hx by lia. injection Hx as <-.
    rewrite Z.eqb_refl. split; [done|]. rewrite firstn_all in Ht.
    exists (drop (S (length w)) row). split; [|done]. unfold row'.
    rewrite insert_take_drop by lia. by rewrite Nat2Z.id, Ht.
  - rewrite lookup_app_l in Hx by lia. rewrite (proj2 (Z.eqb_neq x 0)).
    2:{ intros ->. apply Hz. by eapply list_elem_of_lookup_2. }
    split; [lia|]. unfold row'. replace (Z.to_nat (k + 1)) with (S (Z.to_nat k)) by lia.
    rewrite (take_S_r _ _ x), (take_S_r w _ x) by (rewrite ?list_lookup_insert_eq by lia; done).
    by rewrite take_insert_ge, Ht by lia.
Qed.

(** A turn keeps the invariant, brings the thread closer to its end and
    writes to the rows of the thread only. *)
Definition turn_ok (lcs_data : Z → list Z) (tid : nat) (t : thread) : Prop :=
  ∃ lcs_data' t', turn NUM_LINES cell_bits malloc_ok data lcs_data t = Ok (lcs_data', t') ∧
    rows_inv lcs_data' ∧ thread_inv lcs_data' tid t' ∧ left_ t' ≤ Z.max 0 (left_ t - 1) ∧
    ∀ i, i < Z.of_nat tid * per ∨ Z.of_nat tid * per + per ≤ i → lcs_data' i = lcs_data i.

Lemma per_nonneg (tid : nat) : 0 ≤ per ∧ 0 ≤ Z.of_nat tid * per.
Proof using All.
  assert (0 ≤ per) as Hper by (apply Z.div_pos; lia). split; [done|]. apply Z.mul_nonneg_nonneg; lia.
Qed.

Lemma strcpy_turn lcs_data tid t src k : rows_inv lcs_data → thread_inv lcs_data tid t →
  copying t = Some (src, k) → turn_ok lcs_data tid t.
Proof using All.
  intros Hrows [H1 H2 H3 H4 H5] Ec. destruct (per_nonneg tid) as [Hper Hst].
  unfold turn_ok, turn, copy_inv in *. rewrite Ec in *.
  destruct H5 as (Hl & w & Hw & (r & -> & Hz) & Hlw & Hk & Htk). set (l := line_number t) in *.
  destruct (lookup_lt_is_Some_2 (w ++ [0]) (Z.to_nat k)) as [x Hx]; [rewrite length_app; cbn; lia|].
  pose proof (copy_byte (lcs_data l) w k x ltac:(rewrite Hrows; lia) Hz Hk Htk Hx) as Hb. cbv zeta in Hb.
  change (w ++ 0 :: r) with (w ++ [0] ++ r). rewrite app_assoc, (load_app _ _ _ x) by (done || lia).
  cbn [mbind res_bind]. unfold set_lcs.
  rewrite (proj2 (Z.leb_le 0 l)), (proj2 (Z.ltb_lt l _)) by lia. cbn [andb].
  rewrite store_ok by (rewrite Hrows; lia). cbn [mbind res_bind].
  set (row' := <[Z.to_nat k := x]> (lcs_data l)) in *. do 2 eexists. split; [done|].
  assert (∀ i, i ≠ l → (<[l := row']> lcs_data) i = lcs_data i) as Hne by (intros i ?; by rewrite fn_lookup_insert_ne).
  split_and!.
  - intros i. destruct (decide (i = l)) as [->|]; [|by rewrite Hne].
    rewrite fn_lookup_insert. unfold row'. rewrite length_insert. apply Hrows.
  - split; cbn; [done|done| | |].
    + destruct (x =? 0); lia.
    + intros i Hi. destruct (decide (i = l)) as [->|Hil].
      * destruct (x =? 0); [|lia]. exists w. split; [done|]. rewrite fn_lookup_insert. apply Hb.
      * unfold row_done. rewrite Hne by done. apply H4. destruct (x =? 0); lia.
    + unfold copy_inv. cbn. destruct (x =? 0); [done|]. split; [done|]. exists w. fold l.
      rewrite fn_lookup_insert. split_and!; [done| |lia|lia|lia|apply Hb].
      exists r. by rewrite <- app_assoc.
  - unfold left_. cbn. rewrite Ec. fold l. destruct (x =? 0); lia.
  - intros i Hi. apply Hne. lia.
Qed.

Lemma turn_spec lcs_data tid t : rows_inv lcs_data → thread_inv lcs_data tid t → turn_ok lcs_data tid t.
Proof using All.
  intros Hrows HI. destruct (copying t) as [[src k]|] eqn:Ec; [by eapply strcpy_turn|].
  destruct HI as [H1 H2 H3 H4 H5]. destruct (per_nonneg tid) as [Hper Hst]. unfold turn_ok, turn. rewrite Ec.
  destruct (Z.ltb_spec (line_number t) (end_ t)) as [Hlt|Hge].
  - destruct (find_lcs_spec t H1) as (w & r & src & -> & Hr & Hw & Hs & Hlw); [lia|lia|].
    cbn [mbind res_bind]. do 2 eexists. split; [done|]. split_and!; [done| |unfold left_; cbn; rewrite Ec; nia|done].
    split; cbn; try done. unfold copy_inv. cbn. split; [done|]. exists w. split_and!; [done..|lia|lia|done].
  - do 2 eexists. split; [done|]. split_and!; [done|by split| |done].
    unfold left_. rewrite Ec. nia.
Qed.

Lemma run_spec sched : ∀ lcs_data ts, inv lcs_data ts →
  ∃ lcs_data' ts', run NUM_LINES cell_bits malloc_ok data sched lcs_data ts = Ok (lcs_data', ts') ∧
    inv lcs_data' ts' ∧ ∀ tid t, ts !! tid = Some t →
      ∃ t', ts' !! tid = Some t' ∧
        left_ t' ≤ Z.max 0 (left_ t - Z.of_nat (count_occ Nat.eq_dec sched tid)).
Proof using All.
  induction sched as [|tid0 sched IH]; intros lcs_data ts [Hrows HI]; cbn [run].
  { exists lcs_data, ts. split_and!; [done|done|]. intros tid t Ht. exists t. split; [done|]. cbn. lia. }
  destruct (ts !! tid0) as [t0|] eqn:H0.
  - destruct (turn_spec lcs_data tid0 t0 Hrows (HI _ _ H0)) as (lcs1 & t1 & -> & Hrows1 & Ht1 & Hleft & Hframe).
    cbn [mbind res_bind]. destruct (IH lcs1 (<[tid0 := t1]> ts)) as (lcs2 & ts2 & -> & HI2 & Hl2).
    + split; [done|]. intros tid t Ht. apply list_lookup_insert_Some in Ht as [(<- & -> & _)|[Hne Ht]]; [done|].
      apply (thread_inv_ext lcs_data); [|by apply HI]. intros i Hi. apply Hframe.
      assert (0 ≤ per) by (apply Z.div_pos; lia). nia.
    + exists lcs2, ts2. split_and!; [done|done|]. intros tid t Ht. cbn [count_occ].
      destruct (Nat.eq_dec tid0 tid) as [<-|Hne].
      * destruct (Hl2 tid0 t1) as (t' & ? & ?); [rewrite list_lookup_insert_eq; [done|by eapply lookup_lt_Some]|].
        exists t'. split; [done|]. rewrite H0 in Ht. injection Ht as <-. lia.
      * apply Hl2. by rewrite list_lookup_insert_ne.
  - destruct (IH lcs_data ts) as (lcs2 & ts2 & -> & HI2 & Hl2); [done|].
    exists lcs2, ts2. split_and!; [done|done|]. intros tid t Ht. cbn [count_occ].
    destruct (Nat.eq_dec tid0 tid) as [<-|Hne]; [congruence|]. by apply Hl2.
Qed.

Lemma per_mult : NUM_LINES = per * NUM_THREADS ∧ 0 < per.
Proof using Hthreads Hdiv Hlines.
  clear Hcell. destruct Hdiv as [q Hq]. assert (per = q) as -> by (unfold per, NUM_LINES_PER_THREAD; rewrite Hq; apply Z.div_mul; lia).
  clear - Hq Hthreads Hlines. nia.
Qed.

Lemma last_line_eq : last_line count_bits actual = actual - 1.
Proof using All.
  clear Hcell. unfold last_line, wrap. apply Z.mod_small. split; [lia|].
  pose proof (Z.pow_le_mono_r 2 31 count_bits ltac:(lia) Hcount). lia.
Qed.

Lemma p4_start_inv : inv (zeros LINE_LENGTH) (start_threads NUM_THREADS NUM_LINES LINE_LENGTH count_bits actual).
Proof using All.
  split; [intros i; apply length_replicate|]. intros tid t Ht.
  unfold start_threads in Ht. rewrite list_lookup_fmap in Ht.
  apply fmap_Some in Ht as (i & Hi & ->). apply lookup_seq in Hi as [-> Hi]. cbn.
  destruct per_mult as [_ Hper]. unfold thandle. rewrite last_line_eq. fold per.
  split; cbn; [apply length_replicate| |lia|lia|done].
  destruct (Z.ltb_spec (actual - 1) (Z.of_nat tid * per + per)); lia.
Qed.

(** When every thread has had enough turns, every row is done. *)
Lemma run_complete sched :
  (∀ tid, (tid < Z.to_nat NUM_THREADS)%nat → per * (LINE_LENGTH + 1) ≤ Z.of_nat (count_occ Nat.eq_dec sched tid)) →
  ∃ lcs_data ts, run NUM_LINES cell_bits malloc_ok data sched (zeros LINE_LENGTH)
      (start_threads NUM_THREADS NUM_LINES LINE_LENGTH count_bits actual) = Ok (lcs_data, ts) ∧
    ∀ i, 0 ≤ i < actual - 1 → row_done lcs_data i.
Proof using All.
  intros Hfair. destruct (run_spec sched _ _ p4_start_inv) as (lcs & ts & Hrun & [_ HI] & Hleft).
  exists lcs, ts. split; [done|]. intros i Hi. destruct per_mult as [Hnl Hper].
  set (tid := Z.to_nat (i / per)).
  assert (Z.of_nat tid * per ≤ i < Z.of_nat tid * per + per) as Hr.
  { unfold tid. rewrite Z2Nat.id by (apply Z.div_pos; lia). pose proof (Z.div_mod i per). pose proof (Z.mod_pos_bound i per). lia. }
  assert (tid < Z.to_nat NUM_THREADS)%nat as Htid by nia.
  destruct (lookup_lt_is_Some_2 (start_threads NUM_THREADS NUM_LINES LINE_LENGTH count_bits actual) tid) as [t Ht].
  { unfold start_threads. by rewrite length_map, length_seq. }
  pose proof (proj2 p4_start_inv _ _ Ht) as [_ He0 Hl0 _ _].
  destruct (Hleft _ _ Ht) as (t' & Ht' & Hle). specialize (Hfair tid Htid).
  assert (copying t = None) as Hc.
  { unfold start_threads in Ht. rewrite list_lookup_fmap in Ht. by apply fmap_Some in Ht as (? & _ & ->). }
  assert (left_ t ≤ per * (LINE_LENGTH + 1)) as H0 by (unfold left_; rewrite Hc; rewrite Z.sub_0_r; apply Z.mul_le_mono_nonneg_r; lia).
  destruct (HI _ _ Ht') as [_ He Hl Hd Hcp]. apply Hd.
  assert (left_ t' ≤ 0) as Hz by lia. unfold left_, copy_inv in *. destruct (copying t') as [[src k]|].
  - destruct Hcp as (? & w & _ & _ & ? & ? & _).
    pose proof (Z.mul_le_mono_nonneg_r 1 (end_ t' - line_number t') (LINE_LENGTH + 1)). lia.
  - pose proof (Z.mul_le_mono_nonneg_r 1 (end_ t' - line_number t') (LINE_LENGTH + 1)). lia.
Qed.

Lemma report_spec lcs_data : (∀ i, 0 ≤ i < actual - 1 → row_done lcs_data i) →
  ∃ out, report NUM_LINES count_bits actual lcs_data = Ok out ∧ Z.of_nat (length out) = actual - 1 ∧
    ∀ i, 0 ≤ i < actual - 1 → ∃ w, out !! Z.to_nat i = Some (i, i + 1, w) ∧ answer (line i) (line (i + 1)) w.
Proof using All.
  intros Hd. unfold report. rewrite last_line_eq.
  destruct (for_up_total (λ i (out : list (Z * Z * list Z)), Z.of_nat (length out) = i ∧
      ∀ k, 0 ≤ k < i → ∃ w, out !! Z.to_nat k = Some (k, k + 1, w) ∧ answer (line k) (line (k + 1)) w)
    (λ i out, if i <? NUM_LINES - 1 then n ← strlen (lcs_data i);
       Ok (out ++ [(i, i + 1, take (Z.to_nat n) (lcs_data i))]) else Err EFault)
    (Z.to_nat (actual - 1)) 0 []) as (out & -> & Hlen' & Hout).
  - intros i out Hi [Hl Hk]. rewrite (proj2 (Z.ltb_lt i _)) by lia.
    destruct (Hd i ltac:(lia)) as (w & Hw & Hs). rewrite (strlen_cstring _ _ Hs). cbn [mbind res_bind].
    rewrite Nat2Z.id, (cstring_take _ _ Hs). eexists. split; [done|].
    rewrite length_app. split; [cbn; lia|]. intros k Hk'. destruct (decide (k = i)) as [->|].
    + exists w. rewrite lookup_app_r by lia. replace (Z.to_nat i - length out)%nat with 0%nat by lia. done.
    + destruct (Hk k ltac:(lia)) as (w' & ? & ?). exists w'. by rewrite lookup_app_l by lia.
  - split; [done|lia].
  - exists out. split_and!; [done|lia|]. intros i Hi. apply Hout. lia.
Qed.
End run.

(** ** The file *)

(** The line [l] as [fgets] cuts it out of the file; [final] when nothing
    follows. *)
Definition line_ok (l : list Z) (final : Prop) : Prop :=
  (0 ∉ l) ∧ l ≠ [] ∧ Z.of_nat (length l) < LINE_LENGTH ∧
  ((∃ b, l = b ++ [10] ∧ 10 ∉ b) ∨ (10 ∉ l) ∧ (Z.of_nat (length l) = LINE_LENGTH - 1 ∨ final)).

Fixpoint lines_ok (ls : list (list Z)) : Prop :=
  match ls with [] => True | l :: ls => line_ok l (ls = []) ∧ lines_ok ls end.

Lemma lines_ok_lookup ls i l : lines_ok ls → ls !! i = Some l → Z.of_nat (length l) < LINE_LENGTH.
Proof.
  revert i. induction ls as [|l' ls IH]; intros i Hok Hl; [done|]. destruct Hok as [(_ & _ & ? & _) Hok].
  destruct i; cbn in Hl; [by injection Hl as <-|by eapply IH].
Qed.

Lemma fgets_line b n rest : 10 ∉ b → (length b < n)%nat → fgets n ((b ++ [10]) ++ rest) = (b ++ [10], rest).
Proof.
  revert n. induction b as [|c b IH]; intros n Hb Hn; destruct n; cbn in Hn |- *; try lia; [done|].
  apply not_elem_of_cons in Hb as [Hc Hb]. rewrite (proj2 (Z.eqb_neq c 10)) by congruence.
  by rewrite IH by (done || lia).
Qed.

Lemma fgets_long l n rest : 10 ∉ l → (length l ≤ n)%nat → length l = n ∨ rest = [] → fgets n (l ++ rest) = (l, rest).
Proof.
  revert n. induction l as [|c l IH]; intros n Hl Hn Hr; destruct n; cbn in Hn, Hr |- *; try lia; [done| |].
  - destruct Hr as [?| ->]; [lia|done].
  - apply not_elem_of_cons in Hl as [Hc Hl]. rewrite (proj2 (Z.eqb_neq c 10)) by congruence.
    rewrite IH; [done|done|lia|]. destruct Hr; [left; lia|by right].
Qed.

Lemma fgets_ok l ls : line_ok l (ls = []) →
  fgets (Z.to_nat (LINE_LENGTH - 1)) (l ++ concat ls) = (l, concat ls).
Proof using All.
  intros (_ & _ & Hl & [(b & -> & Hb)|[Hb Hf]]).
  - apply fgets_line; [done|]. rewrite length_app in Hl. cbn in Hl. lia.
  - apply fgets_long; [done|lia|]. destruct Hf as [?| ->]; [left; lia|by right].
Qed.

Lemma read_lines_spec n : ∀ ls count data, lines_ok ls → 0 ≤ count →
  ∃ data', read_lines LINE_LENGTH n count data (concat ls) = (data', count + Z.of_nat (n `min` length ls)) ∧
    (∀ i, i < count → data' i = data i) ∧
    ∀ i l, ls !! i = Some l → (i < n)%nat → cstring (data' (count + Z.of_nat i)) l.
Proof using All.
  induction n as [|n IH]; intros ls count data Hok Hc; cbn [read_lines].
  { exists data. split_and!; [f_equal; lia|done|lia]. }
  destruct ls as [|l ls]; cbn [concat]; [exists data; split_and!; [f_equal; cbn; lia|done|done]|].
  destruct Hok as [Hl Hok]. destruct (l ++ concat ls) as [|c rest] eqn:E.
  { apply app_eq_nil in E as [-> _]. by destruct Hl as (_ & ? & _). }
  rewrite <- E. rewrite (fgets_ok l ls Hl).
  destruct (IH ls (count + 1) (<[count := l ++ 0 :: drop (S (length l)) (data count)]> data) Hok ltac:(lia))
    as (data' & -> & Hout & Hin).
  exists data'. split_and!.
  - f_equal. cbn. lia.
  - intros i Hi. rewrite Hout by lia. by rewrite fn_lookup_insert_ne by lia.
  - intros [|i] l' Hi Hn; cbn in Hi.
    + injection Hi as <-. rewrite Z.add_0_r, Hout by lia. rewrite fn_lookup_insert. eexists. split; [done|]. apply Hl.
    + replace (count + Z.of_nat (S i)) with (count + 1 + Z.of_nat i) by lia. apply Hin; [done|lia].
Qed.

(** What the program prints for a file of the lines [ls]. *)
Definition prints (ls : list (list Z)) (out : list (Z * Z * list Z)) : Prop :=
  Z.of_nat (length out) = Z.min NUM_LINES (Z.of_nat (length ls)) - 1 ∧
  ∀ i a b, ls !! i = Some a → ls !! S i = Some b → Z.of_nat i + 1 < NUM_LINES →
    ∃ w, out !! i = Some (Z.of_nat i, Z.of_nat i + 1, w) ∧ answer a b w.

(** Every thread gets enough turns. *)
Definition fair (sched : list nat) : Prop :=
  ∀ tid, (tid < Z.to_nat NUM_THREADS)%nat →
    per * (LINE_LENGTH + 1) ≤ Z.of_nat (count_occ Nat.eq_dec sched tid).

Lemma main_spec sched ls : lines_ok ls → ls ≠ [] → fair sched →
  ∃ out, main NUM_THREADS NUM_LINES LINE_LENGTH count_bits cell_bits malloc_ok sched (Some (concat ls)) = Ok out ∧
    prints ls out.
Proof using All.
  intros Hok Hne Hfair. unfold main, open_file.
  destruct (read_lines_spec (Z.to_nat NUM_LINES) ls 0 (zeros LINE_LENGTH) Hok ltac:(lia)) as (data & -> & _ & Hd).
  set (actual := 0 + Z.of_nat (Z.to_nat NUM_LINES `min` length ls)).
  assert (actual = Z.min NUM_LINES (Z.of_nat (length ls))) as Ea by lia.
  assert (length ls ≠ 0%nat) as Hl by (by destruct ls).
  assert (wrap count_bits actual = actual) as ->.
  { unfold wrap. apply Z.mod_small. pose proof (Z.pow_le_mono_r 2 31 count_bits ltac:(lia) Hcount). lia. }
  set (line := λ i, ls !!! Z.to_nat i).
  assert (∀ i, 0 ≤ i < actual → cstring (data i) (line i) ∧ Z.of_nat (length (line i)) < LINE_LENGTH) as Hdata.
  { intros i Hi. destruct (lookup_lt_is_Some_2 ls (Z.to_nat i)) as [l Hli]; [lia|].
    unfold line. rewrite (list_lookup_total_correct _ _ _ Hli). split.
    - replace (data i) with (data (0 + Z.of_nat (Z.to_nat i))) by (f_equal; lia). apply Hd; [done|lia].
    - by eapply lines_ok_lookup. }
  destruct (run_complete data actual line ltac:(lia) Hdata sched Hfair) as (lcs & ts & -> & Hrows).
  cbn [mbind res_bind].
  destruct (report_spec data actual line ltac:(lia) Hdata lcs Hrows) as (out & -> & Hlo & Hout).
  exists out. split; [done|]. split; [lia|]. intros i a b Ha Hb Hi. pose proof (lookup_lt_Some _ _ _ Hb).
  destruct (Hout (Z.of_nat i) ltac:(lia)) as (w & Hw & Hans). exists w. rewrite Nat2Z.id in Hw. split; [done|].
  unfold line in Hans. replace (Z.to_nat (Z.of_nat i + 1)) with (S i) in Hans by lia.
  rewrite Nat2Z.id, (list_lookup_total_correct _ _ _ Ha), (list_lookup_total_correct _ _ _ Hb) in Hans. done.
Qed.

(** ** A file without lines *)

Lemma for_up_stops {S} (body : Z → S → res S) n lo s k :
  lo ≤ k < lo + Z.of_nat n → (∀ s, is_ok (body k s) = false) → is_ok (for_up n lo body s) = false.
Proof.
  revert lo s. induction n as [|n IH]; intros lo s Hk Hb; [lia|]. cbn.
  destruct (decide (k = lo)) as [->|]; [specialize (Hb s); by destruct (body lo s)|].
  destruct (body lo s); [|done]. cbn. apply IH; [lia|done].
Qed.

Lemma main_empty sched file : file = None ∨ file = Some [] →
  is_ok (main NUM_THREADS NUM_LINES LINE_LENGTH count_bits cell_bits malloc_ok sched file) = false.
Proof using Hlines Hcount.
  intros Hf. assert (open_file NUM_LINES LINE_LENGTH count_bits file = (zeros LINE_LENGTH, 0)) as E.
  { destruct Hf as [->| ->]; [done|]. unfold open_file. destruct (Z.to_nat NUM_LINES); done. }
  unfold main. rewrite E. destruct (run _ _ _ _ _ _ _) as [[lcs ts]|]; [|done]. cbn [mbind res_bind].
  unfold report. apply (for_up_stops _ _ _ _ (NUM_LINES - 1)).
  - clear Hcell. pose proof (Z.pow_le_mono_r 2 31 count_bits ltac:(lia) Hcount) as Hp. unfold last_line, wrap.
    replace ((0 - 1) mod 2 ^ count_bits) with (2 ^ count_bits - 1); [clear - Hp Hlines; lia|].
    apply (Z.mod_unique _ _ (-1)); [left|]; clear - Hp Hlines; lia.
  - intros s. by rewrite Z.ltb_irrefl.
Qed.
End proof.

(** ** Claims *)

(** [lcs_dynamic] finds a longest common substring: for two strings, and
    a buffer with room for the shorter one and its terminator, it writes a
    string [w], null-terminated, to the buffer and returns its length; [w] is a
    substring of both and no common substring is longer. *)
Theorem lcs_dynamic_correct (cell_bits : Z) (malloc_ok : Z → bool) (a ra b rb ret : list Z) :
  (∀ i, malloc_ok i = true) →
  let n := Z.of_nat (length a) in let m := Z.of_nat (length b) in
  Z.min n m < 2 ^ cell_bits → Z.min n m < Z.of_nat (length ret) → n + m < 2 ^ 63 →
  ∃ w, lcs_dynamic cell_bits malloc_ok ret (a ++ ra) n (b ++ rb) m =
      Ok (w ++ 0 :: drop (S (length w)) ret, Z.of_nat (length w)) ∧ is_lcs a b w.
Proof. intros. by apply lcs_dynamic_spec. Qed.

(** C30. The threads of p4_omp.c and p4_pth.c, in any interleaving that gives
    each thread enough turns, fill in every row of the shared results: for a
    file of the lines [ls] the programs print one answer for each pair of
    neighbouring lines (among the first [NUM_LINES] lines), and it is a longest
    common substring of the two lines, or the message when there is none.  No
    thread reads or writes outside the arrays. *)
Theorem p4_threads_correct (malloc_ok : Z → bool) (sched : list nat) (ls : list (list Z)) :
  (∀ i, malloc_ok i = true) → lines_ok 2003 ls → ls ≠ [] →
  (fair 16 1000000 2003 sched →
   ∃ out, omp_main malloc_ok sched (Some (concat ls)) = Ok out ∧ prints 1000000 ls out) ∧
  (fair 16 10000 2003 sched →
   ∃ out, pth_main malloc_ok sched (Some (concat ls)) = Ok out ∧ prints 10000 ls out).
Proof.
  intros Hm Hok Hne. split; intros Hfair; (apply main_spec; [done|lia| |lia|lia|lia|lia|done|done|done]).
  - by exists 62500.
  - by exists 625.
Qed.

(** Neither program copes with a file that is empty or cannot be opened:
    [actual_num_lines - 1] wraps around, and the programs leave their arrays
    in every schedule. *)
Theorem p4_empty_file (malloc_ok : Z → bool) (sched : list nat) (file : option (list Z)) :
  file = None ∨ file = Some [] →
  is_ok (omp_main malloc_ok sched file) = false ∧ is_ok (pth_main malloc_ok sched file) = false.
Proof. intros Hf. split; (apply main_empty; [lia|lia|done]). Qed.

(** ** Examples *)

Lemma lcs_witness : ∃ w, lcs_dynamic 32 (λ _, true) (replicate 8 7) (chars "banana" ++ [0]) 6 (chars "cabana" ++ [0]) 6 =
    Ok (w ++ 0 :: drop (S (length w)) (replicate 8 7), Z.of_nat (length w)) ∧
  is_lcs (chars "banana") (chars "cabana") w.
Proof.
  apply (lcs_dynamic_correct 32 (λ _, true) (chars "banana") [0] (chars "cabana") [0] (replicate 8 7));
    [done|cbn; lia..].
Defined.

(** Every thread in turn, [n] times. *)
Definition round_robin (n : nat) : list nat := concat (replicate n (seq 0 16)).

Lemma round_robin_count n tid : (tid < 16)%nat → count_occ Nat.eq_dec (round_robin n) tid = n.
Proof.
  intros Ht. unfold round_robin. induction n as [|n IH]; [done|]. cbn [replicate concat].
  rewrite count_occ_app, IH. do 16 (destruct tid as [|tid]; [done|]). lia.
Qed.

Definition demo_lines : list (list Z) := [chars "abc" ++ [10]; chars "xbc"].

Lemma demo_lines_ok : lines_ok 2003 demo_lines.
Proof.
  split; [|split; [|done]].
  - split_and!; [compute_done|done|done|]. left. exists (chars "abc"). split; [done|compute_done].
  - split_and!; [compute_done|done|done|]. right. split; [compute_done|by right].
Qed.

Lemma p4_threads_witness : ∃ out,
  pth_main (λ _, true) (round_robin (Z.to_nat (625 * 2004))) (Some (concat demo_lines)) = Ok out ∧
  prints 10000 demo_lines out.
Proof.
  apply (p4_threads_correct (λ _, true) (round_robin (Z.to_nat (625 * 2004))) demo_lines).
  - done.
  - exact demo_lines_ok.
  - done.
  - intros tid Ht. rewrite round_robin_count by exact Ht.
    change (NUM_LINES_PER_THREAD 16 10000) with 625. rewrite Z2Nat.id by lia. lia.
Defined.

Lemma p4_empty_witness : is_ok (omp_main (λ _, true) [0%nat; 15%nat] None) = false.
Proof. exact (proj1 (p4_empty_file (λ _, true) [0%nat; 15%nat] None (or_introl eq_refl))). Defined.
