(* ===== verification/Block.v ===== *)
(** * devices/block.c

    Block devices and their registry.  The driver behind a device, which
    [ops] points to, is an array of sectors: a sector holds what was last
    written to it. *)

From Stdlib Require Import String.
From S2P Require Import Prelude.

Definition BLOCK_SECTOR_SIZE : Z := 512.

Inductive block_type :=
  | BLOCK_KERNEL | BLOCK_FILESYS | BLOCK_SCRATCH | BLOCK_SWAP
  | BLOCK_RAW | BLOCK_FOREIGN.

#[global] Instance block_type_eq_dec : EqDecision block_type.
Proof. solve_decision. Defined.

Record block := Block {
  name : string;
  type : block_type;
  size : Z;
  sectors : list (list Z);   (* what the driver stores *)
  read_cnt : Z;
  write_cnt : Z;
}.

Definition check_sector (b : block) (sector : Z) : res unit :=
  if size b <=? sector then Err EPanic else Ok tt.

(** [block_read]: the device and the 512 bytes put into the buffer. *)
Definition block_read (b : block) (sector : Z) : res (block * list Z) :=
  _ ← check_sector b sector;
  s ← deref (sectors b !! Z.to_nat sector);
  Ok (Block (name b) (type b) (size b) (sectors b) (u64 (read_cnt b + 1)) (write_cnt b), s).

Definition block_write (b : block) (sector : Z) (buffer : list Z) : res block :=
  _ ← check_sector b sector;
  _ ← ASSERT (bool_decide (type b ≠ BLOCK_FOREIGN));
  _ ← deref (sectors b !! Z.to_nat sector);
  Ok (Block (name b) (type b) (size b) (<[Z.to_nat sector := buffer]> (sectors b))
        (read_cnt b) (u64 (write_cnt b + 1))).

Definition block_size (b : block) : Z := size b.
Definition block_name (b : block) : string := name b.

(** ** The registry

    A pointer to a device is its index in [all_blocks]. *)

Record registry := Registry {
  all_blocks : list block;
  block_by_role : block_type → option nat;
}.

(** [ASSERT (role < BLOCK_ROLE_CNT)]. *)
Definition is_role (t : block_type) : bool :=
  match t with BLOCK_RAW | BLOCK_FOREIGN => false | _ => true end.

Definition block_get_role (r : registry) (role : block_type) : res (option nat) :=
  _ ← ASSERT (is_role role); Ok (block_by_role r role).

Definition block_set_role (r : registry) (role : block_type) (b : option nat) : res registry :=
  _ ← ASSERT (is_role role);
  Ok (Registry (all_blocks r)
        (λ t, if decide (t = role) then b else block_by_role r t)).

Definition block_first (r : registry) : option nat :=
  match all_blocks r with [] => None | _ :: _ => Some 0%nat end.
Definition block_next (r : registry) (b : nat) : option nat :=
  if Nat.ltb (b + 1) (length (all_blocks r)) then Some (b + 1)%nat else None.

Definition block_get_by_name (r : registry) (n : string) : option nat :=
  fst <$> list_find (λ b, name b = n) (all_blocks r).

(** [strlcpy] into the 16 bytes of [name] keeps 15 characters; [malloc_ok]
    says whether the allocation succeeds. *)
Definition block_register (r : registry) (malloc_ok : bool) (n : string) (t : block_type)
    (sz : Z) (driver : list (list Z)) : res (registry * nat) :=
  if negb malloc_ok then Err EPanic else
  let b := Block (String.substring 0 15 n) t sz driver 0 0 in
  Ok (Registry (all_blocks r ++ [b]) (block_by_role r), length (all_blocks r)).

(** ** Reading and writing *)

(** A device whose driver stores [size] sectors of 512 bytes each. *)
Record block_wf (b : block) : Prop := {
  bw_size : Z.of_nat (length (sectors b)) = size b;
  bw_sector s : s ∈ sectors b → Z.of_nat (length s) = 512;
  bw_type : type b ≠ BLOCK_FOREIGN;
}.

(** Byte [k] of sector [n]. *)
Definition sector_at (b : block) (n : Z) : list Z := sectors b !!! Z.to_nat n.

Lemma sector_length b n : block_wf b → 0 ≤ n < size b → Z.of_nat (length (sector_at b n)) = 512.
Proof.
  intros Hb Hn. apply (bw_sector _ Hb). unfold sector_at.
  pose proof (bw_size _ Hb).
  destruct (lookup_lt_is_Some_2 (sectors b) (Z.to_nat n)) as [s Hs]; [lia|].
  rewrite (list_lookup_total_correct _ _ _ Hs). by eapply list_elem_of_lookup_2.
Qed.

Lemma sector_lookup b n : block_wf b → 0 ≤ n < size b →
  sectors b !! Z.to_nat n = Some (sector_at b n).
Proof.
  intros Hb Hn. pose proof (bw_size _ Hb). apply list_lookup_lookup_total_lt. lia.
Qed.

Lemma block_read_spec b n : block_wf b → 0 ≤ n < size b →
  ∃ b', block_read b n = Ok (b', sector_at b n) ∧ block_wf b' ∧
    sectors b' = sectors b ∧ size b' = size b.
Proof.
  intros Hb Hn. unfold block_read, check_sector.
  rewrite (proj2 (Z.leb_gt _ _)), sector_lookup by (done || lia). cbn.
  eexists. split; [done|]. destruct Hb. by split_and!.
Qed.

Lemma block_write_spec b n buf : block_wf b → 0 ≤ n < size b → Z.of_nat (length buf) = 512 →
  ∃ b', block_write b n buf = Ok b' ∧ block_wf b' ∧ size b' = size b ∧
    ∀ m, 0 ≤ m → sector_at b' m = if m =? n then buf else sector_at b m.
Proof.
  intros Hb Hn Hl. pose proof (bw_size _ Hb). unfold block_write, check_sector.
  rewrite (proj2 (Z.leb_gt _ _)) by lia. cbn [mbind res_bind].
  rewrite bool_decide_eq_true_2 by apply Hb. cbn [ASSERT mbind res_bind].
  rewrite sector_lookup by done. cbn. eexists. split; [done|].
  split_and!; [split; cbn|done|].
  - by rewrite length_insert.
  - intros s (i & Hi)%list_elem_of_lookup_1. apply list_lookup_insert_Some in Hi as [(_ & <- & _)|[_ Hi]];
      [done|]. by eapply (bw_sector _ Hb), list_elem_of_lookup_2.
  - apply Hb.
  - intros m Hm. unfold sector_at. cbn. destruct (Z.eqb_spec m n) as [->|Hne].
    + apply list_lookup_total_insert_eq. lia.
    + apply list_lookup_total_insert_ne. lia.
Qed.
