(* ===== verification/Driver.v ===== *)
(** * devices/block.c: devices and their drivers

    [struct block_operations] as an interface: a driver has a state, a read
    and a write; a correct one is an array of sectors.  A device with a correct
    driver behaves like the device of Block, on which the file system and the
    swap area are built. *)

From Stdlib Require Import String.
From S2P Require Import Prelude Block.

Class Driver (S : Type) := {
  drv_read : Z → S → res (S * list Z);
  drv_write : Z → list Z → S → res S;
}.

(** [drv_ok s l]: in state [s] the driver is ready and holds the sectors [l]. *)
Class DriverOk (S : Type) `{Driver S} := {
  drv_ok : S → list (list Z) → Prop;
  drv_read_ok s l n x : drv_ok s l → 0 ≤ n → l !! Z.to_nat n = Some x →
    ∃ s', drv_read n s = Ok (s', x) ∧ drv_ok s' l;
  drv_write_ok s l n x : drv_ok s l → 0 ≤ n < Z.of_nat (length l) → length x = 512%nat →
    ∃ s', drv_write n x s = Ok s' ∧ drv_ok s' (<[Z.to_nat n := x]> l);
}.

(** [struct block], with the state of the driver behind [ops] and [aux]. *)
Record dev (S : Type) := Dev {
  dev_name : string;
  dev_type : block_type;
  dev_size : Z;
  aux : S;
  reads : Z;
  writes : Z;
}.
Arguments Dev {S}.
Arguments dev_name {S}.
Arguments dev_type {S}.
Arguments dev_size {S}.
Arguments aux {S}.
Arguments reads {S}.
Arguments writes {S}.

Definition dev_read {S} `{Driver S} (sector : Z) (d : dev S) : res (dev S * list Z) :=
  if dev_size d <=? sector then Err EPanic else
  '(s, x) ← drv_read sector (aux d);
  Ok (Dev (dev_name d) (dev_type d) (dev_size d) s (u64 (reads d + 1)) (writes d), x).

Definition dev_write {S} `{Driver S} (sector : Z) (buffer : list Z) (d : dev S) : res (dev S) :=
  if dev_size d <=? sector then Err EPanic else
  _ ← ASSERT (bool_decide (dev_type d ≠ BLOCK_FOREIGN));
  s ← drv_write sector buffer (aux d);
  Ok (Dev (dev_name d) (dev_type d) (dev_size d) s (reads d) (u64 (writes d + 1))).

(** ** Refinement *)

(** The device [d] implements the abstract device [b]. *)
Record implements {S} `{DriverOk S} (d : dev S) (b : block) : Prop := {
  im_name : dev_name d = name b;
  im_type : dev_type d = type b;
  im_size : dev_size d = size b;
  im_reads : reads d = read_cnt b;
  im_writes : writes d = write_cnt b;
  im_sectors : drv_ok (aux d) (sectors b);
}.

Section refinement.
Context {S : Type} `{DriverOk S}.

Lemma dev_read_refines (d : dev S) b n b' x : implements d b → 0 ≤ n → block_read b n = Ok (b', x) →
  ∃ d', dev_read n d = Ok (d', x) ∧ implements d' b'.
Proof.
  intros [I1 I2 I3 I4 I5 I6] Hn E. unfold block_read, check_sector in E. unfold dev_read. rewrite I3.
  destruct (size b <=? n) eqn:Es; [done|]. cbn [mbind res_bind] in E. inv_res.
  destruct (drv_read_ok (aux d) (sectors b) n x I6 Hn Hres) as (s' & -> & Hs'). eexists. split; [reflexivity|].
  split; cbn; congruence.
Qed.

Lemma dev_write_refines (d : dev S) b n x b' : implements d b → 0 ≤ n → length x = 512%nat → block_write b n x = Ok b' →
  ∃ d', dev_write n x d = Ok d' ∧ implements d' b'.
Proof.
  intros [I1 I2 I3 I4 I5 I6] Hn Hx E. unfold block_write, check_sector in E. unfold dev_write. rewrite I2, I3.
  destruct (size b <=? n) eqn:Es; [done|]. cbn [mbind res_bind] in E. destruct (bool_decide (type b ≠ BLOCK_FOREIGN)); [|done].
  cbn [ASSERT mbind res_bind] in *. destruct (sectors b !! Z.to_nat n) as [y|] eqn:Ey; [|done]. cbn in E. injection E as <-.
  destruct (drv_write_ok (aux d) (sectors b) n x I6) as (s' & -> & Hs'); [apply lookup_lt_Some in Ey; lia|done|].
  eexists. split; [reflexivity|]. split; cbn; congruence.
Qed.
End refinement.

(** ** Sequences of requests *)

Inductive request := Rd (sector : Z) | Wr (sector : Z) (buffer : list Z).

Definition valid_request (r : request) : Prop :=
  match r with Rd n => 0 ≤ n | Wr n x => 0 ≤ n ∧ length x = 512%nat end.

Definition dev_serve {S} `{Driver S} (r : request) (d : dev S) : res (dev S * list Z) :=
  match r with Rd n => dev_read n d | Wr n x => d ← dev_write n x d; Ok (d, []) end.
Definition block_serve (r : request) (b : block) : res (block * list Z) :=
  match r with Rd n => block_read b n | Wr n x => b ← block_write b n x; Ok (b, []) end.

(** The requests in turn, and the answers. *)
Fixpoint serve_all {D} (serve : request → D → res (D * list Z)) (rs : list request) (d : D) : res (D * list (list Z)) :=
  match rs with
  | [] => Ok (d, [])
  | r :: rs => '(d, x) ← serve r d; '(d, l) ← serve_all serve rs d; Ok (d, x :: l)
  end.

Lemma serve_refines {S} `{DriverOk S} (d : dev S) b r b' x : implements d b → valid_request r → block_serve r b = Ok (b', x) →
  ∃ d', dev_serve r d = Ok (d', x) ∧ implements d' b'.
Proof.
  intros Hi Hr E. destruct r as [n|n y]; cbn in *.
  - by eapply dev_read_refines.
  - inv_res. destruct (dev_write_refines d b n y b' Hi) as (d' & -> & Hi'); [tauto..|done|]. eauto.
Qed.

Lemma serve_all_refines {S} `{DriverOk S} rs : ∀ (d : dev S) b b' l, implements d b → Forall valid_request rs →
  serve_all block_serve rs b = Ok (b', l) → ∃ d', serve_all dev_serve rs d = Ok (d', l) ∧ implements d' b'.
Proof.
  induction rs as [|r rs IH]; intros d b b' l Hi Hr E; cbn in *; inv_res; [eauto|]. inversion Hr as [|? ? Hr1 Hr2]; subst.
  destruct a as [b1 x]. inv_res. destruct a as [b2 l']. inv_res.
  destruct (serve_refines d b r b1 x Hi Hr1) as (d1 & -> & Hi1); [done|].
  destruct (IH d1 b1 b' l' Hi1 Hr2) as (d2 & E2 & Hi2); [done|]. exists d2. cbn. by rewrite E2.
Qed.
