(* ===== verification/Inode.v ===== *)
(** * filesys/inode.c, reading and writing

    The state of the file system in memory and on its device, and the
    functions that read and write the bytes of an open inode.  An inode in
    memory is named by a number, its pointer; memory allocations succeed or
    fail as the list [allocs] says, and succeed when it is used up. *)

From Stdlib Require Import String.
From stdpp Require Import gmap.
From S2P Require Import Prelude Bitmap Vaddr Block.

Definition INODE_MAGIC : Z := 1229868868.

Record inode_disk := InodeDisk { start : Z; ilength : Z; imagic : Z }.

Record inode := Inode {
  sector : Z;
  open_cnt : Z;
  removed : bool;
  deny_write_cnt : Z;
  data : inode_disk;
}.

(** [struct file] of filesys/file.c. *)
Record file := File { file_inode : nat; file_pos : Z; file_deny : bool }.

Record fs := Fs {
  fs_device : block;
  inodes : gmap nat inode;         (* the inodes in memory *)
  open_inodes : list nat;          (* the list of open inodes *)
  next_inode : nat;                (* a pointer not yet used *)
  free_map : bitmap;
  free_map_file : option file;
  allocs : list bool;              (* outcomes of the next allocations *)
}.

Definition set_device (s : fs) (b : block) : fs :=
  Fs b (inodes s) (open_inodes s) (next_inode s) (free_map s) (free_map_file s) (allocs s).
Definition set_inode (s : fs) (i : nat) (n : inode) : fs :=
  Fs (fs_device s) (<[i := n]> (inodes s)) (open_inodes s) (next_inode s) (free_map s)
    (free_map_file s) (allocs s).
Definition set_free_map (s : fs) (m : bitmap) : fs :=
  Fs (fs_device s) (inodes s) (open_inodes s) (next_inode s) m (free_map_file s) (allocs s).
Definition set_free_map_file (s : fs) (f : option file) : fs :=
  Fs (fs_device s) (inodes s) (open_inodes s) (next_inode s) (free_map s) f (allocs s).

(** [malloc] or [calloc]. *)
Definition alloc (s : fs) : fs * bool :=
  match allocs s with
  | [] => (s, true)
  | b :: l => (Fs (fs_device s) (inodes s) (open_inodes s) (next_inode s) (free_map s)
                 (free_map_file s) l, b)
  end.

Definition bytes_to_sectors (size : Z) : Z :=
  u32 (Z.quot (s32 (s32 (size + BLOCK_SECTOR_SIZE) - 1)) BLOCK_SECTOR_SIZE).

Definition byte_to_sector (n : inode) (pos : Z) : Z :=
  if pos <? ilength (data n)
  then u32 (start (data n) + u32 (Z.quot pos BLOCK_SECTOR_SIZE))
  else u32 (-1).

Definition inode_length (n : inode) : Z := ilength (data n).

(** The lines common to the two loops: the offset in the sector, the bytes
    left in it, and the number of bytes to copy. *)
Definition chunk (n : inode) (size offset : Z) : Z * Z * Z :=
  let sector_ofs := Z.rem offset BLOCK_SECTOR_SIZE in
  let inode_left := s32 (inode_length n - offset) in
  let sector_left := BLOCK_SECTOR_SIZE - sector_ofs in
  let min_left := if inode_left <? sector_left then inode_left else sector_left in
  let chunk_size := if size <? min_left then size else min_left in
  (sector_ofs, sector_left, chunk_size).

(** The bounce buffer: allocated when first needed. *)
Definition get_bounce (s : fs) (bounce : bool) : fs * bool :=
  if bounce then (s, true) else alloc s.

(** The loops' states: the file system, the buffer read into, the bytes left,
    the offset, the bytes done, and whether there is a bounce buffer. *)
Definition read_state : Type := fs * list Z * Z * Z * Z * bool.
Definition write_state : Type := fs * Z * Z * Z * bool.

(** One iteration of the loop of [inode_read_at]. *)
Definition read_step (i : nat) (st : read_state) : res (read_state + fs * list Z * Z) :=
  let '(s, buffer, size, offset, bytes_read, bounce) := st in
  if negb (0 <? size) then Ok (inr (s, buffer, bytes_read)) else
  n ← deref (inodes s !! i);
  let sector_idx := byte_to_sector n offset in
  let '(sector_ofs, sector_left, chunk_size) := chunk n size offset in
  if chunk_size <=? 0 then Ok (inr (s, buffer, bytes_read)) else
  if (sector_ofs =? 0) && (chunk_size =? BLOCK_SECTOR_SIZE) then
    '(b, sec) ← block_read (fs_device s) sector_idx;
    buffer ← mem_copy buffer bytes_read sec 0 BLOCK_SECTOR_SIZE;
    Ok (inl (set_device s b, buffer, s32 (size - chunk_size), s32 (offset + chunk_size),
             s32 (bytes_read + chunk_size), bounce))
  else
    let '(s, ok) := get_bounce s bounce in
    if negb ok then Ok (inr (s, buffer, bytes_read)) else
    '(b, sec) ← block_read (fs_device s) sector_idx;
    buffer ← mem_copy buffer bytes_read sec sector_ofs chunk_size;
    Ok (inl (set_device s b, buffer, s32 (size - chunk_size), s32 (offset + chunk_size),
             s32 (bytes_read + chunk_size), true)).

(** [inode_read_at (inode, buffer, size, offset)]: the new buffer and the
    number of bytes read.  Each iteration copies at least one byte. *)
Definition inode_read_at (s : fs) (i : nat) (buffer : list Z) (size offset : Z)
    : res (fs * list Z * Z) :=
  loop (Z.to_nat size + 1) (read_step i) (s, buffer, size, offset, 0, false).

(** One iteration of the loop of [inode_write_at]. *)
Definition write_step (i : nat) (buffer : list Z) (st : write_state) : res (write_state + fs * Z) :=
  let '(s, size, offset, bytes_written, bounce) := st in
  if negb (0 <? size) then Ok (inr (s, bytes_written)) else
  n ← deref (inodes s !! i);
  let sector_idx := byte_to_sector n offset in
  let '(sector_ofs, sector_left, chunk_size) := chunk n size offset in
  if chunk_size <=? 0 then Ok (inr (s, bytes_written)) else
  if (sector_ofs =? 0) && (chunk_size =? BLOCK_SECTOR_SIZE) then
    buf ← mem_copy (repeat 0 512) 0 buffer bytes_written BLOCK_SECTOR_SIZE;
    b ← block_write (fs_device s) sector_idx buf;
    Ok (inl (set_device s b, s32 (size - chunk_size), s32 (offset + chunk_size),
             s32 (bytes_written + chunk_size), bounce))
  else
    let '(s, ok) := get_bounce s bounce in
    if negb ok then Ok (inr (s, bytes_written)) else
    '(b, bouncebuf) ← (if (0 <? sector_ofs) || (chunk_size <? sector_left)
                       then block_read (fs_device s) sector_idx
                       else Ok (fs_device s, repeat 0 512));
    bouncebuf ← mem_copy bouncebuf sector_ofs buffer bytes_written chunk_size;
    b ← block_write b sector_idx bouncebuf;
    Ok (inl (set_device s b, s32 (size - chunk_size), s32 (offset + chunk_size),
             s32 (bytes_written + chunk_size), true)).

(** [inode_write_at (inode, buffer, size, offset)]: the number of bytes
    written. *)
Definition inode_write_at (s : fs) (i : nat) (buffer : list Z) (size offset : Z)
    : res (fs * Z) :=
  n ← deref (inodes s !! i);
  if negb (deny_write_cnt n =? 0) then Ok (s, 0) else
  loop (Z.to_nat size + 1) (write_step i buffer) (s, size, offset, 0, false).

(** ** The bytes of a file *)

(** The inode's data lie on the device. *)
Record extent_ok (b : block) (n : inode) : Prop := {
  ex_len : 0 ≤ ilength (data n) < 2 ^ 31;
  ex_start : 0 ≤ start (data n);
  ex_end : start (data n) + (ilength (data n) + 511) / 512 ≤ size b;
  ex_size : size b < 2 ^ 32;
}.

(** Byte [k] of the file. *)
Definition file_byte (b : block) (n : inode) (k : Z) : Z :=
  at_ (sector_at b (start (data n) + k / 512)) (k mod 512).

(** Everything but the read counter and the allocations is as before. *)
Record same_fs (s s' : fs) : Prop := {
  sf_wf : block_wf (fs_device s');
  sf_sectors : sectors (fs_device s') = sectors (fs_device s);
  sf_size : size (fs_device s') = size (fs_device s);
  sf_inodes : inodes s' = inodes s;
  sf_open : open_inodes s' = open_inodes s;
  sf_next : next_inode s' = next_inode s;
  sf_map : free_map s' = free_map s;
  sf_map_file : free_map_file s' = free_map_file s;
  sf_allocs : allocs s' `suffix_of` allocs s;
}.

(** No allocation fails. *)
Definition mem_ok (s : fs) : Prop := false ∉ allocs s.

Lemma same_fs_refl s : block_wf (fs_device s) → same_fs s s.
Proof. by split. Qed.

Lemma same_fs_trans s1 s2 s3 : same_fs s1 s2 → same_fs s2 s3 → same_fs s1 s3.
Proof.
  intros [] []. split; try congruence. by etransitivity.
Qed.

Lemma same_fs_mem_ok s s' : same_fs s s' → mem_ok s → mem_ok s'.
Proof.
  intros [_ _ _ _ _ _ _ _ [l E]] Hm Hf. apply Hm. rewrite E. apply elem_of_app. auto.
Qed.

Lemma get_bounce_spec s bounce : block_wf (fs_device s) →
  ∃ s' ok, get_bounce s bounce = (s', ok) ∧ same_fs s s' ∧ fs_device s' = fs_device s ∧
    (ok = false → ¬ mem_ok s).
Proof.
  intros Hb. unfold get_bounce, alloc, mem_ok. destruct bounce; [by exists s, true; split_and!; [|apply same_fs_refl| |]|].
  destruct (allocs s) as [|b l] eqn:E; [by exists s, true; split_and!; [|apply same_fs_refl| |]|].
  do 2 eexists. split; [done|]. split_and!; [|done|].
  - split; try done. exists [b]. done.
  - intros ->. intros Hn. apply Hn, elem_of_cons. auto.
Qed.

Lemma chunk_spec n size offset : 0 ≤ ilength (data n) < 2 ^ 31 → 0 ≤ offset < 2 ^ 31 → 0 < size →
  ∃ c, chunk n size offset = (offset mod 512, 512 - offset mod 512, c) ∧
    (c ≤ 0 → ilength (data n) ≤ offset) ∧
    (0 < c → c ≤ size ∧ offset + c ≤ ilength (data n) ∧ offset mod 512 + c ≤ 512 ∧
       offset / 512 < (ilength (data n) + 511) / 512).
Proof.
  intros Hl Ho Hs. unfold chunk, inode_length, BLOCK_SECTOR_SIZE.
  rewrite Z.rem_mod_nonneg, s32_small by c_lia. eexists. split; [done|].
  pose proof (Z.mod_pos_bound offset 512 ltac:(lia)).
  destruct (Z.ltb_spec (ilength (data n) - offset) (512 - offset mod 512)),
    (Z.ltb_spec size (ilength (data n) - offset)),
    (Z.ltb_spec size (512 - offset mod 512)); split; intros; c_lia.
Qed.

Lemma byte_to_sector_spec b n pos : extent_ok b n → 0 ≤ pos < ilength (data n) →
  byte_to_sector n pos = start (data n) + pos / 512 ∧
  0 ≤ start (data n) + pos / 512 < size b.
Proof.
  intros [H1 H2 H3 H4] Hp. unfold byte_to_sector, BLOCK_SECTOR_SIZE.
  rewrite (proj2 (Z.ltb_lt _ _)), Z.quot_div_nonneg by lia.
  assert (0 ≤ pos / 512 < (ilength (data n) + 511) / 512) as Hq by c_lia.
  rewrite (u32_small (pos / 512)), u32_small by (split; lia). lia.
Qed.

(** A byte inside a chunk lies in the chunk's sector. *)
Lemma chunk_byte b n offset j : 0 ≤ offset → 0 ≤ j → offset mod 512 + j < 512 →
  file_byte b n (offset + j) =
    at_ (sector_at b (start (data n) + offset / 512)) (offset mod 512 + j).
Proof.
  intros Ho Hj Hr. unfold file_byte. do 2 f_equal; [f_equal|]; c_lia.
Qed.

(** How many bytes of [size] from [offset] on the file has. *)
Definition available (n : inode) (size offset : Z) : Z :=
  Z.max 0 (Z.min size (ilength (data n) - offset)).

(** The state of the read loop after [k] bytes. *)
Definition read_inv (s : fs) (n : inode) (buf : list Z) (size offset : Z)
    (st : read_state) (k : Z) : Prop :=
  let '(s', buf', size', offset', k', _) := st in
  k' = k ∧ 0 ≤ k ≤ available n size offset ∧ size' = size - k ∧ offset' = offset + k ∧
  same_fs s s' ∧ length buf' = length buf ∧
  ∀ j, 0 ≤ j < Z.of_nat (length buf) →
    at_ buf' j = if j <? k then file_byte (fs_device s) n (offset + j) else at_ buf j.

Lemma file_byte_same s s' n k : same_fs s s' →
  file_byte (fs_device s') n k = file_byte (fs_device s) n k.
Proof. intros H. unfold file_byte, sector_at. by rewrite (sf_sectors _ _ H). Qed.

Lemma same_fs_device s b : block_wf b → sectors b = sectors (fs_device s) →
  size b = size (fs_device s) → same_fs s (set_device s b).
Proof. by split. Qed.

Section read.
Context (s : fs) (i : nat) (n : inode) (buf : list Z) (size offset : Z).
Context (Hb : block_wf (fs_device s)) (Hi : inodes s !! i = Some n)
  (Hx : extent_ok (fs_device s) n)
  (Hsz : 0 ≤ size ≤ Z.of_nat (length buf)) (Hsz31 : size < 2 ^ 31) (Ho : 0 ≤ offset < 2 ^ 31).

(** Copying a chunk keeps the invariant. *)
Lemma read_chunk s' buf' k c so b : same_fs s s' → length buf' = length buf →
  (∀ j, 0 ≤ j < Z.of_nat (length buf) →
    at_ buf' j = if j <? k then file_byte (fs_device s) n (offset + j) else at_ buf j) →
  0 ≤ k → 0 < c → k + c ≤ size → so = (offset + k) mod 512 → so + c ≤ 512 →
  offset + k + c ≤ ilength (data n) →
  ∃ b' buf'', block_read (fs_device s') (byte_to_sector n (offset + k)) =
      Ok (b', sector_at (fs_device s) (start (data n) + (offset + k) / 512)) ∧
    mem_copy buf' k (sector_at (fs_device s) (start (data n) + (offset + k) / 512)) so c = Ok buf'' ∧
    read_inv s n buf size offset
      (set_device s' b', buf'', s32 (size - k - c), s32 (offset + k + c), s32 (k + c), b) (k + c).
Proof using All.
  intros Hs' Hl Hbuf Hk Hc Hkc -> Hso Hlen. pose proof Hs' as [Hb' Hsec Hsize _ _ _ _ _ _].
  destruct Hx as [Hx1 Hx2 Hx3 Hx4].
  destruct (byte_to_sector_spec (fs_device s) n (offset + k)) as [-> Hr]; [done|lia|].
  destruct (block_read_spec (fs_device s') (start (data n) + (offset + k) / 512))
    as (b' & Er & Hbw & Hbs & Hbz); [done|congruence|].
  assert (sector_at (fs_device s') (start (data n) + (offset + k) / 512) =
    sector_at (fs_device s) (start (data n) + (offset + k) / 512)) as Es
    by (unfold sector_at; by rewrite Hsec).
  rewrite Es in Er. exists b'.
  pose proof (sector_length (fs_device s) _ Hb Hr) as Hlen512.
  pose proof (Z.mod_pos_bound (offset + k) 512 ltac:(lia)).
  edestruct (mem_copy_spec buf' k (sector_at (fs_device s) (start (data n) + (offset + k) / 512))
    ((offset + k) mod 512) c) as (buf'' & Ec & Hlc & Hbc); [lia..|].
  exists buf''. split; [done|]. split; [done|]. unfold read_inv, available.
  rewrite !s32_small by (split; lia). split_and!; try lia.
  - eapply same_fs_trans; [done|]. by apply same_fs_device.
  - intros j Hj. rewrite Hbc by lia. rewrite Hbuf by lia.
    destruct (Z.leb_spec k j), (Z.ltb_spec j (k + c)), (Z.ltb_spec j k); cbn [andb]; try lia; try done.
    rewrite <- chunk_byte by lia. f_equal. lia.
Qed.

(** What the loop has read when it ends: all there is, unless an allocation
    failed. *)
Definition read_done (r : fs * list Z * Z) : Prop :=
  let '(s', buf', k) := r in
  ∃ size' offset' b, read_inv s n buf size offset (s', buf', size', offset', k, b) k ∧
    (mem_ok s → k = available n size offset).

Lemma read_step_spec st k : read_inv s n buf size offset st k →
  ∃ r, read_step i st = Ok r ∧
    match r with
    | inl st' => ∃ c, 0 < c ∧ read_inv s n buf size offset st' (k + c)
    | inr x => read_done x
    end.
Proof using All.
  destruct st as [[[[[s' buf'] size'] offset'] k'] b].
  intros (-> & Hk & -> & -> & Hs' & Hl & Hbuf). unfold read_step. pose proof Hx as [Hx1 _ _ _].
  assert (k = available n size offset → read_done (s', buf', k)) as Hdone.
  { intros HP. exists (size - k), (offset + k), b. split; [|done]. unfold read_inv. split_and!; done || lia. }
  destruct (Z.ltb_spec 0 (size - k)) as [Hpos|]; cbn [negb].
  2: { eexists. split; [done|]. apply Hdone. unfold available in *. lia. }
  rewrite (sf_inodes _ _ Hs'), Hi. cbn [deref mbind res_bind].
  assert (0 ≤ offset + k < 2 ^ 31) as Hok by (unfold available in Hk; lia).
  destruct (chunk_spec n (size - k) (offset + k)) as (c & -> & Hc0 & Hc1); [done|lia|done|].
  destruct (Z.leb_spec c 0).
  { eexists. split; [done|]. apply Hdone. unfold available in *. lia. }
  destruct (Hc1 ltac:(lia)) as (Hc2 & Hc3 & Hc4 & Hc5).
  destruct (_ && _) eqn:Efull.
  - apply andb_true_iff in Efull as [E1%Z.eqb_eq E2%Z.eqb_eq]. unfold BLOCK_SECTOR_SIZE in *.
    destruct (read_chunk s' buf' k c ((offset + k) mod 512) b) as (b' & buf'' & -> & Ec & Hinv);
      [done..|lia|lia|lia|done|lia|lia|].
    cbn [mbind res_bind]. rewrite E1, E2 in Ec. rewrite Ec. cbn [mbind res_bind].
    eexists. split; [done|]. exists c. done.
  - destruct (get_bounce_spec s' b) as (s2 & ok & -> & Hs2 & Ed & Hok2); [apply Hs'|].
    destruct ok; cbn [negb].
    + destruct (read_chunk s2 buf' k c ((offset + k) mod 512) true) as (b' & buf'' & Er & Ec & Hinv);
        [by eapply same_fs_trans|done..|lia|lia|lia|done|lia|lia|].
      rewrite Er. cbn [mbind res_bind]. rewrite Ec. cbn [mbind res_bind]. eexists. split; [done|]. exists c. done.
    + eexists. split; [done|]. exists (size - k), (offset + k), b.
      split; [|intros Hm; destruct (Hok2 eq_refl); by eapply same_fs_mem_ok].
      unfold read_inv. split_and!; try done; try lia. by eapply same_fs_trans.
Qed.

Lemma inode_read_at_total : ∃ r, inode_read_at s i buf size offset = Ok r ∧ read_done r.
Proof using All.
  apply (loop_total (λ m st, ∃ k, read_inv s n buf size offset st k ∧ m = Z.to_nat (size - k))
    read_done (read_step i)) with (k := Z.to_nat size).
  - intros m st (k & Hinv & ->). destruct (read_step_spec st k Hinv) as (r & -> & Hr).
    exists r. split; [done|]. destruct r as [st'|x]; [|done]. destruct Hr as (c & Hc & Hinv').
    exists (Z.to_nat (size - (k + c))). split; [|by eauto].
    destruct st as [[[[[? ?] ?] ?] ?] ?], st' as [[[[[? ?] ?] ?] ?] ?].
    destruct Hinv as (_ & ? & _), Hinv' as (_ & ? & _). unfold available in *. lia.
  - exists 0. split; [|f_equal; lia]. unfold read_inv, available. split_and!; try lia.
    + by apply same_fs_refl.
    + intros j Hj. by rewrite (proj2 (Z.ltb_ge j 0)) by lia.
  - lia.
Qed.
End read.

(** [inode_read_at] in one lemma. *)
Lemma inode_read_at_spec s i n buf size offset :
  block_wf (fs_device s) → inodes s !! i = Some n → extent_ok (fs_device s) n →
  0 ≤ size ≤ Z.of_nat (length buf) → size < 2 ^ 31 → 0 ≤ offset < 2 ^ 31 →
  ∃ s' buf' k, inode_read_at s i buf size offset = Ok (s', buf', k) ∧ same_fs s s' ∧
    0 ≤ k ≤ available n size offset ∧ (mem_ok s → k = available n size offset) ∧
    length buf' = length buf ∧
    ∀ j, 0 ≤ j < Z.of_nat (length buf) →
      at_ buf' j = if j <? k then file_byte (fs_device s) n (offset + j) else at_ buf j.
Proof.
  intros. destruct (inode_read_at_total s i n buf size offset) as ([[s' buf'] k] & -> & Hd); [done..|].
  destruct Hd as (size' & offset' & b & (_ & ? & _ & _ & ? & ? & ?) & ?).
  exists s', buf', k. split_and!; done || lia.
Qed.

(** [s'] is [s] after the first [k] bytes of [buf] have been written at
    [offset] of the file: exactly these bytes of the device changed. *)
Record wrote (s s' : fs) (n : inode) (buf : list Z) (offset k : Z) : Prop := {
  wr_wf : block_wf (fs_device s');
  wr_size : size (fs_device s') = size (fs_device s);
  wr_bytes m j : 0 ≤ m → 0 ≤ j < 512 →
    at_ (sector_at (fs_device s') m) j =
      let q := (m - start (data n)) * 512 + j in
      if (offset <=? q) && (q <? offset + k) then at_ buf (q - offset)
      else at_ (sector_at (fs_device s) m) j;
  wr_inodes : inodes s' = inodes s;
  wr_open : open_inodes s' = open_inodes s;
  wr_next : next_inode s' = next_inode s;
  wr_map : free_map s' = free_map s;
  wr_map_file : free_map_file s' = free_map_file s;
  wr_allocs : allocs s' `suffix_of` allocs s;
}.

Lemma wrote_refl s n buf offset : block_wf (fs_device s) → wrote s s n buf offset 0.
Proof.
  intros Hb. split; try done. intros m j Hm Hj. cbv zeta.
  by replace (_ && _) with false by lia.
Qed.

Lemma wrote_same s s1 s2 n buf offset k : wrote s s1 n buf offset k → same_fs s1 s2 →
  wrote s s2 n buf offset k.
Proof.
  intros [] []. split; try congruence; [|by etransitivity].
  intros m j Hm Hj. unfold sector_at in *. rewrite sf_sectors0. auto.
Qed.

Lemma wrote_mem_ok s s' n buf offset k : wrote s s' n buf offset k → mem_ok s → mem_ok s'.
Proof.
  intros [_ _ _ _ _ _ _ _ [l E]] Hm Hf. apply Hm. rewrite E. apply elem_of_app. auto.
Qed.

(** Writing the next chunk: [sec] is the chunk's sector with the chunk put
    into it. *)
Lemma wrote_chunk s s' n buf offset k c sec b : wrote s s' n buf offset k →
  0 ≤ offset → 0 ≤ k → 0 < c → (offset + k) mod 512 + c ≤ 512 → 0 ≤ start (data n) →
  block_wf b → size b = size (fs_device s') →
  (∀ m, 0 ≤ m → sector_at b m =
     if m =? start (data n) + (offset + k) / 512 then sec else sector_at (fs_device s') m) →
  (∀ j, 0 ≤ j < 512 → at_ sec j =
     if ((offset + k) mod 512 <=? j) && (j <? (offset + k) mod 512 + c)
     then at_ buf (k + (j - (offset + k) mod 512))
     else at_ (sector_at (fs_device s') (start (data n) + (offset + k) / 512)) j) →
  wrote s (set_device s' b) n buf offset (k + c).
Proof.
  intros Hw Ho Hk Hc Hso Hst Hb Hsz Hsec Hj. pose proof Hw as []. split; try (done || cbn; congruence).
  intros m j Hm Hj512. cbn [fs_device set_device]. rewrite Hsec by done. cbv zeta.
  pose proof (Z.div_mod (offset + k) 512 ltac:(lia)) as Edm.
  pose proof (Z.mod_pos_bound (offset + k) 512 ltac:(lia)) as Hmod.
  set (so := (offset + k) mod 512) in *. set (t := (offset + k) / 512) in *. clearbody so t.
  destruct (Z.eqb_spec m (start (data n) + t)) as [->|Hne].
  - rewrite Hj by done. rewrite wr_bytes0 by (done || lia). cbv zeta.
    replace ((start (data n) + t - start (data n)) * 512 + j) with (t * 512 + j) by lia.
    destruct (Z.leb_spec so j), (Z.ltb_spec j (so + c)), (Z.leb_spec offset (t * 512 + j)),
      (Z.ltb_spec (t * 512 + j) (offset + k)), (Z.ltb_spec (t * 512 + j) (offset + (k + c)));
      cbn [andb]; try lia; try done. f_equal. lia.
  - rewrite wr_bytes0 by done. cbv zeta. set (q := (m - start (data n)) * 512 + j).
    assert (¬ (offset + k ≤ q < offset + k + c)) by (subst q; lia).
    replace ((offset <=? q) && (q <? offset + (k + c))) with ((offset <=? q) && (q <? offset + k)) by lia.
    done.
Qed.

(** The state of the write loop after [k] bytes. *)
Definition write_inv (s : fs) (n : inode) (buf : list Z) (size offset : Z)
    (st : write_state) (k : Z) : Prop :=
  let '(s', size', offset', k', _) := st in
  k' = k ∧ 0 ≤ k ≤ available n size offset ∧ size' = size - k ∧ offset' = offset + k ∧
  wrote s s' n buf offset k.

Section write.
Context (s : fs) (i : nat) (n : inode) (buf : list Z) (size offset : Z).
Context (Hb : block_wf (fs_device s)) (Hi : inodes s !! i = Some n)
  (Hx : extent_ok (fs_device s) n)
  (Hsz : 0 ≤ size) (Hlb : available n size offset ≤ Z.of_nat (length buf)) (Hsz31 : size < 2 ^ 31) (Ho : 0 ≤ offset < 2 ^ 31).

(** Putting a chunk into a sector and writing the sector. *)
Lemma write_chunk s' k c old b b0 : wrote s s' n buf offset k →
  0 ≤ k → 0 < c → k + c ≤ size → (offset + k) mod 512 + c ≤ 512 →
  offset + k + c ≤ ilength (data n) → Z.of_nat (length old) = 512 →
  (∀ j, 0 ≤ j < 512 → ¬ ((offset + k) mod 512 ≤ j < (offset + k) mod 512 + c) →
     at_ old j = at_ (sector_at (fs_device s') (start (data n) + (offset + k) / 512)) j) →
  block_wf b0 → sectors b0 = sectors (fs_device s') → Block.size b0 = Block.size (fs_device s') →
  ∃ sec b', mem_copy old ((offset + k) mod 512) buf k c = Ok sec ∧
    block_write b0 (byte_to_sector n (offset + k)) sec = Ok b' ∧
    write_inv s n buf size offset
      (set_device s' b', s32 (size - k - c), s32 (offset + k + c), s32 (k + c), b) (k + c).
Proof using All.
  intros Hw Hk Hc Hkc Hso Hlen Hold Hsame Hb0 Hs0 Hz0. pose proof Hx as [Hx1 Hx2 Hx3 Hx4].
  destruct (byte_to_sector_spec (fs_device s) n (offset + k)) as [-> Hr]; [done|lia|].
  pose proof (Z.mod_pos_bound (offset + k) 512 ltac:(lia)).
  destruct (mem_copy_spec old ((offset + k) mod 512) buf k c) as (sec & Ec & Hl & Hj); [unfold available in Hlb; lia..|].
  destruct (block_write_spec b0 (start (data n) + (offset + k) / 512) sec) as (b' & Eb & Hb' & Hsz' & Hsec);
    [done|pose proof (wr_size _ _ _ _ _ _ Hw); lia|lia|].
  exists sec, b'. split; [done|]. split; [done|]. unfold write_inv, available.
  rewrite !s32_small by (split; lia). split_and!; try lia.
  apply (wrote_chunk s s' n buf offset k c sec b'); try (done || lia).
  - intros m Hm. rewrite Hsec by done. unfold sector_at. by rewrite Hs0.
  - intros j Hj512. rewrite Hj by lia.
    destruct (Z.leb_spec ((offset + k) mod 512) j), (Z.ltb_spec j ((offset + k) mod 512 + c));
      cbn [andb]; try done; apply Hsame; lia.
Qed.

Definition write_done (r : fs * Z) : Prop :=
  let '(s', k) := r in
  wrote s s' n buf offset k ∧ 0 ≤ k ≤ available n size offset ∧
  (mem_ok s → k = available n size offset).

Lemma write_step_spec st k : write_inv s n buf size offset st k →
  ∃ r, write_step i buf st = Ok r ∧
    match r with
    | inl st' => ∃ c, 0 < c ∧ write_inv s n buf size offset st' (k + c)
    | inr x => write_done x
    end.
Proof using All.
  destruct st as [[[[s' size'] offset'] k'] b]. intros (-> & Hk & -> & -> & Hw).
  unfold write_step. pose proof Hx as [Hx1 Hx2 Hx3 Hx4].
  destruct (Z.ltb_spec 0 (size - k)) as [Hpos|]; cbn [negb].
  2: { eexists. split; [done|]. split_and!; try done; unfold available in *; lia. }
  rewrite (wr_inodes _ _ _ _ _ _ Hw), Hi. cbn [deref mbind res_bind].
  assert (0 ≤ offset + k < 2 ^ 31) as Hok by (unfold available in Hk; lia).
  destruct (chunk_spec n (size - k) (offset + k)) as (c & -> & Hc0 & Hc1); [done|lia|done|].
  destruct (Z.leb_spec c 0).
  { eexists. split; [done|]. split_and!; try done; unfold available in *; lia. }
  destruct (Hc1 ltac:(lia)) as (Hc2 & Hc3 & Hc4 & Hc5).
  destruct (_ && _) eqn:Efull.
  - apply andb_true_iff in Efull as [E1%Z.eqb_eq E2%Z.eqb_eq]. unfold BLOCK_SECTOR_SIZE in *.
    destruct (write_chunk s' k c (repeat 0 512) b (fs_device s')) as (sec & b' & Ec & Eb & Hinv);
      try done; try lia; [apply (wr_wf _ _ _ _ _ _ Hw)|].
    rewrite E1, E2 in Ec. rewrite Ec. cbn [mbind res_bind]. rewrite Eb. cbn [mbind res_bind].
    eexists. split; [done|]. exists c. done.
  - destruct (get_bounce_spec s' b) as (s2 & ok & -> & Hs2 & Ed & Hok2); [apply (wr_wf _ _ _ _ _ _ Hw)|].
    pose proof (wrote_same _ _ _ _ _ _ _ Hw Hs2) as Hw2.
    destruct ok; cbn [negb].
    2: { eexists. split; [done|]. split_and!; try done; try lia.
         intros Hm. destruct (Hok2 eq_refl). by eapply wrote_mem_ok. }
    rewrite (proj2 (orb_true_iff _ _)).
    2: { unfold BLOCK_SECTOR_SIZE in *. apply andb_false_iff in Efull as [E%Z.eqb_neq|E%Z.eqb_neq];
         pose proof (Z.mod_pos_bound (offset + k) 512); lia. }
    destruct (byte_to_sector_spec (fs_device s) n (offset + k)) as [Et Hr]; [done|lia|].
    destruct (block_read_spec (fs_device s2) (start (data n) + (offset + k) / 512))
      as (b2 & Er & Hb2 & Hsec2 & Hsz2); [apply (wr_wf _ _ _ _ _ _ Hw2)|rewrite (wr_size _ _ _ _ _ _ Hw2); lia|].
    rewrite Et, Er. cbn [mbind res_bind].
    destruct (write_chunk s2 k c (sector_at (fs_device s2) (start (data n) + (offset + k) / 512)) true b2)
      as (sec & b' & Ec & Eb & Hinv); try done; try lia.
    { apply sector_length; [apply (wr_wf _ _ _ _ _ _ Hw2)|]. rewrite (wr_size _ _ _ _ _ _ Hw2). lia. }
    rewrite Ec. cbn [mbind res_bind]. rewrite Et in Eb. rewrite Eb. cbn [mbind res_bind].
    eexists. split; [done|]. exists c. done.
Qed.

Lemma inode_write_at_spec : deny_write_cnt n = 0 →
  ∃ s' k, inode_write_at s i buf size offset = Ok (s', k) ∧ wrote s s' n buf offset k ∧
    0 ≤ k ≤ available n size offset ∧ (mem_ok s → k = available n size offset).
Proof using All.
  intros Hd. unfold inode_write_at. rewrite Hi. cbn [deref mbind res_bind]. rewrite Hd. cbn [Z.eqb negb].
  destruct (loop_total (λ m st, ∃ k, write_inv s n buf size offset st k ∧ m = Z.to_nat (size - k))
    write_done (write_step i buf)) with (n := (Z.to_nat size + 1)%nat) (k := Z.to_nat size)
    (s := (s, size, offset, 0, false)) as ([s' k] & Hloop & Hdone).
  - intros m st (k & Hinv & ->). destruct (write_step_spec st k Hinv) as (r & -> & Hr).
    exists r. split; [done|]. destruct r as [st'|x]; [|done]. destruct Hr as (c & Hc & Hinv').
    exists (Z.to_nat (size - (k + c))). split; [|by eauto].
    destruct st as [[[[? ?] ?] ?] ?], st' as [[[[? ?] ?] ?] ?].
    destruct Hinv as (_ & ? & _), Hinv' as (_ & ? & _). unfold available in *. lia.
  - exists 0. split; [|f_equal; lia]. unfold write_inv, available. split_and!; try lia.
    by apply wrote_refl.
  - lia.
  - exists s', k. split; [done|]. destruct Hdone as (? & ? & ?). split_and!; done || lia.
Qed.
End write.

Lemma wrote_file_byte s s' n buf offset k j : wrote s s' n buf offset k →
  0 ≤ start (data n) → 0 ≤ j →
  file_byte (fs_device s') n j =
    if (offset <=? j) && (j <? offset + k) then at_ buf (j - offset)
    else file_byte (fs_device s) n j.
Proof.
  intros Hw Hs Hj. unfold file_byte. pose proof (Z.mod_pos_bound j 512 ltac:(lia)).
  rewrite (wr_bytes _ _ _ _ _ _ Hw) by c_lia. cbv zeta.
  by replace ((start (data n) + j / 512 - start (data n)) * 512 + j mod 512) with j by c_lia.
Qed.

(** ** Theorems *)

(** [inode_read_at] copies exactly the bytes of the file from [offset] on
    that exist and are asked for, over one or many sectors, whole or in part;
    it leaves the rest of the buffer and the file system alone.  It reads
    fewer bytes only when an allocation of its bounce buffer fails. *)
Theorem inode_read_at_correct s i n buf size offset :
  block_wf (fs_device s) → inodes s !! i = Some n → extent_ok (fs_device s) n →
  0 ≤ size ≤ Z.of_nat (length buf) → size < 2 ^ 31 → 0 ≤ offset < 2 ^ 31 →
  ∃ s' buf' k, inode_read_at s i buf size offset = Ok (s', buf', k) ∧ same_fs s s' ∧
    0 ≤ k ≤ available n size offset ∧ (mem_ok s → k = available n size offset) ∧
    length buf' = length buf ∧
    ∀ j, 0 ≤ j < Z.of_nat (length buf) →
      at_ buf' j = if j <? k then file_byte (fs_device s) n (offset + j) else at_ buf j.
Proof. apply inode_read_at_spec. Qed.

(** [inode_write_at] changes exactly the bytes it reports to have written,
    on the whole device, to those of the buffer; it writes as much as fits
    into the file, unless an allocation fails or writes are denied; and
    [inode_read_at] then reads the written bytes back. *)
Theorem inode_write_read s i n buf size offset :
  block_wf (fs_device s) → inodes s !! i = Some n → extent_ok (fs_device s) n →
  0 ≤ size ≤ Z.of_nat (length buf) → size < 2 ^ 31 → 0 ≤ offset < 2 ^ 31 →
  if deny_write_cnt n =? 0 then
    ∃ s' k, inode_write_at s i buf size offset = Ok (s', k) ∧ wrote s s' n buf offset k ∧
      0 ≤ k ≤ available n size offset ∧ (mem_ok s → k = available n size offset) ∧
      ∀ out, k ≤ Z.of_nat (length out) → mem_ok s →
        ∃ s'' out', inode_read_at s' i out k offset = Ok (s'', out', k) ∧
          ∀ j, 0 ≤ j < k → at_ out' j = at_ buf j
  else inode_write_at s i buf size offset = Ok (s, 0).
Proof.
  intros Hb Hi Hx Hsz Hsz31 Ho. destruct (Z.eqb_spec (deny_write_cnt n) 0) as [Hd|Hd].
  2: { unfold inode_write_at. rewrite Hi. cbn. by rewrite (proj2 (Z.eqb_neq _ _)). }
  destruct (inode_write_at_spec s i n buf size offset) as (s' & k & E & Hw & Hk & Hm); try done; [lia|unfold available; lia|].
  exists s', k. split_and!; try done; try lia. intros out Hout Hmem. pose proof Hx as [H1 H2 H3 H4].
  destruct (inode_read_at_spec s' i n out k offset) as (s'' & out' & k' & E' & _ & _ & Hk' & _ & Hj).
  - apply (wr_wf _ _ _ _ _ _ Hw).
  - by rewrite (wr_inodes _ _ _ _ _ _ Hw).
  - pose proof (wr_size _ _ _ _ _ _ Hw). split; lia.
  - lia.
  - unfold available in *. lia.
  - done.
  - specialize (Hk' (wrote_mem_ok _ _ _ _ _ _ Hw Hmem)).
    assert (k' = k) as -> by (unfold available in *; lia).
    exists s'', out'. split; [done|]. intros j Hjk. rewrite Hj, (proj2 (Z.ltb_lt j k)) by lia.
    rewrite (wrote_file_byte _ _ _ _ _ _ _ Hw) by lia. replace (_ && _) with true by lia.
    f_equal. lia.
Qed.

(** ** Witnesses *)

Definition demo_inode : inode := Inode 0 1 false 0 (InodeDisk 1 600 INODE_MAGIC).
Definition demo_block : block :=
  Block "hdb1" BLOCK_FILESYS 4 (repeat (repeat 7 512) 4) 0 0.
Definition demo_fs : fs :=
  Fs demo_block {[ 0%nat := demo_inode ]} [0%nat] 1 (Bitmap 0 []) None [].

Lemma demo_block_wf : block_wf demo_block.
Proof.
  split; [done| |done]. cbn. intros s Hs. repeat (apply elem_of_cons in Hs as [->|Hs]; [done|]).
  by apply not_elem_of_nil in Hs.
Qed.

Lemma demo_extent_ok : extent_ok demo_block demo_inode.
Proof. split; vm_compute; repeat split; discriminate || reflexivity. Qed.

Lemma inode_read_at_witness : ∃ s buf, inode_read_at demo_fs 0 (repeat 0 100) 100 550 = Ok (s, buf, 50).
Proof.
  destruct (inode_read_at_correct demo_fs 0 demo_inode (repeat 0 100) 100 550
    demo_block_wf eq_refl demo_extent_ok) as (s & buf & k & E & _ & _ & Hk & _).
  - split; [lia|discriminate].
  - lia.
  - lia.
  - exists s, buf. rewrite E. rewrite Hk; [reflexivity|]. apply not_elem_of_nil.
Defined.

Lemma inode_write_read_witness : ∃ s, inode_write_at demo_fs 0 (repeat 9 100) 100 480 = Ok (s, 100).
Proof.
  destruct (inode_write_read demo_fs 0 demo_inode (repeat 9 100) 100 480
    demo_block_wf eq_refl demo_extent_ok) as (s & k & E & _ & _ & Hk & _).
  - split; [lia|discriminate].
  - lia.
  - lia.
  - exists s. rewrite E. rewrite Hk; [reflexivity|]. apply not_elem_of_nil.
Defined.
