(* ===== verification/FreeMap.v ===== *)
(** * filesys/free-map.c and the life of inodes

    The free map, kept in memory and in a file, and the functions of
    filesys/inode.c that create, open, close and remove inodes. *)

From stdpp Require Import gmap.
From S2P Require Import Prelude Bitmap Vaddr Block Inode.

Definition FREE_MAP_SECTOR : Z := 0.
Definition ROOT_DIR_SECTOR : Z := 1.

(** [bitmap_write (map, file)] through the file's inode. *)
Definition write_map (s : fs) (m : bitmap) (f : file) : res (fs * bool) :=
  bitmap_write (λ bytes ofs s,
    inode_write_at s (file_inode f) bytes (Z.of_nat (length bytes)) ofs) m s.

Definition free_map_init (s : fs) (mem1 : bool) (mem2 : option (list Z)) : res fs :=
  m ← bitmap_create (block_size (fs_device s)) mem1 mem2;
  match m with
  | None => Err EPanic
  | Some m =>
      m ← bitmap_mark m FREE_MAP_SECTOR;
      m ← bitmap_mark m ROOT_DIR_SECTOR;
      Ok (set_free_map s m)
  end.

(** [free_map_allocate (cnt, &sector)]: the sector when successful. *)
Definition free_map_allocate (s : fs) (cnt : Z) : res (fs * option Z) :=
  '(m, sector) ← bitmap_scan_and_flip (free_map s) 0 cnt false;
  let s := set_free_map s m in
  '(s, sector) ←
    match (if sector =? BITMAP_ERROR then None else free_map_file s) with
    | None => Ok (s, sector)
    | Some f =>
        '(s, ok) ← write_map s (free_map s) f;
        if negb ok then
          m ← bitmap_set_multiple (free_map s) sector cnt false;
          Ok (set_free_map s m, BITMAP_ERROR)
        else Ok (s, sector)
    end;
  Ok (s, if sector =? BITMAP_ERROR then None else Some sector).

Definition free_map_release (s : fs) (sector cnt : Z) : res fs :=
  all ← bitmap_all (free_map s) sector cnt;
  _ ← ASSERT all;
  m ← bitmap_set_multiple (free_map s) sector cnt false;
  let s := set_free_map s m in
  f ← deref (free_map_file s);
  '(s, _) ← write_map s (free_map s) f;
  Ok s.

(** [struct inode_disk] as it lies in its sector. *)
Definition encode_inode (d : inode_disk) : list Z :=
  elem_bytes (start d) ++ elem_bytes (u32 (ilength d)) ++ elem_bytes (imagic d) ++ repeat 0 500.
Definition decode_inode (bs : list Z) : inode_disk :=
  match bytes_elems (take 12 bs) with
  | [a; b; c] => InodeDisk a (s32 b) c
  | _ => InodeDisk 0 0 0
  end.

Definition inode_create (s : fs) (sector length : Z) : res (fs * bool) :=
  _ ← ASSERT (0 <=? length);
  let '(s, ok) := alloc s in
  if negb ok then Ok (s, false) else
  let sectors := bytes_to_sectors length in
  '(s, r) ← free_map_allocate s sectors;
  match r with
  | None => Ok (s, false)
  | Some st =>
      b ← block_write (fs_device s) sector (encode_inode (InodeDisk st length INODE_MAGIC));
      b ← for_up (Z.to_nat sectors) 0 (λ i b, block_write b (u32 (st + i)) (repeat 0 512)) b;
      Ok (set_device s b, true)
  end.

Definition inode_reopen (s : fs) (i : nat) : res fs :=
  n ← deref (inodes s !! i);
  Ok (set_inode s i (Inode (sector n) (s32 (open_cnt n + 1)) (removed n) (deny_write_cnt n) (data n))).

Definition has_sector (s : fs) (sec : Z) (i : nat) : bool :=
  match inodes s !! i with Some n => sector n =? sec | None => false end.

Definition inode_open (s : fs) (sec : Z) : res (fs * option nat) :=
  match list_find (λ i, has_sector s sec i) (open_inodes s) with
  | Some (_, i) => s ← inode_reopen s i; Ok (s, Some i)
  | None =>
      let '(s, ok) := alloc s in
      if negb ok then Ok (s, None) else
      let i := next_inode s in
      '(b, bs) ← block_read (fs_device s) sec;
      Ok (Fs b (<[i := Inode sec 1 false 0 (decode_inode bs)]> (inodes s)) (i :: open_inodes s)
            (S i) (free_map s) (free_map_file s) (allocs s), Some i)
  end.

Definition inode_get_inumber (s : fs) (i : nat) : res Z :=
  n ← deref (inodes s !! i); Ok (sector n).

Definition inode_close (s : fs) (inode : option nat) : res fs :=
  match inode with
  | None => Ok s
  | Some i =>
      n ← deref (inodes s !! i);
      let n := Inode (sector n) (s32 (open_cnt n - 1)) (removed n) (deny_write_cnt n) (data n) in
      let s := set_inode s i n in
      if open_cnt n =? 0 then
        let s := Fs (fs_device s) (inodes s) (filter (λ j, j ≠ i) (open_inodes s)) (next_inode s)
                   (free_map s) (free_map_file s) (allocs s) in
        s ← (if removed n then
               s ← free_map_release s (sector n) 1;
               free_map_release s (start (data n)) (bytes_to_sectors (ilength (data n)))
             else Ok s);
        Ok (Fs (fs_device s) (delete i (inodes s)) (open_inodes s) (next_inode s)
              (free_map s) (free_map_file s) (allocs s))
      else Ok s
  end.

Definition inode_remove (s : fs) (inode : option nat) : res fs :=
  i ← deref inode;
  n ← deref (inodes s !! i);
  Ok (set_inode s i (Inode (sector n) (open_cnt n) true (deny_write_cnt n) (data n))).

Definition inode_deny_write (s : fs) (i : nat) : res fs :=
  n ← deref (inodes s !! i);
  let n := Inode (sector n) (open_cnt n) (removed n) (s32 (deny_write_cnt n + 1)) (data n) in
  _ ← ASSERT (deny_write_cnt n <=? open_cnt n);
  Ok (set_inode s i n).

Definition inode_allow_write (s : fs) (i : nat) : res fs :=
  n ← deref (inodes s !! i);
  _ ← ASSERT (0 <? deny_write_cnt n);
  _ ← ASSERT (deny_write_cnt n <=? open_cnt n);
  Ok (set_inode s i
        (Inode (sector n) (open_cnt n) (removed n) (s32 (deny_write_cnt n - 1)) (data n))).
