(* ===== verification/File.v ===== *)
(** * filesys/file.c and the free map file

    An open file is its inode, its position and whether it denies writes.
    Files are passed and returned by value; the inodes behind them are
    shared. *)

From stdpp Require Import gmap.
From S2P Require Import Prelude Bitmap Vaddr Block Inode FreeMap.

Definition file_open (s : fs) (inode : option nat) : res (fs * option file) :=
  let '(s, ok) := alloc s in
  match inode with
  | Some i => if ok : bool then Ok (s, Some (File i 0 false))
              else s ← inode_close s inode; Ok (s, None)
  | None => s ← inode_close s inode; Ok (s, None)
  end.

Definition file_reopen (s : fs) (f : file) : res (fs * option file) :=
  s ← inode_reopen s (file_inode f); file_open s (Some (file_inode f)).

Definition file_deny_write (s : fs) (f : file) : res (fs * file) :=
  if negb (file_deny f) then
    s ← inode_deny_write s (file_inode f);
    Ok (s, File (file_inode f) (file_pos f) true)
  else Ok (s, f).

Definition file_allow_write (s : fs) (f : file) : res (fs * file) :=
  if file_deny f then
    s ← inode_allow_write s (file_inode f);
    Ok (s, File (file_inode f) (file_pos f) false)
  else Ok (s, f).

Definition file_close (s : fs) (file : option file) : res fs :=
  match file with
  | None => Ok s
  | Some f => '(s, f) ← file_allow_write s f; inode_close s (Some (file_inode f))
  end.

Definition file_get_inode (f : file) : nat := file_inode f.

Definition file_read (s : fs) (f : file) (buffer : list Z) (size : Z)
    : res (fs * file * list Z * Z) :=
  '(s, buffer, bytes_read) ← inode_read_at s (file_inode f) buffer size (file_pos f);
  Ok (s, File (file_inode f) (s32 (file_pos f + bytes_read)) (file_deny f), buffer, bytes_read).

Definition file_read_at (s : fs) (f : file) (buffer : list Z) (size file_ofs : Z)
    : res (fs * list Z * Z) :=
  inode_read_at s (file_inode f) buffer size file_ofs.

Definition file_write (s : fs) (f : file) (buffer : list Z) (size : Z) : res (fs * file * Z) :=
  '(s, bytes_written) ← inode_write_at s (file_inode f) buffer size (file_pos f);
  Ok (s, File (file_inode f) (s32 (file_pos f + bytes_written)) (file_deny f), bytes_written).

Definition file_write_at (s : fs) (f : file) (buffer : list Z) (size file_ofs : Z)
    : res (fs * Z) :=
  inode_write_at s (file_inode f) buffer size file_ofs.

Definition file_length (s : fs) (f : file) : res Z :=
  n ← deref (inodes s !! file_inode f); Ok (inode_length n).

Definition file_seek (f : file) (new_pos : Z) : res file :=
  _ ← ASSERT (0 <=? new_pos); Ok (File (file_inode f) new_pos (file_deny f)).

Definition file_tell (f : file) : Z := file_pos f.

(** ** The free map file *)

(** The free map file is opened and its contents replace the free map. *)
Definition free_map_open (s : fs) : res fs :=
  '(s, i) ← inode_open s FREE_MAP_SECTOR;
  '(s, f) ← file_open s i;
  let s := set_free_map_file s f in
  match f with
  | None => Err EPanic
  | Some f =>
      let size := bitmap_file_size (free_map s) in
      '(s, buffer, n) ← file_read_at s f (repeat 0 (Z.to_nat size)) size 0;
      '(m, ok) ← bitmap_read (λ _ _ _, Ok (take (Z.to_nat n) buffer)) (free_map s) f;
      if negb ok then Err EPanic else Ok (set_free_map s m)
  end.

Definition free_map_close (s : fs) : res fs := file_close s (free_map_file s).

Definition free_map_create (s : fs) : res fs :=
  '(s, ok) ← inode_create s FREE_MAP_SECTOR (bitmap_file_size (free_map s));
  if negb ok then Err EPanic else
  '(s, i) ← inode_open s FREE_MAP_SECTOR;
  '(s, f) ← file_open s i;
  let s := set_free_map_file s f in
  match f with
  | None => Err EPanic
  | Some f =>
      '(s, ok) ← write_map s (free_map s) f;
      if negb ok then Err EPanic else Ok s
  end.
