(* ===== verification/Directory.v ===== *)
(** * filesys/directory.c

    A directory is a file of 20-byte entries: the sector of the inode, the
    name in 15 bytes, and whether the entry is in use.  Names are lists of
    characters without the null that ends them.  The functions' local
    [struct dir_entry] is a buffer that starts with what was on the stack. *)

From Stdlib Require Import String.
From stdpp Require Import gmap.
From S2P Require Import Prelude Bitmap Vaddr Block Inode FreeMap.

Record dir := Dir { dir_inode : nat; dir_pos : Z }.

Definition NAME_MAX : Z := 14.
Definition sizeof_entry : Z := 20.

(** The fields of a [struct dir_entry] in its 20 bytes. *)
Definition e_sector (e : list Z) : Z :=
  match bytes_elems (take 4 e) with [a] => a | _ => 0 end.
Definition e_name (e : list Z) : list Z := take 15 (drop 4 e).
Definition e_in_use (e : list Z) : bool := negb (at_ e 19 =? 0).

(** The characters before the first null. *)
Fixpoint cstring (l : list Z) : list Z :=
  match l with
  | [] => []
  | c :: l => if c =? 0 then [] else c :: cstring l
  end.

(** [!strcmp (name, e.name)]; without a null in [e.name] the comparison runs
    past the array. *)
Definition same_name (name : list Z) (e : list Z) : res bool :=
  if bool_decide (0 ∈ e_name e) then Ok (bool_decide (cstring (e_name e) = name)) else Err EFault.

Definition dir_create (s : fs) (sector entry_cnt : Z) : res (fs * bool) :=
  inode_create s sector (s32 (u32 (entry_cnt * sizeof_entry))).

Definition dir_open (s : fs) (inode : option nat) : res (fs * option dir) :=
  let '(s, ok) := alloc s in
  match inode with
  | Some i => if ok : bool then Ok (s, Some (Dir i 0))
              else s ← inode_close s inode; Ok (s, None)
  | None => s ← inode_close s inode; Ok (s, None)
  end.

Definition dir_open_root (s : fs) : res (fs * option dir) :=
  '(s, i) ← inode_open s ROOT_DIR_SECTOR; dir_open s i.

Definition dir_reopen (s : fs) (d : dir) : res (fs * option dir) :=
  s ← inode_reopen s (dir_inode d); dir_open s (Some (dir_inode d)).

Definition dir_close (s : fs) (d : option dir) : res fs :=
  match d with None => Ok s | Some d => inode_close s (Some (dir_inode d)) end.

Definition dir_get_inode (d : dir) : nat := dir_inode d.

(** Enough iterations for a loop over the entries. *)
Definition entry_fuel (s : fs) (d : dir) : nat :=
  match inodes s !! dir_inode d with
  | Some n => Z.to_nat (ilength (data n)) + 2
  | None => 1
  end.

(** [for (ofs = 0; inode_read_at (.., &e, sizeof e, ofs) == sizeof e; ofs +=
    sizeof e) if (test e) ...]: the entry found and its offset, or none, the
    buffer [e] as the loop leaves it, and the last offset. *)
Definition scan (s : fs) (d : dir) (e : list Z) (test : list Z → res bool)
    : res (fs * list Z * Z * bool) :=
  loop (entry_fuel s d) (λ '(s, e, ofs),
    '(s, e, k) ← inode_read_at s (dir_inode d) e sizeof_entry (s32 ofs);
    if negb (k =? sizeof_entry) then Ok (inr (s, e, ofs, false)) else
    t ← test e;
    if t : bool then Ok (inr (s, e, ofs, true))
    else Ok (inl (s, e, u32 (ofs + sizeof_entry)))) (s, e, 0).

Section stack.
(** What the stack held where [e] lies. *)
Context (junk : list Z).

Definition lookup (s : fs) (d : dir) (name : list Z) : res (fs * option (list Z * Z)) :=
  '(s, e, ofs, found) ← scan s d junk (λ e, if e_in_use e then same_name name e else Ok false);
  Ok (s, if found : bool then Some (e, ofs) else None).

Definition dir_lookup (s : fs) (d : dir) (name : list Z) : res (fs * option nat) :=
  '(s, r) ← lookup s d name;
  match r with
  | Some (e, _) => inode_open s (e_sector e)
  | None => Ok (s, None)
  end.

(** The entry written by [dir_add]: [e.in_use = true], [strlcpy (e.name,
    name, sizeof e.name)], [e.inode_sector = inode_sector]. *)
Definition fill_entry (e : list Z) (name : list Z) (inode_sector : Z) : res (list Z) :=
  e ← mem_copy e 19 [1] 0 1;
  e ← mem_copy e 4 (name ++ [0]) 0 (Z.of_nat (length name) + 1);
  mem_copy e 0 (elem_bytes inode_sector) 0 4.

Definition dir_add (s : fs) (d : dir) (name : list Z) (inode_sector : Z) : res (fs * bool) :=
  if (Nat.eqb (length name) 0) || (NAME_MAX <? Z.of_nat (length name)) then Ok (s, false) else
  '(s, r) ← lookup s d name;
  match r with
  | Some _ => Ok (s, false)
  | None =>
      '(s, e, ofs, _) ← scan s d junk (λ e, Ok (negb (e_in_use e)));
      e ← fill_entry e name inode_sector;
      '(s, k) ← inode_write_at s (dir_inode d) e sizeof_entry (s32 ofs);
      Ok (s, k =? sizeof_entry)
  end.

Definition dir_remove (s : fs) (d : dir) (name : list Z) : res (fs * bool) :=
  '(s, r) ← lookup s d name;
  match r with
  | None => s ← inode_close s None; Ok (s, false)
  | Some (e, ofs) =>
      '(s, inode) ← inode_open s (e_sector e);
      match inode with
      | None => s ← inode_close s None; Ok (s, false)
      | Some i =>
          e ← mem_copy e 19 [0] 0 1;
          '(s, k) ← inode_write_at s (dir_inode d) e sizeof_entry (s32 ofs);
          if negb (k =? sizeof_entry) then s ← inode_close s inode; Ok (s, false) else
          s ← inode_remove s inode;
          s ← inode_close s inode;
          Ok (s, true)
      end
  end.

(** [dir_readdir (dir, name)]: the directory with its new position, and the
    name copied if there is one. *)
Definition dir_readdir (s : fs) (d : dir) : res (fs * dir * option (list Z)) :=
  loop (entry_fuel s d) (λ '(s, d, e),
    '(s, e, k) ← inode_read_at s (dir_inode d) e sizeof_entry (dir_pos d);
    if negb (k =? sizeof_entry) then Ok (inr (s, d, None)) else
    let d := Dir (dir_inode d) (s32 (dir_pos d + sizeof_entry)) in
    if e_in_use e then Ok (inr (s, d, Some (take 14 (cstring (e_name e)))))
    else Ok (inl (s, d, e))) (s, d, junk).
End stack.

(** ** The entries of a directory *)

Definition entry_cnt (n : inode) : Z := ilength (data n) / 20.
(** Entry [k], as its 20 bytes. *)
Definition entry (b : block) (n : inode) (k : Z) : list Z :=
  (λ j, file_byte b n (20 * k + Z.of_nat j)) <$> seq 0 20.
Definition entries (b : block) (n : inode) : list (list Z) :=
  (λ k, entry b n (Z.of_nat k)) <$> seq 0 (Z.to_nat (entry_cnt n)).

Lemma length_entry b n k : length (entry b n k) = 20%nat.
Proof. unfold entry. by rewrite length_fmap, length_seq. Qed.

Lemma at_entry b n k j : 0 ≤ j < 20 → at_ (entry b n k) j = file_byte b n (20 * k + j).
Proof.
  intros Hj. unfold at_, entry. rewrite list_lookup_total_alt, list_lookup_fmap, lookup_seq_lt by lia.
  cbn. f_equal. lia.
Qed.

(** A buffer is determined by its bytes. *)
Lemma buffer_eq (l1 l2 : list Z) : length l1 = length l2 →
  (∀ j, 0 ≤ j < Z.of_nat (length l1) → at_ l1 j = at_ l2 j) → l1 = l2.
Proof.
  intros Hl H. apply (list_eq_same_length _ _ (length l1)); [done..|].
  intros i x y Hi H1 H2. specialize (H (Z.of_nat i)). unfold at_ in H. rewrite Nat2Z.id in H.
  rewrite (list_lookup_total_correct _ _ _ H1), (list_lookup_total_correct _ _ _ H2) in H.
  apply H. lia.
Qed.

Section scan.
Context (s : fs) (d : dir) (n : inode) (test : list Z → res bool).
Context (Hb : block_wf (fs_device s)) (Hi : inodes s !! dir_inode d = Some n)
  (Hx : extent_ok (fs_device s) n) (Hm : mem_ok s).
Context (Htest : ∀ k, 0 ≤ k < entry_cnt n → ∃ t, test (entry (fs_device s) n k) = Ok t).

(** Reading entry [k], or past the last one. *)
Lemma read_entry s' e k : same_fs s s' → length e = 20%nat → 0 ≤ k ≤ entry_cnt n →
  ∃ s2 e2 c, inode_read_at s' (dir_inode d) e sizeof_entry (s32 (20 * k)) = Ok (s2, e2, c) ∧
    same_fs s s2 ∧ length e2 = 20%nat ∧
    (k < entry_cnt n → c = 20 ∧ e2 = entry (fs_device s) n k) ∧ (k = entry_cnt n → c < 20).
Proof using Hb Hi Hx Hm.
  intros Hs He Hk. pose proof Hx as [Hx1 Hx2 Hx3 Hx4]. unfold entry_cnt in *. pose proof Hs as [? ? ? ? ? ? ? ? ?].
  rewrite s32_small by c_lia.
  destruct (inode_read_at_spec s' (dir_inode d) n e sizeof_entry (20 * k))
    as (s2 & e2 & c & E & Hs2 & Hc & Hmc & Hl & Hbytes); unfold sizeof_entry in *;
    [done|congruence|split; congruence || lia|lia|lia|c_lia|].
  specialize (Hmc (same_fs_mem_ok _ _ Hs Hm)). unfold available in *.
  exists s2, e2, c. split_and!; [done|by eapply same_fs_trans|lia|..].
  - intros Hlt. assert (c = 20) as -> by c_lia. split; [done|].
    apply buffer_eq; [by rewrite length_entry, Hl|]. intros j Hj.
    rewrite at_entry, Hbytes, (proj2 (Z.ltb_lt _ _)) by lia. by apply file_byte_same.
  - intros ->. c_lia.
Qed.

Definition scan_result (r : fs * list Z * Z * bool) : Prop :=
  let '(s', e, ofs, found) := r in
  same_fs s s' ∧ length e = 20%nat ∧
  if found : bool then ∃ k, 0 ≤ k < entry_cnt n ∧ ofs = 20 * k ∧ e = entry (fs_device s) n k ∧
    test e = Ok true ∧ ∀ j, 0 ≤ j < k → test (entry (fs_device s) n j) = Ok false
  else ofs = 20 * entry_cnt n ∧
    ∀ j, 0 ≤ j < entry_cnt n → test (entry (fs_device s) n j) = Ok false.

(** The loop over the entries ends, at the first entry that passes the test
    or behind the last one. *)
Lemma scan_spec e : length e = 20%nat → ∃ r, scan s d e test = Ok r ∧ scan_result r.
Proof using All.
  intros He. unfold scan, entry_fuel. rewrite Hi. pose proof Hx as [Hx1 Hx2 Hx3 Hx4].
  apply (loop_total (λ m '(s', e, ofs), ∃ k, 0 ≤ k ≤ entry_cnt n ∧ ofs = 20 * k ∧ same_fs s s' ∧
    length e = 20%nat ∧ m = Z.to_nat (entry_cnt n - k) ∧
    ∀ j, 0 ≤ j < k → test (entry (fs_device s) n j) = Ok false) scan_result)
    with (k := Z.to_nat (entry_cnt n)).
  - intros m [[s' e'] ofs] (k & Hk & -> & Hs & He' & -> & Hno).
    destruct (read_entry s' e' k) as (s2 & e2 & c & -> & Hs2 & He2 & Hlt & Hend); [done..|].
    cbn [mbind res_bind]. destruct (decide (k < entry_cnt n)) as [Hk'|Hk'].
    + destruct (Hlt Hk') as [-> ->]. cbn [Z.eqb negb sizeof_entry].
      destruct (Htest k) as [t Ht]; [lia|]. rewrite Ht. cbn [mbind res_bind].
      destruct t; (eexists; split; [done|]).
      * split_and!; [done|done|]. exists k. by split_and!; try lia.
      * exists (Z.to_nat (entry_cnt n - (k + 1))). split; [lia|]. exists (k + 1).
        unfold entry_cnt, sizeof_entry in *. rewrite u32_small by c_lia.
        split_and!; try done; try lia. intros j Hj. destruct (decide (j = k)) as [->|]; [done|apply Hno; lia].
    + assert (k = entry_cnt n) as -> by lia. specialize (Hend eq_refl). unfold sizeof_entry.
      rewrite (proj2 (Z.eqb_neq c 20)) by lia. cbn [negb]. eexists. split; [done|]. by split_and!.
  - exists 0. split_and!; try done; try (unfold entry_cnt; c_lia).
  - unfold entry_cnt. c_lia.
Qed.
End scan.

(** ** A directory as a map from names to sectors *)

Definition named (name : list Z) (e : list Z) : bool :=
  e_in_use e && bool_decide (cstring (e_name e) = name).

(** The sector of the inode that [name] is bound to. *)
Definition binding (es : list (list Z)) (name : list Z) : option Z :=
  (λ x, e_sector x.2) <$> list_find (λ e, named name e) es.

(** Names in use end within their array and are not used twice. *)
Record dir_wf (es : list (list Z)) : Prop := {
  dw_null e : e ∈ es → e_in_use e = true → 0 ∈ e_name e;
  dw_unique i j e e' : es !! i = Some e → es !! j = Some e' → e_in_use e = true →
    e_in_use e' = true → cstring (e_name e) = cstring (e_name e') → i = j;
}.

Definition valid_name (name : list Z) : Prop :=
  ¬ 0 ∈ name ∧ 1 ≤ Z.of_nat (length name) ≤ NAME_MAX.

Lemma entries_lookup b n k : 0 ≤ k < entry_cnt n →
  entries b n !! Z.to_nat k = Some (entry b n k).
Proof.
  intros Hk. unfold entries. rewrite list_lookup_fmap, lookup_seq_lt by lia. cbn.
  by rewrite Z2Nat.id by lia.
Qed.

Lemma elem_of_entries e b n : e ∈ entries b n ↔ ∃ k, 0 ≤ k < entry_cnt n ∧ e = entry b n k.
Proof.
  unfold entries. rewrite list_elem_of_fmap. split.
  - intros (k & -> & Hk%elem_of_seq). exists (Z.of_nat k). split; [lia|done].
  - intros (k & Hk & ->). exists (Z.to_nat k). rewrite Z2Nat.id, elem_of_seq by lia. split; [done|lia].
Qed.

Lemma cstring_app name l : 0 ∉ name → cstring (name ++ 0 :: l) = name.
Proof.
  induction name as [|c name IH]; intros Hn; [done|]. apply not_elem_of_cons in Hn as [Hc Hn].
  cbn. rewrite (proj2 (Z.eqb_neq c 0)) by done. f_equal. by apply IH.
Qed.

(** The test of [lookup] on an entry of a well-formed directory. *)
Lemma lookup_test name e : (e_in_use e = true → 0 ∈ e_name e) →
  (if e_in_use e then same_name name e else Ok false) = Ok (named name e).
Proof.
  intros H. unfold named, same_name. destruct (e_in_use e); [|done].
  by rewrite bool_decide_eq_true_2 by auto.
Qed.

Lemma lookup_spec junk s d n name : block_wf (fs_device s) → inodes s !! dir_inode d = Some n →
  extent_ok (fs_device s) n → mem_ok s → length junk = 20%nat →
  dir_wf (entries (fs_device s) n) →
  ∃ s' r, lookup junk s d name = Ok (s', r) ∧ same_fs s s' ∧
    match r with
    | Some (e, ofs) => ∃ k, 0 ≤ k < entry_cnt n ∧ ofs = 20 * k ∧ e = entry (fs_device s) n k ∧
        named name e = true ∧ list_find (λ e, named name e) (entries (fs_device s) n) = Some (Z.to_nat k, e)
    | None => list_find (λ e, named name e) (entries (fs_device s) n) = None
    end.
Proof.
  intros Hb Hi Hx Hm Hj Hwf. unfold lookup. set (test := λ e, if e_in_use e then same_name name e else Ok false).
  assert (∀ k, 0 ≤ k < entry_cnt n → test (entry (fs_device s) n k) =
    Ok (named name (entry (fs_device s) n k))) as Ht.
  { intros k Hk. apply lookup_test. apply (dw_null _ Hwf), elem_of_entries. eauto. }
  destruct (scan_spec s d n test) with (e := junk) as ([[[s' e] ofs] found] & -> & Hs & He & Hr);
    try done; [intros k Hk; rewrite Ht by done; eauto|].
  cbn [mbind res_bind]. do 2 eexists. split; [done|]. split; [done|]. destruct found.
  - destruct Hr as (k & Hk & -> & -> & Hkt & Hno). exists k. rewrite Ht in Hkt by done.
    injection Hkt as Hkt. split_and!; try done; try lia. apply list_find_Some.
    rewrite entries_lookup by done. split_and!; [done|by rewrite Hkt|].
    intros i e Hi' Hlt. assert (e = entry (fs_device s) n (Z.of_nat i)) as ->.
    { pose proof (entries_lookup (fs_device s) n (Z.of_nat i)) as E. rewrite Nat2Z.id in E.
      rewrite E in Hi' by lia. congruence. }
    specialize (Hno (Z.of_nat i)). rewrite Ht in Hno by lia.
    injection (Hno ltac:(lia)) as E. rewrite E. by intros [].
  - destruct Hr as [_ Hno]. apply list_find_None, Forall_forall. intros e' (k & Hk & ->)%elem_of_entries.
    specialize (Hno k Hk). rewrite Ht in Hno by done. injection Hno as E. rewrite E. by intros [].
Qed.

(** With unique names the binding does not depend on the order. *)
Lemma binding_Some es name v : dir_wf es →
  binding es name = Some v ↔ ∃ i e, es !! i = Some e ∧ named name e = true ∧ e_sector e = v.
Proof.
  intros Hwf. unfold binding. rewrite fmap_Some. split.
  - intros ([i e] & (Hi & Hn & _)%list_find_Some & ->). exists i, e. by apply Is_true_true in Hn.
  - intros (i & e & Hi & Hn & <-).
    destruct (list_find_elem_of (λ e, named name e) es e) as [[j e'] Hj];
      [by eapply list_elem_of_lookup_2|by apply Is_true_true|].
    exists (j, e'). split; [done|]. apply list_find_Some in Hj as (Hj & Hn'%Is_true_true & _). cbn.
    unfold named in *. apply andb_true_iff in Hn as [Hu E%bool_decide_eq_true], Hn' as [Hu' E'%bool_decide_eq_true].
    assert (i = j) as -> by (apply (dw_unique _ Hwf i j e e'); congruence). congruence.
Qed.

Lemma binding_None es name : binding es name = None ↔ ∀ e, e ∈ es → named name e = false.
Proof.
  unfold binding. rewrite fmap_None, list_find_None, Forall_forall.
  split; intros H e He; specialize (H e He); [by apply not_true_is_false; rewrite <- Is_true_true|].
  rewrite H. by intros [].
Qed.

(** Replacing an unused entry by one for a new name. *)
Lemma dir_wf_insert es k e0 e : dir_wf es → es !! k = Some e0 → e_in_use e0 = false →
  0 ∈ e_name e → e_in_use e = true → binding es (cstring (e_name e)) = None →
  dir_wf (<[k := e]> es).
Proof.
  intros Hwf Hk Hu0 H0 Hu Hb. rewrite binding_None in Hb.
  assert (∀ x, x ∈ es → e_in_use x = true → cstring (e_name x) ≠ cstring (e_name e)) as Hfresh.
  { intros x Hx Hux E. specialize (Hb x Hx). unfold named in Hb. rewrite Hux in Hb. cbn in Hb.
    by apply bool_decide_eq_false in Hb. }
  split.
  - intros x (i & Hi)%list_elem_of_lookup_1 Hux.
    apply list_lookup_insert_Some in Hi as [(_ & <- & _)|[_ Hi]]; [done|].
    by eapply (dw_null _ Hwf), Hux; eapply list_elem_of_lookup_2.
  - intros i j x y Hi Hj Hux Huy E.
    apply list_lookup_insert_Some in Hi as [(<- & <- & _)|[Hik Hi]], Hj as [(<- & <- & _)|[Hjk Hj]]; try done.
    + destruct (Hfresh y); [by eapply list_elem_of_lookup_2|done|done].
    + destruct (Hfresh x); [by eapply list_elem_of_lookup_2|done|done].
    + by apply (dw_unique _ Hwf i j x y).
Qed.

Lemma binding_insert es k e0 e name : dir_wf es → es !! k = Some e0 → e_in_use e0 = false →
  0 ∈ e_name e → e_in_use e = true → cstring (e_name e) = name → binding es name = None →
  dir_wf (<[k := e]> es) ∧
  ∀ x, binding (<[k := e]> es) x = if decide (x = name) then Some (e_sector e) else binding es x.
Proof.
  intros Hwf Hk Hu0 H0 Hu <- Hb. pose proof (lookup_lt_Some _ _ _ Hk) as Hlt.
  pose proof (dir_wf_insert es k e0 e Hwf Hk Hu0 H0 Hu Hb) as Hwf'. split; [done|]. intros x.
  apply option_eq. intros v. rewrite binding_Some by done. case_decide as Hx.
  - subst x. split.
    + intros (i & y & Hi & Hn & <-). apply list_lookup_insert_Some in Hi as [(_ & <- & _)|[_ Hi]]; [done|].
      rewrite binding_None in Hb. rewrite Hb in Hn; [done|]. by eapply list_elem_of_lookup_2.
    + intros [= <-]. exists k, e. rewrite list_lookup_insert_eq by done. unfold named.
      rewrite Hu, bool_decide_eq_true_2 by done. done.
  - rewrite binding_Some by done. split; intros (i & y & Hi & Hn & <-).
    + apply list_lookup_insert_Some in Hi as [(_ & <- & _)|[_ Hi]]; [|eauto].
      unfold named in Hn. apply andb_true_iff in Hn as [_ E%bool_decide_eq_true]. congruence.
    + exists i, y. rewrite list_lookup_insert_ne; [done|]. intros ->.
      assert (y = e0) as -> by congruence. unfold named in Hn. rewrite Hu0 in Hn. done.
Qed.

(** ** Filling an entry *)

Lemma at_take l m j : 0 ≤ j < Z.of_nat m → at_ (take m l) j = at_ l j.
Proof. intros H. unfold at_. rewrite !list_lookup_total_alt, lookup_take_lt by lia. done. Qed.
Lemma at_drop l m j : 0 ≤ j → at_ (drop m l) j = at_ l (Z.of_nat m + j).
Proof.
  intros H. unfold at_. rewrite !list_lookup_total_alt, lookup_drop. do 2 f_equal. lia.
Qed.

Lemma fill_entry_spec e name sec : length e = 20%nat → valid_name name → is_u32 sec →
  ∃ e', fill_entry e name sec = Ok e' ∧ length e' = 20%nat ∧ e_in_use e' = true ∧
    0 ∈ e_name e' ∧ cstring (e_name e') = name ∧ e_sector e' = sec.
Proof.
  intros He [Hn0 Hn] Hs. unfold fill_entry, NAME_MAX in *.
  destruct (mem_copy_spec e 19 [1] 0 1) as (e1 & -> & Hl1 & Hb1); [cbn; lia..|]. cbn [mbind res_bind].
  destruct (mem_copy_spec e1 4 (name ++ [0]) 0 (Z.of_nat (length name) + 1)) as (e2 & -> & Hl2 & Hb2);
    [rewrite ?length_app; cbn [length]; lia..|]. cbn [mbind res_bind].
  destruct (mem_copy_spec e2 0 (elem_bytes sec) 0 4) as (e3 & -> & Hl3 & Hb3); [cbn; lia..|].
  exists e3. split; [done|]. split; [lia|].
  assert (take (length name + 1) (e_name e3) = name ++ [0]) as Ename.
  { apply buffer_eq; [unfold e_name; rewrite !length_take, length_drop, length_app; cbn [length]; lia|].
    intros j Hj. unfold e_name in *. rewrite !length_take, length_drop in Hj.
    rewrite !at_take, at_drop by lia. change (Z.of_nat 4) with 4. rewrite Hb3 by lia. replace (_ && _) with false by lia.
    rewrite Hb2 by lia. replace (_ && _) with true by lia. f_equal. lia. }
  assert (e_name e3 = name ++ 0 :: drop (length name + 1) (e_name e3)) as Ename2.
  { rewrite <- (take_drop (length name + 1) (e_name e3)) at 1. rewrite Ename. by rewrite <- app_assoc. }
  split_and!.
  - unfold e_in_use. rewrite Hb3, Hb2, Hb1 by lia.
    replace ((4 <=? 19) && (19 <? 4 + (Z.of_nat (length name) + 1))) with false by lia. done.
  - rewrite Ename2, elem_of_app, elem_of_cons. auto.
  - rewrite Ename2. by apply cstring_app.
  - unfold e_sector. assert (take 4 e3 = elem_bytes sec) as ->.
    { apply buffer_eq; [rewrite length_take; cbn [length elem_bytes]; lia|]. intros j Hj. rewrite length_take in Hj.
      rewrite at_take, Hb3 by lia. replace (_ && _) with true by lia. f_equal. lia. }
    by rewrite <- (app_nil_r (elem_bytes sec)), elem_bytes_roundtrip.
Qed.

(** ** Writing an entry *)

Lemma entries_wrote s s' n e k : wrote s s' n e (20 * k) 20 → 0 ≤ start (data n) →
  length e = 20%nat → 0 ≤ k < entry_cnt n →
  entries (fs_device s') n = <[Z.to_nat k := e]> (entries (fs_device s) n).
Proof.
  intros Hw Hs He Hk. apply list_eq. intros i.
  destruct (decide (Z.of_nat i < entry_cnt n)) as [Hi|Hi].
  2: { rewrite !lookup_ge_None_2; [done|rewrite length_insert|];
       unfold entries; rewrite length_fmap, length_seq; lia. }
  pose proof (entries_lookup (fs_device s') n (Z.of_nat i)) as E1.
  pose proof (entries_lookup (fs_device s) n (Z.of_nat i)) as E2. rewrite Nat2Z.id in *.
  rewrite E1 by lia. destruct (decide (i = Z.to_nat k)) as [->|Hne].
  - rewrite list_lookup_insert_eq by (unfold entries; rewrite length_fmap, length_seq; lia).
    f_equal. apply buffer_eq; [by rewrite length_entry|]. intros j Hj. rewrite length_entry in Hj.
    change (Z.of_nat 20) with 20 in Hj. rewrite Z2Nat.id in * by lia.
    rewrite at_entry, (wrote_file_byte _ _ _ _ _ _ _ Hw) by lia.
    rewrite (proj2 (Z.leb_le _ _)), (proj2 (Z.ltb_lt _ _)) by lia. cbn [andb]. f_equal. lia.
  - rewrite list_lookup_insert_ne, E2 by lia. f_equal. apply buffer_eq; [by rewrite !length_entry|].
    intros j Hj. rewrite length_entry in Hj. change (Z.of_nat 20) with 20 in Hj.
    rewrite !at_entry, (wrote_file_byte _ _ _ _ _ _ _ Hw) by lia.
    destruct (Z.leb_spec (20 * k) (20 * Z.of_nat i + j)), (Z.ltb_spec (20 * Z.of_nat i + j) (20 * k + 20));
      cbn [andb]; done || lia.
Qed.

Lemma entries_ext b b' n : (∀ j, 0 ≤ j → file_byte b' n j = file_byte b n j) →
  entries b' n = entries b n.
Proof.
  intros H. unfold entries, entry. apply list_fmap_ext. intros i k _.
  apply list_fmap_ext. intros j l _. apply H. lia.
Qed.

Lemma entries_same s s' n : same_fs s s' → entries (fs_device s') n = entries (fs_device s) n.
Proof. intros Hs. apply entries_ext. intros j _. by apply file_byte_same. Qed.

Lemma extent_ok_size b b' n : size b' = size b → extent_ok b n → extent_ok b' n.
Proof. intros E []. split; congruence || lia. Qed.

(** The second half of [dir_add], for a name that is not bound. *)
Lemma add_entry_spec junk s d n name sec :
  block_wf (fs_device s) → inodes s !! dir_inode d = Some n → extent_ok (fs_device s) n →
  mem_ok s → length junk = 20%nat → deny_write_cnt n = 0 → ilength (data n) = 20 * entry_cnt n →
  valid_name name → is_u32 sec →
  ∃ s' e ofs found e' c, scan s d junk (λ e, Ok (negb (e_in_use e))) = Ok (s', e, ofs, found) ∧
    fill_entry e name sec = Ok e' ∧
    ∃ s'', inode_write_at s' (dir_inode d) e' sizeof_entry (s32 ofs) = Ok (s'', c) ∧
    block_wf (fs_device s'') ∧ inodes s'' = inodes s ∧ free_map s'' = free_map s ∧
    if c =? 20 then ∃ k e0, entries (fs_device s) n !! k = Some e0 ∧ e_in_use e0 = false ∧
      e_in_use e' = true ∧ 0 ∈ e_name e' ∧ cstring (e_name e') = name ∧ e_sector e' = sec ∧
      entries (fs_device s'') n = <[k := e']> (entries (fs_device s) n)
    else (∀ e, e ∈ entries (fs_device s) n → e_in_use e = true) ∧
      entries (fs_device s'') n = entries (fs_device s) n.
Proof.
  intros Hb Hi Hx Hm Hj Hdeny Hlen Hname Hsec. pose proof Hx as [Hx1 Hx2 Hx3 Hx4].
  destruct (scan_spec s d n (λ e, Ok (negb (e_in_use e)))) with (e := junk)
    as ([[[s2 e] ofs] found] & Escan & Hs2 & He & Hf); try done; [eauto|].
  destruct (fill_entry_spec e name sec) as (e' & Efill & He' & Hu & H0 & Hc & Hs); [done..|].
  assert (0 ≤ ofs ≤ ilength (data n)) as Hofs by (destruct found; [destruct Hf as (k & ? & -> & _)|]; lia).
  destruct (inode_write_at_spec s2 (dir_inode d) n e' sizeof_entry ofs) as (s3 & c & Ew & Hw & _ & Hcm);
    unfold sizeof_entry, available in *; try lia; [apply Hs2|by rewrite (sf_inodes _ _ Hs2)|
      eapply extent_ok_size; [apply (sf_size _ _ Hs2)|done]|].
  specialize (Hcm (same_fs_mem_ok _ _ Hs2 Hm)).
  exists s2, e, ofs, found, e', c. rewrite s32_small by c_lia. split_and!; [done|done|].
  exists s3. split_and!; [done|apply (wr_wf _ _ _ _ _ _ Hw)|..].
  { by rewrite (wr_inodes _ _ _ _ _ _ Hw), (sf_inodes _ _ Hs2). }
  { by rewrite (wr_map _ _ _ _ _ _ Hw), (sf_map _ _ Hs2). }
  destruct found.
  - destruct Hf as (k & Hk & -> & -> & [= Hfree] & _). assert (c = 20) as -> by lia. cbn [Z.eqb Pos.eqb].
    exists (Z.to_nat k), (entry (fs_device s) n k). rewrite entries_lookup by done.
    apply negb_true_iff in Hfree. split_and!; try done.
    rewrite <- (entries_same s s2) by done. by apply (entries_wrote s2).
  - destruct Hf as [-> Hno]. assert (c = 0) as -> by lia. cbn [Z.eqb]. split.
    + intros x (k & Hk & ->)%elem_of_entries. specialize (Hno k Hk). injection Hno as Hno.
      by apply negb_false_iff in Hno.
    + rewrite <- (entries_same s s2) by done. apply entries_ext. intros j Hj0.
      rewrite (wrote_file_byte _ _ _ _ _ _ _ Hw) by lia.
      destruct (Z.leb_spec (20 * entry_cnt n) j), (Z.ltb_spec j (20 * entry_cnt n + 0)); cbn [andb]; done || lia.
Qed.

(** ** Theorems *)

(** A directory is a finite map from names to inode sectors.  [lookup]
    finds the entry of a bound name.  [dir_add] of a valid name that is not
    bound binds it, in the first unused entry, and changes no other binding;
    it fails without changing the directory when the name is bound or every
    entry is in use. *)
Theorem dir_add_correct junk s d n name sec :
  block_wf (fs_device s) → inodes s !! dir_inode d = Some n → extent_ok (fs_device s) n →
  mem_ok s → length junk = 20%nat → deny_write_cnt n = 0 → ilength (data n) = 20 * entry_cnt n →
  dir_wf (entries (fs_device s) n) → valid_name name → is_u32 sec →
  ∃ s' ok, dir_add junk s d name sec = Ok (s', ok) ∧ block_wf (fs_device s') ∧
    inodes s' = inodes s ∧ free_map s' = free_map s ∧ dir_wf (entries (fs_device s') n) ∧
    (ok = true ↔ binding (entries (fs_device s) n) name = None ∧
                 ∃ e, e ∈ entries (fs_device s) n ∧ e_in_use e = false) ∧
    ∀ x, binding (entries (fs_device s') n) x =
      if ok && bool_decide (x = name) then Some sec else binding (entries (fs_device s) n) x.
Proof.
  intros Hb Hi Hx Hm Hj Hdeny Hlen Hwf Hname Hsec. pose proof Hname as [Hn0 Hn]. pose proof Hx as [Hx1 Hx2 Hx3 Hx4].
  unfold dir_add. rewrite (proj2 (Nat.eqb_neq _ _)), (proj2 (Z.ltb_ge _ _)) by lia. cbn [orb].
  destruct (lookup_spec junk s d n name) as (s1 & r & -> & Hs1 & Hr); [done..|]. cbn [mbind res_bind].
  destruct r as [[e ofs]|].
  { destruct Hr as (k & _ & _ & _ & _ & Hf). exists s1, false. rewrite (entries_same s s1) by done.
    split_and!; try done; [apply Hs1..|]. split; [done|]. unfold binding. rewrite Hf. by intros [? _]. }
  assert (binding (entries (fs_device s) n) name = None) as Hnone by (unfold binding; by rewrite Hr).
  destruct (add_entry_spec junk s1 d n name sec) as (s2 & e & ofs & f & e' & c & -> & Hrest);
    try done; [apply Hs1|by rewrite (sf_inodes _ _ Hs1)|
      eapply extent_ok_size; [apply (sf_size _ _ Hs1)|done]|by eapply same_fs_mem_ok|].
  cbn [mbind res_bind]. destruct Hrest as (-> & s3 & Hrest). cbn [mbind res_bind].
  destruct Hrest as (-> & Hb3 & Hi3 & Hm3 & Hc). cbn [mbind res_bind]. unfold sizeof_entry.
  rewrite (sf_inodes _ _ Hs1) in Hi3. rewrite (sf_map _ _ Hs1) in Hm3.
  rewrite (entries_same s s1) in Hc by done. exists s3, (c =? 20). split; [done|].
  destruct (c =? 20).
  - destruct Hc as (k & e0 & Hk & Hu0 & Hu & H0 & Hcn & Hes & ->).
    destruct (binding_insert _ k e0 e' name Hwf Hk) as [Hwf' Hbind]; [done..|].
    split_and!; try done.
    + split; [|done]. intros _. split; [done|]. exists e0. split; [by eapply list_elem_of_lookup_2|done].
    + intros x. rewrite Hbind, Hes. cbn [andb]. by case_decide; case_bool_decide.
  - destruct Hc as [Hall ->]. split_and!; try done. split; [done|].
    intros (_ & e0 & He0 & Hu0). by rewrite Hall in Hu0.
Qed.

(** ** Witnesses *)

Definition demo_dir_inode : inode := Inode 0 1 false 0 (InodeDisk 1 40 INODE_MAGIC).
Definition demo_dir_block : block :=
  Block "hdb1" BLOCK_FILESYS 4 (repeat (repeat 0 512) 4) 0 0.
Definition demo_dir_fs : fs :=
  Fs demo_dir_block {[ 0%nat := demo_dir_inode ]} [0%nat] 1 (Bitmap 0 []) None [].

Lemma demo_dir_block_wf : block_wf demo_dir_block.
Proof.
  split; [done| |done]. cbn. intros s Hs. repeat (apply elem_of_cons in Hs as [->|Hs]; [done|]).
  by apply not_elem_of_nil in Hs.
Qed.

Lemma demo_dir_extent_ok : extent_ok demo_dir_block demo_dir_inode.
Proof. split; vm_compute; repeat split; discriminate || reflexivity. Qed.

Lemma demo_dir_unused e : e ∈ entries demo_dir_block demo_dir_inode → e_in_use e = false.
Proof.
  intros He. vm_compute in He. repeat (apply elem_of_cons in He as [->|He]; [done|]).
  by apply not_elem_of_nil in He.
Qed.

Lemma demo_dir_wf : dir_wf (entries demo_dir_block demo_dir_inode).
Proof.
  split.
  - intros e He Hu. by rewrite demo_dir_unused in Hu.
  - intros i j e e' Hi _ Hu. rewrite demo_dir_unused in Hu; [done|]. by eapply list_elem_of_lookup_2.
Qed.

Lemma demo_valid_name : valid_name [97; 98].
Proof. split; [|split; discriminate]. rewrite !elem_of_cons, elem_of_nil. intros [|[|]]; done. Qed.

Lemma dir_add_witness : ∃ s, dir_add (repeat 204 20) demo_dir_fs (Dir 0 0) [97; 98] 9 = Ok (s, true).
Proof.
  destruct (dir_add_correct (repeat 204 20) demo_dir_fs (Dir 0 0) demo_dir_inode [97; 98] 9
    demo_dir_block_wf eq_refl demo_dir_extent_ok (not_elem_of_nil false) eq_refl eq_refl eq_refl
    demo_dir_wf demo_valid_name) as (s & ok & E & _ & _ & _ & _ & [_ Hok] & _).
  - split; lia.
  - exists s. rewrite E. rewrite Hok; [reflexivity|]. split.
    + vm_compute. reflexivity.
    + exists (entry demo_dir_block demo_dir_inode 0). split; [|vm_compute; reflexivity].
      apply elem_of_entries. exists 0. split; [vm_compute; split; [discriminate|reflexivity]|reflexivity].
Defined.
