(* ===== verification/Filesys.v ===== *)
(** * filesys/filesys.c

    The operations on files by name, in the one root directory. *)

From Stdlib Require Import String.
From stdpp Require Import gmap.
From S2P Require Import Prelude Bitmap Vaddr Block Inode FreeMap File Directory.

Section stack.
Context (junk : list Z).

Definition filesys_create (s : fs) (name : list Z) (initial_size : Z) : res (fs * bool) :=
  '(s, dir) ← dir_open_root s;
  '(s, inode_sector, success) ←
    match dir with
    | None => Ok (s, 0, false)
    | Some d =>
        '(s, r) ← free_map_allocate s 1;
        match r with
        | None => Ok (s, 0, false)
        | Some inode_sector =>
            '(s, ok) ← inode_create s inode_sector initial_size;
            if negb ok then Ok (s, inode_sector, false) else
            '(s, ok) ← dir_add junk s d name inode_sector;
            Ok (s, inode_sector, ok)
        end
    end;
  s ← (if negb success && negb (inode_sector =? 0)
       then free_map_release s inode_sector 1 else Ok s);
  s ← dir_close s dir;
  Ok (s, success).

Definition filesys_open (s : fs) (name : list Z) : res (fs * option file) :=
  '(s, dir) ← dir_open_root s;
  '(s, inode) ← match dir with
                | Some d => dir_lookup junk s d name
                | None => Ok (s, None)
                end;
  s ← dir_close s dir;
  file_open s inode.

Definition filesys_remove (s : fs) (name : list Z) : res (fs * bool) :=
  '(s, dir) ← dir_open_root s;
  '(s, success) ← match dir with
                  | Some d => dir_remove junk s d name
                  | None => Ok (s, false)
                  end;
  s ← dir_close s dir;
  Ok (s, success).

Definition do_format (s : fs) : res fs :=
  s ← free_map_create s;
  '(s, ok) ← dir_create s ROOT_DIR_SECTOR 16;
  if negb ok then Err EPanic else free_map_close s.

(** [device] is the block device with the role [BLOCK_FILESYS], if any; the
    next arguments are the outcomes of the allocations of the free map and
    of all later ones. *)
Definition filesys_init (device : option block) (format : bool) (mem1 : bool)
    (mem2 : option (list Z)) (allocs : list bool) : res fs :=
  match device with
  | None => Err EPanic
  | Some b =>
      let s := Fs b ∅ [] 0 (Bitmap 0 []) None allocs in
      s ← free_map_init s mem1 mem2;
      s ← (if format then do_format s else Ok s);
      free_map_open s
  end.

Definition filesys_done (s : fs) : res fs := free_map_close s.
End stack.

(** ** Theorems *)

Definition demo_disk : block := Block "hdb" BLOCK_FILESYS 32 (repeat (repeat 7 512) 32) 0 0.
Definition demo_stack : list Z := repeat 204 20.

(** [filesys_create] of a name that exists fails, but does not give back
    the sectors that [inode_create] allocated for the file's data: on a
    freshly formatted device, creating a file of 1000 bytes twice leaves two
    more sectors marked as used, which no inode names. *)
Theorem filesys_create_leaks :
  ∃ s1 s2 s3, filesys_init (Some demo_disk) true true (Some [5]) [] = Ok s1 ∧
    filesys_create demo_stack s1 [97] 1000 = Ok (s2, true) ∧
    filesys_create demo_stack s2 [97] 1000 = Ok (s3, false) ∧
    bitmap_count (free_map s2) 0 32 true = Ok 7 ∧ bitmap_count (free_map s3) 0 32 true = Ok 9.
Proof. do 3 eexists. repeat (split; [vm_compute; reflexivity|]). vm_compute. reflexivity. Qed.
