(* ===== verification/Vm.v ===== *)
(** * vm/frame.c, vm/swap.c and vm/page.c

    The supplemental page tables, the frame table and the swap area, as the
    running thread [cur] sees them: a call runs on a state and returns one.
    Other threads appear through the locks they hold, which make the running
    thread block, and through [sleep], what they do while it sleeps.

    Objects are named by their addresses: a [struct page] by a number other
    than 0, a frame by its index.  The hash table of the pages of a process is
    the dictionary that lib/kernel/hash.c implements (see Hash), from the
    address of a page to the page. *)

From stdpp Require Import gmap.
From S2P Require Import Prelude Bitmap Vaddr Palloc Pagedir Block Inode File.

(** ** Data *)

Record frame := Frame { lock : option Z; base : Z; fpage : Z }.

Record page := Page {
  addr : Z;
  read_only : bool;
  thread : Z;
  pframe : option nat;
  psector : Z;
  private : bool;
  pfile : option Z;
  file_offset : Z;
  file_bytes : Z;
}.

(** The fields of [struct thread] that belong to the process. *)
Record process := Process { pagedir : Z; ptable : option (gmap Z Z); user_esp : Z }.

Record vm := Vm {
  mm : mmu;
  fsys : fs;
  files : gmap Z file;
  swap_device : option block;
  swap_bitmap : bitmap;
  swap_lock : option Z;
  frames : list frame;
  scan_lock : option Z;
  hand : Z;
  pages : gmap Z page;
  procs : gmap Z process;
  cur : Z;
  next_page : Z;                   (* an address not yet used *)
  mallocs : list bool;             (* outcomes of the next allocations *)
}.

Definition set_mm (x : mmu) (s : vm) : vm :=
  Vm x (fsys s) (files s) (swap_device s) (swap_bitmap s) (swap_lock s) (frames s) (scan_lock s)
    (hand s) (pages s) (procs s) (cur s) (next_page s) (mallocs s).
Definition set_fsys (x : fs) (s : vm) : vm :=
  Vm (mm s) x (files s) (swap_device s) (swap_bitmap s) (swap_lock s) (frames s) (scan_lock s)
    (hand s) (pages s) (procs s) (cur s) (next_page s) (mallocs s).
Definition set_swap (d : option block) (b : bitmap) (s : vm) : vm :=
  Vm (mm s) (fsys s) (files s) d b (swap_lock s) (frames s) (scan_lock s)
    (hand s) (pages s) (procs s) (cur s) (next_page s) (mallocs s).
Definition set_swap_lock (x : option Z) (s : vm) : vm :=
  Vm (mm s) (fsys s) (files s) (swap_device s) (swap_bitmap s) x (frames s) (scan_lock s)
    (hand s) (pages s) (procs s) (cur s) (next_page s) (mallocs s).
Definition set_frames (x : list frame) (s : vm) : vm :=
  Vm (mm s) (fsys s) (files s) (swap_device s) (swap_bitmap s) (swap_lock s) x (scan_lock s)
    (hand s) (pages s) (procs s) (cur s) (next_page s) (mallocs s).
Definition set_scan_lock (x : option Z) (s : vm) : vm :=
  Vm (mm s) (fsys s) (files s) (swap_device s) (swap_bitmap s) (swap_lock s) (frames s) x
    (hand s) (pages s) (procs s) (cur s) (next_page s) (mallocs s).
Definition set_hand (x : Z) (s : vm) : vm :=
  Vm (mm s) (fsys s) (files s) (swap_device s) (swap_bitmap s) (swap_lock s) (frames s) (scan_lock s)
    x (pages s) (procs s) (cur s) (next_page s) (mallocs s).
Definition set_pages (x : gmap Z page) (s : vm) : vm :=
  Vm (mm s) (fsys s) (files s) (swap_device s) (swap_bitmap s) (swap_lock s) (frames s) (scan_lock s)
    (hand s) x (procs s) (cur s) (next_page s) (mallocs s).
Definition set_procs (x : gmap Z process) (s : vm) : vm :=
  Vm (mm s) (fsys s) (files s) (swap_device s) (swap_bitmap s) (swap_lock s) (frames s) (scan_lock s)
    (hand s) (pages s) x (cur s) (next_page s) (mallocs s).
Definition set_heap (n : Z) (l : list bool) (s : vm) : vm :=
  Vm (mm s) (fsys s) (files s) (swap_device s) (swap_bitmap s) (swap_lock s) (frames s) (scan_lock s)
    (hand s) (pages s) (procs s) (cur s) n l.

Definition with_frame (f : option nat) (p : page) : page :=
  Page (addr p) (read_only p) (thread p) f (psector p) (private p) (pfile p) (file_offset p) (file_bytes p).
Definition with_sector (n : Z) (p : page) : page :=
  Page (addr p) (read_only p) (thread p) (pframe p) n (private p) (pfile p) (file_offset p) (file_bytes p).
(** What a page is backed by. *)
Definition with_backing (private : bool) (file : option Z) (ofs bytes : Z) (p : page) : page :=
  Page (addr p) (read_only p) (thread p) (pframe p) (psector p) private file ofs bytes.

(** ** Memory *)

Definition bytes (m : memory) (a n : Z) : list Z := map (λ i, m (a + Z.of_nat i)) (seq 0 (Z.to_nat n)).
Definition put_bytes (m : memory) (a : Z) (l : list Z) : memory :=
  λ k, if (a <=? k) && (k <? a + Z.of_nat (length l)) then l !!! Z.to_nat (k - a) else m k.

Definition memory_of (s : vm) : memory := mem (pal (mm s)).
Definition set_memory (m : memory) (s : vm) : vm :=
  set_mm (Mmu (set_mem (pal (mm s)) m) (cr3 (mm s)) (tlb (mm s))) s.

(** ** Locks, as the thread [cur] uses them *)

Definition lock_acquire (cur : Z) (l : option Z) : res (option Z) :=
  match l with
  | None => Ok (Some cur)
  | Some t => if t =? cur then Err EAssert else Err EBlock
  end.
(** The result is [None] when the lock is taken. *)
Definition lock_try_acquire (cur : Z) (l : option Z) : res (option (option Z)) :=
  match l with
  | None => Ok (Some (Some cur))
  | Some t => if t =? cur then Err EAssert else Ok None
  end.
Definition lock_held (cur : Z) (l : option Z) : bool := bool_decide (l = Some cur).
Definition lock_release (cur : Z) (l : option Z) : res (option Z) :=
  _ ← ASSERT (lock_held cur l); Ok None.

(** ** Objects *)

Definition get_page (s : vm) (p : Z) : res page := deref (pages s !! p).
Definition upd_page (p : Z) (g : page → page) (s : vm) : res vm :=
  pg ← get_page s p; Ok (set_pages (<[p := g pg]> (pages s)) s).
Definition get_frame (s : vm) (f : nat) : res frame := deref (frames s !! f).
Definition put_frame (f : nat) (x : frame) (s : vm) : vm := set_frames (<[f := x]> (frames s)) s.

(** [p->frame], which must not be null, and the frame. *)
Definition page_frame (s : vm) (pg : page) : res (nat * frame) :=
  f ← deref (pframe pg); fr ← get_frame s f; Ok (f, fr).

(** ** vm/swap.c *)

Definition PAGE_SECTORS : Z := PGSIZE / BLOCK_SECTOR_SIZE.
(** [(block_sector_t) -1] *)
Definition NO_SECTOR : Z := UINT_MAX.

(** The result is the device and the bitmap; [dev] is [block_get_role (BLOCK_SWAP)]. *)
Definition swap_init (dev : option block) (mem1 : bool) (mem2 : option (list Z)) (s : vm) : res vm :=
  let cnt := match dev with None => 0 | Some d => block_size d / PAGE_SECTORS end in
  b ← bitmap_create cnt mem1 mem2;
  match b with
  | None => Err EPanic
  | Some b => Ok (set_swap_lock None (set_swap dev b s))
  end.

Definition swap_in (s : vm) (p : Z) : res vm :=
  pg ← get_page s p;
  _ ← ASSERT (bool_decide (pframe pg ≠ None));
  '(f, fr) ← page_frame s pg;
  _ ← ASSERT (lock_held (cur s) (lock fr));
  _ ← ASSERT (negb (psector pg =? NO_SECTOR));
  s ← for_up (Z.to_nat PAGE_SECTORS) 0 (λ i s,
    dev ← deref (swap_device s);
    '(dev, sec) ← block_read dev (u32 (psector pg + i));
    let s := set_swap (Some dev) (swap_bitmap s) s in
    Ok (set_memory (put_bytes (memory_of s) (base fr + i * BLOCK_SECTOR_SIZE) sec) s)) s;
  b ← bitmap_reset (swap_bitmap s) (psector pg / PAGE_SECTORS);
  upd_page p (with_sector NO_SECTOR) (set_swap (swap_device s) b s).

Definition swap_out (s : vm) (p : Z) : res (vm * bool) :=
  pg ← get_page s p;
  _ ← ASSERT (bool_decide (pframe pg ≠ None));
  '(f, fr) ← page_frame s pg;
  _ ← ASSERT (lock_held (cur s) (lock fr));
  l ← lock_acquire (cur s) (swap_lock s);
  '(b, slot) ← bitmap_scan_and_flip (swap_bitmap s) 0 1 false;
  l ← lock_release (cur s) l;
  let s := set_swap_lock l (set_swap (swap_device s) b s) in
  if slot =? BITMAP_ERROR then Ok (s, false) else
  let sector := u32 (slot * PAGE_SECTORS) in
  s ← upd_page p (with_sector sector) s;
  s ← for_up (Z.to_nat PAGE_SECTORS) 0 (λ i s,
    dev ← deref (swap_device s);
    dev ← block_write dev (u32 (sector + i))
      (bytes (memory_of s) (base fr + i * BLOCK_SECTOR_SIZE) BLOCK_SECTOR_SIZE);
    Ok (set_swap (Some dev) (swap_bitmap s) s)) s;
  s ← upd_page p (with_backing false None 0 0) s;
  Ok (s, true).

Section code.
(** The globals of threads/init.c, and what other threads do during a call of
    [timer_msleep]. *)
Context (init_page_dir init_ram_pages : Z) (sleep : vm → vm).

(** [p->thread->pagedir] *)
Definition page_dir (s : vm) (pg : page) : res Z := t ← deref (procs s !! thread pg); Ok (pagedir t).

Definition write_back (s : vm) (pg : page) (fr : frame) : res (vm * bool) :=
  file ← deref (pfile pg);
  file ← deref (files s !! file);
  '(x, n) ← file_write_at (fsys s) file (bytes (memory_of s) (base fr) (file_bytes pg))
              (file_bytes pg) (file_offset pg);
  Ok (set_fsys x s, negb (n =? 0)).

Definition page_out (s : vm) (p : Z) : res (vm * bool) :=
  pg ← get_page s p;
  _ ← ASSERT (bool_decide (pframe pg ≠ None));
  '(f, fr) ← page_frame s pg;
  _ ← ASSERT (lock_held (cur s) (lock fr));
  pd ← page_dir s pg;
  m ← pagedir_clear_page init_page_dir (mm s) pd (addr pg);
  let s := set_mm m s in
  dirty ← pagedir_is_dirty (mm s) pd (addr pg);
  '(s, ok) ← (if bool_decide (pfile pg = None) then swap_out s p else Ok (s, false));
  '(s, ok) ← (if dirty : bool then
                pg ← get_page s p;
                if private pg then swap_out s p else write_back s pg fr
              else Ok (s, true));
  if ok : bool then s ← upd_page p (with_frame None) s; Ok (s, true) else Ok (s, false).

Definition page_accessed_recently (s : vm) (p : Z) : res (vm * bool) :=
  pg ← get_page s p;
  _ ← ASSERT (bool_decide (pframe pg ≠ None));
  '(f, fr) ← page_frame s pg;
  _ ← ASSERT (lock_held (cur s) (lock fr));
  pd ← page_dir s pg;
  was_accessed ← pagedir_is_accessed (mm s) pd (addr pg);
  m ← (if was_accessed : bool then pagedir_set_accessed init_page_dir (mm s) pd (addr pg) false else Ok (mm s));
  Ok (set_mm m s, was_accessed).

(** ** vm/frame.c *)

Definition frame_init (s : vm) (malloc_ok : bool) : res vm :=
  if negb malloc_ok then Err EPanic else
  '(p, fs) ← loop (S (S (Z.to_nat init_ram_pages))) (λ '(p, fs),
    '(p, base) ← palloc_get_page p PAL_USER;
    if base =? 0 then Ok (inr (p, fs)) else
    _ ← (if Z.of_nat (length fs) <? init_ram_pages then Ok tt else Err EFault);
    Ok (inl (p, fs ++ [Frame None base 0]))) (pal (mm s), []);
  Ok (set_scan_lock None (set_frames fs (set_mm (Mmu p (cr3 (mm s)) (tlb (mm s))) s))).

(** The scan for a free frame, and the scan of the clock. *)
Definition find_free (s : vm) (page : Z) : res (vm + vm * option nat) :=
  for_ret (length (frames s)) 0 (λ i s,
    fr ← get_frame s (Z.to_nat i);
    l ← lock_try_acquire (cur s) (lock fr);
    match l with
    | None => Ok (inl s)
    | Some l =>
        if fpage fr =? 0 then
          let s := put_frame (Z.to_nat i) (Frame l (base fr) page) s in
          sl ← lock_release (cur s) (scan_lock s);
          Ok (inr (set_scan_lock sl s, Some (Z.to_nat i)))
        else
          l ← lock_release (cur s) l;
          Ok (inl (put_frame (Z.to_nat i) (Frame l (base fr) (fpage fr)) s))
    end) s.

(** One turn of the clock's hand, at the frame [h]. *)
Definition visit (s : vm) (page : Z) (h : nat) (fr : frame) : res (vm + vm * option nat) :=
  l ← lock_try_acquire (cur s) (lock fr);
  match l with
  | None => Ok (inl s)
  | Some l =>
      let s := put_frame h (Frame l (base fr) (fpage fr)) s in
      if fpage fr =? 0 then
        let s := put_frame h (Frame l (base fr) page) s in
        sl ← lock_release (cur s) (scan_lock s);
        Ok (inr (set_scan_lock sl s, Some h))
      else
        '(s, accessed) ← page_accessed_recently s (fpage fr);
        if accessed : bool then
          l ← lock_release (cur s) l;
          Ok (inl (put_frame h (Frame l (base fr) (fpage fr)) s))
        else
          sl ← lock_release (cur s) (scan_lock s);
          let s := set_scan_lock sl s in
          '(s, ok) ← page_out s (fpage fr);
          if negb ok then
            l ← lock_release (cur s) l;
            Ok (inr (put_frame h (Frame l (base fr) (fpage fr)) s, None))
          else Ok (inr (put_frame h (Frame l (base fr) page) s, Some h))
  end.

Definition evict (s : vm) (page : Z) : res (vm + vm * option nat) :=
  for_ret (length (frames s) * 2) 0 (λ _ s,
    let h := Z.to_nat (hand s) in
    fr ← get_frame s h;
    let s := set_hand (if Z.of_nat (length (frames s)) <=? hand s + 1 then 0 else hand s + 1) s in
    visit s page h fr) s.

Definition try_frame_alloc_and_lock (s : vm) (page : Z) : res (vm * option nat) :=
  l ← lock_acquire (cur s) (scan_lock s);
  let s := set_scan_lock l s in
  r ← find_free s page;
  match r with
  | inr r => Ok r
  | inl s =>
      r ← evict s page;
      match r with
      | inr r => Ok r
      | inl s => l ← lock_release (cur s) (scan_lock s); Ok (set_scan_lock l s, None)
      end
  end.

Definition frame_alloc_and_lock (s : vm) (page : Z) : res (vm * option nat) :=
  r ← for_ret 3 0 (λ _ s,
    '(s, f) ← try_frame_alloc_and_lock s page;
    match f with
    | Some i => fr ← get_frame s i; _ ← ASSERT (lock_held (cur s) (lock fr)); Ok (inr (s, f))
    | None => Ok (inl (sleep s))
    end) s;
  match r with inr r => Ok r | inl s => Ok (s, None) end.

Definition frame_lock (s : vm) (p : Z) : res vm :=
  pg ← get_page s p;
  match pframe pg with
  | None => Ok s
  | Some f =>
      fr ← get_frame s f;
      l ← lock_acquire (cur s) (lock fr);
      let s := put_frame f (Frame l (base fr) (fpage fr)) s in
      pg ← get_page s p;
      if bool_decide (pframe pg ≠ Some f) then
        l ← lock_release (cur s) l;
        _ ← ASSERT (bool_decide (pframe pg = None));
        Ok (put_frame f (Frame l (base fr) (fpage fr)) s)
      else Ok s
  end.

Definition frame_free (s : vm) (f : nat) : res vm :=
  fr ← get_frame s f;
  _ ← ASSERT (lock_held (cur s) (lock fr));
  l ← lock_release (cur s) (lock fr);
  Ok (put_frame f (Frame l (base fr) 0) s).

Definition frame_unlock (s : vm) (f : nat) : res vm :=
  fr ← get_frame s f;
  _ ← ASSERT (lock_held (cur s) (lock fr));
  l ← lock_release (cur s) (lock fr);
  Ok (put_frame f (Frame l (base fr) (fpage fr)) s).

(** ** vm/page.c *)

Definition STACK_MAX : Z := 1024 * 1024.

Definition page_hash (pg : page) : Z := Z.shiftr (addr pg) PGBITS.
Definition page_less (a b : page) : bool := addr a <? addr b.

(** [malloc (sizeof (struct page))] *)
Definition alloc_page (s : vm) (pg : page) : vm * Z :=
  match mallocs s with
  | false :: l => (set_heap (next_page s) l s, 0)
  | l => (set_heap (next_page s + 1) (tail l) (set_pages (<[next_page s := pg]> (pages s)) s), next_page s)
  end.
Definition free_page (p : Z) (s : vm) : vm := set_pages (delete p (pages s)) s.

(** The table of the running process, which must have one. *)
Definition my_pages (s : vm) : res (gmap Z Z) := t ← deref (procs s !! cur s); deref (ptable t).
Definition set_my_pages (x : gmap Z Z) (s : vm) : res vm :=
  t ← deref (procs s !! cur s);
  Ok (set_procs (<[cur s := Process (pagedir t) (Some x) (user_esp t)]> (procs s)) s).
Definition my_dir (s : vm) : res Z := t ← deref (procs s !! cur s); Ok (pagedir t).

(** The result is the page, or 0. *)
Definition page_allocate (s : vm) (vaddr : Z) (ro : bool) : res (vm * Z) :=
  let '(s, p) := alloc_page s (Page (pg_round_down vaddr) ro (cur s) None NO_SECTOR (negb ro) None 0 0) in
  if negb (p =? 0) then
    tbl ← my_pages s;
    match tbl !! pg_round_down vaddr with
    | Some _ => Ok (free_page p s, 0)
    | None => s ← set_my_pages (<[pg_round_down vaddr := p]> tbl) s; Ok (s, p)
    end
  else Ok (s, 0).

Definition page_for_addr (s : vm) (address : Z) : res (vm * Z) :=
  if address <? PHYS_BASE then
    tbl ← my_pages s;
    match tbl !! pg_round_down address with
    | Some p => Ok (s, p)
    | None =>
        t ← deref (procs s !! cur s);
        if (PHYS_BASE - STACK_MAX <? address) && (u32 (user_esp t - 32) <? address)
        then page_allocate s (pg_round_down address) false
        else Ok (s, 0)
    end
  else Ok (s, 0).

Definition do_page_in (s : vm) (p : Z) : res (vm * bool) :=
  '(s, f) ← frame_alloc_and_lock s p;
  s ← upd_page p (with_frame f) s;
  match f with
  | None => Ok (s, false)
  | Some f =>
      fr ← get_frame s f;
      pg ← get_page s p;
      if negb (psector pg =? NO_SECTOR) then s ← swap_in s p; Ok (s, true)
      else
        match pfile pg with
        | Some file =>
            file ← deref (files s !! file);
            '(x, buffer, read_bytes) ← file_read_at (fsys s) file
              (bytes (memory_of s) (base fr) (file_bytes pg)) (file_bytes pg) (file_offset pg);
            let m := put_bytes (memory_of s) (base fr) buffer in
            Ok (set_memory (memset m (base fr + read_bytes) 0 (PGSIZE - read_bytes)) (set_fsys x s), true)
        | None => Ok (set_memory (memset (memory_of s) (base fr) 0 PGSIZE) s, true)
        end
  end.

(** [pagedir_set_page] for the page [pg] and its frame. *)
Definition install (s : vm) (pg : page) (fr : frame) : res (vm * bool) :=
  pd ← my_dir s;
  '(m, ok) ← pagedir_set_page init_page_dir init_ram_pages (mm s) pd (addr pg) (base fr) (negb (read_only pg));
  Ok (set_mm m s, ok).

Definition page_in (s : vm) (fault_addr : Z) : res (vm * bool) :=
  t ← deref (procs s !! cur s);
  if bool_decide (ptable t = None) then Ok (s, false) else
  '(s, p) ← page_for_addr s fault_addr;
  if p =? 0 then Ok (s, false) else
  s ← frame_lock s p;
  pg ← get_page s p;
  '(s, ok) ← (if bool_decide (pframe pg = None) then do_page_in s p else Ok (s, true));
  if negb ok then Ok (s, false) else
  pg ← get_page s p;
  '(f, fr) ← page_frame s pg;
  _ ← ASSERT (lock_held (cur s) (lock fr));
  '(s, success) ← install s pg fr;
  s ← frame_unlock s f;
  Ok (s, success).

Definition page_deallocate (s : vm) (vaddr : Z) : res vm :=
  '(s, p) ← page_for_addr s vaddr;
  _ ← ASSERT (negb (p =? 0));
  s ← frame_lock s p;
  pg ← get_page s p;
  s ← match pframe pg with
      | None => Ok s
      | Some f =>
          '(s, _) ← (if bool_decide (pfile pg ≠ None) && negb (private pg) then page_out s p else Ok (s, true));
          frame_free s f
      end;
  tbl ← my_pages s;
  pg ← get_page s p;
  s ← set_my_pages (delete (addr pg) tbl) s;
  Ok (free_page p s).

Definition page_lock (s : vm) (address : Z) (will_write : bool) : res (vm * bool) :=
  '(s, p) ← page_for_addr s address;
  if p =? 0 then Ok (s, false) else
  pg ← get_page s p;
  if read_only pg && will_write then Ok (s, false) else
  s ← frame_lock s p;
  pg ← get_page s p;
  match pframe pg with
  | None =>
      '(s, ok) ← do_page_in s p;
      if ok : bool then
        pg ← get_page s p;
        '(f, fr) ← page_frame s pg;
        install s pg fr
      else Ok (s, false)
  | Some _ => Ok (s, true)
  end.

Definition page_unlock (s : vm) (address : Z) : res vm :=
  '(s, p) ← page_for_addr s address;
  _ ← ASSERT (negb (p =? 0));
  pg ← get_page s p;
  f ← deref (pframe pg);
  frame_unlock s f.

Definition destroy_page (p : Z) (s : vm) : res vm :=
  s ← frame_lock s p;
  pg ← get_page s p;
  s ← match pframe pg with None => Ok s | Some f => frame_free s f end;
  Ok (free_page p s).

Fixpoint destroy_pages (ps : list Z) (s : vm) : res vm :=
  match ps with [] => Ok s | p :: ps => s ← destroy_page p s; destroy_pages ps s end.

(** [hash_destroy] calls the destructor on every element and frees the
    table. *)
Definition page_exit (s : vm) : res vm :=
  t ← deref (procs s !! cur s);
  match ptable t with
  | None => Ok s
  | Some tbl => destroy_pages (map snd (map_to_list tbl)) s
  end.
End code.
