(* ===== verification/VmSwap.v ===== *)
(** * vm/swap.c: the swap area keeps pages

    The swap area is a finite map from pages to contents: [swap_out] puts the
    contents of a page's frame in, [swap_in] takes them out again. *)

From stdpp Require Import gmap.
From S2P Require Import Prelude Bitmap Vaddr Palloc Pagedir Block Inode File Vm.

(** ** Bytes of memory *)

Lemma bytes_length m a n : length (bytes m a n) = Z.to_nat n.
Proof. unfold bytes. by rewrite length_map, length_seq. Qed.

Lemma bytes_lookup m a n i : (i < Z.to_nat n)%nat → bytes m a n !! i = Some (m (a + Z.of_nat i)).
Proof. intros Hi. unfold bytes. rewrite list_lookup_fmap, lookup_seq_lt by done. done. Qed.

Lemma bytes_ext m m' a n : (∀ k, a ≤ k < a + n → m' k = m k) → bytes m' a n = bytes m a n.
Proof.
  intros H. unfold bytes. apply map_ext_in. intros i Hi%list_elem_of_In%elem_of_seq. apply H. lia.
Qed.

Lemma bytes_u8 m a n : (∀ k, is_u8 (m k)) → Forall is_u8 (bytes m a n).
Proof. intros H. unfold bytes. apply Forall_map. apply Forall_forall. intros i _. apply H. Qed.

Lemma bytes_app m a n k : 0 ≤ n → 0 ≤ k → bytes m a (n + k) = bytes m a n ++ bytes m (a + n) k.
Proof.
  intros Hn Hk. unfold bytes. replace (Z.to_nat (n + k)) with (Z.to_nat n + Z.to_nat k)%nat by lia.
  rewrite seq_app, map_app. f_equal. cbn [plus]. rewrite <- (Nat.add_0_r (Z.to_nat n)), <- fmap_add_seq.
  change (Nat.add (Z.to_nat n) <$> seq 0 (Z.to_nat k)) with (map (Nat.add (Z.to_nat n)) (seq 0 (Z.to_nat k))).
  rewrite map_map. apply map_ext. intros i. cbn. f_equal. lia.
Qed.

(** A page is eight sectors. *)
Lemma page_sectors m a : bytes m a 4096 = concat (map (λ i, bytes m (a + Z.of_nat i * 512) 512) (seq 0 8)).
Proof.
  cbn [seq map concat]. rewrite app_nil_r. change 4096 with (512 + (512 + (512 + (512 + (512 + (512 + (512 + 512))))))).
  rewrite !bytes_app by lia. do 7 (apply (f_equal2 (++)); [f_equal; lia|]). f_equal. lia.
Qed.

Lemma put_bytes_same m a l : bytes (put_bytes m a l) a (Z.of_nat (length l)) = l.
Proof.
  apply list_eq. intros i. destruct (decide (i < length l)%nat) as [Hi|Hi].
  - rewrite bytes_lookup by lia. unfold put_bytes.
    rewrite (proj2 (Z.leb_le _ _)), (proj2 (Z.ltb_lt _ _)) by lia. cbn [andb].
    replace (Z.to_nat (a + Z.of_nat i - a)) with i by lia. symmetry. by apply list_lookup_lookup_total_lt.
  - rewrite !lookup_ge_None_2; [done|lia|rewrite bytes_length; lia].
Qed.

Lemma put_bytes_out m a l k : k < a ∨ a + Z.of_nat (length l) ≤ k → put_bytes m a l k = m k.
Proof.
  intros Hk. unfold put_bytes. destruct (Z.leb_spec a k), (Z.ltb_spec k (a + Z.of_nat (length l))); try done; lia.
Qed.

(** ** The swap area *)

Definition slot_bytes (d : block) (sector : Z) : list Z :=
  concat (map (λ i, sector_at d (sector + Z.of_nat i)) (seq 0 8)).

(** What the swap area holds for the page [p]. *)
Definition swapped (s : vm) (p : Z) : option (list Z) :=
  match pages s !! p, swap_device s with
  | Some pg, Some d => if psector pg =? NO_SECTOR then None else Some (slot_bytes d (psector pg))
  | _, _ => None
  end.

Record swap_area (d : block) (b : bitmap) (ps : gmap Z page) : Prop := {
  sa_dev : block_wf d;
  sa_map : bitmap_wf b;
  sa_fit : bit_cnt b * 8 ≤ size d < 2 ^ 32;
  sa_u8 n : 0 ≤ n < size d → Forall is_u8 (sector_at d n);
  sa_slot p pg : ps !! p = Some pg → psector pg ≠ NO_SECTOR →
    ∃ n, psector pg = 8 * n ∧ 0 ≤ n < bit_cnt b ∧ bit b n = true;
  sa_inj p q pg qg : ps !! p = Some pg → ps !! q = Some qg → psector pg ≠ NO_SECTOR →
    psector pg = psector qg → p = q;
}.

Definition swap_ok (s : vm) : Prop := ∃ d, swap_device s = Some d ∧ swap_area d (swap_bitmap s) (pages s).

(** The page [p] is in the frame [fr], which the running thread has locked. *)
Definition in_locked_frame (s : vm) (p : Z) (pg : page) (f : nat) (fr : frame) : Prop :=
  pages s !! p = Some pg ∧ pframe pg = Some f ∧ frames s !! f = Some fr ∧ lock fr = Some (cur s).

Lemma locked_page {A} s p pg f fr (k : page → nat → frame → res A) : in_locked_frame s p pg f fr →
  (pg ← get_page s p;
   _ ← ASSERT (bool_decide (pframe pg ≠ None));
   '(f, fr) ← page_frame s pg;
   _ ← ASSERT (lock_held (cur s) (lock fr));
   k pg f fr) = k pg f fr.
Proof.
  intros (Hp & Hf & Hfr & Hl). unfold get_page, page_frame, get_frame. rewrite Hp. cbn [deref mbind res_bind].
  rewrite Hf. rewrite bool_decide_eq_true_2 by done. cbn [ASSERT deref mbind res_bind]. rewrite Hfr.
  cbn [deref mbind res_bind]. unfold lock_held. by rewrite Hl, bool_decide_eq_true_2.
Qed.

Lemma upd_page_ok p g s pg : pages s !! p = Some pg → upd_page p g s = Ok (set_pages (<[p := g pg]> (pages s)) s).
Proof. intros Hp. unfold upd_page, get_page. by rewrite Hp. Qed.

Lemma slot_apart n n' i j : 0 ≤ i < 8 → 0 ≤ j < 8 → 8 * n + i = 8 * n' + j → n = n'.
Proof. lia. Qed.

Lemma slot_bytes_ext d d' x : (∀ i, 0 ≤ i < 8 → sector_at d' (x + i) = sector_at d (x + i)) →
  slot_bytes d' x = slot_bytes d x.
Proof.
  intros H. unfold slot_bytes. f_equal. apply map_ext_in. intros i Hi%list_elem_of_In%elem_of_seq. apply H. lia.
Qed.

(** The loop of [swap_out] writes the eight sectors of a slot. *)
Lemma write_slot s d b x a : block_wf d → 0 ≤ x → x + 8 ≤ size d → size d < 2 ^ 32 →
  swap_device s = Some d → swap_bitmap s = b →
  ∃ d', for_up 8 0 (λ i s,
      dev ← deref (swap_device s);
      dev ← block_write dev (u32 (x + i)) (bytes (memory_of s) (a + i * BLOCK_SECTOR_SIZE) BLOCK_SECTOR_SIZE);
      Ok (set_swap (Some dev) (swap_bitmap s) s)) s = Ok (set_swap (Some d') b s) ∧
    block_wf d' ∧ size d' = size d ∧ slot_bytes d' x = bytes (memory_of s) a 4096 ∧
    (∀ i, 0 ≤ i < 8 → sector_at d' (x + i) = bytes (memory_of s) (a + i * 512) 512) ∧
    ∀ k, 0 ≤ k → k < x ∨ x + 8 ≤ k → sector_at d' k = sector_at d k.
Proof.
  intros Hd Hx Hfit Hsz Hdev Hb.
  destruct (for_up_total (λ i s', ∃ d', s' = set_swap (Some d') b s ∧ block_wf d' ∧ size d' = size d ∧
      (∀ k, 0 ≤ k < i → sector_at d' (x + k) = bytes (memory_of s) (a + k * 512) 512) ∧
      ∀ k, 0 ≤ k → k < x ∨ x + i ≤ k → sector_at d' k = sector_at d k)
    (λ i s, dev ← deref (swap_device s);
      dev ← block_write dev (u32 (x + i)) (bytes (memory_of s) (a + i * BLOCK_SECTOR_SIZE) BLOCK_SECTOR_SIZE);
      Ok (set_swap (Some dev) (swap_bitmap s) s)) 8 0 s)
    as (s' & -> & d' & -> & Hd' & Hs' & Hin & Hout).
  - intros i s0 Hi (d0 & -> & Hd0 & Hs0 & Hin & Hout). cbn [set_swap swap_device deref mbind res_bind].
    rewrite u32_small by (split; lia).
    destruct (block_write_spec d0 (x + i) (bytes (memory_of (set_swap (Some d0) b s)) (a + i * BLOCK_SECTOR_SIZE)
      BLOCK_SECTOR_SIZE)) as (d1 & -> & Hd1 & Hs1 & Hw); [done|lia|by rewrite bytes_length|].
    cbn [mbind res_bind]. eexists. split; [done|]. exists d1. split_and!; [done|done|lia| |].
    + intros k Hk. rewrite Hw by lia. destruct (Z.eqb_spec (x + k) (x + i)) as [E|E].
      * by replace k with i by lia.
      * apply Hin. lia.
    + intros k Hk Hk'. rewrite Hw by lia. rewrite (proj2 (Z.eqb_neq k _)) by lia. apply Hout; lia.
  - exists d. split_and!; try done; [|lia]. by destruct s; cbn in *; subst.
  - exists d'. split_and!; [done|done|done| |exact Hin|intros k Hk Hk'; apply Hout; lia].
    rewrite page_sectors. unfold slot_bytes. f_equal. apply map_ext_in.
    intros i Hi%list_elem_of_In%elem_of_seq. apply Hin. lia.
Qed.

(** The loop of [swap_in] reads them. *)
Lemma read_slot s d b x a : block_wf d → 0 ≤ x → x + 8 ≤ size d → size d < 2 ^ 32 →
  swap_device s = Some d → swap_bitmap s = b →
  ∃ d' m', for_up 8 0 (λ i s,
      dev ← deref (swap_device s);
      '(dev, sec) ← block_read dev (u32 (x + i));
      Ok (set_memory (put_bytes (memory_of (set_swap (Some dev) (swap_bitmap s) s)) (a + i * BLOCK_SECTOR_SIZE) sec)
            (set_swap (Some dev) (swap_bitmap s) s))) s =
        Ok (set_memory m' (set_swap (Some d') b s)) ∧
    block_wf d' ∧ size d' = size d ∧ sectors d' = sectors d ∧ bytes m' a 4096 = slot_bytes d x ∧
    ∀ k, k < a ∨ a + 4096 ≤ k → m' k = memory_of s k.
Proof.
  intros Hd Hx Hfit Hsz Hdev Hb.
  destruct (for_up_total (λ i s', ∃ d' m', s' = set_memory m' (set_swap (Some d') b s) ∧
      block_wf d' ∧ size d' = size d ∧ sectors d' = sectors d ∧
      (∀ k, 0 ≤ k < i → bytes m' (a + k * 512) 512 = sector_at d (x + k)) ∧
      ∀ k, k < a ∨ a + i * 512 ≤ k → m' k = memory_of s k)
    (λ i s, dev ← deref (swap_device s);
      '(dev, sec) ← block_read dev (u32 (x + i));
      Ok (set_memory (put_bytes (memory_of (set_swap (Some dev) (swap_bitmap s) s)) (a + i * BLOCK_SECTOR_SIZE) sec)
            (set_swap (Some dev) (swap_bitmap s) s))) 8 0 s)
    as (s' & -> & d' & m' & -> & Hd' & Hs' & He & Hin & Hout).
  - intros i s0 Hi (d0 & m0 & -> & Hd0 & Hs0 & He & Hin & Hout). cbn [set_memory set_mm set_swap swap_device deref mbind res_bind].
    rewrite u32_small by (split; lia).
    destruct (block_read_spec d0 (x + i)) as (d1 & -> & Hd1 & He1 & Hs1); [done|lia|].
    cbn [mbind res_bind]. eexists. split; [done|].
    set (sec := sector_at d0 (x + i)). assert (sec = sector_at d (x + i)) as Esec by (unfold sec, sector_at; by rewrite He).
    pose proof (sector_length d0 (x + i) Hd0 ltac:(lia)) as Hls. fold sec in Hls.
    exists d1, (put_bytes m0 (a + i * 512) sec). split_and!; [done|done|lia|congruence| |].
    + intros k Hk. destruct (decide (k = i)) as [->|].
      * rewrite <- Hls, put_bytes_same. done.
      * rewrite <- Hin by lia. apply bytes_ext. intros j Hj. apply put_bytes_out. lia.
    + intros k Hk. rewrite put_bytes_out by lia. apply Hout. lia.
  - exists d, (memory_of s). split_and!; try done; [|lia]. by destruct s as [[[]]]; cbn in *; subst.
  - exists d', m'. split_and!; [done..| |exact Hout].
    rewrite page_sectors. unfold slot_bytes. f_equal. apply map_ext_in.
    intros i Hi%list_elem_of_In%elem_of_seq. apply Hin. lia.
Qed.

Definition swap_full (s : vm) : Prop := ∀ n, 0 ≤ n < bit_cnt (swap_bitmap s) → bit (swap_bitmap s) n = true.

(** The state after [swap_out] of page [p] to the sectors from [x] on. *)
Definition swapped_out (s : vm) (p : Z) (pg : page) (d : block) (b : bitmap) (x : Z) : vm :=
  set_pages (<[p := with_backing false None 0 0 (with_sector x pg)]> (pages s)) (set_swap (Some d) b s).

Lemma area_out s p pg d b d' b' n : swap_area d b (pages s) → pages s !! p = Some pg →
  sets b b' n 1 true → bit b n = false → 0 ≤ n < bit_cnt b →
  block_wf d' → size d' = size d → (∀ n, 0 ≤ n < size d' → Forall is_u8 (sector_at d' n)) →
  swap_area d' b' (<[p := with_backing false None 0 0 (with_sector (8 * n) pg)]> (pages s)).
Proof.
  intros [H1 H2 H3 _ H4 H5] Hp (Hb' & Hcnt & Hsets) Hfree Hn Hd' Hsz H8.
  assert (∀ q qg, q ≠ p → pages s !! q = Some qg → psector qg ≠ NO_SECTOR → psector qg ≠ 8 * n) as Hne.
  { intros q qg _ Hq Hs E. destruct (H4 q qg Hq Hs) as (k & Hk & Hk' & Hbit). replace k with n in * by lia. congruence. }
  split; [done|done|lia|done| |].
  - intros q qg Hq Hs. destruct (decide (q = p)) as [->|Hqp].
    + rewrite lookup_insert_eq in Hq. injection Hq as <-. exists n. split_and!; [done|lia|lia|].
      rewrite Hsets by done. by rewrite (proj2 (Z.leb_le _ _)), (proj2 (Z.ltb_lt _ _)) by lia.
    + rewrite lookup_insert_ne in Hq by done. destruct (H4 q qg Hq Hs) as (k & Hk & Hk' & Hbit).
      exists k. split_and!; [done|lia|lia|]. rewrite Hsets by done. by destruct (_ && _).
  - intros q r qg rg Hq Hr Hs E. destruct (decide (q = p)) as [->|Hqp], (decide (r = p)) as [->|Hrp]; [done| | |].
    + rewrite lookup_insert_eq in Hq. rewrite lookup_insert_ne in Hr by done. injection Hq as <-. cbn in E, Hs.
      exfalso. by apply (Hne r rg); [|done|congruence|].
    + rewrite lookup_insert_eq in Hr. rewrite lookup_insert_ne in Hq by done. injection Hr as <-. cbn in E.
      exfalso. by apply (Hne q qg).
    + rewrite lookup_insert_ne in Hq, Hr by done. by eapply H5.
Qed.

Lemma swap_out_spec s p pg f fr : swap_ok s → in_locked_frame s p pg f fr → swap_lock s = None →
  psector pg = NO_SECTOR → (∀ k, is_u8 (memory_of s k)) →
  (swap_out s p = Ok (s, false) ∧ swap_full s) ∨
  ∃ d b x, let s' := swapped_out s p pg d b x in
    swap_out s p = Ok (s', true) ∧ ¬ swap_full s ∧ swap_ok s' ∧
    ∀ q, swapped s' q = if q =? p then Some (bytes (memory_of s) (base fr) 4096) else swapped s q.
Proof.
  intros (d & Hdev & Ha) Hfr Hlk Hsec Hm8. pose proof Ha as [Hd Hb Hfit H8 Hslot Hinj].
  unfold swap_out. rewrite (locked_page s p pg f fr) by done. rewrite Hlk. cbn [lock_acquire mbind res_bind].
  destruct (bitmap_scan_and_flip_spec (swap_bitmap s) 0 1 false Hb) as (b' & n & -> & Hr); [destruct Hb; lia|lia|].
  cbn [mbind res_bind]. unfold lock_release, lock_held. rewrite bool_decide_eq_true_2 by done. cbn [ASSERT mbind res_bind].
  destruct Hr as [(-> & -> & Hno)|(Hn & (Hn0 & Hn1 & Hgrp & _) & Hsets)].
  - left. rewrite Z.eqb_refl. split; [by destruct s; cbn in *; subst|].
    intros k Hk. destruct (bit (swap_bitmap s) k) eqn:E; [done|]. destruct (Hno k); [lia|lia|].
    intros j Hj. by replace j with k by lia.
  - right. rewrite (proj2 (Z.eqb_neq _ _) Hn). change PAGE_SECTORS with 8.
    assert (bit (swap_bitmap s) n = false) as Hfree by (apply Hgrp; lia).
    rewrite (u32_small (n * 8)) by (split; lia). rewrite (Z.mul_comm n 8).
    destruct Hfr as (Hp & Hpf & Hf & Hl).
    rewrite (upd_page_ok p _ (set_swap_lock None (set_swap (swap_device s) b' s)) pg) by done. cbn [mbind res_bind].
    set (s1 := set_pages _ _). change (Z.to_nat 8) with 8%nat.
    destruct (write_slot s1 d b' (8 * n) (base fr)) as (d' & -> & Hd' & Hsz & Hbytes & Hsecs & Hout);
      [done|lia|lia|lia|done|done|].
    cbn [mbind res_bind]. rewrite (upd_page_ok p _ _ (with_sector (8 * n) pg)) by apply lookup_insert_eq.
    cbn [mbind res_bind s1 set_pages set_swap pages]. rewrite insert_insert_eq.
    exists d', b', (8 * n). split_and!; [do 2 f_equal; unfold swapped_out; by destruct s; cbn in *; subst| | |].
    + intros Hfull. rewrite Hfull in Hfree by lia. done.
    + exists d'. split; [done|]. eapply area_out; try (done || lia). intros k Hk.
      destruct (decide (8 * n ≤ k < 8 * n + 8)) as [Hin|Hin]; [|rewrite Hout by lia; apply H8; lia].
      replace k with (8 * n + (k - 8 * n)) by lia. rewrite Hsecs by lia. by apply bytes_u8.
    + intros q. unfold swapped, swapped_out. cbn [set_pages set_swap pages swap_device]. rewrite Hdev. destruct (Z.eqb_spec q p) as [->|Hqp].
      * rewrite lookup_insert_eq. cbn [psector with_backing with_sector].
        rewrite (proj2 (Z.eqb_neq _ _)) by (unfold NO_SECTOR, UINT_MAX; lia).
        rewrite Hbytes. done.
      * rewrite lookup_insert_ne by done. destruct (pages s !! q) as [qg|] eqn:Hq; [|done].
        destruct (Z.eqb_spec (psector qg) NO_SECTOR) as [|Hs]; [done|]. f_equal. apply slot_bytes_ext.
        intros i Hi. destruct (Hslot q qg Hq Hs) as (k & Hk & Hk' & Hbit). apply Hout; [lia|].
        assert (k ≠ n) by congruence. lia.
Qed.

(** The state after [swap_in] of page [p]. *)
Definition swapped_in (s : vm) (p : Z) (pg : page) (d : block) (b : bitmap) (m : memory) : vm :=
  set_pages (<[p := with_sector NO_SECTOR pg]> (pages s)) (set_memory m (set_swap (Some d) b s)).

Lemma area_in s p pg d b d' b' n : swap_area d b (pages s) → pages s !! p = Some pg → psector pg = 8 * n →
  sets b b' n 1 false → 0 ≤ n < bit_cnt b → block_wf d' → size d' = size d → sectors d' = sectors d →
  swap_area d' b' (<[p := with_sector NO_SECTOR pg]> (pages s)).
Proof.
  intros [H1 H2 H3 H8 H4 H5] Hp Hsec (Hb' & Hcnt & Hsets) Hn Hd' Hsz Hse.
  assert (∀ q qg, (<[p := with_sector NO_SECTOR pg]> (pages s)) !! q = Some qg → psector qg ≠ NO_SECTOR →
    q ≠ p ∧ pages s !! q = Some qg) as Hold.
  { intros q qg Hq Hs. destruct (decide (q = p)) as [->|Hqp].
    - rewrite lookup_insert_eq in Hq. by injection Hq as <-.
    - by rewrite lookup_insert_ne in Hq. }
  split; [done|done|lia|unfold sector_at in *; by rewrite Hse, Hsz| |].
  - intros q qg Hq Hs. destruct (Hold q qg Hq Hs) as [Hqp Hq']. destruct (H4 q qg Hq' Hs) as (k & Hk & Hk' & Hbit).
    exists k. split_and!; [done|lia|lia|]. rewrite Hsets by done.
    destruct (Z.leb_spec n k), (Z.ltb_spec k (n + 1)); try done. exfalso. apply Hqp.
    apply (H5 q p qg pg); [done..|lia].
  - intros q r qg rg Hq Hr Hs E. destruct (Hold q qg Hq Hs) as [_ Hq'].
    destruct (Hold r rg Hr) as [_ Hr']; [congruence|]. by eapply H5.
Qed.

Lemma swap_in_spec s p pg f fr l : swap_ok s → in_locked_frame s p pg f fr → swapped s p = Some l →
  ∃ d b m, let s' := swapped_in s p pg d b m in
    swap_in s p = Ok s' ∧ swap_ok s' ∧ bytes m (base fr) 4096 = l ∧
    (∀ k, k < base fr ∨ base fr + 4096 ≤ k → m k = memory_of s k) ∧
    ∀ q, swapped s' q = if q =? p then None else swapped s q.
Proof.
  intros (d & Hdev & Ha) Hfr Hl. pose proof Ha as [Hd Hb Hfit H8 Hslot Hinj].
  unfold swap_in. rewrite (locked_page s p pg f fr) by done.
  assert (psector pg ≠ NO_SECTOR ∧ slot_bytes d (psector pg) = l) as [Hs Hsl].
  { destruct Hfr as (Hp & _). unfold swapped in Hl. rewrite Hp, Hdev in Hl.
    destruct (Z.eqb_spec (psector pg) NO_SECTOR); [done|]. by injection Hl. }
  rewrite (proj2 (Z.eqb_neq _ _) Hs). cbn [negb ASSERT mbind res_bind].
  destruct Hfr as (Hp & _). destruct (Hslot p pg Hp Hs) as (n & Hn & Hn' & Hbit). rewrite Hn in Hsl |- *.
  change (Z.to_nat PAGE_SECTORS) with 8%nat. change PAGE_SECTORS with 8.
  destruct (read_slot s d (swap_bitmap s) (8 * n) (base fr)) as (d' & m & -> & Hd' & Hsz & Hsec & Hbytes & Hout);
    [done|lia|lia|lia|done|done|]. cbn [mbind res_bind set_memory set_mm set_swap swap_bitmap].
  rewrite Z.mul_comm, Z.div_mul by lia.
  destruct (bitmap_reset_spec (swap_bitmap s) n Hb Hn') as (b' & -> & Hsets). cbn [mbind res_bind].
  rewrite (upd_page_ok p _ _ pg) by done. exists d', b', m. split_and!.
  - done.
  - exists d'. split; [done|]. by eapply area_in.
  - congruence.
  - done.
  - intros q. unfold swapped, swapped_in. cbn [set_pages set_memory set_mm set_swap pages swap_device].
    rewrite Hdev. destruct (Z.eqb_spec q p) as [->|Hqp]; [by rewrite lookup_insert_eq|].
    rewrite lookup_insert_ne by done. destruct (pages s !! q); [|done]. case_match; [done|].
    f_equal. apply slot_bytes_ext. intros i Hi. unfold sector_at. by rewrite Hsec.
Qed.
