(* ===== verification/VmPaging.v ===== *)
(** * vm/page.c: what paging does to what a process sees

    [contents s p j] is byte [j] of the page [p], wherever the page is: in its
    frame, in the swap area, in its file, or nowhere, when it is zero.  This file
    says what moving pages in and out of memory does to it: [page_out_post] has
    every case of [page_out], [picked] the frame that the clock chooses, and
    [faulted] the end of a page fault. *)

From stdpp Require Import gmap.
From S2P Require Import Prelude Bitmap Vaddr Palloc Pagedir Block Inode File Vm VmSwap.

(** ** Pages that are not page tables *)

Definition data_page (s : mmu) (pds : list Z) (b : Z) : Prop :=
  kpage s b ∧ (b ∉ pds) ∧
  ∀ pd i, pd ∈ pds → 0 ≤ i < 768 → pde s pd i ≠ 0 → pt_of (pde s pd i) ≠ b.

(** [s'] is [s] but for the words of page tables. *)
Definition same_data (s s' : mmu) (pds : list Z) : Prop :=
  ∀ b, data_page s pds b → data_page s' pds b ∧ ∀ k, b ≤ k < b + 4096 → mem (pal s') k = mem (pal s) k.

Lemma same_data_refl s pds : same_data s s pds.
Proof. by intros b Hb. Qed.

Lemma same_data_pal s s1 s' pds : pal s' = pal s1 → same_data s s1 pds → same_data s s' pds.
Proof.
  intros E H b Hb. destruct (H b Hb) as [(H1 & H2 & H3) Hk]. rewrite E. split; [|done].
  split_and!; [unfold kpage; by rewrite E|done|].
  intros pd i. unfold pde, word. rewrite E. apply H3.
Qed.

(** Two pages do not overlap. *)
Lemma pages_apart a b : a mod 4096 = 0 → b mod 4096 = 0 → a ≠ b → a + 4096 ≤ b ∨ b + 4096 ≤ a.
Proof.
  intros Ha Hb Hne. pose proof (Z.div_mod a 4096). pose proof (Z.div_mod b 4096).
  assert (a / 4096 + 1 ≤ b / 4096 ∨ b / 4096 + 1 ≤ a / 4096) by lia. lia.
Qed.

Lemma store_data s pds pd v e : vm_inv s pds → pd ∈ pds → 0 ≤ v < PHYS_BASE → slot s pd v ≠ 0 →
  same_data s (store_word s (slot s pd v) e) pds.
Proof.
  intros Hs Hpd Hv Hne. destruct (user_index v Hv) as (Hi & Hj & _).
  assert (pde s pd (pd_no v) ≠ 0) as Hp.
  { intros E. apply Hne. unfold slot. by rewrite (proj2 (Z.eqb_eq _ 0) E). }
  destruct (slot_nonzero s pds pd v Hs Hpd Hv Hp) as [Hslot _].
  destruct (vm_tables _ _ Hs pd _ Hpd Hi Hp) as (_ & (Hal & _) & Hnin).
  intros b (Hbk & Hbp & Hbt). pose proof Hbk as (Hb & _). split.
  - split_and!; [exact Hbk|done|]. intros pd' i' Hpd' Hi' Hne'.
    assert (pde (store_word s (slot s pd v) e) pd' i' = pde s pd' i') as E.
    { unfold pde, word. cbn. apply rd32_wr32_ne. rewrite Hslot.
      apply slots_apart; [exact Hal|apply (vm_dirs _ _ Hs pd' Hpd')|lia|lia|]. left. congruence. }
    rewrite E in Hne' |- *. by apply Hbt.
  - intros k Hk. cbn. unfold wr32. specialize (Hbt pd (pd_no v) Hpd Hi Hp).
    set (t := pt_of (pde s pd (pd_no v))) in *. rewrite Hslot.
    assert (k < t ∨ t + 4096 ≤ k) as Ha.
    { destruct (pages_apart t b); [done|done|done|lia|lia]. }
    repeat case_match; done || lia.
Qed.

Lemma clear_page_data ipd s pds pd u : vm_inv s pds → pd ∈ pds → 0 ≤ u < PHYS_BASE →
  u mod 4096 = 0 → 0 ≤ cr3 s < PHYS_BASE → cr3 s + PHYS_BASE < 2 ^ 32 →
  ∃ s', pagedir_clear_page ipd s pd u = Ok s' ∧ vm_inv s' pds ∧ same_data s s' pds ∧ cr3 s' = cr3 s ∧
    pagedir_is_dirty s' pd u = Ok (flag (entry s pd u) PTE_D) ∧
    flag (entry s' pd u) PTE_P = false ∧
    ∀ pd' v', pd' ∈ pds → 0 ≤ v' < PHYS_BASE → pd' ≠ pd ∨ v' / 4096 ≠ u / 4096 → entry s' pd' v' = entry s pd' v'.
Proof.
  intros Hs Hpd Hu Hua Hc Hc2. pose proof (clear_page_spec ipd s pds pd u Hs Hpd Hu Hua Hc Hc2) as Hspec.
  pose proof (entry_u32 s pds pd u Hs) as He32.
  assert (∀ s', vm_inv s' pds → flag (entry s' pd u) PTE_D = flag (entry s pd u) PTE_D →
    pagedir_is_dirty s' pd u = Ok (flag (entry s pd u) PTE_D)) as Hdirty.
  { intros s' Hs' He. unfold pagedir_is_dirty. rewrite (lookup_false s' pds) by done. cbn [mbind res_bind].
    rewrite <- He. unfold entry. destruct (Z.eqb_spec (slot s' pd u) 0); done. }
  destruct (flag (entry s pd u) PTE_P) eqn:Ep; [|exists s; by split_and!; [..|apply same_data_refl| |apply Hdirty| |]].
  destruct Hspec as (s' & Hcl & [Hinv Hent] & Hcr & Ht).
  assert (entry s' pd u = Z.land (entry s pd u) (not32 PTE_P)) as He by (by rewrite Hent, !Z.eqb_refl).
  destruct (clear_flag (entry s pd u) 0 He32 ltac:(lia)) as (_ & _ & Hfl). change (2 ^ 0) with PTE_P in Hfl.
  exists s'. split_and!; [done|done| |done| | |].
  - unfold pagedir_clear_page, is_user_vaddr in Hcl.
    rewrite pg_ofs_mod, Hua, (proj2 (Z.ltb_lt u _)) in Hcl by lia. cbn [Z.eqb ASSERT mbind res_bind] in Hcl.
    rewrite (lookup_false s pds) in Hcl by done. cbn [mbind res_bind] in Hcl. unfold entry in Ep, He32.
    destruct (Z.eqb_spec (slot s pd u) 0) as [E0|E0]; [done|]. cbn [negb andb] in Hcl. rewrite Ep in Hcl.
    set (e := Z.land _ _) in Hcl.
    destruct (store_entry s pds pd u e) as [Hinv1 _]; [done..| | |].
    { apply is_u32_land; [done|apply u32_range]. }
    { destruct (pde_of_entry s pds pd u Hs Hpd Hu) as [E _]. intros E'. rewrite E' in E. lia. }
    destruct (invalidate_spec ipd (store_word s (slot s pd u) e) pds pd) as (s2 & Hin & Hp2 & _); [done..|].
    rewrite Hin in Hcl. injection Hcl as <-. eapply same_data_pal; [exact Hp2|]. by apply store_data.
  - apply Hdirty; [done|]. rewrite He. exact (Hfl 6 ltac:(lia)).
  - rewrite He. exact (Hfl 0 ltac:(lia)).
  - intros pd' v' Hpd' Hv' Hne. rewrite Hent by done.
    destruct (Z.eqb_spec pd' pd), (Z.eqb_spec (v' / 4096) (u / 4096)); try done. lia.
Qed.

(** A new page table is a page that was free. *)
Lemma new_table_data s pds pd v p pt : vm_inv s pds → pd ∈ pds → 0 ≤ v < PHYS_BASE → pde s pd (pd_no v) = 0 →
  got_pages (pal s) p Kernel pt 1 → mem p = memset (mem (pal s)) pt 0 4096 →
  same_data s (with_table s pd v p pt) pds.
Proof.
  intros Hs Hpd Hv H0 Hgot Hmem b (Hbk & Hbp & Hbt).
  destruct (new_page s pds pd v p pt Hs Hpd Hv H0 Hgot Hmem) as [Hkpt Hold]. destruct (Hold b Hbk) as [Hbpt Hbk'].
  destruct (new_pde_ok s pds pd v p pt Hs Hpd Hv H0 Hgot Hmem) as (_ & Hpt & _).
  pose proof (vm_dirs _ _ Hs pd Hpd) as (Hpda & _). pose proof Hbk as (Hba & _). pose proof Hkpt as (Hpta & _). split.
  - split_and!; [done|done|]. intros pd' i Hpd' Hi. rewrite (table_pde s pds pd v p pt) by done.
    destruct (_ && _); [by rewrite Hpt|by apply Hbt].
  - intros k Hk. destruct (user_index v Hv) as (Hi & _).
    pose proof (pages_apart pd b Hpda Hba ltac:(congruence)) as A1. pose proof (pages_apart pt b Hpta Hba ltac:(congruence)) as A2.
    cbn. unfold wr32. rewrite Hmem. unfold memset.
    repeat case_match; try lia; try done.
Qed.

Lemma lookup_true_data s pds pd v s1 pte : vm_inv s pds → pd ∈ pds → 0 ≤ v < PHYS_BASE →
  lookup_page s pd v true = Ok (s1, pte) → vm_inv s1 pds ∧ same_data s s1 pds ∧ (pte ≠ 0 → pte = slot s1 pd v).
Proof.
  intros Hs Hpd Hv H. split_and!.
  - by destruct (lookup_true s pds pd v Hs Hpd Hv) as [(E & _)|(s2 & E & Hinv & _)]; rewrite E in H; injection H as <- <-.
  - destruct (vm_dirs _ _ Hs pd Hpd) as (_ & Hlo & _). unfold PHYS_BASE in Hlo.
    unfold lookup_page in H. rewrite (proj2 (Z.eqb_neq pd 0)) in H by lia. unfold is_user_vaddr in H.
    rewrite (proj2 (Z.ltb_lt v PHYS_BASE)) in H by lia. cbn [negb ASSERT mbind res_bind orb] in H.
    fold (pde s pd (pd_no v)) in H. destruct (Z.eqb_spec (pde s pd (pd_no v)) 0) as [E|E].
    + unfold palloc_get_page in H.
      destruct (palloc_get_spec (pal s) PAL_ZERO 1 (vm_pal _ _ Hs)) as [[Ho Hg]|(p & pt & Hg & Hpt & Hgot & Hmem)];
        [lia|rewrite Hg in H; injection H as <- _; destruct s; apply same_data_refl|].
      rewrite Hg in H. cbn [mbind res_bind] in H. rewrite (proj2 (Z.eqb_neq pt 0)) in H by done.
      change (flag PAL_ZERO PAL_ZERO) with true in Hmem. cbn in Hmem. change (pool_of PAL_ZERO) with Kernel in Hgot.
      destruct (new_page s pds pd v p pt) as [(Hpa & Hplo & Hphi & _) _]; [done..|].
      rewrite pde_create_eq in H by (done || lia). cbn [mbind res_bind] in H.
      change (store_word _ _ _) with (with_table s pd v p pt) in H. inv_res. by apply new_table_data.
    + inv_res. apply same_data_refl.
  - by destruct (lookup_true s pds pd v Hs Hpd Hv) as [(E & _)|(s2 & E & Hinv & _)]; rewrite E in H; injection H as <- <-.
Qed.

Lemma set_page_data ipd ram s pds pd u k w s' ok : vm_inv s pds → pd ∈ pds → 0 ≤ u < PHYS_BASE →
  pagedir_set_page ipd ram s pd u k w = Ok (s', ok) → same_data s s' pds.
Proof.
  intros Hs Hpd Hu H. unfold pagedir_set_page in H. inv_res. destruct a5 as [s1 pte].
  destruct (lookup_true_data s pds pd u s1 pte Hs Hpd Hu) as (Hs1 & Hd1 & Hpte); [done|].
  destruct (Z.eqb_spec pte 0) as [->|Hne]; cbn [negb] in H; inv_res; [done|].
  specialize (Hpte Hne). subst pte. intros b Hb. destruct (Hd1 b Hb) as [Hb1 Hm1].
  destruct (store_data s1 pds pd u a6 Hs1 Hpd Hu Hne b Hb1) as [Hb2 Hm2]. split; [done|].
  intros k' Hk. rewrite Hm2, Hm1 by done. done.
Qed.

(** Writing to a page that is not a page table. *)
Lemma data_word s pds b m a i : data_page s pds b → a mod 4096 = 0 → a ≠ b → 0 ≤ i < 1024 →
  (∀ k, k < b ∨ b + 4096 ≤ k → m k = mem (pal s) k) → rd32 m (a + 4 * i) = word s (a + 4 * i).
Proof.
  intros ((Hb & _) & _) Ha Hne Hi Hm. unfold word, rd32.
  pose proof (pages_apart a b Ha Hb Hne).
  by rewrite !Hm by lia.
Qed.

Lemma data_write s pds b m : vm_inv s pds → data_page s pds b → (∀ k, is_u8 (m k)) →
  (∀ k, k < b ∨ b + 4096 ≤ k → m k = mem (pal s) k) →
  let s' := Mmu (set_mem (pal s) m) (cr3 s) (tlb s) in
  vm_inv s' pds ∧ (∀ c, data_page s pds c → data_page s' pds c) ∧
  ∀ pd v, pd ∈ pds → 0 ≤ v < PHYS_BASE → entry s' pd v = entry s pd v.
Proof.
  intros Hs Hb H8 Hm s'. pose proof Hb as (_ & Hnp & Hnt).
  assert (∀ pd i, pd ∈ pds → 0 ≤ i < 768 → pde s' pd i = pde s pd i) as Hpde.
  { intros pd i Hpd Hi. apply (data_word s pds b); [done|apply (vm_dirs _ _ Hs pd Hpd)|congruence|lia|done]. }
  split_and!.
  - destruct Hs as [H1 H2 H3 H4 H5]. split; [by apply wf_set_mem|done|done| |].
    + intros pd i Hpd Hi. rewrite Hpde by done. by apply H4.
    + intros pd i pd' i' H H' Hi Hi'. rewrite !Hpde by done. by apply H5.
  - intros c (Hc & Hcp & Hct). split_and!; [done|done|]. intros pd i Hpd Hi. rewrite Hpde by done. by apply Hct.
  - intros pd v Hpd Hv. destruct (user_index v Hv) as (Hi & Hj & _). unfold entry, slot. rewrite Hpde by done.
    destruct (Z.eqb_spec (pde s pd (pd_no v)) 0) as [|E]; [done|]. case_match; [done|].
    destruct (vm_tables _ _ Hs pd _ Hpd Hi E) as (_ & (Hta & _) & _).
    apply (data_word s pds b); [done|done|by apply Hnt|lia|done].
Qed.

(** ** What a page contains *)

(** Byte [j] of the file behind the page, which is zero beyond the end of the
    file. *)
Definition backing (s : vm) (pg : page) (j : Z) : Z :=
  match pfile pg ≫= λ h, files s !! h with
  | Some fl =>
      match inodes (fsys s) !! file_inode fl with
      | Some n =>
          if j <? available n (file_bytes pg) (file_offset pg)
          then file_byte (fs_device (fsys s)) n (file_offset pg + j) else 0
      | None => 0
      end
  | None => 0
  end.

Definition contents (s : vm) (p j : Z) : Z :=
  match pages s !! p with
  | None => 0
  | Some pg =>
      match pframe pg with
      | Some f => match frames s !! f with Some fr => memory_of s (base fr + j) | None => 0 end
      | None => match swapped s p with Some l => at_ l j | None => backing s pg j end
      end
  end.

Definition same_contents (s s' : vm) : Prop := ∀ q j, 0 ≤ j < 4096 → contents s' q j = contents s q j.

Section paging.
Context (ipd ram : Z) (pds : list Z).

Definition file_ok (s : vm) (pg : page) (h : Z) : Prop :=
  ∃ fl n, files s !! h = Some fl ∧ inodes (fsys s) !! file_inode fl = Some n ∧
    extent_ok (fs_device (fsys s)) n ∧ 0 < file_bytes pg ≤ 4096 ∧ 0 ≤ file_offset pg < 2 ^ 31.

Record page_ok (s : vm) (pg : page) : Prop := {
  po_addr : 0 ≤ addr pg < PHYS_BASE ∧ addr pg mod 4096 = 0;
  po_dir : ∃ t, procs s !! thread pg = Some t ∧ pagedir t ∈ pds;
  po_frame f : pframe pg = Some f → psector pg = NO_SECTOR;
  po_file h : pfile pg = Some h → file_ok s pg h;
}.

Record machine (s : vm) : Prop := {
  mc_mm : vm_inv (mm s) pds;
  mc_cr3 : 0 ≤ cr3 (mm s) < PHYS_BASE ∧ cr3 (mm s) + PHYS_BASE < 2 ^ 32;
  mc_swap : swap_ok s;
  mc_fs : block_wf (fs_device (fsys s)) ∧ mem_ok (fsys s);
  mc_fs_u8 n : 0 ≤ n < size (fs_device (fsys s)) → Forall is_u8 (sector_at (fs_device (fsys s)) n);
  mc_base f fr : frames s !! f = Some fr → data_page (mm s) pds (base fr);
  mc_base_inj f g fr gr : frames s !! f = Some fr → frames s !! g = Some gr → base fr = base gr → f = g;
  mc_page p pg : pages s !! p = Some pg → page_ok s pg;
  mc_owner p pg f : pages s !! p = Some pg → pframe pg = Some f →
    ∃ fr, frames s !! f = Some fr ∧ fpage fr = p;
  mc_null : pages s !! 0 = None;
  mc_ram f fr : frames s !! f = Some fr → (base fr - PHYS_BASE) / 4096 < ram;
}.

(** The dirty bit of a page of a process. *)
Definition dirty (s : vm) (pg : page) : bool :=
  match procs s !! thread pg with Some t => flag (entry (mm s) (pagedir t) (addr pg)) PTE_D | None => false end.

(** *** Page tables *)

Lemma machine_mm s m : machine s → vm_inv m pds → same_data (mm s) m pds → cr3 m = cr3 (mm s) →
  machine (set_mm m s) ∧ same_contents s (set_mm m s).
Proof.
  intros [H1 H2 H3 H4 H4' H5 H6 H7 H8 H9 H10] Hm Hd Hc. split.
  - split; try done.
    + cbn. by rewrite Hc.
    + intros f fr Hf. by apply (Hd (base fr)), (H5 f fr).
    + intros p pg Hp. destruct (H7 p pg Hp). by split.
  - intros q j Hj. unfold contents. cbn. destruct (pages s !! q) as [qg|]; [|done].
    destruct (pframe qg) as [f|]; [|done]. destruct (frames s !! f) as [fr|] eqn:Hf; [|done].
    apply (Hd (base fr)); [by apply (H5 f fr)|lia].
Qed.

(** *** The page leaves its frame *)

Lemma contents_other s s' p : memory_of s' = memory_of s → frames s' = frames s → files s' = files s →
  fsys s' = fsys s → (∀ q, q ≠ p → pages s' !! q = pages s !! q) → (∀ q, q ≠ p → swapped s' q = swapped s q) →
  ∀ q j, q ≠ p → contents s' q j = contents s q j.
Proof.
  intros Hm Hf Hfl Hfs Hp Hsw q j Hq. unfold contents, backing. by rewrite Hm, Hf, Hfl, Hfs, Hp, Hsw.
Qed.

(** Changing the page [p] and the swap area. *)
Lemma machine_page s p pg pg' d b : machine s → pages s !! p = Some pg → addr pg' = addr pg → thread pg' = thread pg →
  pframe pg' = None → (pfile pg' = None ∨
    pfile pg' = pfile pg ∧ file_bytes pg' = file_bytes pg ∧ file_offset pg' = file_offset pg) →
  let s' := set_pages (<[p := pg']> (pages s)) (set_swap d b s) in swap_ok s' → machine s'.
Proof.
  intros [H1 H2 H3 H4 H4' H5 H6 H7 H8 H9 H10] Hp Ha Ht Hf Hfl s' Hsw. split; try done.
  - intros q qg Hq. cbn in Hq. destruct (decide (q = p)) as [->|Hqp].
    + rewrite lookup_insert_eq in Hq. injection Hq as <-. destruct (H7 p pg Hp) as [P1 P2 P3 P4].
      split; [by rewrite Ha|by rewrite Ht|by rewrite Hf|]. intros h Hh.
      destruct Hfl as [Hn|(E1 & E2 & E3)]; [congruence|]. rewrite E1 in Hh.
      destruct (P4 h Hh) as (fl & n & ?). exists fl, n. rewrite E2, E3. done.
    + rewrite lookup_insert_ne in Hq by done. destruct (H7 q qg Hq). by split.
  - intros q qg f Hq Hqf. cbn in Hq.
    destruct (decide (q = p)) as [->|Hqp]; [rewrite lookup_insert_eq in Hq; injection Hq as <-; congruence|].
    rewrite lookup_insert_ne in Hq by done. by eapply H8.
  - cbn. rewrite lookup_insert_ne; [done|]. intros ->. congruence.
Qed.

(** The second half of [page_out], when the page table entry is gone. *)
Definition save_page (s : vm) (p : Z) (pg : page) (fr : frame) (dirty : bool) : res (vm * bool) :=
  '(s, ok) ← (if bool_decide (pfile pg = None) then swap_out s p else Ok (s, false));
  '(s, ok) ← (if dirty : bool then
                pg ← get_page s p;
                if private pg then swap_out s p else write_back s pg fr
              else Ok (s, true));
  if ok : bool then s ← upd_page p (with_frame None) s; Ok (s, true) else Ok (s, false).

(** What [page_out] of [p] leaves alone. *)
Record rest (s s' : vm) (p : Z) : Prop := {
  rs_frames : frames s' = frames s;
  rs_procs : procs s' = procs s;
  rs_cur : cur s' = cur s;
  rs_scan : scan_lock s' = scan_lock s;
  rs_pages q : q ≠ p → pages s' !! q = pages s !! q;
  rs_present pd v : pd ∈ pds → 0 ≤ v < PHYS_BASE →
    flag (entry (mm s') pd v) PTE_P = true → flag (entry (mm s) pd v) PTE_P = true;
}.

Lemma page_out_start s p pg f fr : machine s → in_locked_frame s p pg f fr →
  ∃ m, page_out ipd s p = save_page (set_mm m s) p pg fr (dirty s pg) ∧
    machine (set_mm m s) ∧ same_contents s (set_mm m s) ∧ in_locked_frame (set_mm m s) p pg f fr ∧
    rest s (set_mm m s) p.
Proof.
  intros Hs Hfr. pose proof Hfr as (Hp & _). destruct (mc_page _ Hs p pg Hp) as [[Ha Hal] (t & Ht & Hpd) _ _].
  unfold page_out. rewrite (locked_page s p pg f fr) by done. unfold page_dir, dirty. rewrite Ht. cbn [deref mbind res_bind].
  destruct (clear_page_data ipd (mm s) pds (pagedir t) (addr pg)) as (m & -> & Hm & Hd & Hc & Hdirty & Hnp & Hent);
    [apply Hs|done|done|done|apply Hs|apply Hs|]. cbn [mbind res_bind set_mm mm]. rewrite Hdirty. cbn [mbind res_bind].
  exists m. split; [done|]. destruct (machine_mm s m Hs Hm Hd Hc) as [Hm' Hc']. split_and!; [done|done|exact Hfr|].
  split; try done. intros pd v Hpd' Hv. cbn [set_mm mm].
  destruct (decide (pd ≠ pagedir t ∨ v / 4096 ≠ addr pg / 4096)) as [Hne|He]; [by rewrite Hent|].
  assert (pd = pagedir t) as -> by (apply dec_stable; tauto).
  rewrite (entry_page m (pagedir t) v (addr pg)) by (done || (apply dec_stable; tauto)). congruence.
Qed.

(** The state after page [p] has moved to the swap area. *)
Definition evicted (s : vm) (p : Z) (pg : page) (d : block) (b : bitmap) (x : Z) : vm :=
  set_pages (<[p := with_frame None (with_backing false None 0 0 (with_sector x pg))]> (pages s)) (set_swap (Some d) b s).

Lemma at_bytes m a n j : 0 ≤ j < n → at_ (bytes m a n) j = m (a + j).
Proof.
  intros Hj. unfold at_. apply list_lookup_total_correct. rewrite bytes_lookup by lia. do 2 f_equal. lia.
Qed.

Lemma upd_swapped s p pg pg' : pages s !! p = Some pg → psector pg' = psector pg →
  ∀ q, swapped (set_pages (<[p := pg']> (pages s)) s) q = swapped s q.
Proof.
  intros Hp Hg q. unfold swapped. cbn. destruct (decide (q = p)) as [->|Hqp].
  - rewrite lookup_insert_eq, Hp. by rewrite Hg.
  - by rewrite lookup_insert_ne.
Qed.

Lemma upd_swap_ok s p pg pg' : pages s !! p = Some pg → psector pg' = psector pg →
  swap_ok s → swap_ok (set_pages (<[p := pg']> (pages s)) s).
Proof.
  intros Hp Hg (d & Hd & [H1 H2 H3 H0 H4 H5]). exists d. split; [done|]. cbn.
  assert (∀ q qg, (<[p := pg']> (pages s)) !! q = Some qg → ∃ qg', pages s !! q = Some qg' ∧ psector qg = psector qg') as Hq.
  { intros q qg Hq. destruct (decide (q = p)) as [->|Hqp].
    - rewrite lookup_insert_eq in Hq. injection Hq as <-. eauto.
    - rewrite lookup_insert_ne in Hq by done. eauto. }
  split; try done.
  - intros q qg Hqg. destruct (Hq q qg Hqg) as (qg' & Hq' & E). rewrite E. by apply (H4 q).
  - intros q r qg rg Hqg Hrg. destruct (Hq q qg Hqg) as (qg' & Hq' & E), (Hq r rg Hrg) as (rg' & Hr' & E').
    rewrite E, E'. by apply (H5 q r qg' rg').
Qed.

Lemma swap_out_page s p pg f fr : machine s → in_locked_frame s p pg f fr → swap_lock s = None →
  (swap_out s p = Ok (s, false) ∧ swap_full s) ∨
  ∃ d b x, swap_out s p = Ok (swapped_out s p pg d b x, true) ∧
    machine (evicted s p pg d b x) ∧ same_contents s (evicted s p pg d b x).
Proof.
  intros Hs Hfr Hl. pose proof Hfr as (Hp & Hpf & Hf & _).
  assert (psector pg = NO_SECTOR) as Hsec by (by apply (po_frame _ _ (mc_page _ Hs p pg Hp) f)).
  destruct (swap_out_spec s p pg f fr (mc_swap _ Hs) Hfr Hl Hsec (vm_bytes _ _ (mc_mm _ Hs))) as [?|(d & b & x & Hok & _ & Hsw & Hst)]; [by left|].
  cbv zeta in *. right. exists d, b, x. split; [done|].
  set (s1 := swapped_out s p pg d b x) in *. set (pg1 := with_backing false None 0 0 (with_sector x pg)).
  assert (pages s1 !! p = Some pg1) as Hp1 by apply lookup_insert_eq.
  assert (evicted s p pg d b x = set_pages (<[p := with_frame None pg1]> (pages s1)) s1) as E.
  { unfold evicted, s1, swapped_out. cbn. by rewrite insert_insert_eq. }
  assert (∀ q, swapped (evicted s p pg d b x) q = swapped s1 q) as Hsw'.
  { rewrite E. by apply (upd_swapped s1 p pg1). }
  split.
  - apply (machine_page s p pg); try done; [by left|]. rewrite <- (insert_insert_eq (pages s) p _ pg1).
    change (swap_ok (set_pages (<[p := with_frame None pg1]> (pages s1)) s1)). by apply (upd_swap_ok s1 p pg1).
  - intros q j Hj. destruct (decide (q = p)) as [->|Hqp].
    + unfold contents at 1. rewrite Hsw', Hst, Z.eqb_refl. unfold evicted. cbn [set_pages pages].
      rewrite lookup_insert_eq. cbn [with_frame pframe]. rewrite at_bytes by lia.
      unfold contents. by rewrite Hp, Hpf, Hf.
    + apply (contents_other s _ p); try done.
      * intros r Hr. unfold evicted. cbn. by rewrite lookup_insert_ne.
      * intros r Hr. rewrite Hsw', Hst. by rewrite (proj2 (Z.eqb_neq r p)).
Qed.

(** [page_out] sends the page to the swap area, or drops a page that its file
    has. *)
Definition kept (s : vm) (pg : page) (fr : frame) : Prop :=
  match pfile pg with
  | None => dirty s pg = false ∧ ¬ swap_full s
  | Some _ => if dirty s pg then private pg = true ∧ ¬ swap_full s
              else ∀ j, 0 ≤ j < 4096 → memory_of s (base fr + j) = backing s pg j
  end.

Lemma get_page_ok s p pg : pages s !! p = Some pg → get_page s p = Ok pg.
Proof. intros H. unfold get_page. by rewrite H. Qed.

Lemma save_swap s p pg f fr d b x : in_locked_frame s p pg f fr →
  (upd_page p (with_frame None) (swapped_out s p pg d b x)) = Ok (evicted s p pg d b x).
Proof.
  intros Hfr. rewrite (upd_page_ok p _ _ (with_backing false None 0 0 (with_sector x pg))) by apply lookup_insert_eq.
  unfold swapped_out, evicted. cbn. by rewrite insert_insert_eq.
Qed.

(** The contents of [p] are now [c]; those of all other pages are as before. *)
Definition kept_but (s s' : vm) (p : Z) (c : Z → Z) : Prop :=
  ∀ q j, 0 ≤ j < 4096 → contents s' q j = if q =? p then c j else contents s q j.

(** A page that is dropped shows what its file has, or zeros. *)
Lemma drop_page s p pg f fr : machine s → in_locked_frame s p pg f fr →
  let s' := set_pages (<[p := with_frame None pg]> (pages s)) s in machine s' ∧ kept_but s s' p (backing s pg).
Proof.
  intros Hs (Hp & Hpf & Hf & _) s'.
  assert (psector pg = NO_SECTOR) as Hsec by (by apply (po_frame _ _ (mc_page _ Hs p pg Hp) f)).
  assert (∀ q, swapped s' q = swapped s q) as Hsw by (by apply (upd_swapped s p pg)). split.
  - assert (s' = set_pages (<[p := with_frame None pg]> (pages s)) (set_swap (swap_device s) (swap_bitmap s) s))
      as E by (unfold s'; by destruct s).
    rewrite E. apply (machine_page s p pg); try done; [by right|]. rewrite <- E. apply (upd_swap_ok s p pg); [done|done|apply Hs].
  - intros q j Hj. destruct (Z.eqb_spec q p) as [->|Hqp].
    + unfold contents. rewrite Hsw. unfold swapped. cbn [s' set_pages pages].
      rewrite lookup_insert_eq, Hp, Hsec. cbn [with_frame pframe]. by destruct (swap_device s).
    + apply (contents_other s _ p); try done. intros r Hr. cbn. by rewrite lookup_insert_ne.
Qed.

(** **** Writing a page back to its file *)

Lemma machine_fsys s x n buf ofs k : machine s → wrote (fsys s) x n buf ofs k → (∀ j, 0 ≤ j < k → is_u8 (at_ buf j)) →
  machine (set_fsys x s).
Proof.
  intros [H1 H2 H3 [H4 Hmem] H5 H6 H7 H8 H9 H10 H11] W Hb. pose proof W as [W1 W2 W3 W4 _ _ _ _ _]. split; try done.
  - split; [done|]. by eapply wrote_mem_ok.
  - cbn [set_fsys fsys]. rewrite W2. intros m Hm. apply Forall_lookup. intros j v Hv.
    assert (Z.of_nat j < 512) as Hj by (pose proof (lookup_lt_Some _ _ _ Hv); rewrite <- (sector_length (fs_device x) m W1); lia).
    assert (v = at_ (sector_at (fs_device x) m) (Z.of_nat j)) as ->.
    { unfold at_. rewrite Nat2Z.id. symmetry. by apply list_lookup_total_correct. }
    rewrite W3 by lia. cbv zeta. destruct (_ && _) eqn:E; [apply Hb; lia|].
    pose proof (H5 m Hm) as Hall. unfold at_. rewrite Nat2Z.id. apply (Forall_lookup_1 is_u8 _ j _ Hall).
    apply list_lookup_lookup_total_lt. pose proof (sector_length (fs_device (fsys s)) m H4 Hm). lia.
  - intros p pg Hp. destruct (H8 p pg Hp) as [P1 P2 P3 P4]. split; [done..|]. intros h Hh.
    destruct (P4 h Hh) as (fl & i & ? & ? & He & ?). exists fl, i. cbn [set_fsys fsys files]. rewrite W4.
    split_and!; [done|done| |lia..]. destruct He. split; try done; by rewrite W2.
Qed.

(** How many bytes of the page are written to the file. *)
Definition written (n : inode) (pg : page) : Z :=
  if deny_write_cnt n =? 0 then available n (file_bytes pg) (file_offset pg) else 0.

Lemma write_back_spec s pg f fr h fl n : machine s → frames s !! f = Some fr → page_ok s pg → pfile pg = Some h →
  files s !! h = Some fl → inodes (fsys s) !! file_inode fl = Some n →
  ∃ x, write_back s pg fr = Ok (set_fsys x s, negb (written n pg =? 0)) ∧ machine (set_fsys x s) ∧
    wrote (fsys s) x n (bytes (memory_of s) (base fr) (file_bytes pg)) (file_offset pg) (written n pg).
Proof.
  intros Hs Hf Hpg Hh Hfl Hn. destruct (po_file _ _ Hpg h Hh) as (fl' & n' & Hfl' & Hn' & He & Hb & Ho).
  rewrite Hfl in Hfl'. injection Hfl' as <-. rewrite Hn in Hn'. injection Hn' as <-.
  destruct (mc_fs _ Hs) as [Hw Hmem]. unfold write_back. rewrite Hh. cbn [deref]. rewrite ok_bind, Hfl. cbn [deref].
  rewrite ok_bind. unfold file_write_at, written. set (buf := bytes (memory_of s) (base fr) (file_bytes pg)).
  assert (Z.of_nat (length buf) = file_bytes pg) as Hlen by (unfold buf; rewrite bytes_length; lia).
  assert (∀ j, 0 ≤ j < file_bytes pg → is_u8 (at_ buf j)) as Hu.
  { intros j Hj. unfold buf. rewrite at_bytes by done. apply (vm_bytes _ _ (mc_mm _ Hs)). }
  destruct (Z.eqb_spec (deny_write_cnt n) 0) as [Hd|Hd].
  - destruct (inode_write_at_spec (fsys s) (file_inode fl) n buf (file_bytes pg) (file_offset pg)) as (x & k & -> & W & Hk & Hk');
      [done|done|done|unfold available; lia..|]. rewrite ok_bind. specialize (Hk' Hmem). subst k. exists x. split; [done|]. split; [|done].
    eapply machine_fsys; [done|done|]. intros j Hj. apply Hu. unfold available in *. lia.
  - exists (fsys s). unfold inode_write_at. rewrite Hn. cbn [deref]. rewrite ok_bind, (proj2 (Z.eqb_neq _ 0) Hd). cbn [negb].
    rewrite ok_bind. split; [done|]. split; [|by apply wrote_refl]. by destruct s.
Qed.

(** **** All cases of [page_out] *)

(** The page is still in its frame; nothing is lost. *)
Definition stays (s s' : vm) (p : Z) (pg : page) (f : nat) (fr : frame) : Prop :=
  same_contents s s' ∧ in_locked_frame s' p pg f fr.

(** What [page_out] does with the page [p] in the frame [fr].  A page that was
    not written to since it came into memory goes to the swap area when it has
    no file and there is room, and is dropped otherwise.  One that was written
    to goes to the swap area when it is private and has a file, stays when the
    area is full, and to its file when it is shared; without a file the result
    is a fault, or failure when the area is full. *)
Definition page_out_post (s : vm) (p : Z) (pg : page) (f : nat) (fr : frame) (dirty : bool) (r : res (vm * bool)) : Prop :=
  match pfile pg, dirty with
  | None, false =>
      (¬ swap_full s → ∃ s', r = Ok (s', true) ∧ same_contents s s' ∧ swapped s' p ≠ None) ∧
      (swap_full s → ∃ s', r = Ok (s', true) ∧ kept_but s s' p (λ _, 0))
  | None, true =>
      (¬ swap_full s ∨ private pg = false → r = Err EFault) ∧
      (swap_full s → private pg = true → ∃ s', r = Ok (s', false) ∧ stays s s' p pg f fr)
  | Some _, false => ∃ s', r = Ok (s', true) ∧ kept_but s s' p (backing s pg)
  | Some h, true =>
      if private pg then
        (¬ swap_full s → ∃ s', r = Ok (s', true) ∧ same_contents s s' ∧ swapped s' p ≠ None) ∧
        (swap_full s → ∃ s', r = Ok (s', false) ∧ stays s s' p pg f fr)
      else ∀ fl n, files s !! h = Some fl → inodes (fsys s) !! file_inode fl = Some n →
        ∃ s', r = Ok (s', negb (written n pg =? 0)) ∧
          wrote (fsys s) (fsys s') n (bytes (memory_of s) (base fr) (file_bytes pg)) (file_offset pg) (written n pg) ∧
          (∀ j, 0 ≤ j < 4096 → contents s' p j =
             if (written n pg =? 0) || (j <? written n pg) then memory_of s (base fr + j) else 0) ∧
          ∀ q qg j, q ≠ p → pages s !! q = Some qg → pframe qg ≠ None ∨ swapped s q ≠ None → 0 ≤ j < 4096 →
            contents s' q j = contents s q j
  end.

(** What holds however the page is saved. *)
Record out (s s' : vm) (p : Z) (f : nat) (ok : bool) : Prop := {
  ot_machine : machine s';
  ot_rest : rest s s' p;
  ot_page : ∃ pg', pages s' !! p = Some pg' ∧ pframe pg' = if ok then None else Some f;
}.
Definition outcome (s : vm) (p : Z) (pg : page) (f : nat) (fr : frame) (dirty : bool) (r : res (vm * bool)) : Prop :=
  page_out_post s p pg f fr dirty r ∧ ∀ s' ok, r = Ok (s', ok) → out s s' p f ok.

Lemma rest_refl s p : rest s s p.
Proof. by split. Qed.

Section save.
Context (s : vm) (p : Z) (pg : page) (f : nat) (fr : frame).
Context (Hs : machine s) (Hfr : in_locked_frame s p pg f fr) (Hl : swap_lock s = None).

Lemma stays_out : out s s p f false.
Proof using Hs Hfr. destruct Hfr as (Hp & Hpf & _). split; [done|apply rest_refl|by exists pg]. Qed.

Lemma drop_out : out s (set_pages (<[p := with_frame None pg]> (pages s)) s) p f true.
Proof using Hs Hfr.
  split; [by eapply drop_page| |eexists; split; [apply lookup_insert_eq|done]]. split; try done.
  intros q Hq. cbn. by rewrite lookup_insert_ne.
Qed.

(** [swap_out], when there is room and when there is none. *)
Lemma to_swap : (swap_out s p = Ok (s, false) ∧ swap_full s) ∨
  ¬ swap_full s ∧ ∃ d b x, swap_out s p = Ok (swapped_out s p pg d b x, true) ∧ let s' := evicted s p pg d b x in
    same_contents s s' ∧ swapped s' p ≠ None ∧ out s s' p f true.
Proof using All.
  destruct Hfr as (Hp & Hpf & Hf & _).
  assert (psector pg = NO_SECTOR) as Hsec by (by apply (po_frame _ _ (mc_page _ Hs p pg Hp) f)).
  destruct (swap_out_page s p pg f fr Hs Hfr Hl) as [?|(d & b & x & Ho & Hm & Hc)]; [by left|right].
  destruct (swap_out_spec s p pg f fr (mc_swap _ Hs) Hfr Hl Hsec (vm_bytes _ _ (mc_mm _ Hs))) as [[Ho' _]|(d' & b' & x' & Ho' & Hnf & Hsw & Hst)];
    [congruence|]. split; [done|]. exists d, b, x. split; [done|]. assert (swapped_out s p pg d' b' x' = swapped_out s p pg d b x) as Eq by congruence.
  cbv zeta. split_and!; [done| |].
  - intros E. specialize (Hst p). cbv zeta in Hst. rewrite Z.eqb_refl, Eq in Hst.
    unfold swapped, evicted, swapped_out in *. cbn in E, Hst. rewrite !lookup_insert_eq in E, Hst. cbn in E, Hst. congruence.
  - split; [done| |eexists; split; [apply lookup_insert_eq|done]]. split; try done. intros q Hq. cbn. by rewrite lookup_insert_ne.
Qed.

Lemma save_clean : outcome s p pg f fr false (save_page s p pg fr false).
Proof using All.
  assert ((save_page s p pg fr false = '(s, _) ← (if bool_decide (pfile pg = None) then swap_out s p else Ok (s, false));
    s ← upd_page p (with_frame None) s; Ok (s, true))) as ->.
  { unfold save_page. destruct (if bool_decide _ then _ else _) as [[s' ok]|]; [|done]. by rewrite !ok_bind. }
  destruct (drop_page s p pg f fr Hs Hfr) as [_ Hk]. pose proof drop_out as Ho. unfold outcome, page_out_post.
  destruct (pfile pg) as [h|] eqn:Hh.
  - rewrite bool_decide_eq_false_2, ok_bind, (upd_page_ok p _ s pg), ok_bind by (done || apply Hfr).
    split; [by eexists|]. intros s' ok [= <- <-]. done.
  - rewrite bool_decide_eq_true_2 by done. destruct to_swap as [[-> Hfull]|(Hnf & d & b & x & -> & Hc & Hsw & Ho')].
    + rewrite ok_bind, (upd_page_ok p _ s pg), ok_bind by apply Hfr. split; [|by intros s' ok [= <- <-]].
      split; [done|]. intros _. eexists. split; [done|]. intros q j Hj. rewrite Hk by done. unfold backing. by rewrite Hh.
    + rewrite ok_bind, (save_swap _ _ _ f fr), ok_bind by done. split; [|by intros s' ok [= <- <-]].
      split; [|done]. intros _. by eexists.
Qed.

Lemma save_private : private pg = true → pfile pg ≠ None → outcome s p pg f fr true (save_page s p pg fr true).
Proof using All.
  intros Hpr Hh. unfold outcome, page_out_post, save_page. destruct (pfile pg) as [h|] eqn:Eh; [|done].
  rewrite bool_decide_eq_false_2, ok_bind by done. rewrite (get_page_ok s p pg), ok_bind, Hpr by apply Hfr.
  destruct to_swap as [[-> Hfull]|(Hnf & d & b & x & -> & Hc & Hsw & Ho')]; rewrite ok_bind.
  - split; [|intros s' ok [= <- <-]; apply stays_out]. split; [done|]. intros _. eexists. split; [done|]. by split.
  - rewrite (save_swap _ _ _ f fr), ok_bind by done. split; [|by intros s' ok [= <- <-]]. split; [|done]. intros _. by eexists.
Qed.

Lemma save_anonymous : pfile pg = None → outcome s p pg f fr true (save_page s p pg fr true).
Proof using All.
  intros Hh. unfold outcome, page_out_post, save_page. rewrite Hh, bool_decide_eq_true_2 by done.
  destruct to_swap as [[Ho Hfull]|(Hnf & d & b & x & -> & _)].
  - rewrite Ho, ok_bind, (get_page_ok s p pg), ok_bind by apply Hfr. destruct (private pg) eqn:Hpr.
    + rewrite Ho, ok_bind. split; [|intros s' ok [= <- <-]; apply stays_out]. split; [by intros [?|?]|].
      intros _ _. eexists. split; [done|]. by split.
    + unfold write_back. rewrite Hh. split; [|done]. by split.
  - rewrite ok_bind, (get_page_ok _ p (with_backing false None 0 0 (with_sector x pg))), ok_bind by apply lookup_insert_eq.
    split; [|done]. by split.
Qed.

Lemma contents_fsys x q qg j : pages s !! q = Some qg → pframe qg ≠ None ∨ swapped s q ≠ None →
  contents (set_fsys x s) q j = contents s q j.
Proof using.
  intros Hq Hr. unfold contents. change (swapped (set_fsys x s) q) with (swapped s q). cbn [set_fsys pages frames]. rewrite Hq.
  destruct (pframe qg); [done|]. destruct (swapped s q); [done|]. by destruct Hr.
Qed.

Lemma save_shared h : private pg = false → pfile pg = Some h → outcome s p pg f fr true (save_page s p pg fr true).
Proof using All.
  intros Hpr Hh. pose proof Hfr as (Hp & Hpf & Hf & _). pose proof (mc_page _ Hs p pg Hp) as Hpg.
  destruct (po_file _ _ Hpg h Hh) as (fl & n & Hfl & Hn & He & Hb & Ho).
  destruct (write_back_spec s pg f fr h fl n Hs Hf Hpg Hh Hfl Hn) as (x & Hwb & Hsx & W).
  unfold outcome, page_out_post, save_page. rewrite Hh, bool_decide_eq_false_2, ok_bind, (get_page_ok s p pg), ok_bind, Hpr, Hwb, ok_bind by done.
  assert (in_locked_frame (set_fsys x s) p pg f fr) as Hfx by exact Hfr.
  assert (rest s (set_fsys x s) p) as Hrx by by split.
  assert (contents s p = λ j, memory_of s (base fr + j)) as Hcp.
  { unfold contents. by rewrite Hp, Hpf, Hf. }
  assert (∀ s' j, fsys s' = x → files s' = files s → 0 ≤ j < 4096 → backing s' pg j = if j <? available n (file_bytes pg) (file_offset pg) then file_byte (fs_device x) n (file_offset pg + j) else 0) as Hbk.
  { intros s' j Ex Ef Hj. unfold backing. rewrite Hh, Ex, Ef. cbn. by rewrite Hfl, (wr_inodes _ _ _ _ _ _ W), Hn. }
  destruct (Z.eqb_spec (written n pg) 0) as [E0|E0]; cbn [negb].
  - split.
    + intros fl' n' Hfl' Hn'. rewrite Hfl in Hfl'. injection Hfl' as <-. rewrite Hn in Hn'. injection Hn' as <-. rewrite E0 in W |- *.
      eexists. split; [done|]. split; [exact W|]. split; [|by intros; eapply contents_fsys].
      intros j Hj. cbn [Z.eqb orb]. rewrite (contents_fsys x p pg) by (done || left; congruence). by rewrite Hcp.
    + intros s' ok [= <- <-]. split; [done|done|by exists pg].
  - destruct (drop_page (set_fsys x s) p pg f fr Hsx Hfx) as [Hsd Hk].
    rewrite (upd_page_ok p _ (set_fsys x s) pg), ok_bind by done. split.
    + intros fl' n' Hfl' Hn'. rewrite Hfl in Hfl'. injection Hfl' as <-. rewrite Hn in Hn'. injection Hn' as <-.
      rewrite (proj2 (Z.eqb_neq _ 0) E0). eexists. split; [done|]. split; [exact W|]. split.
      * intros j Hj. rewrite Hk, Z.eqb_refl, Hbk by done. cbn [orb]. destruct He as [_ He2 _ _].
        unfold written in *. destruct (deny_write_cnt n =? 0); [|done].
        destruct (Z.ltb_spec j (available n (file_bytes pg) (file_offset pg))); [|done].
        rewrite (wrote_file_byte _ _ _ _ _ _ _ W) by lia. replace (_ && _) with true by lia.
        rewrite at_bytes by (unfold available in *; lia). f_equal. lia.
      * intros q qg j Hq Hqg Hr Hj. rewrite Hk, (proj2 (Z.eqb_neq q p)) by done. by eapply contents_fsys.
    + intros s' ok [= <- <-]. destruct Hrx. split; [done| |eexists; split; [apply lookup_insert_eq|done]].
      split; try done. intros q Hq. cbn. by rewrite lookup_insert_ne.
Qed.

Lemma save_page_cases d : outcome s p pg f fr d (save_page s p pg fr d).
Proof using All.
  destruct d; [|apply save_clean]. destruct (pfile pg) as [h|] eqn:Hh; [|by apply save_anonymous].
  destruct (private pg) eqn:Hpr; [apply save_private; [done|congruence]|by eapply save_shared].
Qed.
End save.

Lemma rest_trans s1 s2 s3 p : rest s1 s2 p → rest s2 s3 p → rest s1 s3 p.
Proof.
  intros [A1 A2 A3 A4 A5 A6] [B1 B2 B3 B4 B5 B6]. split; try congruence.
  - intros q Hq. by rewrite B5, A5.
  - intros pd v Hpd Hv H. by apply A6, B6.
Qed.

Lemma same_contents_trans s1 s2 s3 : same_contents s1 s2 → same_contents s2 s3 → same_contents s1 s3.
Proof. intros H1 H2 q j Hj. rewrite H2, H1 by done. done. Qed.

(** Every run of [page_out]. *)
Lemma page_out_cases s p pg f fr : machine s → in_locked_frame s p pg f fr → swap_lock s = None →
  outcome s p pg f fr (dirty s pg) (page_out ipd s p).
Proof.
  intros Hs Hfr Hl. destruct (page_out_start s p pg f fr Hs Hfr) as (m & -> & Hs1 & Hc1 & Hfr1 & Hrest).
  destruct (save_page_cases (set_mm m s) p pg f fr Hs1 Hfr1 Hl (dirty s pg)) as [Hpost Hout]. set (s1 := set_mm m s) in *.
  set (r := save_page s1 p pg fr (dirty s pg)) in *. clearbody r. split.
  2:{ intros s' ok E. destruct (Hout s' ok E) as [O1 O2 O3]. split; [done| |done]. by eapply rest_trans. }
  assert (∀ s' c, kept_but s1 s' p c → kept_but s s' p c) as Hkb.
  { intros s' c H q j Hj. rewrite H by done. destruct (q =? p); [done|by apply Hc1]. }
  assert (∀ j, 0 ≤ j < 4096 → memory_of s1 (base fr + j) = memory_of s (base fr + j)) as Hmem.
  { intros j Hj. destruct Hfr as (Hp & Hpf & Hf & _). specialize (Hc1 p j Hj). unfold contents in Hc1.
    cbn [s1 set_mm pages frames] in Hc1. by rewrite Hp, Hpf, Hf in Hc1. }
  unfold page_out_post in *. change (swap_full s1) with (swap_full s) in Hpost. change (files s1) with (files s) in Hpost.
  change (fsys s1) with (fsys s) in Hpost.
  assert (∀ s', same_contents s1 s' → same_contents s s') as Htr by (intros s' H; by eapply same_contents_trans).
  destruct (pfile pg) as [h|] eqn:Hh, (dirty s pg).
  - destruct (private pg).
    + destruct Hpost as [P1 P2]. split; [intros H; destruct (P1 H) as (s' & ? & ? & ?); exists s'; auto|].
      intros H. destruct (P2 H) as (s' & ? & ? & ?). exists s'. split; [done|]. split; [by apply Htr|done].
    + intros fl n Hfl Hn. destruct (Hpost fl n Hfl Hn) as (s' & E & W & Hcp & Hcq). exists s'. split; [done|].
      destruct (po_file _ _ (mc_page _ Hs p pg ltac:(apply Hfr)) h Hh) as (_ & _ & _ & _ & _ & Hb & _).
      assert (bytes (memory_of s1) (base fr) (file_bytes pg) = bytes (memory_of s) (base fr) (file_bytes pg)) as <-.
      { unfold bytes. apply map_ext_in. intros i Hi%in_seq. apply Hmem. lia. }
      split_and!; [done| |].
      * intros j Hj. rewrite Hcp, Hmem by done. done.
      * intros q qg j Hq Hqg Hr Hj. rewrite <- Hc1 by done. by apply (Hcq q qg).
  - destruct Hpost as (s' & E & Hk). exists s'. split; [done|by apply Hkb].
  - destruct Hpost as [P1 P2]. split; [done|]. intros H1 H2. destruct (P2 H1 H2) as (s' & E & Hst & Hlk). exists s'. split; [done|].
    split; [by apply Htr|done].
  - destruct Hpost as [P1 P2]. split; intros H; [destruct (P1 H) as (s' & ? & ? & ?)|destruct (P2 H) as (s' & ? & ?)]; exists s'; auto.
Qed.

Lemma page_out_spec s p pg f fr : machine s → in_locked_frame s p pg f fr → swap_lock s = None → kept s pg fr →
  ∃ s', page_out ipd s p = Ok (s', true) ∧ machine s' ∧ same_contents s s' ∧ rest s s' p ∧
    ∃ pg', pages s' !! p = Some pg' ∧ pframe pg' = None.
Proof.
  intros Hs Hfr Hl Hk. destruct (page_out_cases s p pg f fr Hs Hfr Hl) as [Hpost Hout].
  assert (∃ s', page_out ipd s p = Ok (s', true) ∧ same_contents s s') as (s' & E & Hc).
  { unfold kept, page_out_post in *. destruct (pfile pg) as [h|] eqn:Hh; [|destruct Hk as [Hd Hnf]; rewrite Hd in Hpost; by destruct Hpost as [P _], (P Hnf) as (s' & ? & ? & _); eauto].
    destruct (dirty s pg).
    - destruct Hk as [Hpr Hnf]. rewrite Hpr in Hpost. destruct Hpost as [P _], (P Hnf) as (s' & ? & ? & _). eauto.
    - destruct Hpost as (s' & E & Hkb). exists s'. split; [done|]. intros q j Hj. rewrite Hkb by done.
      destruct (Z.eqb_spec q p) as [->|]; [|done]. rewrite <- Hk by done. destruct Hfr as (Hp & Hpf & Hf & _).
      unfold contents. by rewrite Hp, Hpf, Hf. }
  destruct (Hout s' true E) as [O1 O2 O3]. by exists s'.
Qed.

(** *** A free frame *)

Definition free_frame (fr : frame) : Prop := lock fr = None ∧ fpage fr = 0.

(** The running thread holds no frame. *)
Definition no_frame_held (s : vm) : Prop := ∀ f fr, frames s !! f = Some fr → lock fr ≠ Some (cur s).

(** The state after the free frame [f] has been taken for page [p]. *)
Definition taken (s : vm) (p : Z) (f : nat) (fr : frame) : vm :=
  put_frame f (Frame (Some (cur s)) (base fr) p) s.

Lemma get_frame_ok s f fr : frames s !! f = Some fr → get_frame s f = Ok fr.
Proof. intros H. unfold get_frame. by rewrite H. Qed.

Lemma lock_release_ok c : lock_release c (Some c) = Ok None.
Proof. unfold lock_release, lock_held. by rewrite bool_decide_eq_true_2. Qed.

Lemma find_free_loop s p n : no_frame_held s → scan_lock s = Some (cur s) → ∀ lo,
  (lo + n = length (frames s))%nat →
  let r := for_ret n (Z.of_nat lo) (λ i s,
      fr ← get_frame s (Z.to_nat i);
      l ← lock_try_acquire (cur s) (lock fr);
      match l with
      | None => Ok (inl s)
      | Some l =>
          if fpage fr =? 0 then
            sl ← lock_release (cur (put_frame (Z.to_nat i) (Frame l (base fr) p) s))
                   (scan_lock (put_frame (Z.to_nat i) (Frame l (base fr) p) s));
            Ok (inr (set_scan_lock sl (put_frame (Z.to_nat i) (Frame l (base fr) p) s), Some (Z.to_nat i)))
          else
            l ← lock_release (cur s) l;
            Ok (inl (put_frame (Z.to_nat i) (Frame l (base fr) (fpage fr)) s))
      end) s in
  (∃ f fr, frames s !! f = Some fr ∧ free_frame fr ∧ r = Ok (inr (set_scan_lock None (taken s p f fr), Some f))) ∨
  (r = Ok (inl s) ∧ ∀ f fr, frames s !! f = Some fr → (lo ≤ f)%nat → ¬ free_frame fr).
Proof.
  intros Hno Hsl. induction n as [|n IH]; intros lo Hlen; cbv zeta.
  { right. split; [done|]. intros f fr Hf Hlo. pose proof (lookup_lt_Some _ _ _ Hf). lia. }
  destruct (lookup_lt_is_Some_2 (frames s) lo) as [lr Hlr]; [lia|].
  cbn [for_ret]. rewrite Nat2Z.id, (get_frame_ok s lo lr Hlr). cbn [mbind res_bind].
  specialize (IH (S lo) ltac:(lia)). cbv zeta in IH. replace (Z.of_nat (S lo)) with (Z.of_nat lo + 1) in IH by lia.
  assert (∀ P Q, ¬ free_frame lr → P ∨ (Q ∧ ∀ f fr, frames s !! f = Some fr → (S lo ≤ f)%nat → ¬ free_frame fr) →
    P ∨ (Q ∧ ∀ f fr, frames s !! f = Some fr → (lo ≤ f)%nat → ¬ free_frame fr)) as Hnext.
  { intros P Q Hnf [?|[? Hr]]; [by left|]. right. split; [done|]. intros f fr Hf Hlo.
    destruct (decide (f = lo)) as [->|]; [congruence|]. apply (Hr f fr Hf). lia. }
  destruct (lock lr) as [t|] eqn:Hl; unfold lock_try_acquire at 2 4.
  - rewrite (proj2 (Z.eqb_neq t (cur s))) by (intros ->; by apply (Hno lo lr)). cbn [mbind res_bind].
    apply Hnext; [intros [? _]; congruence|done].
  - cbn [mbind res_bind]. destruct (Z.eqb_spec (fpage lr) 0) as [Hp|Hp].
    + left. exists lo, lr. split_and!; [done|done|]. cbn [put_frame set_frames cur scan_lock].
      rewrite Hsl, lock_release_ok. done.
    + rewrite lock_release_ok. cbn [mbind res_bind].
      assert (put_frame lo (Frame None (base lr) (fpage lr)) s = s) as ->.
      { unfold put_frame. rewrite list_insert_id; [by destruct s|]. rewrite Hlr. f_equal. destruct lr; cbn in *; by subst. }
      apply Hnext; [by intros [_ ?]|done].
Qed.

Lemma find_free_spec s p : no_frame_held s → scan_lock s = Some (cur s) →
  (∃ f fr, frames s !! f = Some fr ∧ free_frame fr ∧
     find_free s p = Ok (inr (set_scan_lock None (taken s p f fr), Some f))) ∨
  (find_free s p = Ok (inl s) ∧ ∀ f fr, frames s !! f = Some fr → ¬ free_frame fr).
Proof.
  intros Hno Hsl. destruct (find_free_loop s p (length (frames s)) Hno Hsl 0 eq_refl) as [(f & fr & ? & ? & Hr)|[Hr Hno']].
  - left. exists f, fr. split_and!; [done|done|exact Hr].
  - right. split; [exact Hr|]. intros f fr Hf. apply (Hno' f fr Hf). lia.
Qed.

(** *** The page comes into a frame *)

(** Page [p] is now in frame [f], which held no page; [m] is the memory, [x] the
    file system and [d], [b] the swap area after that. *)
Definition loaded (s : vm) (p : Z) (pg' : page) (f : nat) (fr : frame) (m : memory) (x : fs)
    (d : option block) (b : bitmap) : vm :=
  set_pages (<[p := pg']> (pages s)) (set_memory m (set_fsys x (set_swap d b (taken s p f fr)))).

Lemma same_fs_backing s s' pg j : files s' = files s → inodes (fsys s') = inodes (fsys s) →
  sectors (fs_device (fsys s')) = sectors (fs_device (fsys s)) → backing s' pg j = backing s pg j.
Proof. intros Hf Hi Hs. unfold backing, file_byte, sector_at. by rewrite Hf, Hi, Hs. Qed.

Section load.
Context (s : vm) (p : Z) (pg pg' : page) (f : nat) (fr : frame) (m : memory) (x : fs) (d : option block) (b : bitmap).
Context (Hs : machine s) (Hp : pages s !! p = Some pg) (Hpf : pframe pg = None)
  (Hf : frames s !! f = Some fr) (Hfree : free_frame fr)
  (Hpg' : pg' = with_sector NO_SECTOR (with_frame (Some f) pg))
  (Hm8 : ∀ k, is_u8 (m k)) (Hm : ∀ k, k < base fr ∨ base fr + 4096 ≤ k → m k = memory_of s k)
  (Hx : same_fs (fsys s) x).
Let s' : vm := loaded s p pg' f fr m x d b.
Context (Hsw : swap_ok s') (Hst : ∀ q, q ≠ p → swapped s' q = swapped s q).

Lemma loaded_frame g gr : frames s' !! g = Some gr → ∃ gr', frames s !! g = Some gr' ∧ base gr = base gr' ∧
  (g ≠ f → gr = gr').
Proof using Hf.
  intros Hg. cbn in Hg. destruct (decide (g = f)) as [->|Hne].
  - rewrite list_lookup_insert_eq in Hg by (by eapply lookup_lt_Some). injection Hg as <-. by exists fr.
  - rewrite list_lookup_insert_ne in Hg by done. by exists gr.
Qed.

Lemma loaded_machine : machine s'.
Proof using All.
  pose proof Hs as [H1 H2 H3 [H4 H4'] H5 H6 H7 H8 H9 H10 H11]. pose proof (H6 f fr Hf) as Hdp.
  destruct (data_write (mm s) pds (base fr) m H1 Hdp Hm8 Hm) as (Hinv & Hdata & _).
  assert (∀ g gr, frames s !! g = Some gr → ∃ gr', frames s' !! g = Some gr' ∧ (g ≠ f → gr' = gr)) as Hfr.
  { intros g gr Hg. cbn. destruct (decide (g = f)) as [->|Hne].
    - eexists. split; [apply list_lookup_insert_eq; by eapply lookup_lt_Some|done].
    - exists gr. by rewrite list_lookup_insert_ne. }
  assert (∀ qg, page_ok s qg → psector qg = NO_SECTOR ∨ pframe qg = None → page_ok s' qg) as Hok.
  { intros qg [P1 P2 P3 P4] Hq. split; [done|done|intros g Hg; destruct Hq; congruence|].
    intros h Hh. destruct (P4 h Hh) as (fl & n & E1 & E2 & E3 & E4). exists fl, n. cbn.
    rewrite (sf_inodes _ _ Hx). split_and!; try done; try lia. destruct E3. split; try done; by rewrite (sf_size _ _ Hx). }
  split; try done.
  - split; [apply Hx|]. by eapply same_fs_mem_ok.
  - cbn. unfold sector_at. rewrite (sf_sectors _ _ Hx), (sf_size _ _ Hx). apply H5.
  - intros g gr Hg. destruct (loaded_frame g gr Hg) as (gr' & Hg' & -> & _). by apply Hdata, (H6 g).
  - intros g h gr hr Hg Hh E. destruct (loaded_frame g gr Hg) as (gr' & Hg' & E1 & _), (loaded_frame h hr Hh) as (hr' & Hh' & E2 & _).
    apply (H7 g h gr' hr'); congruence.
  - intros q qg Hq. cbn in Hq. destruct (decide (q = p)) as [->|Hqp].
    + rewrite lookup_insert_eq in Hq. injection Hq as <-. rewrite Hpg'. destruct (H8 p pg Hp). apply Hok; [|by left].
      split; try done.
    + rewrite lookup_insert_ne in Hq by done. apply Hok; [by eapply H8|]. pose proof (po_frame _ _ (H8 q qg Hq)) as Hz.
      destruct (pframe qg); [left; by eapply Hz|by right].
  - intros q qg g Hq Hg. cbn in Hq. destruct (decide (q = p)) as [->|Hqp].
    + rewrite lookup_insert_eq in Hq. injection Hq as <-. rewrite Hpg' in Hg. cbn in Hg. injection Hg as <-.
      eexists. split; [apply list_lookup_insert_eq; by eapply lookup_lt_Some|done].
    + rewrite lookup_insert_ne in Hq by done. destruct (H9 q qg g Hq Hg) as (gr & Hgr & Ho).
      destruct (Hfr g gr Hgr) as (gr' & Hgr' & E). exists gr'. split; [done|]. rewrite E; [done|].
      intros ->. rewrite Hf in Hgr. injection Hgr as <-. destruct Hfree as [_ Hz]. rewrite Hz in Ho. subst q. congruence.
  - cbn. rewrite lookup_insert_ne; [done|]. intros ->. congruence.
  - intros g gr Hg. destruct (loaded_frame g gr Hg) as (gr' & Hg' & -> & _). by eapply H11.
Qed.

Lemma loaded_other q j : q ≠ p → contents s' q j = contents s q j ∨ ¬ 0 ≤ j < 4096.
Proof using All.
  intros Hqp. destruct (decide (0 ≤ j < 4096)) as [Hj|]; [left|by right]. pose proof Hs as [_ _ _ _ _ H6 H7 H8 H9 H10 _].
  unfold contents at 1. cbn [s' loaded set_pages pages]. rewrite lookup_insert_ne by done. unfold contents.
  destruct (pages s !! q) as [qg|] eqn:Hq; [|done]. destruct (pframe qg) as [g|] eqn:Hg.
  - destruct (H9 q qg g Hq Hg) as (gr & Hgr & Ho).
    assert (g ≠ f) as Hgf.
    { intros ->. rewrite Hf in Hgr. injection Hgr as <-. destruct Hfree as [_ Hz]. rewrite Hz in Ho. subst q. congruence. }
    cbn [s' loaded set_pages set_memory set_mm set_fsys set_swap taken put_frame set_frames frames].
    rewrite list_lookup_insert_ne, Hgr by done. apply Hm.
    destruct (H6 g gr Hgr) as ((Ha1 & _) & _), (H6 f fr Hf) as ((Ha2 & _) & _).
    assert (base gr ≠ base fr) by (intros E; apply Hgf; by eapply H7).
    destruct (pages_apart (base gr) (base fr)); [done|done|done|lia|lia].
  - rewrite Hst by done. destruct (swapped s q); [done|]. apply same_fs_backing; [done|apply Hx|apply Hx].
Qed.

Lemma loaded_page j : contents s' p j = m (base fr + j).
Proof using All.
  unfold contents. cbn [s' loaded set_pages pages]. rewrite lookup_insert_eq, Hpg'. cbn [pframe with_sector with_frame].
  cbn [s' loaded set_pages set_memory set_mm set_fsys set_swap taken put_frame set_frames frames].
  by rewrite list_lookup_insert_eq by (by eapply lookup_lt_Some).
Qed.

Lemma loaded_contents : (∀ j, 0 ≤ j < 4096 → m (base fr + j) = contents s p j) → same_contents s s'.
Proof using All.
  intros Hc q j Hj. destruct (decide (q = p)) as [->|Hqp]; [rewrite loaded_page; by apply Hc|].
  by destruct (loaded_other q j Hqp).
Qed.
End load.

Lemma swapped_u8 s p l : swap_ok s → swapped s p = Some l → Forall is_u8 l ∧ length l = 4096%nat.
Proof.
  intros (d & Hd & [H1 H2 H3 H8 H4 H5]) Hl. unfold swapped in Hl. rewrite Hd in Hl.
  destruct (pages s !! p) as [pg|] eqn:Hp; [|done]. destruct (Z.eqb_spec (psector pg) NO_SECTOR) as [|Hs]; [done|].
  injection Hl as <-. destruct (H4 p pg Hp Hs) as (n & -> & Hn & _).
  assert (∀ i, 0 ≤ i < 8 → length (sector_at d (8 * n + i)) = 512%nat) as Hlen.
  { intros i Hi. pose proof (sector_length d (8 * n + i) H1 ltac:(lia)). lia. }
  unfold slot_bytes. split.
  - apply Forall_concat, Forall_map, Forall_forall. intros i Hi%elem_of_seq. apply H8. lia.
  - cbn [seq map concat]. rewrite !length_app. cbn [length]. rewrite !Hlen by (cbn; lia). done.
Qed.

(** What [do_page_in] does with the frame. *)
Definition fills (s : vm) (p : Z) (pg : page) (f : nat) (fr : frame) (r : res (vm * bool)) : Prop :=
  ∃ m x d b, let s' := loaded s p (with_sector NO_SECTOR (with_frame (Some f) pg)) f fr m x d b in
    r = Ok (s', true) ∧ (∀ k, is_u8 (m k)) ∧ (∀ k, k < base fr ∨ base fr + 4096 ≤ k → m k = memory_of s k) ∧
    same_fs (fsys s) x ∧ swap_ok s' ∧ (∀ q, q ≠ p → swapped s' q = swapped s q) ∧
    ∀ j, 0 ≤ j < 4096 → m (base fr + j) = contents s p j.

Section fill.
Context (s : vm) (p : Z) (pg : page) (f : nat) (fr : frame).
Context (Hs : machine s) (Hp : pages s !! p = Some pg) (Hpf : pframe pg = None) (Hf : frames s !! f = Some fr).
Let pg2 : page := with_frame (Some f) pg.
Let s2 : vm := set_pages (<[p := pg2]> (pages s)) (taken s p f fr).

Lemma fill_swap : psector pg ≠ NO_SECTOR → fills s p pg f fr (s ← swap_in s2 p; Ok (s, true)).
Proof using All.
  intros Hsec. destruct (mc_swap _ Hs) as (d0 & Hd0 & _).
  assert (∃ l, swapped s p = Some l) as [l Hl].
  { unfold swapped. rewrite Hp, Hd0, (proj2 (Z.eqb_neq _ _) Hsec). eauto. }
  destruct (swapped_u8 s p l (mc_swap _ Hs) Hl) as [Hl8 Hlen].
  assert (∀ q, swapped s2 q = swapped s q) as Hsw2 by (by apply (upd_swapped s p pg)).
  destruct (swap_in_spec s2 p pg2 f (Frame (Some (cur s)) (base fr) p) l) as (d & b & m & Hin & Hok & Hb & Hout & Hst).
  { by apply (upd_swap_ok s p pg), Hs. }
  { split_and!; [apply lookup_insert_eq|done| |done]. apply list_lookup_insert_eq. by eapply lookup_lt_Some. }
  { by rewrite Hsw2. }
  cbv zeta in *. cbn [base] in Hb, Hout. rewrite Hin. cbn [mbind res_bind].
  assert (∀ j, 0 ≤ j < 4096 → m (base fr + j) = at_ l j) as Hmj by (intros j Hj; by rewrite <- Hb, at_bytes).
  assert (swapped_in s2 p pg2 d b m = loaded s p (with_sector NO_SECTOR pg2) f fr m (fsys s) (Some d) b) as E.
  { unfold swapped_in, loaded, s2, taken. cbn. by rewrite insert_insert_eq. }
  exists m, (fsys s), (Some d), b. cbv zeta. fold pg2. rewrite <- E. split_and!; try done.
  - intros k. destruct (decide (base fr ≤ k < base fr + 4096)) as [Hk|Hk].
    + replace k with (base fr + (k - base fr)) by lia. rewrite Hmj by lia. unfold at_.
      apply (Forall_lookup_1 is_u8 l (Z.to_nat (k - base fr))); [done|]. apply list_lookup_lookup_total_lt. lia.
    + rewrite Hout by lia. apply (vm_bytes _ _ (mc_mm _ Hs)).
  - apply same_fs_refl, Hs.
  - intros q Hq. rewrite Hst, (proj2 (Z.eqb_neq _ _) Hq). apply Hsw2.
  - intros j Hj. rewrite Hmj by done. unfold contents. by rewrite Hp, Hpf, Hl.
Qed.

(** The frame is filled from the file or with zeros. *)
Lemma fill_memory m x : psector pg = NO_SECTOR →
  (∀ k, k < base fr ∨ base fr + 4096 ≤ k → m k = memory_of s k) → same_fs (fsys s) x →
  (∀ j, 0 ≤ j < 4096 → m (base fr + j) = backing s pg j ∧ is_u8 (backing s pg j)) →
  fills s p pg f fr (Ok (set_memory m (set_fsys x s2), true)).
Proof using All.
  intros Hsec Hout Hx Hin. exists m, x, (swap_device s), (swap_bitmap s). cbv zeta.
  assert (with_sector NO_SECTOR (with_frame (Some f) pg) = pg2) as -> by (rewrite <- Hsec; by destruct pg).
  split_and!; try done.
  - intros k. destruct (decide (base fr ≤ k < base fr + 4096)) as [Hk|Hk].
    + replace k with (base fr + (k - base fr)) by lia. destruct (Hin (k - base fr)) as [-> ?]; [lia|done].
    + rewrite Hout by lia. apply (vm_bytes _ _ (mc_mm _ Hs)).
  - by apply (upd_swap_ok s p pg), Hs.
  - intros q Hq. by apply (upd_swapped s p pg).
  - intros j Hj. unfold contents, swapped. rewrite Hp, Hpf, Hsec, Z.eqb_refl. destruct (Hin j Hj) as [-> _].
    by destruct (swap_device s).
Qed.

Lemma file_byte_u8 n k : extent_ok (fs_device (fsys s)) n → 0 ≤ k < ilength (data n) →
  is_u8 (file_byte (fs_device (fsys s)) n k).
Proof using Hs.
  intros [He1 He2 He3 He4] Hk. destruct (mc_fs _ Hs) as [Hw _].
  assert (0 ≤ k / 512 ∧ k / 512 < (ilength (data n) + 511) / 512) as Hq.
  { split; [apply Z.div_pos; lia|]. apply Z.div_lt_upper_bound; [lia|].
    pose proof (Z.div_mod (ilength (data n) + 511) 512). pose proof (Z.mod_pos_bound (ilength (data n) + 511) 512). lia. }
  unfold file_byte, at_. pose proof (sector_length _ (start (data n) + k / 512) Hw ltac:(lia)) as Hl.
  apply (Forall_lookup_1 is_u8 _ (Z.to_nat (k mod 512)) _ (mc_fs_u8 _ Hs (start (data n) + k / 512) ltac:(lia))).
  apply list_lookup_lookup_total_lt. pose proof (Z.mod_pos_bound k 512). lia.
Qed.

Lemma fill_file h : psector pg = NO_SECTOR → pfile pg = Some h →
  fills s p pg f fr (
    file ← deref (files s2 !! h);
    '(x, buffer, read_bytes) ← file_read_at (fsys s2) file
      (bytes (memory_of s2) (base fr) (file_bytes pg)) (file_bytes pg) (file_offset pg);
    Ok (set_memory (memset (put_bytes (memory_of s2) (base fr) buffer) (base fr + read_bytes) 0 (PGSIZE - read_bytes))
          (set_fsys x s2), true)).
Proof using All.
  intros Hsec Hh. destruct (po_file _ _ (mc_page _ Hs p pg Hp) h Hh) as (fl & n & Hfl & Hn & He & Hb & Ho).
  change (files s2) with (files s). change (fsys s2) with (fsys s). change (memory_of s2) with (memory_of s).
  rewrite Hfl. cbn [deref mbind res_bind]. unfold file_read_at. destruct (mc_fs _ Hs) as [Hw Hmem].
  set (buf0 := bytes (memory_of s) (base fr) (file_bytes pg)).
  assert (Z.of_nat (length buf0) = file_bytes pg) as Hlen by (unfold buf0; rewrite bytes_length; lia).
  destruct (inode_read_at_spec (fsys s) (file_inode fl) n buf0 (file_bytes pg) (file_offset pg))
    as (x & buf & k & -> & Hx & Hk & Hk' & Hlb & Hbuf); [done|done|done|lia|lia|lia|].
  cbn [mbind res_bind]. specialize (Hk' Hmem). change PGSIZE with 4096.
  apply fill_memory; [done| |done|].
  - intros a Ha. unfold memset. unfold available in *.
    destruct (Z.leb_spec (base fr + k) a), (Z.ltb_spec a (base fr + k + (4096 - k))); cbn [andb]; try lia;
      apply put_bytes_out; lia.
  - intros j Hj. unfold backing. rewrite Hh. cbn. rewrite Hfl, Hn, <- Hk'. unfold memset.
    destruct (Z.ltb_spec j k) as [Hjk|Hjk].
    + rewrite (proj2 (Z.leb_gt _ _)) by lia. cbn [andb]. split.
      * pose proof (Hbuf j ltac:(unfold available in *; lia)) as Hbj.
        rewrite (proj2 (Z.ltb_lt j k) Hjk) in Hbj. rewrite <- Hbj.
        rewrite <- (at_bytes _ (base fr) (Z.of_nat (length buf)) j) by (unfold available in *; lia).
        by rewrite put_bytes_same.
      * apply file_byte_u8; [done|]. unfold available in *. lia.
    + rewrite (proj2 (Z.leb_le _ _)), (proj2 (Z.ltb_lt _ _)) by lia. split; [done|]. c_unfold. lia.
Qed.

Lemma fill_zero : psector pg = NO_SECTOR → pfile pg = None →
  fills s p pg f fr (Ok (set_memory (memset (memory_of s2) (base fr) 0 PGSIZE) s2, true)).
Proof using All.
  intros Hsec Hh. change s2 with (set_fsys (fsys s) s2) at 2. change (memory_of s2) with (memory_of s).
  change PGSIZE with 4096. apply fill_memory; [done| |apply same_fs_refl, Hs|].
  - intros k Hk. unfold memset. destruct (Z.leb_spec (base fr) k), (Z.ltb_spec k (base fr + 4096)); try done; lia.
  - intros j Hj. unfold backing, memset. rewrite Hh. cbn.
    rewrite (proj2 (Z.leb_le _ _)), (proj2 (Z.ltb_lt _ _)) by lia. split; [done|]. c_unfold. lia.
Qed.
End fill.

(** *** Locks of frames *)

(** Locking a frame, or giving one to another page when no page is in it. *)
Lemma set_frame s f fr l x : machine s → frames s !! f = Some fr →
  x = fpage fr ∨ (∀ q qg, pages s !! q = Some qg → pframe qg ≠ Some f) →
  let s' := put_frame f (Frame l (base fr) x) s in machine s' ∧ same_contents s s'.
Proof.
  intros Hs Hf Hx s'. pose proof Hs as [H1 H2 H3 H4 H5 H6 H7 H8 H9 H10 H11].
  assert (∀ g gr, frames s' !! g = Some gr → ∃ gr', frames s !! g = Some gr' ∧ base gr = base gr') as Hold.
  { intros g gr Hg. cbn in Hg. destruct (decide (g = f)) as [->|Hne].
    - rewrite list_lookup_insert_eq in Hg by (by eapply lookup_lt_Some). injection Hg as <-. by exists fr.
    - rewrite list_lookup_insert_ne in Hg by done. by exists gr. }
  assert (∀ g gr, frames s !! g = Some gr → ∃ gr', frames s' !! g = Some gr' ∧ base gr' = base gr ∧
    (g ≠ f ∨ x = fpage fr → fpage gr' = fpage gr)) as Hnew.
  { intros g gr Hg. cbn. destruct (decide (g = f)) as [->|Hne].
    - rewrite list_lookup_insert_eq by (by eapply lookup_lt_Some). rewrite Hf in Hg. injection Hg as <-. eexists. split_and!; [done|done|].
      by intros [?|?].
    - rewrite list_lookup_insert_ne by done. by exists gr. }
  split; [split; try done|].
  - intros g gr Hg. destruct (Hold g gr Hg) as (gr' & Hg' & ->). by eapply H6.
  - intros g h gr hr Hg Hh E. destruct (Hold g gr Hg) as (gr' & Hg' & E1), (Hold h hr Hh) as (hr' & Hh' & E2).
    apply (H7 g h gr' hr'); congruence.
  - intros q qg Hq. destruct (H8 q qg Hq). by split.
  - intros q qg g Hq Hg. destruct (H9 q qg g Hq Hg) as (gr & Hgr & <-). destruct (Hnew g gr Hgr) as (gr' & ? & _ & Hp).
    exists gr'. split; [done|]. apply Hp. destruct Hx as [?|Hx]; [by right|]. left. intros ->. by apply (Hx _ qg Hq).
  - intros g gr Hg. destruct (Hold g gr Hg) as (gr' & Hg' & ->). by eapply H11.
  - intros q j Hj. unfold contents at 1. change (pages s') with (pages s). unfold contents.
    destruct (pages s !! q) as [qg|]; [|done]. destruct (pframe qg) as [g|]; [|done].
    destruct (frames s !! g) as [gr|] eqn:Hg.
    + destruct (Hnew g gr Hg) as (gr' & -> & -> & _). done.
    + destruct (frames s' !! g) as [gr'|] eqn:Hg'; [|done]. destruct (Hold g gr' Hg') as (? & ? & _). congruence.
Qed.

(** *** The clock *)

(** [m] is [s] but for accessed bits that are now clear. *)
Definition aged (s m : mmu) : Prop := vm_inv m pds ∧ same_data s m pds ∧ cr3 m = cr3 s ∧
  ∀ pd v, pd ∈ pds → 0 ≤ v < PHYS_BASE →
    entry m pd v = entry s pd v ∨ entry m pd v = Z.land (entry s pd v) (not32 PTE_A).

Definition accessed (s : vm) (pg : page) : bool :=
  match procs s !! thread pg with Some t => flag (entry (mm s) (pagedir t) (addr pg)) PTE_A | None => false end.

(** The entries of the two pages are the same: it is the same page, when the
    table of each process names one page for each address. *)
Definition same_entry (s : vm) (qg rg : page) : Prop := addr qg = addr rg ∧
  ∃ t u, procs s !! thread qg = Some t ∧ procs s !! thread rg = Some u ∧ pagedir t = pagedir u.

Lemma not_accessed e k : is_u32 e → 0 ≤ k →
  flag (Z.land e (not32 PTE_A)) (2 ^ k) = negb (k =? 5) && flag e (2 ^ k).
Proof. intros He Hk. by apply (clear_flag e 5 He ltac:(lia)). Qed.

Lemma set_accessed_data s pd u : vm_inv s pds → pd ∈ pds → 0 ≤ u < PHYS_BASE →
  0 ≤ cr3 s < PHYS_BASE → cr3 s + PHYS_BASE < 2 ^ 32 →
  ∃ m, pagedir_set_accessed ipd s pd u false = Ok m ∧ aged s m ∧ flag (entry m pd u) PTE_A = false ∧
    ∀ pd' v, pd' ∈ pds → 0 ≤ v < PHYS_BASE → entry m pd' v = entry s pd' v ∨ pd' = pd ∧ v / 4096 = u / 4096.
Proof.
  intros Hs Hpd Hu Hc Hc2. pose proof (entry_u32 s pds pd u Hs) as He32.
  destruct (set_flag_spec ipd s pds pd u PTE_A false Hs Hpd Hu Hc Hc2) as (m & Hset & Hup & Hcr & _);
    [unfold PTE_A; c_unfold; lia|]. cbv zeta in Hup. exists m.
  assert (pagedir_set_accessed ipd s pd u false = Ok m) as Hset' by exact Hset. clear Hset.
  split; [done|]. destruct Hup as [[Hsl ->]|[Hinv Hent]].
  - split_and!; [|unfold entry; by rewrite Hsl|by left]. split_and!; [done|apply same_data_refl|done|by left].
  - split; [split_and!; [done| |done|]|split].
    + unfold pagedir_set_accessed in Hset'. rewrite (lookup_false s pds) in Hset' by done. cbn [mbind res_bind] in Hset'.
      destruct (Z.eqb_spec (slot s pd u) 0) as [E0|E0]; cbn [negb] in Hset'.
      { injection Hset' as <-. apply same_data_refl. }
      set (e := Z.land _ _) in Hset'. destruct (store_entry s pds pd u e) as [Hinv1 _]; [done..| | |].
      { apply is_u32_land; [|apply u32_range]. unfold entry in He32. by rewrite (proj2 (Z.eqb_neq _ 0) E0) in He32. }
      { destruct (pde_of_entry s pds pd u Hs Hpd Hu) as [E _]. intros E'. rewrite E' in E. lia. }
      destruct (invalidate_spec ipd (store_word s (slot s pd u) e) pds pd) as (s2 & Hin & Hp2 & _); [done..|].
      rewrite Hin in Hset'. injection Hset' as <-. eapply same_data_pal; [exact Hp2|]. by apply store_data.
    + intros pd' v' Hpd' Hv'. rewrite Hent by done. destruct (Z.eqb_spec pd' pd) as [->|]; [|by left].
      destruct (Z.eqb_spec (v' / 4096) (u / 4096)) as [E|]; [|by left]. right. cbn [andb].
      by rewrite (entry_page s pd v' u).
    + rewrite Hent, !Z.eqb_refl by done. exact (not_accessed _ 5 He32 ltac:(lia)).
    + intros pd' v' Hpd' Hv'. rewrite Hent by done.
      destruct (Z.eqb_spec pd' pd); [|by left]. destruct (Z.eqb_spec (v' / 4096) (u / 4096)); [by right|by left].
Qed.

Lemma accessed_recently_spec s q qg f fr : machine s → in_locked_frame s q qg f fr →
  ∃ m, page_accessed_recently ipd s q = Ok (set_mm m s, accessed s qg) ∧ aged (mm s) m ∧
    accessed (set_mm m s) qg = false ∧
    ∀ r rg, pages s !! r = Some rg → accessed s rg = true → accessed (set_mm m s) rg = false → same_entry s qg rg.
Proof.
  intros Hs Hfr. pose proof Hfr as (Hp & _). destruct (mc_page _ Hs q qg Hp) as [[Ha Hal] (t & Ht & Hpd) _ _].
  unfold page_accessed_recently. rewrite (locked_page s q qg f fr) by done.
  unfold page_dir, accessed. cbn [set_mm procs mm]. rewrite Ht. cbn [deref mbind res_bind].
  assert (pagedir_is_accessed (mm s) (pagedir t) (addr qg) = Ok (flag (entry (mm s) (pagedir t) (addr qg)) PTE_A)) as ->.
  { unfold pagedir_is_accessed. rewrite (lookup_false (mm s) pds) by (done || apply Hs). cbn [mbind res_bind].
    unfold entry. by destruct (Z.eqb_spec (slot (mm s) (pagedir t) (addr qg)) 0). }
  cbn [mbind res_bind]. destruct (flag (entry (mm s) (pagedir t) (addr qg)) PTE_A) eqn:Eacc.
  - destruct (set_accessed_data (mm s) (pagedir t) (addr qg)) as (m & -> & Hm & Hf & Hon); [apply Hs|done|done|apply Hs|apply Hs|].
    cbn [mbind res_bind]. exists m. split_and!; [done|done|done|]. intros r rg Hr. destruct (mc_page _ Hs r rg Hr) as [[Hra Hral] (u & Hu & Hupd) _ _].
    rewrite Hu. intros E1 E2. destruct (Hon (pagedir u) (addr rg) Hupd Hra) as [E|[E Ea]]; [congruence|].
    split; [pose proof (Z.div_mod (addr qg) 4096); pose proof (Z.div_mod (addr rg) 4096); lia|]. by exists t, u.
  - exists (mm s). split_and!; [done| |done|intros r rg _ E1 E2; congruence].
    split_and!; [apply Hs|apply same_data_refl|done|by left].
Qed.

Lemma aged_machine s m : machine s → aged (mm s) m → machine (set_mm m s) ∧ same_contents s (set_mm m s) ∧
  (∀ pg, page_ok s pg → dirty (set_mm m s) pg = dirty s pg ∧ (accessed (set_mm m s) pg = true → accessed s pg = true)) ∧
  ∀ pd v, pd ∈ pds → 0 ≤ v < PHYS_BASE → flag (entry m pd v) PTE_P = flag (entry (mm s) pd v) PTE_P.
Proof.
  intros Hs (Hm & Hd & Hc & He). destruct (machine_mm s m Hs Hm Hd Hc) as [Hs' Hco].
  assert (∀ pd v k, pd ∈ pds → 0 ≤ v < PHYS_BASE → 0 ≤ k → k ≠ 5 →
    flag (entry m pd v) (2 ^ k) = flag (entry (mm s) pd v) (2 ^ k)) as Hfl.
  { intros pd v k Hpd Hv Hk Hk5. destruct (He pd v Hpd Hv) as [->| ->]; [done|].
    rewrite not_accessed by (done || by eapply entry_u32, Hs). by rewrite (proj2 (Z.eqb_neq k 5)). }
  split_and!; [done|done| |].
  - intros pg [[Ha _] (t & Ht & Hpd) _ _]. unfold dirty, accessed. cbn [set_mm procs mm]. rewrite Ht. split.
    + exact (Hfl (pagedir t) (addr pg) 6 Hpd Ha ltac:(lia) ltac:(lia)).
    + destruct (He (pagedir t) (addr pg) Hpd Ha) as [->| ->]; [done|]. intros H.
      rewrite (not_accessed _ 5 (entry_u32 _ _ _ _ (mc_mm _ Hs)) ltac:(lia)) in H. done.
  - intros pd v Hpd Hv. exact (Hfl pd v 0 Hpd Hv ltac:(lia) ltac:(lia)).
Qed.

(** The hand, the locks of the tables and the rest of the state do not
    matter. *)
Record same_parts (s s' : vm) : Prop := {
  sp_mm : mm s' = mm s;
  sp_fsys : fsys s' = fsys s;
  sp_files : files s' = files s;
  sp_dev : swap_device s' = swap_device s;
  sp_map : swap_bitmap s' = swap_bitmap s;
  sp_frames : frames s' = frames s;
  sp_pages : pages s' = pages s;
  sp_procs : procs s' = procs s;
}.

Lemma same_parts_machine s s' : same_parts s s' → machine s → machine s' ∧ same_contents s s'.
Proof.
  intros [E1 E2 E3 E4 E5 E6 E7 E8] [H1 H2 H3 H4 H5 H6 H7 H8 H9 H10 H11]. split.
  - split; rewrite ?E1, ?E2, ?E6, ?E7; try done.
    + destruct H3 as (d & Hd & Ha). exists d. by rewrite E4, E5, E7.
    + intros q qg Hq. destruct (H8 q qg Hq) as [P1 P2 P3 P4]. split; [done|by rewrite E8|done|].
      intros h Hh. destruct (P4 h Hh) as (fl & n & Hfl). exists fl, n. by rewrite E3, E2.
  - intros q j Hj. unfold contents, swapped, backing, memory_of. by rewrite E1, E2, E3, E4, E6, E7.
Qed.

Lemma aged_refl s : vm_inv s pds → aged s s.
Proof. intros H. split_and!; [done|apply same_data_refl|done|by left]. Qed.

Lemma aged_trans s1 s2 s3 : aged s1 s2 → aged s2 s3 → aged s1 s3.
Proof.
  intros (_ & D1 & C1 & E1) (I2 & D2 & C2 & E2). split_and!; [done| |congruence|].
  - intros b Hb. destruct (D1 b Hb) as [Hb1 K1], (D2 b) as [Hb2 K2]; [by apply D1|]. split; [done|].
    intros k Hk. rewrite K2, K1 by done. done.
  - intros pd v Hpd Hv. destruct (E1 pd v Hpd Hv) as [A| A], (E2 pd v Hpd Hv) as [B|B]; rewrite B, A; [by left|by right|by right|].
    right. by rewrite <- Z.land_assoc, Z.land_diag.
Qed.

(** The frame that the hand reaches after [k] turns. *)
Definition at_turn (s : vm) (k : Z) : nat := Z.to_nat ((hand s + k) mod Z.of_nat (length (frames s))).

(** The frame is locked, or its page was accessed. *)
Definition in_use (s : vm) (fr : frame) : Prop := lock fr = None →
  fpage fr ≠ 0 ∧ ∃ qg, pages s !! fpage fr = Some qg ∧ accessed s qg = true.

(** Every frame that is not locked is empty or holds the page it names. *)
Definition owned (s : vm) : Prop := ∀ f fr, frames s !! f = Some fr → lock fr = None → fpage fr ≠ 0 →
  ∃ qg, pages s !! fpage fr = Some qg ∧ pframe qg = Some f.

(** From the state [s], the clock has picked the frame [f], which holds the
    page [qg]; in [s1] the frame is locked, the hand has moved on and the
    accessed bits of the pages it passed are clear. *)
Record picked (s s1 : vm) (f : nat) (fr : frame) (qg : page) : Prop := {
  pk_frame : frames s !! f = Some fr;
  pk_lock : lock fr = None;
  pk_taken : fpage fr ≠ 0;
  pk_page : pages s !! fpage fr = Some qg;
  pk_in : pframe qg = Some f;
  pk_state : ∃ h m, aged (mm s) m ∧
    s1 = set_scan_lock None (set_mm m (put_frame f (Frame (Some (cur s)) (base fr) (fpage fr)) (set_hand h s)));
  (** The frames it passed were in use; the page was not, or has lost its
      accessed bit when the hand passed it. *)
  pk_second : ∃ i, 0 ≤ i < 2 * Z.of_nat (length (frames s)) ∧ f = at_turn s i ∧
    (∀ k gr, 0 ≤ k < i → frames s !! at_turn s k = Some gr → in_use s gr) ∧
    (accessed s qg = true → ∃ k gr gq, 0 ≤ k < i ∧ frames s !! at_turn s k = Some gr ∧
       pages s !! fpage gr = Some gq ∧ same_entry s gq qg);
}.

(** What becomes of the frame when [page_out] has returned [r]. *)
Definition reuse (c p : Z) (f : nat) (fr : frame) (r : res (vm * bool)) : res (vm * option nat) :=
  match r with
  | Ok (s, true) => Ok (put_frame f (Frame (Some c) (base fr) p) s, Some f)
  | Ok (s, false) => Ok (put_frame f (Frame None (base fr) (fpage fr)) s, None)
  | Err e => Err e
  end.

Lemma picked_spec s s1 f fr qg : machine s → picked s s1 f fr qg →
  let fr1 := Frame (Some (cur s)) (base fr) (fpage fr) in
  machine s1 ∧ same_contents s s1 ∧ in_locked_frame s1 (fpage fr) qg f fr1 ∧ swap_lock s1 = swap_lock s ∧
  frames s1 = <[f := fr1]> (frames s) ∧ procs s1 = procs s ∧ cur s1 = cur s ∧ scan_lock s1 = None ∧ pages s1 = pages s ∧
  (∀ pd v, pd ∈ pds → 0 ≤ v < PHYS_BASE → flag (entry (mm s1) pd v) PTE_P = flag (entry (mm s) pd v) PTE_P) ∧
  (kept s qg fr → kept s1 qg fr1).
Proof.
  intros Hs [Hf Hl H0 Hq Hqf (h & m & Hm & ->) _] fr1. set (s2 := set_hand h s).
  destruct (same_parts_machine s s2 ltac:(by split) Hs) as [Hs2 Hc2].
  destruct (set_frame s2 f fr (Some (cur s)) (fpage fr) Hs2 Hf (or_introl eq_refl)) as [Hs3 Hc3]. fold fr1 in Hs3, Hc3 |- *.
  set (s3 := put_frame f fr1 s2) in *. destruct (aged_machine s3 m Hs3 Hm) as (Hs4 & Hc4 & Hdirty & HP).
  destruct (same_parts_machine (set_mm m s3) (set_scan_lock None (set_mm m s3)) ltac:(by split) Hs4) as [Hs5 Hc5].
  split_and!; try done.
  - by eapply same_contents_trans, same_contents_trans, same_contents_trans.
  - split_and!; try done. apply list_lookup_insert_eq. by eapply lookup_lt_Some.
  - unfold kept. destruct (Hdirty qg (mc_page _ Hs3 _ _ Hq)) as [Hd _].
    change (dirty (set_scan_lock None (set_mm m s3)) qg) with (dirty (set_mm m s3) qg). rewrite Hd. change (dirty s3 qg) with (dirty s qg).
    destruct (pfile qg); [|done]. destruct (dirty s qg); [done|]. intros Hk j Hj. etransitivity; [|exact (Hk j Hj)].
    destruct Hm as (_ & Hd2 & _). apply (Hd2 (base fr)); [by eapply mc_base|cbn; lia].
Qed.

(** [s'] is [s] with the frame [f] empty; the pages have the contents that
    they have in [c]. *)
Record vacated (c s s' : vm) (f : nat) (fr : frame) : Prop := {
  va_machine : machine s';
  va_contents : same_contents c s';
  va_frame : frames s' !! f = Some fr;
  va_free : free_frame fr;
  va_scan : scan_lock s' = None;
  va_procs : procs s' = procs s;
  va_cur : cur s' = cur s;
  va_pages q qg : pages s !! q = Some qg → pframe qg = None → pages s' !! q = Some qg;
  va_present pd v : pd ∈ pds → 0 ≤ v < PHYS_BASE →
    flag (entry (mm s') pd v) PTE_P = true → flag (entry (mm s) pd v) PTE_P = true;
  va_bases : map base (frames s') = map base (frames s);
}.

(** The page was saved, and its frame is free. *)
Lemma picked_vacated s s1 f fr qg p s2 : machine s → picked s s1 f fr qg → swap_lock s = None →
  page_out ipd s1 (fpage fr) = Ok (s2, true) → let s3 := put_frame f (Frame None (base fr) 0) s2 in
  vacated s2 s s3 f (Frame None (base fr) 0) ∧ put_frame f (Frame (Some (cur s)) (base fr) p) s2 = taken s3 p f (Frame None (base fr) 0).
Proof.
  intros Hs Hk Hswl Hout s3. destruct (picked_spec s s1 f fr qg Hs Hk) as (Hs1 & Hc & Hfr1 & El & Ef & Epr & Ecur & Esc & Epg & HP & _).
  pose proof Hk as [Hf _ H0 Hq Hqf _ _]. pose proof (lookup_lt_Some _ _ _ Hf) as Hlt.
  destruct (page_out_cases s1 (fpage fr) qg f _ Hs1 Hfr1 ltac:(congruence)) as [_ H].
  destruct (H s2 true Hout) as [Hs2 [R1 R2 R3 R4 R5 R6] (qg' & Hq' & Hqf')].
  assert (frames s2 !! f = Some (Frame (Some (cur s)) (base fr) (fpage fr))) as Hf2
    by (rewrite R1, Ef; by apply list_lookup_insert_eq).
  assert (∀ r rg, pages s2 !! r = Some rg → pframe rg ≠ Some f) as Hnone.
  { intros r rg Hr Hrf. destruct (mc_owner _ Hs2 r rg f Hr Hrf) as (fr' & Hfr' & Ho). rewrite Hf2 in Hfr'.
    injection Hfr' as <-. cbn in Ho. subst r. congruence. }
  destruct (set_frame s2 f _ None 0 Hs2 Hf2 (or_intror Hnone)) as [Hs3 Hc3]. cbn [base] in Hs3, Hc3. fold s3 in Hs3, Hc3. split.
  - split; try done.
    + apply list_lookup_insert_eq. by eapply lookup_lt_Some.
    + cbn. congruence.
    + cbn. congruence.
    + cbn. congruence.
    + intros r rg Hr Hrf. cbn. destruct (decide (r = fpage fr)) as [->|Hne]; [congruence|]. by rewrite R5, Epg.
    + intros pd v Hpd Hv Hpr. cbn in Hpr. rewrite <- HP by done. by apply R6.
    + cbn. rewrite R1, Ef, list_insert_insert_eq. change (base <$> <[f := Frame None (base fr) 0]> (frames s) = base <$> frames s).
      rewrite list_fmap_insert. apply list_insert_id. by rewrite list_lookup_fmap, Hf.
  - unfold taken, s3, put_frame. cbn. rewrite list_insert_insert_eq, R3, Ecur. done.
Qed.

(** The frame at the hand stays: it is locked, or has lost its accessed bit. *)
Definition passed (s : vm) (fr : frame) (m : mmu) : Prop := aged (mm s) m ∧ in_use s fr ∧
  (lock fr = None → ∀ qg, pages s !! fpage fr = Some qg → accessed (set_mm m s) qg = false) ∧
  ∀ r rg, pages s !! r = Some rg → accessed s rg = true → accessed (set_mm m s) rg = false →
    ∃ qg, pages s !! fpage fr = Some qg ∧ same_entry s qg rg.

(** The frame at the hand is given up by [page_out], if that succeeds. *)
Definition chosen (s : vm) (p : Z) (h : nat) (fr : frame) (qg : page) (r : res (vm * option nat)) : Prop :=
  lock fr = None ∧ fpage fr ≠ 0 ∧ pages s !! fpage fr = Some qg ∧ pframe qg = Some h ∧ accessed s qg = false ∧
  ∃ m, aged (mm s) m ∧ r = reuse (cur s) p h fr (page_out ipd
    (set_scan_lock None (set_mm m (put_frame h (Frame (Some (cur s)) (base fr) (fpage fr)) s))) (fpage fr)).

(** The end of [visit], after [page_out]. *)
Lemma visit_end s h fr m qg p : machine s → frames s !! h = Some fr → swap_lock s = None →
  pages s !! fpage fr = Some qg → pframe qg = Some h → aged (mm s) m →
  let s1 := set_scan_lock None (set_mm m (put_frame h (Frame (Some (cur s)) (base fr) (fpage fr)) s)) in
  ('(s2, ok) ← page_out ipd s1 (fpage fr);
   if negb ok then
     l ← lock_release (cur s2) (Some (cur s));
     Ok (inr (put_frame h (Frame l (base fr) (fpage fr)) s2, None))
   else Ok (inr (put_frame h (Frame (Some (cur s)) (base fr) p) s2, Some h))) =
  (x ← reuse (cur s) p h fr (page_out ipd s1 (fpage fr)); Ok (inr x : vm + vm * option nat)).
Proof.
  intros Hs Hf Hl Hq Hqf Hm s1. set (fr1 := Frame (Some (cur s)) (base fr) (fpage fr)) in *.
  destruct (set_frame s h fr (Some (cur s)) (fpage fr) Hs Hf (or_introl eq_refl)) as [Hs1 _]. fold fr1 in Hs1.
  destruct (aged_machine (put_frame h fr1 s) m Hs1 Hm) as (Hs2 & _).
  destruct (same_parts_machine (set_mm m (put_frame h fr1 s)) s1 ltac:(by split) Hs2) as [Hs3 _].
  assert (in_locked_frame s1 (fpage fr) qg h fr1) as Hfr
    by (split_and!; try done; apply list_lookup_insert_eq; by eapply lookup_lt_Some).
  destruct (page_out_cases s1 (fpage fr) qg h fr1 Hs3 Hfr Hl) as [_ Hout].
  destruct (page_out ipd s1 (fpage fr)) as [[s2 ok]|e]; [|done]. rewrite ok_bind. destruct ok; cbn [negb reuse]; [done|].
  destruct (Hout s2 false eq_refl) as [_ [_ _ R3 _ _ _] _]. rewrite R3. cbn [cur s1 set_scan_lock set_mm put_frame set_frames].
  by rewrite lock_release_ok.
Qed.

Lemma visit_spec s p h fr : machine s → no_frame_held s → scan_lock s = Some (cur s) → swap_lock s = None →
  owned s → frames s !! h = Some fr →
  (∃ m, visit ipd s p h fr = Ok (inl (set_mm m s)) ∧ passed s fr m) ∨
  (free_frame fr ∧ visit ipd s p h fr = Ok (inr (set_scan_lock None (taken s p h fr), Some h))) ∨
  (∃ qg r, chosen s p h fr qg r ∧ visit ipd s p h fr = (x ← r; Ok (inr x))).
Proof.
  intros Hs Hno Hsl Hswl How Hf. unfold visit. destruct (lock fr) as [t|] eqn:Hl; cbn [lock_try_acquire].
  { rewrite (proj2 (Z.eqb_neq t (cur s))) by (intros ->; by apply (Hno h fr)). rewrite ok_bind. left.
    exists (mm s). split; [by destruct s|]. split_and!; [apply aged_refl, Hs|intros ?; congruence|congruence|].
    intros r rg _ E1 E2. exfalso. change (accessed s rg = false) in E2. congruence. }
  rewrite ok_bind. destruct (Z.eqb_spec (fpage fr) 0) as [H0|H0].
  - right. left. split; [done|]. cbn [put_frame set_frames cur scan_lock]. rewrite Hsl, lock_release_ok, ok_bind.
    do 3 f_equal. unfold taken, put_frame. cbn. by rewrite list_insert_insert_eq.
  - destruct (How h fr Hf Hl H0) as (qg & Hq & Hqf).
    destruct (set_frame s h fr (Some (cur s)) (fpage fr) Hs Hf (or_introl eq_refl)) as [Hs1 _].
    set (fr1 := Frame (Some (cur s)) (base fr) (fpage fr)) in *. set (s1 := put_frame h fr1 s) in *.
    assert (frames s1 !! h = Some fr1) as Hf1 by (apply list_lookup_insert_eq; by eapply lookup_lt_Some).
    destruct (accessed_recently_spec s1 (fpage fr) qg h fr1 Hs1) as (m & -> & Hm & Hacc & Honly); [by split_and!|].
    rewrite ok_bind. change (accessed s1 qg) with (accessed s qg). destruct (accessed s qg) eqn:Ha.
    + left. change (cur (set_mm m s1)) with (cur s). rewrite lock_release_ok, ok_bind.
      exists m. split.
      * do 2 f_equal. unfold s1, put_frame. cbn. rewrite list_insert_insert_eq, list_insert_id; [done|].
        rewrite Hf. f_equal. destruct fr; cbn in *; by subst.
      * split_and!; [done| | |].
        -- intros _. split; [done|]. by exists qg.
        -- intros _ qg' Hq'. rewrite Hq in Hq'. by injection Hq' as <-.
        -- intros r rg Hr E1 E2. exists qg. split; [done|]. by apply (Honly r rg).
    + right. right. change (cur (set_mm m s1)) with (cur s). change (scan_lock (set_mm m s1)) with (scan_lock s).
      rewrite Hsl, lock_release_ok, ok_bind. exists qg. eexists. split; [split_and!; try done; exists m; split; done|].
      by apply (visit_end s h fr m qg p).
Qed.

(** *** The clock finds a frame *)

Lemma aged_in_use s m fr : machine s → aged (mm s) m → in_use (set_mm m s) fr → in_use s fr.
Proof.
  intros Hs Hm Hu Hl. destruct (Hu Hl) as (H0 & qg & Hq & Ha). split; [done|]. exists qg. split; [done|].
  destruct (aged_machine s m Hs Hm) as (_ & _ & Hmono & _). by apply (Hmono qg (mc_page _ Hs _ _ Hq)).
Qed.

(** The state of the loop after [i] turns: the hand has moved on, and the
    frames it has passed have lost their accessed bits; [v] is a frame that is
    not locked. *)
Record turned (s : vm) (v : nat) (i : Z) (m : mmu) : Prop := {
  tu_aged : aged (mm s) m;
  tu_bound : i ≤ Z.of_nat (length (frames s)) + (Z.of_nat v - hand s) mod Z.of_nat (length (frames s));
  tu_clear : (Z.of_nat v - hand s) mod Z.of_nat (length (frames s)) < i → ∀ vr qg,
    frames s !! v = Some vr → pages s !! fpage vr = Some qg → accessed (set_mm m s) qg = false;
  tu_used k gr : 0 ≤ k < i → frames s !! at_turn s k = Some gr → in_use s gr;
  tu_only r rg : pages s !! r = Some rg → accessed s rg = true → accessed (set_mm m s) rg = false →
    ∃ k gr gq, 0 ≤ k < i ∧ frames s !! at_turn s k = Some gr ∧ pages s !! fpage gr = Some gq ∧ same_entry s gq rg;
}.
Definition clock_at (s : vm) (v : nat) (i : Z) (s' : vm) : Prop :=
  ∃ m, s' = set_hand ((hand s + i) mod Z.of_nat (length (frames s))) (set_mm m s) ∧ turned s v i m.

Lemma next_hand h i n : 0 < n → (if n <=? (h + i) mod n + 1 then 0 else (h + i) mod n + 1) = (h + (i + 1)) mod n.
Proof.
  intros Hn. pose proof (Z.mod_pos_bound (h + i) n Hn). pose proof (Z.div_mod (h + i) n ltac:(lia)) as E.
  destruct (Z.leb_spec n ((h + i) mod n + 1)).
  - apply (Z.mod_unique _ _ ((h + i) / n + 1)); [left; lia|]. nia.
  - apply (Z.mod_unique _ _ ((h + i) / n)); [left; lia|]. lia.
Qed.

Lemma hand_at h v n i : 0 ≤ h < n → 0 ≤ v < n → (i = (v - h) mod n ∨ i = n + (v - h) mod n) → (h + i) mod n = v.
Proof.
  intros Hh Hv Hi. pose proof (Z.div_mod (v - h) n ltac:(lia)) as E. symmetry.
  destruct Hi as [->| ->].
  - apply (Z.mod_unique _ _ (- ((v - h) / n))); [left; lia|]. lia.
  - apply (Z.mod_unique _ _ (1 - (v - h) / n)); [left; lia|]. lia.
Qed.

(** The frame that the clock ends at. *)
Definition stops (s : vm) (p : Z) (r : res (vm * option nat)) : Prop :=
  ∃ s1 f fr qg, picked s s1 f fr qg ∧ r = reuse (cur s) p f fr (page_out ipd s1 (fpage fr)).

Section clock.
Context (s : vm) (p : Z) (v : nat) (vr : frame).
Context (Hs : machine s) (Hno : no_frame_held s) (Hsl : scan_lock s = Some (cur s)) (Hswl : swap_lock s = None)
  (How : owned s) (Hfull : ∀ f fr, frames s !! f = Some fr → ¬ free_frame fr)
  (Hv : frames s !! v = Some vr) (Hvl : lock vr = None).
Let n : Z := Z.of_nat (length (frames s)).
Let d : Z := (Z.of_nat v - hand s) mod n.
Context (Hh : 0 ≤ hand s < n).

Lemma turn_at i : i = d ∨ i = n + d → at_turn s i = v.
Proof using Hv Hh.
  intros Hi. pose proof (lookup_lt_Some _ _ _ Hv) as Hvn. unfold at_turn. fold n.
  rewrite (hand_at _ (Z.of_nat v)); [apply Nat2Z.id|done|lia|done].
Qed.

(** A turn that leaves the frame. *)
Lemma turned_pass i m m' fr : 0 ≤ i → turned s v i m → frames s !! at_turn s i = Some fr →
  passed (set_mm m s) fr m' → turned s v (i + 1) m'.
Proof using All.
  intros Hi [Hm Hin Hclr Hused Honly] Hfr (Hm' & Huse & Hclr' & Honly'). fold n d in Hin, Hclr.
  destruct (aged_machine s m Hs Hm) as (Hs2 & _). destruct (aged_machine (set_mm m s) m' Hs2 Hm') as (_ & _ & Hmono & _).
  split; [by eapply aged_trans| | | |]; fold n d.
  - destruct (decide (i = n + d)) as [Ei|]; [|lia]. exfalso. rewrite turn_at, Hv in Hfr by lia. injection Hfr as <-.
    pose proof (lookup_lt_Some _ _ _ Hv). destruct (Huse Hvl) as (_ & qg & Hq & Ht). specialize (Hclr ltac:(lia) vr qg Hv Hq). congruence.
  - intros Hdi vr' qg Hv' Hq. rewrite Hv in Hv'. injection Hv' as <-. destruct (decide (d = i)) as [Edi|].
    + rewrite turn_at, Hv in Hfr by lia. injection Hfr as <-. by apply Hclr'.
    + specialize (Hclr ltac:(lia) vr qg Hv Hq). destruct (Hmono qg (mc_page _ Hs2 _ _ Hq)) as [_ Hm2].
      change (set_mm m' (set_mm m s)) with (set_mm m' s) in Hm2. destruct (accessed (set_mm m' s) qg) eqn:E; [|done].
      rewrite Hm2 in Hclr; done.
  - intros k gr Hk Hgr. destruct (decide (k = i)) as [->|]; [|apply (Hused k); [lia|done]].
    rewrite Hfr in Hgr. injection Hgr as <-. by eapply aged_in_use.
  - intros r rg Hr E1 E2. destruct (accessed (set_mm m s) rg) eqn:E3.
    + destruct (Honly' r rg Hr E3 E2) as (gq & Hgq & Hse). exists i, fr, gq. split; [lia|done].
    + destruct (Honly r rg Hr E1 E3) as (k & gr & gq & ? & ?). exists k, gr, gq. split; [lia|done].
Qed.

Lemma clock_step i s' : 0 ≤ i → clock_at s v i s' →
  let r := (fr ← get_frame s' (Z.to_nat (hand s'));
   visit ipd (set_hand (if Z.of_nat (length (frames s')) <=? hand s' + 1 then 0 else hand s' + 1) s') p
     (Z.to_nat (hand s')) fr) in
  (∃ s'', r = Ok (inl s'') ∧ clock_at s v (i + 1) s'') ∨ ∃ x, stops s p x ∧ r = (y ← x; Ok (inr y)).
Proof using All.
  intros Hi (m & -> & Ht). pose proof Ht as [Hm Hin Hclr Hused Honly]. fold n d in Hin, Hclr |- *.
  pose proof (lookup_lt_Some _ _ _ Hv) as Hvn. assert (0 ≤ d < n) as Hd by (apply Z.mod_pos_bound; lia).
  cbn [set_hand hand frames set_mm]. fold n. rewrite next_hand by lia.
  set (g := (hand s + i) mod n). assert (0 ≤ g < n) as Hg by (apply Z.mod_pos_bound; lia).
  destruct (lookup_lt_is_Some_2 (frames s) (Z.to_nat g)) as [fr Hfr]; [lia|].
  rewrite (get_frame_ok (set_hand g (set_mm m s)) (Z.to_nat g) fr), ok_bind by exact Hfr.
  destruct (aged_machine s m Hs Hm) as (Hs2 & _ & _ & _). set (nh := (hand s + (i + 1)) mod n).
  change (set_hand nh (set_hand g (set_mm m s))) with (set_hand nh (set_mm m s)).
  set (s2 := set_hand nh (set_mm m s)).
  destruct (same_parts_machine (set_mm m s) s2 ltac:(by split) Hs2) as [Hs3 _].
  destruct (visit_spec s2 p (Z.to_nat g) fr Hs3 Hno Hsl Hswl How Hfr)
    as [(m' & -> & Hp)|[[Hfree _]|(qg & r & (Hl & H0 & Hq & Hqf & Ha & m' & Hm' & ->) & ->)]].
  - left. eexists. split; [done|]. exists m'. split; [done|]. by eapply turned_pass.
  - by destruct (Hfull _ _ Hfr).
  - right. eexists. split; [|done]. exists (set_scan_lock None (set_mm m' (put_frame (Z.to_nat g) (Frame (Some (cur s)) (base fr) (fpage fr)) (set_hand nh s)))),
      (Z.to_nat g), fr, qg. split; [|done]. split; try done.
    + exists nh, m'. split; [by eapply aged_trans|done].
    + exists i. split_and!; [lia|fold n; lia|done|done|]. intros E. by apply (Honly (fpage fr)).
Qed.

Lemma evict_spec : ∃ r, stops s p r ∧ evict ipd s p = (x ← r; Ok (inr x)).
Proof using All.
  pose proof (lookup_lt_Some _ _ _ Hv) as Hvn. assert (0 ≤ d < n) as Hd by (apply Z.mod_pos_bound; lia).
  destruct (for_ret_stops (clock_at s v) (stops s p) (λ _ s,
    fr ← get_frame s (Z.to_nat (hand s));
    visit ipd (set_hand (if Z.of_nat (length (frames s)) <=? hand s + 1 then 0 else hand s + 1) s) p
      (Z.to_nat (hand s)) fr) (length (frames s) * 2) 0 s) as [(s' & Hr & m & _ & [_ Hi _ _ _])|Hr].
  - intros i s' Hi Hc. apply clock_step; [lia|done].
  - exists (mm s). split; [|split].
    + rewrite Z.add_0_r, Z.mod_small by done. by destruct s.
    + apply aged_refl, Hs.
    + fold n d. lia.
    + fold n d. lia.
    + intros k gr Hk. lia.
    + intros r rg _ E1 E2. change (accessed s rg = false) in E2. congruence.
  - fold n d in Hi. lia.
  - exact Hr.
Qed.
End clock.

(** *** Allocation of a frame *)

(** What the clock needs: a frame that is not locked. *)
Record clock_ok (s : vm) : Prop := {
  ck_owned : owned s;
  ck_hand : 0 ≤ hand s < Z.of_nat (length (frames s));
  ck_swap : swap_lock s = None;
  ck_frame : ∃ f fr, frames s !! f = Some fr ∧ lock fr = None;
}.

(** A free frame is taken; when there is none, the clock picks one. *)
Lemma try_frame_cases s p : machine s → no_frame_held s → scan_lock s = None →
  (∃ f fr, frames s !! f = Some fr ∧ free_frame fr ∧ try_frame_alloc_and_lock ipd s p = Ok (taken s p f fr, Some f)) ∨
  (∀ f fr, frames s !! f = Some fr → ¬ free_frame fr) ∧ (clock_ok s → stops s p (try_frame_alloc_and_lock ipd s p)).
Proof.
  intros Hs Hno Hsl. unfold try_frame_alloc_and_lock. rewrite Hsl. cbn [lock_acquire]. rewrite ok_bind.
  set (s1 := set_scan_lock (Some (cur s)) s).
  destruct (same_parts_machine s s1 ltac:(by split) Hs) as [Hs1 _].
  assert (set_scan_lock None s1 = s) as E1 by (unfold s1; destruct s; cbn in *; by subst).
  destruct (find_free_spec s1 p Hno eq_refl) as [(f & fr & Hf & Hfree & ->)|[-> Hnone]]; rewrite ok_bind.
  - left. exists f, fr. split_and!; [done|done|]. do 2 f_equal. change (taken (set_scan_lock None s1) p f fr = taken s p f fr). by rewrite E1.
  - right. split; [done|]. intros [How Hh Hswl (v & vr & Hv & Hvl)].
    destruct (evict_spec s1 p v vr Hs1 Hno eq_refl Hswl How Hnone Hv Hvl Hh) as (r & (s2 & f & fr & qg & [P1 P2 P3 P4 P5 (h & m & Hm & ->) P7] & ->) & ->).
    eexists _, f, fr, qg. split; [split; try done; by exists h, m|].
    change (cur s1) with (cur s). by destruct (reuse _ _ _ _ _) as [[? ?]|].
Qed.

Lemma frame_alloc_try sleep s p s1 f fr : frames s1 !! f = Some fr →
  try_frame_alloc_and_lock ipd s p = Ok (taken s1 p f fr, Some f) →
  frame_alloc_and_lock ipd sleep s p = Ok (taken s1 p f fr, Some f).
Proof.
  intros Hf Ht. unfold frame_alloc_and_lock. cbn [for_ret]. rewrite Ht, !ok_bind.
  rewrite (get_frame_ok (taken s1 p f fr) f (Frame (Some (cur s1)) (base fr) p)).
  2:{ apply list_lookup_insert_eq. by eapply lookup_lt_Some. }
  rewrite ok_bind. cbn [lock]. unfold lock_held. by rewrite bool_decide_eq_true_2.
Qed.

Lemma frame_alloc_err sleep s p e : try_frame_alloc_and_lock ipd s p = Err e → frame_alloc_and_lock ipd sleep s p = Err e.
Proof. intros Ht. unfold frame_alloc_and_lock. cbn [for_ret]. by rewrite Ht. Qed.

(** The three ways in which the clock ends. *)
Lemma stops_alloc sleep s p s1 f fr qg : machine s → picked s s1 f fr qg → swap_lock s = None →
  try_frame_alloc_and_lock ipd s p = reuse (cur s) p f fr (page_out ipd s1 (fpage fr)) →
  match page_out ipd s1 (fpage fr) with
  | Ok (s2, true) => ∃ s3 fr3, frame_alloc_and_lock ipd sleep s p = Ok (taken s3 p f fr3, Some f) ∧ vacated s2 s s3 f fr3 ∧
      taken s3 p f fr3 = put_frame f (Frame (Some (cur s)) (base fr) p) s2
  | Ok (s2, false) => try_frame_alloc_and_lock ipd s p = Ok (put_frame f fr s2, None)
  | Err e => frame_alloc_and_lock ipd sleep s p = Err e
  end.
Proof.
  intros Hs Hk Hl Ht. pose proof (λ s2, picked_vacated s s1 f fr qg p s2 Hs Hk Hl) as Hva.
  destruct (page_out ipd s1 (fpage fr)) as [[s2 []]|e]; cbn [reuse] in Ht.
  - destruct (Hva s2 eq_refl) as [Hv E]. rewrite E in Ht. eexists _, _. split_and!; [|exact Hv|done].
    apply frame_alloc_try; [apply Hv|done].
  - rewrite Ht. do 3 f_equal. pose proof (pk_lock _ _ _ _ _ Hk). destruct fr; cbn in *; by subst.
  - by apply frame_alloc_err.
Qed.

(** Every page in a frame that is not locked can be evicted without loss. *)
Definition evictable (s : vm) : Prop := ∀ f fr, frames s !! f = Some fr → lock fr = None → fpage fr ≠ 0 →
  ∃ qg, pages s !! fpage fr = Some qg ∧ pframe qg = Some f ∧ kept s qg fr.

(** A frame is free, or one that is not locked can be vacated. *)
Definition can_alloc (s : vm) : Prop :=
  (∃ f fr, frames s !! f = Some fr ∧ free_frame fr) ∨
  (∃ f fr, frames s !! f = Some fr ∧ lock fr = None) ∧ evictable s ∧
    0 ≤ hand s < Z.of_nat (length (frames s)) ∧ swap_lock s = None.

Lemma free_vacated s f fr : machine s → scan_lock s = None → frames s !! f = Some fr → free_frame fr → vacated s s s f fr.
Proof. intros Hs Hsl Hf Hfree. by split. Qed.

Lemma frame_alloc_spec sleep s p : machine s → no_frame_held s → scan_lock s = None → can_alloc s →
  ∃ s1 f fr, frame_alloc_and_lock ipd sleep s p = Ok (taken s1 p f fr, Some f) ∧ vacated s s s1 f fr.
Proof.
  intros Hs Hno Hsl Hcan. destruct (try_frame_cases s p Hs Hno Hsl) as [(f & fr & Hf & Hfree & Ht)|[Hnone Hclock]].
  { exists s, f, fr. split; [by apply frame_alloc_try|by apply free_vacated]. }
  destruct Hcan as [(f & fr & Hf & Hfree)|(Hun & Hev & Hh & Hswl)]; [by destruct (Hnone f fr)|].
  destruct Hclock as (s1 & f & fr & qg & Hk & Ht).
  { split; try done. intros f fr Hf Hl H0. destruct (Hev f fr Hf Hl H0) as (qg & ? & ? & _). by exists qg. }
  pose proof (stops_alloc sleep s p s1 f fr qg Hs Hk Hswl Ht) as Ha. pose proof Hk as [Hf Hl H0 Hq _ _ _].
  destruct (picked_spec s s1 f fr qg Hs Hk) as (Hs1 & Hc & Hfr1 & El & _ & _ & _ & _ & _ & _ & Hkept).
  destruct (Hev f fr Hf Hl H0) as (qg' & Hq' & _ & Hkq). rewrite Hq in Hq'. injection Hq' as <-.
  destruct (page_out_spec s1 (fpage fr) qg f _ Hs1 Hfr1 ltac:(congruence) (Hkept Hkq)) as (s2 & Ho & _ & Hc2 & _).
  rewrite Ho in Ha. destruct Ha as (s3 & fr3 & Ha & [V1 V2 V3 V4 V5 V6 V7 V8 V9 V10] & _). exists s3, f, fr3. split; [done|]. split; try done.
  by eapply same_contents_trans, same_contents_trans.
Qed.

(** *** A page fault *)

Lemma do_page_in_spec sleep c s0 s f fr p pg : pages s0 !! p = Some pg → pframe pg = None →
  frame_alloc_and_lock ipd sleep s0 p = Ok (taken s p f fr, Some f) → vacated c s0 s f fr →
  ∃ s' fr', do_page_in ipd sleep s0 p = Ok (s', true) ∧ machine s' ∧ same_contents c s' ∧
    in_locked_frame s' p (with_sector NO_SECTOR (with_frame (Some f) pg)) f fr' ∧
    procs s' = procs s0 ∧ cur s' = cur s0 ∧ ∀ pd v, pd ∈ pds → 0 ≤ v < PHYS_BASE → flag (entry (mm s') pd v) PTE_P = true → flag (entry (mm s0) pd v) PTE_P = true.
Proof.
  intros Hp0 Hpf Ha [Hs Hc0 Hf Hfree _ Hpr0 Hcur0 Hpg0 HP0 _].
  pose proof (Hpg0 p pg Hp0 Hpf) as Hp. unfold do_page_in. rewrite Ha. cbn [mbind res_bind]. rewrite (upd_page_ok p _ _ pg) by done. cbn [mbind res_bind].
  change (pages (taken s p f fr)) with (pages s).
  set (fr' := Frame (Some (cur s)) (base fr) p).
  set (s2 := set_pages _ _). assert (frames s2 !! f = Some fr') as Hf2.
  { apply list_lookup_insert_eq. by eapply lookup_lt_Some. }
  assert (pages s2 !! p = Some (with_frame (Some f) pg)) as Hp2 by apply lookup_insert_eq.
  rewrite (get_frame_ok _ _ _ Hf2), (get_page_ok _ _ _ Hp2). cbn [mbind res_bind with_frame psector pfile file_bytes file_offset].
  change (base fr') with (base fr).
  match goal with |- context [?r = Ok (_, true) ∧ _] => assert (fills s p pg f fr r) as Hfill end.
  { destruct (Z.eqb_spec (psector pg) NO_SECTOR) as [Hsec|Hsec]; cbn [negb]; [|by apply fill_swap].
    destruct (pfile pg) eqn:Hh; [by apply fill_file|by apply fill_zero]. }
  destruct Hfill as (m & x & d & b & -> & Hm8 & Hout & Hx & Hsw & Hst & Hc).
  eexists. exists fr'. split; [done|]. split_and!.
  - by apply loaded_machine with (pg := pg).
  - eapply same_contents_trans; [exact Hc0|]. by apply loaded_contents with (pg := pg).
  - split_and!; [apply lookup_insert_eq|done|exact Hf2|done].
  - done.
  - done.
  - intros pd v Hpd Hv HP. apply (HP0 pd v Hpd Hv). rewrite <- HP. f_equal. symmetry.
    apply (data_write (mm s) pds (base fr) m); [apply Hs|by eapply mc_base|done..].
Qed.

(** The page [p] of the running process [t] holds the address [a]. *)
Definition my_page (s : vm) (t : process) (a p : Z) (pg : page) : Prop :=
  procs s !! cur s = Some t ∧ (∃ tbl, ptable t = Some tbl ∧ tbl !! pg_round_down a = Some p) ∧
  pages s !! p = Some pg ∧ addr pg = pg_round_down a ∧ thread pg = cur s.

Lemma page_for_addr_found s t a p pg : my_page s t a p pg → a < PHYS_BASE → page_for_addr s a = Ok (s, p).
Proof.
  intros (Ht & (tbl & Htb & Hp) & _) Ha. unfold page_for_addr, my_pages. rewrite (proj2 (Z.ltb_lt a _)) by done.
  rewrite Ht. cbn [deref mbind res_bind]. rewrite Htb. cbn [deref mbind res_bind]. by rewrite Hp.
Qed.

(** [pagedir_set_page] for a page in a frame. *)
Lemma install_spec s t p pg f fr : machine s → in_locked_frame s p pg f fr → procs s !! cur s = Some t →
  thread pg = cur s → pagedir t ≠ ipd → xlate (entry (mm s) (pagedir t) (addr pg)) = None →
  ∃ m ok, install ipd ram s pg fr = Ok (set_mm m s, ok) ∧ machine (set_mm m s) ∧ same_contents s (set_mm m s) ∧
    if ok : bool then entry m (pagedir t) (addr pg) = user_pte (base fr) (negb (read_only pg))
    else out_of_pages (pal m) Kernel 1.
Proof.
  intros Hs (Hp & Hpf & Hf & _) Ht Hth Hipd Hx. destruct (mc_page _ Hs p pg Hp) as [[Ha Hal] (t' & Ht' & Hpd) _ _].
  rewrite Hth, Ht in Ht'. injection Ht' as <-. destruct (mc_base _ Hs f fr Hf) as ((Hb1 & Hb2 & Hb3 & _) & _).
  unfold install, my_dir. rewrite Ht. cbn [deref mbind res_bind].
  pose proof (set_page_spec ipd ram (mm s) pds (pagedir t) (addr pg) (base fr) (negb (read_only pg))
    (mc_mm _ Hs) Hpd Hipd Ha Hal Hb1 ltac:(lia) (mc_ram _ Hs f fr Hf)) as Hspec. rewrite Hx in Hspec.
  destruct Hspec as [[Hset Ho]|(m & Hset & [Hinv Hent] & Hc & _)].
  - rewrite Hset. exists (mm s), false. split; [done|]. destruct (machine_mm s (mm s) Hs (mc_mm _ Hs)) as [Hm Hco];
      [apply same_data_refl|done|]. by split_and!.
  - pose proof (set_page_data _ _ _ _ _ _ _ _ _ _ (mc_mm _ Hs) Hpd Ha Hset) as Hd.
    rewrite Hset. exists m, true. split; [done|]. destruct (machine_mm s m Hs Hinv Hd Hc) as [Hm Hco].
    split_and!; [done|done|]. by rewrite Hent, !Z.eqb_refl.
Qed.

(** The page is in memory and in the page table, with its rights and with the
    contents that it has in [c]; or there is no memory for a page table. *)
Definition faulted (c : vm) (t : process) (p : Z) (pg : page) (r : res (vm * bool)) : Prop :=
  ∃ s' ok, r = Ok (s', ok) ∧ machine s' ∧ same_contents c s' ∧
    if ok : bool then ∃ k, space (mm s') (pagedir t) (addr pg) = Some (k, negb (read_only pg)) ∧
      ∀ j, 0 ≤ j < 4096 → memory_of s' (k + j) = contents c p j
    else out_of_pages (pal (mm s')) Kernel 1.

Lemma page_in_start sleep s0 t0 s a p pg : procs s0 !! cur s0 = Some t0 → ptable t0 ≠ None →
  page_for_addr s0 a = Ok (s, p) → p ≠ 0 → pages s !! p = Some pg → pframe pg = None →
  page_in ipd ram sleep s0 a = (
    '(s, ok) ← do_page_in ipd sleep s p;
    if negb ok then Ok (s, false) else
    pg ← get_page s p;
    '(f, fr) ← page_frame s pg;
    _ ← ASSERT (lock_held (cur s) (lock fr));
    '(s, ok) ← install ipd ram s pg fr;
    s ← frame_unlock s f;
    Ok (s, ok)).
Proof.
  intros Ht0 Htb0 Hfor H0 Hp Hpf. unfold page_in. rewrite Ht0. cbn [deref]. rewrite ok_bind, bool_decide_eq_false_2 by congruence.
  rewrite Hfor, ok_bind, (proj2 (Z.eqb_neq p 0)) by done. unfold frame_lock.
  rewrite (get_page_ok s p pg Hp), ok_bind, Hpf, ok_bind, (get_page_ok s p pg Hp), ok_bind, Hpf, bool_decide_eq_true_2 by done. done.
Qed.

Lemma page_in_at sleep c s0 t0 s t a p pg s1 f fr : procs s0 !! cur s0 = Some t0 → ptable t0 ≠ None →
  page_for_addr s0 a = Ok (s, p) → machine s → my_page s t a p pg → pframe pg = None →
  xlate (entry (mm s) (pagedir t) (addr pg)) = None → pagedir t ≠ ipd →
  frame_alloc_and_lock ipd sleep s p = Ok (taken s1 p f fr, Some f) → vacated c s s1 f fr →
  faulted c t p pg (page_in ipd ram sleep s0 a).
Proof.
  intros Ht0 Htb0 Hfor Hs Hmy Hpf Hx Hipd Hal Hva. pose proof Hmy as (Ht & (tbl & Htb & Htp) & Hp & Had & Hth).
  rewrite (page_in_start sleep s0 t0 s a p pg) by (done || intros ->; by rewrite (mc_null _ Hs) in Hp).
  destruct (do_page_in_spec sleep c s s1 f fr p pg Hp Hpf Hal Hva) as (s2 & fr' & -> & Hs1 & Hc1 & Hfr & Hpr & Hcur & Hent).
  clear Hal Hva s1 fr. rename s2 into s1, fr' into fr.
  cbn [mbind res_bind negb]. set (pg1 := with_sector _ _) in *. pose proof Hfr as (Hp1 & Hpf1 & Hf1 & Hl1).
  destruct (mc_page _ Hs p pg Hp) as [[Hu Hal] (t' & Ht' & Hpd) _ _]. rewrite Hth, Ht in Ht'. injection Ht' as <-.
  rewrite (get_page_ok s1 p pg1 Hp1). cbn [mbind res_bind].
  unfold page_frame. rewrite Hpf1. cbn [deref mbind res_bind]. rewrite (get_frame_ok s1 f fr Hf1). cbn [mbind res_bind].
  unfold lock_held. rewrite Hl1, bool_decide_eq_true_2 by done. cbn [ASSERT mbind res_bind].
  destruct (install_spec s1 t p pg1 f fr Hs1 Hfr) as (m & ok & -> & Hs2 & Hc2 & Hok);
    [by rewrite Hpr, Hcur|by rewrite Hcur|done| |].
  { unfold xlate in *. destruct (flag (entry (mm s1) _ _) PTE_P) eqn:E; [|done]. rewrite (Hent _ _ Hpd Hu E) in Hx. done. }
  cbn [mbind res_bind].
  unfold frame_unlock. rewrite (get_frame_ok (set_mm m s1) f fr Hf1). cbn [mbind res_bind].
  unfold lock_held. rewrite Hl1, bool_decide_eq_true_2 by done. cbn [ASSERT mbind res_bind].
  change (cur (set_mm m s1)) with (cur s1). rewrite lock_release_ok. cbn [mbind res_bind].
  destruct (set_frame (set_mm m s1) f fr None (fpage fr) Hs2 Hf1 (or_introl eq_refl)) as [Hs3 Hc3].
  assert (same_contents c (put_frame f (Frame None (base fr) (fpage fr)) (set_mm m s1))) as Hc.
  { by eapply same_contents_trans, same_contents_trans. }
  eexists _, ok. split; [done|]. split_and!; [done|done|]. destruct ok.
  - exists (base fr). destruct (mc_base _ Hs1 f fr Hf1) as ((Hb1 & Hb2 & Hb3 & _) & _). split.
    + unfold space. cbn. change (addr pg) with (addr pg1). rewrite Hok. by apply pte_create_user_eq; [|lia].
    + intros j Hj. rewrite <- Hc by done. unfold contents. cbn [put_frame set_frames set_mm pages frames].
      rewrite Hp1, Hpf1, list_lookup_insert_eq by (by eapply lookup_lt_Some). done.
  - exact Hok.
Qed.


Lemma page_in_err sleep s t a p pg e : machine s → my_page s t a p pg → a < PHYS_BASE → pframe pg = None →
  frame_alloc_and_lock ipd sleep s p = Err e → page_in ipd ram sleep s a = Err e.
Proof.
  intros Hs Hmy Ha Hpf Hal. pose proof Hmy as (Ht & (tbl & Htb & _) & Hp & _).
  rewrite (page_in_start sleep s t s a p pg); [|done|congruence|by eapply page_for_addr_found| |done|done].
  - unfold do_page_in. by rewrite Hal.
  - intros ->. by rewrite (mc_null _ Hs) in Hp.
Qed.

(** *** The stack grows *)

(** [malloc] gives the next address, which no page has. *)
Definition heap_ok (s : vm) : Prop := 0 < next_page s ∧ (∀ p, next_page s ≤ p → pages s !! p = None) ∧
  head (mallocs s) ≠ Some false.

Lemma alloc_page_ok s pg : heap_ok s → alloc_page s pg =
  (set_heap (next_page s + 1) (tail (mallocs s)) (set_pages (<[next_page s := pg]> (pages s)) s), next_page s).
Proof. intros (_ & _ & H). unfold alloc_page. by destruct (mallocs s) as [|[] l]. Qed.

(** What [page_allocate] makes for the address [a]. *)
Definition fresh_page (s : vm) (a : Z) (ro : bool) : page :=
  Page (pg_round_down a) ro (cur s) None NO_SECTOR (negb ro) None 0 0.

(** The state with a new page [pg] of the running process [t]. *)
Definition added (s : vm) (t : process) (tbl : gmap Z Z) (pg : page) : vm :=
  set_procs (<[cur s := Process (pagedir t) (Some (<[addr pg := next_page s]> tbl)) (user_esp t)]> (procs s))
    (set_heap (next_page s + 1) (tail (mallocs s))
      (set_pages (<[next_page s := pg]> (pages s)) s)).

Lemma page_allocate_spec s t tbl a ro : procs s !! cur s = Some t → ptable t = Some tbl → heap_ok s →
  page_allocate s a ro =
    match tbl !! pg_round_down a with
    | Some _ => Ok (set_heap (next_page s + 1) (tail (mallocs s)) s, 0)
    | None => Ok (added s t tbl (fresh_page s a ro), next_page s)
    end.
Proof.
  intros Ht Htb Hheap. pose proof Hheap as (Hn & Hf & _). unfold page_allocate. rewrite alloc_page_ok by done.
  rewrite (proj2 (Z.eqb_neq (next_page s) 0)) by lia. cbn [negb]. unfold my_pages. cbn [set_heap set_pages procs cur].
  rewrite Ht. cbn [deref mbind res_bind]. rewrite Htb. cbn [deref mbind res_bind]. destruct (tbl !! pg_round_down a).
  - unfold free_page. cbn [set_heap set_pages pages]. rewrite delete_insert_id by (apply Hf; lia). by destruct s.
  - unfold set_my_pages. cbn [set_heap set_pages procs cur]. by rewrite Ht.
Qed.

Lemma page_for_addr_grows s t tbl a : procs s !! cur s = Some t → ptable t = Some tbl → tbl !! pg_round_down a = None →
  heap_ok s → PHYS_BASE - STACK_MAX < a < PHYS_BASE → 32 ≤ user_esp t < 2 ^ 32 → user_esp t - 32 < a →
  page_for_addr s a = Ok (added s t tbl (fresh_page s a false), next_page s).
Proof.
  intros Ht Htb Hno Hheap Ha Hesp Hea. unfold page_for_addr. rewrite (proj2 (Z.ltb_lt a _)) by lia.
  unfold my_pages. rewrite Ht. cbn [deref mbind res_bind]. rewrite Htb. cbn [deref mbind res_bind]. rewrite Hno.
  rewrite u32_small by (split; lia). rewrite (proj2 (Z.ltb_lt (PHYS_BASE - STACK_MAX) a)), (proj2 (Z.ltb_lt (user_esp t - 32) a)) by lia.
  cbn [andb]. assert (pg_round_down (pg_round_down a) = pg_round_down a) as Hrr.
  { assert (is_u32 a) by (unfold PHYS_BASE, STACK_MAX in *; c_lia). rewrite (pg_round_down_eq a) by done.
    rewrite pg_round_down_eq by c_lia. by rewrite Z.div_mul. }
  rewrite (page_allocate_spec s t tbl) by done. unfold fresh_page. by rewrite Hrr, Hno.
Qed.

Section grow.
Context (s : vm) (t : process) (tbl : gmap Z Z) (pg : page).
Context (Hs : machine s) (Ht : procs s !! cur s = Some t) (Hpd : pagedir t ∈ pds) (Hheap : heap_ok s)
  (Ha : 0 ≤ addr pg < PHYS_BASE ∧ addr pg mod 4096 = 0) (Hth : thread pg = cur s) (Hpf : pframe pg = None)
  (Hsec : psector pg = NO_SECTOR) (Hfile : ∀ h, pfile pg = Some h → file_ok s pg h).
Abbreviation s' := (added s t tbl pg).

Lemma added_pages q qg : pages s' !! q = Some qg → q = next_page s ∧ qg = pg ∨ q ≠ next_page s ∧ pages s !! q = Some qg.
Proof using Type.
  cbn. intros [[-> <-]|[? ?]]%lookup_insert_Some; [by left|]. right. by split.
Qed.

Lemma added_other q j : q ≠ next_page s → contents s' q j = contents s q j.
Proof using Type.
  apply (contents_other s _ (next_page s)); try done; intros r Hr; unfold swapped; cbn; by rewrite lookup_insert_ne.
Qed.

Lemma added_new j : contents s' (next_page s) j = backing s pg j.
Proof using Hpf Hsec.
  unfold contents, swapped, s'. cbn [set_procs set_heap set_pages pages swap_device].
  rewrite lookup_insert_eq, Hpf, Hsec. by destruct (swap_device s).
Qed.

Lemma added_machine : machine s'.
Proof using Hs Ht Hpd Hheap Ha Hth Hpf Hsec Hfile.
  destruct Hheap as (Hn & Hfree & _). destruct Hs as [H1 H2 (d & Hd & Hsa) H4 H5 H6 H7 H8 H9 H10 H11]. split; try done.
  - exists d. split; [done|]. destruct Hsa as [A1 A2 A3 A4 A5 A6]. split; try done.
    + intros q qg [[-> ->]|[? ?]]%added_pages; [done|by apply (A5 q)].
    + intros q r qg rg [[-> ->]|[? ?]]%added_pages; [done|]. intros [[-> ->]|[? ?]]%added_pages Hne Heq; [by rewrite Heq in Hne|].
      by eapply A6.
  - assert (∀ u x, procs s !! u = Some x → ∃ x', procs s' !! u = Some x' ∧ pagedir x' = pagedir x) as Hproc.
    { intros u x Hu. cbn. destruct (decide (u = cur s)) as [->|]; [|rewrite lookup_insert_ne by done; by eexists].
      rewrite lookup_insert_eq. eexists. split; [done|]. cbn. congruence. }
    intros q qg [[-> ->]|[_ Hq]]%added_pages.
    + split; [done| |done|exact Hfile]. rewrite Hth. destruct (Hproc _ _ Ht) as (x & ? & Hx). exists x. by rewrite Hx.
    + destruct (H8 q qg Hq) as [P1 (x & Hx & Hxp) P3 P4]. split; try done.
      destruct (Hproc _ _ Hx) as (x' & ? & Hx'). exists x'. by rewrite Hx'.
  - intros q qg f [[-> ->]|[_ Hq]]%added_pages Hf; [congruence|by eapply H9].
  - cbn. rewrite lookup_insert_ne by lia. done.
Qed.

Lemma added_evictable : evictable s → evictable s'.
Proof using Ht Hheap.
  destruct Hheap as (_ & Hfree & _). intros Hev f fr Hf Hl Hfp. destruct (Hev f fr Hf Hl Hfp) as (qg & Hq & Hqf & Hk).
  exists qg. assert (fpage fr ≠ next_page s) by (intros E; rewrite E, Hfree in Hq; [done|lia]).
  split_and!; [cbn; by rewrite lookup_insert_ne|done|].
  assert (dirty s' qg = dirty s qg) as Hd.
  { unfold dirty. cbn. destruct (decide (thread qg = cur s)) as [->|]; [|by rewrite lookup_insert_ne].
    by rewrite lookup_insert_eq, Ht. }
  unfold kept. rewrite Hd. exact Hk.
Qed.

Lemma added_mine a : addr pg = pg_round_down a →
  my_page s' (Process (pagedir t) (Some (<[addr pg := next_page s]> tbl)) (user_esp t)) a (next_page s) pg.
Proof using Hth.
  intros Ea. split_and!; cbn; try done; [by rewrite lookup_insert_eq|eexists; rewrite <- Ea; by rewrite lookup_insert_eq|by rewrite lookup_insert_eq].
Qed.
End grow.

Lemma stack_page_addr s a : PHYS_BASE - STACK_MAX < a < PHYS_BASE →
  0 ≤ addr (fresh_page s a false) < PHYS_BASE ∧ addr (fresh_page s a false) mod 4096 = 0.
Proof.
  intros Ha. assert (is_u32 a) by (unfold PHYS_BASE, STACK_MAX in *; c_lia). cbn. rewrite pg_round_down_eq by done.
  unfold PHYS_BASE, STACK_MAX in *. c_lia.
Qed.

(** An anonymous page starts as zeros. *)
Lemma added_contents s t tbl pg : heap_ok s → pframe pg = None → psector pg = NO_SECTOR → pfile pg = None →
  same_contents s (added s t tbl pg).
Proof.
  intros (_ & Hfree & _) Hpf Hsec Hno q j Hj. destruct (decide (q = next_page s)) as [->|Hq]; [|by apply added_other].
  rewrite added_new by done. unfold contents, backing. rewrite (Hfree (next_page s)) by lia. by rewrite Hno.
Qed.

(** A page fault just below the stack. *)
Lemma stack_growth_spec sleep s t tbl a : machine s → procs s !! cur s = Some t → ptable t = Some tbl →
  tbl !! pg_round_down a = None → pagedir t ∈ pds → pagedir t ≠ ipd → heap_ok s →
  PHYS_BASE - STACK_MAX < a < PHYS_BASE → 32 ≤ user_esp t < 2 ^ 32 → user_esp t - 32 < a →
  xlate (entry (mm s) (pagedir t) (pg_round_down a)) = None → no_frame_held s → scan_lock s = None → can_alloc s →
  ∃ s' ok, page_in ipd ram sleep s a = Ok (s', ok) ∧ machine s' ∧ same_contents s s' ∧
    if ok : bool then ∃ k, space (mm s') (pagedir t) (pg_round_down a) = Some (k, true) ∧
      ∀ j, 0 ≤ j < 4096 → memory_of s' (k + j) = 0
    else out_of_pages (pal (mm s')) Kernel 1.
Proof.
  intros Hs Ht Htb Hno Hpd Hipd Hheap Ha Hesp Hea Hx Hnf Hsl Hcan.
  pose proof (stack_page_addr s a Ha) as Hpa. set (pg := fresh_page s a false) in *.
  assert (same_contents s (added s t tbl pg)) as Hc by (by apply added_contents).
  pose proof (added_machine s t tbl pg Hs Ht Hpd Hheap Hpa eq_refl eq_refl eq_refl ltac:(done)) as Hs1.
  destruct (frame_alloc_spec sleep (added s t tbl pg) (next_page s) Hs1 Hnf Hsl) as (s1 & f & fr & Hal & Hva).
  { destruct Hcan as [?|(? & Hev & ?)]; [by left|]. right.
    split; [done|]. split; [by apply added_evictable|done]. }
  destruct (page_in_at sleep (added s t tbl pg) s t (added s t tbl pg) _ a (next_page s) pg s1 f fr Ht ltac:(congruence)
    (page_for_addr_grows s t tbl a Ht Htb Hno Hheap Ha Hesp Hea) Hs1
    (added_mine s t tbl pg eq_refl a eq_refl)) as (s' & ok & -> & Hs' & Hc' & Hok); try done.
  exists s', ok. split_and!; [done|done|by eapply same_contents_trans|]. destruct ok; [|done].
  destruct Hok as (k & Hk & Hz). exists k. split; [done|]. intros j Hj. rewrite Hz, Hc by done.
  unfold contents. destruct Hheap as (_ & -> & _); [done|lia].
Qed.

End paging.
