(* ===== verification/AddressSpace.v ===== *)
(** * The address spaces of a running system

    userprog/pagedir.c over a whole run: page directories are created and
    destroyed, pages are mapped and unmapped in them, the processor caches
    translations and sets bits in the entries, and the rest of the kernel
    allocates, frees and writes the other pages of the pools in threads/palloc.c.
    The state is the list of the directories and the machine. *)

From S2P Require Import Prelude Vaddr Palloc Pagedir VmPaging.

(** The pages of the page tables. *)
Definition table_page (s : mmu) (pds : list Z) (b : Z) : Prop :=
  b ∈ pds ∨ ∃ pd i, pd ∈ pds ∧ 0 ≤ i < 768 ∧ pde s pd i ≠ 0 ∧ b = pt_of (pde s pd i).

Section system.
Context (ipd ram : Z).

Inductive space_step : list Z * mmu → list Z * mmu → Prop :=
  | sp_vm pds s s' : vm_step ipd ram pds s s' → space_step (pds, s) (pds, s')
  | sp_create pds s s' pd : pagedir_create ipd s = Ok (s', pd) → space_step (pds, s) (if pd =? 0 then pds else pd :: pds, s')
  (** [process_exit] switches to the kernel's directory first. *)
  | sp_destroy pds s s' pd : pd ∈ pds → cr3 s + PHYS_BASE ≠ pd → pagedir_destroy ipd s pd = Ok s' →
      space_step (pds, s) (filter (λ x, x ≠ pd) pds, s')
  | sp_get pds s p flags n a : 0 < n < 2 ^ 32 → palloc_get_multiple (pal s) flags n = Ok (p, a) →
      space_step (pds, s) (pds, Mmu p (cr3 s) (tlb s))
  (** What is freed and written elsewhere are not page tables. *)
  | sp_free pds s p i a n : 0 < n → pages_in (pal s) i a n →
      (∀ b, table_page s pds b → b + 4096 ≤ a ∨ a + 4096 * n ≤ b) → palloc_free_multiple (pal s) a n = Ok p →
      space_step (pds, s) (pds, Mmu p (cr3 s) (tlb s))
  | sp_store pds s m : (∀ k, is_u8 (m k)) →
      (∀ b k, table_page s pds b → b ≤ k < b + 4096 → m k = mem (pal s) k) →
      space_step (pds, s) (pds, Mmu (set_mem (pal s) m) (cr3 s) (tlb s)).

(** The machine with the kernel's directory alone, which maps no user page. *)
Record booted (s : mmu) : Prop := {
  bo_inv : vm_inv s [ipd];
  bo_user i : 0 ≤ i < 768 → pde s ipd i = 0;
  bo_cr3 : cr3 s = ipd - PHYS_BASE;
  bo_tlb : tlb s = [];
}.

Record spaces_ok (pds : list Z) (s : mmu) : Prop := {
  so_safe : safe ram pds s;
  so_kernel : ipd ∈ pds;
  so_user i : 0 ≤ i < 768 → pde s ipd i = 0;
}.

(** ** Pages of tables that stay as they are *)

Lemma same_page_word m m' b i : (∀ k, b ≤ k < b + 4096 → m' k = m k) → 0 ≤ i < 1024 → rd32 m' (b + 4 * i) = rd32 m (b + 4 * i).
Proof. intros H Hi. unfold rd32. by rewrite !H by lia. Qed.

Lemma tables_kept s p pds c t : vm_inv s pds → palloc_wf p → (∀ k, is_u8 (mem p k)) →
  (∀ b, table_page s pds b → kpage s b → page_used p (b / 4096) = true ∧ ∀ k, b ≤ k < b + 4096 → mem p k = mem (pal s) k) →
  let s' := Mmu p c t in
  vm_inv s' pds ∧ (∀ pd i, pd ∈ pds → 0 ≤ i < 768 → pde s' pd i = pde s pd i) ∧
  ∀ pd v, pd ∈ pds → 0 ≤ v < PHYS_BASE → entry s' pd v = entry s pd v.
Proof using Type.
  intros Hs Hp H8 Hk s'.
  assert (∀ b, table_page s pds b → kpage s b → kpage s' b) as Hpage.
  { intros b Hb (H1 & H2 & H3 & H4). split_and!; try done. by apply Hk. }
  assert (∀ pd i, pd ∈ pds → 0 ≤ i < 768 → pde s' pd i = pde s pd i) as Hpde.
  { intros pd i Hpd Hi. apply same_page_word; [|lia]. apply Hk; [by left|by apply Hs]. }
  split_and!; [|done|].
  - destruct Hs as [_ _ H3 H4 H5]. split; [done|done| | |].
    + intros pd Hpd. apply Hpage; [by left|by apply H3].
    + intros pd i Hpd Hi. rewrite Hpde by done. intros Hne. destruct (H4 pd i Hpd Hi Hne) as (T1 & T2 & T3).
      split_and!; [done|apply Hpage; [right; by exists pd, i|done]|done].
    + intros pd i pd' i' H H' Hi Hi'. rewrite !Hpde by done. by apply H5.
  - intros pd v Hpd Hv. destruct (user_index v Hv) as (Hi & Hj & _). unfold entry, slot. rewrite Hpde by done.
    destruct (Z.eqb_spec (pde s pd (pd_no v)) 0) as [|E]; [done|]. case_match; [done|].
    destruct (vm_tables _ _ Hs pd _ Hpd Hi E) as (_ & T2 & _). apply same_page_word; [|done].
    apply Hk; [right; by exists pd, (pd_no v)|done].
Qed.

Lemma safe_same pds s s' : safe ram pds s → vm_inv s' pds → cr3 s' = cr3 s → tlb s' = tlb s →
  (∀ pd v, pd ∈ pds → 0 ≤ v < PHYS_BASE → entry s' pd v = entry s pd v) → safe ram pds s'.
Proof using Type.
  intros [[_ T2 [T3 T4]] Hc] Hi Ec Et He. split.
  - split; [done| |by rewrite Ec]. intros pd v Hpd Hv. rewrite He by done. by apply T2.
  - intros v e Hv. rewrite Et in Hv. destruct (Hc v e Hv) as (Hr & Hx & Hn). rewrite Ec, He by done. done.
Qed.

Lemma kept_spaces pds s p : spaces_ok pds s → palloc_wf p → (∀ k, is_u8 (mem p k)) →
  (∀ b, table_page s pds b → kpage s b → page_used p (b / 4096) = true ∧ ∀ k, b ≤ k < b + 4096 → mem p k = mem (pal s) k) →
  spaces_ok pds (Mmu p (cr3 s) (tlb s)).
Proof using Type.
  intros [Hs Hk Hu] Hp H8 Hkeep. destruct (tables_kept s p pds (cr3 s) (tlb s) (ty_inv _ _ _ (proj1 Hs)) Hp H8 Hkeep) as (Hi & Hpde & He).
  split; [by apply (safe_same pds s)|done|]. intros i Hi'. rewrite Hpde by done. by apply Hu.
Qed.

(** ** The user half of the kernel's directory stays empty *)

(** Fewer directories. *)
Lemma vm_inv_fewer s pds pds' : (∀ x, x ∈ pds' → x ∈ pds) → vm_inv s pds → vm_inv s pds'.
Proof using Type.
  intros Hsub [H1 H2 H3 H4 H5]. split; [done|done|auto| |eauto].
  intros pd i Hpd Hi Hne. destruct (H4 pd i (Hsub _ Hpd) Hi Hne) as (T1 & T2 & T3). split_and!; [done|done|]. auto.
Qed.

(** For the other directories, the kernel's one is a page like any other. *)
Lemma kernel_data pds s : vm_inv s pds → ipd ∈ pds → data_page s (filter (λ x, x ≠ ipd) pds) ipd.
Proof using Type.
  intros Hs Hk. split_and!; [by apply Hs|by intros [? _]%list_elem_of_filter|].
  intros pd i [_ Hpd]%list_elem_of_filter Hi Hne E. destruct (vm_tables _ _ Hs pd i Hpd Hi Hne) as (_ & _ & Hnot). by rewrite E in Hnot.
Qed.

Lemma kernel_kept pds s s' : vm_inv s pds → ipd ∈ pds → (∀ i, 0 ≤ i < 768 → pde s ipd i = 0) →
  same_data s s' (filter (λ x, x ≠ ipd) pds) → ∀ i, 0 ≤ i < 768 → pde s' ipd i = 0.
Proof using Type.
  intros Hs Hk Hu Hd i Hi. rewrite <- (Hu i Hi). apply same_page_word; [|lia]. by apply Hd, kernel_data.
Qed.

Lemma kernel_slot s v : 0 ≤ v < PHYS_BASE → (∀ i, 0 ≤ i < 768 → pde s ipd i = 0) → slot s ipd v = 0.
Proof using Type. intros Hv Hu. destruct (user_index v Hv) as (Hi & _). unfold slot. by rewrite Hu. Qed.

(** The operations on one entry write that entry at most. *)
Definition one_entry (s s' : mmu) (pd v : Z) : Prop :=
  s' = s ∨ slot s pd v ≠ 0 ∧ ∃ e, pal s' = pal (store_word s (slot s pd v) e).

Lemma invalidate_pal s s' pd : invalidate_pagedir ipd s pd = Ok s' → pal s' = pal s.
Proof using Type. unfold invalidate_pagedir, pagedir_activate. intros H. inv_res. case_match; by inv_res. Qed.

Lemma entry_ops pds s s' pd u b : vm_inv s pds → pd ∈ pds → 0 ≤ u < PHYS_BASE →
  pagedir_clear_page ipd s pd u = Ok s' ∨ pagedir_set_dirty ipd s pd u b = Ok s' ∨ pagedir_set_accessed ipd s pd u b = Ok s' →
  one_entry s s' pd u.
Proof using Type.
  intros Hs Hpd Hu H. unfold one_entry.
  assert (∀ e, invalidate_pagedir ipd (store_word s (slot s pd u) e) pd = Ok s' → pal s' = pal (store_word s (slot s pd u) e)) as Hinv
    by (intros e; apply invalidate_pal).
  destruct H as [H|H].
  - unfold pagedir_clear_page in H. apply bind_ok in H as (_ & _ & H). apply bind_ok in H as (_ & _ & H).
    rewrite (lookup_false s pds), ok_bind in H by done.
    destruct (Z.eqb_spec (slot s pd u) 0); cbn [negb andb] in H; [left; by injection H|].
    destruct (flag _ PTE_P); [right|left; by injection H]. eauto.
  - unfold pagedir_set_dirty, pagedir_set_accessed in H. rewrite (lookup_false s pds), !ok_bind in H by done.
    destruct (Z.eqb_spec (slot s pd u) 0); cbn [negb] in H; [left; by destruct H as [H|H]; injection H|right].
    split; [done|]. destruct b, H as [H|H]; [injection H as <-; by eexists..|eauto|eauto].
Qed.

Lemma entry_kernel pds s s' pd u : vm_inv s pds → ipd ∈ pds → (∀ i, 0 ≤ i < 768 → pde s ipd i = 0) →
  pd ∈ pds → 0 ≤ u < PHYS_BASE → one_entry s s' pd u → ∀ i, 0 ≤ i < 768 → pde s' ipd i = 0.
Proof using Type.
  intros Hs Hk Hu Hpd Hv [->|[Hne [e He]]]; [done|]. apply (kernel_kept pds s); [done..|]. eapply same_data_pal; [exact He|].
  apply store_data; [by eapply vm_inv_fewer, Hs; intros x [_ ?]%list_elem_of_filter|apply list_elem_of_filter|done|done].
  split; [|done]. intros ->. by rewrite kernel_slot in Hne.
Qed.

Lemma vm_step_kernel pds s s' : spaces_ok pds s → vm_step ipd ram pds s s' → ∀ i, 0 ≤ i < 768 → pde s' ipd i = 0.
Proof using Type.
  intros [[Hty _] Hk Hu] H. pose proof (ty_inv _ _ _ Hty) as Hs. destruct (ty_cr3 _ _ _ Hty) as [_ Hcr].
  destruct H as [? ? pd u k w b Hpd Hv Hr H|? ? pd u Hpd Hv H|? ? pd u b Hpd Hv H|? ? pd u b Hpd Hv H|? s' pd Hpd H|s u Hv HP|s u f Hv Hf HP].
  - assert (pd ≠ ipd) as Hne by (unfold pagedir_set_page in H; inv_res; intros ->; by rewrite Z.eqb_refl in *).
    apply (kernel_kept pds s); [done..|]. eapply set_page_data; [|by apply list_elem_of_filter|done|exact H].
    by eapply vm_inv_fewer, Hs; intros x [_ ?]%list_elem_of_filter.
  - apply (entry_kernel pds s _ pd u); [done..|]. apply (entry_ops pds s s' pd u false); [done..|]. by left.
  - apply (entry_kernel pds s _ pd u); [done..|]. apply (entry_ops pds s s' pd u b); [done..|]. right. by left.
  - apply (entry_kernel pds s _ pd u); [done..|]. apply (entry_ops pds s s' pd u b); [done..|]. by right; right.
  - assert (pal s' = pal s) as E by (unfold pagedir_activate in H; by inv_res). intros i Hi. unfold pde, word. rewrite E. by apply Hu.
  - exact Hu.
  - apply (entry_kernel pds s _ (cr3 s + PHYS_BASE) u); [done..|]. right. split; [|by eexists].
    intros E. unfold entry in HP. by rewrite E in HP.
Qed.

(** ** Every step *)

Lemma create_spaces pds s s' pd : spaces_ok pds s → pagedir_create ipd s = Ok (s', pd) →
  spaces_ok (if pd =? 0 then pds else pd :: pds) s'.
Proof using Type.
  intros [[Hty Hco] Hk Hu] H. pose proof (ty_inv _ _ _ Hty) as Hs.
  destruct (create_spec ipd s pds Hs Hk Hu) as [[E _]|(s1 & pd1 & E & H0 & Hn & Hi & Hc & Ht & _ & Hz & Hnew & Hold)]; rewrite E in H; injection H as <- <-.
  { by split. }
  rewrite (proj2 (Z.eqb_neq pd1 0)) by done. split; [|by right|done].
  destruct Hty as [_ T2 [T3 T4]]. split.
  - split; [done| |].
    + intros p v [->|Hp]%elem_of_cons Hv; [by rewrite Hnew|]. rewrite Hold by done. by apply T2.
    + rewrite Hc. split; [done|by right].
  - intros v e Hv. rewrite Ht in Hv. destruct (Hco v e Hv) as (Hr & Hx & Hne). by rewrite Hc, Hold.
Qed.

Lemma destroy_spaces pds s s' pd : spaces_ok pds s → pd ∈ pds → cr3 s + PHYS_BASE ≠ pd → pagedir_destroy ipd s pd = Ok s' →
  spaces_ok (filter (λ x, x ≠ pd) pds) s'.
Proof using Type.
  intros [[Hty Hco] Hk Hu] Hpd Hcr H. pose proof (ty_inv _ _ _ Hty) as Hs. destruct Hty as [_ T2 [T3 T4]].
  set (rest := filter (λ x, x ≠ pd) pds). assert (∀ x, x ∈ rest ↔ x ∈ pds ∧ x ≠ pd) as Hrest by (intros x; unfold rest; rewrite list_elem_of_filter; tauto).
  assert (pd ≠ ipd) as Hne.
  { unfold pagedir_destroy in H. destruct (vm_dirs _ _ Hs pd Hpd) as (_ & Hlo & _). unfold PHYS_BASE in Hlo.
    rewrite (proj2 (Z.eqb_neq pd 0)) in H by lia. inv_res. intros ->. by rewrite Z.eqb_refl in *. }
  destruct (destroy_spec s rest pd) with (ipd := ipd) as (s1 & E & Hi & Hc & Ht & Hpde & He & _); [| |done|].
  { eapply vm_inv_fewer, Hs. intros x [->|[? _]%Hrest]%elem_of_cons; done. }
  { intros [_ ?]%Hrest. done. }
  rewrite E in H. injection H as <-. split.
  - split; [split; [done| |]|].
    + intros p v [Hp Hp']%Hrest Hv. rewrite He by (done || by apply Hrest). by apply T2.
    + rewrite Hc. split; [done|by apply Hrest].
    + intros v e Hv. rewrite Ht in Hv. destruct (Hco v e Hv) as (Hr & Hx & Hn). rewrite Hc, He by (done || by apply Hrest). done.
  - by apply Hrest.
  - intros i Hi'. rewrite Hpde by (done || by apply Hrest). by apply Hu.
Qed.

Lemma get_spaces pds s p flags n a : spaces_ok pds s → 0 < n < 2 ^ 32 → palloc_get_multiple (pal s) flags n = Ok (p, a) →
  spaces_ok pds (Mmu p (cr3 s) (tlb s)).
Proof using Type.
  intros Hok Hn H. pose proof (ty_inv _ _ _ (proj1 (so_safe _ _ Hok))) as Hs.
  destruct (palloc_get_spec (pal s) flags n (vm_pal _ _ Hs) Hn) as [[_ E]|(p1 & a1 & E & _ & [G1 _ G3 _ G5 G6] & Hm)]; rewrite E in H.
  { destruct (flag flags PAL_ASSERT); [done|]. injection H as <- <-. by destruct s. }
  injection H as <- <-. apply (kept_spaces pds s); [done|done| |].
  - intros k. rewrite Hm. destruct (flag flags PAL_ZERO); [unfold memset; case_match; [by vm_compute|]|]; apply Hs.
  - intros b _ (Hb & _ & _ & Hbu).
    assert (b / 4096 < a1 / 4096 ∨ a1 / 4096 + n ≤ b / 4096) as Hout.
    { destruct (decide (a1 / 4096 ≤ b / 4096 < a1 / 4096 + n)) as [Hin|]; [|lia]. rewrite (G5 _ Hin) in Hbu. done. }
    split.
    + rewrite (G6 (b / 4096)). by replace ((a1 / 4096 <=? b / 4096) && (b / 4096 <? a1 / 4096 + n)) with false by lia.
    + intros k Hk. rewrite Hm. destruct (flag flags PAL_ZERO); [|done]. unfold memset.
      pose proof (Z.div_mod b 4096). pose proof (Z.div_mod a1 4096).
      by replace ((a1 <=? k) && (k <? a1 + 4096 * n)) with false by lia.
Qed.

Lemma free_spaces pds s p i a n : spaces_ok pds s → 0 < n → pages_in (pal s) i a n →
  (∀ b, table_page s pds b → b + 4096 ≤ a ∨ a + 4096 * n ≤ b) → palloc_free_multiple (pal s) a n = Ok p →
  spaces_ok pds (Mmu p (cr3 s) (tlb s)).
Proof using Type.
  intros Hok Hn Hin Hout H. pose proof (ty_inv _ _ _ (proj1 (so_safe _ _ Hok))) as Hs.
  destruct (palloc_free_spec (pal s) i a n (vm_pal _ _ Hs) Hn Hin) as [[E _]|(_ & p1 & E & Hp & _ & Hf & Hm)]; rewrite E in H; [done|].
  injection H as <-. apply (kept_spaces pds s); [done|done| |].
  - intros k. rewrite Hm. unfold memset. case_match; [by vm_compute|apply Hs].
  - intros b Hb (Hba & _ & _ & Hbu). specialize (Hout b Hb). destruct Hin as (Ha & _). split.
    + rewrite (Hf (b / 4096)). pose proof (Z.div_mod b 4096). pose proof (Z.div_mod a 4096).
      by replace ((a / 4096 <=? b / 4096) && (b / 4096 <? a / 4096 + n)) with false by lia.
    + intros k Hk. rewrite Hm. unfold memset. by replace ((a <=? k) && (k <? a + 4096 * n)) with false by lia.
Qed.

Lemma space_step_ok pds s pds' s' : spaces_ok pds s → space_step (pds, s) (pds', s') → spaces_ok pds' s'.
Proof using Type.
  intros Hok H. inversion H; subst.
  - split; [by eapply (step_safe ipd ram pds' s); [apply Hok|]|apply Hok|by eapply vm_step_kernel].
  - by eapply create_spaces.
  - by eapply destroy_spaces.
  - by eapply get_spaces.
  - by eapply free_spaces.
  - apply kept_spaces; [done|apply wf_set_mem, (ty_inv _ _ _ (proj1 (so_safe _ _ Hok)))|done|].
    intros b Hb (_ & _ & _ & Hbu). split; [done|]. eauto.
Qed.

Lemma space_run_ok x y : rtc space_step x y → spaces_ok (fst x) (snd x) → spaces_ok (fst y) (snd y).
Proof using Type.
  induction 1 as [x|[pds s] [pds1 s1] z Hstep _ IH]; [done|]. intros Hok. apply IH. by eapply space_step_ok.
Qed.

Lemma booted_ok s : booted s → spaces_ok [ipd] s.
Proof using Type.
  intros [Hi Hu Hc Ht]. destruct (vm_dirs _ _ Hi ipd) as (_ & Hlo & _); [by left|]. split; [|by left|done]. split.
  - split; [done| |rewrite Hc; split; [lia|]; replace (ipd - PHYS_BASE + PHYS_BASE) with ipd by lia; by left].
    intros pd v ->%list_elem_of_singleton Hv. destruct (user_index v Hv) as (Hx & _). unfold entry, slot. by rewrite Hu.
  - intros v e Hv. rewrite Ht in Hv. by apply not_elem_of_nil in Hv.
Qed.
End system.

(** ** The theorem *)

(** C38. From the boot of the system on, through every creation and destruction of
    an address space, every change of a mapping, and whatever the rest of the
    kernel allocates, frees and stores outside of page tables, the page tables
    are well typed: each directory's entries point to page tables of its own
    that are in use, no two of them are shared, every present entry maps a page
    of physical memory for the user, and what the processor has cached are
    translations of the active directory. *)
Theorem vm_well_typed ipd ram s pds s' : booted ipd s → rtc (space_step ipd ram) ([ipd], s) (pds, s') →
  typed ram s' pds ∧ coherent s'.
Proof.
  intros Hb Hr. exact (so_safe _ _ _ _ (space_run_ok _ _ _ _ Hr (booted_ok ipd ram s Hb))).
Qed.

(** A process is created, maps a page and uses it; then it exits. *)
Definition demo_left : mmu := Mmu (pal demo_cached) (demo_ipd - PHYS_BASE) [].
Definition demo_gone : mmu := result demo_left (pagedir_destroy demo_ipd demo_left demo_pd).

Lemma demo_destroyed : pagedir_destroy demo_ipd demo_left demo_pd = Ok demo_gone.
Proof. apply result_ok. vm_compute. reflexivity. Qed.

Lemma demo_created : pagedir_create demo_ipd demo_kernel = Ok (demo_mmu, demo_pd).
Proof.
  rewrite (result_ok (demo_kernel, 0) (pagedir_create demo_ipd demo_kernel)) by (vm_compute; reflexivity).
  apply (f_equal Ok). apply surjective_pairing.
Qed.

Lemma vm_spaces pds s s' : rtc (vm_step demo_ipd 300 pds) s s' → rtc (space_step demo_ipd 300) (pds, s) (pds, s').
Proof. induction 1 as [|s s1 s2 H _ IH]; [constructor|]. eapply rtc_l; [by apply sp_vm|exact IH]. Qed.

Lemma demo_space_run : rtc (space_step demo_ipd 300) ([demo_ipd], demo_kernel) ([demo_pd; demo_ipd], demo_cached) ∧
  rtc (space_step demo_ipd 300) ([demo_pd; demo_ipd], demo_cached) ([demo_ipd], demo_gone).
Proof.
  assert (demo_pd ≠ demo_ipd) as Hne by (rewrite demo_pd_eq, demo_ipd_eq; discriminate). split.
  - eapply rtc_l; [exact (sp_create demo_ipd 300 [demo_ipd] demo_kernel demo_mmu demo_pd demo_created)|].
    rewrite (proj2 (Z.eqb_neq demo_pd 0)) by (rewrite demo_pd_eq; discriminate). apply vm_spaces, demo_cached_run.
  - eapply rtc_l; [apply (sp_vm _ _ _ _ demo_left), (step_activate _ _ _ _ _ demo_ipd); [by right; left|]|].
    { unfold pagedir_activate, demo_left. rewrite demo_ipd_eq. reflexivity. }
    apply rtc_once. pose proof (sp_destroy demo_ipd 300 [demo_pd; demo_ipd] demo_left demo_gone demo_pd) as H.
    rewrite filter_cons_False, filter_cons_True, filter_nil in H by (done || by intros []). apply H; [by left| |exact demo_destroyed].
    cbn [demo_left cr3]. intros E. apply Hne. lia.
Qed.

Lemma vm_well_typed_witness : typed 300 demo_cached [demo_pd; demo_ipd] ∧ coherent demo_cached ∧ typed 300 demo_gone [demo_ipd].
Proof.
  destruct demo_space_run as [R1 R2]. destruct demo_kernel_inv as (Hi & Hz & _).
  assert (booted demo_ipd demo_kernel) as Hb by (exact (Build_booted demo_ipd demo_kernel Hi Hz eq_refl eq_refl)).
  destruct (vm_well_typed demo_ipd 300 demo_kernel _ _ Hb R1) as [T1 C1].
  destruct (vm_well_typed demo_ipd 300 demo_kernel _ _ Hb (transitivity R1 R2)) as [T2 _].
  exact (conj T1 (conj C1 T2)).
Defined.
