(* ===== verification/VmProps.v ===== *)
(** * The theorems about vm/

    The frame table is set up, frames are found for pages, the swap area keeps
    what it is given, and a page fault shows the process what its page holds. *)

From stdpp Require Import gmap.
From S2P Require Import Prelude Bitmap Vaddr Palloc Pagedir Block Inode File Vm VmSwap VmPaging.

(** ** The frame table *)

(** The frames [fs] were taken from the user pool of [p0], which is [p] now. *)
Record framed (p0 p : palloc) (fs : list frame) : Prop := {
  fm_wf : palloc_wf p;
  fm_same : same_pools p0 p;
  fm_mem : mem p = mem p0;
  fm_free fr : fr ∈ fs → lock fr = None ∧ fpage fr = 0;
  fm_page fr : fr ∈ fs → base fr mod 4096 = 0 ∧ in_pool (user_pool p0) (base fr / 4096) = true ∧
    page_used p0 (base fr / 4096) = false;
  fm_used k : page_used p k = page_used p0 k || bool_decide (k ∈ map (λ fr, base fr / 4096) fs);
  fm_once : NoDup (map (λ fr, base fr / 4096) fs);
}.

Lemma framed_le p0 p fs : palloc_wf p0 → framed p0 p fs → Z.of_nat (length fs) ≤ bit_cnt (used_map (user_pool p0)).
Proof.
  intros H0 [_ _ _ _ Hpg _ Hnd]. pose proof (wf_cnt _ (pool_bits _ (wf_pool _ H0 User))) as Hc. cbn in Hc.
  rewrite <- (length_map (λ fr, base fr / 4096) fs).
  assert (map (λ fr, base fr / 4096) fs ⊆+ seqZ (Palloc.base (user_pool p0) / 4096) (bit_cnt (used_map (user_pool p0)))) as Hs.
  { apply NoDup_submseteq; [done|]. intros k (fr & -> & Hfr)%list_elem_of_fmap.
    destruct (Hpg fr Hfr) as (_ & Hin & _). unfold in_pool in Hin.
    apply andb_prop in Hin as [?%Z.leb_le ?%Z.ltb_lt]. apply elem_of_seqZ. lia. }
  apply submseteq_length in Hs. rewrite length_seqZ in Hs. lia.
Qed.

Lemma framed_more p0 p p' fs a : palloc_wf p0 → framed p0 p fs → got_pages p p' User a 1 → mem p' = mem p →
  framed p0 p' (fs ++ [Frame None a 0]).
Proof.
  intros H0 [Hwf Hsame Hmem Hfree Hpg Hused Hnd] [Gwf Gsame Gal Gr Gf Gu] Hm.
  destruct (Hsame User) as [Hb1 Hb2]. cbn in Hb1, Hb2, Gr. rewrite Hb1, Hb2 in Gr.
  specialize (Gf (a / 4096) ltac:(lia)). rewrite Hused in Gf. apply orb_false_iff in Gf as [Gf1 Gf2%bool_decide_eq_false].
  pose proof (pool_align _ (wf_pool _ H0 User)) as Hal. cbn in Hal.
  split.
  - done.
  - intros i. destruct (Hsame i), (Gsame i). split; congruence.
  - by rewrite Hm.
  - intros fr [?| ->%list_elem_of_singleton]%elem_of_app; [by apply Hfree|done].
  - intros fr [?| ->%list_elem_of_singleton]%elem_of_app; [by apply Hpg|]. cbn [base]. split_and!; [done| |done].
    unfold in_pool. pose proof (Z.div_mod a 4096). pose proof (Z.div_mod (Palloc.base (user_pool p0)) 4096).
    apply andb_true_intro. split; [apply Z.leb_le|apply Z.ltb_lt]; lia.
  - intros k. rewrite (Gu k), Hused, map_app. cbn [map base].
    destruct (Z.eqb_spec k (a / 4096)) as [->|Hk].
    + rewrite Z.leb_refl, (proj2 (Z.ltb_lt (a / 4096) (a / 4096 + 1))) by lia.
      cbn [andb]. symmetry. apply orb_true_iff. right. apply bool_decide_eq_true_2, elem_of_app. right. by left.
    + replace (_ && _) with false by (symmetry; apply andb_false_iff; rewrite Z.leb_gt, Z.ltb_ge; lia). f_equal.
      apply bool_decide_ext. rewrite elem_of_app, list_elem_of_singleton. naive_solver.
  - rewrite map_app. apply NoDup_app. split_and!; [done| |apply NoDup_singleton].
    intros k Hk ->%list_elem_of_singleton. done.
Qed.

Lemma frame_init_spec ram s : palloc_wf (pal (mm s)) → bit_cnt (used_map (user_pool (pal (mm s)))) ≤ ram →
  ∃ p fs, frame_init ram s true = Ok (set_scan_lock None (set_frames fs (set_mm (Mmu p (cr3 (mm s)) (tlb (mm s))) s))) ∧
    framed (pal (mm s)) p fs ∧ out_of_pages p User 1.
Proof.
  intros H0 Hram. set (p0 := pal (mm s)) in *. unfold frame_init. cbn [negb].
  destruct (loop_total
    (λ k '(p, fs), framed p0 p fs ∧ (k = S (Z.to_nat ram) - length fs)%nat)
    (λ '(p, fs), framed p0 p fs ∧ out_of_pages p User 1)
    (λ '(p, fs),
      '(p, base) ← palloc_get_page p PAL_USER;
      if base =? 0 then Ok (inr (p, fs)) else
      _ ← (if Z.of_nat (length fs) <? ram then Ok tt else Err EFault);
      Ok (inl (p, fs ++ [Frame None base 0])))) with (n := S (S (Z.to_nat ram))) (k := S (Z.to_nat ram))
      (s := (p0, @nil frame)) as ([p fs] & Hl & HQ).
  - intros k [p fs] [Hfm ->]. pose proof (framed_le p0 p fs H0 Hfm) as Hle. unfold palloc_get_page.
    destruct (palloc_get_spec p PAL_USER 1) as [[Hout ->]|(p' & a & -> & Ha & Hgot & Hm)];
      [apply Hfm|lia| |]; cbn [mbind res_bind].
    + change (flag PAL_USER PAL_ASSERT) with false. cbn. eexists. by split.
    + rewrite (proj2 (Z.eqb_neq _ _) Ha).
      pose proof (framed_more p0 p p' fs a H0 Hfm Hgot Hm) as Hfm'. pose proof (framed_le p0 p' _ H0 Hfm') as Hle'.
      rewrite length_app in Hle'. cbn in Hle'. rewrite (proj2 (Z.ltb_lt _ _)) by lia. cbn [mbind res_bind].
      eexists. split; [done|]. eexists. split; [|split; [done|done]]. rewrite length_app. cbn. lia.
  - split; [|cbn; lia]. split; try done; [intros fr []%not_elem_of_nil..| |apply NoDup_nil_2].
    intros k. by rewrite orb_false_r.
  - lia.
  - exists p, fs. cbn [mbind res_bind]. fold p0. rewrite Hl. by split.
Qed.

(** Taking the frames leaves the page tables as they are. *)
Lemma framed_tables s p fs pds c t : vm_inv s pds → framed (pal s) p fs →
  let s' := Mmu p c t in
  vm_inv s' pds ∧ (∀ fr, fr ∈ fs → data_page s' pds (base fr)) ∧ ∀ pd v, entry s' pd v = entry s pd v.
Proof.
  intros Hs [Hwf Hsame Hmem Hfree Hpg Hused Hnd] s'.
  assert (∀ a, word s' a = word s a) as Hw by (intros a; unfold word, s'; cbn [pal]; by rewrite Hmem).
  assert (∀ pd i, pde s' pd i = pde s pd i) as Hp by (intros; apply Hw).
  assert (∀ a, kpage s a → kpage s' a) as Hk.
  { intros a (? & ? & ? & Hu). split_and!; try done. unfold s'. cbn [pal]. by rewrite Hused, Hu. }
  assert (∀ fr, fr ∈ fs → kpage s' (base fr) ∧ ∀ a, kpage s a → a ≠ base fr) as Hnew.
  { intros fr Hfr. destruct (Hpg fr Hfr) as (Hal & Hin & Hun). split.
    - destruct (wf_pool _ (vm_pal _ _ Hs) User) as [_ Hpa [Hlo Hhi]]. cbn in Hpa, Hlo, Hhi. unfold in_pool in Hin.
      apply andb_prop in Hin as [?%Z.leb_le ?%Z.ltb_lt]. pose proof (Z.div_mod (base fr) 4096).
      pose proof (Z.div_mod (Palloc.base (user_pool (pal s))) 4096). split_and!; [done|lia|lia|].
      unfold s'. cbn [pal]. rewrite Hused. apply orb_true_iff. right. apply bool_decide_eq_true_2.
      by apply (list_elem_of_fmap_2 (λ fr, base fr / 4096)).
    - intros a (_ & _ & _ & Hu) ->. congruence. }
  split_and!.
  - destruct Hs as [_ H8 Hd Ht Hi]. split.
    + done.
    + intros a. unfold s'. cbn [pal]. rewrite Hmem. apply H8.
    + intros pd Hpd. by apply Hk, Hd.
    + intros pd i Hpd Hi'. rewrite Hp. intros Hne. destruct (Ht pd i Hpd Hi' Hne) as (? & ? & ?). split_and!; auto.
    + intros pd i pd' i'. rewrite !Hp. apply Hi.
  - intros fr Hfr. destruct (Hnew fr Hfr) as [Hkf Hdiff]. split_and!; [done| |].
    + intros Hin. by apply (Hdiff (base fr)); [apply Hs|].
    + intros pd i Hpd Hi. rewrite Hp. intros Hne. apply Hdiff, (vm_tables _ _ Hs pd i); done.
  - intros pd v. unfold entry, slot. by rewrite !Hp, !Hw.
Qed.

(** The system before the first process: no page exists. *)
Record before_paging (ram : Z) (pds : list Z) (s : vm) : Prop := {
  bp_mm : vm_inv (mm s) pds;
  bp_cr3 : 0 ≤ cr3 (mm s) < PHYS_BASE ∧ cr3 (mm s) + PHYS_BASE < 2 ^ 32;
  bp_ram : Palloc.base (user_pool (pal (mm s))) + 4096 * bit_cnt (used_map (user_pool (pal (mm s)))) ≤ PHYS_BASE + 4096 * ram;
  bp_swap : swap_ok s;
  bp_fs : block_wf (fs_device (fsys s)) ∧ mem_ok (fsys s);
  bp_fs_u8 n : 0 ≤ n < size (fs_device (fsys s)) → Forall is_u8 (sector_at (fs_device (fsys s)) n);
  bp_pages : pages s = ∅;
}.

Lemma frame_init_machine ram pds s : before_paging ram pds s → ∃ s',
  frame_init ram s true = Ok s' ∧ machine ram pds s' ∧ out_of_pages (pal (mm s')) User 1 ∧
  (∀ fr, fr ∈ frames s' → free_frame fr) ∧
  (∀ k, page_used (pal (mm s')) k = page_used (pal (mm s)) k || bool_decide (k ∈ map (λ fr, base fr / 4096) (frames s'))) ∧
  ∀ pd v, entry (mm s') pd v = entry (mm s) pd v.
Proof.
  intros [Hmm Hcr3 Hram Hsw Hfs H8 Hno].
  destruct (wf_pool _ (vm_pal _ _ Hmm) User) as [_ Hpa [Hlo Hhi]]. cbn in Hpa, Hlo, Hhi.
  destruct (frame_init_spec ram s) as (p & fs & -> & Hfm & Hout); [apply Hmm|lia|].
  destruct (framed_tables (mm s) p fs pds (cr3 (mm s)) (tlb (mm s)) Hmm Hfm) as (Hinv & Hdata & Hent).
  eexists. split; [done|]. cbn [set_scan_lock set_frames set_mm mm frames pal]. split_and!; [|done|by apply Hfm|apply Hfm|done].
  assert (∀ f fr, fs !! f = Some fr → fr ∈ fs) as Hin by (intros; by eapply list_elem_of_lookup_2).
  split; cbn [set_scan_lock set_frames set_mm mm frames pal fsys pages cr3]; try done.
  - intros f fr Hf. by apply Hdata, (Hin f).
  - intros f g fr gr Hf Hg Hb. apply (NoDup_lookup _ f g (base fr / 4096) (fm_once _ _ _ Hfm)).
    + by rewrite list_lookup_fmap, Hf.
    + by rewrite list_lookup_fmap, Hg, Hb.
  - intros q qg Hq. by rewrite Hno in Hq.
  - intros q qg f Hq. by rewrite Hno in Hq.
  - by rewrite Hno.
  - intros f fr Hf. destruct (fm_page _ _ _ Hfm fr (Hin f fr Hf)) as (Hal & Hpo & _). unfold in_pool in Hpo.
    apply andb_prop in Hpo as [?%Z.leb_le ?%Z.ltb_lt].
    pose proof (Z.div_mod (base fr) 4096). pose proof (Z.div_mod (Palloc.base (user_pool (pal (mm s)))) 4096).
    apply Z.div_lt_upper_bound; lia.
Qed.

(** ** The theorems *)

(** [frame_init] takes every free page of the user pool exactly once and
    leaves the page tables alone; with it the invariant of the paging system
    holds. *)
Theorem frame_init_correct ram pds s : before_paging ram pds s → ∃ s',
  frame_init ram s true = Ok s' ∧ machine ram pds s' ∧ out_of_pages (pal (mm s')) User 1 ∧
  (∀ fr, fr ∈ frames s' → free_frame fr) ∧
  (∀ k, page_used (pal (mm s')) k = page_used (pal (mm s)) k || bool_decide (k ∈ map (λ fr, base fr / 4096) (frames s'))) ∧
  ∀ pd v, entry (mm s') pd v = entry (mm s) pd v.
Proof. apply frame_init_machine. Qed.

(** C27. The swap area is a finite map from pages to contents.  [swap_out] adds the
    contents of a page's frame, or fails and changes nothing exactly when every
    slot is taken; [swap_in] brings the contents back into the frame and takes
    the page out of the map.  Neither touches what is kept for another page, nor
    memory outside the frame. *)
Theorem swap_refines_store s p pg f fr : swap_ok s → in_locked_frame s p pg f fr →
  (swap_lock s = None → psector pg = NO_SECTOR → (∀ k, is_u8 (memory_of s k)) →
     swap_out s p = Ok (s, false) ∧ swap_full s ∨
     ∃ s', swap_out s p = Ok (s', true) ∧ ¬ swap_full s ∧ swap_ok s' ∧ memory_of s' = memory_of s ∧
       ∀ q, swapped s' q = if q =? p then Some (bytes (memory_of s) (base fr) 4096) else swapped s q) ∧
  (∀ l, swapped s p = Some l →
     ∃ s', swap_in s p = Ok s' ∧ swap_ok s' ∧ bytes (memory_of s') (base fr) 4096 = l ∧
       (∀ k, k < base fr ∨ base fr + 4096 ≤ k → memory_of s' k = memory_of s k) ∧
       ∀ q, swapped s' q = if q =? p then None else swapped s q).
Proof.
  intros Hs Hfr. split.
  - intros Hl Hsec H8. destruct (swap_out_spec s p pg f fr Hs Hfr Hl Hsec H8) as [H|(d & b & x & Ho & Hnf & Hok & Hq)].
    + by left.
    + right. eexists. split; [exact Ho|]. by split_and!.
  - intros l Hl. destruct (swap_in_spec s p pg f fr l Hs Hfr Hl) as (d & b & m & Hi & Hok & Hb & Hm & Hq).
    eexists. split; [exact Hi|]. by split_and!.
Qed.


(** C19. A thread that asks for a frame takes a free one at once.  When there is
    none but some frame is not locked, two sweeps of the clock find one: the
    frames that the hand passes are locked or have been accessed, and a page that
    had been accessed is picked only after the hand has passed it.  The thread
    gets the frame when [page_out] gives up the page, tries again later when the
    page stays, and the kernel faults when [page_out] does.  Up to [page_out], no
    page changes its contents. *)
Theorem clock_finds_frame ipd ram pds sleep s p : machine ram pds s → no_frame_held s → scan_lock s = None →
  (∃ f fr, frames s !! f = Some fr ∧ free_frame fr ∧
     frame_alloc_and_lock ipd sleep s p = Ok (taken s p f fr, Some f)) ∨
  (∀ f fr, frames s !! f = Some fr → ¬ free_frame fr) ∧
  (clock_ok s → ∃ s0 f fr qg, picked pds s s0 f fr qg ∧ machine ram pds s0 ∧ same_contents s s0 ∧
     match page_out ipd s0 (fpage fr) with
     | Ok (s1, true) => frame_alloc_and_lock ipd sleep s p = Ok (put_frame f (Frame (Some (cur s)) (base fr) p) s1, Some f)
     | Ok (s1, false) => try_frame_alloc_and_lock ipd s p = Ok (put_frame f fr s1, None)
     | Err e => frame_alloc_and_lock ipd sleep s p = Err e
     end).
Proof.
  intros Hs Hno Hsl. destruct (try_frame_cases ipd ram pds s p Hs Hno Hsl) as [(f & fr & Hf & Hfree & Ht)|[Hnone Hclock]].
  { left. exists f, fr. split_and!; [done|done|]. by apply frame_alloc_try. }
  right. split; [done|]. intros Hok. destruct (Hclock Hok) as (s0 & f & fr & qg & Hk & Ht).
  exists s0, f, fr, qg. destruct (picked_spec ram pds s s0 f fr qg Hs Hk) as (Hs0 & Hc & _).
  pose proof (stops_alloc ipd ram pds sleep s p s0 f fr qg Hs Hk (ck_swap _ Hok) Ht) as Ha.
  split_and!; [done|done|done|]. destruct (page_out ipd s0 (fpage fr)) as [[s1 []]|e]; [|done|done].
  destruct Ha as (s3 & fr3 & -> & _ & ->). done.
Qed.


(** A page fault in the megabyte below [PHYS_BASE], above the stack pointer
    less 32, gives the process a new writable page of zeros there. *)
Theorem stack_growth_correct ipd ram pds sleep s t tbl a : machine ram pds s → procs s !! cur s = Some t →
  ptable t = Some tbl → tbl !! pg_round_down a = None → pagedir t ∈ pds → pagedir t ≠ ipd → heap_ok s →
  PHYS_BASE - STACK_MAX < a < PHYS_BASE → 32 ≤ user_esp t < 2 ^ 32 → user_esp t - 32 < a →
  xlate (entry (mm s) (pagedir t) (pg_round_down a)) = None → no_frame_held s → scan_lock s = None → can_alloc s →
  ∃ s' ok, page_in ipd ram sleep s a = Ok (s', ok) ∧ machine ram pds s' ∧ same_contents s s' ∧
    if ok : bool then ∃ k, space (mm s') (pagedir t) (pg_round_down a) = Some (k, true) ∧
      ∀ j, 0 ≤ j < 4096 → memory_of s' (k + j) = 0
    else out_of_pages (pal (mm s')) Kernel 1.
Proof. apply stack_growth_spec. Qed.

(** C40. Evicting an anonymous page that was written to, while the swap area has
    room, stops the kernel: [swap_out] marks the page as not private, and
    [page_out] then writes it to the file it does not have. *)
Theorem page_out_dirty_anonymous_faults ipd ram pds s p pg f fr : machine ram pds s → in_locked_frame s p pg f fr →
  swap_lock s = None → pfile pg = None → dirty s pg = true → ¬ swap_full s → page_out ipd s p = Err EFault.
Proof.
  intros Hs Hfr Hl Hh Hd Hfull. destruct (page_out_cases ipd ram pds s p pg f fr Hs Hfr Hl) as [Hpost _].
  unfold page_out_post in Hpost. rewrite Hh, Hd in Hpost. apply Hpost. by left.
Qed.

(** When the swap area is full, [page_out] reports an anonymous page that was
    not written to since it came in as evicted, and its contents are lost: the
    page is all zeros afterwards. *)
Theorem page_out_full_loses_page ipd ram pds s p pg f fr : machine ram pds s → in_locked_frame s p pg f fr →
  swap_lock s = None → pfile pg = None → swap_full s → dirty s pg = false →
  ∃ s', page_out ipd s p = Ok (s', true) ∧ ∀ j, 0 ≤ j < 4096 → contents s' p j = 0.
Proof.
  intros Hs Hfr Hl Hh Hfull Hd. destruct (page_out_cases ipd ram pds s p pg f fr Hs Hfr Hl) as [Hpost _].
  unfold page_out_post in Hpost. rewrite Hh, Hd in Hpost. destruct Hpost as [_ Hz]. destruct (Hz Hfull) as (s' & E & Hk).
  exists s'. split; [done|]. intros j Hj. by rewrite Hk, Z.eqb_refl.
Qed.

(** ** A small system

    One process, one frame, and a swap area for two pages. *)

Definition demo_dirs : list Z := [demo_pd; demo_ipd].
Definition demo_swap : block := Block "hdc" BLOCK_SWAP 16 (repeat (repeat 0 512) 16) 0 0.
Definition demo_empty : vm :=
  Vm demo_mmu demo_fs ∅ (Some demo_swap) (Bitmap 2 [0]) None [] None 0 ∅
    {[ 7 := Process demo_pd (Some ∅) PHYS_BASE ]} 7 1 [].
Definition demo_booted : vm := result demo_empty (frame_init 300 demo_empty true).
Definition demo_vm : vm := set_frames (take 1 (frames demo_booted)) demo_booted.

Lemma repeated_u8 d c n : sectors d = repeat (repeat c 512) (Z.to_nat (size d)) → is_u8 c → 0 ≤ n < size d →
  Forall is_u8 (sector_at d n).
Proof.
  intros Hd Hc Hn. assert (sector_at d n ∈ sectors d) as Hin.
  { unfold sector_at. apply list_elem_of_lookup_total_2. rewrite Hd, repeat_length. lia. }
  rewrite Hd in Hin. apply list_elem_of_In, repeat_spec in Hin as ->.
  apply Forall_forall. intros x Hx. by apply list_elem_of_In, repeat_spec in Hx as ->.
Qed.

Lemma demo_before : before_paging 300 demo_dirs demo_empty.
Proof.
  destruct demo_safe as [Hty _]. destruct (typed_cr3 _ _ _ Hty) as [Hc1 Hc2].
  assert (∀ p, pages demo_empty !! p = None) as Hnone by (intros p; apply lookup_empty).
  assert (block_wf demo_swap) as Hd.
  { split; [done| |done]. intros s Hs. apply list_elem_of_In, repeat_spec in Hs as ->. done. }
  split.
  - exact (ty_inv _ _ _ Hty).
  - exact (conj Hc1 Hc2).
  - vm_compute. discriminate.
  - exists demo_swap. split; [done|]. split.
    + done.
    + change (bitmap_wf (Bitmap 2 [0])). split; [cbn; lia|reflexivity|]. by repeat constructor.
    + cbn. lia.
    + intros n Hn. apply (repeated_u8 demo_swap 0); [reflexivity|split; lia|exact Hn].
    + intros p pg Hp. rewrite Hnone in Hp. discriminate Hp.
    + intros p q pg qg Hp. rewrite Hnone in Hp. discriminate Hp.
  - split; [exact demo_block_wf|]. apply not_elem_of_nil.
  - intros n Hn. apply (repeated_u8 demo_block 7); [reflexivity|split; lia|exact Hn].
  - reflexivity.
Qed.

Lemma frames_take_machine ram pds s n : machine ram pds s → pages s = ∅ →
  machine ram pds (set_frames (take n (frames s)) s).
Proof.
  intros [H1 H2 H3 H4 H5 H6 H7 H8 H9 H10 H11] Hno.
  assert (∀ f fr, take n (frames s) !! f = Some fr → frames s !! f = Some fr) as Ht
    by (intros f fr [H _]%lookup_take_Some; exact H).
  split; cbn [set_frames mm swap_device swap_bitmap pages fsys frames procs files]; eauto.
  - intros p pg Hp. by rewrite Hno in Hp.
  - intros p pg f Hp. by rewrite Hno in Hp.
Qed.

Lemma demo_machine : machine 300 demo_dirs demo_vm.
Proof.
  destruct (frame_init_machine 300 demo_dirs demo_empty demo_before) as (s & E & Hs & _).
  apply frames_take_machine; [unfold demo_booted; by rewrite E|]. unfold demo_booted. rewrite E.
  destruct (frame_init_spec 300 demo_empty) as (p & fs & E' & _); [apply demo_before|vm_compute; discriminate|].
  rewrite E' in E. apply (f_equal (result demo_empty)) in E. cbn [result] in E. subst s. reflexivity.
Qed.

Lemma demo_frames : frames demo_vm = [Frame None 3222425600 0].
Proof. vm_compute. reflexivity. Qed.

Lemma demo_small : (∀ p, pages demo_vm !! p = None) ∧ procs demo_vm !! cur demo_vm = Some (Process demo_pd (Some ∅) PHYS_BASE) ∧
  cur demo_vm = 7 ∧ next_page demo_vm = 1 ∧ mallocs demo_vm = [] ∧ scan_lock demo_vm = None ∧ swap_lock demo_vm = None.
Proof.
  unfold demo_vm, demo_booted.
  destruct (frame_init_spec 300 demo_empty) as (p & fs & -> & _); [apply demo_before|vm_compute; discriminate|].
  split_and!; [intros q; apply lookup_empty|reflexivity..].
Qed.

#[local] Opaque demo_vm demo_mmu demo_pd demo_ipd.

(** The process touches its stack, and gets the frame. *)
Definition demo_addr : Z := PHYS_BASE - 20.
Definition demo_thread : process := Process demo_pd (Some ∅) PHYS_BASE.
Definition demo_in : vm := fst (result (demo_vm, false) (page_in demo_ipd 300 (λ s, s) demo_vm demo_addr)).
Definition demo_page : page := Page (PHYS_BASE - 4096) false 7 (Some 0%nat) NO_SECTOR true None 0 0.

Lemma frame_init_witness : ∃ s', frame_init 300 demo_empty true = Ok s' ∧ machine 300 demo_dirs s'.
Proof.
  destruct (frame_init_correct 300 demo_dirs demo_empty demo_before) as (s' & E & Hs & _). exists s'. exact (conj E Hs).
Defined.

Lemma demo_ready : no_frame_held demo_vm ∧ can_alloc demo_vm ∧ heap_ok demo_vm.
Proof.
  destruct demo_small as (Hno & _ & _ & Hn & Hm & _). split_and!.
  - intros [|f] fr Hf; rewrite demo_frames in Hf; [|done]. by injection Hf as <-.
  - left. exists 0%nat, (Frame None 3222425600 0). rewrite demo_frames. split; [reflexivity|split; reflexivity].
  - unfold heap_ok. rewrite Hn, Hm. split_and!; [lia|intros; apply Hno|done].
Qed.

Lemma demo_unmapped : xlate (entry (mm demo_vm) demo_pd (pg_round_down demo_addr)) = None.
Proof. vm_compute. reflexivity. Qed.

Lemma demo_stack_spec : ∃ s' ok, page_in demo_ipd 300 (λ s, s) demo_vm demo_addr = Ok (s', ok) ∧ machine 300 demo_dirs s'.
Proof.
  destruct demo_ready as (Hnf & Hcan & Hheap). destruct demo_small as (Hno & Ht & Hc & _ & _ & Hsl & _).
  destruct (stack_growth_spec demo_ipd 300 demo_dirs (λ s, s) demo_vm demo_thread ∅ demo_addr demo_machine Ht eq_refl
    (lookup_empty _)) as (s' & ok & E & Hs & _).
  - apply elem_of_cons. by left.
  - vm_compute. discriminate.
  - exact Hheap.
  - unfold demo_addr, STACK_MAX. lia.
  - vm_compute. split; congruence.
  - vm_compute. reflexivity.
  - exact demo_unmapped.
  - exact Hnf.
  - exact Hsl.
  - exact Hcan.
  - exists s', ok. exact (conj E Hs).
Qed.

Lemma demo_in_machine : machine 300 demo_dirs demo_in.
Proof. destruct demo_stack_spec as (s' & ok & E & Hs). unfold demo_in. rewrite E. exact Hs. Qed.

Lemma demo_in_parts : frames demo_in = [Frame None 3222425600 1] ∧ pages demo_in = {[ 1 := demo_page ]} ∧ cur demo_in = 7 ∧
  scan_lock demo_in = None ∧ swap_lock demo_in = None ∧ hand demo_in = 0 ∧ swap_bitmap demo_in = Bitmap 2 [0].
Proof. vm_compute. split_and!; reflexivity. Qed.

Lemma demo_in_clean : dirty demo_in demo_page = false ∧ accessed demo_in demo_page = false.
Proof. vm_compute. split; reflexivity. Qed.

#[local] Opaque demo_in.

(** The thread locks the frame. *)
Definition demo_frame : frame := Frame (Some 7) 3222425600 1.
Definition demo_locked : vm := put_frame 0 demo_frame demo_in.

Lemma demo_room s : swap_bitmap s = Bitmap 2 [0] → ¬ swap_full s.
Proof. intros E H. specialize (H 0). rewrite E in H. by discriminate H. Qed.

Lemma locked_parts s : machine 300 demo_dirs s → frames s = [Frame None 3222425600 1] → pages s = {[ 1 := demo_page ]} →
  cur s = 7 → let s' := put_frame 0 demo_frame s in
  machine 300 demo_dirs s' ∧ in_locked_frame s' 1 demo_page 0 demo_frame ∧ swap_lock s' = swap_lock s ∧
  swap_bitmap s' = swap_bitmap s ∧ dirty s' demo_page = dirty s demo_page ∧ pages s' = pages s ∧ mm s' = mm s.
Proof.
  intros Hs Hf Hp Hc s'. split_and!; try done.
  - apply (set_frame 300 demo_dirs s 0 (Frame None 3222425600 1) (Some 7) 1); [done|by rewrite Hf|by left].
  - unfold in_locked_frame, s'. cbn [put_frame set_frames pages frames cur]. rewrite Hf, Hp, Hc. done.
Qed.

Lemma demo_locked_parts : machine 300 demo_dirs demo_locked ∧ in_locked_frame demo_locked 1 demo_page 0 demo_frame ∧
  swap_lock demo_locked = None ∧ swap_bitmap demo_locked = Bitmap 2 [0] ∧ dirty demo_locked demo_page = false ∧
  pages demo_locked = {[ 1 := demo_page ]} ∧ mm demo_locked = mm demo_in.
Proof.
  destruct demo_in_parts as (Hf & Hp & Hc & _ & Hl & _ & Hb). destruct demo_in_clean as [Hd _].
  rewrite <- Hl, <- Hb, <- Hd, <- Hp. exact (locked_parts demo_in demo_in_machine Hf Hp Hc).
Qed.

#[local] Opaque demo_locked.

Lemma swap_witness : ∃ s', swap_out demo_locked 1 = Ok (s', true) ∧
  swapped s' 1 = Some (bytes (memory_of demo_locked) 3222425600 4096).
Proof.
  destruct demo_locked_parts as (Hs & Hfr & Hl & Hb & _).
  destruct (swap_refines_store demo_locked 1 demo_page 0 demo_frame (mc_swap _ _ _ Hs) Hfr) as [Ho _].
  destruct (Ho Hl eq_refl (vm_bytes _ _ (mc_mm _ _ _ Hs))) as [[_ Hfull]|(s' & E & _ & _ & _ & Hq)].
  - destruct (demo_room demo_locked Hb Hfull).
  - exists s'. split; [exact E|exact (Hq 1)].
Defined.


Lemma one_frame_clock s : frames s = [Frame None 3222425600 1] → pages s !! 1 = Some demo_page → swap_lock s = None →
  hand s = 0 → no_frame_held s ∧ clock_ok s ∧ ∀ f fr, frames s !! f = Some fr → ¬ free_frame fr.
Proof.
  intros Hf Hp Hl Hh. split_and!; [|split|].
  - intros [|f] fr Hfr; rewrite Hf in Hfr; [injection Hfr as <-; discriminate|discriminate].
  - intros [|f] fr Hfr _ _; rewrite Hf in Hfr; [injection Hfr as <-|discriminate]. by exists demo_page.
  - rewrite Hf, Hh. cbn. lia.
  - exact Hl.
  - rewrite Hf. by exists 0%nat, (Frame None 3222425600 1).
  - intros [|f] fr Hfr; rewrite Hf in Hfr; [injection Hfr as <-|discriminate]. by intros [_ ?].
Qed.

Lemma demo_in_clock : no_frame_held demo_in ∧ clock_ok demo_in ∧ ∀ f fr, frames demo_in !! f = Some fr → ¬ free_frame fr.
Proof. destruct demo_in_parts as (Hf & Hp & _ & _ & Hl & Hh & _). apply one_frame_clock; [done|by rewrite Hp|done|done]. Qed.

(** The page in the frame can be evicted. *)
Lemma demo_evicted s s0 f fr qg : machine 300 demo_dirs s → swap_lock s = None → frames s = [Frame None 3222425600 1] →
  pages s !! 1 = Some demo_page → dirty s demo_page = false → ¬ swap_full s → picked demo_dirs s s0 f fr qg →
  f = 0%nat ∧ fr = Frame None 3222425600 1 ∧ ∃ s1, page_out demo_ipd s0 (fpage fr) = Ok (s1, true) ∧ same_contents s0 s1.
Proof.
  intros Hs Hl Hf Hp Hd Hroom Hk. pose proof Hk as [Hkf _ _ Hkp _ _ _]. rewrite Hf in Hkf.
  destruct f as [|f]; [injection Hkf as <-|discriminate Hkf]. cbn [fpage] in Hkp. rewrite Hp in Hkp. injection Hkp as <-.
  split; [done|]. split; [done|].
  destruct (picked_spec 300 demo_dirs s s0 0 _ demo_page Hs Hk) as (Hs0 & _ & Hfr & El & _ & _ & _ & _ & _ & _ & Hkept).
  destruct (page_out_spec demo_ipd 300 demo_dirs s0 _ demo_page 0 _ Hs0 Hfr ltac:(congruence) (Hkept (conj Hd Hroom)))
    as (s1 & E & _ & Hc & _). by exists s1.
Qed.

Lemma clock_witness : ∃ s0 s1, page_out demo_ipd s0 1 = Ok (s1, true) ∧ same_contents demo_in s1 ∧
  frame_alloc_and_lock demo_ipd (λ s, s) demo_in 2 = Ok (put_frame 0 (Frame (Some 7) 3222425600 2) s1, Some 0%nat).
Proof.
  destruct demo_in_parts as (Hf & Hp & Hc & Hsl & Hl & _ & Hb). destruct demo_in_clock as (Hno & Hok & Hfull).
  destruct (clock_finds_frame demo_ipd 300 demo_dirs (λ s, s) demo_in 2 demo_in_machine Hno Hsl)
    as [(f & fr & Hfr & Hfree & _)|[_ Hclock]]; [destruct (Hfull f fr Hfr Hfree)|].
  destruct (Hclock Hok) as (s0 & f & fr & qg & Hk & _ & Hc0 & Hend).
  destruct (demo_evicted demo_in s0 f fr qg demo_in_machine Hl Hf) as (-> & -> & s1 & E & Hc1);
    [rewrite Hp; reflexivity|exact (proj1 demo_in_clean)|exact (demo_room _ Hb)|exact Hk|].
  rewrite E, Hc in Hend. exists s0, s1. exact (conj E (conj (same_contents_trans _ _ _ Hc0 Hc1) Hend)).
Defined.

(** The process touches the page below, and there is no free frame. *)
Definition demo_below : Z := PHYS_BASE - 4116.
Definition demo_owner : process := Process demo_pd (Some {[ PHYS_BASE - 4096 := 1 ]}) PHYS_BASE.
Definition demo_two : vm := added demo_in demo_owner {[ PHYS_BASE - 4096 := 1 ]} (fresh_page demo_in demo_below false).

Lemma demo_in_more : procs demo_in !! cur demo_in = Some demo_owner ∧ next_page demo_in = 2 ∧ mallocs demo_in = [] ∧
  xlate (entry (mm demo_in) demo_pd (pg_round_down demo_below)) = None.
Proof. vm_compute. split_and!; reflexivity. Qed.

Lemma demo_in_heap : heap_ok demo_in.
Proof.
  destruct demo_in_more as (_ & Hn & Hm & _). destruct demo_in_parts as (_ & Hp & _). unfold heap_ok. rewrite Hn, Hm, Hp.
  split_and!; [lia| |done]. intros q Hq. apply lookup_singleton_ne. lia.
Qed.

Lemma demo_below_addr : PHYS_BASE - STACK_MAX < demo_below < PHYS_BASE ∧ pagedir demo_owner ∈ demo_dirs.
Proof. split; [unfold demo_below, STACK_MAX; lia|apply elem_of_cons; by left]. Qed.

Lemma demo_two_machine : machine 300 demo_dirs demo_two ∧
  my_page demo_two (Process demo_pd (Some (<[addr (fresh_page demo_in demo_below false) := next_page demo_in]> {[ PHYS_BASE - 4096 := 1 ]})) PHYS_BASE)
    demo_below (next_page demo_in) (fresh_page demo_in demo_below false).
Proof.
  destruct demo_below_addr as [Ha Hpd]. destruct demo_in_more as (Ht & _). split.
  - exact (added_machine 300 demo_dirs demo_in demo_owner _ (fresh_page demo_in demo_below false) demo_in_machine Ht Hpd demo_in_heap
      (stack_page_addr demo_in demo_below Ha) eq_refl eq_refl eq_refl ltac:(discriminate)).
  - exact (added_mine demo_in demo_owner _ (fresh_page demo_in demo_below false) eq_refl demo_below eq_refl).
Qed.

Lemma demo_two_parts : frames demo_two = [Frame None 3222425600 1] ∧ pages demo_two !! 1 = Some demo_page ∧ cur demo_two = 7 ∧
  scan_lock demo_two = None ∧ swap_lock demo_two = None ∧ hand demo_two = 0 ∧ swap_bitmap demo_two = Bitmap 2 [0] ∧
  dirty demo_two demo_page = false.
Proof. vm_compute. split_and!; reflexivity. Qed.

Lemma demo_two_clock : no_frame_held demo_two ∧ clock_ok demo_two ∧ ∀ f fr, frames demo_two !! f = Some fr → ¬ free_frame fr.
Proof. destruct demo_two_parts as (Hf & Hp & _ & _ & Hl & Hh & _). by apply one_frame_clock. Qed.

#[local] Opaque demo_two.


Lemma stack_growth_witness : ∃ s' ok, page_in demo_ipd 300 (λ s, s) demo_vm demo_addr = Ok (s', ok) ∧ same_contents demo_vm s'.
Proof.
  destruct demo_ready as (Hnf & Hcan & Hheap). destruct demo_small as (Hno & Ht & Hc & _ & _ & Hsl & _).
  destruct (stack_growth_correct demo_ipd 300 demo_dirs (λ s, s) demo_vm demo_thread ∅ demo_addr demo_machine Ht eq_refl
    (lookup_empty _)) as (s' & ok & E & _ & Hs & _).
  - apply elem_of_cons. by left.
  - vm_compute. discriminate.
  - exact Hheap.
  - unfold demo_addr, STACK_MAX. lia.
  - vm_compute. split; congruence.
  - vm_compute. reflexivity.
  - exact demo_unmapped.
  - exact Hnf.
  - exact Hsl.
  - exact Hcan.
  - exists s', ok. exact (conj E Hs).
Defined.

(** The process writes to its page: the processor sets the dirty bit. *)
Definition demo_slot : Z := slot (mm demo_in) demo_pd (PHYS_BASE - 4096).
Definition demo_touched : mmu :=
  store_word (mm demo_in) demo_slot (Z.lor (entry (mm demo_in) demo_pd (PHYS_BASE - 4096)) PTE_D).
Definition demo_dirty : vm := set_mm demo_touched demo_locked.

Lemma demo_dirty_parts : machine 300 demo_dirs demo_dirty ∧ dirty demo_dirty demo_page = true.
Proof.
  destruct demo_locked_parts as (Hs & _ & _ & _ & _ & _ & Hm). pose proof (mc_mm _ _ _ Hs) as Hinv. rewrite Hm in Hinv.
  assert (demo_pd ∈ demo_dirs) as Hpd by (apply elem_of_cons; by left).
  assert (demo_slot ≠ 0) as Hne by (vm_compute; discriminate). split; [|vm_compute; reflexivity].
  destruct (store_entry (mm demo_in) demo_dirs demo_pd (PHYS_BASE - 4096)
    (Z.lor (entry (mm demo_in) demo_pd (PHYS_BASE - 4096)) PTE_D)) as [Hinv' _].
  - exact Hinv.
  - exact Hpd.
  - unfold PHYS_BASE. lia.
  - vm_compute. split; congruence.
  - vm_compute. discriminate.
  - apply (machine_mm 300 demo_dirs demo_locked demo_touched Hs Hinv').
    + rewrite Hm. apply store_data; [exact Hinv|exact Hpd|unfold PHYS_BASE; lia|exact Hne].
    + rewrite Hm. reflexivity.
Qed.

Lemma set_mm_parts s m : in_locked_frame s 1 demo_page 0 demo_frame → swap_lock s = None → swap_bitmap s = Bitmap 2 [0] →
  in_locked_frame (set_mm m s) 1 demo_page 0 demo_frame ∧ swap_lock (set_mm m s) = None ∧
  swap_bitmap (set_mm m s) = Bitmap 2 [0].
Proof. done. Qed.

Lemma demo_dirty_page : in_locked_frame demo_dirty 1 demo_page 0 demo_frame ∧ swap_lock demo_dirty = None ∧
  swap_bitmap demo_dirty = Bitmap 2 [0].
Proof.
  destruct demo_locked_parts as (_ & Hfr & Hl & Hb & _). exact (set_mm_parts demo_locked demo_touched Hfr Hl Hb).
Qed.

Lemma page_out_dirty_witness : page_out demo_ipd demo_dirty 1 = Err EFault.
Proof.
  destruct demo_dirty_parts as [Hs Hd]. destruct demo_dirty_page as (Hfr & Hl & Hb).
  exact (page_out_dirty_anonymous_faults demo_ipd 300 demo_dirs demo_dirty 1 demo_page 0 demo_frame Hs Hfr Hl eq_refl Hd
    (demo_room _ Hb)).
Defined.

(** The swap area is full. *)
Definition demo_full : vm := set_swap (swap_device demo_locked) (Bitmap 2 [3]) demo_locked.

Lemma full_parts s : machine 300 demo_dirs s → pages s = {[ 1 := demo_page ]} → swap_bitmap s = Bitmap 2 [0] →
  in_locked_frame s 1 demo_page 0 demo_frame → swap_lock s = None → dirty s demo_page = false →
  let s' := set_swap (swap_device s) (Bitmap 2 [3]) s in
  machine 300 demo_dirs s' ∧ in_locked_frame s' 1 demo_page 0 demo_frame ∧ swap_lock s' = None ∧ swap_full s' ∧
  dirty s' demo_page = false.
Proof.
  intros [H1 H2 (d & Hd & Ha) H4 H5 H6 H7 H8 H9 H10 H11] Hp Hb Hfr Hl Hdi s'. split_and!; try done.
  - split; try done; [|intros q qg Hq; by destruct (H8 q qg Hq)].
    exists d. split; [done|]. destruct Ha as [A1 A2 A3 A4 A5 A6]. rewrite Hb in A3.
    assert (∀ q qg, pages s !! q = Some qg → psector qg = NO_SECTOR) as Hno.
    { intros q qg Hq. rewrite Hp in Hq. by apply lookup_singleton_Some in Hq as [_ <-]. }
    split; [done| |done|done| |].
    + split; [cbn; lia|reflexivity|]. by repeat constructor.
    + intros q qg Hq Hne. by destruct (Hne (Hno q qg Hq)).
    + intros q r qg rg Hq _ Hne _. by destruct (Hne (Hno q qg Hq)).
  - intros n Hn. assert (n = 0 ∨ n = 1) as [->| ->] by (cbn in Hn; lia); reflexivity.
Qed.

Lemma demo_full_parts : machine 300 demo_dirs demo_full ∧ in_locked_frame demo_full 1 demo_page 0 demo_frame ∧
  swap_lock demo_full = None ∧ swap_full demo_full ∧ dirty demo_full demo_page = false.
Proof.
  destruct demo_locked_parts as (Hs & Hfr & Hl & Hb & Hd & Hp & _). exact (full_parts demo_locked Hs Hp Hb Hfr Hl Hd).
Qed.

Lemma page_out_full_witness : ∃ s', page_out demo_ipd demo_full 1 = Ok (s', true) ∧ ∀ j, 0 ≤ j < 4096 → contents s' 1 j = 0.
Proof.
  destruct demo_full_parts as (Hs & Hfr & Hl & Hfull & Hd).
  exact (page_out_full_loses_page demo_ipd 300 demo_dirs demo_full 1 demo_page 0 demo_frame Hs Hfr Hl eq_refl Hfull Hd).
Defined.
