(* ===== verification/ProcessWait.v ===== *)
(** * userprog/process.c: starting processes and waiting for them

    [process_execute], [start_process], [process_wait], [process_exit] and
    [release_child] as threads execute them, one access to shared memory at a
    time.  A [struct wait_status] is shared by a process and its parent, and
    the last of them to let go of it frees it.  A process is where it is in
    these functions, with the variables it still needs; using a [wait_status]
    that is not allocated is [EFault].

    Each semaphore operation is one step: interrupts are off in it.  The field
    [waited] is not in the code: it is a record of what [process_wait] returned,
    which no step reads. *)

From stdpp Require Import gmap.
From S2P Require Import Prelude.

(** ** Data *)

Record wait_status := WaitStatus {
  wlock : option Z;                (* the holder of [lock] *)
  ref_cnt : Z;
  wtid : Z;
  wexit : Z;
  dead : Z;                        (* the value of the semaphore *)
}.

Record exec_info := ExecInfo { load_done : Z; ewait_status : option Z; success : bool }.

(** What [release_child] returns to. *)
Inductive kont :=
  | KWait (child exit_code : Z)    (* [process_wait] *)
  | KSelf                          (* [process_exit], for the process's own status *)
  | KKids.                         (* [process_exit], for a child's *)

#[export] Instance kont_eq_dec : EqDecision kont.
Proof. solve_decision. Defined.

Inductive pc :=
  | User                           (* the program runs *)
  | Start                          (* [start_process], before loading *)
  | Notify (success : bool)        (* before [sema_up (&exec->load_done)] *)
  | ExecDown (child : Z) (exec : exec_info)  (* [sema_down (&exec.load_done)] *)
  | WaitDown (cs : Z)              (* [sema_down (&cs->dead)] *)
  | WaitRead (cs : Z)              (* [exit_code = cs->exit_code] *)
  | Acquire (cs : Z) (k : kont)    (* [release_child] *)
  | Decrement (cs : Z) (k : kont)
  | Release (cs new_ref_cnt : Z) (k : kont)
  | Free (cs new_ref_cnt : Z) (k : kont)
  | ExitCode (cs : Z)              (* [cs->exit_code = cur->exit_code] *)
  | ExitUp (cs : Z)                (* [sema_up (&cs->dead)] *)
  | ExitKids                       (* the loop over the children *)
  | Dead.

Record process := Process {
  at_pc : pc;
  parent : Z;                      (* whose stack [exec_] points into *)
  own : option Z;                  (* [wait_status] *)
  children : list Z;
  exit_code : Z;
  eax : Z;                         (* what the last call returned *)
  waited : list (Z * Z);           (* not in the code: what [process_wait] returned *)
}.

Record system := System {
  procs : gmap Z process;
  heap : gmap Z wait_status;       (* those that are allocated *)
  next_tid : Z;
}.

Inductive call := Execute | WaitFor (child_tid : Z) | Exit (code : option Z) | Other.

(** What the program does next, and what [thread_create], [load] and [malloc]
    return. *)
Record input := Input { what : call; created : bool; loaded : bool; malloc : option Z }.

(** ** Updates *)

Definition go (l : pc) (p : process) : process :=
  Process l (parent p) (own p) (children p) (exit_code p) (eax p) (waited p).
Definition set_children (l : list Z) (p : process) : process :=
  Process (at_pc p) (parent p) (own p) l (exit_code p) (eax p) (waited p).
Definition set_exit_code (c : Z) (p : process) : process :=
  Process (at_pc p) (parent p) (own p) (children p) c (eax p) (waited p).
Definition returns (v : Z) (p : process) : process :=
  Process User (parent p) (own p) (children p) (exit_code p) v (waited p).

Definition put (t : Z) (p : process) (s : system) : system := System (<[t := p]> (procs s)) (heap s) (next_tid s).
Definition put_status (cs : Z) (w : wait_status) (s : system) : system :=
  System (procs s) (<[cs := w]> (heap s)) (next_tid s).
Definition free (cs : Z) (s : system) : system := System (procs s) (delete cs (heap s)) (next_tid s).

Definition set_lock (l : option Z) (w : wait_status) : wait_status := WaitStatus l (ref_cnt w) (wtid w) (wexit w) (dead w).
Definition set_ref (n : Z) (w : wait_status) : wait_status := WaitStatus (wlock w) n (wtid w) (wexit w) (dead w).
Definition set_code (c : Z) (w : wait_status) : wait_status := WaitStatus (wlock w) (ref_cnt w) (wtid w) c (dead w).
Definition set_dead (n : Z) (w : wait_status) : wait_status := WaitStatus (wlock w) (ref_cnt w) (wtid w) (wexit w) n.

Definition TID_ERROR : Z := -1.

(** ** The code *)

(** [process_execute]: the thread is created. *)
Definition process_execute (t : Z) (p : process) (created : bool) (s : system) : system :=
  if created then
    put t (go (ExecDown (next_tid s) (ExecInfo 0 None false)) p)
      (System (<[next_tid s := Process Start t None [] (-1) 0 []]> (procs s)) (heap s) (next_tid s + 1))
  else put t (returns TID_ERROR p) s.

(** [process_execute], after the thread was created. *)
Definition exec_down (t : Z) (p : process) (child : Z) (exec : exec_info) (s : system) : res system :=
  if 0 <? load_done exec then
    if success exec then
      cs ← deref (ewait_status exec);
      _ ← deref (heap s !! cs);
      Ok (put t (returns child (set_children (children p ++ [cs]) p)) s)
    else Ok (put t (returns TID_ERROR p) s)
  else Err EBlock.

(** [*exec], on the stack of the parent. *)
Definition get_exec (s : system) (p : process) : res (process * Z * exec_info) :=
  q ← deref (procs s !! parent p);
  match at_pc q with ExecDown child exec => Ok (q, child, exec) | _ => Err EFault end.

(** [start_process] up to the notification of the parent. *)
Definition start_process (t : Z) (p : process) (loaded : bool) (malloc : option Z) (s : system) : res system :=
  '(q, child, exec) ← get_exec s p;
  if loaded then
    match malloc with
    | Some cs =>
        let s := put_status cs (WaitStatus None 2 t 0 0) s in
        let s := put (parent p) (go (ExecDown child (ExecInfo (load_done exec) (Some cs) true)) q) s in
        Ok (put t (Process (Notify true) (parent p) (Some cs) (children p) (exit_code p) (eax p) (waited p)) s)
    | None =>
        let s := put (parent p) (go (ExecDown child (ExecInfo (load_done exec) None false)) q) s in
        Ok (put t (go (Notify false) p) s)
    end
  else
    let s := put (parent p) (go (ExecDown child (ExecInfo (load_done exec) (ewait_status exec) false)) q) s in
    Ok (put t (go (Notify false) p) s).

(** The start of [process_exit]. *)
Definition process_exit (p : process) : process :=
  go (match own p with Some cs => ExitCode cs | None => ExitKids end) p.

Definition notify (t : Z) (p : process) (ok : bool) (s : system) : res system :=
  '(q, child, exec) ← get_exec s p;
  let s := put (parent p) (go (ExecDown child (ExecInfo (load_done exec + 1) (ewait_status exec) (success exec))) q) s in
  Ok (put t (if ok then go User p else process_exit p) s).

(** The first child in the list with the given id. *)
Fixpoint find_child (s : system) (child_tid : Z) (l : list Z) : res (option Z) :=
  match l with
  | [] => Ok None
  | cs :: l =>
      w ← deref (heap s !! cs);
      if wtid w =? child_tid then Ok (Some cs) else find_child s child_tid l
  end.

(** [process_wait] up to the semaphore. *)
Definition process_wait (t : Z) (p : process) (child_tid : Z) (s : system) : res system :=
  r ← find_child s child_tid (children p);
  match r with
  | Some cs => Ok (put t (go (WaitDown cs) (set_children (filter (λ x, x ≠ cs) (children p)) p)) s)
  | None => Ok (put t (returns (-1) p) s)
  end.

(** What follows [release_child]. *)
Definition resume (k : kont) (p : process) : process :=
  match k with
  | KWait child code =>
      Process User (parent p) (own p) (children p) (exit_code p) code (waited p ++ [(child, code)])
  | KSelf | KKids => go ExitKids p
  end.

Definition release_child (t : Z) (p : process) (s : system) : res system :=
  match at_pc p with
  | Acquire cs k =>
      w ← deref (heap s !! cs);
      match wlock w with
      | None => Ok (put t (go (Decrement cs k) p) (put_status cs (set_lock (Some t) w) s))
      | Some u => if u =? t then Err EAssert else Err EBlock
      end
  | Decrement cs k =>
      w ← deref (heap s !! cs);
      Ok (put t (go (Release cs (ref_cnt w - 1) k) p) (put_status cs (set_ref (ref_cnt w - 1) w) s))
  | Release cs n k =>
      w ← deref (heap s !! cs);
      _ ← ASSERT (bool_decide (wlock w = Some t));
      Ok (put t (go (Free cs n k) p) (put_status cs (set_lock None w) s))
  | Free cs n k =>
      if n =? 0 then
        _ ← deref (heap s !! cs);
        Ok (put t (resume k p) (free cs s))
      else Ok (put t (resume k p) s)
  | _ => Ok s
  end.

(** One step of the process [t]. *)
Definition step (t : Z) (i : input) (s : system) : res system :=
  p ← deref (procs s !! t);
  match at_pc p with
  | User =>
      match what i with
      | Execute => Ok (process_execute t p (created i) s)
      | WaitFor child => process_wait t p child s
      | Exit code => Ok (put t (process_exit (set_exit_code (default (exit_code p) code) p)) s)
      | Other => Ok s
      end
  | Start => start_process t p (loaded i) (malloc i) s
  | Notify ok => notify t p ok s
  | ExecDown child exec => exec_down t p child exec s
  | WaitDown cs =>
      w ← deref (heap s !! cs);
      if 0 <? dead w then Ok (put t (go (WaitRead cs) p) (put_status cs (set_dead (dead w - 1) w) s))
      else Err EBlock
  | WaitRead cs =>
      w ← deref (heap s !! cs);
      Ok (put t (go (Acquire cs (KWait (wtid w) (wexit w))) p) s)
  | Acquire _ _ | Decrement _ _ | Release _ _ _ | Free _ _ _ => release_child t p s
  | ExitCode cs =>
      w ← deref (heap s !! cs);
      Ok (put t (go (ExitUp cs) p) (put_status cs (set_code (exit_code p) w) s))
  | ExitUp cs =>
      w ← deref (heap s !! cs);
      Ok (put t (go (Acquire cs KSelf) p) (put_status cs (set_dead (dead w + 1) w) s))
  | ExitKids =>
      match children p with
      | [] => Ok (put t (go Dead p) s)
      | cs :: l =>
          _ ← deref (heap s !! cs);
          Ok (put t (go (Acquire cs KKids) (set_children l p)) s)
      end
  | Dead => Err EBlock
  end.

(** [malloc] returns memory that is not in use. *)
Definition fresh (s : system) (i : input) : Prop := ∀ cs, malloc i = Some cs → heap s !! cs = None.

Definition steps_to (s s' : system) : Prop := ∃ t i, fresh s i ∧ step t i s = Ok s'.

(** The first process. *)
Definition boot : system := System {[ 1 := Process User 0 None [] (-1) 0 [] ]} ∅ 2.
