(* ===== verification/ProcessWaitInv.v ===== *)
(** * The invariant of the wait statuses

    How far a process has come with a wait status is a [phase], once for the
    process itself and once for its parent.  The invariant relates the two
    phases to the fields of the status. *)

From stdpp Require Import gmap.
From S2P Require Import Prelude ProcessWait.

(** ** Phases *)

Inductive phase :=
  | Has                            (* holds a reference *)
  | Wr                             (* at the semaphore [dead] *)
  | Rd                             (* before reading the exit code *)
  | Acq | Dec | Rel (n : Z) | Fr (n : Z)   (* in [release_child] *)
  | Gone.

Definition cnt (a : phase) : Z := match a with Has | Wr | Rd | Acq | Dec => 1 | _ => 0 end.
Definition locked (a : phase) : Prop := match a with Dec | Rel _ => True | _ => False end.
(** About to free the status. *)
Definition fin (a : phase) : Prop := match a with Rel n | Fr n => n = 0 | _ => False end.
(** May still use the status. *)
Definition live (a : phase) : Prop := match a with Gone => False | Fr n => n = 0 | _ => True end.
(** The process has announced its death. *)
Definition upped (a : phase) : bool := match a with Acq | Dec | Rel _ | Fr _ | Gone => true | _ => false end.

(** The phase of a process with its own status, and as a parent with [cs]. *)
Definition self_phase (p : process) : phase :=
  match at_pc p with
  | ExitUp _ => Wr
  | Acquire _ KSelf => Acq
  | Decrement _ KSelf => Dec
  | Release _ n KSelf => Rel n
  | Free _ n KSelf => Fr n
  | ExitKids | Dead | Acquire _ KKids | Decrement _ KKids | Release _ _ KKids | Free _ _ KKids => Gone
  | _ => Has
  end.

(** The status of a child that the process is working on. *)
Definition busy (p : process) : option (Z * phase) :=
  match at_pc p with
  | ExecDown _ e => match ewait_status e with Some cs => Some (cs, Has) | None => None end
  | WaitDown cs => Some (cs, Wr)
  | WaitRead cs => Some (cs, Rd)
  | Acquire cs (KWait _ _ | KKids) => Some (cs, Acq)
  | Decrement cs (KWait _ _ | KKids) => Some (cs, Dec)
  | Release cs n (KWait _ _ | KKids) => Some (cs, Rel n)
  | Free cs n (KWait _ _ | KKids) => Some (cs, Fr n)
  | _ => None
  end.

Definition held (l : list Z) (cs : Z) : phase := if decide (cs ∈ l) then Has else Gone.

Definition child_phase (p : process) (cs : Z) : phase :=
  match busy p with
  | Some (x, a) => if decide (x = cs) then a else held (children p) cs
  | None => held (children p) cs
  end.

(** ** The status between its two parties *)

Record shared (a b : phase) (w : wait_status) (ta tb : Z) : Prop := {
  sh_ref : ref_cnt w = cnt a + cnt b;
  sh_lock t : wlock w = Some t ↔ t = ta ∧ locked a ∨ t = tb ∧ locked b;
  sh_rel n : a = Rel n ∨ b = Rel n → n = ref_cnt w;
  sh_fin : fin a ∨ fin b → ref_cnt w = 0;
  sh_one : fin a → fin b → False;
  sh_last : ref_cnt w = 0 → fin a ∨ fin b;
}.

Lemma shared_sym a b w ta tb : shared a b w ta tb → shared b a w tb ta.
Proof.
  intros [H1 H2 H3 H4 H5 H6]. split.
  - lia.
  - intros t. rewrite H2. tauto.
  - intros n Hn. apply H3. tauto.
  - intros Hf. apply H4. tauto.
  - eauto.
  - intros H0. destruct (H6 H0); tauto.
Qed.

(** Steps that touch neither the count nor the lock. *)
Lemma shared_move a a' b w w' ta tb : shared a b w ta tb → cnt a = 1 → ¬ locked a → cnt a' = 1 → ¬ locked a' →
  ref_cnt w' = ref_cnt w → wlock w' = wlock w → shared a' b w' ta tb.
Proof.
  intros [H1 H2 H3 H4 H5 H6] Ha Hl Ha' Hl' Er El. rewrite <- Er, <- El in *.
  assert (¬ fin a ∧ ¬ fin a') as [Hf Hf'] by (destruct a, a'; cbn in *; lia || tauto).
  split; rewrite ?Er, ?El in *.
  - lia.
  - intros t. rewrite H2. tauto.
  - intros n [->|Hn]; [by destruct Hl'|]. apply H3. tauto.
  - intros [?|?]; [done|]. apply H4. tauto.
  - done.
  - intros H0. destruct (H6 H0); tauto.
Qed.

Lemma shared_acquire b w ta tb : shared Acq b w ta tb → wlock w = None → ta ≠ tb →
  shared Dec b (set_lock (Some ta) w) ta tb.
Proof.
  intros [H1 H2 H3 H4 H5 H6] Hn Hne. assert (¬ locked b) as Hb.
  { intros Hb. specialize (H2 tb). rewrite Hn in H2. destruct H2 as [_ H2]. discriminate H2. by right. }
  split; cbn [set_lock ref_cnt wlock].
  - exact H1.
  - intros t. cbn. split; [intros [= <-]; by left|]. intros [[-> _]|[_ ?]]; [done|done].
  - intros n [?|?]; [done|]. apply H3. tauto.
  - intros [[]|?]. apply H4. tauto.
  - intros [].
  - intros H0. destruct (H6 H0) as [[]|?]. by right.
Qed.

Lemma shared_decrement b w ta tb : shared Dec b w ta tb → ta ≠ tb →
  shared (Rel (ref_cnt w - 1)) b (set_ref (ref_cnt w - 1) w) ta tb.
Proof.
  intros [H1 H2 H3 H4 H5 H6] Hne. cbn in H1.
  assert (¬ locked b) as Hb.
  { intros Hb. assert (wlock w = Some ta) as E1 by (apply H2; by left). assert (wlock w = Some tb) by (apply H2; by right). congruence. }
  assert (0 ≤ cnt b) as Hc by (destruct b; cbn; lia).
  assert (¬ fin b) as Hf by (intros Hf; specialize (H4 (or_intror Hf)); lia).
  split; cbn [set_ref ref_cnt wlock cnt].
  - lia.
  - intros t. rewrite H2. cbn. tauto.
  - intros n [[= <-]|Hn]; [done|]. subst b. by destruct Hb.
  - cbn. intros [?|?]; [done|done].
  - done.
  - cbn. tauto.
Qed.

Lemma shared_release n b w ta tb : shared (Rel n) b w ta tb → ta ≠ tb →
  wlock w = Some ta ∧ shared (Fr n) b (set_lock None w) ta tb.
Proof.
  intros [H1 H2 H3 H4 H5 H6] Hne. assert (wlock w = Some ta) as E by (apply H2; by left). split; [done|].
  assert (¬ locked b) as Hb by (intros Hb; assert (wlock w = Some tb) by (apply H2; by right); congruence).
  split; cbn [set_lock ref_cnt wlock].
  - exact H1.
  - intros t. split; [done|]. by intros [[_ []]|[_ ?]].
  - intros m [?|Hm]; [done|]. subst b. by destruct Hb.
  - exact H4.
  - exact H5.
  - exact H6.
Qed.

Lemma shared_free b w ta tb : shared (Fr 0) b w ta tb → ¬ live b.
Proof.
  intros [H1 H2 H3 H4 H5 H6] Hb. assert (ref_cnt w = 0) as E by (apply H4; by left). cbn in H1.
  destruct b as [| | | | |n|n|]; cbn in *; try lia; try (by apply H5).
  assert (n = ref_cnt w) by (apply H3; by right). apply H5; [done|]. lia.
Qed.

Lemma shared_gone n b w ta tb : shared (Fr n) b w ta tb → n ≠ 0 → shared Gone b w ta tb.
Proof.
  intros [H1 H2 H3 H4 H5 H6] Hn. split.
  - exact H1.
  - exact H2.
  - intros m [?|?]; [done|]. apply H3. by right.
  - intros [[]|?]. apply H4. by right.
  - done.
  - intros H0. destruct (H6 H0) as [?|?]; [done|by right].
Qed.

(** What the status tells the parent: [c] is the phase of the process, [q]
    that of its parent, [code] the exit code. *)
Record message (c q : phase) (w : wait_status) (code : Z) : Prop := {
  ms_dead : q = Has ∨ q = Wr → dead w = if upped c then 1 else 0;
  ms_read : q = Rd → upped c = true;
  ms_code : c = Wr ∨ upped c = true → wexit w = code;
}.

(** ** The invariant *)

(** The child [x] of [t] has announced its death with exit code [code]. *)
Definition exited (s : system) (t x code : Z) (own_of : option Z → Prop) : Prop :=
  ∃ c, procs s !! x = Some c ∧ parent c = t ∧ upped (self_phase c) = true ∧ exit_code c = code ∧ own_of (own c).

(** What the program counter of the process [t] says. *)
Definition pc_ok (s : system) (t : Z) (p : process) : Prop :=
  match at_pc p with
  | Start => own p = None ∧ ∃ q, procs s !! parent p = Some q ∧ at_pc q = ExecDown t (ExecInfo 0 None false)
  | Notify ok => bool_decide (own p ≠ None) = ok ∧
      ∃ q, procs s !! parent p = Some q ∧ at_pc q = ExecDown t (ExecInfo 0 (own p) ok)
  | ExecDown x e => t < x ∧ success e = bool_decide (ewait_status e ≠ None) ∧
      (load_done e = 1 ∨ load_done e = 0 ∧ ∃ c, procs s !! x = Some c ∧ parent c = t ∧
         (at_pc c = Start ∨ ∃ ok, at_pc c = Notify ok))
  | ExitCode cs | ExitUp cs | Acquire cs KSelf | Decrement cs KSelf | Release cs _ KSelf | Free cs _ KSelf => own p = Some cs
  | Acquire cs (KWait x code) | Decrement cs (KWait x code) | Release cs _ (KWait x code) | Free cs _ (KWait x code) =>
      exited s t x code (λ o, o = Some cs)
  | Dead => children p = []
  | _ => True
  end.

Record proc_ok (s : system) (t : Z) (p : process) : Prop := {
  po_tid : parent p < t < next_tid s;
  po_self cs : own p = Some cs → live (self_phase p) → ∃ w, heap s !! cs = Some w ∧ wtid w = t;
  po_held cs : live (child_phase p cs) → ∃ w c, heap s !! cs = Some w ∧ procs s !! wtid w = Some c ∧ parent c = t;
  po_dup : NoDup (children p);
  po_busy cs a : busy p = Some (cs, a) → cs ∉ children p;
  po_pc : pc_ok s t p;
  po_waited x code : (x, code) ∈ waited p → exited s t x code (λ _, True) ∧
    ∀ cs w, heap s !! cs = Some w → wtid w = x → child_phase p cs = Gone;
}.

Definition status_ok (s : system) (cs : Z) (w : wait_status) : Prop :=
  ∃ c q, procs s !! wtid w = Some c ∧ procs s !! parent c = Some q ∧ own c = Some cs ∧
    shared (self_phase c) (child_phase q cs) w (wtid w) (parent c) ∧
    message (self_phase c) (child_phase q cs) w (exit_code c).

Record inv (s : system) : Prop := {
  in_proc t p : procs s !! t = Some p → proc_ok s t p;
  in_status cs w : heap s !! cs = Some w → status_ok s cs w;
}.

(** ** Steps of one process

    The process [t] goes from [p] to [p'], and at most the status [cs0]
    changes. *)

Definition handshake (p : process) : bool :=
  match at_pc p with Start | Notify _ | ExecDown _ _ => true | _ => false end.

Section one.
Context (s : system) (t : Z) (p p' : process) (cs0 : Z) (h : gmap Z wait_status).
Context (Hi : inv s) (Hp : procs s !! t = Some p).
Abbreviation s' := (System (<[t := p']> (procs s)) h (next_tid s)).

Record local : Prop := {
  lo_parent : parent p' = parent p;
  lo_own : own p' = own p;
  lo_pc : handshake p = false ∧ handshake p' = false;
  lo_up : upped (self_phase p) = true → upped (self_phase p') = true ∧ exit_code p' = exit_code p;
  lo_self cs : own p = Some cs → cs ≠ cs0 → self_phase p' = self_phase p ∧ (exit_code p' = exit_code p ∨ self_phase p = Has);
  lo_child cs : cs ≠ cs0 → child_phase p' cs = child_phase p cs;
  lo_live : live (self_phase p') → live (self_phase p);
  lo_held : live (child_phase p' cs0) → live (child_phase p cs0);
  lo_gone : child_phase p cs0 = Gone → child_phase p' cs0 = Gone;
  lo_dup : NoDup (children p');
  lo_busy cs a : busy p' = Some (cs, a) → cs ∉ children p';
}.

Context (Hl : local) (Hh : ∀ cs, cs ≠ cs0 → h !! cs = heap s !! cs).
Context (Hnew : ∀ w', h !! cs0 = Some w' → status_ok s' cs0 w' ∧ ∃ w, heap s !! cs0 = Some w ∧ wtid w = wtid w').
Context (Hdel : h !! cs0 = None → ∀ w, heap s !! cs0 = Some w → ∀ u r, procs s' !! u = Some r →
  (wtid w = u → ¬ live (self_phase r)) ∧ (∀ c, procs s !! wtid w = Some c → parent c = u → ¬ live (child_phase r cs0))).
Context (Hpc : pc_ok s' t p').
Context (Hw : ∀ x code, (x, code) ∈ waited p' → (x, code) ∈ waited p ∨
  exited s' t x code (λ _, True) ∧ ∀ cs w, h !! cs = Some w → wtid w = x → child_phase p' cs = Gone).

(** A process of [s] in [s']. *)
Lemma one_proc u r : procs s !! u = Some r → ∃ r', procs s' !! u = Some r' ∧ parent r' = parent r ∧ own r' = own r ∧
  (upped (self_phase r) = true → upped (self_phase r') = true ∧ exit_code r' = exit_code r).
Proof using Hp Hl.
  intros Hr. cbn. destruct (decide (u = t)) as [->|Hu].
  - rewrite Hp in Hr. injection Hr as <-. exists p'. rewrite lookup_insert_eq. destruct Hl. by split_and!.
  - exists r. rewrite lookup_insert_ne by done. by split_and!.
Qed.

Lemma one_exited u x code P : exited s u x code P → exited s' u x code P.
Proof using Hp Hl.
  intros (c & Hc & Hpa & Hup & Hco & HP). destruct (one_proc x c Hc) as (c' & Hc' & E1 & E2 & E3).
  destruct (E3 Hup) as [? ?]. exists c'. split_and!; [done|congruence|done|congruence|congruence].
Qed.

(** A status of [s] that somebody still needs is in [s']. *)
Lemma one_status cs w u r : heap s !! cs = Some w → procs s' !! u = Some r →
  wtid w = u ∧ live (self_phase r) ∨ (∃ c, procs s !! wtid w = Some c ∧ parent c = u ∧ live (child_phase r cs)) →
  ∃ w', h !! cs = Some w' ∧ wtid w' = wtid w.
Proof using Hh Hnew Hdel.
  intros Hcs Hr Hlive. destruct (decide (cs = cs0)) as [->|Hne]; [|exists w; by rewrite Hh].
  destruct (h !! cs0) as [w'|] eqn:E.
  - exists w'. split; [done|]. destruct (Hnew w' eq_refl) as (_ & w2 & Hw2 & E2). congruence.
  - destruct (Hdel eq_refl w Hcs u r Hr) as [H1 H2]. destruct Hlive as [[? ?]|(c & ? & ? & ?)]; [by destruct H1|by destruct (H2 c)].
Qed.

Lemma one_other_pc u r : u ≠ t → procs s !! u = Some r → pc_ok s u r → pc_ok s' u r.
Proof using Hp Hl.
  intros Hu Hr. destruct (lo_pc Hl) as [Hhp _]. unfold pc_ok, handshake in *.
  assert (∀ q, procs s !! parent r = Some q → handshake q = true → procs s' !! parent r = Some q) as Hpar.
  { intros q Hq Hhq. cbn. rewrite lookup_insert_ne; [done|]. intros Et. rewrite <- Et, Hp in Hq. injection Hq as <-.
    unfold handshake in Hhq. by rewrite Hhp in Hhq. }
  destruct (at_pc r) as [| |ok|x e| | |cs [x code| |]|cs [x code| |]|cs n [x code| |]|cs n [x code| |]| | | |] eqn:E;
    try done; try (apply one_exited).
  - intros (? & q & Hq & Eq). split; [done|]. exists q. split; [|done]. apply Hpar; [done|]. unfold handshake. by rewrite Eq.
  - intros (? & q & Hq & Eq). split; [done|]. exists q. split; [|done]. apply Hpar; [done|]. unfold handshake. by rewrite Eq.
  - intros (? & ? & [?|(? & c & Hc & ? & Hpcc)]); (split_and!; [done|done|]); [by left|right]. split; [done|]. exists c.
    split; [|done]. cbn. rewrite lookup_insert_ne; [done|]. intros Et. rewrite <- Et, Hp in Hc. injection Hc as <-.
    by destruct Hpcc as [Ec|[ok Ec]]; rewrite Ec in Hhp.
Qed.

Lemma one_other u r : u ≠ t → procs s !! u = Some r → proc_ok s' u r.
Proof using Hi Hp Hl Hh Hnew Hdel.
  intros Hu Hr. destruct (in_proc _ Hi u r Hr) as [H1 H2 H3 H4 H5 H6 H7].
  assert (procs s' !! u = Some r) as Hr' by (cbn; by rewrite lookup_insert_ne).
  split; try done.
  - intros cs Ho Hlive. destruct (H2 cs Ho Hlive) as (w & Hcs & Hwt).
    destruct (one_status cs w u r) as (w' & ? & ?); [done|done|by left|]. exists w'. split; [done|congruence].
  - intros cs Hlive. destruct (H3 cs Hlive) as (w & c & Hcs & Hc & Hpa).
    destruct (one_status cs w u r) as (w' & ? & E); [done|done|right; by exists c|].
    destruct (one_proc _ _ Hc) as (c' & ? & ? & _). exists w', c'. rewrite E. split_and!; [done|done|congruence].
  - by apply one_other_pc.
  - intros x code Hx. destruct (H7 x code Hx) as [He Hg]. split; [by apply one_exited|].
    intros cs w' Hcs Hwt. destruct (decide (cs = cs0)) as [->|]; [|apply (Hg cs w'); [by rewrite <- Hh|done]].
    destruct (Hnew w' Hcs) as (_ & w & ? & ?). apply (Hg cs0 w); [done|congruence].
Qed.

Lemma one_self : proc_ok s' t p'.
Proof using Hi Hp Hl Hh Hnew Hdel Hpc Hw.
  destruct (in_proc _ Hi t p Hp) as [H1 H2 H3 H4 H5 H6 H7]. destruct Hl as [L1 L2 L3 L4 L5 L6 L7 L8 L9 L10 L11].
  assert (procs s' !! t = Some p') as Hp' by (cbn; by rewrite lookup_insert_eq).
  split; try done.
  - by rewrite L1.
  - intros cs Ho Hlive. rewrite L2 in Ho. destruct (H2 cs Ho (L7 Hlive)) as (w & Hcs & Hwt).
    destruct (one_status cs w t p') as (w' & ? & ?); [done|done|by left|]. exists w'. split; [done|congruence].
  - intros cs Hlive. assert (live (child_phase p cs)) as Hlp.
    { destruct (decide (cs = cs0)) as [->|]; [by apply L8|by rewrite <- L6]. }
    destruct (H3 cs Hlp) as (w & c & Hcs & Hc & Hpa).
    destruct (one_status cs w t p') as (w' & ? & E); [done|done|right; by exists c|].
    destruct (one_proc _ _ Hc) as (c' & ? & ? & _). exists w', c'. rewrite E. split_and!; [done|done|congruence].
  - intros x code Hx. destruct (Hw x code Hx) as [Hx'|]; [|done]. destruct (H7 x code Hx') as [He Hg].
    split; [by apply one_exited|]. intros cs w' Hcs Hwt. destruct (decide (cs = cs0)) as [->|].
    + destruct (Hnew w' Hcs) as (_ & w & ? & ?). apply L9, (Hg cs0 w); [done|congruence].
    + rewrite L6 by done. apply (Hg cs w'); [by rewrite <- Hh|done].
Qed.

Lemma one_inv : inv s'.
Proof using Hi Hp Hl Hh Hnew Hdel Hpc Hw.
  split.
  - intros u r. cbn. intros [[<- <-]|[Hu Hr]]%lookup_insert_Some; [exact one_self|by apply one_other].
  - cbn. intros cs w' Hcs. destruct (decide (cs = cs0)) as [->|Hne]; [by destruct (Hnew w' Hcs)|].
    rewrite Hh in Hcs by done. destruct (in_status _ Hi cs w' Hcs) as (c & q & Hc & Hq & Ho & Hsh & Hm).
    destruct Hl as [L1 L2 L3 L4 L5 L6 L7 L8 L9 L10 L11].
    assert (∀ u r, procs s !! u = Some r → ∃ r', procs s' !! u = Some r' ∧ parent r' = parent r ∧ own r' = own r ∧
      child_phase r' cs = child_phase r cs ∧
      (own r = Some cs → self_phase r' = self_phase r ∧ (exit_code r' = exit_code r ∨ self_phase r = Has))) as Hall.
    { intros u r Hr. cbn. destruct (decide (u = t)) as [->|].
      - rewrite Hp in Hr. injection Hr as <-. exists p'. rewrite lookup_insert_eq. split_and!; try done; [by apply L6|]. intros. by apply (L5 cs).
      - exists r. rewrite lookup_insert_ne by done. split_and!; try done. intros _. split; [done|by left]. }
    destruct (Hall _ _ Hc) as (c' & Hc' & E1 & E2 & _ & E3). destruct (Hall _ _ Hq) as (q' & Hq' & _ & _ & E4 & _).
    destruct (E3 Ho) as [E5 E6]. exists c', q'. rewrite E1, E4, E5. split_and!; [done|done|congruence|done|].
    destruct Hm as [M1 M2 M3]. split; try done. intros H. destruct E6 as [->|E6]; [by apply M3|]. rewrite E6 in H. by destruct H.
Qed.
End one.

(** A step with the status of a child. *)
Lemma parent_step s t p p' cs w w' : inv s → procs s !! t = Some p → heap s !! cs = Some w → live (child_phase p cs) →
  parent p' = parent p → own p' = own p → exit_code p' = exit_code p → self_phase p' = self_phase p →
  handshake p = false → handshake p' = false → waited p' = waited p →
  (∀ x, x ≠ cs → child_phase p' x = child_phase p x) → NoDup (children p') →
  (∀ x a, busy p' = Some (x, a) → x ∉ children p') →
  (∀ s', (∀ u x code P, exited s u x code P → exited s' u x code P) → pc_ok s' t p') → wtid w' = wtid w →
  (∀ c u, u ≠ t → shared c (child_phase p cs) w u t → shared c (child_phase p' cs) w' u t) →
  (∀ c code, message c (child_phase p cs) w code → message c (child_phase p' cs) w' code) →
  inv (put t p' (put_status cs w' s)).
Proof.
  intros Hi Hp Hcs Hlive E1 E2 E3 E4 Hh Hh' Ew Hch Hnd Hb Hpc Et Hsh Hm.
  assert (local p p' cs) as Hl.
  { split; try done.
    - intros Hup. by rewrite E4.
    - intros. split; [done|by left].
    - by rewrite E4.
    - intros E. by rewrite E in Hlive. }
  apply (one_inv s t p p' cs (<[cs := w']> (heap s)) Hi Hp Hl).
  - intros x Hx. by rewrite lookup_insert_ne.
  - intros w2. rewrite lookup_insert_eq. intros [= <-]. split; [|by exists w].
    destruct (in_status _ Hi cs w Hcs) as (c & q & Hc & Hq & Ho & Hs & Hmm).
    destruct (po_held _ _ _ (in_proc _ Hi t p Hp) cs Hlive) as (w2 & c2 & Hw2 & Hc2 & Hpa).
    rewrite Hcs in Hw2. injection Hw2 as <-. rewrite Hc in Hc2. injection Hc2 as <-. rewrite Hpa, Hp in Hq. injection Hq as <-.
    pose proof (po_tid _ _ _ (in_proc _ Hi _ c Hc)) as Hlt. exists c, p'. rewrite Et, Hpa in *. cbn.
    rewrite lookup_insert_ne, lookup_insert_eq by lia. split_and!; [done|done|done| |by apply Hm]. apply Hsh; [lia|done].
  - by rewrite lookup_insert_eq.
  - apply Hpc. intros. by eapply one_exited.
  - rewrite Ew. by left.
Qed.

(** A step of a process with its own status. *)
Lemma self_step s t p l cs w w' : inv s → procs s !! t = Some p → own p = Some cs → live (self_phase p) → heap s !! cs = Some w →
  busy p = None → busy (go l p) = None → handshake p = false → handshake (go l p) = false →
  (upped (self_phase p) = true → upped (self_phase (go l p)) = true) →
  (∀ s', (∀ u x code P, exited s u x code P → exited s' u x code P) → pc_ok s' t (go l p)) → wtid w' = wtid w →
  (∀ q u, u ≠ t → shared (self_phase p) q w t u → shared (self_phase (go l p)) q w' t u) →
  (∀ q, message (self_phase p) q w (exit_code p) → message (self_phase (go l p)) q w' (exit_code p)) →
  inv (put t (go l p) (put_status cs w' s)).
Proof.
  intros Hi Hp Ho Hlive Hcs Hb Hb' Hh Hh' Hup Hpc Et Hsh Hm.
  destruct (po_self _ _ _ (in_proc _ Hi t p Hp) cs Ho Hlive) as (w2 & Hw2 & Hwt). rewrite Hcs in Hw2. injection Hw2 as <-.
  assert (∀ x, child_phase (go l p) x = child_phase p x) as Hch by (intros x; unfold child_phase; by rewrite Hb, Hb').
  assert (local p (go l p) cs) as Hl.
  { split; try done.
    - intros H. split; [by apply Hup|done].
    - intros x Hx Hne. congruence.
    - by rewrite Hch.
    - by rewrite Hch.
    - exact (po_dup _ _ _ (in_proc _ Hi t p Hp)).
    - intros x a. by rewrite Hb'. }
  apply (one_inv s t p (go l p) cs (<[cs := w']> (heap s)) Hi Hp Hl).
  - intros x Hx. by rewrite lookup_insert_ne.
  - intros w2. rewrite lookup_insert_eq. intros [= <-]. split; [|by exists w].
    destruct (in_status _ Hi cs w Hcs) as (c & q & Hc & Hq & Hoc & Hs & Hmm).
    rewrite Hwt, Hp in Hc. injection Hc as <-. pose proof (po_tid _ _ _ (in_proc _ Hi t p Hp)) as Hlt.
    exists (go l p), q. rewrite Et, Hwt in *. cbn [procs go parent own exit_code].
    rewrite lookup_insert_eq, lookup_insert_ne by lia. split_and!; [done|done|done| |by apply Hm]. apply Hsh; [lia|done].
  - by rewrite lookup_insert_eq.
  - apply Hpc. intros. by eapply one_exited.
  - intros x code Hx. by left.
Qed.

(** ** Each step keeps the invariant *)

Lemma child_busy p cs a : busy p = Some (cs, a) → child_phase p cs = a.
Proof. intros E. unfold child_phase. rewrite E. by rewrite decide_True. Qed.

Lemma child_busy_ne p cs a x : busy p = Some (cs, a) → x ≠ cs → child_phase p x = held (children p) x.
Proof. intros E Hx. unfold child_phase. rewrite E. by rewrite decide_False. Qed.

(** The status that a process works on is allocated. *)
Lemma busy_status s t p cs a : inv s → procs s !! t = Some p → busy p = Some (cs, a) → live a → ∃ w, heap s !! cs = Some w.
Proof.
  intros Hi Hp Hb Hl. rewrite <- (child_busy p cs a Hb) in Hl.
  destruct (po_held _ _ _ (in_proc _ Hi t p Hp) cs Hl) as (w & _ & ? & _). by exists w.
Qed.

(** A step of a process in the middle of its work with [cs]. *)
Lemma busy_step s t p l cs a b w w' : inv s → procs s !! t = Some p → heap s !! cs = Some w →
  busy p = Some (cs, a) → live a → busy (go l p) = Some (cs, b) → self_phase (go l p) = self_phase p →
  handshake p = false → handshake (go l p) = false →
  (∀ s', (∀ u x code P, exited s u x code P → exited s' u x code P) → pc_ok s' t (go l p)) → wtid w' = wtid w →
  (∀ c u, u ≠ t → shared c a w u t → shared c b w' u t) → (∀ c code, message c a w code → message c b w' code) →
  inv (put t (go l p) (put_status cs w' s)).
Proof.
  intros Hi Hp Hcs Hb Hl Hb' Hself Hh Hh' Hpc Et Hsh Hm. pose proof (in_proc _ Hi t p Hp) as Hpo.
  apply (parent_step s t p (go l p) cs w w'); try done.
  - by rewrite (child_busy p cs a).
  - intros x Hx. by rewrite (child_busy_ne _ cs b), (child_busy_ne _ cs a).
  - apply Hpo.
  - rewrite Hb'. intros x c [= <- <-]. cbn. by apply (po_busy _ _ _ Hpo _ a).
  - by rewrite (child_busy p cs a), (child_busy _ cs b).
  - by rewrite (child_busy p cs a), (child_busy _ cs b).
Qed.

Lemma message_parent c a b w w' code : message c a w code → dead w' = dead w → wexit w' = wexit w →
  (b = Has ∨ b = Wr → a = Has ∨ a = Wr) → (b = Rd → a = Rd) → message c b w' code.
Proof. intros [M1 M2 M3] E1 E2 Hb Hr. split; rewrite ?E1, ?E2; auto. Qed.

Lemma message_self c d q w w' code : message c q w code → dead w' = dead w → wexit w' = wexit w →
  upped c = true → upped d = true → message d q w' code.
Proof.
  intros [M1 M2 M3] E1 E2 Hc Hd. rewrite Hc in M1. split; rewrite ?E1, ?E2, ?Hd; [done|done|]. intros _. apply M3. by right.
Qed.

(** In [release_child] a process is one of the two parties: it goes from the
    phase [a] to [b]. *)
Definition in_release (p : process) (l : pc) (cs : Z) (k : kont) (a b : phase) : Prop :=
  match k with
  | KSelf => own p = Some cs ∧ self_phase p = a ∧ self_phase (go l p) = b ∧ busy p = None ∧ busy (go l p) = None
  | _ => busy p = Some (cs, a) ∧ busy (go l p) = Some (cs, b) ∧ self_phase (go l p) = self_phase p
  end.

Lemma release_party s t p l cs k a b : inv s → procs s !! t = Some p → in_release p l cs k a b → live a →
  ∃ w, heap s !! cs = Some w ∧ ∃ c u, u ≠ t ∧ shared a c w t u.
Proof.
  intros Hi Hp Hr Hl. pose proof (in_proc _ Hi t p Hp) as Hpo.
  assert (k = KSelf ∧ own p = Some cs ∧ self_phase p = a ∨ busy p = Some (cs, a)) as [(-> & Ho & Hs)|Hb]
    by (unfold in_release in Hr; destruct k; tauto).
  - destruct (po_self _ _ _ Hpo cs Ho) as (w & Hcs & Hwt); [by rewrite Hs|]. exists w. split; [done|].
    destruct (in_status _ Hi cs w Hcs) as (c & q & Hc & _ & _ & Hsh & _).
    rewrite Hwt, Hp in Hc. injection Hc as <-. rewrite Hs, Hwt in Hsh. eexists _, (parent p). split; [|exact Hsh].
    pose proof (po_tid _ _ _ Hpo). lia.
  - destruct (po_held _ _ _ Hpo cs) as (w & c & Hcs & Hc & Hpa); [by rewrite (child_busy p cs a)|]. exists w. split; [done|].
    destruct (in_status _ Hi cs w Hcs) as (c2 & q & Hc2 & Hq & _ & Hsh & _). rewrite Hc in Hc2. injection Hc2 as <-.
    rewrite Hpa, Hp in Hq. injection Hq as <-. rewrite (child_busy p cs a Hb), Hpa in Hsh. apply shared_sym in Hsh.
    eexists _, (wtid w). split; [|exact Hsh]. pose proof (po_tid _ _ _ (in_proc _ Hi _ c Hc)). lia.
Qed.

Lemma release_step s t p l cs k a b w w' : inv s → procs s !! t = Some p → in_release p l cs k a b → live a →
  heap s !! cs = Some w → handshake p = false → handshake (go l p) = false →
  (∀ s', (∀ u x code P, exited s u x code P → exited s' u x code P) → pc_ok s' t (go l p)) →
  wtid w' = wtid w → dead w' = dead w → wexit w' = wexit w → upped a = true → upped b = true →
  (∀ c u, u ≠ t → shared a c w t u → shared b c w' t u) →
  inv (put t (go l p) (put_status cs w' s)).
Proof.
  intros Hi Hp Hr Hl Hcs Hh Hh' Hpc E1 E2 E3 Ha Hb Hsh. unfold in_release in Hr. destruct (decide (k = KSelf)) as [->|Hk].
  - destruct Hr as (Ho & Hs & Hs' & Hbp & Hbp'). apply (self_step s t p l cs w w'); try done.
    + by rewrite Hs.
    + by rewrite Hs'.
    + rewrite Hs, Hs'. intros. by apply Hsh.
    + rewrite Hs, Hs'. intros. by eapply message_self.
  - assert (busy p = Some (cs, a) ∧ busy (go l p) = Some (cs, b) ∧ self_phase (go l p) = self_phase p) as (H1 & H2 & H3)
      by (by destruct k).
    apply (busy_step s t p l cs a b w w'); try done.
    + intros c u Hu Hs. by apply shared_sym, Hsh, shared_sym.
    + intros c code Hm. eapply message_parent; [done|done|done|intros [->| ->]|intros ->]; done.
Qed.

Ltac at_pc_of H := unfold in_release, self_phase, busy, handshake, pc_ok; cbn [go at_pc own]; rewrite ?H.

Lemma release_child_ok s t p cs k : inv s → procs s !! t = Some p →
  (at_pc p = Acquire cs k ∨ at_pc p = Decrement cs k ∨ (∃ n, at_pc p = Release cs n k)) →
  (release_child t p s = Err EBlock ∧ at_pc p = Acquire cs k ∧ ∃ w u, heap s !! cs = Some w ∧ wlock w = Some u ∧ u ≠ t) ∨
  ∃ s', release_child t p s = Ok s' ∧ inv s'.
Proof.
  intros Hi Hp Hpc. pose proof (po_pc _ _ _ (in_proc _ Hi t p Hp)) as Hk. unfold release_child.
  destruct Hpc as [E|[E|[n E]]]; rewrite E; unfold pc_ok in Hk; rewrite E in Hk.
  - assert (in_release p (Decrement cs k) cs k Acq Dec) as Hr by (at_pc_of E; by destruct k).
    destruct (release_party s t p _ cs k Acq Dec Hi Hp Hr I) as (w & Hcs & c & u & Hu & Hs). rewrite Hcs. cbn [deref mbind res_bind].
    destruct (wlock w) as [v|] eqn:Hl.
    + left. assert (v ≠ t) as Hv.
      { intros ->. destruct (proj1 (sh_lock _ _ _ _ _ Hs t) Hl) as [[? []]|[? ?]]. congruence. }
      rewrite (proj2 (Z.eqb_neq v t)) by done. split_and!; [done|done|]. by exists w, v.
    + right. eexists. split; [done|]. apply (release_step s t p _ cs k Acq Dec w); try done; try (by at_pc_of E).
      * intros s' He. at_pc_of E. destruct k; [by apply He|done|done].
      * intros. by apply shared_acquire.
  - right. assert (∀ n, in_release p (Release cs n k) cs k Dec (Rel n)) as Hr by (intros n; at_pc_of E; by destruct k).
    destruct (release_party s t p _ cs k Dec _ Hi Hp (Hr 0) I) as (w & Hcs & c & u & Hu & Hs). rewrite Hcs. cbn [deref mbind res_bind].
    eexists. split; [done|]. apply (release_step s t p _ cs k Dec (Rel (ref_cnt w - 1)) w); try done; try (by at_pc_of E).
    + intros s' He. at_pc_of E. destruct k; [by apply He|done|done].
    + intros. by apply shared_decrement.
  - right. assert (in_release p (Free cs n k) cs k (Rel n) (Fr n)) as Hr by (at_pc_of E; by destruct k).
    destruct (release_party s t p _ cs k _ _ Hi Hp Hr I) as (w & Hcs & c & u & Hu & Hs). rewrite Hcs. cbn [deref mbind res_bind].
    destruct (shared_release n c w t u Hs) as [Hl _]; [done|]. rewrite bool_decide_eq_true_2 by done. cbn [ASSERT mbind res_bind].
    eexists. split; [done|]. apply (release_step s t p _ cs k (Rel n) (Fr n) w); try done; try (by at_pc_of E).
    + intros s' He. at_pc_of E. destruct k; [by apply He|done|done].
    + intros c' u' Hu' Hs'. by apply (shared_release n c' w t u').
Qed.

Lemma waited_resume k p x code : (x, code) ∈ waited (resume k p) → (x, code) ∈ waited p ∨ k = KWait x code.
Proof.
  destruct k; cbn; [|by left|by left]. intros [?|[= -> ->]%list_elem_of_singleton]%elem_of_app; [by left|by right].
Qed.

(** The end of [release_child]. *)
Section free.
Context (s : system) (t : Z) (p : process) (cs n : Z) (k : kont).
Context (Hi : inv s) (Hp : procs s !! t = Some p) (Hpc : at_pc p = Free cs n k).

Lemma resume_same : parent (resume k p) = parent p ∧ own (resume k p) = own p ∧ children (resume k p) = children p ∧
  exit_code (resume k p) = exit_code p ∧ busy (resume k p) = None ∧ handshake (resume k p) = false ∧ handshake p = false.
Proof using Hpc. unfold handshake. rewrite Hpc. by destruct k. Qed.

(** As a party, the process goes from [Fr n] to [Gone]. *)
Lemma resume_self : k = KSelf ∧ own p = Some cs ∧ self_phase p = Fr n ∧ self_phase (resume k p) = Gone ∨
  k ≠ KSelf ∧ self_phase (resume k p) = self_phase p.
Proof using Hi Hp Hpc.
  pose proof (po_pc _ _ _ (in_proc _ Hi t p Hp)) as Hk. unfold pc_ok in Hk. rewrite Hpc in Hk.
  unfold self_phase. rewrite Hpc. destruct k; [by right|by left|by right].
Qed.

Lemma resume_child x : x = cs ∧ k ≠ KSelf ∧ child_phase p x = Fr n ∧ child_phase (resume k p) x = Gone ∨
  (x = cs → k = KSelf) ∧ child_phase (resume k p) x = child_phase p x.
Proof using Hi Hp Hpc.
  destruct resume_same as (_ & _ & E3 & _ & E5 & _). pose proof (in_proc _ Hi t p Hp) as Hpo.
  assert (child_phase (resume k p) x = held (children p) x) as Eh by (unfold child_phase; by rewrite E5, E3).
  rewrite Eh. destruct (decide (k = KSelf)) as [Hk|Hk].
  - right. split; [done|]. unfold child_phase, busy. by rewrite Hpc, Hk.
  - assert (busy p = Some (cs, Fr n)) as Hb by (unfold busy; rewrite Hpc; by destruct k).
    destruct (decide (x = cs)) as [->|Hx].
    + left. split_and!; [done|done|by apply child_busy|]. unfold held. rewrite decide_False; [done|]. by apply (po_busy _ _ _ Hpo _ (Fr n)).
    + right. split; [done|]. by rewrite (child_busy_ne p cs (Fr n)).
Qed.

Lemma resume_local : local p (resume k p) cs.
Proof using Hi Hp Hpc.
  destruct resume_same as (E1 & E2 & E3 & E4 & E5 & E6 & E7). pose proof (in_proc _ Hi t p Hp) as Hpo. split; try done.
  - intros Hup. split; [|done]. by destruct resume_self as [(_ & _ & _ & ->)|[_ ->]].
  - intros x Hx Hne. destruct resume_self as [(_ & E & _)|[_ ->]]; [congruence|]. split; [done|by left].
  - intros x Hx. by destruct (resume_child x) as [[? _]|[_ ?]].
  - by destruct resume_self as [(_ & _ & _ & ->)|[_ ->]].
  - by destruct (resume_child cs) as [(_ & _ & _ & ->)|[_ ->]].
  - intros E. destruct (resume_child cs) as [(_ & _ & _ & ->)|[_ ->]]; done.
  - rewrite E3. apply Hpo.
  - rewrite E5. done.
Qed.

Lemma resume_waited h : (∀ x w, h !! x = Some w → heap s !! x = Some w) →
  let s' := System (<[t := resume k p]> (procs s)) h (next_tid s) in
  ∀ x code, (x, code) ∈ waited (resume k p) → (x, code) ∈ waited p ∨
    exited s' t x code (λ _, True) ∧ ∀ y w, h !! y = Some w → wtid w = x → child_phase (resume k p) y = Gone.
Proof using Hi Hp Hpc.
  intros Hsub s' x code Hx. pose proof (po_pc _ _ _ (in_proc _ Hi t p Hp)) as Hk. unfold pc_ok in Hk. rewrite Hpc in Hk.
  destruct (waited_resume k p x code Hx) as [?|Ek]; [by left|right]. rewrite Ek in Hk. split.
  - apply (one_exited s t p _ cs h Hp resume_local). destruct Hk as (c & ? & ? & ? & ? & _). by exists c.
  - intros y w Hy Hwt. destruct (in_status _ Hi y w (Hsub y w Hy)) as (c & q & Hc & _ & Ho & _).
    destruct Hk as (c2 & Hc2 & _ & _ & _ & Ho2). rewrite Hwt, Hc2 in Hc. injection Hc as <-.
    assert (y = cs) as -> by congruence. destruct (resume_child cs) as [(_ & _ & _ & ->)|[Hf _]]; [done|].
    specialize (Hf eq_refl). congruence.
Qed.

Lemma free_keep : n ≠ 0 → inv (put t (resume k p) s).
Proof using Hi Hp Hpc.
  intros Hn. apply (one_inv s t p (resume k p) cs (heap s) Hi Hp resume_local); try done.
  - intros w Hcs. split; [|by exists w]. destruct (in_status _ Hi cs w Hcs) as (c & q & Hc & Hq & Ho & Hsh & Hm).
    assert (∀ u r, procs s !! u = Some r → ∃ r', <[t := resume k p]> (procs s) !! u = Some r' ∧ parent r' = parent r ∧
      own r' = own r ∧ exit_code r' = exit_code r ∧
      (self_phase r' = self_phase r ∨ self_phase r = Fr n ∧ self_phase r' = Gone) ∧
      (child_phase r' cs = child_phase r cs ∨ child_phase r cs = Fr n ∧ child_phase r' cs = Gone)) as Hall.
    { intros u r Hr. destruct (decide (u = t)) as [->|]; [|exists r; rewrite lookup_insert_ne by done; split_and!; auto].
      rewrite Hp in Hr. injection Hr as <-. exists (resume k p). rewrite lookup_insert_eq.
      destruct resume_same as (E1 & E2 & E3 & E4 & _). split_and!; try done.
      - destruct resume_self as [(_ & _ & ? & ?)|[_ ?]]; tauto.
      - destruct (resume_child cs) as [(_ & _ & ? & ?)|[_ ?]]; tauto. }
    destruct (Hall _ _ Hc) as (c' & Hc' & E1 & E2 & E3 & Es & _). destruct (Hall _ _ Hq) as (q' & Hq' & _ & _ & _ & _ & Eq).
    exists c', q'. rewrite E1. split_and!; [done|done|congruence| |].
    + assert (shared (self_phase c') (child_phase q cs) w (wtid w) (parent c)) as H1.
      { destruct Es as [->|[Es ->]]; [done|]. rewrite Es in Hsh. by apply (shared_gone n). }
      destruct Eq as [->|[Eq ->]]; [done|]. rewrite Eq in H1. by apply shared_sym, (shared_gone n), Hn; apply shared_sym.
    + rewrite E3. destruct Hm as [M1 M2 M3].
      assert (upped (self_phase c') = upped (self_phase c) ∧ (self_phase c' = Wr → self_phase c = Wr)) as [U1 U2].
      { destruct Es as [->|[-> ->]]; done. }
      destruct Eq as [->|[Eq ->]]; split; rewrite ?U1; auto; naive_solver.
  - intros Hno w. by rewrite Hno.
  - unfold pc_ok. by destruct k.
  - by apply resume_waited.
Qed.

Lemma free_delete : n = 0 → (∃ w, heap s !! cs = Some w) ∧ inv (put t (resume k p) (free cs s)).
Proof using Hi Hp Hpc.
  intros Hn. pose proof (in_proc _ Hi t p Hp) as Hpo. pose proof (po_pc _ _ _ Hpo) as Hk. unfold pc_ok in Hk. rewrite Hpc in Hk.
  assert (in_release p (Free cs n k) cs k (Fr n) (Fr n)) as Hr by (at_pc_of Hpc; by destruct k).
  destruct (release_party s t p _ cs k _ _ Hi Hp Hr Hn) as (w & Hcs & _). split; [by exists w|].
  apply (one_inv s t p (resume k p) cs (delete cs (heap s)) Hi Hp resume_local).
  - intros x Hx. by rewrite lookup_delete_ne.
  - intros w'. by rewrite lookup_delete_eq.
  - intros _ w2 Hw2 u r Hur. rewrite Hcs in Hw2. injection Hw2 as <-.
    destruct (in_status _ Hi cs w Hcs) as (c & q & Hc & Hq & Ho & Hsh & _).
    destruct (decide (k = KSelf)) as [Ek|Ek].
    + destruct resume_self as [(_ & Hop & Hs & Hs')|[? _]]; [|done].
      destruct (po_self _ _ _ Hpo cs Hop) as (w2 & Hw2 & Hwt); [by rewrite Hs|]. rewrite Hcs in Hw2. injection Hw2 as <-.
      rewrite Hwt in *. rewrite Hp in Hc. injection Hc as <-. rewrite Hs, Hn in Hsh. apply shared_free in Hsh. cbn in Hur.
      pose proof (po_tid _ _ _ Hpo) as Hlt. split.
      * intros <-. rewrite lookup_insert_eq in Hur. injection Hur as <-. rewrite Hs'. by intros [].
      * intros c2 Hc2 <-. rewrite Hp in Hc2. injection Hc2 as <-. rewrite lookup_insert_ne, Hq in Hur by lia. by injection Hur as <-.
    + destruct (resume_child cs) as [(_ & _ & Hs & Hs')|[Hf _]]; [|by destruct (Ek (Hf eq_refl))].
      destruct (po_held _ _ _ Hpo cs) as (w2 & c2 & Hw2 & Hc2 & Hpa); [by rewrite Hs|]. rewrite Hcs in Hw2. injection Hw2 as <-.
      rewrite Hc in Hc2. injection Hc2 as <-. rewrite Hpa, Hp in Hq. injection Hq as <-. rewrite Hs, Hn in Hsh.
      apply shared_sym, shared_free in Hsh. pose proof (po_tid _ _ _ (in_proc _ Hi _ c Hc)) as Hlt. cbn in Hur. split.
      * intros <-. rewrite lookup_insert_ne, Hc in Hur by lia. by injection Hur as <-.
      * intros c2 Hc2 <-. rewrite Hc in Hc2. injection Hc2 as <-. rewrite Hpa, lookup_insert_eq in Hur. injection Hur as <-. rewrite Hs'. by intros [].
  - unfold pc_ok. by destruct k.
  - apply resume_waited. intros x w' [_ ?]%lookup_delete_Some. done.
Qed.
End free.

(** ** Steps of the handshake between [process_execute] and [start_process]

    Phases stay as they are; at most the status [cs0] is new. *)

Record sim (cs0 : Z) (r r' : process) : Prop := {
  si_parent : parent r' = parent r;
  si_waited : waited r' = waited r;
  si_own : own r' = own r ∨ own r = None ∧ own r' = Some cs0;
  si_self : own r ≠ None → self_phase r' = self_phase r ∧ (exit_code r' = exit_code r ∨ self_phase r = Has);
  si_up : upped (self_phase r) = true → upped (self_phase r') = true ∧ exit_code r' = exit_code r;
  si_child x : x ≠ cs0 → child_phase r' x = child_phase r x;
  si_dup : NoDup (children r');
  si_busy x a : busy r' = Some (x, a) → x ∉ children r';
}.

Lemma sim_refl s t r cs0 : proc_ok s t r → sim cs0 r r.
Proof. intros []. split; try done; [by left|]. intros _. split; [done|by left]. Qed.

Definition newborn (s : system) (t : Z) (r : process) : Prop :=
  own r = None ∧ children r = [] ∧ waited r = [] ∧ busy r = None ∧ next_tid s ≤ t.

Section phases.
Context (s s' : system) (cs0 : Z).
Context (Hi : inv s) (Hnone : heap s !! cs0 = None) (Hh : ∀ x, x ≠ cs0 → heap s' !! x = heap s !! x).
Context (Hsim : ∀ u r, procs s !! u = Some r → ∃ r', procs s' !! u = Some r' ∧ sim cs0 r r').
Context (Hback : ∀ u r', procs s' !! u = Some r' → (∃ r, procs s !! u = Some r) ∨ newborn s u r').
Context (Hnew : ∀ w, heap s' !! cs0 = Some w → status_ok s' cs0 w ∧ ∃ c, procs s !! wtid w = Some c ∧ upped (self_phase c) = false).
Context (Hown : ∀ u r r', procs s !! u = Some r → procs s' !! u = Some r' → own r = None → own r' = Some cs0 →
  ∃ w, heap s' !! cs0 = Some w ∧ wtid w = u).
Context (Hheld : ∀ u r r', procs s !! u = Some r → procs s' !! u = Some r' → live (child_phase r' cs0) →
  live (child_phase r cs0) ∨ ∃ w c, heap s' !! cs0 = Some w ∧ procs s' !! wtid w = Some c ∧ parent c = u).
Context (Hpc : ∀ u r', procs s' !! u = Some r' → pc_ok s' u r' ∧ parent r' < u < next_tid s').

Lemma phases_exited u x code P : exited s u x code P → (∀ o o', P o → o' = o ∨ o = None → P o') → exited s' u x code P.
Proof using Hsim.
  intros (c & Hc & Hpa & Hup & Hco & HP) HPP. destruct (Hsim x c Hc) as (c' & Hc' & [E1 E2 E3 E4 E5 E6 E7 E8]).
  destruct (E5 Hup) as [? ?]. exists c'. split_and!; [done|congruence|done|congruence|]. apply (HPP _ _ HP). destruct E3 as [|[? ?]]; [by left|by right].
Qed.

Lemma phases_proc u r : procs s' !! u = Some r → proc_ok s' u r.
Proof using Hi Hnone Hh Hsim Hback Hnew Hown Hheld Hpc.
  intros Hr. destruct (Hpc u r Hr) as [Hpcu Htid]. destruct (Hback u r Hr) as [[r0 Hr0]|(Ho & Hc & Hw & Hb & _)].
  2:{ assert (∀ x, child_phase r x = Gone) as Hg by (intros x; unfold child_phase, held; rewrite Hb, Hc; by rewrite decide_False by apply not_elem_of_nil).
    split; try done.
    - intros cs. by rewrite Ho.
    - intros cs. by rewrite Hg.
    - rewrite Hc. apply NoDup_nil_2.
    - by rewrite Hb.
    - intros x code. rewrite Hw. by intros []%not_elem_of_nil. }
  destruct (Hsim u r0 Hr0) as (r1 & Hr1 & [E1 E2 E3 E4 E5 E6 E7 E8]). rewrite Hr in Hr1. injection Hr1 as <-.
  destruct (in_proc _ Hi u r0 Hr0) as [P1 P2 P3 P4 P5 P6 P7]. split; try done.
  - intros cs Ho Hl. destruct (own r0) as [y|] eqn:Ho0.
    + destruct E3 as [E3|[? _]]; [|done]. destruct E4 as [E4 _]; [done|]. rewrite E4 in Hl.
      destruct (P2 cs ltac:(congruence) Hl) as (w & Hw & ?). exists w. split; [|done]. rewrite Hh; [done|]. congruence.
    + destruct E3 as [E3|[_ E3]]; [congruence|]. rewrite E3 in Ho. injection Ho as <-. by apply (Hown u r0 r).
  - intros cs Hl. assert (live (child_phase r0 cs) → ∃ w c, heap s' !! cs = Some w ∧ procs s' !! wtid w = Some c ∧ parent c = u) as Hold.
    { intros Hl0. destruct (P3 cs Hl0) as (w & c & Hw & Hc & Hpa). destruct (Hsim _ c Hc) as (c' & Hc' & [C1 _ _ _ _ _ _ _]).
      exists w, c'. rewrite Hh by congruence. split_and!; [done|done|congruence]. }
    destruct (decide (cs = cs0)) as [->|Hne]; [|apply Hold; by rewrite <- E6].
    by destruct (Hheld u r0 r Hr0 Hr Hl) as [?|?]; [apply Hold|].
  - intros x code Hx. rewrite E2 in Hx. destruct (P7 x code Hx) as [He Hg]. split; [by apply phases_exited|].
    intros cs w Hcs Hwt. destruct (decide (cs = cs0)) as [->|Hne]; [|rewrite E6 by done; apply (Hg cs w); [by rewrite <- Hh|done]].
    destruct (Hnew w Hcs) as (_ & c & Hc & Hup). destruct He as (c2 & Hc2 & _ & Hup2 & _). rewrite Hwt, Hc2 in Hc. injection Hc as <-. congruence.
Qed.

Lemma phases_inv : inv s'.
Proof using Hi Hnone Hh Hsim Hback Hnew Hown Hheld Hpc.
  split; [exact phases_proc|]. intros cs w Hcs. destruct (decide (cs = cs0)) as [->|Hne]; [by apply Hnew|].
  rewrite Hh in Hcs by done. destruct (in_status _ Hi cs w Hcs) as (c & q & Hc & Hq & Ho & Hsh & Hm).
  destruct (Hsim _ c Hc) as (c' & Hc' & [E1 E2 E3 E4 E5 E6 E7 E8]).
  destruct (Hsim _ q Hq) as (q' & Hq' & [_ _ _ _ _ F6 _ _]). destruct E4 as [E4 E4']; [by rewrite Ho|].
  exists c', q'. rewrite E1, E4, F6 by done. split_and!; [done|done|destruct E3 as [|[? _]]; congruence|done|].
  destruct Hm as [M1 M2 M3]. split; try done. intros H. destruct E4' as [->|E4']; [by apply M3|]. rewrite E4' in H. by destruct H.
Qed.
End phases.

Lemma pc_frame s s' u r : pc_ok s u r → (∀ v x code cs, exited s v x code (λ o, o = Some cs) → exited s' v x code (λ o, o = Some cs)) →
  (∀ q e, procs s !! parent r = Some q → at_pc q = ExecDown u e → load_done e = 0 → procs s' !! parent r = Some q) →
  (∀ x e c, at_pc r = ExecDown x e → procs s !! x = Some c → parent c = u → (at_pc c = Start ∨ ∃ ok, at_pc c = Notify ok) →
     procs s' !! x = Some c) → pc_ok s' u r.
Proof.
  intros Hpc He Hpar Hch. unfold pc_ok in *.
  destruct (at_pc r) as [| |ok|x e| | |cs [x code| |]|cs [x code| |]|cs n [x code| |]|cs n [x code| |]| | | |] eqn:E;
    try done; try (by apply He).
  - destruct Hpc as (? & q & Hq & Eq). split; [done|]. exists q. split; [|done]. by eapply Hpar.
  - destruct Hpc as (? & q & Hq & Eq). split; [done|]. exists q. split; [|done]. by eapply Hpar.
  - destruct Hpc as (? & ? & [?|(? & c & Hc & Hpa & Hpcc)]); (split_and!; [done|done|]); [by left|right]. split; [done|]. exists c.
    split; [by eapply Hch|done].
Qed.

(** The same, without a new status. *)
Record keeps (r r' : process) : Prop := {
  ke_parent : parent r' = parent r;
  ke_waited : waited r' = waited r;
  ke_own : own r' = own r;
  ke_self : own r ≠ None → self_phase r' = self_phase r ∧ (exit_code r' = exit_code r ∨ self_phase r = Has);
  ke_up : upped (self_phase r) = true → upped (self_phase r') = true ∧ exit_code r' = exit_code r;
  ke_child x : child_phase r' x = child_phase r x;
  ke_dup : NoDup (children r');
  ke_busy x a : busy r' = Some (x, a) → x ∉ children r';
}.

Lemma keeps_refl s t r : proc_ok s t r → keeps r r.
Proof. intros []. split; try done. intros _. split; [done|by left]. Qed.

Lemma keeps_inv s s' : inv s → heap s' = heap s →
  (∀ u r, procs s !! u = Some r → ∃ r', procs s' !! u = Some r' ∧ keeps r r') →
  (∀ u r', procs s' !! u = Some r' → (∃ r, procs s !! u = Some r) ∨ newborn s u r') →
  (∀ u r', procs s' !! u = Some r' → pc_ok s' u r' ∧ parent r' < u < next_tid s') → inv s'.
Proof.
  intros Hi Hh Hk Hback Hpc. set (cs0 := base.fresh (dom (heap s))).
  assert (heap s !! cs0 = None) as Hnone by (apply not_elem_of_dom, is_fresh).
  apply (phases_inv s s' cs0); try done.
  - intros x _. by rewrite Hh.
  - intros u r Hr. destruct (Hk u r Hr) as (r' & Hr' & []). exists r'. split; [done|]. split; try done. by left.
  - intros w. by rewrite Hh, Hnone.
  - intros u r r' Hr Hr' Ho Ho'. destruct (Hk u r Hr) as (r2 & Hr2 & []). rewrite Hr' in Hr2. injection Hr2 as <-. congruence.
  - intros u r r' Hr Hr' Hl. left. destruct (Hk u r Hr) as (r2 & Hr2 & [_ _ _ _ _ Hc _ _]). rewrite Hr' in Hr2. injection Hr2 as <-.
    by rewrite <- Hc.
Qed.

(** One process, without its phases changing. *)
Lemma keeps_step s t p p' : inv s → procs s !! t = Some p → keeps p p' → handshake p = false → pc_ok s t p' → handshake p' = false →
  inv (put t p' s).
Proof.
  intros Hi Hp Hk Hh Hpc Hh'. assert (∀ v x code cs, exited s v x code (λ o, o = Some cs) → exited (put t p' s) v x code (λ o, o = Some cs)) as He.
  { intros v x code cs (c & Hc & H1 & H2 & H3 & H4). destruct Hk as [K1 K2 K3 K4 K5 K6 K7 K8]. unfold exited. cbn.
    destruct (decide (x = t)) as [->|]; [|exists c; by rewrite lookup_insert_ne].
    rewrite Hp in Hc. injection Hc as <-. exists p'. rewrite lookup_insert_eq. destruct (K5 H2). split_and!; congruence. }
  apply (keeps_inv s); [done|done| | |].
  - intros u r Hr. cbn. destruct (decide (u = t)) as [->|]; [|exists r; rewrite lookup_insert_ne by done; split; [done|by eapply keeps_refl, in_proc]].
    rewrite Hp in Hr. injection Hr as <-. exists p'. by rewrite lookup_insert_eq.
  - intros u r. cbn. intros [[<- _]|[_ ?]]%lookup_insert_Some; left; [by exists p|by exists r].
  - intros u r Hur. cbn in Hur. apply lookup_insert_Some in Hur as [[<- <-]|[Hu Hr]].
    + pose proof (po_tid _ _ _ (in_proc _ Hi t p Hp)). split; [|cbn; by rewrite (ke_parent _ _ Hk)].
      apply (pc_frame s); [done|done| |]; unfold pc_ok, handshake in *; intros * E; [|by rewrite E in Hh'].
      intros _ _. cbn. rewrite (ke_parent _ _ Hk) in *. rewrite lookup_insert_ne; [done|lia].
    + pose proof (in_proc _ Hi u r Hr) as [P1 _ _ _ _ P6 _]. split; [|done]. apply (pc_frame s); [done|done| |].
      * intros q e Hq Eq _. cbn. rewrite lookup_insert_ne; [done|]. intros Et. rewrite <- Et, Hp in Hq. injection Hq as <-. unfold handshake in Hh. by rewrite Eq in Hh.
      * intros x e c E Hc _ Hpcc. cbn. rewrite lookup_insert_ne; [done|]. intros <-. rewrite Hp in Hc. injection Hc as <-.
        unfold handshake in Hh. by destruct Hpcc as [Ec|[ok Ec]]; rewrite Ec in Hh.
Qed.
