(* ===== verification/ProcessWaitProps.v ===== *)
(** * Processes and their parents: the theorems

    Every run of [ProcessWait.step] from the first process on keeps the
    invariant of ProcessWaitInv; this gives memory safety of the wait
    statuses, the meaning of [process_wait], and that processes do not wait
    for each other in a circle. *)

From stdpp Require Import gmap.
From S2P Require Import Prelude ProcessWait ProcessWaitInv.

(** ** The program *)

Lemma find_child_spec s x l : (∀ cs, cs ∈ l → ∃ w, heap s !! cs = Some w) →
  (∃ cs w, find_child s x l = Ok (Some cs) ∧ cs ∈ l ∧ heap s !! cs = Some w ∧ wtid w = x) ∨
  find_child s x l = Ok None ∧ ∀ cs w, cs ∈ l → heap s !! cs = Some w → wtid w ≠ x.
Proof.
  induction l as [|cs l IH]; intros Hl; cbn.
  { right. split; [done|]. by intros cs w []%not_elem_of_nil. }
  destruct (Hl cs) as [w Hw]; [by left|]. rewrite Hw. cbn. destruct (Z.eqb_spec (wtid w) x) as [E|E].
  { left. exists cs, w. split_and!; [done|by left|done|done]. }
  destruct IH as [(cs' & w' & ? & ? & ?)|[? Hn]]; [intros; apply Hl; by right|left; exists cs', w'; split_and!; try tauto; by right|].
  right. split; [done|]. intros cs' w' [->|?]%elem_of_cons Hw'; [congruence|by apply (Hn cs')].
Qed.

(** The children of a process are allocated. *)
Lemma children_status s t p : inv s → procs s !! t = Some p → ∀ cs, cs ∈ children p → ∃ w, heap s !! cs = Some w.
Proof.
  intros Hi Hp cs Hcs. pose proof (in_proc _ Hi t p Hp) as Hpo.
  destruct (po_held _ _ _ Hpo cs) as (w & _ & ? & _); [|by exists w].
  unfold child_phase, held. destruct (busy p) as [[x a]|] eqn:Hb; [|by rewrite decide_True].
  rewrite decide_False, decide_True; [done|done|]. intros ->. by apply (po_busy _ _ _ Hpo cs a).
Qed.

Lemma child_has p cs : busy p = None → cs ∈ children p → child_phase p cs = Has.
Proof. intros Hb Hcs. unfold child_phase, held. by rewrite Hb, decide_True. Qed.

(** A process turns to one of its children. *)
Lemma child_step s t p l a cs rest : inv s → procs s !! t = Some p → busy p = None → handshake p = false → cs ∈ children p →
  let p' := go l (set_children rest p) in
  busy p' = Some (cs, a) → self_phase p' = self_phase p → handshake p' = false → pc_ok s t p' →
  (∀ s', pc_ok s t p' → pc_ok s' t p') → cnt a = 1 → ¬ locked a → a ≠ Rd →
  NoDup rest → (cs ∉ rest) → (∀ x, x ≠ cs → (x ∈ rest ↔ x ∈ children p)) → inv (put t p' s).
Proof.
  intros Hi Hp Hb Hh Hcs p' Hb' Hself Hh' Hpc Hpc' Hc Hl Hr Hnd Hno Hrest.
  destruct (children_status s t p Hi Hp cs Hcs) as [w Hw].
  assert (put t p' s = put t p' (put_status cs w s)) as ->.
  { unfold put, put_status. cbn. by rewrite (insert_id (heap s) cs w). }
  apply (parent_step s t p p' cs w w); try done.
  - by rewrite (child_has p cs).
  - intros x Hx. rewrite (child_busy_ne _ cs a) by done. unfold child_phase. rewrite Hb. cbn. unfold held.
    specialize (Hrest x Hx). destruct (decide (x ∈ rest)), (decide (x ∈ children p)); tauto.
  - intros x c. rewrite Hb'. by intros [= <- _].
  - intros s' _. by apply Hpc'.
  - rewrite (child_has p cs), (child_busy _ cs a) by done. intros c u Hu Hs. apply shared_sym, (shared_move Has a _ w); try done; [by apply shared_sym|by intros []].
  - rewrite (child_has p cs), (child_busy _ cs a) by done. intros c code [M1 M2 M3]. split; [|done|done]. intros _. apply M1. by left.
Qed.

Lemma user_step s t p i : inv s → procs s !! t = Some p → at_pc p = User → what i ≠ Execute →
  ∃ s', step t i s = Ok s' ∧ inv s'.
Proof.
  intros Hi Hp Hpc Hw. pose proof (in_proc _ Hi t p Hp) as Hpo. unfold step. rewrite Hp. cbn [deref mbind res_bind]. rewrite Hpc.
  assert (busy p = None ∧ handshake p = false ∧ self_phase p = Has) as (Hb & Hh & Hs) by (unfold busy, handshake, self_phase; by rewrite Hpc).
  destruct (what i) as [|x|code|]; [done| | |by exists s].
  - unfold process_wait. destruct (find_child_spec s x (children p) (children_status s t p Hi Hp)) as [(cs & w & -> & Hcs & _)|[-> _]]; cbn [mbind res_bind].
    + eexists. split; [done|]. apply (child_step s t p (WaitDown cs) Wr cs); try done.
      * by intros [].
      * apply NoDup_filter, Hpo.
      * intros [? _]%list_elem_of_filter. done.
      * intros y Hy. rewrite list_elem_of_filter. tauto.
    + eexists. split; [done|]. apply (keeps_step s t p); try done. split; try done.
      * intros _. split; [done|by left].
      * by rewrite Hs.
      * intros y. unfold child_phase. by rewrite Hb.
      * apply Hpo.
  - eexists. split; [done|]. set (p' := process_exit _).
    assert (own p' = own p ∧ children p' = children p ∧ busy p' = None ∧ handshake p' = false) as (E1 & E2 & E3 & E4).
    { unfold p', process_exit, busy, handshake. cbn. by destruct (own p). }
    apply (keeps_step s t p); try done.
    + split; try done.
      * intros Ho. unfold p', process_exit. cbn. destruct (own p) as [cs|]; [|done]. rewrite Hs. split; [done|by right].
      * by rewrite Hs.
      * intros y. unfold child_phase. by rewrite Hb, E3.
      * rewrite E2. apply Hpo.
      * by rewrite E3.
    + unfold pc_ok, p', process_exit. cbn. by destruct (own p).
Qed.

(** ** Waiting *)

Lemma wait_down_step s t p cs i : inv s → procs s !! t = Some p → at_pc p = WaitDown cs → ∃ w, heap s !! cs = Some w ∧
  (step t i s = Err EBlock ∧ dead w ≤ 0 ∨ ∃ s', step t i s = Ok s' ∧ inv s').
Proof.
  intros Hi Hp Hpc. assert (busy p = Some (cs, Wr)) as Hb by (unfold busy; by rewrite Hpc).
  destruct (busy_status s t p cs Wr Hi Hp Hb I) as (w & Hw). exists w. split; [done|].
  unfold step. rewrite Hp. cbn [deref mbind res_bind]. rewrite Hpc, Hw. cbn [deref mbind res_bind].
  destruct (Z.ltb_spec 0 (dead w)) as [Hd|Hd]; [right|by left]. eexists. split; [done|].
  apply (busy_step s t p _ cs Wr Rd w); try done; try (by at_pc_of Hpc).
  - intros c u Hu Hs. apply shared_sym, (shared_move Wr Rd _ w); try done; try (by intros []). by apply shared_sym.
  - intros c code [M1 M2 M3]. split; [by intros [?|?]| |done]. intros _. specialize (M1 (or_intror eq_refl)).
    destruct (upped c); [done|lia].
Qed.

Lemma wait_read_step s t p cs i : inv s → procs s !! t = Some p → at_pc p = WaitRead cs → ∃ s', step t i s = Ok s' ∧ inv s'.
Proof.
  intros Hi Hp Hpc. assert (busy p = Some (cs, Rd)) as Hb by (unfold busy; by rewrite Hpc).
  pose proof (in_proc _ Hi t p Hp) as Hpo.
  destruct (po_held _ _ _ Hpo cs) as (w & c & Hw & Hc & Hpa); [by rewrite (child_busy p cs Rd)|].
  unfold step. rewrite Hp. cbn [deref mbind res_bind]. rewrite Hpc, Hw. cbn [deref mbind res_bind]. eexists. split; [done|].
  destruct (in_status _ Hi cs w Hw) as (c2 & q & Hc2 & Hq & Ho & _ & [M1 M2 M3]). rewrite Hc in Hc2. injection Hc2 as <-.
  rewrite Hpa, Hp in Hq. injection Hq as <-. rewrite (child_busy p cs Rd Hb) in M2. specialize (M2 eq_refl).
  assert (∀ x, put t x s = put t x (put_status cs w s)) as ->.
  { intros x. unfold put, put_status. cbn. by rewrite (insert_id (heap s) cs w). }
  apply (busy_step s t p _ cs Rd Acq w); try done; try (by at_pc_of Hpc).
  - intros s' He. at_pc_of Hpc. apply He. exists c. split_and!; [done|done|done| |done]. symmetry. apply M3. by right.
  - intros c' u Hu Hs. apply shared_sym, (shared_move Rd Acq _ w); try done; try (by intros []). by apply shared_sym.
  - intros c' code Hm. eapply message_parent; [done|done|done|intros [?|?]; done|done].
Qed.

(** ** Exiting *)

Lemma exit_code_step s t p cs i : inv s → procs s !! t = Some p → at_pc p = ExitCode cs ∨ at_pc p = ExitUp cs → ∃ s', step t i s = Ok s' ∧ inv s'.
Proof.
  intros Hi Hp Hpc. pose proof (in_proc _ Hi t p Hp) as Hpo. pose proof (po_pc _ _ _ Hpo) as Ho. unfold pc_ok in Ho.
  unfold step. rewrite Hp. cbn [deref mbind res_bind].
  destruct Hpc as [Hpc|Hpc]; rewrite Hpc in Ho |- *;
    (destruct (po_self _ _ _ Hpo cs Ho) as (w & Hw & Hwt); [unfold self_phase; by rewrite Hpc|]);
    rewrite Hw; cbn [deref mbind res_bind]; (eexists; split; [done|]);
    apply (self_step s t p _ cs w); try done; try (by at_pc_of Hpc).
  - intros q u Hu. at_pc_of Hpc. intros Hs. apply (shared_move Has Wr _ w); try done; by intros [].
  - intros q. at_pc_of Hpc. intros [M1 M2 M3]. split; cbn; [done|done|done].
  - intros q u Hu. at_pc_of Hpc. intros Hs. apply (shared_move Wr Acq _ w); try done; by intros [].
  - intros q. at_pc_of Hpc. intros [M1 M2 M3]. cbn in M1. split; cbn [set_dead dead upped wexit]; [|done|].
    + intros Hq. rewrite M1 by done. done.
    + intros _. apply M3. by left.
Qed.

Lemma exit_kids_step s t p i : inv s → procs s !! t = Some p → at_pc p = ExitKids → ∃ s', step t i s = Ok s' ∧ inv s'.
Proof.
  intros Hi Hp Hpc. pose proof (in_proc _ Hi t p Hp) as Hpo. unfold step. rewrite Hp. cbn [deref mbind res_bind]. rewrite Hpc.
  assert (busy p = None ∧ handshake p = false ∧ self_phase p = Gone) as (Hb & Hh & Hs) by (unfold busy, handshake, self_phase; by rewrite Hpc).
  destruct (children p) as [|cs l] eqn:Hc.
  - eexists. split; [done|]. apply (keeps_step s t p); try done. split; try done.
    + intros _. rewrite Hs. split; [done|by left].
    + intros x. unfold child_phase. by rewrite Hb.
    + cbn. rewrite Hc. apply NoDup_nil_2.
  - destruct (children_status s t p Hi Hp cs) as [w ->]; [rewrite Hc; by left|]. cbn [deref mbind res_bind].
    eexists. split; [done|]. pose proof (po_dup _ _ _ Hpo) as Hnd. rewrite Hc in Hnd. apply NoDup_cons in Hnd as [Hno Hnd].
    apply (child_step s t p (Acquire cs KKids) Acq cs); try done; [rewrite Hc; by left|by intros []|].
    intros x Hx. rewrite Hc, elem_of_cons. tauto.
Qed.

(** ** Starting a process *)

Lemma keeps_exited s s' : (∀ u r, procs s !! u = Some r → ∃ r', procs s' !! u = Some r' ∧ keeps r r') →
  ∀ v x code cs, exited s v x code (λ o, o = Some cs) → exited s' v x code (λ o, o = Some cs).
Proof.
  intros Hk v x code cs (c & Hc & H1 & H2 & H3 & H4). destruct (Hk x c Hc) as (c' & Hc' & [K1 K2 K3 K4 K5 K6 K7 K8]).
  destruct (K5 H2). exists c'. split_and!; congruence.
Qed.

(** Another program counter outside of [process_wait] and [process_exit]. *)
Lemma keeps_go s t p l : proc_ok s t p → busy p = None → busy (go l p) = None → (own p ≠ None → self_phase (go l p) = self_phase p) →
  (upped (self_phase p) = true → upped (self_phase (go l p)) = true) → keeps p (go l p).
Proof.
  intros Hpo Hb Hb' Hs Hu. split; try done.
  - intros Ho. split; [by apply Hs|by left].
  - intros H. split; [by apply Hu|done].
  - intros x. unfold child_phase. by rewrite Hb, Hb'.
  - apply Hpo.
  - by rewrite Hb'.
Qed.

Lemma execute_step s t p i : inv s → procs s !! t = Some p → at_pc p = User → what i = Execute →
  ∃ s', step t i s = Ok s' ∧ inv s'.
Proof.
  intros Hi Hp Hpc Hw. pose proof (in_proc _ Hi t p Hp) as Hpo. unfold step. rewrite Hp. cbn [deref mbind res_bind]. rewrite Hpc, Hw.
  assert (busy p = None ∧ handshake p = false ∧ self_phase p = Has) as (Hb & Hh & Hs) by (unfold busy, handshake, self_phase; by rewrite Hpc).
  eexists. split; [done|]. unfold process_execute. destruct (created i).
  2:{ apply (keeps_step s t p); try done. split; try done.
      - intros _. split; [done|by left].
      - by rewrite Hs.
      - intros y. unfold child_phase. by rewrite Hb.
      - apply Hpo. }
  set (nt := next_tid s). set (e := ExecInfo 0 None false). set (kid := Process Start t None [] (-1) 0 []).
  pose proof (po_tid _ _ _ Hpo) as Ht. fold nt in Ht.
  assert (procs s !! nt = None) as Hnt.
  { destruct (procs s !! nt) as [r|] eqn:E; [|done]. pose proof (po_tid _ _ _ (in_proc _ Hi nt r E)). unfold nt in *. lia. }
  set (s' := put _ _ _). assert (∀ u, procs s' !! u = if decide (u = t) then Some (go (ExecDown nt e) p) else if decide (u = nt) then Some kid else procs s !! u) as Hl.
  { intros u. unfold s', put. cbn. destruct (decide (u = t)) as [->|]; [by rewrite lookup_insert_eq|]. rewrite lookup_insert_ne by done.
    destruct (decide (u = nt)) as [->|]; [by rewrite lookup_insert_eq|by rewrite lookup_insert_ne]. }
  assert (∀ u r, procs s !! u = Some r → ∃ r', procs s' !! u = Some r' ∧ keeps r r') as Hk.
  { intros u r Hr. rewrite Hl. destruct (decide (u = t)) as [->|].
    - rewrite Hp in Hr. injection Hr as <-. eexists. split; [done|]. apply (keeps_go s t); try done. by rewrite Hs.
    - rewrite decide_False by congruence. exists r. split; [done|]. by eapply keeps_refl, in_proc. }
  apply (keeps_inv s s'); try done.
  - intros u r. rewrite Hl. destruct (decide (u = t)) as [->|]; [intros _; left; by exists p|].
    destruct (decide (u = nt)) as [->|]; [|intros ?; left; by exists r]. intros [= <-]. right. by unfold newborn.
  - intros u r Hr. rewrite Hl in Hr. destruct (decide (u = t)) as [->|Hu].
    { injection Hr as <-. split; [|cbn; fold nt; lia]. unfold pc_ok. cbn [go at_pc]. split_and!; [lia|done|]. right. split; [done|].
      exists kid. rewrite Hl, decide_False, decide_True by lia. split_and!; [done|done|by left]. }
    destruct (decide (u = nt)) as [->|Hn].
    { injection Hr as <-. split; [|cbn; fold nt; lia]. unfold pc_ok. cbn [kid at_pc own parent]. split; [done|].
      eexists. rewrite Hl, decide_True by done. done. }
    pose proof (in_proc _ Hi u r Hr) as [P1 _ _ _ _ P6 _]. split; [|cbn; lia].
    apply (pc_frame s); [done|by apply keeps_exited| |].
    + intros q f Hq Eq _. rewrite Hl. rewrite decide_False by (intros E; rewrite E, Hp in Hq; injection Hq as <-; by rewrite Hpc in Eq).
      rewrite decide_False; [done|congruence].
    + intros x f c E Hc _ Hpcc. rewrite Hl. rewrite decide_False, decide_False; [done|congruence|]. intros ->. rewrite Hp in Hc. injection Hc as <-.
      by destruct Hpcc as [Ec|[ok Ec]]; rewrite Ec in Hpc.
Qed.

Lemma shared_new t u : shared Has Has (WaitStatus None 2 t 0 0) t u.
Proof.
  split; cbn; [done| | |tauto|tauto|lia].
  - intros v. split; [done|tauto].
  - by intros n [?|?].
Qed.

(** The process [t] and its parent, which waits for it. *)
Section pair.
Context (s : system) (t : Z) (p q : process) (e : exec_info).
Context (Hi : inv s) (Hp : procs s !! t = Some p) (Hq : procs s !! parent p = Some q) (Hpq : at_pc q = ExecDown t e)
  (Hpc : at_pc p = Start ∨ ∃ ok, at_pc p = Notify ok).

Lemma pair_apart : parent p < t < next_tid s.
Proof using Hi Hp. apply (in_proc _ Hi t p Hp). Qed.

Lemma pair_other s' u r : (∀ v, v ≠ t → v ≠ parent p → procs s' !! v = procs s !! v) →
  (∀ v x code cs, exited s v x code (λ o, o = Some cs) → exited s' v x code (λ o, o = Some cs)) →
  procs s !! u = Some r → u ≠ t → u ≠ parent p → pc_ok s' u r.
Proof using Hi Hp Hq Hpq Hpc.
  intros Hl He Hr Hu1 Hu2. pose proof (in_proc _ Hi u r Hr) as [P1 _ _ _ _ P6 _].
  assert (at_pc p ≠ ExecDown u (ExecInfo 0 None false) ∧ ∀ x f, at_pc p ≠ ExecDown x f) as [_ Hne] by (by destruct Hpc as [->|[ok ->]]).
  apply (pc_frame s); [done|done| |].
  - intros r2 f Hr2 E2 _. rewrite Hl; [done| |].
    + intros E. rewrite E, Hp in Hr2. injection Hr2 as <-. by destruct (Hne u f).
    + intros E. rewrite E, Hq in Hr2. injection Hr2 as <-. rewrite Hpq in E2. congruence.
  - intros x f c E Hc Hpa Hpcc. rewrite Hl; [done| |].
    + intros ->. rewrite Hp in Hc. injection Hc as <-. congruence.
    + intros ->. rewrite Hq in Hc. injection Hc as <-. by destruct Hpcc as [Ec|[ok Ec]]; rewrite Ec in Hpq.
Qed.

(** Both move on without a new status. *)
Lemma pair_keeps l f : ewait_status f = ewait_status e →
  busy (go l p) = None → (own p ≠ None → self_phase (go l p) = Has) →
  (∀ s', procs s' !! parent p = Some (go (ExecDown t f) q) → procs s' !! t = Some (go l p) →
     pc_ok s' t (go l p) ∧ pc_ok s' (parent p) (go (ExecDown t f) q)) →
  inv (put t (go l p) (put (parent p) (go (ExecDown t f) q) s)).
Proof using Hi Hp Hq Hpq Hpc.
  intros Hf Hb Hs Hpcs. pose proof pair_apart as Hlt. set (s' := put _ _ _).
  assert (∀ v, procs s' !! v = if decide (v = t) then Some (go l p) else if decide (v = parent p) then Some (go (ExecDown t f) q) else procs s !! v) as Hl.
  { intros v. unfold s', put. cbn. destruct (decide (v = t)) as [->|]; [by rewrite lookup_insert_eq|]. rewrite lookup_insert_ne by done.
    destruct (decide (v = parent p)) as [->|]; [by rewrite lookup_insert_eq|by rewrite lookup_insert_ne]. }
  assert (self_phase p = Has ∧ busy p = None) as [Hs0 Hb0] by (unfold self_phase, busy; by destruct Hpc as [->|[ok ->]]).
  pose proof (in_proc _ Hi _ q Hq) as Hqo.
  assert (busy (go (ExecDown t f) q) = busy q) as Hbq by (unfold busy; cbn; by rewrite Hpq, Hf).
  assert (∀ u r, procs s !! u = Some r → ∃ r', procs s' !! u = Some r' ∧ keeps r r') as Hk.
  { intros u r Hr. rewrite Hl. destruct (decide (u = t)) as [->|].
    { rewrite Hp in Hr. injection Hr as <-. eexists. split; [done|]. apply (keeps_go s t); try done; [by apply Hi| |].
      - rewrite Hs0. done.
      - by rewrite Hs0. }
    destruct (decide (u = parent p)) as [->|]; [|exists r; split; [done|by eapply keeps_refl, in_proc]].
    rewrite Hq in Hr. injection Hr as <-. eexists. split; [done|].
    assert (self_phase (go (ExecDown t f) q) = self_phase q) as Hsq by (unfold self_phase; cbn; by rewrite Hpq).
    destruct Hqo as [_ _ _ Q4 Q5 _ _]. split; try done.
    - intros _. rewrite Hsq. split; [done|by left].
    - by rewrite Hsq.
    - intros x. unfold child_phase. by rewrite Hbq.
    - rewrite Hbq. apply Q5. }
  apply (keeps_inv s s'); try done.
  - intros u r. rewrite Hl. destruct (decide (u = t)) as [->|]; [intros _; left; by exists p|].
    destruct (decide (u = parent p)) as [->|]; [intros _; left; by exists q|intros ?; left; by exists r].
  - destruct (Hpcs s') as [Hp1 Hp2]; [by rewrite Hl, decide_False, decide_True by lia|by rewrite Hl, decide_True by done|].
    intros u r Hr. rewrite Hl in Hr. destruct (decide (u = t)) as [->|]; [injection Hr as <-; by split|].
    destruct (decide (u = parent p)) as [->|]; [injection Hr as <-; split; [done|apply Hqo]|].
    split; [|apply (in_proc _ Hi u r Hr)]. apply pair_other; try done; [|by apply keeps_exited].
    intros v ? ?. by rewrite Hl, !decide_False by done.
Qed.

(** The process allocates its status. *)
Lemma pair_new cs : heap s !! cs = None → own p = None → e = ExecInfo 0 None false → at_pc p = Start →
  let p' := Process (Notify true) (parent p) (Some cs) (children p) (exit_code p) (eax p) (waited p) in
  let q' := go (ExecDown t (ExecInfo 0 (Some cs) true)) q in
  inv (put t p' (put (parent p) q' (put_status cs (WaitStatus None 2 t 0 0) s))).
Proof using Hi Hp Hq Hpq Hpc.
  intros Hcs Ho Ee Hst p' q'. pose proof pair_apart as Hlt. set (w := WaitStatus None 2 t 0 0). set (s' := put _ _ _).
  assert (∀ v, procs s' !! v = if decide (v = t) then Some p' else if decide (v = parent p) then Some q' else procs s !! v) as Hl.
  { intros v. unfold s', put. cbn. destruct (decide (v = t)) as [->|]; [by rewrite lookup_insert_eq|]. rewrite lookup_insert_ne by done.
    destruct (decide (v = parent p)) as [->|]; [by rewrite lookup_insert_eq|by rewrite lookup_insert_ne]. }
  pose proof (in_proc _ Hi _ q Hq) as Hqo. pose proof (in_proc _ Hi _ p Hp) as Hpo.
  assert (self_phase p = Has ∧ busy p = None) as [Hs0 Hb0] by (unfold self_phase, busy; by rewrite Hst).
  assert (busy q = None) as Hb1 by (unfold busy; by rewrite Hpq, Ee).
  assert (∀ r, ¬ live (child_phase r cs) → busy r = None → cs ∉ children r) as Hout.
  { intros r Hd Hb Hin. apply Hd. by rewrite (child_has r cs). }
  assert (¬ live (child_phase q cs)) as Hdq by (intros Hlv; destruct (po_held _ _ _ Hqo cs Hlv) as (? & ? & ? & _); congruence).
  assert (∀ u r, procs s !! u = Some r → ∃ r', procs s' !! u = Some r' ∧ sim cs r r') as Hk.
  { intros u r Hr. rewrite Hl. destruct (decide (u = t)) as [->|].
    { rewrite Hp in Hr. injection Hr as <-. exists p'. split; [done|]. split; try done; [by right|by rewrite Hs0| |apply Hpo].
      intros x _. unfold child_phase. by rewrite Hb0. }
    destruct (decide (u = parent p)) as [->|]; [|exists r; split; [done|by eapply sim_refl, in_proc]].
    rewrite Hq in Hr. injection Hr as <-. exists q'. split; [done|].
    assert (self_phase q' = self_phase q) as Hsq by (unfold self_phase; cbn; by rewrite Hpq). split; try done.
    - by left.
    - intros _. rewrite Hsq. split; [done|by left].
    - by rewrite Hsq.
    - intros x Hx. rewrite (child_busy_ne q' cs Has) by done. unfold child_phase. by rewrite Hb1.
    - apply Hqo.
    - intros x a [= <- <-]. by apply (Hout q). }
  apply (phases_inv s s' cs); try done.
  - intros x Hx. cbn. by rewrite lookup_insert_ne.
  - intros u r. rewrite Hl. destruct (decide (u = t)) as [->|]; [intros _; left; by exists p|].
    destruct (decide (u = parent p)) as [->|]; [intros _; left; by exists q|intros ?; left; by exists r].
  - intros w'. cbn. rewrite lookup_insert_eq. intros [= <-]. split; [|exists p; by rewrite Hs0].
    exists p', q'. rewrite !Hl. cbn [wtid w parent p']. rewrite decide_True, decide_False, decide_True by (done || lia).
    rewrite (child_busy q' cs Has) by done. split_and!; try done; [|split; [done|done|by intros [?|?]]]. apply shared_new.
  - intros u r r' Hr Hr' Hn Hs. rewrite Hl in Hr'. exists w. cbn. rewrite lookup_insert_eq. split; [done|].
    destruct (decide (u = t)) as [->|]; [done|]. destruct (decide (u = parent p)) as [->|]; [|congruence].
    injection Hr' as <-. cbn in Hs. congruence.
  - intros u r r' Hr Hr' Hlv. rewrite Hl in Hr'. destruct (decide (u = t)) as [->|].
    { injection Hr' as <-. rewrite Hp in Hr. injection Hr as <-. left. unfold child_phase in Hlv |- *. by rewrite Hb0. }
    destruct (decide (u = parent p)) as [->|]; [|left; congruence]. right. exists w, p'. cbn [heap s' put put_status].
    rewrite lookup_insert_eq, Hl, decide_True by done. done.
  - intros u r Hr. rewrite Hl in Hr. destruct (decide (u = t)) as [->|].
    { injection Hr as <-. split; [|done]. unfold pc_ok. cbn [at_pc p' own parent]. split; [done|]. exists q'.
      rewrite Hl, decide_False, decide_True by lia. done. }
    destruct (decide (u = parent p)) as [->|].
    { injection Hr as <-. split; [|apply Hqo]. unfold pc_ok. cbn [at_pc q' go]. split_and!; [lia|done|]. right. split; [done|].
      exists p'. rewrite Hl, decide_True by done. split_and!; [done|done|]. right. by exists true. }
    split; [|apply (in_proc _ Hi u r Hr)]. apply pair_other; try done.
    + intros v ? ?. by rewrite Hl, !decide_False by done.
    + intros v x code y Hx. eapply phases_exited; [exact Hk|exact Hx|]. cbn. intros o o' -> [?|?]; congruence.
Qed.
End pair.

Lemma start_step s t p i : inv s → procs s !! t = Some p → at_pc p = Start → fresh s i → ∃ s', step t i s = Ok s' ∧ inv s'.
Proof.
  intros Hi Hp Hpc Hf. pose proof (po_pc _ _ _ (in_proc _ Hi t p Hp)) as Hk. unfold pc_ok in Hk. rewrite Hpc in Hk.
  destruct Hk as (Ho & q & Hq & Hpq). unfold step. rewrite Hp. cbn [deref mbind res_bind]. rewrite Hpc.
  unfold start_process, get_exec. rewrite Hq. cbn [deref mbind res_bind]. rewrite Hpq. cbn [mbind res_bind load_done ewait_status].
  assert (inv (put t (go (Notify false) p) (put (parent p) (go (ExecDown t (ExecInfo 0 None false)) q) s))) as Hfail.
  { apply (pair_keeps s t p q (ExecInfo 0 None false)); try done; [by left|]. intros s' H1 H2. pose proof (in_proc _ Hi t p Hp) as Hpo. split.
    - unfold pc_ok. cbn [go at_pc own parent]. rewrite Ho. split; [done|]. by eexists.
    - unfold pc_ok. cbn [go at_pc]. split_and!; [apply Hpo|done|]. right. split; [done|]. eexists. split_and!; [done|done|]. right. by exists false. }
  destruct (loaded i); [|by eexists]. destruct (malloc i) as [cs|] eqn:Hm; [|by eexists].
  eexists. split; [done|]. apply (pair_new s t p q (ExecInfo 0 None false)); try done; [by left|by apply Hf].
Qed.

Lemma notify_step s t p i ok : inv s → procs s !! t = Some p → at_pc p = Notify ok → ∃ s', step t i s = Ok s' ∧ inv s'.
Proof.
  intros Hi Hp Hpc. pose proof (in_proc _ Hi t p Hp) as Hpo. pose proof (po_pc _ _ _ Hpo) as Hk. unfold pc_ok in Hk. rewrite Hpc in Hk.
  destruct Hk as (Ho & q & Hq & Hpq). unfold step. rewrite Hp. cbn [deref mbind res_bind]. rewrite Hpc.
  unfold notify, get_exec. rewrite Hq. cbn [deref mbind res_bind]. rewrite Hpq. cbn [mbind res_bind load_done ewait_status success].
  eexists. split; [done|]. assert ((if ok then go User p else process_exit p) = go (if ok then User else ExitKids) p) as ->.
  { destruct ok; [done|]. unfold process_exit. destruct (own p); [done|done]. }
  apply (pair_keeps s t p q (ExecInfo 0 (own p) ok)); try done.
  - right. by exists ok.
  - by destruct ok.
  - intros Hno. destruct ok; [done|]. by apply bool_decide_eq_false in Ho.
  - intros s' H1 H2. split; [by destruct ok|]. unfold pc_ok. cbn [go at_pc success ewait_status load_done]. split_and!; [apply Hpo|done|by left].
Qed.

(** The parent goes on with the status of the new child in its list. *)
Lemma exec_return s t p x e v : inv s → procs s !! t = Some p → at_pc p = ExecDown x e → 0 < load_done e →
  inv (put t (returns v (set_children (children p ++ match ewait_status e with Some cs => [cs] | None => [] end) p)) s).
Proof.
  intros Hi Hp Hpc Hld. pose proof (in_proc _ Hi t p Hp) as Hpo. set (p' := returns v _). set (s' := put t p' s).
  assert (busy p = match ewait_status e with Some cs => Some (cs, Has) | None => None end) as Hb by (unfold busy; by rewrite Hpc).
  assert (keeps p p') as Hkp.
  { destruct Hpo as [_ _ _ P4 P5 _ _]. split; try done.
    - intros _. unfold self_phase. rewrite Hpc. split; [done|by left].
    - unfold self_phase. by rewrite Hpc.
    - intros y. unfold child_phase. rewrite Hb. cbn. unfold held. destruct (ewait_status e) as [cs|]; [|by rewrite app_nil_r].
      destruct (decide (cs = y)) as [->|Hy]; [rewrite decide_True; [done|set_solver]|]. apply decide_ext. set_solver.
    - cbn. destruct (ewait_status e) as [cs|]; [|by rewrite app_nil_r]. apply NoDup_app. split_and!; [done| |apply NoDup_singleton].
      intros y Hy ->%list_elem_of_singleton. by apply (P5 cs Has). }
  assert (∀ u, procs s' !! u = if decide (u = t) then Some p' else procs s !! u) as Hl.
  { intros u. cbn. destruct (decide (u = t)) as [->|]; [by rewrite lookup_insert_eq|by rewrite lookup_insert_ne]. }
  assert (∀ u r, procs s !! u = Some r → ∃ r', procs s' !! u = Some r' ∧ keeps r r') as Hk.
  { intros u r Hr. rewrite Hl. destruct (decide (u = t)) as [->|]; [|exists r; split; [done|by eapply keeps_refl, in_proc]].
    rewrite Hp in Hr. injection Hr as <-. by exists p'. }
  apply (keeps_inv s s'); try done.
  - intros u r. rewrite Hl. destruct (decide (u = t)) as [->|]; [intros _; left; by exists p|intros ?; left; by exists r].
  - intros u r Hr. rewrite Hl in Hr. destruct (decide (u = t)) as [->|]; [injection Hr as <-; split; [done|apply Hpo]|].
    pose proof (in_proc _ Hi u r Hr) as [P1 _ _ _ _ P6 _]. split; [|done]. apply (pc_frame s); [done|by apply keeps_exited| |].
    + intros q f Hq Eq Hf. rewrite Hl, decide_False; [done|]. intros E. rewrite E, Hp in Hq. injection Hq as <-.
      rewrite Hpc in Eq. injection Eq as _ <-. lia.
    + intros y f c E Hc _ Hpcc. rewrite Hl, decide_False; [done|]. intros ->. rewrite Hp in Hc. injection Hc as <-.
      by destruct Hpcc as [Ec|[ok Ec]]; rewrite Ec in Hpc.
Qed.

Lemma exec_down_step s t p i x e : inv s → procs s !! t = Some p → at_pc p = ExecDown x e →
  step t i s = Err EBlock ∧ load_done e ≤ 0 ∨ ∃ s', step t i s = Ok s' ∧ inv s'.
Proof.
  intros Hi Hp Hpc. pose proof (in_proc _ Hi t p Hp) as Hpo. pose proof (po_pc _ _ _ Hpo) as Hk. unfold pc_ok in Hk. rewrite Hpc in Hk.
  destruct Hk as (Hx & Hsu & Hld). unfold step. rewrite Hp. cbn [deref mbind res_bind]. rewrite Hpc. unfold exec_down.
  destruct (Z.ltb_spec 0 (load_done e)) as [Hl|Hl]; [right|by left]. rewrite Hsu.
  pose proof (λ v, exec_return s t p x e v Hi Hp Hpc Hl) as Hret. destruct (ewait_status e) as [cs|] eqn:He.
  - rewrite bool_decide_eq_true_2 by done. cbn [deref mbind res_bind].
    destruct (busy_status s t p cs Has Hi Hp) as [w ->]; [unfold busy; by rewrite Hpc, He|done|].
    cbn [deref mbind res_bind]. eexists. split; [done|]. apply Hret.
  - rewrite bool_decide_eq_false_2 by (intros H; by apply H). eexists. split; [done|].
    specialize (Hret TID_ERROR). rewrite app_nil_r in Hret. exact Hret.
Qed.

(** ** Runs *)

(** Why a process waits. *)
Definition stuck (s : system) (t : Z) (p : process) : Prop :=
  match at_pc p with
  | Dead => True
  | ExecDown _ e => load_done e ≤ 0
  | WaitDown cs => ∃ w, heap s !! cs = Some w ∧ dead w ≤ 0
  | Acquire cs _ => ∃ w u, heap s !! cs = Some w ∧ wlock w = Some u ∧ u ≠ t
  | _ => False
  end.

Lemma step_ok s t p i : inv s → procs s !! t = Some p → fresh s i →
  step t i s = Err EBlock ∧ stuck s t p ∨ ∃ s', step t i s = Ok s' ∧ inv s'.
Proof.
  intros Hi Hp Hf. unfold stuck. assert (∀ cs k, (at_pc p = Acquire cs k ∨ at_pc p = Decrement cs k ∨ ∃ n, at_pc p = Release cs n k) →
    step t i s = release_child t p s) as Hrel.
  { intros cs k H. unfold step. rewrite Hp. cbn [deref mbind res_bind]. by destruct H as [->|[->|[n ->]]]. }
  destruct (at_pc p) as [| |ok|x e|cs|cs|cs k|cs k|cs n k|cs n k|cs|cs| |] eqn:Hpc.
  - right. destruct (what i) eqn:Hw; [by eapply execute_step|eapply user_step; try done; by rewrite Hw..].
  - right. by eapply start_step.
  - right. by eapply notify_step.
  - by eapply exec_down_step.
  - destruct (wait_down_step s t p cs i Hi Hp Hpc) as (w & Hw & [[? ?]|?]); [left|by right]. split; [done|]. by exists w.
  - right. by eapply wait_read_step.
  - rewrite (Hrel cs k) by (by left). destruct (release_child_ok s t p cs k Hi Hp) as [(? & _ & ?)|?]; [by left|by left|by right].
  - rewrite (Hrel cs k) by (right; by left). destruct (release_child_ok s t p cs k Hi Hp) as [(_ & ? & _)|?]; [right; by left|congruence|by right].
  - rewrite (Hrel cs k) by (right; right; by exists n).
    destruct (release_child_ok s t p cs k Hi Hp) as [(_ & ? & _)|?]; [right; right; by exists n|congruence|by right].
  - right. unfold step. rewrite Hp. cbn [deref mbind res_bind]. rewrite Hpc. unfold release_child. rewrite Hpc.
    destruct (Z.eqb_spec n 0) as [Hn|Hn].
    + destruct (free_delete s t p cs n k Hi Hp Hpc Hn) as [[w ->] ?]. cbn [deref mbind res_bind]. by eexists.
    + eexists. split; [done|]. by eapply free_keep.
  - right. eapply exit_code_step; [done|done|by left].
  - right. eapply exit_code_step; [done|done|by right].
  - right. by eapply exit_kids_step.
  - left. split; [|done]. unfold step. rewrite Hp. cbn [deref mbind res_bind]. by rewrite Hpc.
Qed.

Lemma boot_inv : inv boot.
Proof.
  split; [|done]. intros t p Hp. unfold boot in Hp; cbn [procs] in Hp; apply lookup_singleton_Some in Hp as [<- <-]. split; try done.
  - apply NoDup_nil_2.
  - by intros x code []%not_elem_of_nil.
Qed.

Lemma wait_run_inv s : rtc steps_to boot s → inv s.
Proof.
  intros Hr. pose proof boot_inv as Hi. revert Hi. induction Hr as [|s s1 s2 (t & i & Hf & Hs) _ IH]; [done|]. intros Hi.
  apply IH. destruct (procs s !! t) as [p|] eqn:Hp; [|unfold step in Hs; by rewrite Hp in Hs].
  destruct (step_ok s t p i Hi Hp Hf) as [[? _]|(s' & E & ?)]; congruence.
Qed.

(** Somebody can go on. *)
Lemma progress s : inv s → ∀ n t p, (Z.to_nat (next_tid s - t) ≤ n)%nat → procs s !! t = Some p → at_pc p ≠ Dead →
  ∃ u s', step u (Input Other true true None) s = Ok s'.
Proof.
  intros Hi. set (i := Input _ _ _ _). assert (fresh s i) as Hf by done.
  induction n as [|n IH]; intros t p Hn Hp Hd; pose proof (in_proc _ Hi t p Hp) as Hpo; pose proof (po_tid _ _ _ Hpo) as Ht; [lia|].
  destruct (step_ok s t p i Hi Hp Hf) as [[_ Hst]|(s' & ? & _)]; [|by exists t, s'].
  pose proof (po_pc _ _ _ Hpo) as Hpc. unfold stuck, pc_ok in *.
  destruct (at_pc p) as [| |ok|x e|cs|cs|cs k|cs k|cs m k|cs m k|cs|cs| |] eqn:E; try done.
  - destruct Hpc as (Hx & _ & [?|(_ & c & Hc & _ & Hcc)]); [lia|]. apply (IH x c); [lia|done|]. by destruct Hcc as [->|[ok ->]].
  - destruct Hst as (w & Hw & Hdd). destruct (po_held _ _ _ Hpo cs) as (w2 & c & Hw2 & Hc & Hpa); [by rewrite (child_busy p cs Wr) by (unfold busy; by rewrite E)|].
    rewrite Hw in Hw2. injection Hw2 as <-. destruct (in_status _ Hi cs w Hw) as (c2 & q & Hc2 & Hq & _ & _ & [M1 _ _]).
    rewrite Hc in Hc2. injection Hc2 as <-. rewrite Hpa, Hp in Hq. injection Hq as <-.
    rewrite (child_busy p cs Wr) in M1 by (unfold busy; by rewrite E). specialize (M1 (or_intror eq_refl)).
    pose proof (po_tid _ _ _ (in_proc _ Hi _ c Hc)). apply (IH (wtid w) c); [lia|done|]. intros Hcd. unfold self_phase in M1. rewrite Hcd in M1. cbn in M1. lia.
  - destruct Hst as (w & u & Hw & Hl & Hu). destruct (in_status _ Hi cs w Hw) as (c & q & Hc & Hq & _ & Hsh & _).
    assert (∀ v r, procs s !! v = Some r → (locked (self_phase r) ∨ locked (child_phase r cs)) → ∃ u s', step u i s = Ok s') as Hgo.
    { intros v r Hr Hlk. destruct (step_ok s v r i Hi Hr Hf) as [[_ Hst]|(s' & ? & _)]; [|by exists v, s'].
      exfalso. unfold stuck, self_phase, child_phase, busy, held in *.
      destruct (at_pc r) as [| |ok|x2 [? [] ?]|cs2|cs2|cs2 [| |]| | | | | | |]; cbn in Hlk; try done; repeat case_decide; destruct Hlk as [[]|[]]. }
    apply (sh_lock _ _ _ _ _ Hsh) in Hl as [[-> Hlk]|[-> Hlk]];
      [apply (Hgo _ c Hc); by left|apply (Hgo _ q Hq); by right].
Qed.

(** ** One call of [process_wait] *)

(** What a step of [u] leaves of the wait statuses and of the other
    processes. *)
Definition framed (u : Z) (s s' : system) : Prop :=
  (∀ cs w w', heap s !! cs = Some w → heap s' !! cs = Some w' → wtid w' = wtid w) ∧
  ∀ t p, u ≠ t → procs s !! t = Some p → t < next_tid s → (∀ x e, at_pc p ≠ ExecDown x e) → procs s' !! t = Some p.

Lemma framed_put u s r : framed u s (put u r s).
Proof. split; [intros cs w w' H1 H2; cbn in H2; congruence|]. intros t p Hne Hp _ _. cbn. by rewrite lookup_insert_ne. Qed.

Lemma framed_status u s r cs w w' : heap s !! cs = Some w → wtid w' = wtid w → framed u s (put u r (put_status cs w' s)).
Proof.
  intros Hw Et. split; [|intros t p Hne Hp _ _; cbn; by rewrite lookup_insert_ne].
  intros x y y' H1 H2. cbn in H2. apply lookup_insert_Some in H2 as [[<- <-]|[_ H2]]; congruence.
Qed.

Lemma framed_free u s r cs : framed u s (put u r (free cs s)).
Proof.
  split; [|intros t p Hne Hp _ _; cbn; by rewrite lookup_insert_ne].
  intros x y y' H1 H2. cbn in H2. apply lookup_delete_Some in H2 as [_ H2]. congruence.
Qed.

Lemma framed_exec u s r v q x e q' h : procs s !! v = Some q → at_pc q = ExecDown x e →
  (∀ cs w, heap s !! cs = Some w → h !! cs = Some w) →
  framed u s (put u r (put v q' (System (procs s) h (next_tid s)))).
Proof.
  intros Hq Hpc Hh. split; [intros cs w w' H1 H2; cbn in H2; rewrite (Hh cs w H1) in H2; congruence|].
  intros t p Hne Hp _ Hx. cbn. rewrite lookup_insert_ne by done. destruct (decide (v = t)) as [->|].
  - rewrite Hp in Hq. injection Hq as <-. by destruct (Hx x e).
  - by rewrite lookup_insert_ne.
Qed.

Lemma get_exec_ok s r q x e : get_exec s r = Ok (q, x, e) → procs s !! parent r = Some q ∧ at_pc q = ExecDown x e.
Proof.
  unfold get_exec. intros H. inv_res. destruct (at_pc a) eqn:E; try done. by injection H as <- <- <-.
Qed.

Lemma release_framed u r s s' : release_child u r s = Ok s' → (∃ cs k n, at_pc r ∈ [Acquire cs k; Decrement cs k; Release cs n k; Free cs n k]) →
  framed u s s'.
Proof.
  unfold release_child. intros H (cs & k & n & Hpc). rewrite !elem_of_cons in Hpc.
  destruct Hpc as [E|[E|[E|[E|[]%not_elem_of_nil]]]]; rewrite E in H.
  - inv_res. destruct (wlock a); [by case_match|]. inv_res. by eapply framed_status.
  - inv_res. by eapply framed_status.
  - inv_res. by eapply framed_status.
  - destruct (n =? 0); inv_res; [apply framed_free|apply framed_put].
Qed.

Lemma step_framed u i s s' : fresh s i → step u i s = Ok s' → framed u s s'.
Proof.
  intros Hf H. unfold step in H. apply bind_ok in H as (r & Hr & H). apply deref_ok in Hr.
  destruct (at_pc r) as [| |ok|x e|cs|cs|cs k|cs k|cs n k|cs n k|cs|cs| |] eqn:Hpc.
  - destruct (what i) as [|x|code|].
    + inv_res. unfold process_execute. destruct (created i); [|apply framed_put]. split; [intros cs w w' H1 H2; cbn in H2; congruence|].
      intros t p Hne Hp Ht _. cbn. rewrite !lookup_insert_ne by lia. done.
    + unfold process_wait in H. apply bind_ok in H as (o & _ & H). destruct o; inv_res; apply framed_put.
    + inv_res. apply framed_put.
    + inv_res. split; [intros; congruence|done].
  - unfold start_process in H. apply bind_ok in H as ([[q x] e] & (Hq & He)%get_exec_ok & H).
    destruct (loaded i); [destruct (malloc i) as [cs|] eqn:Hm|]; inv_res; eapply framed_exec; try done.
    intros cs' w Hw. cbn. rewrite lookup_insert_ne; [done|]. intros <-. by rewrite (Hf cs Hm) in Hw.
  - unfold notify in H. apply bind_ok in H as ([[q x] e] & (Hq & He)%get_exec_ok & H). inv_res. by eapply framed_exec.
  - unfold exec_down in H. destruct (0 <? load_done e); [|done]. destruct (success e); inv_res; apply framed_put.
  - inv_res. destruct (0 <? dead a); inv_res; by eapply framed_status.
  - inv_res. apply framed_put.
  - eapply release_framed; [exact H|]. exists cs, k, 0. rewrite Hpc. set_solver.
  - eapply release_framed; [exact H|]. exists cs, k, 0. rewrite Hpc. set_solver.
  - eapply release_framed; [exact H|]. exists cs, k, n. rewrite Hpc. set_solver.
  - eapply release_framed; [exact H|]. exists cs, k, n. rewrite Hpc. set_solver.
  - inv_res. by eapply framed_status.
  - inv_res. by eapply framed_status.
  - destruct (children r); inv_res; apply framed_put.
  - done.
Qed.

(** The process [p] is inside [process_wait] for the child [x]. *)
Definition in_wait (s : system) (x : Z) (p : process) : Prop :=
  match at_pc p with
  | WaitDown cs | WaitRead cs => ∃ w, heap s !! cs = Some w ∧ wtid w = x
  | Acquire _ k | Decrement _ k | Release _ _ k | Free _ _ k => ∃ code, k = KWait x code
  | _ => False
  end.

(** A step while the process [t] is in the kernel. *)
Definition within (t : Z) (s s' : system) : Prop :=
  steps_to s s' ∧ ∃ p, procs s !! t = Some p ∧ at_pc p ≠ User.

(** The process [t] goes on in its wait, or returns from it. *)
Lemma wait_own_step s s' t p x i : inv s → procs s !! t = Some p → in_wait s x p → step t i s = Ok s' →
  ∃ p', procs s' !! t = Some p' ∧ (in_wait s' x p' ∨ at_pc p' = User ∧ (x, eax p') ∈ waited p').
Proof.
  intros Hi Hp Hw H. unfold step in H. rewrite Hp in H. cbn [deref] in H. rewrite ok_bind in H. unfold in_wait in Hw.
  destruct (at_pc p) as [| |ok|y e|cs|cs|cs k|cs k|cs n k|cs n k|cs|cs| |] eqn:Hpc; try done.
  - destruct Hw as (w & Hw & Hx). rewrite Hw in H. cbn [deref] in H. rewrite ok_bind in H. destruct (0 <? dead w); [|done]. inv_res.
    eexists. split; [apply lookup_insert_eq|]. left. eexists. split; [apply lookup_insert_eq|done].
  - destruct Hw as (w & Hw & Hx). rewrite Hw in H. cbn [deref] in H. rewrite ok_bind in H. inv_res.
    eexists. split; [apply lookup_insert_eq|]. left. by eexists.
  - destruct Hw as [code ->]. unfold release_child in H. rewrite Hpc in H. inv_res. destruct (wlock a); [by case_match|]. inv_res.
    eexists. split; [apply lookup_insert_eq|]. left. by exists code.
  - destruct Hw as [code ->]. unfold release_child in H. rewrite Hpc in H. inv_res.
    eexists. split; [apply lookup_insert_eq|]. left. by exists code.
  - destruct Hw as [code ->]. unfold release_child in H. rewrite Hpc in H. inv_res.
    eexists. split; [apply lookup_insert_eq|]. left. by exists code.
  - destruct Hw as [code ->]. unfold release_child in H. rewrite Hpc in H. exists (resume (KWait x code) p).
    assert (procs s' !! t = Some (resume (KWait x code) p)) as -> by (destruct (n =? 0); inv_res; apply lookup_insert_eq).
    split; [done|]. right. split; [done|]. cbn. apply elem_of_app. right. apply list_elem_of_singleton. done.
Qed.

Lemma wait_run s s' t p x : inv s → procs s !! t = Some p → in_wait s x p → rtc (within t) s s' →
  inv s' ∧ ∃ p', procs s' !! t = Some p' ∧ (in_wait s' x p' ∨ at_pc p' = User ∧ (x, eax p') ∈ waited p').
Proof.
  intros Hi Hp Hw Hr. revert p Hi Hp Hw. induction Hr as [s|s s1 s2 [(u & i & Hf & Hs) (p0 & Hp0 & Hk)] Hr IH]; intros p Hi Hp Hw.
  { split; [done|]. exists p. split; [done|by left]. }
  destruct (procs s !! u) as [r|] eqn:Hu; [|unfold step in Hs; by rewrite Hu in Hs].
  destruct (step_ok s u r i Hi Hu Hf) as [[? _]|(s1' & E & Hi1)]; [congruence|]. rewrite Hs in E. injection E as <-.
  destruct (step_framed u i s s1 Hf Hs) as [Ht Hq].
  destruct (decide (u = t)) as [->|Hne].
  - destruct (wait_own_step s s1 t p x i Hi Hp Hw Hs) as (p1 & Hp1 & [Hw1|Hret]); [by apply (IH p1)|].
    inversion Hr as [|? s1' ? [_ (p2 & Hp2 & Hk2)] _]; subst; [split; [done|]; exists p1; split; [done|by right]|].
    rewrite Hp1 in Hp2. injection Hp2 as <-. by destruct Hret.
  - assert (procs s1 !! t = Some p) as Hp1.
    { apply Hq; [done|done|apply (po_tid _ _ _ (in_proc _ Hi t p Hp))|]. intros y e E. unfold in_wait in Hw. by rewrite E in Hw. }
    apply (IH p); [done|done|]. unfold in_wait in *.
    assert (∀ cs a, busy p = Some (cs, a) → live a → (∃ w, heap s !! cs = Some w ∧ wtid w = x) → ∃ w, heap s1 !! cs = Some w ∧ wtid w = x) as Hst.
    { intros cs a Hb Hl (w & Hcs & Hx). destruct (busy_status s1 t p cs a Hi1 Hp1 Hb Hl) as [w1 Hw1]. exists w1. split; [done|].
      by rewrite (Ht cs w w1 Hcs Hw1). }
    destruct (at_pc p) as [| |ok|y e|cs|cs|cs k|cs k|cs n k|cs n k|cs|cs| |] eqn:Hpc; try done.
    + apply (Hst cs Wr); [unfold busy; by rewrite Hpc|done|done].
    + apply (Hst cs Rd); [unfold busy; by rewrite Hpc|done|done].
Qed.

(** A child that was waited for is not found again. *)
Lemma waited_again s t p x code i : inv s → procs s !! t = Some p → (x, code) ∈ waited p → at_pc p = User → what i = WaitFor x →
  step t i s = Ok (put t (returns (-1) p) s).
Proof.
  intros Hi Hp Hx Hpc Hw. destruct (po_waited _ _ _ (in_proc _ Hi t p Hp) x code Hx) as [_ Hg].
  unfold step. rewrite Hp. cbn [deref]. rewrite ok_bind, Hpc, Hw. unfold process_wait.
  destruct (find_child_spec s x (children p) (children_status s t p Hi Hp)) as [(cs & w & _ & Hcs & Hw2 & Hwt)|[-> _]]; [|done].
  specialize (Hg cs w Hw2 Hwt). rewrite child_has in Hg; [done|unfold busy; by rewrite Hpc|done].
Qed.

(** ** The theorems *)

(** C3. In every run, under every interleaving, a process uses a wait status only
    while it is allocated, frees it at most once, and uses its lock as locks
    are to be used: a step succeeds or the process has to wait. *)
Theorem wait_status_safe s t p i : rtc steps_to boot s → procs s !! t = Some p → fresh s i →
  step t i s = Err EBlock ∨ ∃ s', step t i s = Ok s'.
Proof.
  intros Hr Hp Hf. destruct (step_ok s t p i (wait_run_inv s Hr) Hp Hf) as [[? _]|(s' & ? & _)]; [by left|right; by exists s'].
Qed.

(** When every process is dead, every wait status has been freed. *)
Theorem wait_status_freed s : rtc steps_to boot s → (∀ t p, procs s !! t = Some p → at_pc p = Dead) → heap s = ∅.
Proof.
  intros Hr Hd. pose proof (wait_run_inv s Hr) as Hi. apply map_empty. intros cs. destruct (heap s !! cs) as [w|] eqn:Hw; [|done].
  destruct (in_status _ Hi cs w Hw) as (c & q & Hc & Hq & _ & [S1 _ _ _ _ S6] & _).
  pose proof (po_pc _ _ _ (in_proc _ Hi _ q Hq)) as Hk. unfold pc_ok in Hk. rewrite (Hd _ q Hq) in Hk.
  unfold self_phase, child_phase, busy, held in *. rewrite (Hd _ c Hc), (Hd _ q Hq), Hk, decide_False in * by apply not_elem_of_nil.
  by destruct (S6 S1).
Qed.

(** C25. [process_wait (x)], from the call to the return, whatever other processes
    do meanwhile.  When no child that the process has yet to wait for has the
    identifier [x], the call returns -1 at once.  Otherwise, when the call
    returns, its result is the exit code of [x], which is a child of the caller
    and has announced its death; and another call for [x] returns -1 at once. *)
Theorem process_wait_correct s t p x i : rtc steps_to boot s → procs s !! t = Some p → at_pc p = User → what i = WaitFor x →
  let waiting := ∃ cs w, cs ∈ children p ∧ heap s !! cs = Some w ∧ wtid w = x in
  ∃ s1, step t i s = Ok s1 ∧
    (¬ waiting → s1 = put t (returns (-1) p) s) ∧
    (waiting → ∀ s2 p2, rtc (within t) s1 s2 → procs s2 !! t = Some p2 → at_pc p2 = User →
       (∃ c, procs s2 !! x = Some c ∧ parent c = t ∧ upped (self_phase c) = true ∧ eax p2 = exit_code c) ∧
       ∀ j, what j = WaitFor x → step t j s2 = Ok (put t (returns (-1) p2) s2)).
Proof.
  intros Hr Hp Hpc Hw waiting. pose proof (wait_run_inv s Hr) as Hi.
  destruct (user_step s t p i Hi Hp Hpc ltac:(congruence)) as (s1 & E & Hi1). exists s1. split; [done|].
  unfold step in E. rewrite Hp in E. cbn [deref] in E. rewrite ok_bind, Hpc, Hw in E. unfold process_wait in E.
  destruct (find_child_spec s x (children p) (children_status s t p Hi Hp)) as [(cs & w & F & Hcs & Hw2 & Hwt)|[F Hno]];
    rewrite F, ok_bind in E; injection E as <-.
  - split; [intros H; destruct H; by exists cs, w|]. intros _ s2 p2 Hrun Hp2 Hpc2.
    destruct (wait_run _ s2 t _ x Hi1 (lookup_insert_eq _ _ _)) with (2 := Hrun) as [Hi2 (p2' & Hp2' & Hend)]; [by exists w|].
    rewrite Hp2 in Hp2'. injection Hp2' as <-. destruct Hend as [Hin|[_ Hret]]; [unfold in_wait in Hin; by rewrite Hpc2 in Hin|].
    destruct (po_waited _ _ _ (in_proc _ Hi2 t p2 Hp2) x _ Hret) as [(c & ? & ? & ? & ? & _) _].
    split; [by exists c|]. intros j Hj. by eapply waited_again.
  - split; [done|]. intros (cs & w & Hcs & Hw2 & Hwt). by destruct (Hno cs w Hcs Hw2).
Qed.

(** C26. Processes do not wait for each other in a circle: as long as some process
    is not dead, some process can go on. *)
Theorem wait_no_deadlock s t p : rtc steps_to boot s → procs s !! t = Some p → at_pc p ≠ Dead →
  ∃ u s', step u (Input Other true true None) s = Ok s'.
Proof. intros Hr Hp Hd. by apply (progress s (wait_run_inv s Hr) _ t p (le_n _)). Qed.

(** ** A run: the first process starts a child, the child exits with code 42,
    the parent waits for it. *)

Definition demo_inputs : list (Z * input) :=
  let go := Input Other true true None in
  [(1, Input Execute true true None); (2, Input Other true true (Some 100)); (2, go); (1, go);
   (2, Input (Exit (Some 42)) true true None); (1, Input (WaitFor 2) true true None);
   (2, go); (2, go); (1, go); (2, go); (1, go); (2, go); (2, go); (1, go); (1, go); (1, go); (1, go)].

Fixpoint run (l : list (Z * input)) (s : system) : res system :=
  match l with [] => Ok s | (t, i) :: l => s ← step t i s; run l s end.
Fixpoint all_fresh (l : list (Z * input)) (s : system) : bool :=
  match l with
  | [] => true
  | (t, i) :: l =>
      match malloc i with Some cs => bool_decide (heap s !! cs = None) | None => true end &&
      match step t i s with Ok s => all_fresh l s | Err _ => true end
  end.

Lemma run_steps l s s' : run l s = Ok s' → all_fresh l s = true → rtc steps_to s s'.
Proof.
  revert s. induction l as [|[t i] l IH]; cbn; intros s; [intros [= ->]; constructor|].
  destruct (step t i s) as [s1|] eqn:E; [|done]. cbn. intros Hr [Hf Ha]%andb_prop. eapply rtc_l; [|by apply IH].
  exists t, i. split; [|done]. intros cs Hm. rewrite Hm in Hf. by apply bool_decide_eq_true in Hf.
Qed.

Definition demo_end : system := result boot (run demo_inputs boot).
Lemma demo_run : rtc steps_to boot demo_end.
Proof. apply (run_steps demo_inputs); vm_compute; reflexivity. Qed.

Definition the_process (s : system) (t : Z) : process := default (Process Dead 0 None [] 0 0 []) (procs s !! t).
Definition is_dead (p : process) : bool := match at_pc p with Dead => true | _ => false end.

Lemma wait_safe_witness : ∃ s', step 1 (Input (Exit None) true true None) demo_end = Ok s'.
Proof.
  destruct (wait_status_safe demo_end 1 (the_process demo_end 1) (Input (Exit None) true true None) demo_run) as [H|H].
  - vm_compute. reflexivity.
  - intros cs H. discriminate H.
  - exfalso. vm_compute in H. discriminate H.
  - exact H.
Defined.

(** The parent calls [process_wait] after these, and goes on with the rest. *)
Definition demo_called : system := result boot (run (take 5 demo_inputs) boot).
Definition demo_wait : input := Input (WaitFor 2) true true None.

Fixpoint all_within (t : Z) (l : list (Z * input)) (s : system) : bool :=
  match l with
  | [] => true
  | (u, i) :: l =>
      match procs s !! t with Some p => match at_pc p with User => false | _ => true end | None => false end &&
      match step u i s with Ok s => all_within t l s | Err _ => true end
  end.

Lemma run_within t l s s' : run l s = Ok s' → all_fresh l s = true → all_within t l s = true → rtc (within t) s s'.
Proof.
  revert s. induction l as [|[u i] l IH]; cbn; intros s; [intros [= ->]; constructor|].
  destruct (step u i s) as [s1|] eqn:E; [|done]. cbn. intros Hr [Hf Ha]%andb_prop [Hw Hl]%andb_prop. eapply rtc_l; [|by apply IH]. split.
  - exists u, i. split; [|done]. intros cs Hm. rewrite Hm in Hf. by apply bool_decide_eq_true in Hf.
  - destruct (procs s !! t) as [p|]; [|done]. exists p. split; [done|]. by destruct (at_pc p).
Qed.

Lemma wait_correct_witness : eax (the_process demo_end 1) = 42 ∧ ∃ c, procs demo_end !! 2 = Some c ∧ exit_code c = 42.
Proof.
  destruct (process_wait_correct demo_called 1 (the_process demo_called 1) 2 demo_wait) as (s1 & E & _ & Hret).
  - apply (run_steps (take 5 demo_inputs)); vm_compute; reflexivity.
  - vm_compute. reflexivity.
  - vm_compute. reflexivity.
  - reflexivity.
  - destruct (Hret) with (s2 := demo_end) (p2 := the_process demo_end 1) as [(c & Hc & _ & _ & Hx) _].
    + exists 100, (default (WaitStatus None 0 0 0 0) (heap demo_called !! 100)). vm_compute. repeat split; repeat constructor.
    + assert (s1 = result boot (step 1 demo_wait demo_called)) as -> by (rewrite E; reflexivity).
      apply (run_within 1 (drop 6 demo_inputs)); vm_compute; reflexivity.
    + vm_compute. reflexivity.
    + vm_compute. reflexivity.
    + assert (eax (the_process demo_end 1) = 42) as E42 by (vm_compute; reflexivity). split; [exact E42|].
      exists c. split; [exact Hc|]. rewrite <- Hx. exact E42.
Defined.

Lemma wait_progress_witness : ∃ u s', step u (Input Other true true None) demo_end = Ok s'.
Proof.
  apply (wait_no_deadlock demo_end 1 (the_process demo_end 1) demo_run).
  - vm_compute. reflexivity.
  - vm_compute. discriminate.
Defined.

Definition demo_exit : list (Z * input) :=
  let go := Input Other true true None in
  demo_inputs ++ [(2, go); (2, go); (1, Input (Exit None) true true None); (1, go)].
Definition demo_dead : system := result boot (run demo_exit boot).
Lemma demo_dead_run : rtc steps_to boot demo_dead.
Proof.
  apply (run_steps demo_exit); vm_compute; reflexivity.
Qed.

Lemma wait_freed_witness : heap demo_dead = ∅.
Proof.
  apply (wait_status_freed demo_dead demo_dead_run). intros t p Hp.
  assert (forallb (λ tp, is_dead (snd tp)) (map_to_list (procs demo_dead)) = true) as H by (vm_compute; reflexivity).
  rewrite forallb_forall in H. apply elem_of_map_to_list, list_elem_of_In, H in Hp. unfold is_dead in Hp. cbn in Hp.
  destruct (at_pc p); (reflexivity || discriminate Hp).
Defined.
