(* ===== verification/Load.v ===== *)
(** * userprog/process.c: loading an executable

    [load] gives a new process its address space: the segments of an ELF file,
    page by page, and the first page of the stack.  The pages come into memory
    when the process touches them; vm/page.c is modelled in Vm.  A [struct file]
    lies at an address from the same supply as a [struct page]. *)

From stdpp Require Import gmap.
From S2P Require Import Prelude Str Cmdline Bitmap Vaddr Palloc Pagedir Block Inode FreeMap File Directory Filesys Vm.

(** ** Headers *)

Record Elf32_Ehdr := Ehdr {
  e_ident : list Z;
  e_type : Z;
  e_machine : Z;
  e_version : Z;
  e_entry : Z;
  e_phoff : Z;
  e_phentsize : Z;
  e_phnum : Z;
}.
Definition ehdr_of (l : list Z) : Elf32_Ehdr :=
  Ehdr (take 16 l) (half l 16) (half l 18) (word32 l 20) (word32 l 24) (word32 l 28) (half l 42) (half l 44).
Definition sizeof_ehdr : Z := 52.

Record Elf32_Phdr := Phdr {
  p_type : Z;
  p_offset : Z;
  p_vaddr : Z;
  p_filesz : Z;
  p_memsz : Z;
  p_flags : Z;
}.
Definition phdr_of (l : list Z) : Elf32_Phdr :=
  Phdr (word32 l 0) (word32 l 4) (word32 l 8) (word32 l 16) (word32 l 20) (word32 l 24).
Definition sizeof_phdr : Z := 32.

Definition PT_LOAD : Z := 1.
Definition PT_DYNAMIC : Z := 2.
Definition PT_INTERP : Z := 3.
Definition PT_SHLIB : Z := 5.
Definition PF_W : Z := 2.

(** ** Files of the kernel *)

Definition set_files (x : gmap Z file) (s : vm) : vm :=
  Vm (mm s) (fsys s) x (swap_device s) (swap_bitmap s) (swap_lock s) (frames s) (scan_lock s)
    (hand s) (pages s) (procs s) (cur s) (next_page s) (mallocs s).
Definition put_file (h : Z) (f : file) (s : vm) : vm := set_files (<[h := f]> (files s)) s.
Definition new_file (f : file) (s : vm) : vm * Z :=
  (set_heap (next_page s + 1) (mallocs s) (put_file (next_page s) f s), next_page s).
Definition get_file (s : vm) (h : Z) : res file := deref (files s !! h).

(** [file_read] into a variable of [size] bytes. *)
Definition read_struct (s : vm) (h size : Z) : res (vm * list Z * Z) :=
  f ← get_file s h;
  '(x, f, buffer, n) ← file_read (fsys s) f (repeat 0 (Z.to_nat size)) size;
  Ok (put_file h f (set_fsys x s), buffer, n).

Section code.
Context (init_page_dir init_ram_pages : Z) (sleep : vm → vm).

(** ** Segments *)

(** The checks, in the order of the code; [len] is the length of the file. *)
Definition validate_segment (phdr : Elf32_Phdr) (len : Z) : bool :=
  if negb (Z.land (p_offset phdr) PGMASK =? Z.land (p_vaddr phdr) PGMASK) then false else
  if u32 len <? p_offset phdr then false else
  if p_memsz phdr <? p_filesz phdr then false else
  if p_memsz phdr =? 0 then false else
  if negb (is_user_vaddr (p_vaddr phdr)) then false else
  if negb (is_user_vaddr (u32 (p_vaddr phdr + p_memsz phdr))) then false else
  if u32 (p_vaddr phdr + p_memsz phdr) <? p_vaddr phdr then false else
  if p_vaddr phdr <? PGSIZE then false else true.

Definition load_page (s : vm) (file ofs upage page_read_bytes : Z) (writable : bool) : res (vm * bool) :=
  '(s, p) ← page_allocate s upage (negb writable);
  if p =? 0 then Ok (s, false) else
  s ← (if 0 <? page_read_bytes then
         upd_page p (λ pg, with_backing (private pg) (Some file) ofs page_read_bytes pg) s
       else Ok s);
  Ok (s, true).

(** The loop state is [read_bytes], [zero_bytes], [ofs] and [upage]. *)
Definition load_segment (s : vm) (file ofs upage read_bytes zero_bytes : Z) (writable : bool) : res (vm * bool) :=
  _ ← ASSERT (u32 (read_bytes + zero_bytes) mod PGSIZE =? 0);
  _ ← ASSERT (pg_ofs upage =? 0);
  _ ← ASSERT (Z.rem ofs PGSIZE =? 0);
  loop (S (Z.to_nat (2 ^ 32 / PGSIZE))) (λ '(s, ofs, upage, read_bytes, zero_bytes),
    if (0 <? read_bytes) || (0 <? zero_bytes) then
      let page_read_bytes := if read_bytes <? PGSIZE then read_bytes else PGSIZE in
      let page_zero_bytes := PGSIZE - page_read_bytes in
      '(s, ok) ← load_page s file ofs upage page_read_bytes writable;
      if negb ok then Ok (inr (s, false)) else
      Ok (inl (s, s32 (ofs + page_read_bytes), u32 (upage + PGSIZE), u32 (read_bytes - page_read_bytes),
               u32 (zero_bytes - page_zero_bytes)))
    else Ok (inr (s, true))) (s, ofs, upage, read_bytes, zero_bytes).

(** The case [PT_LOAD] of the loop over the program headers. *)
Definition segment_args (phdr : Elf32_Phdr) : Z * Z * Z * Z * bool :=
  let writable := negb (Z.land (p_flags phdr) PF_W =? 0) in
  let file_page := Z.land (p_offset phdr) (not32 PGMASK) in
  let mem_page := Z.land (p_vaddr phdr) (not32 PGMASK) in
  let page_offset := Z.land (p_vaddr phdr) PGMASK in
  if 0 <? p_filesz phdr then
    let read_bytes := u32 (page_offset + p_filesz phdr) in
    (s32 file_page, mem_page, read_bytes, u32 (ROUND_UP (u32 (page_offset + p_memsz phdr)) PGSIZE - read_bytes), writable)
  else (s32 file_page, mem_page, 0, ROUND_UP (u32 (page_offset + p_memsz phdr)) PGSIZE, writable).

Definition load_phdr (s : vm) (file : Z) (phdr : Elf32_Phdr) : res (vm * bool) :=
  if (p_type phdr =? PT_DYNAMIC) || (p_type phdr =? PT_INTERP) || (p_type phdr =? PT_SHLIB) then Ok (s, false)
  else if p_type phdr =? PT_LOAD then
    f ← get_file s file;
    len ← file_length (fsys s) f;
    if validate_segment phdr len then
      let '(ofs, upage, read_bytes, zero_bytes, writable) := segment_args phdr in
      load_segment s file ofs upage read_bytes zero_bytes writable
    else Ok (s, false)
  else Ok (s, true).

(** The loop over the program headers; [cnt] of them are left. *)
Fixpoint load_phdrs (cnt : nat) (s : vm) (file file_ofs : Z) : res (vm * bool) :=
  match cnt with
  | O => Ok (s, true)
  | S cnt =>
      f ← get_file s file;
      len ← file_length (fsys s) f;
      if (file_ofs <? 0) || (len <? file_ofs) then Ok (s, false) else
      f ← file_seek f file_ofs;
      let s := put_file file f s in
      '(s, buffer, n) ← read_struct s file sizeof_phdr;
      if negb (n =? sizeof_phdr) then Ok (s, false) else
      '(s, ok) ← load_phdr s file (phdr_of buffer);
      if negb ok then Ok (s, false) else load_phdrs cnt s file (s32 (file_ofs + sizeof_phdr))
  end.

Definition valid_ehdr (h : Elf32_Ehdr) : bool :=
  bool_decide (take 7 (e_ident h) = [127; 69; 76; 70; 1; 1; 1]) && (e_type h =? 2) && (e_machine h =? 3) &&
  (e_version h =? 1) && (e_phentsize h =? sizeof_phdr) && negb (1024 <? e_phnum h).

(** ** The stack *)

(** [init_cmd_line] sees the frame at [base], the command line at the address
    [cmd] and the literal at [space]; what it leaves in the frame is copied
    back, unless it fails: nobody reads the page then. *)
Definition frame_store (m : memory) (base cmd space : Z) (cmd_line : list Z) : store :=
  put (put (put ∅ base (bytes m base PGSIZE)) cmd (cmd_line ++ [0])) space [32; 0].
Definition frame_bytes (m : store) (base : Z) : list Z :=
  map (λ i, u8 (default 0 (m !! (base + Z.of_nat i)))) (seq 0 (Z.to_nat PGSIZE)).

(** The result is [*esp]. *)
Definition setup_stack (s : vm) (cmd space : Z) (cmd_line : list Z) : res (vm * option Z) :=
  '(s, p) ← page_allocate s (PHYS_BASE - PGSIZE) false;
  if p =? 0 then Ok (s, None) else
  '(s, f) ← frame_alloc_and_lock init_page_dir sleep s p;
  s ← upd_page p (with_frame f) s;
  match f with
  | None => Ok (s, None)
  | Some f =>
      s ← upd_page p (λ pg, Page (addr pg) false (thread pg) (pframe pg) (psector pg) false (pfile pg)
                              (file_offset pg) (file_bytes pg)) s;
      fr ← get_frame s f;
      pg ← get_page s p;
      r ← init_cmd_line space (frame_store (memory_of s) (base fr) cmd space cmd_line) (base fr) (addr pg) cmd;
      let s := match r with
               | Some (m, _) => set_memory (put_bytes (memory_of s) (base fr) (frame_bytes m (base fr))) s
               | None => s
               end in
      s ← frame_unlock s f;
      Ok (s, match r with Some (_, esp) => Some esp | None => None end)
  end.

(** ** [load] *)

(** [pagedir_activate]; the update of the task state segment is left out. *)
Definition process_activate (s : vm) : res vm :=
  t ← deref (procs s !! cur s);
  m ← pagedir_activate init_page_dir (mm s) (pagedir t);
  Ok (set_mm m s).

Definition set_process (t : process) (s : vm) : vm := set_procs (<[cur s := t]> (procs s)) s.

(** The name of the program: what follows the spaces up to the next one, cut
    to the size of [file_name]. *)
Fixpoint skip_spaces (l : list Z) : list Z :=
  match l with 32 :: l => skip_spaces l | l => l end.
Fixpoint until_space (l : list Z) : list Z :=
  match l with [] => [] | c :: l => if c =? 32 then [] else c :: until_space l end.
Definition program_name (cmd_line : list Z) : list Z := until_space (take (Z.to_nat (NAME_MAX + 1)) cmd_line).

(** From the open file on; the result is the entry point and the stack
    pointer. *)
Definition load_file (s : vm) (file cmd space : Z) (cmd_line : list Z) : res (vm * option (Z * Z)) :=
  '(s, buffer, n) ← read_struct s file sizeof_ehdr;
  let ehdr := ehdr_of buffer in
  if negb (n =? sizeof_ehdr) || negb (valid_ehdr ehdr) then Ok (s, None) else
  '(s, ok) ← load_phdrs (Z.to_nat (e_phnum ehdr)) s file (s32 (e_phoff ehdr));
  if negb ok then Ok (s, None) else
  '(s, esp) ← setup_stack s cmd space cmd_line;
  Ok (s, match esp with Some esp => Some (e_entry ehdr, esp) | None => None end).

(** [cmd] is the address of [cmd_line]; [malloc_ok] and [junk] are the outcome
    of the allocation of the page table and the old contents of the stack.  The
    result is [bin_file], or 0, and the registers of the new process. *)
Definition load (junk : list Z) (malloc_ok : bool) (s : vm) (cmd space : Z) (cmd_line : list Z)
    : res (vm * Z * option (Z * Z)) :=
  t ← deref (procs s !! cur s);
  '(m, pd) ← pagedir_create init_page_dir (mm s);
  let s := set_process (Process pd (ptable t) (user_esp t)) (set_mm m s) in
  if pd =? 0 then Ok (s, 0, None) else
  s ← process_activate s;
  if negb malloc_ok then Ok (s, 0, None) else
  let s := set_process (Process pd (Some ∅) (user_esp t)) s in
  let rest := skip_spaces cmd_line in
  let cmd := cmd + Z.of_nat (length cmd_line - length rest) in
  '(x, f) ← filesys_open junk (fsys s) (program_name rest);
  let s := set_fsys x s in
  match f with
  | None => Ok (s, 0, None)
  | Some f =>
      '(x, f) ← file_deny_write (fsys s) f;
      let '(s, file) := new_file f (set_fsys x s) in
      '(s, r) ← load_file s file cmd space rest;
      Ok (s, file, r)
  end.

(** ** [process_exit], after the wait statuses: the memory of the process *)

Definition exit_memory (s : vm) (bin_file : Z) : res vm :=
  s ← page_exit s;
  x ← file_close (fsys s) (files s !! bin_file);
  let s := set_files (delete bin_file (files s)) (set_fsys x s) in
  t ← deref (procs s !! cur s);
  let pd := pagedir t in
  if pd =? 0 then Ok s else
  let s := set_process (Process 0 (ptable t) (user_esp t)) s in
  m ← pagedir_activate init_page_dir (mm s) 0;
  m ← pagedir_destroy init_page_dir m pd;
  Ok (set_mm m s).
End code.
