(* ===== verification/LoadProps.v ===== *)
(** * userprog/process.c: what a loaded program finds in its memory

    A program header that [validate_segment] accepts can be loaded: the
    assertions of [load_segment] hold, and the pages it makes hold the bytes of
    the file followed by zeros. *)

From stdpp Require Import gmap.
From S2P Require Import Prelude Str Cmdline Bitmap Vaddr Palloc Pagedir Block Inode FreeMap File Directory Filesys Vm VmSwap VmPaging VmProps Load.

(** ** Program headers *)

Record phdr_ok (p : Elf32_Phdr) : Prop := {
  ph_offset : is_u32 (p_offset p);
  ph_vaddr : is_u32 (p_vaddr p);
  ph_filesz : is_u32 (p_filesz p);
  ph_memsz : is_u32 (p_memsz p);
}.

(** A segment that lies in user space and in the file. *)
Record valid_segment (p : Elf32_Phdr) (len : Z) : Prop := {
  vs_aligned : p_offset p mod 4096 = p_vaddr p mod 4096;
  vs_offset : p_offset p ≤ len;
  vs_sizes : p_filesz p ≤ p_memsz p;
  vs_nonempty : 0 < p_memsz p;
  vs_low : 4096 ≤ p_vaddr p;
  vs_high : p_vaddr p + p_memsz p < PHYS_BASE;
}.

Lemma validate_segment_spec p len : phdr_ok p → 0 ≤ len < 2 ^ 31 → validate_segment p len = true ↔ valid_segment p len.
Proof.
  intros [H1 H2 H3 H4] Hl. unfold validate_segment, is_user_vaddr. fold (pg_ofs (p_offset p)) (pg_ofs (p_vaddr p)).
  rewrite !pg_ofs_mod, (u32_small len) by c_lia. change PGSIZE with 4096.
  assert (u32 (p_vaddr p + p_memsz p) = p_vaddr p + p_memsz p ∧ p_vaddr p + p_memsz p < 2 ^ 32 ∨
    u32 (p_vaddr p + p_memsz p) = p_vaddr p + p_memsz p - 2 ^ 32 ∧ 2 ^ 32 ≤ p_vaddr p + p_memsz p) as Hsum by c_lia.
  c_unfold. split.
  - intros H. repeat (case_match; [discriminate H|]).
    rewrite ?negb_false_iff, ?Z.ltb_ge, ?Z.eqb_eq, ?Z.eqb_neq, ?Z.ltb_lt in *. split; lia.
  - intros [V1 V2 V3 V4 V5 V6]. unfold PHYS_BASE in *. repeat case_match; try done; exfalso;
      rewrite ?negb_true_iff, ?Z.ltb_ge, ?Z.eqb_eq, ?Z.eqb_neq, ?Z.ltb_lt in *; lia.
Qed.

(** The arguments for [load_segment]. *)
Definition segment_size (p : Elf32_Phdr) : Z := (p_vaddr p mod 4096 + p_memsz p + 4095) / 4096 * 4096.
Definition segment_read (p : Elf32_Phdr) : Z := if 0 <? p_filesz p then p_vaddr p mod 4096 + p_filesz p else 0.

Lemma round_up_page n : 0 ≤ n < PHYS_BASE → ROUND_UP n PGSIZE = (n + 4095) / 4096 * 4096.
Proof.
  intros Hn. unfold PHYS_BASE, ROUND_UP, DIV_ROUND_UP in *. change PGSIZE with 4096. rewrite (u32_small (n + 4096)) by c_lia.
  rewrite (u32_small (n + 4096 - 1)) by c_lia. replace (n + 4096 - 1) with (n + 4095) by lia. apply u32_small. c_lia.
Qed.

Lemma segment_args_spec p len : phdr_ok p → 0 ≤ len < 2 ^ 31 → valid_segment p len →
  segment_args p = (p_offset p / 4096 * 4096, p_vaddr p / 4096 * 4096, segment_read p, segment_size p - segment_read p,
    negb (Z.land (p_flags p) PF_W =? 0)) ∧
  0 ≤ segment_read p ≤ segment_size p ∧ 4096 ≤ segment_size p ∧
  p_vaddr p / 4096 * 4096 + segment_size p ≤ PHYS_BASE.
Proof.
  intros [H1 H2 H3 H4] Hl [V1 V2 V3 V4 V5 V6]. unfold segment_args.
  assert (0 ≤ p_vaddr p mod 4096 + p_memsz p < PHYS_BASE ∧ 0 ≤ segment_read p ≤ segment_size p ∧ 4096 ≤ segment_size p ∧
    p_vaddr p / 4096 * 4096 + segment_size p ≤ PHYS_BASE) as (Hn & Hr & Hs & Hu).
  { unfold segment_read, segment_size, PHYS_BASE in *. destruct (Z.ltb_spec 0 (p_filesz p)); c_lia. }
  split; [|exact (conj Hr (conj Hs Hu))].
  rewrite !land_not_pgmask by done. fold (pg_ofs (p_vaddr p)). rewrite pg_ofs_mod.
  rewrite (u32_small (p_vaddr p mod 4096 + p_memsz p)) by (unfold PHYS_BASE in *; c_lia). rewrite round_up_page by done.
  fold (segment_size p). rewrite s32_small by c_lia. unfold segment_read in *. destruct (Z.ltb_spec 0 (p_filesz p)).
  - rewrite (u32_small (p_vaddr p mod 4096 + p_filesz p)) by (unfold PHYS_BASE in *; c_lia). rewrite u32_small by (unfold PHYS_BASE in *; c_lia). done.
  - by rewrite Z.sub_0_r.
Qed.

(** ** Segments *)

(** There is memory for new pages. *)
Definition heap_good (s : vm) : Prop :=
  0 < next_page s ∧ (∀ p, next_page s ≤ p → pages s !! p = None) ∧ (false ∉ mallocs s).

Lemma heap_good_ok s : heap_good s → heap_ok s.
Proof.
  intros (H1 & H2 & H3). split_and!; [done|done|]. destruct (mallocs s) as [|[] l]; [done|done|]. intros _. apply H3. by left.
Qed.

Lemma tail_good (l : list bool) : false ∉ l → false ∉ tail l.
Proof. destruct l; [done|]. cbn. intros H Hin. apply H. by right. Qed.

(** The byte of the running process at the address [a]: that of the page that
    its table has for [a]. *)
Definition user_byte (s : vm) (a : Z) : option Z :=
  match procs s !! cur s with
  | Some t => match ptable t with
              | Some tbl => p ← tbl !! (a / 4096 * 4096); Some (contents s p (a mod 4096))
              | None => None
              end
  | None => None
  end.

Section segment.
Context (ram : Z) (pds : list Z).
Context (s : vm) (t : process) (tbl : gmap Z Z) (fh : Z) (fl : file) (n : inode).
Context (ofs upage rb size : Z) (writable : bool).
Context (Hs : machine ram pds s) (Ht : procs s !! cur s = Some t) (Htb : ptable t = Some tbl) (Hpd : pagedir t ∈ pds)
  (Hheap : heap_good s) (Hfl : files s !! fh = Some fl) (Hn : inodes (fsys s) !! file_inode fl = Some n)
  (Hx : extent_ok (fs_device (fsys s)) n).
Context (Hofs : 0 ≤ ofs ∧ ofs mod 4096 = 0 ∧ ofs ≤ ilength (data n)) (Hup : 4096 ≤ upage ∧ upage mod 4096 = 0 ∧ upage + size ≤ PHYS_BASE)
  (Hsize : 0 < size ∧ size mod 4096 = 0) (Hrb : 0 ≤ rb ≤ size) (Hend : ofs + rb < 2 ^ 31).

(** Byte [k] of the segment. *)
Definition seg_byte (k : Z) : Z :=
  if (k <? rb) && (ofs + k <? ilength (data n)) then file_byte (fs_device (fsys s)) n (ofs + k) else 0.

(** How much of the page [i] of the segment comes from the file. *)
Definition page_read (i : Z) : Z := Z.max 0 (Z.min 4096 (rb - 4096 * i)).

Definition seg_page (i : Z) : page :=
  let pg := fresh_page s (upage + 4096 * i) (negb writable) in
  if 0 <? page_read i then with_backing (private pg) (Some fh) (ofs + 4096 * i) (page_read i) pg else pg.

(** [s'] is [s] with the first [i] pages of the segment. *)
Record seg_loaded (i : Z) (s' : vm) : Prop := {
  sl_machine : machine ram pds s';
  sl_heap : heap_good s';
  sl_next : next_page s' = next_page s + i;
  sl_same : cur s' = cur s ∧ fsys s' = fsys s ∧ files s' = files s;
  sl_table : ∃ tbl', procs s' !! cur s = Some (Process (pagedir t) (Some tbl') (user_esp t)) ∧
    ∀ x, tbl' !! x = if (upage <=? x) && (x <? upage + 4096 * i) && (x mod 4096 =? 0)
                     then Some (next_page s + (x - upage) / 4096) else tbl !! x;
  sl_page j : 0 ≤ j < i → pages s' !! (next_page s + j) = Some (seg_page j);
  sl_new j k : 0 ≤ j < i → 0 ≤ k < 4096 → contents s' (next_page s + j) k = seg_byte (4096 * j + k);
  sl_old q : q < next_page s → pages s' !! q = pages s !! q ∧ ∀ k, contents s' q k = contents s q k;
}.

Lemma seg_addr i : 0 ≤ i → 4096 * i < size → is_u32 (upage + 4096 * i) ∧
  pg_round_down (upage + 4096 * i) = upage + 4096 * i ∧ upage + 4096 * i < PHYS_BASE.
Proof using All.
  intros Hi Hlt. assert (is_u32 (upage + 4096 * i)) as Hu by (unfold PHYS_BASE in *; c_lia). split_and!; [done| |lia].
  rewrite pg_round_down_eq by done. c_lia.
Qed.

Lemma seg_loaded_0 : seg_loaded 0 s.
Proof using All.
  split; try done; try (intros; lia).
  exists tbl. split; [rewrite Ht; destruct t; cbn in *; by rewrite Htb|]. intros x.
  destruct (Z.leb_spec upage x), (Z.ltb_spec x (upage + 4096 * 0)); try done; lia.
Qed.

Lemma seg_page_backing i s' k : 0 ≤ i → 4096 * i < size → files s' = files s → fsys s' = fsys s → 0 ≤ k < 4096 →
  backing s' (seg_page i) k = seg_byte (4096 * i + k).
Proof using All.
  intros Hi Hlt Ef Es Hk. unfold seg_page, backing. rewrite Ef, Es. unfold page_read. set (r := Z.max 0 _).
  destruct (Z.ltb_spec 0 r) as [Hr|Hr]; cbn [with_backing pfile file_bytes file_offset fresh_page mbind option_bind].
  - rewrite Hfl, Hn. unfold seg_byte, available. rewrite (Z.add_assoc ofs).
    destruct (Z.ltb_spec k (Z.max 0 (Z.min r (ilength (data n) - (ofs + 4096 * i))))), (Z.ltb_spec (4096 * i + k) rb),
      (Z.ltb_spec (ofs + 4096 * i + k) (ilength (data n))); cbn [andb]; done || lia.
  - unfold seg_byte. by destruct (Z.ltb_spec (4096 * i + k) rb); [lia|].
Qed.

Lemma seg_page_ok i s' : 0 ≤ i → 4096 * i < size → files s' = files s → fsys s' = fsys s →
  ∀ h, pfile (seg_page i) = Some h → file_ok s' (seg_page i) h.
Proof using All.
  intros Hi Hlt Ef Es h. unfold seg_page. destruct (Z.ltb_spec 0 (page_read i)) as [Hr|Hr]; [|done]. intros [= <-].
  exists fl, n. rewrite Ef, Es. cbn [with_backing file_bytes file_offset]. unfold page_read in *. split_and!; try done; lia.
Qed.

Lemma load_page_step i s' : 0 ≤ i → 4096 * i < size → seg_loaded i s' →
  match tbl !! (upage + 4096 * i) with
  | Some _ => ∃ s2, load_page s' fh (ofs + 4096 * i) (upage + 4096 * i) (page_read i) writable = Ok (s2, false) ∧ machine ram pds s2
  | None => ∃ s2, load_page s' fh (ofs + 4096 * i) (upage + 4096 * i) (page_read i) writable = Ok (s2, true) ∧ seg_loaded (i + 1) s2
  end.
Proof using All.
  intros Hi Hlt [L1 L2 L3 (L4 & L5 & L6) (tbl' & L7 & L8) L9 L10 L11]. destruct (seg_addr i Hi Hlt) as (Hu & Hrd & Hus).
  unfold load_page. rewrite (page_allocate_spec s' (Process (pagedir t) (Some tbl') (user_esp t)) tbl') by (rewrite ?L4; done || by apply heap_good_ok).
  rewrite Hrd. assert (tbl' !! (upage + 4096 * i) = tbl !! (upage + 4096 * i)) as Et.
  { rewrite L8. by destruct (Z.leb_spec upage (upage + 4096 * i)), (Z.ltb_spec (upage + 4096 * i) (upage + 4096 * i)); try lia. }
  rewrite Et. destruct (tbl !! (upage + 4096 * i)) eqn:Etb; cbn [mbind res_bind].
  { rewrite Z.eqb_refl. eexists. split; [done|]. by apply (same_parts_machine ram pds s'). }
  pose proof L2 as (Hn1 & Hn2 & Hn3). rewrite (proj2 (Z.eqb_neq (next_page s') 0)) by lia.
  set (t' := Process (pagedir t) (Some tbl') (user_esp t)) in *.
  assert ((if 0 <? page_read i then
      upd_page (next_page s') (λ pg, with_backing (private pg) (Some fh) (ofs + 4096 * i) (page_read i) pg)
        (added s' t' tbl' (fresh_page s' (upage + 4096 * i) (negb writable)))
    else Ok (added s' t' tbl' (fresh_page s' (upage + 4096 * i) (negb writable)))) = Ok (added s' t' tbl' (seg_page i))) as ->.
  { unfold seg_page, fresh_page. rewrite L4. destruct (0 <? page_read i); [|done].
    erewrite upd_page_ok by apply lookup_insert_eq. unfold added. cbn. by rewrite insert_insert_eq. }
  cbn [mbind res_bind]. eexists. split; [done|].
  assert (addr (seg_page i) = upage + 4096 * i ∧ thread (seg_page i) = cur s' ∧ pframe (seg_page i) = None ∧ psector (seg_page i) = NO_SECTOR)
    as (A1 & A2 & A3 & A4) by (unfold seg_page, fresh_page; rewrite L4; destruct (0 <? page_read i); cbn; by rewrite Hrd).
  split.
  - apply added_machine; try done.
    + by rewrite L4.
    + by apply heap_good_ok.
    + rewrite A1. unfold PHYS_BASE in *. c_lia.
    + by apply seg_page_ok.
  - split_and!; cbn; [lia| |by apply tail_good]. intros p Hp. rewrite lookup_insert_ne by lia. apply Hn2. lia.
  - cbn. lia.
  - done.
  - exists (<[upage + 4096 * i := next_page s']> tbl'). cbn. rewrite L4, A1, lookup_insert_eq. split; [done|].
    intros x. destruct (decide (x = upage + 4096 * i)) as [->|Hne].
    + rewrite lookup_insert_eq, (proj2 (Z.leb_le _ _)), (proj2 (Z.ltb_lt _ _)), (proj2 (Z.eqb_eq _ _)) by c_lia. cbn [andb]. f_equal. rewrite L3. c_lia.
    + rewrite lookup_insert_ne, L8 by done. assert ((x <? upage + 4096 * i) && (x mod 4096 =? 0) = (x <? upage + 4096 * (i + 1)) && (x mod 4096 =? 0)) as E.
      { destruct (Z.ltb_spec x (upage + 4096 * i)), (Z.ltb_spec x (upage + 4096 * (i + 1))), (Z.eqb_spec (x mod 4096) 0); try done; c_lia. }
      by rewrite <- !andb_assoc, E.
  - intros j Hj. cbn. destruct (decide (j = i)) as [->|Hne]; [by rewrite <- L3, lookup_insert_eq|]. rewrite lookup_insert_ne by lia. apply L9. lia.
  - intros j k Hj Hk. destruct (decide (j = i)) as [->|Hne].
    + rewrite <- L3, added_new by done. by apply seg_page_backing.
    + rewrite added_other by lia. apply L10; lia.
  - intros q Hq. cbn. rewrite lookup_insert_ne by lia. destruct (L11 q Hq) as [? Hc]. split; [done|]. intros k. rewrite added_other by lia. apply Hc.
Qed.

Definition page_cnt : Z := size / 4096.

(** The pages of the segment are not in use. *)
Definition room : Prop := ∀ j, 0 ≤ j < page_cnt → tbl !! (upage + 4096 * j) = None.

Definition seg_inv (i : Z) (st : vm * Z * Z * Z * Z) : Prop :=
  let '(s', ofs', upage', rb', zb') := st in
  0 ≤ i ≤ page_cnt ∧ seg_loaded i s' ∧ ofs' = ofs + Z.min rb (4096 * i) ∧ upage' = upage + 4096 * i ∧
  rb' = Z.max 0 (rb - 4096 * i) ∧ zb' = size - 4096 * i - rb' ∧ ∀ j, 0 ≤ j < i → tbl !! (upage + 4096 * j) = None.

Lemma load_segment_spec : ∃ s' ok, load_segment s fh ofs upage rb (size - rb) writable = Ok (s', ok) ∧ machine ram pds s' ∧
  if ok : bool then room ∧ seg_loaded page_cnt s' else ¬ room.
Proof using All.
  assert (size = 4096 * page_cnt) as Hcnt by (unfold page_cnt; c_lia).
  unfold load_segment. change PGSIZE with 4096. rewrite pg_ofs_mod, (u32_small (rb + (size - rb))) by (unfold PHYS_BASE in *; c_lia).
  replace (rb + (size - rb)) with size by lia. rewrite Z.rem_mod_nonneg by lia.
  rewrite (proj2 (Z.eqb_eq (size mod 4096) 0)), (proj2 (Z.eqb_eq (upage mod 4096) 0)), (proj2 (Z.eqb_eq (ofs mod 4096) 0)) by tauto.
  cbn [ASSERT mbind res_bind].
  match goal with |- context [loop ?m ?body ?st0] => destruct (loop_total
    (λ k st, ∃ i, seg_inv i st ∧ k = Z.to_nat (page_cnt - i))
    (λ '(s', ok), machine ram pds s' ∧ if ok : bool then room ∧ seg_loaded page_cnt s' else ¬ room) body) with (n := m)
    (k := Z.to_nat page_cnt) (s := st0) as ([s' ok] & Hl & HQ) end.
  - intros k [[[[s' ofs'] upage'] rb'] zb'] (i & (Hi & HL & -> & -> & -> & -> & Hfree) & ->).
    destruct (decide (i = page_cnt)) as [->|Hne].
    { rewrite (proj2 (Z.ltb_ge 0 _)), (proj2 (Z.ltb_ge 0 _)) by lia. cbn [orb]. eexists. split; [done|]. cbn. split; [apply HL|done]. }
    assert ((0 <? Z.max 0 (rb - 4096 * i)) || (0 <? size - 4096 * i - Z.max 0 (rb - 4096 * i)) = true) as ->.
    { destruct (Z.ltb_spec 0 (Z.max 0 (rb - 4096 * i))), (Z.ltb_spec 0 (size - 4096 * i - Z.max 0 (rb - 4096 * i))); try done; lia. }
    assert ((if Z.max 0 (rb - 4096 * i) <? 4096 then Z.max 0 (rb - 4096 * i) else 4096) = page_read i) as ->.
    { unfold page_read. destruct (Z.ltb_spec (Z.max 0 (rb - 4096 * i)) 4096); lia. }
    assert (load_page s' fh (ofs + Z.min rb (4096 * i)) (upage + 4096 * i) (page_read i) writable =
            load_page s' fh (ofs + 4096 * i) (upage + 4096 * i) (page_read i) writable) as ->.
    { unfold load_page. destruct (Z.ltb_spec 0 (page_read i)) as [Hr|Hr]; [|done]. unfold page_read in Hr. by rewrite Z.min_r by lia. }
    pose proof (load_page_step i s' ltac:(lia) ltac:(lia) HL) as Hstep.
    destruct (tbl !! (upage + 4096 * i)) eqn:Etb; destruct Hstep as (s2 & -> & Hs2); cbn [mbind res_bind negb].
    { eexists. split; [done|]. cbn. split; [done|]. intros Hroom. rewrite Hroom in Etb; [done|lia]. }
    eexists. split; [done|]. exists (Z.to_nat (page_cnt - (i + 1))). split; [lia|]. exists (i + 1). split; [|done].
    assert (page_read i = Z.max 0 (Z.min 4096 (rb - 4096 * i))) as Ep by done. unfold seg_inv. split_and!.
    + lia.
    + lia.
    + done.
    + rewrite s32_small by c_lia. lia.
    + rewrite u32_small by (unfold PHYS_BASE in *; c_lia). lia.
    + rewrite u32_small by (unfold PHYS_BASE in *; c_lia). lia.
    + rewrite !u32_small by (unfold PHYS_BASE in *; c_lia). lia.
    + intros j Hj. destruct (decide (j = i)) as [->|]; [done|]. apply Hfree. lia.
  - exists 0. split; [|f_equal; lia]. unfold seg_inv. split_and!; try lia. apply seg_loaded_0.
  - unfold PHYS_BASE in *. c_lia.
  - exists s', ok. by split.
Qed.

Lemma seg_user_byte s' a : seg_loaded page_cnt s' → upage ≤ a < upage + size → user_byte s' a = Some (seg_byte (a - upage)).
Proof using All.
  intros [_ _ _ (L4 & _) (tbl' & L7 & L8) _ L10 _] Ha. assert (size = 4096 * page_cnt) as Hcnt by (unfold page_cnt; c_lia).
  set (j := (a - upage) / 4096). assert (a / 4096 * 4096 = upage + 4096 * j ∧ 0 ≤ j < page_cnt ∧ a - upage = 4096 * j + a mod 4096) as (E1 & E2 & E3).
  { unfold j. c_lia. }
  unfold user_byte. rewrite L4, L7. cbn [ptable]. rewrite L8, E1.
  rewrite (proj2 (Z.leb_le _ _)), (proj2 (Z.ltb_lt _ _)), (proj2 (Z.eqb_eq _ _)) by c_lia. cbn [andb mbind option_bind].
  replace ((upage + 4096 * j - upage) / 4096) with j by c_lia. rewrite L10, E3; [done|done|]. c_lia.
Qed.

Lemma seg_user_old s' a : seg_loaded page_cnt s' → a < upage ∨ upage + size ≤ a →
  (∀ q, tbl !! (a / 4096 * 4096) = Some q → q < next_page s) → user_byte s' a = user_byte s a.
Proof using All.
  intros [_ _ _ (L4 & _) (tbl' & L7 & L8) _ _ L11] Ha Hq. assert (size = 4096 * page_cnt) as Hcnt by (unfold page_cnt; c_lia).
  unfold user_byte. rewrite L4, L7, Ht. cbn [ptable]. rewrite Htb, L8.
  assert ((upage <=? a / 4096 * 4096) && (a / 4096 * 4096 <? upage + 4096 * page_cnt) = false) as ->.
  { destruct (Z.leb_spec upage (a / 4096 * 4096)), (Z.ltb_spec (a / 4096 * 4096) (upage + 4096 * page_cnt)); try done. c_lia. }
  cbn [andb]. destruct (tbl !! (a / 4096 * 4096)) as [q|] eqn:E; [|done]. cbn [mbind option_bind].
  f_equal. apply (L11 q). by apply Hq.
Qed.
End segment.

(** ** A loadable program header *)

(** Byte [k] of the file, or zero beyond its end. *)
Definition file_or_zero (s : vm) (n : inode) (k : Z) : Z :=
  if k <? ilength (data n) then file_byte (fs_device (fsys s)) n k else 0.

(** What a process finds at [a], according to the program header. *)
Definition phdr_byte (s : vm) (n : inode) (p : Elf32_Phdr) (a : Z) : Z :=
  if a - p_vaddr p <? p_filesz p then file_or_zero s n (p_offset p + (a - p_vaddr p)) else 0.

Lemma room_pages tbl p : 0 ≤ p_vaddr p → 0 ≤ p_memsz p → room tbl (p_vaddr p / 4096 * 4096) (segment_size p) ↔
  ∀ a, p_vaddr p / 4096 * 4096 ≤ a < p_vaddr p + p_memsz p → a mod 4096 = 0 → tbl !! a = None.
Proof.
  intros Hv Hm. unfold room, page_cnt, segment_size. rewrite Z.div_mul by lia. split.
  - intros H a Ha Hal. replace a with (p_vaddr p / 4096 * 4096 + 4096 * ((a - p_vaddr p / 4096 * 4096) / 4096)) by c_lia.
    apply H. c_lia.
  - intros H j Hj. apply H; c_lia.
Qed.

Lemma phdr_seg_byte s n p a : 0 ≤ p_vaddr p → 0 ≤ p_filesz p → p_offset p mod 4096 = p_vaddr p mod 4096 → p_vaddr p ≤ a →
  seg_byte s n (p_offset p / 4096 * 4096) (segment_read p) (a - p_vaddr p / 4096 * 4096) = phdr_byte s n p a.
Proof.
  intros Hv Hf Hal Ha. unfold seg_byte, phdr_byte, file_or_zero.
  replace (p_offset p / 4096 * 4096 + (a - p_vaddr p / 4096 * 4096)) with (p_offset p + (a - p_vaddr p)) by c_lia.
  assert ((a - p_vaddr p / 4096 * 4096 <? segment_read p) = (a - p_vaddr p <? p_filesz p)) as ->.
  { unfold segment_read. destruct (Z.ltb_spec 0 (p_filesz p)), (Z.ltb_spec (a - p_vaddr p) (p_filesz p)); apply Z.ltb_lt || apply Z.ltb_ge; c_lia. }
  by destruct (a - p_vaddr p <? p_filesz p).
Qed.

(** C8. [load_phdr] on a segment: it is refused unless it is valid; a valid one is
    loaded unless one of its pages is in use.  Then the process finds, at every
    address of the segment, the byte of the file that belongs there, or zero
    beyond the part that the file has.  The table has the same pages as before
    outside the segment, and they keep their contents. *)
Theorem load_phdr_correct ram pds s t tbl fh fl n p : machine ram pds s → procs s !! cur s = Some t → ptable t = Some tbl →
  pagedir t ∈ pds → heap_good s → files s !! fh = Some fl → inodes (fsys s) !! file_inode fl = Some n →
  extent_ok (fs_device (fsys s)) n → phdr_ok p → p_type p = PT_LOAD → p_offset p + p_filesz p < 2 ^ 31 →
  ∃ s' ok, load_phdr s fh p = Ok (s', ok) ∧ machine ram pds s' ∧
    (ok = true ↔ valid_segment p (ilength (data n)) ∧ ∀ a, p_vaddr p / 4096 * 4096 ≤ a < p_vaddr p + p_memsz p → a mod 4096 = 0 → tbl !! a = None) ∧
    (ok = true →
      (∀ a, p_vaddr p ≤ a < p_vaddr p + p_memsz p → user_byte s' a = Some (phdr_byte s n p a)) ∧
      (∀ a, a < p_vaddr p / 4096 * 4096 ∨ p_vaddr p / 4096 * 4096 + segment_size p ≤ a →
         (∀ q, tbl !! (a / 4096 * 4096) = Some q → q < next_page s) → user_byte s' a = user_byte s a)).
Proof.
  intros Hs Ht Htb Hpd Hheap Hfl Hn Hx Hph Hty Hend. pose proof Hx as [X1 X2 X3 X4].
  unfold load_phdr. rewrite Hty. cbn [Z.eqb orb]. unfold get_file. rewrite Hfl. cbn [deref mbind res_bind].
  unfold file_length. rewrite Hn. cbn [deref mbind res_bind]. unfold inode_length.
  destruct (validate_segment p (ilength (data n))) eqn:Hv.
  2:{ exists s, false. split_and!; try done. split; [done|]. intros [Hval _]. apply (validate_segment_spec p) in Hval; [congruence|done|lia]. }
  apply (validate_segment_spec p) in Hv; [|done|lia]. destruct (segment_args_spec p (ilength (data n)) Hph) as (-> & Hr & Hsz & Hu); [lia|done|].
  pose proof Hph as [P1 P2 P3 P4]. pose proof Hv as [V1 V2 V3 V4 V5 V6].
  set (upage := p_vaddr p / 4096 * 4096) in *. set (ofs := p_offset p / 4096 * 4096).
  assert (0 ≤ ofs ∧ ofs mod 4096 = 0 ∧ ofs ≤ ilength (data n)) as Hofs by (unfold ofs; c_lia).
  assert (4096 ≤ upage ∧ upage mod 4096 = 0 ∧ upage + segment_size p ≤ PHYS_BASE) as Hup by (unfold upage; c_lia).
  assert (0 < segment_size p ∧ segment_size p mod 4096 = 0) as Hsize by (unfold segment_size in *; c_lia).
  assert (ofs + segment_read p < 2 ^ 31) as He by (unfold segment_read, ofs in *; destruct (Z.ltb_spec 0 (p_filesz p)); c_lia).
  destruct (load_segment_spec ram pds s t tbl fh fl n ofs upage (segment_read p) (segment_size p) (negb (Z.land (p_flags p) PF_W =? 0))
    Hs Ht Htb Hpd Hheap Hfl Hn Hx Hofs Hup Hsize Hr He) as (s' & ok & Hload & Hs' & Hok).
  exists s', ok. split; [exact Hload|]. split; [done|]. split.
  { pose proof (room_pages tbl p ltac:(c_lia) ltac:(c_lia)) as Hroom. fold upage in Hroom. rewrite <- Hroom. destruct ok; [|naive_solver]. by destruct Hok as [? _]. }
  intros ->. destruct Hok as [_ HL]. split.
  - intros a Ha. rewrite (seg_user_byte ram pds s t tbl fh fl n ofs upage (segment_read p) (segment_size p) (negb (Z.land (p_flags p) PF_W =? 0))); try done.
    + f_equal. apply phdr_seg_byte; c_lia.
    + unfold upage, segment_size. c_lia.
  - intros a Ha Hq. by apply (seg_user_old ram pds s t tbl fh fl n ofs upage (segment_read p) (segment_size p) (negb (Z.land (p_flags p) PF_W =? 0))).
Qed.

(** ** A small program: one segment of 600 bytes from the file, 5000 in memory *)

Definition demo_phdr : Elf32_Phdr := Phdr PT_LOAD 0 134512640 600 5000 6.
Definition demo_ready_vm : vm := put_file 50 (File 0 0 false) demo_vm.

Lemma put_file_machine ram pds h f s : machine ram pds s → (∀ p, pages s !! p = None) → machine ram pds (put_file h f s).
Proof.
  intros [H1 H2 H3 H4 H5 H6 H7 H8 H9 H10 H11] Hno. split; try done. intros p pg Hp. cbn in Hp. by rewrite Hno in Hp.
Qed.

Lemma put_file_parts h f s : procs (put_file h f s) = procs s ∧ cur (put_file h f s) = cur s ∧ files (put_file h f s) !! h = Some f ∧
  fsys (put_file h f s) = fsys s ∧ next_page (put_file h f s) = next_page s ∧ pages (put_file h f s) = pages s ∧ mallocs (put_file h f s) = mallocs s.
Proof. split_and!; try done. cbn. by rewrite lookup_insert_eq. Qed.

Lemma demo_vm_fs : fsys demo_vm = demo_fs.
Proof.
  unfold demo_vm, demo_booted.
  destruct (frame_init_spec 300 demo_empty) as (p & fs & -> & _); [apply demo_before|vm_compute; discriminate|]. reflexivity.
Qed.

#[local] Opaque demo_vm.

Lemma load_phdr_witness : ∃ s', load_phdr demo_ready_vm 50 demo_phdr = Ok (s', true) ∧ user_byte s' 134512700 = Some 7 ∧
  user_byte s' 134513640 = Some 0.
Proof.
  destruct demo_small as (Hno & Ht & Hc & Hn & Hm & _).
  destruct (put_file_parts 50 (File 0 0 false) demo_vm) as (E1 & E2 & E3 & E4 & E5 & E6 & E7).
  destruct (load_phdr_correct 300 demo_dirs demo_ready_vm (Process demo_pd (Some ∅) PHYS_BASE) ∅ 50 (File 0 0 false) demo_inode demo_phdr)
    as (s' & ok & E & _ & Hok & Hbytes).
  - exact (put_file_machine 300 demo_dirs 50 (File 0 0 false) demo_vm demo_machine Hno).
  - unfold demo_ready_vm. rewrite E1, E2. exact Ht.
  - reflexivity.
  - apply elem_of_cons. left. reflexivity.
  - unfold demo_ready_vm, heap_good. rewrite E5, E6, E7, Hn, Hm. split; [lia|]. split; [intros p _; apply Hno|]. apply not_elem_of_nil.
  - exact E3.
  - unfold demo_ready_vm. rewrite E4, demo_vm_fs. reflexivity.
  - unfold demo_ready_vm. rewrite E4, demo_vm_fs. exact demo_extent_ok.
  - split; vm_compute; split; congruence.
  - reflexivity.
  - reflexivity.
  - assert (ok = true) as ->.
    { apply Hok. split; [split; vm_compute; congruence || reflexivity|]. intros a _ _. apply lookup_empty. }
    destruct (Hbytes eq_refl) as [Hb _]. exists s'. split; [exact E|].
    assert (∀ a v, 134512640 ≤ a < 134512640 + 5000 → phdr_byte demo_ready_vm demo_inode demo_phdr a = v → user_byte s' a = Some v) as Hv.
    { intros a v Ha <-. apply Hb. exact Ha. }
    unfold phdr_byte, file_or_zero, demo_ready_vm in Hv. rewrite E4, demo_vm_fs in Hv. split; (apply Hv; [lia|vm_compute; reflexivity]).
Defined.
