(* ===== verification/LoadStack.v ===== *)
(** * userprog/process.c: the first page of the stack

    [setup_stack] makes a page, finds a frame for it and lets [init_cmd_line]
    fill it: what the process sees at the top of its memory is the stack that
    Cmdline describes. *)

From stdpp Require Import gmap.
From S2P Require Import Prelude Str Cmdline Bitmap Vaddr Palloc Pagedir Block Inode FreeMap File Directory Filesys.
From S2P Require Import Vm VmSwap VmPaging VmProps Load LoadProps.

(** ** The frame as [init_cmd_line] sees it *)

Lemma frame_store_spec m base cmd space l : (∀ k, is_u8 (m k)) → region cmd (Z.of_nat (length l) + 1) → region space 2 →
  Forall (λ c, 0 < c < 256) l → disjoint_regions base 4096 cmd (Z.of_nat (length l) + 1) → disjoint_regions base 4096 space 2 →
  disjoint_regions cmd (Z.of_nat (length l) + 1) space 2 →
  mapped (frame_store m base cmd space l) base 4096 ∧ cstr (frame_store m base cmd space l) cmd l ∧
  cstr (frame_store m base cmd space l) space [32].
Proof.
  intros H8 Hc Hs Hl D1 D2 D3. unfold frame_store. change PGSIZE with 4096. split_and!.
  - apply put_mapped, put_mapped. intros k Hk. rewrite put_lookup, bytes_length, decide_True by lia.
    apply lookup_lt_is_Some_2. rewrite bytes_length. lia.
  - split_and!; [done|done|]. intros i b Hi. pose proof (lookup_lt_Some _ _ _ Hi) as Hlt. rewrite length_app in Hlt. cbn in Hlt.
    rewrite put_lookup, decide_False by (cbn; unfold disjoint_regions in *; lia). by apply bytes_at_put.
  - split_and!; [done|repeat constructor|apply bytes_at_put].
Qed.

Lemma frame_bytes_at m base j : 0 ≤ j < 4096 → at_ (frame_bytes m base) j = u8 (default 0 (m !! (base + j))).
Proof.
  intros Hj. unfold at_, frame_bytes. change (Z.to_nat PGSIZE) with (Z.to_nat 4096).
  apply list_lookup_total_correct. rewrite list_lookup_fmap, lookup_seq_lt by lia. cbn. by rewrite Z2Nat.id by lia.
Qed.

Lemma frame_bytes_length m base : length (frame_bytes m base) = Z.to_nat 4096.
Proof. unfold frame_bytes. by rewrite length_map, length_seq. Qed.

Lemma put_frame_bytes m base b k : length b = Z.to_nat 4096 →
  put_bytes m base b k = if decide (base ≤ k < base + 4096) then at_ b (k - base) else m k.
Proof.
  intros Hb. unfold put_bytes. rewrite Hb, Z2Nat.id by lia.
  destruct (Z.leb_spec base k), (Z.ltb_spec k (base + 4096)); cbn [andb]; case_decide; done || lia.
Qed.

Lemma put_frame_u8 m base m' k : (∀ k, is_u8 (m k)) → is_u8 (put_bytes m base (frame_bytes m' base) k).
Proof.
  intros H8. rewrite put_frame_bytes by apply frame_bytes_length. case_decide; [|done].
  rewrite frame_bytes_at by lia. apply u8_range.
Qed.

Lemma frame_unlock_ok s f b p : frames s !! f = Some (Frame (Some (cur s)) b p) →
  frame_unlock s f = Ok (put_frame f (Frame None b p) s).
Proof.
  intros Hf. unfold frame_unlock. rewrite (get_frame_ok s f _ Hf). cbn [mbind res_bind lock base fpage].
  unfold lock_held. rewrite bool_decide_eq_true_2 by done. cbn [ASSERT mbind res_bind]. by rewrite lock_release_ok.
Qed.

(** ** [setup_stack] *)

Section stack.
Context (ipd ram : Z) (pds : list Z) (sleep : vm → vm) (s : vm) (t : process) (tbl : gmap Z Z) (cmd space : Z) (l : list Z).
Abbreviation top := (PHYS_BASE - 4096).
Context (Hs : machine ram pds s) (Ht : procs s !! cur s = Some t) (Htb : ptable t = Some tbl) (Hpd : pagedir t ∈ pds)
  (Hno : tbl !! top = None) (Hheap : heap_ok s) (Hnf : no_frame_held s) (Hsl : scan_lock s = None) (Hcan : can_alloc s)
  (Hram : ram < 262144).
Context (Hc : region cmd (Z.of_nat (length l) + 1)) (Hsp : region space 2) (Hl : Forall (λ c, 0 < c < 256) l)
  (Hlen : Z.of_nat (length l) < 2 ^ 31 - 8) (D3 : disjoint_regions cmd (Z.of_nat (length l) + 1) space 2)
  (Hfr : ∀ f fr, frames s !! f = Some fr → disjoint_regions (base fr) 4096 cmd (Z.of_nat (length l) + 1) ∧
     disjoint_regions (base fr) 4096 space 2).

(** The page of the stack: [setup_stack] clears [private]. *)
Definition stack_pg : page := Page top false (cur s) None NO_SECTOR false None 0 0.

Lemma top_page : pg_round_down top = top.
Proof using Type. reflexivity. Qed.

(** The page in the frame [fr] of a memory [m], unlocked. *)
Definition stack_state (s2 : vm) (f : nat) (fr : frame) (m : memory) : vm :=
  put_frame f (Frame None (base fr) (next_page s))
    (set_memory m (set_pages (<[next_page s := with_frame (Some f) stack_pg]> (pages s2)) (taken s2 (next_page s) f fr))).

Lemma stack_loaded s2 f fr m : vacated ram pds (added s t tbl (fresh_page s top false)) (added s t tbl (fresh_page s top false)) s2 f fr →
  (∀ k, is_u8 (m k)) → (∀ k, k < base fr ∨ base fr + 4096 ≤ k → m k = memory_of s2 k) → let s' := stack_state s2 f fr m in
  machine ram pds s' ∧ (∀ q j, q < next_page s → 0 ≤ j < 4096 → contents s' q j = contents s q j) ∧
  ∀ j, 0 ≤ j < 4096 → contents s' (next_page s) j = m (base fr + j).
Proof using All.
  intros [V1 V2 V3 V4 _ _ _ V8 _ _] Hm8 Hmo s'. set (p := next_page s) in *. set (pg0 := fresh_page s top false) in *.
  assert (pages s2 !! p = Some pg0) as Hp by (apply V8; [cbn; by rewrite lookup_insert_eq|done]).
  set (s3 := set_pages (<[p := stack_pg]> (pages s2)) s2).
  assert (machine ram pds s3) as Hs3.
  { assert (s3 = set_pages (<[p := stack_pg]> (pages s2)) (set_swap (swap_device s2) (swap_bitmap s2) s2)) as E by (unfold s3; by destruct s2).
    rewrite E. apply (machine_page ram pds s2 p pg0); try done; [by left|]. rewrite <- E. apply (upd_swap_ok s2 p pg0); [done|done|apply V1]. }
  assert (∀ q j, q ≠ p → contents s3 q j = contents s2 q j) as Hc3.
  { apply (contents_other s2 s3 p); try done; intros r Hr; [cbn; by rewrite lookup_insert_ne|]. by apply (upd_swapped s2 p pg0). }
  assert (pages s3 !! p = Some stack_pg) as Hp3 by apply lookup_insert_eq. set (pg := with_frame (Some f) stack_pg).
  set (s4 := loaded s3 p pg f fr m (fsys s3) (swap_device s3) (swap_bitmap s3)).
  assert (swap_ok s4) as Hsw by (apply (upd_swap_ok s3 p stack_pg); [done|done|apply Hs3]).
  assert (∀ q, q ≠ p → swapped s4 q = swapped s3 q) as Hst by (intros q _; by apply (upd_swapped s3 p stack_pg)).
  assert (same_fs (fsys s3) (fsys s3)) as Hfs by apply same_fs_refl, Hs3.
  pose proof (loaded_machine ipd ram pds s3 p stack_pg pg f fr m _ _ _ Hs3 Hp3 eq_refl V3 V4 eq_refl Hm8 Hmo Hfs Hsw Hst) as Hs4.
  destruct (set_frame ram pds s4 f (Frame (Some (cur s2)) (base fr) p) None p Hs4) as [Hs5 Hc5].
  { cbn. apply list_lookup_insert_eq. by eapply lookup_lt_Some. }
  { by left. }
  assert (s' = put_frame f (Frame None (base fr) p) s4) as Es.
  { unfold s', stack_state, s4, loaded, s3, taken. cbn. rewrite insert_insert_eq. by destruct s2. }
  rewrite Es. split_and!; [exact Hs5| |].
  - intros q j Hq Hj. rewrite Hc5 by done.
    destruct (loaded_other ipd ram pds s3 p stack_pg pg f fr m _ _ _ Hs3 Hp3 eq_refl V3 V4 eq_refl Hm8 Hmo Hfs Hsw Hst q j) as [E|?]; [lia| |done].
    etrans; [exact E|]. rewrite Hc3 by lia. rewrite V2 by done. by apply added_other; lia.
  - intros j Hj. rewrite Hc5 by done.
    apply (loaded_page ipd ram pds s3 p stack_pg pg f fr m _ _ _ Hs3 Hp3 eq_refl V3 V4 eq_refl Hm8 Hmo Hfs Hsw Hst).
Qed.

Lemma stack_user_byte s2 f fr m a : vacated ram pds (added s t tbl (fresh_page s top false)) (added s t tbl (fresh_page s top false)) s2 f fr →
  (∀ j, 0 ≤ j < 4096 → contents (stack_state s2 f fr m) (next_page s) j = m (base fr + j)) → top ≤ a < PHYS_BASE →
  user_byte (stack_state s2 f fr m) a = Some (m (base fr + (a - top))).
Proof using All.
  intros [_ _ _ _ _ V6 V7 _ _ _] Hc' Ha. unfold user_byte.
  change (procs (stack_state s2 f fr m)) with (procs s2). change (cur (stack_state s2 f fr m)) with (cur s2).
  rewrite V6, V7. cbn [added set_procs procs cur set_heap set_pages]. rewrite lookup_insert_eq. cbn [ptable].
  assert (a / 4096 * 4096 = top ∧ a mod 4096 = a - top) as [-> ->] by (unfold PHYS_BASE in *; c_lia).
  change (addr (fresh_page s top false)) with top. rewrite lookup_insert_eq. cbn [mbind option_bind]. rewrite Hc'; [done|].
  lia.
Qed.

(** What the other pages of the process hold. *)
Lemma stack_user_old s2 f fr m a : vacated ram pds (added s t tbl (fresh_page s top false)) (added s t tbl (fresh_page s top false)) s2 f fr →
  (∀ q j, q < next_page s → 0 ≤ j < 4096 → contents (stack_state s2 f fr m) q j = contents s q j) →
  (∀ q, tbl !! (a / 4096 * 4096) = Some q → q < next_page s) → a < top ∨ PHYS_BASE ≤ a →
  user_byte (stack_state s2 f fr m) a = user_byte s a.
Proof using All.
  intros [_ _ _ _ _ V6 V7 _ _ _] Hc' Hq Ha. unfold user_byte.
  change (procs (stack_state s2 f fr m)) with (procs s2). change (cur (stack_state s2 f fr m)) with (cur s2).
  rewrite V6, V7, Ht. cbn [added set_procs procs cur set_heap set_pages]. rewrite lookup_insert_eq, Htb. cbn [ptable].
  change (addr (fresh_page s top false)) with top. rewrite lookup_insert_ne by (unfold PHYS_BASE in *; c_lia).
  destruct (tbl !! (a / 4096 * 4096)) as [q|] eqn:E; [|done]. cbn [mbind option_bind]. f_equal. apply Hc'; [by apply Hq|c_lia].
Qed.

(** The frame of the page is set, so is [private], and [init_cmd_line] runs. *)
Lemma setup_stack_run s2 f fr r : vacated ram pds (added s t tbl (fresh_page s top false)) (added s t tbl (fresh_page s top false)) s2 f fr →
  frame_alloc_and_lock ipd sleep (added s t tbl (fresh_page s top false)) (next_page s) = Ok (taken s2 (next_page s) f fr, Some f) →
  init_cmd_line space (frame_store (memory_of s2) (base fr) cmd space l) (base fr) top cmd = Ok r →
  setup_stack ipd sleep s cmd space l = Ok match r with
    | Some (m, esp) => (stack_state s2 f fr (put_bytes (memory_of s2) (base fr) (frame_bytes m (base fr))), Some esp)
    | None => (stack_state s2 f fr (memory_of s2), None)
    end.
Proof using All.
  intros [V1 V2 V3 V4 V5 V6 V7 V8 _ _] Hal Hr. pose proof Hheap as (Hn & _). unfold setup_stack.
  change PGSIZE with 4096. rewrite (page_allocate_spec s t tbl) by done. rewrite top_page, Hno. cbn [mbind res_bind].
  rewrite (proj2 (Z.eqb_neq (next_page s) 0)) by lia. rewrite Hal. cbn [mbind res_bind].
  assert (pages s2 !! next_page s = Some (fresh_page s top false)) as Hp by (apply V8; [cbn; by rewrite lookup_insert_eq|done]).
  rewrite (upd_page_ok (next_page s) _ (taken s2 (next_page s) f fr) (fresh_page s top false)) by exact Hp. cbn [mbind res_bind].
  rewrite (upd_page_ok (next_page s) _ _ (with_frame (Some f) (fresh_page s top false))) by apply lookup_insert_eq. cbn [mbind res_bind].
  set (s3 := set_pages _ (set_pages _ _)).
  assert (frames s3 !! f = Some (Frame (Some (cur s2)) (base fr) (next_page s))) as Hf3.
  { apply list_lookup_insert_eq. by eapply lookup_lt_Some. }
  rewrite (get_frame_ok s3 f _ Hf3). cbn [mbind res_bind base].
  rewrite (get_page_ok s3 (next_page s) (with_frame (Some f) stack_pg)) by apply lookup_insert_eq. cbn [mbind res_bind].
  change (memory_of s3) with (memory_of s2). change (addr (with_frame (Some f) stack_pg)) with top. rewrite Hr. cbn [mbind res_bind].
  destruct r as [[m esp]|].
  - rewrite (frame_unlock_ok _ f (base fr) (next_page s)) by exact Hf3. cbn [mbind res_bind]. do 2 f_equal.
    unfold stack_state, s3, put_frame, set_memory. cbn. by rewrite insert_insert_eq.
  - rewrite (frame_unlock_ok _ f (base fr) (next_page s)) by exact Hf3. cbn [mbind res_bind]. do 2 f_equal.
    unfold stack_state, s3, put_frame, set_memory. cbn. rewrite insert_insert_eq. by destruct s2 as [[[] ? ?]].
Qed.

Lemma stack_disjoint s2 f fr : frames s2 !! f = Some fr → map base (frames s2) = map base (frames s) →
  disjoint_regions (base fr) 4096 cmd (Z.of_nat (length l) + 1) ∧ disjoint_regions (base fr) 4096 space 2.
Proof using Hfr.
  intros Hf E. assert (map base (frames s) !! f = Some (base fr)) as H by (rewrite <- E, list_lookup_fmap, Hf; done).
  rewrite list_lookup_fmap in H. destruct (frames s !! f) as [gr|] eqn:Eg; [|done]. injection H as <-. by apply (Hfr f).
Qed.

(** What [setup_stack] does. *)
Lemma setup_stack_spec : ∃ s2 f fr r, setup_stack ipd sleep s cmd space l = Ok (stack_state s2 f fr r.1, r.2) ∧
  machine ram pds (stack_state s2 f fr r.1) ∧
  (∀ a, top ≤ a < PHYS_BASE → user_byte (stack_state s2 f fr r.1) a = Some (r.1 (base fr + (a - top)))) ∧
  (∀ a, (∀ q, tbl !! (a / 4096 * 4096) = Some q → q < next_page s) → a < top ∨ PHYS_BASE ≤ a →
    user_byte (stack_state s2 f fr r.1) a = user_byte s a) ∧
  if stack_bytes l <=? 4096 then r.2 = Some (PHYS_BASE - stack_bytes l) ∧
    ∃ m, (∀ j, 0 ≤ j < 4096 → r.1 (base fr + j) = u8 (default 0 (m !! (base fr + j)))) ∧
      process_stack m (base fr) top (base fr + (4096 - stack_bytes l)) (tokens [32] l)
  else r.2 = None.
Proof using All.
  pose proof (added_machine ram pds s t tbl (fresh_page s top false) Hs Ht Hpd Hheap ltac:(done) eq_refl eq_refl eq_refl ltac:(done)) as Ha.
  destruct (frame_alloc_spec ipd ram pds sleep _ (next_page s) Ha Hnf Hsl) as (s2 & f & fr & Hal & Hv).
  { destruct Hcan as [?|(? & Hev & ?)]; [by left|]. right. split; [done|]. split; [by apply added_evictable|done]. }
  pose proof Hv as [V1 _ V3 _ _ _ _ _ _ V10]. destruct (mc_base _ _ _ V1 f fr V3) as ((K1 & K2 & K3 & _) & _).
  pose proof (mc_ram _ _ _ V1 f fr V3) as K4. pose proof (vm_bytes _ _ (mc_mm _ _ _ V1)) as H8.
  destruct (stack_disjoint s2 f fr V3 V10) as [D1 D2].
  destruct (frame_store_spec (memory_of s2) (base fr) cmd space l H8 Hc Hsp Hl D1 D2 D3) as (Hmp & Hcs & Hss).
  assert (0 < base fr ∧ base fr + 4096 < 2 ^ 32) as [K5 K6] by (unfold PHYS_BASE in *; c_lia).
  pose proof (init_cmd_line_spec space (base fr) top cmd _ l K5 K6 ltac:(done) ltac:(done) Hmp Hcs Hlen D1 Hss D2) as Hi.
  destruct (stack_bytes l <=? 4096).
  - destruct Hi as (m & Hi & _ & Hm). set (m' := put_bytes (memory_of s2) (base fr) (frame_bytes m (base fr))).
    destruct (stack_loaded s2 f fr m' Hv) as (L1 & L2 & L3).
    { intros k. by apply put_frame_u8. }
    { intros k Hk. unfold m'. rewrite put_frame_bytes, decide_False by (apply frame_bytes_length || lia). done. }
    exists s2, f, fr, (m', Some (top + (4096 - stack_bytes l))). split_and!; [by rewrite (setup_stack_run s2 f fr _ Hv Hal Hi)|done| | | |].
    + intros a Hk. by apply stack_user_byte.
    + intros a Hq Hk. by apply stack_user_old.
    + cbn. f_equal. lia.
    + exists m. split; [|done]. intros j Hj. cbn. unfold m'. rewrite put_frame_bytes, decide_True by (apply frame_bytes_length || lia).
      rewrite frame_bytes_at by lia. do 4 f_equal. lia.
  - destruct (stack_loaded s2 f fr (memory_of s2) Hv H8 ltac:(done)) as (L1 & L2 & L3).
    exists s2, f, fr, (memory_of s2, None). split_and!; [by rewrite (setup_stack_run s2 f fr _ Hv Hal Hi)|done| | |done].
    + intros a Hk. by apply stack_user_byte.
    + intros a Hq Hk. by apply stack_user_old.
Qed.

End stack.

(** ** The stack as the process sees it *)

Definition user_bytes (s : vm) (a : Z) (l : list Z) : Prop := ∀ i b, l !! i = Some b → user_byte s (a + Z.of_nat i) = Some b.

(** From [esp] on a return address, [argc], [argv], the elements of [argv] and
    a null pointer; the elements are the strings [ws]. *)
Definition user_stack (s : vm) (esp : Z) (ws : list (list Z)) : Prop :=
  ∃ addrs, (∀ i v, ([0; Z.of_nat (length ws); esp + 12] ++ addrs ++ [0]) !! i = Some v → user_bytes s (esp + 4 * Z.of_nat i) (le32 v)) ∧
    Forall2 (λ a w, user_bytes s a (w ++ [0])) addrs ws.

Lemma page_user_bytes s m base a l : (∀ x, PHYS_BASE - 4096 ≤ x < PHYS_BASE →
    user_byte s x = Some (u8 (default 0 (m !! (base + (x - (PHYS_BASE - 4096))))))) →
  bytes_at m a l → Forall is_u8 l → base ≤ a → a + Z.of_nat (length l) ≤ base + 4096 →
  user_bytes s (PHYS_BASE - 4096 + (a - base)) l.
Proof.
  intros Hu Hb H8 H1 H2 i b Hi. pose proof (lookup_lt_Some _ _ _ Hi). rewrite Hu by lia.
  replace (base + _) with (a + Z.of_nat i) by lia. rewrite (Hb i b Hi). cbn. f_equal. apply u8_small. exact (Forall_lookup_1 _ _ _ _ H8 Hi).
Qed.

Lemma process_user_stack s m base n ws : (∀ x, PHYS_BASE - 4096 ≤ x < PHYS_BASE →
    user_byte s x = Some (u8 (default 0 (m !! (base + (x - (PHYS_BASE - 4096))))))) →
  0 ≤ 4096 - n → 16 + 4 * Z.of_nat (length ws) ≤ n →
  process_stack m base (PHYS_BASE - 4096) (base + (4096 - n)) ws → user_stack s (PHYS_BASE - n) ws.
Proof.
  intros Hu Hn1 Hn2 (addrs & Hw & Hs). exists (map (λ t, PHYS_BASE - 4096 + (t - base)) addrs). split.
  - intros i v Hi. assert (length addrs = length ws) as Hl by (by eapply Forall2_length).
    pose proof (lookup_lt_Some _ _ _ Hi) as Hlt. rewrite !length_app, length_map in Hlt. cbn in Hlt.
    replace (PHYS_BASE - n + 4 * Z.of_nat i) with (PHYS_BASE - 4096 + (base + (4096 - n) + 4 * Z.of_nat i - base)) by lia.
    apply (page_user_bytes s m base); [done| |apply le32_u8|lia|cbn; lia]. apply (Hw i v).
    by replace (PHYS_BASE - 4096 + (base + (4096 - n) - base) + 12) with (PHYS_BASE - n + 12) by lia.
  - apply Forall2_fmap_l. eapply Forall2_impl; [exact Hs|]. cbn. intros t w ((_ & Hw8 & Hb) & H1 & H2).
    apply (page_user_bytes s m base); [done|done| |done|rewrite length_app; cbn; lia].
    apply Forall_app. split; [|by repeat constructor]. eapply Forall_impl; [exact Hw8|]. cbn. intros c Hc. c_lia.
Qed.

Lemma stack_bytes_words l : 16 + 4 * Z.of_nat (length (tokens [32] l)) ≤ stack_bytes l.
Proof. unfold stack_bytes. c_lia. Qed.


#[local] Opaque demo_vm demo_pd.

