(* ===== verification/Syscall.v ===== *)
(** * userprog/syscall.c and userprog/exception.c

    The system calls and the page faults of the running process.  The kernel
    reads and writes the memory of the process through the active page
    directory; a kernel access to a page that is not present, or a write to a
    read-only one, ends in the page fault handler, which panics.  A call
    returns, or ends the process, or turns the machine off.

    The lists of open files and mappings of the process are sequences (see
    KListProps); a [struct file] is named by its address, as in Load. *)

From stdpp Require Import gmap.
From S2P Require Import Prelude Bitmap Vaddr Palloc Pagedir Block Inode FreeMap File Directory Filesys Vm Load.

(** ** Data *)

Record file_descriptor := Fd { fd_file : Z; handle : Z }.
Record mapping := Mapping { mhandle : Z; mfile : Z; mbase : Z; page_cnt : Z }.

(** [mach] is the state of the components below.  The lists, [next_handle],
    [exit_code] and [bin_file] are those of the running process. *)
Record sys := Sys {
  mach : vm;
  fds : list file_descriptor;
  mappings : list mapping;
  next_handle : Z;
  exit_code : Z;
  fs_lock : option Z;
  console : list Z;                (* what was written to it *)
  keyboard : list Z;               (* the keys in the input buffer *)
}.

Definition set_mach (x : vm) (s : sys) : sys :=
  Sys x (fds s) (mappings s) (next_handle s) (exit_code s) (fs_lock s) (console s) (keyboard s).
Definition set_fds (x : list file_descriptor) (s : sys) : sys :=
  Sys (mach s) x (mappings s) (next_handle s) (exit_code s) (fs_lock s) (console s) (keyboard s).
Definition set_mappings (x : list mapping) (s : sys) : sys :=
  Sys (mach s) (fds s) x (next_handle s) (exit_code s) (fs_lock s) (console s) (keyboard s).
Definition set_next_handle (x : Z) (s : sys) : sys :=
  Sys (mach s) (fds s) (mappings s) x (exit_code s) (fs_lock s) (console s) (keyboard s).
Definition set_exit_code (x : Z) (s : sys) : sys :=
  Sys (mach s) (fds s) (mappings s) (next_handle s) x (fs_lock s) (console s) (keyboard s).
Definition set_fs_lock (x : option Z) (s : sys) : sys :=
  Sys (mach s) (fds s) (mappings s) (next_handle s) (exit_code s) x (console s) (keyboard s).
Definition set_console (x : list Z) (s : sys) : sys :=
  Sys (mach s) (fds s) (mappings s) (next_handle s) (exit_code s) (fs_lock s) x (keyboard s).
Definition set_keyboard (x : list Z) (s : sys) : sys :=
  Sys (mach s) (fds s) (mappings s) (next_handle s) (exit_code s) (fs_lock s) (console s) x.

(** ** Calls *)

(** How a piece of code ends: with a value, in [thread_exit], or in
    [shutdown_power_off]. *)
Inductive outcome (A : Type) : Type :=
  | Ret (a : A)
  | Exit
  | PowerOff.
Arguments Ret {A} a.
Arguments Exit {A}.
Arguments PowerOff {A}.

Definition call (A : Type) : Type := sys → res (sys * outcome A).

Definition ret {A} (a : A) : call A := λ s, Ok (s, Ret a).
Definition thread_exit {A} : call A := λ s, Ok (s, Exit).
Definition fail {A} (e : err) : call A := λ s, Err e.
#[export] Instance call_bind : MBind call := λ A B k m s,
  '(s, o) ← m s;
  match o with Ret a => k a s | Exit => Ok (s, Exit) | PowerOff => Ok (s, PowerOff) end.

Definition gets {A} (f : sys → A) : call A := λ s, Ok (s, Ret (f s)).
Definition modify (f : sys → sys) : call unit := λ s, Ok (f s, Ret tt).
(** Code of a component below. *)
Definition run {A} (f : vm → res (vm * A)) : call A := λ s,
  '(x, a) ← f (mach s); Ok (set_mach x s, Ret a).
Definition run_ {A} (f : vm → res A) : call A := λ s, a ← f (mach s); Ok (s, Ret a).
Definition exec (f : vm → res vm) : call unit := λ s, x ← f (mach s); Ok (set_mach x s, Ret tt).

(** Code of other threads. *)
Definition other {A} (f : sys → res (sys * A)) : call A := λ s, '(s, a) ← f s; Ok (s, Ret a).

(** [n] bounds the turns of the loop. *)
Fixpoint repeat_until {S R} (n : nat) (body : S → call (S + R)) (x : S) : call R :=
  match n with
  | O => fail EFuel
  | Datatypes.S n => r ← body x; match r with inl x => repeat_until n body x | inr r => ret r end
  end.

(** [for (i = lo; i < lo + n; i++)] *)
Fixpoint for_each (n : nat) (lo : Z) (body : Z → call unit) : call unit :=
  match n with
  | O => ret tt
  | S n => _ ← body lo; for_each n (lo + 1) body
  end.

(** ** User memory *)

(** The kernel touches the user address [a]; the result is the kernel address
    of the byte.  The processor sets the bits of the entry. *)
Definition user_access (write : bool) (a : Z) (s : vm) : res (vm * Z) :=
  pd ← active_pd (mm s);
  let e := Pagedir.entry (mm s) pd a in
  if flag e PTE_P && (negb write || flag e PTE_W) then
    k ← pte_get_page e;
    Ok (set_mm (store_word (mm s) (slot (mm s) pd a) (Z.lor e (if write then Z.lor PTE_A PTE_D else PTE_A))) s,
        k + pg_ofs a)
  else Err EPanic.

Definition user_load (a : Z) (s : vm) : res (vm * Z) :=
  '(s, k) ← user_access false a s; Ok (s, memory_of s k).
Definition user_store (a c : Z) (s : vm) : res vm :=
  '(s, k) ← user_access true a s; Ok (set_memory (put_bytes (memory_of s) k [c]) s).

(** [n] bytes from [a] on. *)
Fixpoint user_read (n : nat) (a : Z) (s : vm) : res (vm * list Z) :=
  match n with
  | O => Ok (s, [])
  | S n => '(s, c) ← user_load a s; '(s, l) ← user_read n (a + 1) s; Ok (s, c :: l)
  end.
Fixpoint user_write (l : list Z) (a : Z) (s : vm) : res vm :=
  match l with
  | [] => Ok s
  | c :: l => s ← user_store a c s; user_write l (a + 1) s
  end.

(** ** Locks, allocation *)

Definition acquire_fs : call unit := λ s,
  l ← lock_acquire (cur (mach s)) (fs_lock s); Ok (set_fs_lock l s, Ret tt).
Definition release_fs : call unit := λ s,
  l ← lock_release (cur (mach s)) (fs_lock s); Ok (set_fs_lock l s, Ret tt).

(** Whether [malloc] of a small object succeeds. *)
Definition malloc_ok (s : vm) : res (vm * bool) :=
  Ok (set_heap (next_page s) (tail (mallocs s)) s, match mallocs s with false :: _ => false | _ => true end).

Definition new_kpage (s : vm) : res (vm * Z) :=
  '(p, a) ← palloc_get_page (pal (mm s)) 0; Ok (set_mm (Mmu p (cr3 (mm s)) (tlb (mm s))) s, a).
Definition free_kpage (a : Z) (s : vm) : res vm :=
  p ← palloc_free_page (pal (mm s)) a; Ok (set_mm (Mmu p (cr3 (mm s)) (tlb (mm s))) s).

Section code.
Context (init_page_dir init_ram_pages : Z) (sleep : vm → vm).
(** What [junk] and [retval0], local variables that are not initialised, hold. *)
Context (junk : list Z) (retval0 : Z).
(** [process_execute] and [process_wait], in which other threads run; they
    are the subject of ProcessWait. *)
Context (process_execute : list Z → sys → res (sys * Z)) (process_wait : Z → sys → res (sys * Z)).

Abbreviation page_lock := (λ a w s, Vm.page_lock init_page_dir init_ram_pages sleep s a w).

(** ** Arguments *)

(** One turn of the loop of [copy_in]; [dst] is what was copied so far. *)
Definition copy_chunk (st : list Z * Z * Z) : call (list Z * Z * Z + list Z) :=
  let '(dst, usrc, size) := st in
  if 0 <? size then
    let chunk_size := PGSIZE - pg_ofs usrc in
    let chunk_size := if size <? chunk_size then size else chunk_size in
    ok ← run (page_lock usrc false);
    if negb ok then thread_exit else
    l ← run (user_read (Z.to_nat chunk_size) usrc);
    _ ← exec (λ s, page_unlock s usrc);
    ret (inl (dst ++ l, u32 (usrc + chunk_size), size - chunk_size))
  else ret (inr dst).

Definition copy_in (usrc size : Z) : call (list Z) := repeat_until (S (Z.to_nat size)) copy_chunk ([], usrc, size).

(** The inner loop of [copy_in_string]: the characters of one page.  The
    result says where the outer loop goes on, or how it ends. *)
Inductive string_end := NextPage (us length : Z) | Done | TooLong.

Definition copy_page_string (ks upage us length : Z) : call string_end :=
  repeat_until (S (Z.to_nat PGSIZE)) (λ '(us, length),
    if us <? upage + PGSIZE then
      c ← run (user_load us);
      _ ← modify (λ s, set_mach (set_memory (put_bytes (memory_of (mach s)) (ks + length) [c]) (mach s)) s);
      let length := length + 1 in
      if c =? 0 then
        _ ← exec (λ s, page_unlock s upage);
        ret (inr Done)
      else if PGSIZE <=? length then ret (inr TooLong)
      else ret (inl (us + 1, length))
    else
      _ ← exec (λ s, page_unlock s upage);
      ret (inr (NextPage us length))) (us, length).

(** A string has at most [PGSIZE] bytes, so that it lies on two pages. *)
Definition copy_in_string (us : Z) : call Z :=
  ks ← run new_kpage;
  if ks =? 0 then thread_exit else
  repeat_until 3 (λ '(us, length),
    let upage := pg_round_down us in
    ok ← run (page_lock upage false);
    if negb ok then
      _ ← exec (free_kpage ks);
      thread_exit
    else
      r ← copy_page_string ks upage us length;
      match r with
      | Done => ret (inr ks)
      | NextPage us length => ret (inl (us, length))
      | TooLong =>
          _ ← exec (λ s, page_unlock s upage);
          _ ← exec (free_kpage ks);
          thread_exit
      end) (us, 0).

(** The string at the kernel address [ks], which lies on one page. *)
Definition kstring (ks : Z) : call (list Z) := gets (λ s, cstring (bytes (memory_of (mach s)) ks PGSIZE)).

(** ** Processes *)

Definition sys_halt : call Z := λ s, Ok (s, PowerOff).

Definition sys_exit (code : Z) : call Z :=
  _ ← modify (set_exit_code (s32 code));
  thread_exit.

Definition sys_exec (ufile : Z) : call Z :=
  kfile ← copy_in_string ufile;
  _ ← acquire_fs;
  name ← kstring kfile;
  tid ← other (process_execute name);
  _ ← release_fs;
  _ ← exec (free_kpage kfile);
  ret tid.

Definition sys_wait (child : Z) : call Z := other (process_wait (s32 child)).

(** ** Files by name *)

Definition on_fs {A} (f : fs → res (fs * A)) (s : vm) : res (vm * A) :=
  '(x, a) ← f (fsys s); Ok (set_fsys x s, a).

Definition sys_create (ufile initial_size : Z) : call Z :=
  kfile ← copy_in_string ufile;
  _ ← acquire_fs;
  name ← kstring kfile;
  ok ← run (on_fs (λ x, filesys_create junk x name (s32 initial_size)));
  _ ← release_fs;
  _ ← exec (free_kpage kfile);
  ret (if ok : bool then 1 else 0).

Definition sys_remove (ufile : Z) : call Z :=
  kfile ← copy_in_string ufile;
  _ ← acquire_fs;
  name ← kstring kfile;
  ok ← run (on_fs (λ x, filesys_remove junk x name));
  _ ← release_fs;
  _ ← exec (free_kpage kfile);
  ret (if ok : bool then 1 else 0).

(** [filesys_open]; the result is the address of the file, or 0. *)
Definition open_file (name : list Z) (s : vm) : res (vm * Z) :=
  '(x, f) ← filesys_open junk (fsys s) name;
  let s := set_fsys x s in
  match f with Some f => Ok (new_file f s) | None => Ok (s, 0) end.

(** [handle = fd->handle = cur->next_handle++; list_push_front (&cur->fds, &fd->elem)] *)
Definition add_fd (file : Z) : call Z :=
  handle ← gets next_handle;
  _ ← modify (set_next_handle (s32 (handle + 1)));
  _ ← modify (λ s, set_fds (Fd file handle :: fds s) s);
  ret handle.

Definition sys_open (ufile : Z) : call Z :=
  kfile ← copy_in_string ufile;
  fd ← run malloc_ok;
  handle ← (if fd : bool then
              _ ← acquire_fs;
              name ← kstring kfile;
              file ← run (open_file name);
              handle ← (if negb (file =? 0) then add_fd file else ret (-1));
              _ ← release_fs;
              ret handle
            else ret (-1));
  _ ← exec (free_kpage kfile);
  ret handle.

(** ** Open files *)

Definition lookup_fd (h : Z) : call file_descriptor := λ s,
  match list_find (λ fd, handle fd = h) (fds s) with
  | Some (_, fd) => Ok (s, Ret fd)
  | None => Ok (s, Exit)
  end.

(** [fd->file] *)
Definition file_of (fd : file_descriptor) : call file := run_ (λ s, get_file s (fd_file fd)).
Definition update_file (fd : file_descriptor) (f : file) : call unit := modify (λ s, set_mach (put_file (fd_file fd) f (mach s)) s).

Definition sys_filesize (h : Z) : call Z :=
  fd ← lookup_fd h;
  _ ← acquire_fs;
  f ← file_of fd;
  size ← run_ (λ s, file_length (fsys s) f);
  _ ← release_fs;
  ret size.

Definition STDIN_FILENO : Z := 0.
Definition STDOUT_FILENO : Z := 1.

(** [file_read] into user memory: of the buffer only what was read is stored. *)
Definition read_user (fd : file_descriptor) (udst n : Z) : call Z :=
  f ← file_of fd;
  '(f, buffer, retval) ← run (on_fs (λ x,
    '(x, f, buffer, retval) ← file_read x f (repeat 0 (Z.to_nat n)) n; Ok (x, (f, buffer, retval))));
  _ ← update_file fd f;
  _ ← exec (user_write (take (Z.to_nat retval) buffer) udst);
  ret retval.

Definition input_getc : call Z := λ s,
  match keyboard s with [] => Err EBlock | c :: l => Ok (set_keyboard l s, Ret c) end.

(** One turn of the loop of [sys_read]. *)
Definition read_chunk (h : Z) (fd : file_descriptor) (st : Z * Z * Z * Z) : call (Z * Z * Z * Z + Z) :=
  let '(udst, size, bytes_read, retval) := st in
  if 0 <? size then
    let page_left := PGSIZE - pg_ofs udst in
    let read_amt := if size <? page_left then size else page_left in
    '(retval, bytes_read) ←
      (if negb (h =? STDIN_FILENO) then
         ok ← run (page_lock udst true);
         if negb ok then thread_exit else
         _ ← acquire_fs;
         retval ← read_user fd udst read_amt;
         _ ← release_fs;
         _ ← exec (λ s, page_unlock s udst);
         ret (retval, bytes_read)
       else
         _ ← for_each (Z.to_nat read_amt) 0 (λ i,
           c ← input_getc;
           ok ← run (page_lock udst true);
           if negb ok then thread_exit else
           _ ← exec (user_store (udst + i) c);
           exec (λ s, page_unlock s udst));
         ret (retval, read_amt));
    if retval <? 0 then ret (inr (if bytes_read =? 0 then -1 else bytes_read)) else
    let bytes_read := s32 (bytes_read + retval) in
    if negb (retval =? read_amt) then ret (inr bytes_read)
    else ret (inl (u32 (udst + retval), u32 (size - retval), bytes_read, retval))
  else ret (inr bytes_read).

Definition sys_read (h udst size : Z) : call Z :=
  fd ← lookup_fd h;
  repeat_until (S (Z.to_nat size)) (read_chunk h fd) (udst, size, 0, retval0).

(** [file_write] from user memory; [inode_write_at] reads no more of it than
    the file can take. *)
Definition accepted (x : fs) (f : file) (n ofs : Z) : res Z :=
  i ← deref (inodes x !! file_inode f);
  Ok (if deny_write_cnt i =? 0 then available i n ofs else 0).

Definition write_user (fd : file_descriptor) (usrc n : Z) : call Z :=
  f ← file_of fd;
  k ← run_ (λ s, accepted (fsys s) f n (file_pos f));
  buffer ← run (user_read (Z.to_nat k) usrc);
  '(f, retval) ← run (on_fs (λ x, '(x, f, retval) ← file_write x f buffer n; Ok (x, (f, retval))));
  _ ← update_file fd f;
  ret retval.

Definition putbuf (l : list Z) : call unit := modify (λ s, set_console (console s ++ l) s).

(** One turn of the loop of [sys_write]. *)
Definition write_chunk (h : Z) (fd : file_descriptor) (st : Z * Z * Z) : call (Z * Z * Z + Z) :=
  let '(usrc, size, bytes_written) := st in
  if 0 <? size then
    let page_left := PGSIZE - pg_ofs usrc in
    let write_amt := if size <? page_left then size else page_left in
    ok ← run (page_lock usrc false);
    if negb ok then thread_exit else
    _ ← acquire_fs;
    retval ← (if h =? STDOUT_FILENO then
                l ← run (user_read (Z.to_nat write_amt) usrc);
                _ ← putbuf l;
                ret write_amt
              else write_user fd usrc write_amt);
    _ ← release_fs;
    _ ← exec (λ s, page_unlock s usrc);
    if retval <? 0 then ret (inr (if bytes_written =? 0 then -1 else bytes_written)) else
    let bytes_written := s32 (bytes_written + retval) in
    if negb (retval =? write_amt) then ret (inr bytes_written)
    else ret (inl (u32 (usrc + retval), u32 (size - retval), bytes_written))
  else ret (inr bytes_written).

Definition sys_write (h usrc size : Z) : call Z :=
  fd ← (if negb (h =? STDOUT_FILENO) then lookup_fd h else ret (Fd 0 0));
  repeat_until (S (Z.to_nat size)) (write_chunk h fd) (usrc, size, 0).

Definition sys_seek (h position : Z) : call Z :=
  fd ← lookup_fd h;
  _ ← acquire_fs;
  _ ← (if 0 <=? s32 position then
         f ← file_of fd;
         f ← run_ (λ _, file_seek f (s32 position));
         update_file fd f
       else ret tt);
  _ ← release_fs;
  ret 0.

Definition sys_tell (h : Z) : call Z :=
  fd ← lookup_fd h;
  _ ← acquire_fs;
  f ← file_of fd;
  _ ← release_fs;
  ret (file_tell f).

(** [file_close]: the object is freed. *)
Definition close_file (h : Z) (s : vm) : res vm :=
  f ← get_file s h;
  x ← file_close (fsys s) (Some f);
  Ok (set_files (delete h (files s)) (set_fsys x s)).

(** [list_remove] of the element with the handle [h]. *)
Fixpoint remove_fd (h : Z) (l : list file_descriptor) : list file_descriptor :=
  match l with
  | [] => []
  | fd :: l => if handle fd =? h then l else fd :: remove_fd h l
  end.

Definition sys_close (h : Z) : call Z :=
  fd ← lookup_fd h;
  _ ← acquire_fs;
  _ ← exec (close_file (fd_file fd));
  _ ← release_fs;
  _ ← modify (λ s, set_fds (remove_fd h (fds s)) s);
  ret 0.

(** ** Memory mapped files *)

Definition lookup_mapping (h : Z) : call mapping := λ s,
  match list_find (λ m, mhandle m = h) (mappings s) with
  | Some (_, m) => Ok (s, Ret m)
  | None => Ok (s, Exit)
  end.

Fixpoint remove_mapping (h : Z) (l : list mapping) : list mapping :=
  match l with
  | [] => []
  | m :: l => if mhandle m =? h then l else m :: remove_mapping h l
  end.

(** [file_write_at] straight from user memory. *)
Definition write_mapped (m : mapping) (i : Z) : call unit :=
  let size := s32 (u32 (PGSIZE * page_cnt m)) in
  f ← run_ (λ s, get_file s (mfile m));
  k ← run_ (λ s, accepted (fsys s) f size (PGSIZE * i));
  buffer ← run (user_read (Z.to_nat k) (u32 (mbase m + PGSIZE * i)));
  _ ← run (on_fs (λ x, file_write_at x f buffer size (PGSIZE * i)));
  ret tt.

Definition unmap (m : mapping) : call unit :=
  _ ← modify (λ s, set_mappings (remove_mapping (mhandle m) (mappings s)) s);
  _ ← for_each (Z.to_nat (page_cnt m)) 0 (λ i,
    dirt ← run_ (λ s, pd ← my_dir s; pagedir_is_dirty (mm s) pd (u32 (mbase m + i * PGSIZE)));
    if dirt : bool then write_mapped m i else ret tt);
  for_each (Z.to_nat (page_cnt m)) 0 (λ i,
    exec (λ s, page_deallocate init_page_dir s (u32 (mbase m + PGSIZE * i)))).

(** [file_reopen]; the result is the address of the new file, or 0. *)
Definition reopen_file (f : file) (s : vm) : res (vm * Z) :=
  '(x, f) ← file_reopen (fsys s) f;
  let s := set_fsys x s in
  match f with Some f => Ok (new_file f s) | None => Ok (s, 0) end.

(** [m->page_cnt++] for the mapping with the handle [h]. *)
Definition count_page (h : Z) (m : mapping) : mapping :=
  if mhandle m =? h then Mapping (mhandle m) (mfile m) (mbase m) (u32 (page_cnt m + 1)) else m.

(** The loop over the pages of the file. *)
Definition map_pages (h file address length : Z) : call Z :=
  repeat_until (S (Z.to_nat (length / PGSIZE + 1))) (λ '(offset, length),
    if 0 <? length then
      p ← run (λ s, page_allocate s (u32 (address + offset)) false);
      if p =? 0 then
        m ← lookup_mapping h;
        _ ← unmap m;
        ret (inr (-1))
      else
        let n := if PGSIZE <=? length then PGSIZE else length in
        _ ← exec (upd_page p (with_backing false (Some file) offset n));
        _ ← modify (λ s, set_mappings (map (count_page h) (mappings s)) s);
        ret (inl (u32 (offset + n), length - n))
    else ret (inr h)) (0, length).

Definition sys_mmap (h address : Z) : call Z :=
  fd ← lookup_fd h;
  m ← run malloc_ok;
  if negb m || (address =? 0) || negb (pg_ofs address =? 0) then ret (-1) else
  id ← gets next_handle;
  _ ← modify (set_next_handle (s32 (id + 1)));
  _ ← acquire_fs;
  f ← file_of fd;
  file ← run (reopen_file f);
  _ ← release_fs;
  if file =? 0 then ret (-1) else
  _ ← modify (λ s, set_mappings (Mapping id file address 0 :: mappings s) s);
  _ ← acquire_fs;
  f ← run_ (λ s, get_file s file);
  length ← run_ (λ s, file_length (fsys s) f);
  _ ← release_fs;
  map_pages id file address length.

(** [unmap (mapping)] takes the handle for the address of a [struct mapping],
    and [list_remove] reads the links of the element at that address.  When a
    user page is there, what it holds is used as links, which is left out. *)
Definition sys_munmap (h : Z) : call Z :=
  m ← lookup_mapping h;
  _ ← run (user_access false (u32 h));
  fail EFault.

(** ** The end of a process *)

Fixpoint close_all (l : list file_descriptor) : call unit :=
  match l with
  | [] => ret tt
  | fd :: l =>
      _ ← acquire_fs;
      _ ← exec (close_file (fd_file fd));
      _ ← release_fs;
      close_all l
  end.
Fixpoint unmap_all (l : list mapping) : call unit :=
  match l with [] => ret tt | m :: l => _ ← unmap m; unmap_all l end.

Definition syscall_exit : call unit :=
  l ← gets fds;
  _ ← close_all l;
  l ← gets mappings;
  unmap_all l.

(** [thread_exit], up to the point where the thread is taken off the lists;
    [process_exit] is in Load and ProcessWait. *)
Definition end_process (bin_file : Z) : call unit :=
  _ ← syscall_exit;
  exec (λ s, exit_memory init_page_dir s bin_file).

(** ** The handlers *)

(** A row is [arg_cnt] and [func]. *)
Definition syscall_table : list (Z * (Z → Z → Z → call Z)) := [
  (0, λ _ _ _, sys_halt);
  (1, λ a _ _, sys_exit a);
  (1, λ a _ _, sys_exec a);
  (1, λ a _ _, sys_wait a);
  (2, λ a b _, sys_create a b);
  (1, λ a _ _, sys_remove a);
  (1, λ a _ _, sys_open a);
  (1, λ a _ _, sys_filesize (s32 a));
  (3, λ a b c, sys_read (s32 a) b c);
  (3, λ a b c, sys_write (s32 a) b c);
  (2, λ a b _, sys_seek (s32 a) b);
  (1, λ a _ _, sys_tell (s32 a));
  (1, λ a _ _, sys_close (s32 a));
  (2, λ a b _, sys_mmap (s32 a) b);
  (1, λ a _ _, sys_munmap (s32 a))].

(** The result is the new value of [f->eax]. *)
Definition syscall_handler (esp : Z) : call Z :=
  l ← copy_in esp 4;
  let call_nr := word32 l 0 in
  match syscall_table !! Z.to_nat call_nr with
  | None => thread_exit
  | Some (arg_cnt, func) =>
      _ ← run_ (λ _, ASSERT (arg_cnt <=? 3));
      l ← copy_in (u32 (esp + 4)) (4 * arg_cnt);
      let args := l ++ repeat 0 (Z.to_nat (12 - 4 * arg_cnt)) in
      r ← func (word32 args 0) (word32 args 4) (word32 args 8);
      ret (u32 r)
  end.

Definition SEL_UCSEG : Z := 27.
Definition SEL_KCSEG : Z := 8.

Definition kill (cs : Z) : call unit :=
  if cs =? SEL_UCSEG then thread_exit else if cs =? SEL_KCSEG then fail EPanic else thread_exit.

Definition PF_P : Z := 1.
Definition PF_W : Z := 2.
Definition PF_U : Z := 4.

(** [fault_addr] is what CR2 holds. *)
Definition page_fault (cs error_code fault_addr : Z) : call unit :=
  let not_present := Z.land error_code PF_P =? 0 in
  let user := negb (Z.land error_code PF_U =? 0) in
  if user && not_present then
    ok ← run (λ s, page_in init_page_dir init_ram_pages sleep s fault_addr);
    if negb ok then thread_exit else ret tt
  else kill cs.

Record intr_frame := IntrFrame {
  vec_no : Z;
  fesp : Z;
  feax : Z;
  fcs : Z;
  error_code : Z;
  cr2 : Z;
}.

(** The vectors that [exception_init] gives to [kill]. *)
Definition kill_vectors : list Z := [3; 4; 5; 0; 1; 6; 7; 11; 12; 13; 16; 19].

(** [intr_handler] for an interrupt that is not external.  The result is
    [eax] when the process goes on. *)
Definition intr_handler (f : intr_frame) : call Z :=
  _ ← exec (λ s, t ← deref (procs s !! cur s); Ok (set_process (Process (pagedir t) (ptable t) (fesp f)) s));
  if vec_no f =? 48 then syscall_handler (fesp f)
  else if vec_no f =? 14 then _ ← page_fault (fcs f) (error_code f) (cr2 f); ret (feax f)
  else if bool_decide (vec_no f ∈ kill_vectors) then _ ← kill (fcs f); ret (feax f)
  else ret (feax f).
End code.
