(* ===== verification/SyscallFd.v ===== *)
(** * userprog/syscall.c: the table of open files

    What the kernel does below the system calls leaves the open files of the
    running process alone; the system calls keep the handles of its files and
    mappings distinct, and every one of them refers to a file that is open. *)

From stdpp Require Import gmap.
From S2P Require Import Prelude Bitmap Vaddr Palloc Pagedir Block Inode FreeMap File Directory Filesys Vm Load Syscall.

(** ** Code that leaves the files [F] alone *)

Definition fresh_files (s : vm) : Prop := ∀ f, next_page s ≤ f → files s !! f = None.

Record quiet (F : list Z) (s s' : vm) : Prop := {
  qu_next : next_page s ≤ next_page s';
  qu_fresh : fresh_files s → fresh_files s';
  qu_files f : f ∈ F → is_Some (files s !! f) → is_Some (files s' !! f);
  qu_gone f : f < next_page s → files s !! f = None → files s' !! f = None;
}.

#[export] Instance quiet_refl F : Reflexive (quiet F).
Proof. done. Qed.
#[export] Instance quiet_trans F : Transitive (quiet F).
Proof.
  intros s1 s2 s3 [A1 A2 A3 A4] [B1 B2 B3 B4]. split; [lia|auto|auto|]. intros f Hf H. apply B4; [lia|auto].
Qed.

Lemma quiet_same F s s' : files s' = files s → next_page s ≤ next_page s' → quiet F s s'.
Proof. intros Hf Hn. split; [done| |by rewrite Hf|by rewrite Hf]. intros H f Hle. rewrite Hf. apply H. lia. Qed.

(** What other threads do while this one sleeps. *)
Class Calm (F : list Z) (sleep : vm → vm) : Prop := calm_sleep : ∀ s, quiet F s (sleep s).

(** The states in the result of an operation. *)
Class StateOf (A : Type) := state_of : A → vm.
#[export] Instance state_vm : StateOf vm := λ s, s.
#[export] Instance state_pair {A B} `{StateOf A} : StateOf (A * B) := λ x, state_of (fst x).
#[export] Instance state_sum {A B} `{StateOf A, StateOf B} : StateOf (A + B) :=
  λ x, match x with inl a => state_of a | inr b => state_of b end.

Class Quiet {A} `{StateOf A} (F : list Z) (s : vm) (m : res A) : Prop :=
  quiet_ok : ∀ a, m = Ok a → quiet F s (state_of a).

(** [quiet_solve] takes the last update off the final state, or the last
    operation that led to it. *)
Ltac quiet_solve :=
  lazymatch goal with
  | |- quiet _ ?s ?s => reflexivity
  | H : quiet ?F ?x ?s' |- quiet ?F _ ?s' => transitivity x; [clear H; quiet_solve|exact H]
  | |- quiet ?F ?s (?f ?t) => transitivity t; [quiet_solve|first [by apply quiet_same; cbn; try lia | apply calm_sleep]]
  end.

Ltac quiet_facts F :=
  repeat match goal with
  | H : ?m = Ok ?a |- _ =>
      let Q := fresh "Q" in
      pose proof (quiet_ok (F := F) (m := m) a H) as Q; clear H;
      cbv [state_of state_vm state_pair state_sum fst] in Q
  end.

(** [quiet_tac F] follows the operation and uses the instances for the
    operations it calls. *)
Ltac quiet_tac F :=
  repeat match goal with H : _ = Ok _ |- _ => clear H end;
  let a := fresh "a" in let H := fresh "H" in intros a H;
  repeat first
    [ progress (cbv beta zeta in H)
    | progress inv_res
    | match goal with x : _ * _ |- _ => destruct x end
    | match goal with E : (_, _) = (_, _) |- _ => injection E as E; subst end
    | case_match; subst ];
  quiet_facts F; cbv [state_of state_vm state_pair state_sum fst] in *; quiet_solve.

#[local] Typeclasses Opaque mbind for_up for_ret loop deref ASSERT upd_page get_frame Vm.get_page swap_in swap_out page_frame page_dir
  write_back page_out page_accessed_recently find_free visit evict try_frame_alloc_and_lock frame_alloc_and_lock frame_lock
  frame_free frame_unlock page_allocate page_for_addr do_page_in install page_in page_deallocate Vm.page_lock page_unlock.

#[export] Hint Extern 10 (Quiet ?F _ _) =>
  (cbv beta; lazymatch goal with |- Quiet _ _ (mbind _ _) => quiet_tac F end) : typeclass_instances.

#[export] Instance upd_page_quiet F p g s : Quiet F s (upd_page p g s).
Proof. unfold upd_page. quiet_tac F. Qed.

#[export] Instance for_up_quiet F n lo body s : (∀ i s, Quiet F s (body i s)) → Quiet F s (for_up n lo body s).
Proof.
  intros Hb. revert lo s. induction n as [|n IH]; intros lo s a; cbn [for_up].
  - intros [= <-]. reflexivity.
  - intros H. inv_res. transitivity a0; [by apply (Hb lo s)|by apply (IH (lo + 1))].
Qed.

#[export] Instance for_ret_quiet {R} `{StateOf R} F n lo (body : Z → vm → res (vm + R)) s :
  (∀ i s, Quiet F s (body i s)) → Quiet F s (for_ret n lo body s).
Proof.
  intros Hb. revert lo s. induction n as [|n IH]; intros lo s a; cbn [for_ret].
  - intros [= <-]. reflexivity.
  - intros H1. inv_res. pose proof (Hb lo s _ Hres) as Q. destruct a0 as [s1|r].
    + transitivity s1; [done|by apply (IH (lo + 1))].
    + inv_res. done.
Qed.

#[export] Instance swap_out_quiet F p s : Quiet F s (swap_out s p).
Proof. unfold swap_out. quiet_tac F. Qed.

#[export] Instance swap_in_quiet F p s : Quiet F s (swap_in s p).
Proof. unfold swap_in. quiet_tac F. Qed.

#[export] Instance page_out_quiet F ipd s p : Quiet F s (page_out ipd s p).
Proof. unfold page_out, write_back. quiet_tac F. Qed.

#[export] Instance page_accessed_recently_quiet F ipd s p : Quiet F s (page_accessed_recently ipd s p).
Proof. unfold page_accessed_recently. quiet_tac F. Qed.

#[export] Instance visit_quiet F ipd s p h fr : Quiet F s (visit ipd s p h fr).
Proof. unfold visit. quiet_tac F. Qed.

#[export] Instance find_free_quiet F s p : Quiet F s (find_free s p).
Proof. unfold find_free. apply _. Qed.

#[export] Instance evict_quiet F ipd s p : Quiet F s (evict ipd s p).
Proof. unfold evict. apply _. Qed.

#[export] Instance try_frame_quiet F ipd s p : Quiet F s (try_frame_alloc_and_lock ipd s p).
Proof. unfold try_frame_alloc_and_lock. quiet_tac F. Qed.

#[export] Instance frame_lock_quiet F s p : Quiet F s (frame_lock s p).
Proof. unfold frame_lock. quiet_tac F. Qed.

#[export] Instance frame_free_quiet F s f : Quiet F s (frame_free s f).
Proof. unfold frame_free. quiet_tac F. Qed.

#[export] Instance frame_unlock_quiet F s f : Quiet F s (frame_unlock s f).
Proof. unfold frame_unlock. quiet_tac F. Qed.

#[export] Instance page_allocate_quiet F s a ro : Quiet F s (page_allocate s a ro).
Proof. unfold page_allocate, alloc_page, set_my_pages. quiet_tac F. Qed.

#[export] Instance page_for_addr_quiet F s a : Quiet F s (page_for_addr s a).
Proof. unfold page_for_addr. quiet_tac F. Qed.

#[export] Instance install_quiet F ipd ram s pg fr : Quiet F s (install ipd ram s pg fr).
Proof. unfold install. quiet_tac F. Qed.

#[export] Instance page_unlock_quiet F s a : Quiet F s (page_unlock s a).
Proof. unfold page_unlock. quiet_tac F. Qed.

#[export] Instance page_deallocate_quiet F ipd s a : Quiet F s (page_deallocate ipd s a).
Proof. unfold page_deallocate, set_my_pages, free_page. quiet_tac F. Qed.

#[export] Instance user_access_quiet F w a s : Quiet F s (user_access w a s).
Proof. unfold user_access. quiet_tac F. Qed.

#[export] Instance user_load_quiet F a s : Quiet F s (user_load a s).
Proof. unfold user_load. quiet_tac F. Qed.

#[export] Instance user_store_quiet F a c s : Quiet F s (user_store a c s).
Proof. unfold user_store. quiet_tac F. Qed.

#[export] Instance user_read_quiet F n a s : Quiet F s (user_read n a s).
Proof. revert a s. induction n as [|n IH]; intros a s; cbn [user_read]; quiet_tac F. Qed.

#[export] Instance user_write_quiet F l a s : Quiet F s (user_write l a s).
Proof. revert a s. induction l as [|c l IH]; intros a s; cbn [user_write]; quiet_tac F. Qed.

#[export] Instance frame_alloc_quiet F ipd sleep s p : Calm F sleep → Quiet F s (frame_alloc_and_lock ipd sleep s p).
Proof. intros Hc. unfold frame_alloc_and_lock. quiet_tac F. Qed.

#[export] Instance do_page_in_quiet F ipd sleep s p : Calm F sleep → Quiet F s (do_page_in ipd sleep s p).
Proof. intros Hc. unfold do_page_in. quiet_tac F. Qed.

#[export] Instance page_in_quiet F ipd ram sleep s a : Calm F sleep → Quiet F s (page_in ipd ram sleep s a).
Proof. intros Hc. unfold page_in. quiet_tac F. Qed.

#[export] Instance page_lock_quiet F ipd ram sleep s a w : Calm F sleep → Quiet F s (Vm.page_lock ipd ram sleep s a w).
Proof. intros Hc. unfold Vm.page_lock. quiet_tac F. Qed.

#[export] Instance new_kpage_quiet F s : Quiet F s (new_kpage s).
Proof. unfold new_kpage. quiet_tac F. Qed.

#[export] Instance free_kpage_quiet F a s : Quiet F s (free_kpage a s).
Proof. unfold free_kpage. quiet_tac F. Qed.

#[export] Instance malloc_ok_quiet F s : Quiet F s (malloc_ok s).
Proof. unfold malloc_ok. quiet_tac F. Qed.

#[export] Instance on_fs_quiet {A} F (f : fs → res (fs * A)) s : Quiet F s (on_fs f s).
Proof. unfold on_fs. quiet_tac F. Qed.

(** ** System calls that leave the tables alone *)

(** The files that the process has open or mapped. *)
Definition my_files (s : sys) : list Z := map fd_file (fds s) ++ map mfile (mappings s).

Record still (F : list Z) (s s' : sys) : Prop := {
  st_fds : fds s' = fds s;
  st_mappings : mappings s' = mappings s;
  st_next : next_handle s' = next_handle s;
  st_quiet : quiet F (mach s) (mach s');
}.

#[export] Instance still_refl F : Reflexive (still F).
Proof. done. Qed.
#[export] Instance still_trans F : Transitive (still F).
Proof. intros s1 s2 s3 [A1 A2 A3 A4] [B1 B2 B3 B4]. split; [congruence..|by etrans]. Qed.

(** All files of the process are in [F] and those of [F] are open. *)
Record ready (F : list Z) (s : sys) : Prop := {
  rd_mine f : f ∈ my_files s → f ∈ F;
  rd_open f : f ∈ F → is_Some (files (mach s) !! f);
  rd_fresh : fresh_files (mach s);
}.

Lemma still_ready F s s' : still F s s' → ready F s → ready F s'.
Proof.
  intros [S1 S2 S3 [Q1 Q2 Q3 _]] [R1 R2 R3]. split; [unfold my_files; by rewrite S1, S2| |by apply Q2].
  intros f Hf. apply Q3; [done|]. by apply R2.
Qed.

Class Still {A} (F : list Z) (m : call A) : Prop := still_ok : ∀ s s' o, ready F s → m s = Ok (s', o) → still F s s'.

Lemma call_bind_ok {A B} (m : call A) (k : A → call B) s s' o : (m ≫= k) s = Ok (s', o) →
  ∃ s1 o1, m s = Ok (s1, o1) ∧
    match o1 with Ret a => k a s1 = Ok (s', o) | Exit => s' = s1 ∧ o = Exit | PowerOff => s' = s1 ∧ o = PowerOff end.
Proof.
  unfold mbind at 1, call_bind. intros H. inv_res. destruct a as [s1 o1]. exists s1, o1. split; [done|].
  destruct o1; [done|inv_res; done..].
Qed.

#[export] Instance bind_still {A B} F (m : call A) (k : A → call B) : Still F m → (∀ a, Still F (k a)) → Still F (m ≫= k).
Proof.
  intros Hm Hk s s' o Hr H. apply call_bind_ok in H as (s1 & o1 & H1 & H2). pose proof (Hm s s1 o1 Hr H1) as Q.
  destruct o1 as [a| |]; [|by destruct H2 as [-> _]..].
  etrans; [exact Q|]. apply (Hk a s1 s' o); [by eapply still_ready|done].
Qed.

(** The same for a call that does not look at the tables either. *)
Class Tidy {A} (F : list Z) (m : call A) : Prop := tidy_ok : ∀ s s' o, m s = Ok (s', o) → still F s s'.

#[export] Instance tidy_still {A} F (m : call A) : Tidy F m → Still F m | 100.
Proof. intros Hm s s' o _. apply Hm. Qed.

#[export] Instance bind_tidy {A B} F (m : call A) (k : A → call B) : Tidy F m → (∀ a, Tidy F (k a)) → Tidy F (m ≫= k).
Proof.
  intros Hm Hk s s' o H. apply call_bind_ok in H as (s1 & o1 & H1 & H2). pose proof (Hm s s1 o1 H1) as Q.
  destruct o1 as [a| |]; [|by destruct H2 as [-> _]..]. etrans; [exact Q|]. by apply (Hk a s1 s' o).
Qed.

#[export] Instance ret_tidy {A} F (a : A) : Tidy F (ret a).
Proof. intros s s' o [= <- <-]. done. Qed.
#[export] Instance exit_tidy {A} F : Tidy (A := A) F thread_exit.
Proof. intros s s' o [= <- <-]. done. Qed.
#[export] Instance fail_tidy {A} F e : Tidy (A := A) F (fail e).
Proof. by intros s s' o H. Qed.
#[export] Instance gets_tidy {A} F (f : sys → A) : Tidy F (gets f).
Proof. intros s s' o [= <- <-]. done. Qed.
#[export] Instance run__tidy {A} F (f : vm → res A) : Tidy F (run_ f).
Proof. intros s s' o H. unfold run_ in H. inv_res. done. Qed.
#[export] Instance run_tidy {A} F (f : vm → res (vm * A)) : (∀ s, Quiet F s (f s)) → Tidy F (run f).
Proof.
  intros Hf s s' o H. unfold run in H. inv_res. destruct a as [x a]. inv_res. split; try done. exact (Hf (mach s) _ Hres).
Qed.
#[export] Instance exec_tidy F (f : vm → res vm) : (∀ s, Quiet F s (f s)) → Tidy F (exec f).
Proof. intros Hf s s' o H. unfold exec in H. inv_res. split; try done. exact (Hf (mach s) _ Hres). Qed.
#[export] Instance for_each_tidy F n lo (body : Z → call unit) : (∀ i, Tidy F (body i)) → Tidy F (for_each n lo body).
Proof. intros Hb. revert lo. induction n as [|n IH]; intros lo; cbn [for_each]; apply _. Qed.

#[export] Instance acquire_tidy F : Tidy F acquire_fs.
Proof. intros s s' o H. unfold acquire_fs in H. inv_res. done. Qed.
#[export] Instance release_tidy F : Tidy F release_fs.
Proof. intros s s' o H. unfold release_fs in H. inv_res. done. Qed.
#[export] Instance putbuf_tidy F l : Tidy F (putbuf l).
Proof. intros s s' o [= <- <-]. done. Qed.
#[export] Instance input_getc_tidy F : Tidy F input_getc.
Proof. intros s s' o H. unfold input_getc in H. case_match; inv_res; done. Qed.
#[export] Instance exit_code_tidy F c : Tidy F (modify (set_exit_code c)).
Proof. intros s s' o [= <- <-]. done. Qed.
#[export] Instance store_kernel_tidy F a l : Tidy F (modify (λ s, set_mach (set_memory (put_bytes (memory_of (mach s)) a l) (mach s)) s)).
Proof. intros s s' o [= <- <-]. done. Qed.
#[export] Instance sys_halt_tidy F : Tidy F sys_halt.
Proof. intros s s' o [= <- <-]. done. Qed.

#[export] Instance repeat_still {S R} F n (body : S → call (S + R)) x : (∀ x, Still F (body x)) → Still F (repeat_until n body x).
Proof.
  intros Hb. revert x. induction n as [|n IH]; intros x; cbn [repeat_until]; [apply _|].
  apply bind_still; [done|]. intros [y|r]; [apply IH|apply _].
Qed.
#[export] Instance for_each_still F n lo (body : Z → call unit) : (∀ i, Still F (body i)) → Still F (for_each n lo body).
Proof. intros Hb. revert lo. induction n as [|n IH]; intros lo; cbn [for_each]; apply _. Qed.

(** [file_of] and [update_file] of a file of the process. *)
Lemma update_file_still F fd f : fd_file fd ∈ F → Still F (update_file fd f).
Proof.
  intros Hf s s' o [R1 R2 R3] [= <- <-]. split; try done. destruct (R2 _ Hf) as [x Hx]. split; [done| | |].
  - intros _ k Hk. cbn in *. destruct (decide (k = fd_file fd)) as [->|Hne]; [by rewrite R3 in Hx|].
    rewrite lookup_insert_ne by done. by apply R3.
  - intros k Hk [y Hy]. cbn. destruct (decide (k = fd_file fd)) as [->|Hne]; [by rewrite lookup_insert_eq|by rewrite lookup_insert_ne].
  - intros k Hk Hn. cbn. rewrite lookup_insert_ne; [done|]. intros <-. by rewrite Hn in Hx.
Qed.

Lemma lookup_fd_ok h s s' o : lookup_fd h s = Ok (s', o) →
  s' = s ∧ (o = Exit ∨ ∃ fd, o = Ret fd ∧ fd ∈ fds s ∧ handle fd = h).
Proof.
  unfold lookup_fd. destruct (list_find _ _) as [[i fd]|] eqn:E; intros [= <- <-]; (split; [done|]); [|by left].
  apply list_find_Some in E as (Hi & Hh & _). right. exists fd. split; [done|]. by split; [eapply list_elem_of_lookup_2|].
Qed.

Lemma lookup_fd_still {A} F h (k : file_descriptor → call A) : (∀ fd, fd_file fd ∈ F → Still F (k fd)) → Still F (lookup_fd h ≫= k).
Proof.
  intros Hk s s' o Hr H. apply call_bind_ok in H as (s1 & o1 & H1 & H2).
  apply lookup_fd_ok in H1 as [-> [->|(fd & -> & Hfd & _)]]; [by destruct H2 as [-> _]|].
  apply (Hk fd) in H2; [done| |done]. apply (rd_mine _ _ Hr). apply elem_of_app. left. by apply (list_elem_of_fmap_2 fd_file).
Qed.

(** [still_tac] splits a call into its parts. *)
Ltac tidy_tac := repeat (cbv beta; first [apply _ | apply for_each_tidy; intros | apply bind_tidy; [|intros] | case_match]).
Ltac still_tac :=
  repeat (cbv beta; first
    [ apply _
    | apply update_file_still; assumption
    | apply repeat_still; intros
    | apply for_each_still; intros
    | apply bind_still; [|intros]
    | case_match ]).

Section calls.
Context (F : list Z) (ipd ram : Z) (sleep : vm → vm) (junk : list Z) (retval0 : Z) (Hc : Calm F sleep).

#[local] Instance copy_in_still a n : Still F (copy_in ipd ram sleep a n).
Proof using Hc. unfold copy_in, copy_chunk. still_tac. Qed.

#[local] Instance copy_page_string_still ks upage us n : Still F (copy_page_string ks upage us n).
Proof using Type. unfold copy_page_string. still_tac. Qed.

#[local] Instance copy_in_string_still us : Still F (copy_in_string ipd ram sleep us).
Proof using Hc. unfold copy_in_string. still_tac. Qed.

#[local] Instance kstring_still ks : Still F (kstring ks).
Proof using Type. unfold kstring. apply _. Qed.

Lemma sys_exit_still c : Still F (sys_exit c).
Proof using Type. unfold sys_exit. still_tac. Qed.

Lemma sys_create_still a n : Still F (sys_create ipd ram sleep junk a n).
Proof using Hc. unfold sys_create. still_tac. Qed.

Lemma sys_remove_still a : Still F (sys_remove ipd ram sleep junk a).
Proof using Hc. unfold sys_remove. still_tac. Qed.

Lemma sys_filesize_still h : Still F (sys_filesize h).
Proof using Type. unfold sys_filesize, file_of. apply lookup_fd_still. intros fd Hfd. still_tac. Qed.

Lemma sys_read_still h a n : Still F (sys_read ipd ram sleep retval0 h a n).
Proof using Hc. unfold sys_read, read_chunk, read_user, file_of. apply lookup_fd_still. intros fd Hfd. still_tac. Qed.

Lemma write_user_still fd a n : fd_file fd ∈ F → Still F (write_user fd a n).
Proof using Type. intros Hfd. unfold write_user, file_of. still_tac. Qed.

Lemma sys_write_still h a n : Still F (sys_write ipd ram sleep h a n).
Proof using Hc.
  unfold sys_write, write_chunk. destruct (h =? STDOUT_FILENO); cbn [negb]; [still_tac|].
  apply lookup_fd_still. intros fd Hfd. pose proof (λ a n, write_user_still fd a n Hfd). still_tac.
Qed.

Lemma sys_seek_still h n : Still F (sys_seek h n).
Proof using Type. unfold sys_seek, file_of. apply lookup_fd_still. intros fd Hfd. still_tac. Qed.

Lemma sys_tell_still h : Still F (sys_tell h).
Proof using Type. unfold sys_tell, file_of. apply lookup_fd_still. intros fd Hfd. still_tac. Qed.

Lemma sys_munmap_still h : Still F (sys_munmap h).
Proof using Type.
  unfold sys_munmap. apply bind_still; [|intros; still_tac].
  intros s s' o _ H. unfold lookup_mapping in H. case_match; [case_match|]; inv_res; done.
Qed.

Lemma other_still {A} (f : sys → res (sys * A)) : (∀ s s' a, ready F s → f s = Ok (s', a) → still F s s') → Still F (other f).
Proof using Type. intros Hf s s' o Hr H. unfold other in H. inv_res. destruct a as [x a]. inv_res. by apply (Hf s s' a). Qed.
End calls.

(** ** The invariant *)

(** Files and mappings take their handles from the same counter. *)
Definition handles (s : sys) : list Z := map handle (fds s) ++ map mhandle (mappings s).

Record fd_wf (s : sys) : Prop := {
  fw_handles : NoDup (handles s);
  fw_range h : h ∈ handles s → 2 ≤ h < next_handle s;
  fw_next : 2 ≤ next_handle s;
  fw_files : NoDup (my_files s);
  fw_open f : f ∈ my_files s → is_Some (files (mach s) !! f);
  fw_fresh : fresh_files (mach s);
  fw_heap : 0 < next_page (mach s);
}.

Lemma wf_ready s : fd_wf s → ready (my_files s) s.
Proof. intros []. by split. Qed.

Lemma still_wf s s' : still (my_files s) s s' → fd_wf s → fd_wf s'.
Proof.
  intros [S1 S2 S3 [Q1 Q2 Q3 _]] [W1 W2 W3 W4 W5 W6 W7]. unfold handles, my_files in *.
  split; unfold handles, my_files; rewrite ?S1, ?S2, ?S3; [done|done|done|done| |by apply Q2|lia].
  intros f Hf. apply Q3; [done|]. by apply W5.
Qed.

(** A call that keeps the invariant, whatever other threads do. *)
Class Keeps {A} (m : call A) : Prop := keeps_ok : ∀ s s' o, fd_wf s → m s = Ok (s', o) → fd_wf s'.

Lemma still_keeps {A} (m : call A) : (∀ F, Still F m) → Keeps m.
Proof. intros Hm s s' o Hw H. eapply still_wf; [|exact Hw]. by apply (Hm (my_files s) s s' o); [apply wf_ready|]. Qed.

#[export] Instance bind_keeps {A B} (m : call A) (k : A → call B) : Keeps m → (∀ a, Keeps (k a)) → Keeps (m ≫= k).
Proof.
  intros Hm Hk s s' o Hw H. apply call_bind_ok in H as (s1 & o1 & H1 & H2). pose proof (Hm s s1 o1 Hw H1) as Q.
  destruct o1 as [a| |]; [by apply (Hk a s1 s' o)|by destruct H2 as [-> _]..].
Qed.

#[export] Instance repeat_keeps {S R} n (body : S → call (S + R)) x : (∀ x, Keeps (body x)) → Keeps (repeat_until n body x).
Proof.
  intros Hb. revert x. induction n as [|n IH]; intros x; cbn [repeat_until]; [by intros s s' o|].
  apply bind_keeps; [done|]. intros [y|r]; [apply IH|by apply still_keeps, _].
Qed.

(** *** Mappings *)

Lemma remove_mapping_sub h l : remove_mapping h l `sublist_of` l.
Proof. induction l as [|m l IH]; cbn; [done|]. case_match; [by apply sublist_cons|by apply sublist_skip]. Qed.

Lemma wf_fewer s f' m' : fd_wf s → f' `sublist_of` fds s → m' `sublist_of` mappings s → fd_wf (set_mappings m' (set_fds f' s)).
Proof.
  intros [W1 W2 W3 W4 W5 W6 W7] Hf Hm.
  assert (handles (set_mappings m' (set_fds f' s)) `sublist_of` handles s) as Hh by (apply sublist_app; by apply fmap_sublist).
  assert (my_files (set_mappings m' (set_fds f' s)) `sublist_of` my_files s) as Hy by (apply sublist_app; by apply fmap_sublist).
  split; try done.
  - exact (sublist_NoDup _ _ W1 Hh).
  - intros h Hin. apply W2. by eapply elem_of_sublist.
  - exact (sublist_NoDup _ _ W4 Hy).
  - intros f Hin. apply W5. by eapply elem_of_sublist.
Qed.

Lemma unmap_keeps ipd m : Keeps (unmap ipd m).
Proof.
  unfold unmap. apply bind_keeps.
  - intros s s' o Hw [= <- <-]. apply (wf_fewer s (fds s)); [done|done|]. apply remove_mapping_sub.
  - intros _. apply still_keeps. intros F. unfold write_mapped. still_tac.
Qed.

Lemma lookup_mapping_keeps h : Keeps (lookup_mapping h).
Proof. intros s s' o Hw H. unfold lookup_mapping in H. case_match; [case_match|]; by inv_res. Qed.

Lemma count_page_keeps h : Keeps (modify (λ s, set_mappings (map (count_page h) (mappings s)) s)).
Proof.
  intros s s' o [W1 W2 W3 W4 W5 W6 W7] [= <- <-].
  assert (∀ m, mhandle (count_page h m) = mhandle m ∧ mfile (count_page h m) = mfile m) as Hm.
  { intros m. unfold count_page. by case_match. }
  assert (map mhandle (map (count_page h) (mappings s)) = map mhandle (mappings s)) as E1.
  { rewrite map_map. apply map_ext. intros m. apply Hm. }
  assert (map mfile (map (count_page h) (mappings s)) = map mfile (mappings s)) as E2.
  { rewrite map_map. apply map_ext. intros m. apply Hm. }
  split; unfold handles, my_files; cbn [set_mappings fds mappings next_handle mach]; rewrite ?E1, ?E2; done.
Qed.

Lemma map_pages_keeps ipd h f a n : Keeps (map_pages ipd h f a n).
Proof.
  unfold map_pages. apply repeat_keeps. intros [offset len]. case_match; [|apply still_keeps, _].
  apply bind_keeps; [apply still_keeps, _|]. intros p. case_match.
  - apply bind_keeps; [apply lookup_mapping_keeps|]. intros m.
    apply bind_keeps; [apply unmap_keeps|]. intros _. apply still_keeps, _.
  - apply bind_keeps; [apply still_keeps, _|]. intros _. apply bind_keeps; [apply count_page_keeps|]. intros _. apply still_keeps, _.
Qed.

(** *** New files *)

(** [s'] is [s] with a new file [f]. *)
Record opened (s s' : sys) (f : Z) : Prop := {
  op_still : still (my_files s) s s';
  op_new : f ∉ my_files s;
  op_some : is_Some (files (mach s') !! f);
}.

Lemma new_file_opened s x y : fd_wf s → let '(m, f) := new_file y (set_fsys x (mach s)) in opened s (set_mach m s) f ∧ f ≠ 0.
Proof.
  intros [W1 W2 W3 W4 W5 W6 W7]. cbn. split; [|lia]. split.
  - split; try done. split; cbn; [lia| | |].
    + intros _ f Hf. cbn in *. rewrite lookup_insert_ne by lia. apply W6. lia.
    + intros f Hf Hs. destruct (decide (f = next_page (mach s))) as [->|]; [by rewrite lookup_insert_eq|by rewrite lookup_insert_ne].
    + intros f Hf Hs. rewrite lookup_insert_ne by lia. done.
  - intros Hin. destruct (W5 _ Hin) as [z Hz]. rewrite W6 in Hz; [done|lia].
  - cbn. by rewrite lookup_insert_eq.
Qed.

(** [next_handle++] *)
Lemma bump_wf s : fd_wf s → next_handle s < 2 ^ 31 - 1 →
  let s' := set_next_handle (s32 (next_handle s + 1)) s in
  fd_wf s' ∧ (next_handle s ∉ handles s') ∧ 2 ≤ next_handle s < next_handle s'.
Proof.
  intros [W1 W2 W3 W4 W5 W6 W7] Hn. assert (s32 (next_handle s + 1) = next_handle s + 1) as E by (apply s32_small; c_lia).
  cbn zeta. rewrite E. split_and!; [|intros Hin; apply W2 in Hin; lia|done|cbn; lia].
  split; try done; cbn; [|lia]. intros h Hin. apply W2 in Hin. lia.
Qed.

Lemma push_fd_wf s f h : fd_wf s → h ∉ handles s → 2 ≤ h < next_handle s → f ∉ my_files s → is_Some (files (mach s) !! f) →
  fd_wf (set_fds (Fd f h :: fds s) s).
Proof.
  intros [W1 W2 W3 W4 W5 W6 W7] Hh Hn Hf Hs.
  split; unfold handles, my_files; cbn [set_fds fds mappings next_handle mach map app fd_file handle]; try done.
  - by apply NoDup_cons.
  - intros k [->|Hin]%elem_of_cons; [done|]. by apply W2.
  - by apply NoDup_cons.
  - intros g [->|Hin]%elem_of_cons; [done|by apply W5].
Qed.

Lemma push_mapping_wf s f h a : fd_wf s → h ∉ handles s → 2 ≤ h < next_handle s → f ∉ my_files s → is_Some (files (mach s) !! f) →
  fd_wf (set_mappings (Mapping h f a 0 :: mappings s) s).
Proof.
  intros Hw Hh Hn Hf Hs. pose proof (push_fd_wf s f h Hw Hh Hn Hf Hs) as [W1 W2 W3 W4 W5 W6 W7].
  unfold handles, my_files in *. cbn [set_fds set_mappings fds mappings next_handle mach map app fd_file handle mfile mhandle] in *.
  split; unfold handles, my_files; cbn [set_fds set_mappings fds mappings next_handle mach map app mfile mhandle]; try done.
  - by rewrite <- Permutation_middle.
  - intros k. rewrite <- Permutation_middle. apply W2.
  - by rewrite <- Permutation_middle.
  - intros k. rewrite <- Permutation_middle. apply W5.
Qed.

(** A call that takes at most one new handle. *)
Definition keeps1 {A} (m : call A) : Prop :=
  ∀ s s' o, fd_wf s → next_handle s < 2 ^ 31 - 1 → m s = Ok (s', o) → fd_wf s'.

Lemma keeps1_then {A B} (m : call A) (k : A → call B) : keeps1 m → (∀ a, Keeps (k a)) → keeps1 (m ≫= k).
Proof.
  intros Hm Hk s s' o Hw Hn H. apply call_bind_ok in H as (s1 & o1 & H1 & H2). pose proof (Hm s s1 o1 Hw Hn H1) as Q.
  destruct o1 as [a| |]; [by apply (Hk a s1 s' o)|by destruct H2 as [-> _]..].
Qed.

Lemma then_keeps1 {A B} (m : call A) (k : A → call B) : (∀ F, Still F m) → (∀ a, keeps1 (k a)) → keeps1 (m ≫= k).
Proof.
  intros Hm Hk s s' o Hw Hn H. apply call_bind_ok in H as (s1 & o1 & H1 & H2).
  pose proof (Hm _ s s1 o1 (wf_ready s Hw) H1) as Q. pose proof (still_wf s s1 Q Hw) as Hw1.
  destruct o1 as [a| |]; [|by destruct H2 as [-> _]..]. apply (Hk a s1 s' o); [done| |done]. by rewrite (st_next _ _ _ Q).
Qed.

Lemma keeps_keeps1 {A} (m : call A) : Keeps m → keeps1 m.
Proof. intros Hm s s' o Hw _. by apply Hm. Qed.

(** The new file of [filesys_open] or [file_reopen], or 0. *)
Lemma run_file_opened (g : vm → res (vm * Z)) (f : fs → res (fs * option file)) s s' o :
  (∀ v, g v = ('(x, f) ← f (fsys v); let v := set_fsys x v in match f with Some f => Ok (new_file f v) | None => Ok (v, 0) end)) →
  fd_wf s → run g s = Ok (s', o) → ∃ h, o = Ret h ∧ (if h =? 0 then still (my_files s) s s' else opened s s' h).
Proof.
  intros Hg Hw H. unfold run in H. rewrite Hg in H. inv_res. destruct a as [v h], a0 as [x [y|]]; inv_res; exists h; (split; [done|]).
  - pose proof (new_file_opened s x y Hw) as Ho. cbv zeta in Hres. destruct (new_file y _) as [m f'] in Hres, Ho.
    injection Hres as <- <-. destruct Ho as [Ho Hne]. by rewrite (proj2 (Z.eqb_neq _ _)).
  - by injection Hres as <- <-.
Qed.

Lemma open_then_keeps1 {A} (g : vm → res (vm * Z)) (f : fs → res (fs * option file)) (k : Z → call A) :
  (∀ v, g v = ('(x, f) ← f (fsys v); let v := set_fsys x v in match f with Some f => Ok (new_file f v) | None => Ok (v, 0) end)) →
  Keeps (k 0) →
  (∀ h s s' o, h ≠ 0 → fd_wf s → next_handle s < 2 ^ 31 - 1 → h ∉ my_files s → is_Some (files (mach s) !! h) → k h s = Ok (s', o) → fd_wf s') →
  keeps1 (run g ≫= k).
Proof.
  intros Hg H0 Hk s s' o Hw Hn H. apply call_bind_ok in H as (s1 & o1 & H1 & H2).
  destruct (run_file_opened g f s s1 o1 Hg Hw H1) as (h & -> & Ho). destruct (Z.eqb_spec h 0) as [->|Hne].
  - apply (H0 s1 s' o); [by eapply still_wf|done].
  - destruct Ho as [O1 O2 O3]. pose proof (still_wf s s1 O1 Hw) as Hw1. destruct O1 as [S1 S2 S3 _].
    apply (Hk h s1 s' o); try done; [by rewrite S3|]. unfold my_files. by rewrite S1, S2.
Qed.

(** *** Handles *)

Lemma add_fd_wf f s s' o : f ≠ 0 → fd_wf s → next_handle s < 2 ^ 31 - 1 → f ∉ my_files s → is_Some (files (mach s) !! f) →
  add_fd f s = Ok (s', o) → fd_wf s'.
Proof.
  intros _ Hw Hn Hf Hs [= <- <-]. destruct (bump_wf s Hw Hn) as (Hw' & Hh & Hr).
  exact (push_fd_wf (set_next_handle (s32 (next_handle s + 1)) s) f (next_handle s) Hw' Hh Hr Hf Hs).
Qed.

Lemma lookup_fd_split h s fd : fd_wf s → lookup_fd h s = Ok (s, Ret fd) → handle fd = h ∧
  ∃ l1 l2, fds s = l1 ++ fd :: l2 ∧ remove_fd h (fds s) = l1 ++ l2.
Proof.
  intros Hw H. unfold lookup_fd in H. destruct (list_find _ _) as [[i g]|] eqn:E; [|done]. injection H as ->.
  apply list_find_Some in E as (Hi & Hh & Hbefore). split; [done|]. exists (take i (fds s)), (drop (S i) (fds s)).
  split; [by symmetry; apply take_drop_middle|]. clear Hw. revert i Hi Hbefore. generalize (fds s). intros l. induction l as [|x l IH]; intros i Hi Hb; [done|].
  destruct i as [|i]; cbn in *; [by injection Hi as ->; rewrite (proj2 (Z.eqb_eq _ _))|].
  rewrite (proj2 (Z.eqb_neq _ _)) by (apply (Hb 0%nat x); [done|lia]). rewrite (IH i); [done|done|]. intros j y Hj Hlt. apply (Hb (S j) y); [done|lia].
Qed.

(** Closing the file of a descriptor and dropping the descriptor. *)
Lemma drop_fd_wf s fd l1 l2 m : fd_wf s → fds s = l1 ++ fd :: l2 → next_page m = next_page (mach s) →
  files m = delete (fd_file fd) (files (mach s)) → fd_wf (set_fds (l1 ++ l2) (set_mach m s)).
Proof.
  intros Hw Hl Hn Hm. assert (fd_wf (set_mappings (mappings s) (set_fds (l1 ++ l2) s))) as [W1 W2 W3 W4 W5 W6 W7].
  { apply wf_fewer; [done| |done]. rewrite Hl. apply sublist_app; [done|by apply sublist_cons]. }
  destruct Hw as [_ _ _ N4 _ _ _]. split; try done.
  - intros f Hf. cbn. rewrite Hm, lookup_delete_ne; [by apply W5|]. intros <-. revert N4. unfold my_files. rewrite Hl.
    unfold my_files in Hf. cbn in Hf. rewrite map_app in *. rewrite map_cons, <- app_assoc. cbn [app]. rewrite <- Permutation_middle.
    intros [Hnot _]%NoDup_cons.
    apply Hnot. by rewrite app_assoc.
  - intros f Hf. cbn in *. rewrite Hm. apply lookup_delete_None. right. apply W6. cbn. lia.
  - cbn. by rewrite Hn.
Qed.

Lemma acquire_ok s s' o : acquire_fs s = Ok (s', o) → o = Ret tt ∧ ∃ l, s' = set_fs_lock l s.
Proof. intros H. unfold acquire_fs in H. inv_res. by eauto. Qed.
Lemma release_ok s s' o : release_fs s = Ok (s', o) → o = Ret tt ∧ ∃ l, s' = set_fs_lock l s.
Proof. intros H. unfold release_fs in H. inv_res. by eauto. Qed.
Lemma close_ok h s s' o : exec (close_file h) s = Ok (s', o) → o = Ret tt ∧
  ∃ m, s' = set_mach m s ∧ next_page m = next_page (mach s) ∧ files m = delete h (files (mach s)).
Proof. intros H. unfold exec, close_file in H. inv_res. split; [done|]. by eexists. Qed.

Section keep.
Context (ipd ram : Z) (sleep : vm → vm) (junk : list Z).

Lemma sys_open_wf a s s' o : Calm (my_files s) sleep → fd_wf s → next_handle s < 2 ^ 31 - 1 →
  sys_open ipd ram sleep junk a s = Ok (s', o) → fd_wf s'.
Proof using Type.
  intros Hc Hw Hn H. unfold sys_open in H. apply call_bind_ok in H as (s1 & o1 & H1 & H2).
  pose proof (copy_in_string_still (my_files s) ipd ram sleep Hc a s s1 o1 (wf_ready s Hw) H1) as Q. pose proof (still_wf s s1 Q Hw) as Hw1.
  destruct o1 as [kfile| |]; [|by destruct H2 as [-> _]..]. rewrite <- (st_next _ _ _ Q) in Hn.
  match type of H2 with ?m s1 = _ => cut (keeps1 m); [intros K; exact (K s1 s' o Hw1 Hn H2)|] end.
  apply then_keeps1; [apply _|]. intros [|]; cbv iota; [|apply keeps_keeps1, still_keeps; intros; still_tac].
  apply keeps1_then; [|intros; apply still_keeps; intros; still_tac].
  apply then_keeps1; [apply _|]. intros _. apply then_keeps1; [intros; apply kstring_still|]. intros name.
  apply (open_then_keeps1 _ (λ x, filesys_open junk x name)); [done|apply still_keeps; intros; still_tac|].
  intros h s2 s3 o3 Hh Hw2 Hn2 Hf Hs H. rewrite (proj2 (Z.eqb_neq h 0)) in H by done. cbn [negb] in H.
  apply call_bind_ok in H as (s4 & o4 & H4 & H5). pose proof (add_fd_wf h s2 s4 o4 Hh Hw2 Hn2 Hf Hs H4) as Hw4.
  destruct o4; [|by destruct H5 as [-> _]..]. revert H5. apply still_keeps; [intros; still_tac|done].
Qed.

Lemma sys_close_wf h s s' o : fd_wf s → sys_close h s = Ok (s', o) → fd_wf s'.
Proof using Type.
  intros Hw H. unfold sys_close in H. apply call_bind_ok in H as (s1 & o1 & H1 & H2).
  destruct (lookup_fd_ok h s s1 o1 H1) as [-> [->|(fd & -> & _)]]; [by destruct H2 as [-> _]|].
  destruct (lookup_fd_split h s fd Hw H1) as (Hh & l1 & l2 & E1 & E2).
  apply call_bind_ok in H2 as (s1 & o1 & H2 & H). apply acquire_ok in H2 as [-> [k1 ->]].
  apply call_bind_ok in H as (s2 & o2 & H2 & H). apply close_ok in H2 as [-> (m & -> & Hn & Hm)].
  apply call_bind_ok in H as (s3 & o3 & H2 & H). apply release_ok in H2 as [-> [k2 ->]].
  injection H as <- <-. cbn [set_fds set_fs_lock set_mach fds]. rewrite E2.
  exact (drop_fd_wf (set_fs_lock k2 s) fd l1 l2 m ltac:(by destruct Hw) E1 Hn Hm).
Qed.

(** From the new handle [id] on. *)
Lemma mmap_tail_keeps id fd a s s' o : fd_wf s → id ∉ handles s → 2 ≤ id < next_handle s →
  (_ ← acquire_fs; f ← file_of fd; file ← run (reopen_file f); _ ← release_fs;
   if file =? 0 then ret (-1) else
   _ ← modify (λ s, set_mappings (Mapping id file a 0 :: mappings s) s);
   _ ← acquire_fs; f ← run_ (λ s, get_file s file); length ← run_ (λ s, file_length (fsys s) f); _ ← release_fs;
   map_pages ipd id file a length) s = Ok (s', o) → fd_wf s'.
Proof using Type.
  intros Hw Hid Hr H. apply call_bind_ok in H as (s1 & o1 & H1 & H). apply acquire_ok in H1 as [-> [l1 ->]].
  apply call_bind_ok in H as (s2 & o2 & H2 & H). assert (s2 = set_fs_lock l1 s) as -> by (unfold file_of, run_ in H2; by inv_res).
  destruct o2 as [f| |]; [|by destruct H as [-> _]; destruct Hw..].
  apply call_bind_ok in H as (s3 & o3 & H3 & H).
  destruct (run_file_opened _ (λ x, file_reopen x f) (set_fs_lock l1 s) s3 o3 ltac:(done) ltac:(by destruct Hw) H3) as (h & -> & Ho).
  apply call_bind_ok in H as (s4 & o4 & H4 & H). apply release_ok in H4 as [-> [l2 ->]]. destruct (Z.eqb_spec h 0) as [->|Hne].
  - injection H as <- <-. apply (still_wf s); [|done]. by destruct Ho as [? ? ? ?].
  - destruct Ho as [[S1 S2 S3 S4] O2 O3]. assert (fd_wf s3) as Hw3 by (apply (still_wf s); [by split|done]).
    apply call_bind_ok in H as (s5 & o5 & H5 & H). injection H5 as <- <-.
    revert H. apply bind_keeps; [apply still_keeps, _|intros _|].
    { apply bind_keeps; [apply still_keeps, _|intros y]. apply bind_keeps; [apply still_keeps, _|intros n].
      apply bind_keeps; [apply still_keeps, _|intros _]. apply map_pages_keeps. }
    apply (push_mapping_wf (set_fs_lock l2 s3)); [by destruct Hw3|unfold handles in *; cbn in *; by rewrite S1, S2|by cbn; rewrite S3| |done].
    unfold my_files in *. cbn in *. by rewrite S1, S2.
Qed.

Lemma sys_mmap_wf h a : keeps1 (sys_mmap ipd h a).
Proof using Type.
  apply then_keeps1. { intros F s s' o _ H. by destruct (lookup_fd_ok h s s' o H) as [-> _]. }
  intros fd. apply then_keeps1; [apply _|]. intros m. case_match; [apply keeps_keeps1, still_keeps, _|].
  intros s s' o Hw Hn E. apply call_bind_ok in E as (s1 & o1 & H1 & E). injection H1 as <- <-.
  apply call_bind_ok in E as (s2 & o2 & H2 & E). injection H2 as <- <-.
  destruct (bump_wf s Hw Hn) as (Hw' & Hh & Hr). by eapply mmap_tail_keeps.
Qed.
End keep.

(** ** The theorems *)

(** The calls but for [exec] and [wait], which are those of [execute] and
    [wait]. *)
Lemma table_wf ipd ram sleep junk retval0 execute wait s s' o n k func a b c : Calm (my_files s) sleep →
  fd_wf s → next_handle s < 2 ^ 31 - 1 → n ≠ 2%nat → n ≠ 3%nat →
  syscall_table ipd ram sleep junk retval0 execute wait !! n = Some (k, func) → func a b c s = Ok (s', o) → fd_wf s'.
Proof.
  intros Hc Hw Hn N2 N3 Hf.
  assert (∀ m : call Z, Still (my_files s) m → m s = Ok (s', o) → fd_wf s') as Hst.
  { intros m Hm Hms. apply (still_wf s); [|done]. apply (Hm s s' o); [by apply wf_ready|done]. }
  destruct n as [|[|[|[|[|[|[|[|[|[|[|[|[|[|[|n]]]]]]]]]]]]]]]; [injection Hf as <- <-..|done].
  - apply Hst, _.
  - apply Hst, sys_exit_still.
  - done.
  - done.
  - by apply Hst, sys_create_still.
  - by apply Hst, sys_remove_still.
  - by apply sys_open_wf.
  - apply Hst, sys_filesize_still.
  - by apply Hst, sys_read_still.
  - by apply Hst, sys_write_still.
  - apply Hst, sys_seek_still.
  - apply Hst, sys_tell_still.
  - by apply sys_close_wf.
  - by apply sys_mmap_wf.
  - apply Hst, sys_munmap_still.
Qed.

(** C10. A system call other than [exec] and [wait] that comes to an end, also by
    ending the process, keeps the handles of the files and mappings of the
    process distinct and below the next one, and each of them refers to its own
    open file: no descriptor dangles.  Nothing is assumed of the functions that
    [exec] and [wait] call; what other threads do while this one sleeps for a
    frame is to leave its open files alone, and handles have not run out. *)
Theorem syscall_keeps_files ipd ram sleep junk retval0 execute wait esp s s' o : Calm (my_files s) sleep →
  fd_wf s → next_handle s < 2 ^ 31 - 1 →
  (∀ s1 l, copy_in ipd ram sleep esp 4 s = Ok (s1, Ret l) → word32 l 0 ≠ 2 ∧ word32 l 0 ≠ 3) →
  syscall_handler ipd ram sleep junk retval0 execute wait esp s = Ok (s', o) → fd_wf s'.
Proof.
  intros Hc Hw Hn Hnr H. unfold syscall_handler in H.
  apply call_bind_ok in H as (s1 & o1 & H1 & H).
  pose proof (copy_in_still (my_files s) ipd ram sleep Hc esp 4 s s1 o1 (wf_ready s Hw) H1) as Q1.
  destruct o1 as [l| |]; [|destruct H as [-> _]; by eapply still_wf..]. destruct (Hnr s1 l H1) as [N2 N3].
  destruct (_ !! _) as [[k func]|] eqn:Hf; [|injection H as <- <-; by eapply still_wf].
  apply call_bind_ok in H as (s2 & o2 & H2 & H). assert (s2 = s1) as -> by (unfold run_ in H2; by inv_res).
  destruct o2; [|destruct H as [-> _]; by eapply still_wf..].
  apply call_bind_ok in H as (s3 & o3 & H3 & H).
  pose proof (copy_in_still (my_files s) ipd ram sleep Hc _ _ s1 s3 o3 (still_ready _ _ _ Q1 (wf_ready s Hw)) H3) as Q3.
  assert (still (my_files s) s s3) as Q by (by etrans). pose proof (still_wf s s3 Q Hw) as Hw3.
  destruct o3 as [l3| |]; [|destruct H as [-> _]; done..].
  apply call_bind_ok in H as (s4 & o4 & H4 & H). assert (fd_wf s4) as Hw4.
  { eapply table_wf; [|exact Hw3| | | |exact Hf|exact H4]; [| |lia|lia].
    - replace (my_files s3) with (my_files s); [done|]. unfold my_files. by rewrite (st_fds _ _ _ Q), (st_mappings _ _ _ Q).
    - by rewrite (st_next _ _ _ Q). }
  destruct o4; [by injection H as <- <-|by destruct H as [-> _]..].
Qed.

(** The open files of the process. *)
Definition fd_map (s : sys) : gmap Z Z := list_to_map (map (λ fd, (handle fd, fd_file fd)) (fds s)).

Lemma fds_fst l : (map (λ fd, (handle fd, fd_file fd)) l).*1 = map handle l.
Proof. induction l as [|fd l IH]; cbn; [done|by f_equal]. Qed.

Lemma fds_nodup s : fd_wf s → NoDup (map handle (fds s)).
Proof. intros Hw. by apply (NoDup_app (map handle (fds s)) (map mhandle (mappings s))), fw_handles. Qed.

Lemma lookup_fd_map s h : fd_wf s →
  lookup_fd h s = Ok (s, match fd_map s !! h with Some f => Ret (Fd f h) | None => Exit end).
Proof.
  intros Hw. unfold lookup_fd. destruct (list_find _ _) as [[i [f k]]|] eqn:E.
  - apply list_find_Some in E as (Hi & Hh & _). cbn in Hh. subst k. unfold fd_map. rewrite (elem_of_list_to_map_1 _ h f); [done| |].
    + rewrite fds_fst. by apply fds_nodup.
    + apply (list_elem_of_fmap_2' (λ fd, (handle fd, fd_file fd)) _ (Fd f h)); [|done]. by eapply list_elem_of_lookup_2.
  - unfold fd_map. rewrite not_elem_of_list_to_map_1; [done|]. rewrite fds_fst. intros (fd & -> & Hin)%list_elem_of_fmap.
    apply list_find_None in E. rewrite Forall_forall in E. by apply (E fd).
Qed.

(** C22. The descriptors of a process implement a finite map from handles to files:
    [lookup_fd] looks a handle up and ends the process when it has none,
    opening a file inserts it under a handle that was not in use, and
    [sys_close] deletes exactly its handle. *)
Theorem fd_table_refines_map s h : fd_wf s →
  lookup_fd h s = Ok (s, match fd_map s !! h with Some f => Ret (Fd f h) | None => Exit end) ∧
  (∀ f, ∃ s', add_fd f s = Ok (s', Ret (next_handle s)) ∧ fd_map s !! next_handle s = None ∧
     fd_map s' = <[next_handle s := f]> (fd_map s)) ∧
  (∀ s' o, sys_close h s = Ok (s', o) → fd_map s' = delete h (fd_map s) ∧ (o = Exit ↔ fd_map s !! h = None)).
Proof.
  intros Hw. split; [by apply lookup_fd_map|]. split.
  - intros f. eexists. split; [reflexivity|]. split; [|done]. unfold fd_map. apply not_elem_of_list_to_map_1. rewrite fds_fst.
    intros Hin. assert (next_handle s ∈ handles s) as Hin' by (apply elem_of_app; by left). apply (fw_range s Hw) in Hin'. lia.
  - intros s' o H. unfold sys_close in H. apply call_bind_ok in H as (s1 & o1 & H1 & H). pose proof H1 as Hl.
    rewrite lookup_fd_map in H1 by done. destruct (fd_map s !! h) as [f|] eqn:E; injection H1 as <- <-.
    2:{ destruct H as [-> ->]. by rewrite delete_id. }
    destruct (lookup_fd_split h s (Fd f h) Hw Hl) as (_ & l1 & l2 & E1 & E2).
    apply call_bind_ok in H as (s2 & o2 & H2 & H). apply acquire_ok in H2 as [-> [k1 ->]].
    apply call_bind_ok in H as (s2 & o2 & H2 & H). apply close_ok in H2 as [-> (m & -> & Hn & Hm)].
    apply call_bind_ok in H as (s3 & o3 & H2 & H). apply release_ok in H2 as [-> [k2 ->]].
    injection H as <- <-. split; [|done]. unfold fd_map. cbn [set_fds set_fs_lock set_mach fds]. rewrite E2, E1, !map_app. cbn.
    pose proof (fds_nodup s Hw) as Hnd. rewrite E1, map_app in Hnd. cbn in Hnd.
    apply NoDup_app in Hnd as (_ & N1 & [N2 _]%NoDup_cons).
    rewrite !list_to_map_app. cbn. rewrite delete_union, delete_insert_eq. rewrite !delete_id; [done|..];
      apply not_elem_of_list_to_map_1; rewrite fds_fst; [done|]. intros Hin. apply (N1 h Hin). by left.
Qed.

(** *** The end of a process *)

Lemma close_all_ok l : ∀ s s' o, close_all l s = Ok (s', o) → o = Ret tt ∧ mappings s' = mappings s ∧
  next_page (mach s') = next_page (mach s) ∧ files (mach s') = foldl (λ m fd, delete (fd_file fd) m) (files (mach s)) l.
Proof.
  induction l as [|fd l IH]; intros s s' o H; cbn [close_all] in H; [by injection H as <- <-|].
  apply call_bind_ok in H as (s2 & o2 & H2 & H). apply acquire_ok in H2 as [-> [k1 ->]].
  apply call_bind_ok in H as (s2 & o2 & H2 & H). apply close_ok in H2 as [-> (m & -> & Hn & Hm)].
  apply call_bind_ok in H as (s3 & o3 & H2 & H). apply release_ok in H2 as [-> [k2 ->]].
  destruct (IH _ _ _ H) as (-> & Hma & Hnp & Hf). split_and!; [done|done|by rewrite Hnp|]. rewrite Hf. cbn. by rewrite Hm.
Qed.

Lemma unmap_all_quiet F ipd l : ∀ s s' o, unmap_all ipd l s = Ok (s', o) → quiet F (mach s) (mach s').
Proof.
  induction l as [|m l IH]; intros s s' o H; cbn [unmap_all] in H; [by injection H as <- <-|].
  apply call_bind_ok in H as (s1 & o1 & H1 & H). unfold unmap in H1. apply call_bind_ok in H1 as (s2 & o2 & H2 & H1).
  injection H2 as <- <-. match type of H1 with ?k _ = _ => assert (Tidy F k) as Hst by (unfold write_mapped; tidy_tac) end.
  destruct (Hst _ s1 o1 H1) as [_ _ _ Q]. destruct o1; [|by destruct H as [-> _]..]. etrans; [exact Q|]. by apply (IH s1 s' o).
Qed.

Lemma deleted_files l : ∀ (m : gmap Z file) f, foldl (λ m fd, delete (fd_file fd) m) m l !! f =
  if decide (f ∈ map fd_file l) then None else m !! f.
Proof.
  induction l as [|fd l IH]; intros m f; cbn [foldl map]; [done|]. rewrite IH. destruct (decide (f = fd_file fd)) as [->|Hne].
  - destruct (decide (fd_file fd ∈ fd_file fd :: map fd_file l)) as [_|Hn]; [|by destruct Hn; left].
    by case_decide; [|apply lookup_delete_eq].
  - rewrite lookup_delete_ne by done. by rewrite (decide_ext (f ∈ map fd_file l) (f ∈ fd_file fd :: map fd_file l)) by set_solver.
Qed.

(** C29. When a process ends, [syscall_exit] closes every file that it has open,
    but the files of its mappings stay open for ever: [unmap] never closes
    them. *)
Theorem syscall_exit_files ipd s s' : fd_wf s → syscall_exit ipd s = Ok (s', Ret tt) →
  (∀ fd, fd ∈ fds s → files (mach s') !! fd_file fd = None) ∧ (∀ m, m ∈ mappings s → is_Some (files (mach s') !! mfile m)).
Proof.
  intros Hw H. unfold syscall_exit in H. apply call_bind_ok in H as (s1 & o1 & H1 & H). injection H1 as <- <-.
  apply call_bind_ok in H as (s2 & o2 & H2 & H). apply close_all_ok in H2 as (-> & Hm & Hnp & Hf).
  apply call_bind_ok in H as (s3 & o3 & H3 & H). injection H3 as <- <-.
  destruct (unmap_all_quiet (my_files s) ipd _ _ _ _ H) as [Q1 _ Q3 Q4]. split.
  - intros fd Hfd. assert (fd_file fd ∈ map fd_file (fds s)) as Hin by (by apply list_elem_of_fmap_2). apply Q4.
    + rewrite Hnp. apply Z.nle_gt. intros Hle. destruct (fw_open s Hw (fd_file fd)) as [x Hx]; [apply elem_of_app; by left|].
      by rewrite (fw_fresh s Hw) in Hx.
    + rewrite Hf, deleted_files. by rewrite decide_True.
  - intros m Hm'. assert (mfile m ∈ map mfile (mappings s)) as Hin by (by apply list_elem_of_fmap_2).
    apply Q3; [apply elem_of_app; by right|]. rewrite Hf, deleted_files, decide_False.
    + apply (fw_open s Hw), elem_of_app. by right.
    + intros Hin2. pose proof (fw_files s Hw) as (_ & Hd & _)%NoDup_app. by apply (Hd (mfile m)).
Qed.
