(* ===== verification/SyscallMem.v ===== *)
(** * userprog/syscall.c: the kernel and the memory of a process

    The arguments of a system call come from the memory of the process.  For
    addresses whose pages are in memory, the kernel reads what the process
    sees; for addresses that the process has not got, it ends the process and
    does not fault itself. *)

From stdpp Require Import gmap.
From S2P Require Import Prelude Str Cmdline Bitmap Vaddr Palloc Pagedir Block Inode FreeMap File Directory Filesys Vm VmSwap VmPaging VmProps.
From S2P Require Import Load LoadProps Syscall SyscallFd.

Section mem.
Context (ram : Z) (pds : list Z).

(** ** Accesses *)

(** [m] is [s] but for accessed and dirty bits. *)
Record touched (s m : mmu) : Prop := {
  to_inv : vm_inv m pds;
  to_data : same_data s m pds;
  to_cr3 : cr3 m = cr3 s;
  to_xlate pd v : pd ∈ pds → 0 ≤ v < PHYS_BASE → xlate (Pagedir.entry m pd v) = xlate (Pagedir.entry s pd v);
}.

Lemma touched_refl s : vm_inv s pds → touched s s.
Proof. intros H. split; [done|apply same_data_refl|done|done]. Qed.

Lemma touched_trans s1 s2 s3 : touched s1 s2 → touched s2 s3 → touched s1 s3.
Proof.
  intros [A1 A2 A3 A4] [B1 B2 B3 B4]. split; [done| |congruence|].
  - intros b Hb. destruct (A2 b Hb) as [Hb1 K1], (B2 b) as [Hb2 K2]; [by apply A2|]. split; [done|].
    intros k Hk. by rewrite K2, K1.
  - intros pd v Hpd Hv. by rewrite B4, A4.
Qed.

(** The process [t] runs and its directory is active. *)
Record running (s : vm) (t : process) : Prop := {
  ru_machine : machine ram pds s;
  ru_proc : procs s !! cur s = Some t;
  ru_dir : pagedir t ∈ pds;
  ru_cr3 : cr3 (mm s) + PHYS_BASE = pagedir t;
}.

Lemma running_touched s t m : running s t → touched (mm s) m → running (set_mm m s) t ∧ same_contents s (set_mm m s).
Proof.
  intros [R1 R2 R3 R4] [T1 T2 T3 T4]. destruct (machine_mm ram pds s m R1 T1 T2 T3) as [Hm Hc].
  split; [|done]. split; try done. cbn. by rewrite T3.
Qed.

Lemma xlate_bits e f : is_u32 e → f = 0 ∨ f = PTE_D → xlate (Z.lor e (Z.lor PTE_A f)) = xlate e ∧ is_u32 (Z.lor e (Z.lor PTE_A f)).
Proof.
  intros He Hf. destruct (set_flag e 5 He ltac:(lia)) as (H1 & H2 & H3).
  assert (∀ k, 0 ≤ k < 2 → flag (Z.lor e (2 ^ 5)) (2 ^ k) = flag e (2 ^ k)) as H4.
  { intros k Hk. rewrite H3 by lia. by rewrite (proj2 (Z.eqb_neq k 5)) by lia. }
  assert (xlate (Z.lor e PTE_A) = xlate e) as E1.
  { unfold xlate. change PTE_A with (2 ^ 5). change PTE_P with (2 ^ 0). change PTE_W with (2 ^ 1). by rewrite !H4, H2 by lia. }
  destruct Hf as [->| ->]; rewrite Z.lor_assoc.
  { by rewrite Z.lor_0_r. }
  change (Z.lor e PTE_A) with (Z.lor e (2 ^ 5)) in *. destruct (set_flag (Z.lor e (2 ^ 5)) 6 H1 ltac:(lia)) as (K1 & K2 & K3).
  split; [|done]. rewrite <- E1. unfold xlate. change PTE_D with (2 ^ 6). change PTE_P with (2 ^ 0). change PTE_W with (2 ^ 1).
  rewrite !K3, K2 by lia. done.
Qed.

Lemma user_access_ok write s t a b w : running s t → 0 ≤ a < PHYS_BASE →
  xlate (Pagedir.entry (mm s) (pagedir t) a) = Some (b, w) → b < 2 ^ 32 → (write = true → w = true) →
  ∃ m, user_access write a s = Ok (set_mm m s, b + a mod 4096) ∧ touched (mm s) m.
Proof.
  intros [R1 R2 R3 R4] Ha Hx Hb Hw. pose proof (mc_mm _ _ _ R1) as Hinv. destruct (mc_cr3 _ _ _ R1) as [C1 C2].
  pose proof (entry_u32 (mm s) pds (pagedir t) a Hinv) as He. set (e := Pagedir.entry (mm s) (pagedir t) a) in *.
  unfold user_access, active_pd, ptov. rewrite (proj2 (Z.ltb_lt _ _)) by lia. cbn [ASSERT mbind res_bind].
  rewrite u32_small by (unfold PHYS_BASE in *; c_unfold; lia). rewrite R4. fold e.
  unfold xlate in Hx. destruct (flag e PTE_P) eqn:EP; [|done]. injection Hx as Hpt EW. rewrite EW. cbn [andb].
  assert (negb write || w = true) as -> by (destruct write; [by rewrite (Hw eq_refl)|done]).
  unfold pte_get_page, ptov. rewrite land_addr by done. unfold pt_of in Hpt.
  assert (0 ≤ e / 4096 * 4096) by (c_unfold; Z.div_mod_to_equations; lia).
  rewrite (proj2 (Z.ltb_lt _ _)) by (unfold PHYS_BASE in *; lia). cbn [ASSERT mbind res_bind].
  rewrite pg_ofs_mod, Hpt, u32_small by (unfold PHYS_BASE in *; c_unfold; lia).
  set (e' := Z.lor e _). assert (xlate e' = xlate e ∧ is_u32 e') as [Hx' Hu'].
  { unfold e'. destruct write; [apply xlate_bits; [done|by right]|]. apply (xlate_bits e 0); [done|by left]. }
  destruct (pde_of_entry (mm s) pds (pagedir t) a Hinv R3 Ha) as [Hslot H0].
  assert (pde (mm s) (pagedir t) (pd_no a) ≠ 0) as Hpde by (intros E; unfold e in EP; by rewrite (H0 E) in EP).
  destruct (store_entry (mm s) pds (pagedir t) a e' Hinv R3 Ha Hu' Hpde) as [Hinv' Hent].
  eexists. split; [reflexivity|]. split; [done|apply store_data; try done; intros E; rewrite E in Hslot; symmetry in Hslot; by apply Z.eqb_eq in Hslot|done|].
  intros pd v Hpd Hv. destruct (Hent pd v Hpd Hv) as [_ ->]. destruct (Z.eqb_spec pd (pagedir t)) as [->|]; [|done].
  destruct (Z.eqb_spec (v / 4096) (a / 4096)) as [E|]; [|done]. cbn [andb]. rewrite Hx'. unfold e. by rewrite (entry_page (mm s) (pagedir t) v a).
Qed.

(** ** Pages in memory *)

(** The page of [a] is in the frame [fr] and mapped there. *)
Record in_frame (s : vm) (t : process) (a p : Z) (pg : page) (f : nat) (fr : frame) : Prop := {
  if_user : 0 ≤ a < PHYS_BASE;
  if_page : my_page s t a p pg;
  if_frame : pframe pg = Some f;
  if_at : frames s !! f = Some fr;
  if_xlate : xlate (Pagedir.entry (mm s) (pagedir t) a) = Some (Vm.base fr, negb (read_only pg));
}.

Definition resident (s : vm) (t : process) (a : Z) : Prop := ∃ p pg f fr, in_frame s t a p pg f fr ∧ lock fr = None.

(** The process has no page at [a], and the stack does not grow there. *)
Definition unmapped (s : vm) (t : process) (a : Z) : Prop :=
  PHYS_BASE ≤ a ∨ ∃ tbl, ptable t = Some tbl ∧ tbl !! pg_round_down a = None ∧
    (a ≤ PHYS_BASE - STACK_MAX ∨ a ≤ u32 (user_esp t - 32)).

Lemma in_frame_touched s t m a p pg f fr : running s t → touched (mm s) m → in_frame s t a p pg f fr → in_frame (set_mm m s) t a p pg f fr.
Proof. intros [_ _ R3 _] [_ _ _ T4] [I1 I2 I3 I4 I6]. split; try done. cbn [set_mm mm]. by rewrite T4. Qed.

Lemma resident_touched s t m a : running s t → touched (mm s) m → resident s t a → resident (set_mm m s) t a.
Proof. intros Hr Hm (p & pg & f & fr & H & Hl). exists p, pg, f, fr. split; [by apply in_frame_touched|done]. Qed.

(** What the process sees at an address of such a page. *)
Lemma in_frame_byte s t a p pg f fr x : in_frame s t a p pg f fr → is_u32 x → x / 4096 = a / 4096 →
  user_byte s x = Some (memory_of s (Vm.base fr + x mod 4096)) ∧ user_byte s x = Some (contents s p (x mod 4096)).
Proof.
  intros [I1 (I2 & (tbl & I3 & I4) & I5 & _) I6 I7 _] Hx E. unfold user_byte. rewrite I2, I3, E.
  rewrite pg_round_down_eq in I4 by (unfold PHYS_BASE in *; c_unfold; lia). rewrite I4. cbn [mbind option_bind].
  unfold contents. by rewrite I5, I6, I7.
Qed.

Definition locked (s : vm) (f : nat) (fr : frame) : vm := put_frame f (Frame (Some (cur s)) (Vm.base fr) (fpage fr)) s.

Lemma page_lock_ok ipd sleep w s t a p pg f fr : running s t → in_frame s t a p pg f fr → lock fr = None → (w = true → read_only pg = false) →
  Vm.page_lock ipd ram sleep s a w = Ok (locked s f fr, true).
Proof.
  intros [R1 _ _ _] [I1 I2 I3 I4 _] I5 Hw. pose proof I2 as (_ & _ & I6 & _). unfold Vm.page_lock.
  rewrite (page_for_addr_found s t a p pg) by (done || lia). cbn [mbind res_bind].
  rewrite (proj2 (Z.eqb_neq p 0)) by (intros ->; by rewrite (mc_null _ _ _ R1) in I6).
  rewrite (get_page_ok s p pg) by done. cbn [mbind res_bind].
  assert (read_only pg && w = false) as -> by (destruct w; [by rewrite (Hw eq_refl)|apply andb_false_r]).
  unfold frame_lock. rewrite (get_page_ok s p pg) by done. cbn [mbind res_bind]. rewrite I3.
  rewrite (get_frame_ok s f fr) by done. cbn [mbind res_bind]. rewrite I5. cbn [lock_acquire mbind res_bind].
  fold (locked s f fr). rewrite (get_page_ok (locked s f fr) p pg) by done. cbn [mbind res_bind]. rewrite I3.
  rewrite bool_decide_eq_false_2 by naive_solver. cbn [mbind res_bind].
  rewrite (get_page_ok (locked s f fr) p pg) by done. cbn [mbind res_bind]. by rewrite I3.
Qed.

Lemma page_unlock_ok s t a p pg f fr m : running s t → in_frame s t a p pg f fr → lock fr = None →
  page_unlock (set_mm m (locked s f fr)) a = Ok (set_mm m s).
Proof.
  intros [R1 _ _ _] [I1 I2 I3 I4 _] I5. pose proof I2 as (_ & _ & I6 & _). unfold page_unlock.
  rewrite (page_for_addr_found _ t a p pg) by (done || lia). cbn [mbind res_bind].
  rewrite (proj2 (Z.eqb_neq p 0)) by (intros ->; by rewrite (mc_null _ _ _ R1) in I6). cbn [negb ASSERT mbind res_bind].
  rewrite (get_page_ok _ p pg) by apply I2. cbn [mbind res_bind]. rewrite I3. cbn [deref mbind res_bind].
  unfold frame_unlock. rewrite (get_frame_ok _ f (Frame (Some (cur s)) (Vm.base fr) (fpage fr))).
  2:{ cbn. apply list_lookup_insert_eq. by eapply lookup_lt_Some. }
  cbn [mbind res_bind lock base fpage]. unfold lock_held. rewrite bool_decide_eq_true_2 by done. cbn [ASSERT mbind res_bind].
  change (cur (set_mm m (locked s f fr))) with (cur s). rewrite lock_release_ok. cbn [mbind res_bind]. f_equal.
  assert (Frame None (Vm.base fr) (fpage fr) = fr) as -> by (destruct fr; cbn in *; by subst).
  unfold locked, put_frame. cbn. rewrite list_insert_insert_eq, list_insert_id by done. by destruct s.
Qed.

(** A byte of the page. *)
Lemma page_access write s t a p pg f fr j : running s t → in_frame s t a p pg f fr → 0 ≤ j < 4096 → (write = true → read_only pg = false) →
  ∃ m, user_access write (a / 4096 * 4096 + j) s = Ok (set_mm m s, Vm.base fr + j) ∧ touched (mm s) m.
Proof.
  intros Hr [I1 I2 I3 I4 I6] Hj Hw. set (x := a / 4096 * 4096 + j).
  assert (0 ≤ x < PHYS_BASE ∧ x / 4096 = a / 4096 ∧ x mod 4096 = j) as (H1 & H2 & H3) by (unfold x, PHYS_BASE in *; c_lia).
  destruct (mc_base _ _ _ (ru_machine _ _ Hr) f fr I4) as ((_ & _ & Hb & _) & _).
  rewrite <- (entry_page (mm s) (pagedir t) x a) in I6 by done.
  destruct (user_access_ok write s t x (Vm.base fr) (negb (read_only pg)) Hr H1 I6) as (m & E & Hm); [lia| |].
  - intros Hwr. by rewrite (Hw Hwr).
  - exists m. by rewrite E, H3.
Qed.

Lemma bytes_cons m a n : bytes m a (Z.of_nat (S n)) = m a :: bytes m (a + 1) (Z.of_nat n).
Proof.
  unfold bytes. rewrite !Nat2Z.id. cbn [seq map]. f_equal; [f_equal; lia|]. rewrite <- seq_shift, map_map.
  apply map_ext. intros i. f_equal. lia.
Qed.

Lemma touched_memory s t m f fr j : running s t → touched (mm s) m → frames s !! f = Some fr → 0 ≤ j < 4096 →
  memory_of (set_mm m s) (Vm.base fr + j) = memory_of s (Vm.base fr + j).
Proof. intros Hr Hm Hf Hj. apply (to_data _ _ Hm (Vm.base fr)); [by apply (mc_base _ _ _ (ru_machine _ _ Hr) f)|lia]. Qed.

Lemma bytes_touched s t m f fr j n : running s t → touched (mm s) m → frames s !! f = Some fr → 0 ≤ j → j + Z.of_nat n ≤ 4096 →
  bytes (memory_of (set_mm m s)) (Vm.base fr + j) (Z.of_nat n) = bytes (memory_of s) (Vm.base fr + j) (Z.of_nat n).
Proof.
  intros Hr Hm Hf Hj Hn. unfold bytes. apply map_ext_in. intros i Hi. apply in_seq in Hi.
  rewrite <- Z.add_assoc. by apply (touched_memory s t m f); [..|lia].
Qed.

(** Reading [n] bytes of the page. *)
Lemma user_read_ok n : ∀ s t a p pg f fr j, running s t → in_frame s t a p pg f fr → 0 ≤ j → j + Z.of_nat n ≤ 4096 →
  ∃ m, user_read n (a / 4096 * 4096 + j) s = Ok (set_mm m s, bytes (memory_of s) (Vm.base fr + j) (Z.of_nat n)) ∧ touched (mm s) m.
Proof.
  induction n as [|n IH]; intros s t a p pg f fr j Hr Hi Hj Hn; cbn [user_read].
  { exists (mm s). split; [|apply touched_refl, (mc_mm _ _ _ (ru_machine _ _ Hr))]. by destruct s. }
  destruct (page_access false s t a p pg f fr j Hr Hi) as (m & E & Hm); [lia|done|].
  unfold user_load. rewrite E. cbn [mbind res_bind]. destruct (running_touched s t m Hr Hm) as [Hr' _].
  destruct (IH (set_mm m s) t a p pg f fr (j + 1) Hr') as (m2 & E2 & Hm2); [by apply in_frame_touched|lia|lia|].
  rewrite Z.add_assoc in E2. rewrite E2. cbn [mbind res_bind]. exists m2. split; [|by eapply touched_trans].
  rewrite bytes_cons. pose proof (if_at _ _ _ _ _ _ _ Hi) as Hf.
  rewrite (touched_memory s t m f), Z.add_assoc by (done || lia).
  do 3 f_equal. rewrite <- Z.add_assoc. apply (bytes_touched s t m f); done || lia.
Qed.

(** ** Reading under the lock of the frame *)

Lemma locked_running s t f fr : running s t → frames s !! f = Some fr → running (locked s f fr) t ∧ same_contents s (locked s f fr).
Proof.
  intros [R1 R2 R3 R4] Hf. destruct (set_frame ram pds s f fr (Some (cur s)) (fpage fr) R1 Hf) as [Hm Hc]; [by left|].
  split; [|exact Hc]. by split.
Qed.

Lemma locked_read ipd sleep n s t a p pg f fr : running s t → in_frame s t a p pg f fr → lock fr = None → a mod 4096 + Z.of_nat n ≤ 4096 →
  Vm.page_lock ipd ram sleep s a false = Ok (locked s f fr, true) ∧
  ∃ m, user_read n a (locked s f fr) = Ok (set_mm m (locked s f fr), bytes (memory_of s) (Vm.base fr + a mod 4096) (Z.of_nat n)) ∧
    page_unlock (set_mm m (locked s f fr)) a = Ok (set_mm m s) ∧ touched (mm s) m.
Proof.
  intros Hr Hi Hl Hn. split; [by apply (page_lock_ok ipd sleep false s t a p pg)|].
  destruct (locked_running s t f fr Hr (if_at _ _ _ _ _ _ _ Hi)) as [Hr' _].
  assert (in_frame (locked s f fr) t a p pg f (Frame (Some (cur s)) (Vm.base fr) (fpage fr))) as Hi'.
  { destruct Hi as [I1 I2 I3 I4 I6]. split; try done. cbn. apply list_lookup_insert_eq. by eapply lookup_lt_Some. }
  destruct (user_read_ok n (locked s f fr) t a p pg f _ (a mod 4096) Hr' Hi') as (m & E & Hm); [c_lia|done|].
  replace (a / 4096 * 4096 + a mod 4096) with a in E by c_lia.
  exists m. split_and!; [exact E|by apply (page_unlock_ok s t a p pg)|exact Hm].
Qed.

Lemma page_lock_unmapped ipd sleep w s t a : running s t → 0 ≤ a → unmapped s t a → Vm.page_lock ipd ram sleep s a w = Ok (s, false).
Proof.
  intros [_ R2 _ _] Ha Hu. assert (page_for_addr s a = Ok (s, 0)) as E; [|unfold Vm.page_lock; by rewrite E].
  unfold page_for_addr. destruct (Z.ltb_spec a PHYS_BASE) as [Hlt|]; [|done].
  destruct Hu as [?|(tbl & Ht & Hno & Hg)]; [lia|]. unfold my_pages. rewrite R2. cbn [deref mbind res_bind].
  rewrite Ht. cbn [deref mbind res_bind]. rewrite Hno.
  destruct (Z.ltb_spec (PHYS_BASE - STACK_MAX) a), (Z.ltb_spec (u32 (user_esp t - 32)) a); done || lia.
Qed.

(** ** [copy_in] *)

Lemma run_bind {A B} (f : vm → res (vm * A)) (k : A → call B) s x a : f (mach s) = Ok (x, a) → (run f ≫= k) s = k a (set_mach x s).
Proof. intros E. unfold mbind, call_bind, run. by rewrite E. Qed.
Lemma exec_bind {B} (f : vm → res vm) (k : unit → call B) s x : f (mach s) = Ok x → (exec f ≫= k) s = k tt (set_mach x s).
Proof. intros E. unfold mbind, call_bind, exec. by rewrite E. Qed.
Lemma bind_ret {A B} (m : call A) (k : A → call B) s s1 a : m s = Ok (s1, Ret a) → (m ≫= k) s = k a s1.
Proof. intros E. unfold mbind, call_bind. by rewrite E. Qed.
Lemma acquire_bind {B} (k : unit → call B) s : fs_lock s = None → (acquire_fs ≫= k) s = k tt (set_fs_lock (Some (cur (mach s))) s).
Proof. intros E. apply bind_ret. unfold acquire_fs. by rewrite E. Qed.
Lemma release_bind {B} (k : unit → call B) s : fs_lock s = Some (cur (mach s)) → (release_fs ≫= k) s = k tt (set_fs_lock None s).
Proof. intros E. apply bind_ret. unfold release_fs. by rewrite E, lock_release_ok. Qed.

(** The state after touching pages. *)
Definition touch (m : mmu) (s : sys) : sys := set_mach (set_mm m (mach s)) s.

Definition chunk_at (a n : Z) : Z := Z.min n (4096 - a mod 4096).

(** [l] is what the process sees from [a] on. *)
Definition seen (s : vm) (a : Z) (l : list Z) : Prop := ∀ i, 0 ≤ i < Z.of_nat (length l) → user_byte s (a + i) = Some (at_ l i).

Lemma seen_app s a l k : seen s a l → seen s (a + Z.of_nat (length l)) k → seen s a (l ++ k).
Proof.
  intros Hl Hk i Hi. rewrite length_app in Hi. unfold at_. destruct (Z.lt_ge_cases i (Z.of_nat (length l))).
  - rewrite lookup_total_app_l by lia. apply Hl. lia.
  - rewrite lookup_total_app_r by lia. replace (a + i) with (a + Z.of_nat (length l) + (i - Z.of_nat (length l))) by lia.
    rewrite Hk by lia. unfold at_. do 2 f_equal. lia.
Qed.

Lemma seen_split s a l k : seen s a (l ++ k) → seen s a l ∧ seen s (a + Z.of_nat (length l)) k.
Proof.
  intros H. split; intros i Hi.
  - rewrite H by (rewrite length_app; lia). unfold at_. by rewrite lookup_total_app_l by lia.
  - rewrite <- Z.add_assoc, H by (rewrite length_app; lia). unfold at_. rewrite lookup_total_app_r by lia. do 2 f_equal. lia.
Qed.

Lemma page_seen s t a p pg f fr n : in_frame s t a p pg f fr → 0 ≤ n → a mod 4096 + n ≤ 4096 →
  seen s a (bytes (memory_of s) (Vm.base fr + a mod 4096) n).
Proof.
  intros Hi Hn Ha i Hi'. unfold bytes in Hi'. rewrite length_map, length_seq in Hi'. rewrite at_bytes by lia.
  pose proof (if_user _ _ _ _ _ _ _ Hi). destruct (in_frame_byte s t a p pg f fr (a + i) Hi) as [-> _]; [unfold PHYS_BASE in *; c_lia|c_lia|].
  do 2 f_equal. c_lia.
Qed.

Lemma user_byte_touched s t m a : running s t → touched (mm s) m → user_byte (set_mm m s) a = user_byte s a.
Proof.
  intros Hr Hm. destruct (running_touched s t m Hr Hm) as [_ Hc]. unfold user_byte. cbn. destruct (procs s !! cur s) as [x|]; [|done].
  destruct (ptable x) as [tbl|]; [|done]. destruct (tbl !! _) as [q|]; [|done]. cbn. f_equal. apply Hc. c_lia.
Qed.

Lemma chunk_size_eq a n : 0 ≤ a → (if n <? PGSIZE - pg_ofs a then n else PGSIZE - pg_ofs a) = chunk_at a n.
Proof. intros Ha. rewrite pg_ofs_mod. unfold chunk_at. change PGSIZE with 4096. destruct (Z.ltb_spec n (4096 - a mod 4096)); lia. Qed.

Lemma copy_chunk_ok ipd sleep dst a n s t : running (mach s) t → resident (mach s) t a → 0 < n →
  ∃ m l, copy_chunk ipd ram sleep (dst, a, n) s = Ok (touch m s, Ret (inl (dst ++ l, a + chunk_at a n, n - chunk_at a n))) ∧
    touched (mm (mach s)) m ∧ Z.of_nat (length l) = chunk_at a n ∧ seen (mach s) a l.
Proof.
  intros Hr (p & pg & f & fr & Hi & Hl) Hn. pose proof (if_user _ _ _ _ _ _ _ Hi) as Ha.
  assert (0 < chunk_at a n ∧ a mod 4096 + chunk_at a n ≤ 4096) as Hc by (unfold chunk_at; c_lia).
  destruct (locked_read ipd sleep (Z.to_nat (chunk_at a n)) (mach s) t a p pg f fr Hr Hi Hl) as (E1 & m & E2 & E3 & Hm); [lia|].
  unfold copy_chunk. rewrite (proj2 (Z.ltb_lt 0 n)) by done. rewrite chunk_size_eq by lia.
  rewrite (run_bind _ _ _ _ _ E1). cbn [negb]. rewrite (run_bind _ _ (set_mach (locked (mach s) f fr) s) _ _ E2).
  rewrite (exec_bind _ _ (set_mach (set_mm m (locked (mach s) f fr)) s) _ E3).
  rewrite Z2Nat.id by lia. exists m. eexists. split; [|split; [exact Hm|]].
  - unfold ret, touch. cbn. rewrite u32_small by (unfold PHYS_BASE in *; c_lia). reflexivity.
  - split; [unfold bytes; rewrite length_map, length_seq; lia|]. by apply (page_seen _ t a p pg f); [|lia..].
Qed.

(** How [copy_in] ends: with what the process sees, or because the process
    has not got one of the addresses. *)
Definition copied (s : vm) (t : process) (a n : Z) (dst : list Z) (o : outcome (list Z)) : Prop :=
  match o with
  | Ret l => ∃ k, l = dst ++ k ∧ Z.of_nat (length k) = n ∧ seen s a k
  | Exit => ∃ x, a ≤ x < a + n ∧ unmapped s t x
  | PowerOff => False
  end.

Lemma copy_loop ipd sleep t fuel : ∀ dst a n s, running (mach s) t → 0 ≤ a → 0 ≤ n → (Z.to_nat n < fuel)%nat →
  (∀ x, a ≤ x < a + n → resident (mach s) t x ∨ unmapped (mach s) t x) →
  ∃ m o, repeat_until fuel (copy_chunk ipd ram sleep) (dst, a, n) s = Ok (touch m s, o) ∧ touched (mm (mach s)) m ∧
    copied (mach s) t a n dst o.
Proof.
  induction fuel as [|fuel IH]; intros dst a n s Hr Ha Hn Hfuel Hx; [lia|]. cbn [repeat_until].
  pose proof (mc_mm _ _ _ (ru_machine _ _ Hr)) as Hinv. assert (touch (mm (mach s)) s = s) as Es by (by destruct s as [[]]).
  destruct (Z.ltb_spec 0 n) as [Hpos|Hz].
  2:{ exists (mm (mach s)), (Ret dst). assert (n = 0) as -> by lia. rewrite Es. split_and!; [done|by apply touched_refl|].
      exists []. rewrite app_nil_r. split_and!; [done|done|]. intros i Hi. cbn in Hi. lia. }
  destruct (Hx a ltac:(lia)) as [Hres|Hun].
  - destruct (copy_chunk_ok ipd sleep dst a n s t Hr Hres Hpos) as (m & l & E & Hm & Hlen & Hs).
    unfold mbind, call_bind. rewrite E. cbn [mbind res_bind]. destruct (running_touched (mach s) t m Hr Hm) as [Hr' _].
    assert (0 < chunk_at a n ≤ n) as Hc by (unfold chunk_at; c_lia).
    destruct (IH (dst ++ l) (a + chunk_at a n) (n - chunk_at a n) (touch m s) Hr') as (m2 & o & E2 & Hm2 & Ho); [lia|lia|lia| |].
    { intros x Hx'. destruct (Hx x ltac:(lia)) as [Hr2|Hu]; [left; by apply resident_touched|by right]. }
    exists m2, o. split_and!; [rewrite E2; reflexivity|by eapply touched_trans|]. destruct o as [l2| |]; [| |done].
    + destruct Ho as (k & -> & Hk & Hsk). exists (l ++ k). rewrite app_assoc, length_app. split_and!; [done|lia|].
      apply seen_app; [done|]. rewrite Hlen. intros i Hi. rewrite <- (Hsk i Hi). symmetry. by apply (user_byte_touched _ t).
    + destruct Ho as (x & Hx1 & Hx2). exists x. split; [lia|exact Hx2].
  - exists (mm (mach s)), Exit. rewrite Es. split_and!; [|by apply touched_refl|exists a; split; [lia|done]].
    unfold copy_chunk. rewrite (proj2 (Z.ltb_lt 0 n)) by done.
    unfold mbind, call_bind, run. rewrite (page_lock_unmapped ipd sleep false (mach s) t a) by done. cbn. by destruct s.
Qed.

Lemma copy_in_spec ipd sleep a n s t : running (mach s) t → 0 ≤ a → 0 ≤ n →
  (∀ x, a ≤ x < a + n → resident (mach s) t x ∨ unmapped (mach s) t x) →
  ∃ m o, copy_in ipd ram sleep a n s = Ok (touch m s, o) ∧ touched (mm (mach s)) m ∧ copied (mach s) t a n [] o.
Proof. intros Hr Ha Hn Hx. apply copy_loop; [done|done|done|lia|done]. Qed.

(** ** Writing to the console *)

Lemma write_chunk_ok ipd sleep fd a n w s t : running (mach s) t → resident (mach s) t a → 0 < n < 2 ^ 31 → fs_lock s = None →
  ∃ m l, write_chunk ipd ram sleep STDOUT_FILENO fd (a, n, w) s =
      Ok (touch m (set_console (console s ++ l) s), Ret (inl (a + chunk_at a n, n - chunk_at a n, s32 (w + chunk_at a n)))) ∧
    touched (mm (mach s)) m ∧ Z.of_nat (length l) = chunk_at a n ∧ seen (mach s) a l.
Proof.
  intros Hr (p & pg & f & fr & Hi & Hl) Hn Hfs. pose proof (if_user _ _ _ _ _ _ _ Hi) as Ha.
  assert (0 < chunk_at a n ≤ n ∧ a mod 4096 + chunk_at a n ≤ 4096) as Hc by (unfold chunk_at; c_lia).
  destruct (locked_read ipd sleep (Z.to_nat (chunk_at a n)) (mach s) t a p pg f fr Hr Hi Hl) as (E1 & m & E2 & E3 & Hm); [lia|].
  rewrite Z2Nat.id in E2 by lia. set (l := bytes _ _ _) in E2.
  unfold write_chunk. rewrite (proj2 (Z.ltb_lt 0 n)) by lia. rewrite chunk_size_eq by lia.
  rewrite (run_bind _ _ _ _ _ E1). cbn [negb].
  exists m, l. split_and!; [|exact Hm|unfold l, bytes; rewrite length_map, length_seq; lia|by apply (page_seen _ t a p pg f); [|lia..]].
  rewrite acquire_bind by done. set (s1 := set_fs_lock _ _).
  rewrite (bind_ret _ _ s1 (set_console (console s ++ l) (set_mach (set_mm m (locked (mach s) f fr)) s1)) (chunk_at a n)).
  2:{ rewrite Z.eqb_refl, (run_bind _ _ s1 _ _ E2). reflexivity. }
  rewrite release_bind by done. set (s2 := set_fs_lock None _). rewrite (exec_bind (λ s, page_unlock s a) _ s2 (set_mm m (mach s)) E3).
  rewrite (proj2 (Z.ltb_ge (chunk_at a n) 0)), Z.eqb_refl by lia. cbn [negb].
  rewrite (u32_small (a + _)) by (unfold PHYS_BASE in *; c_lia). rewrite (u32_small (n - _)) by (c_unfold; lia).
  unfold touch, ret, s2, s1. destruct s. cbn in *. by subst.
Qed.

(** How a write of [n] bytes to the console ends: [k] was written. *)
Definition written (s : vm) (t : process) (a n : Z) (k : list Z) (o : outcome Z) : Prop :=
  seen s a k ∧
  match o with
  | Ret r => r = n ∧ Z.of_nat (length k) = n
  | Exit => ∃ x, a ≤ x < a + n ∧ unmapped s t x
  | PowerOff => False
  end.

Lemma write_loop ipd sleep fd t fuel : ∀ w a n s, running (mach s) t → fs_lock s = None → 0 ≤ a → 0 ≤ n → 0 ≤ w → w + n < 2 ^ 31 →
  (Z.to_nat n < fuel)%nat → (∀ x, a ≤ x < a + n → resident (mach s) t x ∨ unmapped (mach s) t x) →
  ∃ m k o, repeat_until fuel (write_chunk ipd ram sleep STDOUT_FILENO fd) (a, n, w) s =
      Ok (touch m (set_console (console s ++ k) s), match o with Ret r => Ret (w + r) | Exit => Exit | PowerOff => PowerOff end) ∧
    touched (mm (mach s)) m ∧ written (mach s) t a n k o.
Proof.
  induction fuel as [|fuel IH]; intros w a n s Hr Hfs Ha Hn Hw Hwn Hfuel Hx; [lia|]. cbn [repeat_until].
  pose proof (mc_mm _ _ _ (ru_machine _ _ Hr)) as Hinv. assert (touch (mm (mach s)) (set_console (console s ++ []) s) = s) as Es.
  { unfold touch. rewrite app_nil_r. by destruct s as [[]]. }
  destruct (Z.ltb_spec 0 n) as [Hpos|Hz].
  2:{ exists (mm (mach s)), [], (Ret 0). assert (n = 0) as -> by lia. rewrite Es, Z.add_0_r. split_and!; [done|by apply touched_refl|].
      split; [|done]. intros i Hi. cbn in Hi. lia. }
  destruct (Hx a ltac:(lia)) as [Hres|Hun].
  - destruct (write_chunk_ok ipd sleep fd a n w s t Hr Hres) as (m & l & E & Hm & Hlen & Hs); [lia|done|].
    rewrite (bind_ret _ _ _ _ _ E). destruct (running_touched (mach s) t m Hr Hm) as [Hr' _].
    assert (0 < chunk_at a n ≤ n) as Hc by (unfold chunk_at; c_lia). rewrite s32_small by (c_unfold; lia).
    set (s1 := touch m _). destruct (IH (w + chunk_at a n) (a + chunk_at a n) (n - chunk_at a n) s1 Hr') as (m2 & k & o & E2 & Hm2 & Hk & Ho);
      [done|lia|lia|lia|lia|lia| |].
    { intros x Hx'. destruct (Hx x ltac:(lia)) as [Hr2|Hu]; [left; by apply (resident_touched (mach s))|by right]. }
    exists m2, (l ++ k), (match o with Ret r => Ret (chunk_at a n + r) | Exit => Exit | PowerOff => PowerOff end).
    split_and!; [|by eapply touched_trans|].
    + rewrite E2. unfold touch. cbn. rewrite app_assoc. do 2 f_equal. destruct o; [f_equal; lia|done..].
    + split; [|destruct o; [rewrite length_app; lia| |done]].
      * apply seen_app; [done|]. rewrite Hlen. intros i Hi. rewrite <- (Hk i Hi). symmetry. by apply (user_byte_touched (mach s) t).
      * destruct Ho as (x & Hx1 & Hx2). exists x. split; [lia|exact Hx2].
  - exists (mm (mach s)), [], Exit. rewrite Es. split_and!; [|by apply touched_refl|split; [intros i Hi; cbn in Hi; lia|exists a; split; [lia|done]]].
    unfold write_chunk. rewrite (proj2 (Z.ltb_lt 0 n)) by done.
    unfold mbind, call_bind, run. rewrite (page_lock_unmapped ipd sleep false (mach s) t a) by done. cbn. by destruct s.
Qed.

(** ** The handler *)

Lemma word32_le32 w l : is_u32 w → word32 (le32 w ++ l) 0 = w.
Proof.
  intros Hw. unfold word32, half, at_. change (Z.to_nat 0) with 0%nat. change (Z.to_nat (0 + 1)) with 1%nat.
  change (Z.to_nat (0 + 2)) with 2%nat. change (Z.to_nat (0 + 2 + 1)) with 3%nat. cbn. c_lia.
Qed.

Lemma word32_skip w l k : 0 ≤ k → word32 (le32 w ++ l) (4 + k) = word32 l k.
Proof.
  intros Hk. assert (∀ j, 0 ≤ j → at_ (le32 w ++ l) (4 + j) = at_ l j) as H.
  { intros j Hj. unfold at_. rewrite lookup_total_app_r by (cbn; lia). f_equal. cbn. lia. }
  unfold word32, half. by rewrite <- !Z.add_assoc, !H by lia.
Qed.

(** The arguments, with zeros for those that the call has not got. *)
Lemma args_words args : Forall is_u32 args → (length args ≤ 3)%nat →
  let l := concat (map le32 args) ++ repeat 0 (Z.to_nat (12 - 4 * Z.of_nat (length args))) in
  word32 l 0 = nth 0 args 0 ∧ word32 l 4 = nth 1 args 0 ∧ word32 l 8 = nth 2 args 0.
Proof.
  intros Ha Hl.
  assert (∀ w l, is_u32 w → word32 (le32 w ++ l) 0 = w ∧ word32 (le32 w ++ l) 4 = word32 l 0 ∧ word32 (le32 w ++ l) 8 = word32 l 4) as H.
  { intros w l Hw. split_and!; [by apply word32_le32|exact (word32_skip w l 0 ltac:(lia))|exact (word32_skip w l 4 ltac:(lia))]. }
  destruct args as [|a [|b [|c [|]]]]; cbn [length] in Hl; [..|lia]; cbn [map concat nth]; decompose_Forall_hyps; rewrite <- ?app_assoc.
  - done.
  - destruct (H a (repeat 0 8)) as (E1 & E2 & E3); [done|]. split_and!; [exact E1|exact E2|exact E3].
  - destruct (H a (le32 b ++ repeat 0 4)) as (E1 & E2 & E3); [done|]. destruct (H b (repeat 0 4)) as (F1 & F2 & _); [done|].
    split_and!; [exact E1|by etrans|by etrans].
  - destruct (H a (le32 b ++ le32 c)) as (E1 & E2 & E3); [done|]. destruct (H b (le32 c)) as (F1 & F2 & _); [done|].
    destruct (H c []) as (G1 & _); [done|]. split_and!; [exact E1|by etrans|by etrans; [|etrans]].
Qed.

(** The process finds the words [ws] from [a] on. *)
Definition words_seen (s : vm) (a : Z) (ws : list Z) : Prop := ∀ i w, ws !! i = Some w → is_u32 w ∧ seen s (a + 4 * Z.of_nat i) (le32 w).

Section handler.
Context (ipd : Z) (sleep : vm → vm) (junk : list Z) (retval0 : Z).
Context (execute : list Z → sys → res (sys * Z)) (wait : Z → sys → res (sys * Z)).

Lemma seen_unique s a l k : seen s a l → seen s a k → length l = length k → l = k.
Proof using Type.
  intros Hl Hk E. apply list_eq_same_length with (n := length l); [done|done|]. intros i x y Hi Hx Hy.
  pose proof (Hl (Z.of_nat i) ltac:(lia)) as H1. pose proof (Hk (Z.of_nat i) ltac:(lia)) as H2. rewrite H1 in H2. injection H2 as H2.
  unfold at_ in H2. rewrite Nat2Z.id in H2. rewrite (list_lookup_total_correct _ _ _ Hx), (list_lookup_total_correct _ _ _ Hy) in H2. done.
Qed.

Lemma concat_seen s a ws : words_seen s a ws → seen s a (concat (map le32 ws)).
Proof using Type.
  revert a. induction ws as [|w ws IH]; intros a Hw; [intros i Hi; cbn in Hi; lia|]. cbn [map concat]. apply seen_app.
  - destruct (Hw 0%nat w eq_refl) as [_ H]. by rewrite Z.add_0_r in H.
  - apply IH. intros i x Hi. destruct (Hw (S i) x Hi) as [H1 H2]. split; [done|]. cbn [length le32].
    by replace (a + Z.of_nat 4 + 4 * Z.of_nat i) with (a + 4 * Z.of_nat (S i)) by lia.
Qed.

Lemma seen_words s a ws : Forall is_u32 ws → seen s a (concat (map le32 ws)) → words_seen s a ws.
Proof using Type.
  intros Hu. revert a. induction Hu as [|w ws Hw _ IH]; intros a Hs; [by intros i w Hi|]. apply seen_split in Hs as [H1 H2].
  intros [|i] x Hx; [injection Hx as <-; by rewrite Z.add_0_r|]. destruct (IH _ H2 i x Hx) as [H3 H4]. split; [done|].
  cbn [length le32] in H4. by replace (a + 4 * Z.of_nat (S i)) with (a + Z.of_nat 4 + 4 * Z.of_nat i) by lia.
Qed.

(** Copying words that are in memory. *)
Lemma copy_words a ws s t : running (mach s) t → 0 ≤ a → (∀ x, a ≤ x < a + 4 * Z.of_nat (length ws) → resident (mach s) t x) →
  words_seen (mach s) a ws →
  ∃ m, copy_in ipd ram sleep a (4 * Z.of_nat (length ws)) s = Ok (touch m s, Ret (concat (map le32 ws))) ∧ touched (mm (mach s)) m.
Proof using Type.
  intros Hr Ha Hx Hw. destruct (copy_in_spec ipd sleep a (4 * Z.of_nat (length ws)) s t Hr Ha) as (m & o & E & Hm & Ho); [lia|by intros x ?; left; apply Hx|].
  exists m. split; [|done]. rewrite E. do 2 f_equal. destruct o as [l| |]; [| |done].
  - destruct Ho as (k & -> & Hk & Hs). cbn [app]. f_equal. apply (seen_unique (mach s) a); [done|by apply concat_seen|].
    assert (∀ vs, length (concat (map le32 vs)) = (4 * length vs)%nat) as Hlen.
    { induction vs as [|v vs IH]; [done|]. cbn [map concat]. rewrite length_app, IH. cbn. lia. }
    rewrite Hlen. lia.
  - destruct Ho as (x & Hx1 & Hx2). destruct (Hx x Hx1) as (p & pg & f & fr & [I1 (I2 & (tbl & I3 & I4) & _) _ _ _] & _).
    destruct Hx2 as [?|(tbl' & T1 & T2 & _)]; [lia|]. rewrite I3 in T1. injection T1 as <-. congruence.
Qed.

Lemma words_touched s m t a ws : running s t → touched (mm s) m → words_seen s a ws → words_seen (set_mm m s) a ws.
Proof using Type.
  intros Hr Hm Hw i w Hi. destruct (Hw i w Hi) as [H1 H2]. split; [done|]. intros j Hj. by rewrite (user_byte_touched s t), H2.
Qed.

(** The handler finds the call and its arguments on the stack. *)
Lemma handler_dispatch esp nr args k func s t : running (mach s) t → 0 ≤ esp → esp + 4 < 2 ^ 32 →
  syscall_table ipd ram sleep junk retval0 execute wait !! Z.to_nat nr = Some (k, func) → k = Z.of_nat (length args) → (length args ≤ 3)%nat →
  (∀ x, esp ≤ x < esp + 4 + 4 * Z.of_nat (length args) → resident (mach s) t x) → words_seen (mach s) esp (nr :: args) →
  ∃ m, syscall_handler ipd ram sleep junk retval0 execute wait esp s =
      (r ← func (nth 0 args 0) (nth 1 args 0) (nth 2 args 0); ret (u32 r)) (touch m s) ∧ touched (mm (mach s)) m.
Proof using Type.
  intros Hr Hesp He Hf -> Hlen Hx Hw. destruct (Hw 0%nat nr eq_refl) as [Hnr _].
  destruct (copy_words esp [nr] s t Hr Hesp) as (m1 & E1 & Hm1); [intros x Hx'; apply Hx; cbn in Hx'; lia| |].
  { intros i w Hi. apply (Hw i w). destruct i; [done|done]. }
  destruct (running_touched (mach s) t m1 Hr Hm1) as [Hr1 _].
  destruct (copy_words (esp + 4) args (touch m1 s) t Hr1) as (m2 & E2 & Hm2); [lia| | |].
  { intros x Hx'. apply (resident_touched (mach s)); [done|done|]. apply Hx. lia. }
  { apply (words_touched (mach s) m1 t); [done|done|]. intros i w Hi. destruct (Hw (S i) w Hi) as [H1 H2]. split; [done|].
    by replace (esp + 4 + 4 * Z.of_nat i) with (esp + 4 * Z.of_nat (S i)) by lia. }
  exists m2. split; [|by eapply touched_trans]. unfold syscall_handler. rewrite (bind_ret _ _ _ _ _ E1).
  cbn [map concat]. rewrite word32_le32 by done. rewrite Hf.
  rewrite (bind_ret _ _ (touch m1 s) (touch m1 s) tt).
  2:{ unfold run_. rewrite (proj2 (Z.leb_le _ _)) by lia. reflexivity. }
  rewrite u32_small by (c_unfold; lia). rewrite (bind_ret _ _ _ _ _ E2). change (touch m2 (touch m1 s)) with (touch m2 s).
  assert (Forall is_u32 args) as Hu by (apply Forall_lookup_2; intros i w Hi; by destruct (Hw (S i) w Hi)).
  by destruct (args_words args Hu Hlen) as (-> & -> & ->).
Qed.

Lemma write_console_spec esp buf n s t : running (mach s) t → fs_lock s = None → 0 ≤ esp → n < 2 ^ 31 →
  (∀ x, esp ≤ x < esp + 16 → resident (mach s) t x) → words_seen (mach s) esp [9; STDOUT_FILENO; buf; n] →
  (∀ x, buf ≤ x < buf + n → resident (mach s) t x ∨ unmapped (mach s) t x) →
  ∃ m k o, syscall_handler ipd ram sleep junk retval0 execute wait esp s = Ok (touch m (set_console (console s ++ k) s), o) ∧
    touched (mm (mach s)) m ∧ written (mach s) t buf n k o.
Proof using Type.
  intros Hr Hfs Hesp Hn Hx Hw Hb. destruct (Hw 2%nat buf eq_refl) as [Hbuf _], (Hw 3%nat n eq_refl) as [Hn0 _].
  destruct (Hx (esp + 4) ltac:(lia)) as (p & pg & f & fr & Hi & _). pose proof (if_user _ _ _ _ _ _ _ Hi) as He.
  destruct (handler_dispatch esp 9 [STDOUT_FILENO; buf; n] 3 (λ a b c, sys_write ipd ram sleep (s32 a) b c) s t Hr Hesp)
    as (m1 & E & Hm1); [unfold PHYS_BASE in *; lia|done|done|cbn; lia|intros x Hx'; apply Hx; cbn in Hx'; lia|done|].
  cbn [nth] in E. destruct (running_touched (mach s) t m1 Hr Hm1) as [Hr1 _].
  destruct (write_loop ipd sleep (Fd 0 0) t (S (Z.to_nat n)) 0 buf n (touch m1 s) Hr1) as (m2 & k & o & E2 & Hm2 & Hk & Ho);
    [done|c_lia|c_lia|lia|lia|lia| |].
  { intros x Hx'. destruct (Hb x Hx') as [?|?]; [left; by apply (resident_touched (mach s))|by right]. }
  exists m2, k, o. split_and!; [|by eapply touched_trans|].
  - rewrite E. unfold mbind at 1, call_bind at 1, sys_write. change (s32 STDOUT_FILENO) with STDOUT_FILENO.
    rewrite Z.eqb_refl. cbn [negb]. rewrite (bind_ret (ret (Fd 0 0)) _ (touch m1 s) (touch m1 s) (Fd 0 0)) by done. rewrite E2.
    cbn [mbind res_bind]. destruct o as [r| |]; [|done..]. destruct Ho as [-> _]. rewrite Z.add_0_l. unfold ret. by rewrite u32_small.
  - split; [|done]. intros i Hi2. rewrite <- (Hk i Hi2). symmetry. by apply (user_byte_touched (mach s) t).
Qed.
End handler.
End mem.

(** ** The theorems *)

(** C16. [copy_in] of [n] bytes from the user address [a], each of which is in
    memory or not in the address space of the process at all: it returns what
    the process sees there, or ends the process because one of the addresses
    is bad; the kernel does not fault.  Nothing that a process can see changes. *)
Theorem copy_in_correct ipd ram pds sleep a n s t : running ram pds (mach s) t → 0 ≤ a → 0 ≤ n →
  (∀ x, a ≤ x < a + n → resident (mach s) t x ∨ unmapped (mach s) t x) →
  ∃ m o, copy_in ipd ram sleep a n s = Ok (touch m s, o) ∧ running ram pds (mach (touch m s)) t ∧
    same_contents (mach s) (mach (touch m s)) ∧
    match o with
    | Ret l => Z.of_nat (length l) = n ∧ seen (mach s) a l
    | Exit => ∃ x, a ≤ x < a + n ∧ unmapped (mach s) t x
    | PowerOff => False
    end.
Proof.
  intros Hr Ha Hn Hx. destruct (copy_in_spec ram pds ipd sleep a n s t Hr Ha Hn Hx) as (m & o & E & Hm & Ho).
  destruct (running_touched ram pds (mach s) t m Hr Hm) as [Hr' Hc]. exists m, o. split_and!; [done|done|done|].
  destruct o as [l| |]; [|done|done]. by destruct Ho as (k & -> & Hk).
Qed.

(** C7. The system call [write] to the console, from the interrupt to its result:
    with the number of the call and its arguments on the stack of the process,
    and a buffer whose pages are in memory or not in the address space at all,
    the bytes that the process sees in its buffer appear on the console and
    the call returns their number; when the buffer leaves the address space,
    what precedes the first bad page is written and the process is ended. *)
Theorem syscall_write_correct ipd ram pds sleep junk retval0 execute wait esp buf n s t : running ram pds (mach s) t → fs_lock s = None →
  0 ≤ esp → n < 2 ^ 31 → (∀ x, esp ≤ x < esp + 16 → resident (mach s) t x) →
  words_seen (mach s) esp [9; STDOUT_FILENO; buf; n] →
  (∀ x, buf ≤ x < buf + n → resident (mach s) t x ∨ unmapped (mach s) t x) →
  ∃ m k o, syscall_handler ipd ram sleep junk retval0 execute wait esp s = Ok (touch m (set_console (console s ++ k) s), o) ∧
    running ram pds (set_mm m (mach s)) t ∧ same_contents (mach s) (set_mm m (mach s)) ∧ seen (mach s) buf k ∧
    match o with
    | Ret r => r = n ∧ Z.of_nat (length k) = n
    | Exit => ∃ x, buf ≤ x < buf + n ∧ unmapped (mach s) t x
    | PowerOff => False
    end.
Proof.
  intros Hr Hfs Hesp Hn Hx Hw Hb.
  destruct (write_console_spec ram pds ipd sleep junk retval0 execute wait esp buf n s t Hr Hfs Hesp Hn Hx Hw Hb) as (m & k & o & E & Hm & Hk & Ho).
  destruct (running_touched ram pds (mach s) t m Hr Hm) as [Hr' Hc]. by exists m, k, o.
Qed.

(** A process cannot read from the keyboard: [sys_read] looks the handle
    [STDIN_FILENO] up among the open files, whose handles start at 2, and ends
    the process. *)
Theorem sys_read_stdin_exits ipd ram sleep retval0 a n s : fd_wf s → sys_read ipd ram sleep retval0 STDIN_FILENO a n s = Ok (s, Exit).
Proof.
  intros Hw. unfold sys_read, mbind, call_bind. rewrite lookup_fd_map by done.
  assert (fd_map s !! STDIN_FILENO = None) as ->; [|done]. unfold fd_map. apply not_elem_of_list_to_map_1. rewrite fds_fst. intros Hin.
  assert (STDIN_FILENO ∈ handles s) as Hin' by (apply elem_of_app; by left). apply (fw_range s Hw) in Hin'. unfold STDIN_FILENO in Hin'. lia.
Qed.

(** A process that unmaps a file stops the kernel: [sys_munmap] passes the
    handle of the mapping to [unmap] in place of its address, and the handle
    is an address in the page of the null pointer, which no process maps. *)
Theorem sys_munmap_panics s m pd : m ∈ mappings s → active_pd (mm (mach s)) = Ok pd →
  flag (Pagedir.entry (mm (mach s)) pd (u32 (mhandle m))) PTE_P = false → sys_munmap (mhandle m) s = Err EPanic.
Proof.
  intros Hm Hpd Hp. unfold sys_munmap, mbind at 1, call_bind at 1, lookup_mapping.
  destruct (list_find _ _) as [[i x]|] eqn:E.
  - cbn [mbind res_bind]. unfold mbind, call_bind, run, user_access. rewrite Hpd. cbn [mbind res_bind]. by rewrite Hp.
  - apply list_find_None in E. rewrite Forall_forall in E. by destruct (E m Hm).
Qed.

(** ** A process that writes three characters *)

Lemma activate_machine ram pds s c : machine ram pds s → 0 ≤ c < PHYS_BASE → c + PHYS_BASE < 2 ^ 32 →
  machine ram pds (set_mm (Mmu (pal (mm s)) c []) s).
Proof.
  intros [H1 H2 H3 H4 H5 H6 H7 H8 H9 H10 H11] Hc Hc2. split; try done.
  - by apply (vm_inv_pal (mm s)).
  - intros p pg Hp. destruct (H8 p pg Hp). by split.
Qed.

(** Memory that changes inside a frame. *)
Lemma write_frame ram pds s f fr m : machine ram pds s → frames s !! f = Some fr → (∀ k, is_u8 (m k)) →
  (∀ k, k < Vm.base fr ∨ Vm.base fr + 4096 ≤ k → m k = memory_of s k) →
  machine ram pds (set_memory m s) ∧
  (∀ pd v, pd ∈ pds → 0 ≤ v < PHYS_BASE → Pagedir.entry (mm (set_memory m s)) pd v = Pagedir.entry (mm s) pd v) ∧
  ∀ q qg j, pages s !! q = Some qg → pframe qg ≠ Some f → 0 ≤ j < 4096 → contents (set_memory m s) q j = contents s q j.
Proof.
  intros Hs Hf H8 Hm. pose proof Hs as [H1 H2 H3 H4 H5 H6 H7 P8 H9 H10 H11].
  destruct (data_write (mm s) pds (Vm.base fr) m H1 (H6 f fr Hf) H8 Hm) as (Hinv & Hdata & Hent). split_and!.
  - split; try done.
    + intros g gr Hg. apply Hdata. by apply (H6 g).
    + intros q qg Hq. destruct (P8 q qg Hq). by split.
  - exact Hent.
  - intros q qg j Hq Hne Hj. unfold contents. cbn [set_memory set_mm pages frames]. rewrite Hq. destruct (pframe qg) as [g|] eqn:Eg; [|done].
    destruct (frames s !! g) as [gr|] eqn:Hg; [|done]. change (memory_of (set_memory m s)) with m. apply Hm.
    destruct (H6 f fr Hf) as ((Ha & _) & _), (H6 g gr Hg) as ((Hb & _) & _).
    assert (Vm.base gr ≠ Vm.base fr) as Hb2 by (intros E; apply Hne; f_equal; by eapply H7).
    pose proof (pages_apart _ _ Hb Ha Hb2). lia.
Qed.

Definition demo_stack_words : list Z := [9; 1; PHYS_BASE - 80; 3].
Definition demo_bytes : list Z := concat (map le32 demo_stack_words) ++ [104; 105; 10].
(** The words at [PHYS_BASE - 96], the characters at [PHYS_BASE - 80]. *)
Definition demo_call_vm : vm := set_memory (put_bytes (memory_of demo_in) (3222425600 + 4000) demo_bytes)
  (set_mm (Mmu (pal (mm demo_in)) (demo_pd - PHYS_BASE) []) demo_in).
Definition demo_caller : process := Process demo_pd (Some {[ PHYS_BASE - 4096 := 1 ]}) PHYS_BASE.
Definition demo_call : sys := Sys demo_call_vm [] [] 2 (-1) None [] [].

Lemma demo_in_files : files demo_in = ∅ ∧ next_page demo_in = 2.
Proof. vm_compute. split; reflexivity. Qed.

Lemma demo_call_facts : procs demo_in !! 7 = Some demo_caller ∧ xlate (Pagedir.entry (mm demo_call_vm) demo_pd (PHYS_BASE - 4096)) = Some (3222425600, true).
Proof. vm_compute. split; reflexivity. Qed.

Lemma put_bytes_in m a l k : a ≤ k < a + Z.of_nat (length l) → put_bytes m a l k = at_ l (k - a).
Proof. intros Hk. unfold put_bytes. by rewrite (proj2 (Z.leb_le _ _)), (proj2 (Z.ltb_lt _ _)) by lia. Qed.
Lemma put_bytes_u8 m a l k : (∀ k, is_u8 (m k)) → Forall is_u8 l → is_u8 (put_bytes m a l k).
Proof.
  intros Hm Hl. assert (k < a ∨ a + Z.of_nat (length l) ≤ k ∨ a ≤ k < a + Z.of_nat (length l)) as [H|[H|H]] by lia.
  1,2: by rewrite put_bytes_out by lia. rewrite put_bytes_in by done. unfold at_.
  apply (Forall_lookup_1 is_u8 l (Z.to_nat (k - a))); [done|]. apply list_lookup_lookup_total_lt. lia.
Qed.

(** A state with other memory in a frame, and another directory. *)
Lemma call_parts ram pds s f fr c a l : machine ram pds s → frames s !! f = Some fr → 0 ≤ c < PHYS_BASE → c + PHYS_BASE < 2 ^ 32 →
  Forall is_u8 l → Vm.base fr ≤ a → a + Z.of_nat (length l) ≤ Vm.base fr + 4096 →
  let m := put_bytes (memory_of s) a l in let s' := set_memory m (set_mm (Mmu (pal (mm s)) c []) s) in
  machine ram pds s' ∧ frames s' = frames s ∧ pages s' = pages s ∧ cur s' = cur s ∧ procs s' = procs s ∧ cr3 (mm s') = c ∧
  files s' = files s ∧ next_page s' = next_page s ∧ (∀ j, 0 ≤ j < Z.of_nat (length l) → memory_of s' (a + j) = at_ l j).
Proof.
  intros Hs Hf Hc Hc2 Hl Ha Hb m s'. split_and!; try done.
  - apply (write_frame ram pds _ f fr m (activate_machine ram pds s c Hs Hc Hc2)); [done| |].
    + intros k. apply put_bytes_u8; [apply (mc_mm _ _ _ Hs)|done].
    + intros k Hk. apply put_bytes_out. lia.
  - intros j Hj. change (memory_of s') with m. unfold m. rewrite put_bytes_in by lia. f_equal. lia.
Qed.

Lemma demo_pd_range : 0 ≤ demo_pd - PHYS_BASE < PHYS_BASE ∧ demo_pd - PHYS_BASE + PHYS_BASE < 2 ^ 32.
Proof. rewrite demo_pd_eq. unfold PHYS_BASE. lia. Qed.

#[local] Opaque demo_in demo_pd demo_ipd.

Lemma demo_parts : machine 300 demo_dirs demo_call_vm ∧ frames demo_call_vm = [Frame None 3222425600 1] ∧
  pages demo_call_vm = {[ 1 := demo_page ]} ∧ cur demo_call_vm = 7 ∧ procs demo_call_vm = procs demo_in ∧
  cr3 (mm demo_call_vm) = demo_pd - PHYS_BASE ∧ files demo_call_vm = ∅ ∧ next_page demo_call_vm = 2 ∧
  (∀ j, 0 ≤ j < 19 → memory_of demo_call_vm (3222425600 + 4000 + j) = at_ demo_bytes j).
Proof.
  destruct demo_in_parts as (H1 & H2 & H3 & _), demo_pd_range as [R1 R2], demo_in_files as [F1 F2]. rewrite <- H1, <- H2, <- H3, <- F1, <- F2.
  apply (call_parts 300 demo_dirs demo_in 0 (Frame None 3222425600 1)); [exact demo_in_machine|by rewrite H1|exact R1|exact R2| |cbn [Vm.base]; lia|cbn [Vm.base]; vm_compute; discriminate].
  apply (bool_decide_unpack _). vm_compute. exact I.
Qed.

#[local] Opaque demo_call_vm.

Lemma demo_running : running 300 demo_dirs demo_call_vm demo_caller.
Proof.
  destruct demo_parts as (P0 & P1 & P2 & P3 & P4 & P5 & _). split; [exact P0|rewrite P4, P3; apply demo_call_facts|apply elem_of_cons; by left|].
  rewrite P5. cbn [demo_caller pagedir]. lia.
Qed.

Lemma my_page_intro s t tbl a p pg : procs s !! cur s = Some t → ptable t = Some tbl → tbl !! pg_round_down a = Some p →
  pages s !! p = Some pg → addr pg = pg_round_down a → thread pg = cur s → my_page s t a p pg.
Proof. intros. split_and!; eauto. Qed.

Lemma demo_in_frame x : PHYS_BASE - 4096 ≤ x < PHYS_BASE → in_frame demo_call_vm demo_caller x 1 demo_page 0 (Frame None 3222425600 1).
Proof.
  intros Hx. destruct demo_parts as (_ & P1 & P2 & P3 & P4 & P5 & _), demo_call_facts as [F1 F2].
  assert (pg_round_down x = PHYS_BASE - 4096) as E by (rewrite pg_round_down_eq by (unfold PHYS_BASE in *; c_lia); unfold PHYS_BASE in *; c_lia).
  split.
  - unfold PHYS_BASE in *. lia.
  - apply (my_page_intro _ _ {[ PHYS_BASE - 4096 := 1 ]}); [rewrite P4, P3; exact F1|reflexivity|rewrite E; apply lookup_singleton_eq|
      rewrite P2; apply lookup_singleton_eq|rewrite E; reflexivity|rewrite P3; reflexivity].
  - reflexivity.
  - rewrite P1. reflexivity.
  - rewrite (entry_page _ _ x (PHYS_BASE - 4096)) by (unfold PHYS_BASE in *; c_lia). exact F2.
Qed.

Lemma demo_resident x : PHYS_BASE - 4096 ≤ x < PHYS_BASE → resident demo_call_vm demo_caller x.
Proof. intros Hx. exists 1, demo_page, 0%nat, (Frame None 3222425600 1). split; [by apply demo_in_frame|reflexivity]. Qed.

Lemma demo_seen : seen demo_call_vm (PHYS_BASE - 96) demo_bytes.
Proof.
  intros i Hi. change (Z.of_nat (length demo_bytes)) with 19 in Hi. destruct demo_parts as (_ & _ & _ & _ & _ & _ & _ & _ & P6).
  destruct (in_frame_byte demo_call_vm demo_caller _ _ _ _ _ (PHYS_BASE - 96 + i) (demo_in_frame (PHYS_BASE - 96 + i) ltac:(lia))) as [-> _];
    [unfold PHYS_BASE; c_lia|done|].
  replace ((PHYS_BASE - 96 + i) mod 4096) with (4000 + i) by (unfold PHYS_BASE; c_lia). cbn [Vm.base].
  rewrite Z.add_assoc. f_equal. apply P6. exact Hi.
Qed.

Lemma demo_words : words_seen demo_call_vm (PHYS_BASE - 96) demo_stack_words ∧ seen demo_call_vm (PHYS_BASE - 80) [104; 105; 10].
Proof.
  destruct (seen_split _ _ _ _ demo_seen) as [H1 H2]. split; [|exact H2]. apply seen_words; [|exact H1].
  apply (bool_decide_unpack _). vm_compute. exact I.
Qed.

Lemma copy_in_witness : ∃ m, copy_in demo_ipd 300 (λ s, s) (PHYS_BASE - 80) 3 demo_call = Ok (touch m demo_call, Ret [104; 105; 10]).
Proof.
  destruct demo_words as [_ Hs]. destruct (copy_in_correct demo_ipd 300 demo_dirs (λ s, s) (PHYS_BASE - 80) 3 demo_call demo_caller demo_running)
    as (m & o & E & _ & _ & Ho).
  - vm_compute. discriminate.
  - lia.
  - intros x Hx. left. apply demo_resident. lia.
  - exists m. rewrite E. destruct o as [l| |]; [|destruct Ho as (x & Hx & [?|(tbl & T1 & T2 & _)]); [lia|]|destruct Ho].
    + destruct Ho as [Hl Hsl]. f_equal. f_equal. f_equal. apply (seen_unique demo_call_vm (PHYS_BASE - 80)); [exact Hsl|exact Hs|cbn; lia].
    + destruct (demo_resident x) as (p & pg & f & fr & [_ (_ & (tbl' & T3 & T4) & _) _ _ _] & _); [lia|].
      rewrite T1 in T3. injection T3 as ->. rewrite T4 in T2. discriminate T2.
Defined.

Lemma write_witness : ∃ m, syscall_handler demo_ipd 300 (λ s, s) [] 0 (λ _ _, Err EBlock) (λ _ _, Err EBlock) (PHYS_BASE - 96) demo_call =
  Ok (touch m (set_console [104; 105; 10] demo_call), Ret 3).
Proof.
  destruct demo_words as [Hw Hs].
  destruct (syscall_write_correct demo_ipd 300 demo_dirs (λ s, s) [] 0 (λ _ _, Err EBlock) (λ _ _, Err EBlock) (PHYS_BASE - 96) (PHYS_BASE - 80) 3
    demo_call demo_caller demo_running) as (m & k & o & E & _ & _ & Hk & Ho).
  - reflexivity.
  - vm_compute. discriminate.
  - lia.
  - intros x Hx. apply demo_resident. lia.
  - exact Hw.
  - intros x Hx. left. apply demo_resident. lia.
  - exists m. rewrite E. destruct o as [r| |]; [|destruct Ho as (x & Hx & [?|(tbl & T1 & T2 & _)]); [lia|]|destruct Ho].
    + destruct Ho as [-> Hl]. rewrite (seen_unique demo_call_vm (PHYS_BASE - 80) k [104; 105; 10] Hk Hs) by (cbn; lia). reflexivity.
    + destruct (demo_resident x) as (p & pg & f & fr & [_ (_ & (tbl' & T3 & T4) & _) _ _ _] & _); [lia|].
      rewrite T1 in T3. injection T3 as ->. rewrite T4 in T2. discriminate T2.
Defined.

(** *** The witnesses for SyscallFd *)

(** A process with an open file and a mapped one. *)
Definition demo_files_sys : sys :=
  Sys (set_files {[ 5 := File 0 0 false; 6 := File 0 0 false ]} (set_fsys demo_fs (set_heap 7 [] demo_vm)))
    [Fd 5 2] [Mapping 3 6 268435456 0] 4 (-1) None [] [].

Lemma files_wf v : next_page v = 7 → files v = {[ 5 := File 0 0 false; 6 := File 0 0 false ]} →
  fd_wf (Sys v [Fd 5 2] [Mapping 3 6 268435456 0] 4 (-1) None [] []).
Proof.
  intros Hn Hf. split; unfold handles, my_files; cbn [fds mappings map app next_handle mach fd_file handle mfile mhandle].
  - apply (bool_decide_unpack _). reflexivity.
  - intros h [->|[->|Hh%not_elem_of_nil]%elem_of_cons]%elem_of_cons; done || lia.
  - lia.
  - apply (bool_decide_unpack _). reflexivity.
  - intros f [->|[->|Hh%not_elem_of_nil]%elem_of_cons]%elem_of_cons; [by rewrite Hf|by rewrite Hf|done].
  - intros f Hle. rewrite Hn in Hle. rewrite Hf, lookup_insert_ne, lookup_singleton_ne by lia. done.
  - by rewrite Hn.
Qed.

Lemma demo_files_wf : fd_wf demo_files_sys.
Proof. apply files_wf; reflexivity. Qed.

Lemma demo_exit_ok : match syscall_exit demo_ipd demo_files_sys with Ok (_, Ret _) => true | _ => false end = true.
Proof. vm_compute. reflexivity. Qed.

(** The process closes its file: the number of the call and the handle are on
    its stack. *)
Definition demo_close_sys : sys :=
  Sys (set_files {[ 5 := File 0 0 false; 6 := File 0 0 false ]} (set_fsys demo_fs (set_heap 7 []
        (set_memory (put_bytes (memory_of demo_in) (3222425600 + 4000) (le32 12 ++ le32 2))
          (set_mm (Mmu (pal (mm demo_in)) (demo_pd - PHYS_BASE) []) demo_in)))))
    [Fd 5 2] [Mapping 3 6 268435456 0] 4 (-1) None [] [].
Definition demo_close : res (sys * outcome Z) :=
  syscall_handler demo_ipd 300 (λ s, s) [] 0 (λ _ s, Ok (s, 8)) (λ _ s, Ok (s, -1)) (PHYS_BASE - 96) demo_close_sys.

Lemma demo_close_ok : match demo_close with Ok (s', Ret r) => (r =? 0) && bool_decide (length (fds s') = 0%nat) | _ => false end = true ∧
  match copy_in demo_ipd 300 (λ s, s) (PHYS_BASE - 96) 4 demo_close_sys with Ok (_, Ret l) => word32 l 0 | _ => 0 end = 12.
Proof. vm_compute. split; reflexivity. Qed.

Lemma demo_close_wf : fd_wf demo_close_sys.
Proof. apply files_wf; reflexivity. Qed.

Lemma keeps_files_witness : ∃ s' o, demo_close = Ok (s', o) ∧ fds s' = [] ∧ fd_wf s'.
Proof.
  destruct demo_close_ok as [H1 H2]. destruct demo_close as [[s' o]|e] eqn:E; [|discriminate H1]. exists s', o. split; [reflexivity|]. split.
  - destruct o; [|discriminate H1..]. apply andb_prop in H1 as [_ H1%bool_decide_eq_true]. by apply nil_length_inv.
  - refine (syscall_keeps_files demo_ipd 300 (λ s, s) [] 0 (λ _ s, Ok (s, 8)) (λ _ s, Ok (s, -1)) (PHYS_BASE - 96) demo_close_sys s' o
      _ demo_close_wf _ _ E).
    + intros s. reflexivity.
    + vm_compute. reflexivity.
    + intros s1 l Hl. rewrite Hl in H2. rewrite H2. split; discriminate.
Defined.

#[local] Opaque demo_vm.

Lemma exit_files_witness : ∃ s', syscall_exit demo_ipd demo_files_sys = Ok (s', Ret tt) ∧ files (mach s') !! 5 = None ∧ is_Some (files (mach s') !! 6).
Proof.
  pose proof demo_exit_ok as H. destruct (syscall_exit demo_ipd demo_files_sys) as [[s' [[]| |]]|e] eqn:E; [|discriminate H..].
  destruct (syscall_exit_files demo_ipd demo_files_sys s' demo_files_wf E) as [H1 H2]. exists s'. split; [reflexivity|]. split.
  - apply (H1 (Fd 5 2)). apply elem_of_cons. left. reflexivity.
  - apply (H2 (Mapping 3 6 268435456 0)). apply elem_of_cons. left. reflexivity.
Defined.

Lemma fd_table_witness : lookup_fd 2 demo_files_sys = Ok (demo_files_sys, Ret (Fd 5 2)) ∧ lookup_fd 4 demo_files_sys = Ok (demo_files_sys, Exit).
Proof.
  destruct (fd_table_refines_map demo_files_sys 2 demo_files_wf) as [H1 _].
  destruct (fd_table_refines_map demo_files_sys 4 demo_files_wf) as [H2 _]. split; [exact H1|exact H2].
Defined.

Lemma read_stdin_witness : sys_read demo_ipd 300 (λ s, s) 0 STDIN_FILENO (PHYS_BASE - 80) 3 demo_files_sys = Ok (demo_files_sys, Exit).
Proof. apply (sys_read_stdin_exits demo_ipd 300 (λ s, s) 0 (PHYS_BASE - 80) 3 demo_files_sys demo_files_wf). Defined.

Lemma demo_null_page : active_pd (mm demo_vm) = Ok demo_ipd ∧ flag (Pagedir.entry (mm demo_vm) demo_ipd (u32 3)) PTE_P = false.
Proof. vm_compute. split; reflexivity. Qed.

Lemma munmap_witness : sys_munmap 3 demo_files_sys = Err EPanic.
Proof.
  destruct demo_null_page as [H1 H2].
  apply (sys_munmap_panics demo_files_sys (Mapping 3 6 268435456 0) demo_ipd); [apply elem_of_cons; left; reflexivity|exact H1|exact H2].
Defined.
