(* ===== verification/SyscallLock.v ===== *)
(** * userprog/syscall.c: the lock of the file system

    Every system call, page fault and exception that returns to the process,
    and every one that ends it, leaves [fs_lock] to the others. *)

From stdpp Require Import gmap.
From S2P Require Import Prelude Vaddr Pagedir Inode File Directory Filesys Vm Load Syscall SyscallFd VmProps SyscallMem.

(** A call that does not end the process. *)
Class Returns {A} (m : call A) : Prop := returns_ok : ∀ s s' o, m s = Ok (s', o) → ∃ a, o = Ret a.

(** [Free me m]: the thread [me] does not hold the lock after [m] if it did
    not before.  [Crit me m]: it does not hold it after [m], even if it did. *)
Class Free {A} (me : Z) (m : call A) : Prop :=
  free_ok : ∀ s s' o, fs_lock s ≠ Some me → m s = Ok (s', o) → fs_lock s' ≠ Some me.
Class Crit {A} (me : Z) (m : call A) : Prop := crit_ok : ∀ s s' o, m s = Ok (s', o) → fs_lock s' ≠ Some me.

(** A call that does not touch the lock. *)
Class Same {A} (m : call A) : Prop := same_ok : ∀ s s' o, m s = Ok (s', o) → fs_lock s' = fs_lock s.

#[export] Instance bind_returns {A B} (m : call A) (k : A → call B) : Returns m → (∀ a, Returns (k a)) → Returns (m ≫= k).
Proof.
  intros Hm Hk s s' o H. apply call_bind_ok in H as (s1 & o1 & H1 & H2).
  destruct (Hm _ _ _ H1) as [a ->]. by eapply Hk.
Qed.
#[export] Instance ret_returns {A} (a : A) : Returns (ret a).
Proof. intros s s' o [= <- <-]. eauto. Qed.
#[export] Instance fail_returns {A} e : Returns (A := A) (fail e).
Proof. by intros s s' o H. Qed.
#[export] Instance gets_returns {A} (f : sys → A) : Returns (gets f).
Proof. intros s s' o [= <- <-]. eauto. Qed.
#[export] Instance modify_returns f : Returns (modify f).
Proof. intros s s' o [= <- <-]. eauto. Qed.
#[export] Instance run_returns {A} (f : vm → res (vm * A)) : Returns (run f).
Proof. intros s s' o H. unfold run in H. inv_res. destruct a. inv_res. eauto. Qed.
#[export] Instance run__returns {A} (f : vm → res A) : Returns (run_ f).
Proof. intros s s' o H. unfold run_ in H. inv_res. eauto. Qed.
#[export] Instance exec_returns f : Returns (exec f).
Proof. intros s s' o H. unfold exec in H. inv_res. eauto. Qed.
#[export] Instance other_returns {A} (f : sys → res (sys * A)) : Returns (other f).
Proof. intros s s' o H. unfold other in H. inv_res. destruct a. inv_res. eauto. Qed.

#[export] Instance same_free {A} me (m : call A) : Same m → Free me m | 50.
Proof. intros Hm s s' o Hs H. by rewrite (Hm _ _ _ H). Qed.
#[export] Instance bind_free {A B} me (m : call A) (k : A → call B) : Free me m → (∀ a, Free me (k a)) → Free me (m ≫= k) | 10.
Proof.
  intros Hm Hk s s' o Hs H. apply call_bind_ok in H as (s1 & o1 & H1 & H2). pose proof (Hm _ _ _ Hs H1) as Q.
  destruct o1 as [a| |]; [by eapply Hk|by destruct H2 as [-> _]..].
Qed.
#[export] Instance acquire_free {B} me (k : unit → call B) : (∀ a, Crit me (k a)) → Free me (acquire_fs ≫= k) | 1.
Proof.
  intros Hk s s' o Hs H. apply call_bind_ok in H as (s1 & o1 & H1 & H2).
  assert (∃ a, o1 = Ret a) as [a ->] by (unfold acquire_fs in H1; inv_res; eauto). by eapply Hk.
Qed.
#[export] Instance bind_crit {A B} me (m : call A) (k : A → call B) : Returns m → (∀ a, Crit me (k a)) → Crit me (m ≫= k) | 10.
Proof.
  intros Hm Hk s s' o H. apply call_bind_ok in H as (s1 & o1 & H1 & H2). destruct (Hm _ _ _ H1) as [a ->]. by eapply Hk.
Qed.
#[export] Instance release_crit {B} me (k : unit → call B) : (∀ a, Free me (k a)) → Crit me (release_fs ≫= k) | 1.
Proof.
  intros Hk s s' o H. apply call_bind_ok in H as (s1 & o1 & H1 & H2). unfold release_fs in H1. inv_res.
  eapply Hk; [|done]. cbn. unfold lock_release in Hres. inv_res. done.
Qed.

#[export] Instance ret_same {A} (a : A) : Same (ret a).
Proof. by intros s s' o [= <- <-]. Qed.
#[export] Instance exit_same {A} : Same (A := A) thread_exit.
Proof. by intros s s' o [= <- <-]. Qed.
#[export] Instance fail_same {A} e : Same (A := A) (fail e).
Proof. by intros s s' o H. Qed.
#[export] Instance gets_same {A} (f : sys → A) : Same (gets f).
Proof. by intros s s' o [= <- <-]. Qed.
#[export] Instance modify_same f : (∀ s, fs_lock (f s) = fs_lock s) → Same (modify f).
Proof. intros Hf s s' o [= <- <-]. apply Hf. Qed.
#[export] Instance run_same {A} (f : vm → res (vm * A)) : Same (run f).
Proof. intros s s' o H. unfold run in H. inv_res. destruct a. by inv_res. Qed.
#[export] Instance run__same {A} (f : vm → res A) : Same (run_ f).
Proof. intros s s' o H. unfold run_ in H. by inv_res. Qed.
#[export] Instance exec_same f : Same (exec f).
Proof. intros s s' o H. unfold exec in H. by inv_res. Qed.
#[export] Instance lookup_fd_same h : Same (lookup_fd h).
Proof. intros s s' o H. unfold lookup_fd in H. by repeat case_match; inv_res. Qed.
#[export] Instance lookup_mapping_same h : Same (lookup_mapping h).
Proof. intros s s' o H. unfold lookup_mapping in H. by repeat case_match; inv_res. Qed.
#[export] Instance input_getc_same : Same input_getc.
Proof. intros s s' o H. unfold input_getc in H. by case_match; inv_res. Qed.
#[export] Instance halt_same : Same sys_halt.
Proof. by intros s s' o [= <- <-]. Qed.

#[export] Instance repeat_free {S R} me n (body : S → call (S + R)) x :
  (∀ x, Free me (body x)) → Free me (repeat_until n body x).
Proof.
  intros Hb. revert x. induction n as [|n IH]; intros x; cbn [repeat_until]; [apply _|].
  apply bind_free; [apply _|]. intros []; apply _.
Qed.
#[export] Instance for_each_free me n lo (body : Z → call unit) : (∀ i, Free me (body i)) → Free me (for_each n lo body).
Proof. intros Hb. revert lo. induction n as [|n IH]; intros lo; cbn [for_each]; apply _. Qed.

(** [lock_tac] follows a call through its binds, loops and branches. *)
Ltac lock_tac :=
  repeat first
    [ progress cbv beta
    | match goal with
      | |- ∀ _, _ => intros ?
      | |- Free _ (match ?x with _ => _ end) => destruct x
      | |- Crit _ (match ?x with _ => _ end) => destruct x
      | |- Returns (match ?x with _ => _ end) => destruct x
      | |- Free _ (acquire_fs ≫= _) => apply acquire_free
      | |- Crit _ (release_fs ≫= _) => apply release_crit
      | |- Crit _ (_ ≫= _) => apply bind_crit
      | |- Free _ (_ ≫= _) => apply bind_free
      | |- Free _ (repeat_until _ _ _) => apply repeat_free
      | |- Free _ (for_each _ _ _) => apply for_each_free
      | |- Returns (_ ≫= _) => apply bind_returns
      end
    | exact _
    | apply same_free, modify_same; reflexivity ].

#[local] Instance kstring_returns ks : Returns (kstring ks).
Proof. apply _. Qed.
#[local] Instance file_of_returns fd : Returns (file_of fd).
Proof. apply _. Qed.
#[local] Instance update_file_returns fd f : Returns (update_file fd f).
Proof. apply _. Qed.
#[local] Instance add_fd_returns f : Returns (add_fd f).
Proof. unfold add_fd. lock_tac. Qed.
#[local] Instance read_user_returns fd a n : Returns (read_user fd a n).
Proof. unfold read_user. lock_tac. Qed.
#[local] Instance write_user_returns fd a n : Returns (write_user fd a n).
Proof. unfold write_user. lock_tac. Qed.
#[local] Instance putbuf_returns l : Returns (putbuf l).
Proof. apply _. Qed.

Section calls.
Context (me ipd ram : Z) (sleep : vm → vm) (junk : list Z) (retval0 : Z).
Context (execute : list Z → sys → res (sys * Z)) (wait : Z → sys → res (sys * Z)).
Context (Hwait : ∀ child, Free me (other (wait child))).

#[local] Instance copy_in_free a n : Free me (copy_in ipd ram sleep a n).
Proof. unfold copy_in. apply repeat_free. intros [[dst usrc] size]. unfold copy_chunk. lock_tac. Qed.

#[local] Instance copy_in_string_free a : Free me (copy_in_string ipd ram sleep a).
Proof. unfold copy_in_string, copy_page_string. lock_tac. Qed.

#[local] Instance map_unmap_free m : Free me (unmap ipd m).
Proof. unfold unmap, write_mapped. lock_tac. Qed.

Lemma table_free k func a b c :
  (k, func) ∈ syscall_table ipd ram sleep junk retval0 execute wait → Free me (func a b c).
Proof using Hwait.
  unfold syscall_table. intros H.
  repeat (apply elem_of_cons in H as [[= -> ->]|H]); [..|by apply not_elem_of_nil in H].
  - lock_tac.
  - unfold sys_exit. lock_tac.
  - unfold sys_exec. lock_tac.
  - apply Hwait.
  - unfold sys_create. lock_tac.
  - unfold sys_remove. lock_tac.
  - unfold sys_open. lock_tac.
  - unfold sys_filesize. lock_tac.
  - unfold sys_read. lock_tac. unfold read_chunk. lock_tac.
  - unfold sys_write. lock_tac. unfold write_chunk. lock_tac.
  - unfold sys_seek. lock_tac.
  - unfold sys_tell. lock_tac.
  - unfold sys_close. lock_tac.
  - unfold sys_mmap, map_pages. lock_tac.
  - unfold sys_munmap. lock_tac.
Qed.

#[local] Instance handler_free esp : Free me (syscall_handler ipd ram sleep junk retval0 execute wait esp).
Proof using Hwait.
  unfold syscall_handler. apply bind_free; [apply _|]. intros l. cbv zeta.
  destruct (_ !! _) as [[k func]|] eqn:Hf; [|apply _]. apply list_elem_of_lookup_2 in Hf.
  pose proof (λ a b c, table_free k func a b c Hf). lock_tac.
Qed.

Lemma interrupt_free f : Free me (intr_handler ipd ram sleep junk retval0 execute wait f).
Proof using Hwait. unfold intr_handler, page_fault, kill. lock_tac. Qed.

Lemma end_process_free bin : Free me (end_process ipd bin).
Proof.
  assert (∀ l, Free me (close_all l)) by (induction l; cbn [close_all]; lock_tac).
  assert (∀ l, Free me (unmap_all ipd l)) by (induction l; cbn [unmap_all]; lock_tac).
  unfold end_process, syscall_exit. lock_tac.
Qed.
End calls.

(** C12. When an interrupt of the process returns, and when it ends the process, the
    thread does not hold the lock of the file system; nor does it after it has
    closed the files of the process.  [process_wait] is assumed to return
    without a lock that the thread did not have. *)
Theorem fs_lock_released ipd ram sleep junk retval0 execute wait bin f s s' o :
  (∀ child s1 s2 a, fs_lock s1 ≠ Some (cur (mach s)) → wait child s1 = Ok (s2, a) → fs_lock s2 ≠ Some (cur (mach s))) →
  fs_lock s ≠ Some (cur (mach s)) →
  intr_handler ipd ram sleep junk retval0 execute wait f s = Ok (s', o) →
  fs_lock s' ≠ Some (cur (mach s)) ∧
  ∀ s'' o', end_process ipd bin s' = Ok (s'', o') → fs_lock s'' ≠ Some (cur (mach s)).
Proof.
  intros Hw Hs H. assert (fs_lock s' ≠ Some (cur (mach s))) as Hs'.
  { eapply interrupt_free; [|exact Hs|exact H]. intros child s1 s2 o1 H1 H2. unfold other in H2. inv_res.
    destruct a as [s3 a]. inv_res. by eapply Hw. }
  split; [done|]. intros s'' o' He. by eapply end_process_free.
Qed.

(** The process divides by zero while it has a file open. *)
Lemma lock_witness : ∃ s', intr_handler demo_ipd 300 (λ s, s) [] 0 (λ _ _, Err EBlock) (λ _ _, Err EBlock)
  (IntrFrame 0 PHYS_BASE 0 SEL_UCSEG 0 0) demo_files_sys = Ok (s', Exit) ∧ fs_lock s' ≠ Some (cur (mach demo_files_sys)).
Proof.
  assert (is_Some (procs (mach demo_files_sys) !! cur (mach demo_files_sys))) as [t Ht] by (vm_compute; eauto).
  set (s' := set_mach (set_process (Process (pagedir t) (ptable t) PHYS_BASE) (mach demo_files_sys)) demo_files_sys).
  assert (intr_handler demo_ipd 300 (λ s, s) [] 0 (λ _ _, Err EBlock) (λ _ _, Err EBlock)
    (IntrFrame 0 PHYS_BASE 0 SEL_UCSEG 0 0) demo_files_sys = Ok (s', Exit)) as E.
  { unfold intr_handler, exec, mbind at 1, call_bind. rewrite Ht. reflexivity. }
  exists s'. split; [exact E|].
  apply (fs_lock_released demo_ipd 300 (λ s, s) [] 0 (λ _ _, Err EBlock) (λ _ _, Err EBlock) 0
    (IntrFrame 0 PHYS_BASE 0 SEL_UCSEG 0 0) demo_files_sys s' Exit); [|discriminate|exact E].
  intros child s1 s2 a _ H. discriminate H.
Defined.
