(* ===== verification/SyscallFile.v ===== *)
(** * userprog/syscall.c: files and the memory of a process

    [sys_read] and [sys_write] lock the pages of the buffer one after the
    other, have the file system copy into or from each of them, and let them
    go: the process finds the bytes of the file in its buffer, the file gets
    what the process sees there, and what was written is read back. *)

From stdpp Require Import gmap.
From S2P Require Import Prelude Vaddr Palloc Pagedir Block Inode File Vm VmSwap VmPaging VmProps.
From S2P Require Import Load LoadProps Syscall SyscallMem.

Section files.
Context (ram : Z) (pds : list Z).
Abbreviation running := (SyscallMem.running ram pds).
Abbreviation machine := (VmPaging.machine ram pds).

(** ** Stores into the memory of the process *)

Definition mapped (s : vm) (t : process) (a : Z) : Prop := ∃ p pg f fr, in_frame s t a p pg f fr.
Definition writable (s : vm) (t : process) (a : Z) : Prop := ∃ p pg f fr, in_frame s t a p pg f fr ∧ lock fr = None ∧ read_only pg = false.

(** [s'] is [s] after [l] was stored at [a]: at the other addresses in memory
    the process sees what it saw before. *)
Record stored (s s' : vm) (t : process) (a : Z) (l : list Z) : Prop := {
  so_running : running s' t;
  so_frames : frames s' = frames s;
  so_pages : pages s' = pages s;
  so_procs : procs s' = procs s;
  so_cur : cur s' = cur s;
  so_xlate v : 0 ≤ v < PHYS_BASE → xlate (Pagedir.entry (mm s') (pagedir t) v) = xlate (Pagedir.entry (mm s) (pagedir t) v);
  so_seen : seen s' a l;
  so_other x : mapped s t x → x < a ∨ a + Z.of_nat (length l) ≤ x → user_byte s' x = user_byte s x;
}.

Lemma stored_in_frame s s' t a l x p pg f fr : stored s s' t a l → in_frame s t x p pg f fr → in_frame s' t x p pg f fr.
Proof.
  intros [_ S2 S3 S4 S5 S6 _ _] [I1 I2 I3 I4 I5].
  split; [done|unfold my_page; by rewrite S3, S4, S5|done|by rewrite S2|by rewrite S6].
Qed.
Lemma stored_mapped s s' t a l x : stored s s' t a l → mapped s t x → mapped s' t x.
Proof. intros Hs (p & pg & f & fr & H). exists p, pg, f, fr. by eapply stored_in_frame. Qed.
Lemma stored_writable s s' t a l x : stored s s' t a l → writable s t x → writable s' t x.
Proof. intros Hs (p & pg & f & fr & H & H2). exists p, pg, f, fr. split; [by eapply stored_in_frame|done]. Qed.
Lemma writable_mapped s t x : writable s t x → mapped s t x.
Proof. intros (p & pg & f & fr & H & _). by exists p, pg, f, fr. Qed.

Lemma writable_resident v t x : writable v t x → resident v t x.
Proof. intros (p & pg & f & fr & H & Hl & _). by exists p, pg, f, fr. Qed.

Lemma stored_trans s1 s2 s3 t a l k : stored s1 s2 t a l → stored s2 s3 t (a + Z.of_nat (length l)) k →
  (∀ x, a ≤ x < a + Z.of_nat (length l) → mapped s1 t x) → stored s1 s3 t a (l ++ k).
Proof.
  intros A B Hm. pose proof A as [A1 A2 A3 A4 A5 A6 A7 A8]. destruct B as [B1 B2 B3 B4 B5 B6 B7 B8].
  split; [done|congruence..| | |].
  - intros v Hv. by rewrite B6, A6.
  - apply seen_app; [|done]. intros i Hi. rewrite B8; [by apply A7| |lia]. eapply stored_mapped; [done|]. apply Hm. lia.
  - intros x Hx Ho. rewrite length_app in Ho. rewrite B8; [|by eapply stored_mapped|lia]. apply A8; [done|lia].
Qed.

Lemma stored_nil s t a : running s t → stored s s t a [].
Proof. intros Hr. split; try done. intros i Hi. cbn in Hi. lia. Qed.

(** Different addresses are different bytes of memory. *)
Lemma frame_inj s t a x p pg f fr q qg g gr : machine s → in_frame s t a p pg f fr → in_frame s t x q qg g gr →
  Vm.base fr + a mod 4096 = Vm.base gr + x mod 4096 → a = x.
Proof.
  intros Hs [I1 (_ & _ & I2 & I3 & _) I4 I5 _] [J1 (_ & _ & J2 & J3 & _) J4 J5 _] E.
  destruct (mc_base _ _ _ Hs f fr I5) as ((Ha & _) & _), (mc_base _ _ _ Hs g gr J5) as ((Hb & _) & _).
  assert (Vm.base fr = Vm.base gr) as Eb.
  { destruct (Z.eq_dec (Vm.base fr) (Vm.base gr)) as [|Hne]; [done|]. pose proof (pages_apart _ _ Ha Hb Hne). c_lia. }
  assert (f = g) as <- by (by eapply (mc_base_inj _ _ _ Hs)).
  destruct (mc_owner _ _ _ Hs p pg f I2 I4) as (? & K1 & K2), (mc_owner _ _ _ Hs q qg f J2 J4) as (? & L1 & L2).
  assert (p = q) as <- by congruence. assert (pg_round_down a = pg_round_down x) as Er by congruence.
  rewrite !pg_round_down_eq in Er by (unfold PHYS_BASE in *; c_lia). c_lia.
Qed.

(** One byte. *)
Lemma user_store_ok s t a c p pg f fr : running s t → in_frame s t a p pg f fr → read_only pg = false → is_u8 c →
  ∃ m, user_store a c s = Ok (set_mm m s) ∧ stored s (set_mm m s) t a [c].
Proof.
  intros Hr Hi Hro Hc. pose proof Hi as [I1 I2 I3 I4 I5]. assert (0 ≤ a mod 4096 < 4096) as Hj by c_lia.
  destruct (page_access ram pds true s t a p pg f fr (a mod 4096) Hr Hi Hj) as (m1 & E & Hm1); [done|].
  replace (a / 4096 * 4096 + a mod 4096) with a in E by c_lia.
  destruct (running_touched ram pds s t m1 Hr Hm1) as [Hr1 _].
  unfold user_store. rewrite E. cbn [mbind res_bind]. set (s1 := set_mm m1 s). set (k := Vm.base fr + a mod 4096).
  set (mem' := put_bytes (memory_of s1) k [c]).
  destruct (write_frame ram pds s1 f fr mem' (ru_machine _ _ _ _ Hr1) I4) as (W1 & W2 & W3).
  { intros x. apply put_bytes_u8; [apply (mc_mm _ _ _ (ru_machine _ _ _ _ Hr1))|by constructor]. }
  { intros x Hx. apply put_bytes_out. cbn [length]. unfold k. lia. }
  eexists. split; [reflexivity|]. change (stored s (set_memory mem' s1) t a [c]).
  assert (∀ v, 0 ≤ v < PHYS_BASE → xlate (Pagedir.entry (mm (set_memory mem' s1)) (pagedir t) v) = xlate (Pagedir.entry (mm s) (pagedir t) v)) as Hx.
  { intros v Hv. rewrite W2 by (done || apply Hr). by apply (to_xlate _ _ _ Hm1); [apply Hr|]. }
  assert (∀ x q qg g gr, in_frame s t x q qg g gr → in_frame (set_memory mem' s1) t x q qg g gr) as Hin.
  { intros x q qg g gr [J1 J2 J3 J4 J5]. split; try done. by rewrite Hx. }
  assert (∀ x q qg g gr, in_frame s t x q qg g gr →
    user_byte (set_memory mem' s1) x = Some (mem' (Vm.base gr + x mod 4096)) ∧ user_byte s x = Some (memory_of s1 (Vm.base gr + x mod 4096))) as Hub.
  { intros x q qg g gr Hg. pose proof (if_user _ _ _ _ _ _ _ Hg). assert (is_u32 x) by (unfold PHYS_BASE in *; c_lia). split.
    - by destruct (in_frame_byte _ t x q qg g gr x (Hin _ _ _ _ _ Hg)) as [-> _].
    - destruct (in_frame_byte s t x q qg g gr x Hg) as [-> _]; [done|done|]. f_equal. symmetry.
      apply (touched_memory ram pds s t m1 g); [done|done|apply Hg|c_lia]. }
  split; [|done..|exact Hx| |].
  - destruct Hr1 as [_ R2 R3 R4]. by split.
  - intros i Hi'. cbn [length] in Hi'. assert (i = 0) as -> by lia. rewrite Z.add_0_r. destruct (Hub a p pg f fr Hi) as [-> _].
    f_equal. unfold mem', k. rewrite put_bytes_in by (cbn; lia). by rewrite Z.sub_diag.
  - intros x (q & qg & g & gr & Hg) Hne. cbn [length] in Hne. destruct (Hub x q qg g gr Hg) as [-> ->]. f_equal.
    unfold mem'. apply put_bytes_out. cbn [length]. pose proof (frame_inj s t a x p pg f fr q qg g gr (ru_machine _ _ _ _ Hr) Hi Hg) as Hinj.
    unfold k. destruct (Z.eq_dec (Vm.base fr + a mod 4096) (Vm.base gr + x mod 4096)) as [E'|]; [|lia]. specialize (Hinj E'). lia.
Qed.

(** ** Files *)

Lemma user_write_ok l : ∀ s t a, running s t → Forall is_u8 l → (∀ x, a ≤ x < a + Z.of_nat (length l) → writable s t x) →
  ∃ m, user_write l a s = Ok (set_mm m s) ∧ stored s (set_mm m s) t a l.
Proof.
  induction l as [|c l IH]; intros s t a Hr Hl Hw; cbn [user_write].
  { exists (mm s). replace (set_mm (mm s) s) with s by (by destruct s). split; [done|by apply stored_nil]. }
  apply Forall_cons in Hl as [Hc Hl]. cbn [length] in Hw. destruct (Hw a ltac:(lia)) as (p & pg & f & fr & Hi & _ & Hro).
  destruct (user_store_ok s t a c p pg f fr Hr Hi Hro Hc) as (m1 & E1 & S1). rewrite E1. cbn [mbind res_bind].
  destruct (IH (set_mm m1 s) t (a + 1)) as (m2 & E2 & S2); [apply S1|done| |].
  { intros x Hx. eapply stored_writable; [done|]. apply Hw. lia. }
  exists m2. rewrite E2. split; [done|]. apply (stored_trans s (set_mm m1 s) _ t a [c] l S1 S2).
  intros x Hx. apply writable_mapped, Hw. cbn [length] in Hx. lia.
Qed.

(** The lock of a frame plays no role in an access. *)
Lemma user_write_locked l : ∀ s a f fr s', user_write l a s = Ok s' → user_write l a (locked s f fr) = Ok (locked s' f fr).
Proof.
  induction l as [|c l IH]; intros s a f fr s' H; cbn [user_write] in *; [by injection H as <-|].
  destruct (user_store a c s) as [s1|] eqn:E; [|done]. cbn [mbind res_bind] in H.
  assert (user_store a c (locked s f fr) = Ok (locked s1 f fr)) as ->; [|by apply IH].
  clear H IH. revert E. unfold user_store, user_access. cbn [locked put_frame set_frames mm].
  destruct (active_pd (mm s)) as [pd|]; [|done]. cbn [mbind res_bind]. destruct (_ && _); [|done].
  destruct (pte_get_page _) as [k|]; [|done]. cbn [mbind res_bind]. intros [= <-]. reflexivity.
Qed.

(** A file system that serves the same files. *)
Record fs_change (x y : fs) : Prop := {
  fc_wf : block_wf (fs_device y);
  fc_mem : mem_ok y;
  fc_size : size (fs_device y) = size (fs_device x);
  fc_inodes : inodes y = inodes x;
  fc_u8 i : 0 ≤ i < size (fs_device y) → Forall is_u8 (sector_at (fs_device y) i);
}.

Lemma same_fs_change v x : machine v → same_fs (fsys v) x → fs_change (fsys v) x.
Proof.
  intros [_ _ _ [_ H4] H4' _ _ _ _ _ _] Hx. pose proof Hx as [X1 X2 X3 X4 _ _ _ _ _].
  split; [done|by eapply same_fs_mem_ok|done|done|]. rewrite X3. unfold sector_at. rewrite X2. exact H4'.
Qed.

Lemma wrote_change v x n l pos k : machine v → wrote (fsys v) x n l pos k → Forall is_u8 l → k ≤ Z.of_nat (length l) → fs_change (fsys v) x.
Proof.
  intros [_ _ _ [H4 Hm] H4' _ _ _ _ _ _] Hw Hl Hk. pose proof Hw as [W1 W2 W3 W4 _ _ _ _ _].
  split; [done|by eapply wrote_mem_ok|done|done|]. intros i Hi. apply Forall_lookup_2. intros j c Hj.
  pose proof (sector_length _ i W1 Hi) as Hlen. pose proof (lookup_lt_Some _ _ _ Hj) as Hlt.
  specialize (W3 i (Z.of_nat j) ltac:(lia) ltac:(lia)). unfold at_ in W3 at 1. rewrite Nat2Z.id, (list_lookup_total_correct _ _ _ Hj) in W3.
  cbv zeta in W3. subst c. destruct (_ && _) eqn:Eq.
  - unfold at_. eapply (Forall_lookup_1 _ _ _ _ Hl). apply list_lookup_lookup_total_lt. lia.
  - unfold at_. rewrite W2 in Hi. eapply (Forall_lookup_1 _ _ _ _ (H4' i Hi)). apply list_lookup_lookup_total_lt.
    pose proof (sector_length _ i H4 Hi). lia.
Qed.

(** A read or a write changes the position in the file and the device. *)
Lemma stored_file v t x h fl fl' a : running v t → fs_change (fsys v) x → files v !! h = Some fl → file_inode fl' = file_inode fl →
  stored v (put_file h fl' (set_fsys x v)) t a [].
Proof.
  intros [R1 R2 R3 R4] [X1 X2 X3 X4 X5] Hf Hi. pose proof R1 as [H1 H2 H3 H4 H4' H5 H6 H7 H8 H9 H10].
  split; try done; [split; try done; split; try done| |].
  - intros p pg Hp. destruct (H7 p pg Hp) as [P1 P2 P3 P4]. split; try done. intros g Hg. destruct (P4 g Hg) as (gl & n & G1 & G2 & G3 & G4).
    assert (extent_ok (fs_device x) n) as G3' by (destruct G3 as [? ? ? ?]; split; rewrite ?X3; done).
    destruct (decide (g = h)) as [->|Hne].
    + exists fl', n. cbn. rewrite lookup_insert_eq, X4, Hi. rewrite Hf in G1. by injection G1 as ->.
    + exists gl, n. cbn. by rewrite lookup_insert_ne, X4.
  - intros i Hi'. cbn in Hi'. lia.
  - intros y (p & pg & f & fr & Hg) _. set (v' := put_file _ _ _). assert (in_frame v' t y p pg f fr) as Hg' by (destruct Hg; by split).
    pose proof (if_user _ _ _ _ _ _ _ Hg). assert (is_u32 y) by (unfold PHYS_BASE in *; c_lia).
    destruct (in_frame_byte v' t y p pg f fr y Hg') as [-> _]; [done|done|]. by destruct (in_frame_byte v t y p pg f fr y Hg) as [-> _].
Qed.

(** The [k] bytes of the file [n] from [pos] on. *)
Definition file_data (v : vm) (n : inode) (pos k : Z) : list Z := bytes (file_byte (fs_device (fsys v)) n) pos k.

Lemma file_data_u8 v n pos k : machine v → extent_ok (fs_device (fsys v)) n → 0 ≤ pos → k ≤ Z.max 0 (ilength (data n) - pos) → Forall is_u8 (file_data v n pos k).
Proof.
  intros Hm He Hp Hk. apply Forall_forall. intros c Hc. unfold file_data, bytes in Hc. apply list_elem_of_fmap_1 in Hc as (i & -> & Hi%elem_of_seq).
  eapply file_byte_u8; [exact Hm|done|lia].
Qed.

Lemma file_data_at v n pos k : 0 ≤ k → Z.of_nat (length (file_data v n pos k)) = k ∧
  ∀ i, 0 ≤ i < k → at_ (file_data v n pos k) i = file_byte (fs_device (fsys v)) n (pos + i).
Proof. intros Hk. unfold file_data. rewrite bytes_length. split; [lia|]. intros i Hi. by apply at_bytes. Qed.

(** The file that the descriptor [fd] has open: its inode and its position. *)
Record opened (v : vm) (fd : file_descriptor) (n : inode) (fl : file) : Prop := {
  op_file : files v !! fd_file fd = Some fl;
  op_inode : inodes (fsys v) !! file_inode fl = Some n;
  op_extent : extent_ok (fs_device (fsys v)) n;
  op_pos : 0 ≤ file_pos fl;
}.

Definition moved (fl : file) (k : Z) : file := File (file_inode fl) (file_pos fl + k) (file_deny fl).

Lemma read_user_ok fd a c s v t f fr n fl : mach s = locked v f fr → running v t → opened v fd n fl → 0 < c → file_pos fl + c < 2 ^ 31 →
  let k := available n c (file_pos fl) in (∀ x, a ≤ x < a + k → writable v t x) →
  ∃ x m, let v' := set_mm m (put_file (fd_file fd) (moved fl k) (set_fsys x v)) in
    read_user fd a c s = Ok (set_mach (locked v' f fr) s, Ret k) ∧ same_fs (fsys v) x ∧ stored v v' t a (file_data v n (file_pos fl) k).
Proof.
  intros Hs Hr [O1 O2 O3 O4] Hc Hpos k Hw. pose proof (ru_machine _ _ _ _ Hr) as Hm. destruct (mc_fs _ _ _ Hm) as [Hb Hmem].
  destruct (inode_read_at_spec (fsys v) (file_inode fl) n (repeat 0 (Z.to_nat c)) c (file_pos fl)) as (x & buf & k' & E & Hx & Hk & Hk' & Hlen & Hbuf);
    [done|done|done|rewrite repeat_length; lia|lia|lia|]. specialize (Hk' Hmem). fold k in Hk'. subst k'.
  assert (k ≤ c ∧ k ≤ Z.max 0 (ilength (data n) - file_pos fl)) as [Hkc Hkl] by (unfold k, available; lia).
  set (v1 := put_file (fd_file fd) (moved fl k) (set_fsys x v)).
  assert (take (Z.to_nat k) buf = file_data v n (file_pos fl) k) as Ht.
  { rewrite repeat_length in Hlen, Hbuf. apply list_eq_same_length with (n := Z.to_nat k).
    - unfold file_data. by rewrite bytes_length.
    - rewrite length_take. lia.
    - intros i y z Hi Hy Hz. unfold file_data in Hz. rewrite bytes_lookup in Hz by done. injection Hz as <-.
      rewrite lookup_take_lt in Hy by done. specialize (Hbuf (Z.of_nat i)). unfold at_ in Hbuf. rewrite Nat2Z.id in Hbuf.
      rewrite (list_lookup_total_correct _ _ _ Hy), (proj2 (Z.ltb_lt _ _)) in Hbuf by lia. apply Hbuf. lia. }
  pose proof (stored_file v t x (fd_file fd) fl (moved fl k) a Hr (same_fs_change _ _ Hm Hx) O1 eq_refl) as S1. fold v1 in S1.
  destruct (user_write_ok (file_data v n (file_pos fl) k) v1 t a) as (m & Ew & S2); [apply S1| | |].
  { by apply file_data_u8. }
  { intros y Hy. unfold file_data in Hy. rewrite bytes_length in Hy. eapply stored_writable; [done|]. apply Hw. lia. }
  exists x, m. cbv zeta. fold v1. split_and!; [|done|].
  - unfold read_user, file_of.
    rewrite (bind_ret _ _ s s fl) by (unfold run_, get_file; rewrite Hs; cbn; by rewrite O1).
    rewrite (bind_ret _ _ s (set_mach (set_fsys x (locked v f fr)) s) (moved fl k, buf, k)).
    2:{ unfold run, on_fs, file_read. rewrite Hs. change (fsys (locked v f fr)) with (fsys v). rewrite E. cbn [mbind res_bind].
        by rewrite s32_small by (c_unfold; lia). }
    cbv beta iota. set (s1 := set_mach _ s). rewrite (bind_ret (update_file fd _) _ s1 (set_mach (locked v1 f fr) s) tt) by done.
    rewrite Ht, (exec_bind (user_write _ _) _ (set_mach (locked v1 f fr) s) _ (user_write_locked _ _ _ f fr _ Ew)). reflexivity.
  - apply (stored_trans v v1 _ t a []); [done| |]. { cbn [length]. by rewrite Z.add_0_r. } intros y Hy. cbn [length] in Hy. lia.
Qed.

(** One turn of the loop. *)
Lemma read_chunk_ok ipd sleep h fd a size w rv s t n fl : running (mach s) t → opened (mach s) fd n fl → fs_lock s = None → h ≠ STDIN_FILENO →
  0 < size → file_pos fl + size < 2 ^ 31 → (∀ x, a ≤ x < a + size → writable (mach s) t x) →
  let c := chunk_at a size in let k := available n c (file_pos fl) in
  ∃ x m, let v' := set_mm m (put_file (fd_file fd) (moved fl k) (set_fsys x (mach s))) in
    read_chunk ipd ram sleep h fd (a, size, w, rv) s =
      Ok (set_mach v' s, Ret (if k =? c then inl (a + c, size - c, s32 (w + c), c) else inr (s32 (w + k)))) ∧
    same_fs (fsys (mach s)) x ∧ stored (mach s) v' t a (file_data (mach s) n (file_pos fl) k).
Proof.
  intros Hr Ho Hfs Hh Hsz Hpos Hw c k. destruct (Hw a ltac:(lia)) as (p & pg & f & fr & Hi & Hl & Hro). pose proof (if_user _ _ _ _ _ _ _ Hi) as Ha.
  assert (0 < c ≤ size ∧ a mod 4096 + c ≤ 4096) as Hc by (unfold c, chunk_at; c_lia).
  assert (0 ≤ k ≤ c) as Hk by (unfold k, available; lia). pose proof (op_pos _ _ _ _ Ho) as Hop.
  set (s1 := set_fs_lock (Some (cur (mach s))) (set_mach (locked (mach s) f fr) s)).
  destruct (read_user_ok fd a c s1 (mach s) t f fr n fl) as (x & m & E & Hx & Hst); [done|done|done|lia|lia| |].
  { intros y Hy. apply Hw. fold k in Hy. lia. }
  fold k in E, Hst. set (v1 := put_file (fd_file fd) (moved fl k) (set_fsys x (mach s))) in *. exists x, m. cbv zeta. fold v1. split_and!; [|done|done].
  unfold read_chunk. rewrite (proj2 (Z.ltb_lt 0 size)) by lia. rewrite chunk_size_eq by lia. fold c.
  rewrite (proj2 (Z.eqb_neq h STDIN_FILENO)) by done. cbn [negb].
  rewrite (bind_ret _ _ s (set_mach (set_mm m v1) s) (k, w)).
  2:{ rewrite (run_bind _ _ s _ _ (page_lock_ok ram pds ipd sleep true (mach s) t a p pg f fr Hr Hi Hl (λ _, Hro))). cbn [negb].
      rewrite acquire_bind by done. fold s1. rewrite (bind_ret _ _ s1 _ _ E). rewrite release_bind by done. set (s2 := set_fs_lock None _).
      rewrite (exec_bind (λ s, page_unlock s a) _ s2 (set_mm m v1)).
      - unfold ret, s2, s1. destruct s. cbn in *. by subst.
      - apply (page_unlock_ok ram pds v1 t a p pg f fr m); [|destruct Hi; by split|done].
        eapply so_running, (stored_file (mach s) t x (fd_file fd) fl (moved fl k) a); [done|by apply same_fs_change; [apply Hr|]|apply Ho|done]. }
  cbv beta iota. rewrite (proj2 (Z.ltb_ge k 0)) by lia. destruct (Z.eqb_spec k c) as [Ek|]; [|done]. cbn [negb]. rewrite Ek. clearbody c k.
  rewrite (u32_small (a + _)) by (unfold PHYS_BASE in *; c_lia). rewrite (u32_small (size - _)) by (c_unfold; lia). done.
Qed.

Lemma opened_moved v x m fd n fl k : opened v fd n fl → fs_change (fsys v) x → 0 ≤ k →
  opened (set_mm m (put_file (fd_file fd) (moved fl k) (set_fsys x v))) fd n (moved fl k).
Proof.
  intros [O1 O2 [E1 E2 E3 E4] O4] [X1 X2 X3 X4 X5] Hk.
  split; [cbn; by rewrite lookup_insert_eq|cbn; by rewrite X4|split; cbn; rewrite ?X3; done|cbn; lia].
Qed.

Lemma same_fs_data v x m h fl n pos j : same_fs (fsys v) x → file_data (set_mm m (put_file h fl (set_fsys x v))) n pos j = file_data v n pos j.
Proof. intros Hx. unfold file_data, file_byte, sector_at. cbn. by rewrite (sf_sectors _ _ Hx). Qed.

Lemma read_loop ipd sleep h fd n t fuel : ∀ w rv a size s fl, running (mach s) t → opened (mach s) fd n fl → fs_lock s = None → h ≠ STDIN_FILENO →
  0 ≤ size → 0 ≤ w → w + size < 2 ^ 31 → file_pos fl + size < 2 ^ 31 → (Z.to_nat size < fuel)%nat →
  (∀ x, a ≤ x < a + size → writable (mach s) t x) →
  let k := available n size (file_pos fl) in
  ∃ v', repeat_until fuel (read_chunk ipd ram sleep h fd) (a, size, w, rv) s = Ok (set_mach v' s, Ret (w + k)) ∧
    stored (mach s) v' t a (file_data (mach s) n (file_pos fl) k) ∧ opened v' fd n (moved fl k) ∧ same_fs (fsys (mach s)) (fsys v').
Proof.
  induction fuel as [|fuel IH]; intros w rv a size s fl Hr Ho Hfs Hh Hsz Hw Hwn Hpos Hfuel Hwr k; [lia|]. cbn [repeat_until].
  destruct (Z.ltb_spec 0 size) as [Hp|Hz].
  2:{ assert (size = 0) as -> by lia. assert (k = 0) as Ek by (unfold k, available; lia). rewrite Ek. exists (mach s). split_and!.
      - rewrite Z.add_0_r. by destruct s.
      - by apply stored_nil.
      - unfold moved. rewrite Z.add_0_r. destruct Ho. split; by destruct fl.
      - apply same_fs_refl, (mc_fs _ _ _ (ru_machine _ _ _ _ Hr)). }
  destruct (read_chunk_ok ipd sleep h fd a size w rv s t n fl Hr Ho Hfs Hh Hp Hpos Hwr) as (x & m & E & Hx & Hst).
  set (c := chunk_at a size) in *. set (k1 := available n c (file_pos fl)) in *. cbv zeta in E, Hst. set (v1 := set_mm m _) in *.
  rewrite (bind_ret _ _ _ _ _ E). assert (0 < c ≤ size) as Hc by (unfold c, chunk_at; c_lia).
  assert (0 ≤ k1 ≤ c) as Hk1 by (unfold k1, available; lia).
  pose proof (opened_moved (mach s) x m fd n fl k1 Ho (same_fs_change _ _ (ru_machine _ _ _ _ Hr) Hx) ltac:(lia)) as Ho1. fold v1 in Ho1.
  pose proof (λ pos j, same_fs_data (mach s) x m (fd_file fd) (moved fl k1) n pos j Hx) as Hd. fold v1 in Hd.
  destruct (Z.eqb_spec k1 c) as [Ek|Hne].
  - destruct (IH (s32 (w + c)) c (a + c) (size - c) (set_mach v1 s) (moved fl k1)) as (v2 & E2 & S2 & O2 & X2);
      [apply Hst|done|done|done|lia|rewrite s32_small by (c_unfold; lia); lia|rewrite s32_small by (c_unfold; lia); lia|cbn; lia|lia| |].
    { intros y Hy. eapply stored_writable; [done|]. apply Hwr. lia. }
    cbn [moved file_pos file_inode file_deny mach set_mach] in E2, S2, O2, X2. rewrite Ek in *.
    assert (k = c + available n (size - c) (file_pos fl + c)) as Ek' by (unfold k, k1, available in *; lia).
    set (k2 := available n (size - c) (file_pos fl + c)) in *. assert (0 ≤ k2) by (unfold k2, available; lia).
    exists v2. rewrite Ek'. split_and!.
    + rewrite E2, s32_small by (c_unfold; lia). do 3 f_equal. lia.
    + assert (file_data (mach s) n (file_pos fl) (c + k2) = file_data (mach s) n (file_pos fl) c ++ file_data (mach s) n (file_pos fl + c) k2) as ->
        by (apply bytes_app; lia). assert (Z.of_nat (length (file_data (mach s) n (file_pos fl) c)) = c) as Hlen by (unfold file_data; rewrite bytes_length; lia).
      apply (stored_trans (mach s) v1); rewrite ?Hlen; [done| |].
      * rewrite <- (Hd (file_pos fl + c)). exact S2.
      * intros y Hy. apply writable_mapped, Hwr. lia.
    + unfold moved. by rewrite Z.add_assoc.
    + by eapply same_fs_trans.
  - assert (k = k1) as -> by (unfold k, k1, available in *; lia). exists v1. split_and!; [|done|done|done].
    unfold ret. by rewrite s32_small by (c_unfold; lia).
Qed.

(** ** Writing *)

Lemma touched_stored v t m a : running v t → touched pds (mm v) m → stored v (set_mm m v) t a [].
Proof.
  intros Hr Hm. destruct (running_touched ram pds v t m Hr Hm) as [Hr' _]. split; try done.
  - intros y Hy. by apply (to_xlate _ _ _ Hm); [apply Hr|].
  - intros i Hi. cbn in Hi. lia.
  - intros y _ _. by apply (user_byte_touched ram pds v t).
Qed.

Lemma wrote_app x y z n l k pos i j : wrote x y n l pos i → wrote y z n k (pos + i) j → Z.of_nat (length l) = i → 0 ≤ j →
  wrote x z n (l ++ k) pos (i + j).
Proof.
  intros [A1 A2 A3 A4 A5 A6 A7 A8 A9] [B1 B2 B3 B4 B5 B6 B7 B8 B9] Hl Hj. split; [done|congruence| |congruence..|by etrans].
  intros m c Hm Hc. rewrite B3, A3 by done. cbv zeta. set (q := _ + c).
  destruct (Z.leb_spec (pos + i) q), (Z.ltb_spec q (pos + i + j)), (Z.leb_spec pos q), (Z.ltb_spec q (pos + i)), (Z.ltb_spec q (pos + (i + j)));
    cbn [andb]; try lia; try done; unfold at_.
  - rewrite lookup_total_app_r by lia. f_equal. lia.
  - by rewrite lookup_total_app_l by lia.
Qed.

(** What the file takes of [c] bytes. *)
Definition taken_of (n : inode) (c pos : Z) : Z := if deny_write_cnt n =? 0 then available n c pos else 0.

Lemma taken_of_range n c pos : 0 ≤ c → 0 ≤ taken_of n c pos ≤ c.
Proof. unfold taken_of, available. destruct (deny_write_cnt n =? 0); lia. Qed.

Lemma file_write_ok v n fl l c : machine v → inodes (fsys v) !! file_inode fl = Some n → extent_ok (fs_device (fsys v)) n → 0 ≤ file_pos fl →
  0 < c → file_pos fl + c < 2 ^ 31 → let k := taken_of n c (file_pos fl) in Z.of_nat (length l) = k →
  ∃ x, file_write (fsys v) fl l c = Ok (x, moved fl k, k) ∧ wrote (fsys v) x n l (file_pos fl) k.
Proof.
  intros Hm O2 O3 O4 Hc Hpos k Hl. destruct (mc_fs _ _ _ Hm) as [Hb Hmem]. unfold file_write.
  assert (∃ x, inode_write_at (fsys v) (file_inode fl) l c (file_pos fl) = Ok (x, k) ∧ wrote (fsys v) x n l (file_pos fl) k) as (x & E & Hw).
  { unfold k, taken_of in *. destruct (Z.eqb_spec (deny_write_cnt n) 0) as [Hd|Hd].
    - destruct (inode_write_at_spec (fsys v) (file_inode fl) n l c (file_pos fl)) as (x & k' & E & Hw & _ & Hk'); try done; [lia..|].
      exists x. rewrite <- (Hk' Hmem). by rewrite E.
    - exists (fsys v). split; [|by apply wrote_refl]. unfold inode_write_at. rewrite O2. cbn [deref mbind res_bind].
      by rewrite (proj2 (Z.eqb_neq _ _)). }
  exists x. rewrite E. cbn [mbind res_bind]. rewrite s32_small; [done|]. pose proof (taken_of_range n c (file_pos fl)). c_unfold. lia.
Qed.

Lemma write_user_ok fd a c s v t p pg f fr n fl : mach s = locked v f fr → running v t → in_frame v t a p pg f fr → lock fr = None →
  opened v fd n fl → 0 < c → a mod 4096 + c ≤ 4096 → file_pos fl + c < 2 ^ 31 → let k := taken_of n c (file_pos fl) in
  ∃ x m l, let v' := set_mm m (put_file (fd_file fd) (moved fl k) (set_fsys x v)) in
    write_user fd a c s = Ok (set_mach (locked v' f fr) s, Ret k) ∧ stored v v' t a [] ∧ fs_change (fsys v) x ∧
    Z.of_nat (length l) = k ∧ seen v a l ∧ wrote (fsys v) x n l (file_pos fl) k.
Proof.
  intros Hs Hr Hi Hl [O1 O2 O3 O4] Hc Hac Hpos k. pose proof (ru_machine _ _ _ _ Hr) as Hm.
  assert (0 ≤ k ≤ c) as Hk by (apply taken_of_range; lia).
  destruct (locked_read ram pds 0 (λ s, s) (Z.to_nat k) v t a p pg f fr Hr Hi Hl) as (_ & m & Er & _ & Hto); [lia|].
  rewrite Z2Nat.id in Er by lia. set (l := bytes _ _ _) in Er.
  assert (Z.of_nat (length l) = k) as Hlen by (unfold l; rewrite bytes_length; lia).
  destruct (file_write_ok v n fl l c Hm O2 O3 O4 Hc Hpos Hlen) as (x & Ew & Hw). fold k in Ew, Hw.
  assert (fs_change (fsys v) x) as Hx.
  { apply (wrote_change v x n l (file_pos fl) k Hm Hw); [|lia]. apply Forall_forall. intros b Hb.
    apply list_elem_of_fmap_1 in Hb as (i & -> & _). apply (vm_bytes _ _ (mc_mm _ _ _ Hm)). }
  exists x, m, l. cbv zeta. split_and!; [| |done|done|by apply (page_seen v t a p pg f fr k Hi); lia|done].
  - unfold write_user, file_of.
    rewrite (bind_ret _ _ s s fl) by (unfold run_, get_file; rewrite Hs; cbn; by rewrite O1).
    rewrite (bind_ret _ _ s s k) by (unfold run_, accepted; rewrite Hs; cbn [locked put_frame set_frames fsys]; by rewrite O2).
    rewrite (run_bind (user_read _ _) _ s (set_mm m (locked v f fr)) l) by (by rewrite Hs). set (s1 := set_mach _ s).
    rewrite (bind_ret _ _ s1 (set_mach (set_fsys x (set_mm m (locked v f fr))) s) (moved fl k, k)).
    2:{ unfold run, on_fs, s1. cbn [mach set_mach]. change (fsys (set_mm m (locked v f fr))) with (fsys v). rewrite Ew. reflexivity. }
    reflexivity.
  - pose proof (stored_file v t x (fd_file fd) fl (moved fl k) a Hr Hx O1 eq_refl) as S1. set (v1 := put_file _ _ _) in *.
    apply (stored_trans v v1 _ t a [] []); [done|apply touched_stored; [apply S1|exact Hto]|]. intros y Hy. cbn [length] in Hy. lia.
Qed.

Lemma write_file_chunk ipd sleep h fd a size w s t n fl : running (mach s) t → opened (mach s) fd n fl → fs_lock s = None → h ≠ STDOUT_FILENO →
  0 < size → file_pos fl + size < 2 ^ 31 → resident (mach s) t a →
  let c := chunk_at a size in let k := taken_of n c (file_pos fl) in
  ∃ x m l, let v' := set_mm m (put_file (fd_file fd) (moved fl k) (set_fsys x (mach s))) in
    write_chunk ipd ram sleep h fd (a, size, w) s =
      Ok (set_mach v' s, Ret (if k =? c then inl (a + c, size - c, s32 (w + c)) else inr (s32 (w + k)))) ∧
    stored (mach s) v' t a [] ∧ fs_change (fsys (mach s)) x ∧
    Z.of_nat (length l) = k ∧ seen (mach s) a l ∧ wrote (fsys (mach s)) x n l (file_pos fl) k.
Proof.
  intros Hr Ho Hfs Hh Hsz Hpos (p & pg & f & fr & Hi & Hl) c k. pose proof (if_user _ _ _ _ _ _ _ Hi) as Ha.
  pose proof (op_pos _ _ _ _ Ho) as Hop. assert (0 < c ≤ size ∧ a mod 4096 + c ≤ 4096) as Hc by (unfold c, chunk_at; c_lia).
  assert (0 ≤ k ≤ c) as Hk by (apply taken_of_range; lia).
  set (s1 := set_fs_lock (Some (cur (mach s))) (set_mach (locked (mach s) f fr) s)).
  destruct (write_user_ok fd a c s1 (mach s) t p pg f fr n fl) as (x & m & l & E & Hst & Hx & Hw); [done|done|done|done|done|lia|lia|lia|].
  fold k in E, Hst, Hw. set (v1 := put_file (fd_file fd) (moved fl k) (set_fsys x (mach s))) in *.
  exists x, m, l. cbv zeta. fold v1. split_and!; [|done|done|apply Hw..].
  unfold write_chunk. rewrite (proj2 (Z.ltb_lt 0 size)) by lia. rewrite chunk_size_eq by lia. fold c.
  rewrite (run_bind _ _ s _ _ (page_lock_ok ram pds ipd sleep false (mach s) t a p pg f fr Hr Hi Hl ltac:(done))). cbn [negb].
  rewrite acquire_bind by done. fold s1. rewrite (proj2 (Z.eqb_neq h STDOUT_FILENO)) by done.
  rewrite (bind_ret _ _ s1 _ _ E), release_bind by done. set (s2 := set_fs_lock None _).
  rewrite (exec_bind (λ s, page_unlock s a) _ s2 (set_mm m v1)).
  2:{ apply (page_unlock_ok ram pds v1 t a p pg f fr m); [|destruct Hi; by split|done].
      eapply so_running, (stored_file (mach s) t x (fd_file fd) fl (moved fl k) a); [done|done|apply Ho|done]. }
  assert (set_mach (set_mm m v1) s2 = set_mach (set_mm m v1) s) as -> by (unfold s2, s1; destruct s; cbn in *; by subst).
  rewrite (proj2 (Z.ltb_ge k 0)) by lia. destruct (Z.eqb_spec k c) as [Ek|]; [|done]. cbn [negb]. rewrite Ek. clearbody c k.
  rewrite (u32_small (a + _)) by (unfold PHYS_BASE in *; c_lia). rewrite (u32_small (size - _)) by (c_unfold; lia). done.
Qed.

Lemma stored_any v v' t a b : stored v v' t a [] → stored v v' t b [].
Proof.
  intros [S1 S2 S3 S4 S5 S6 S7 S8]. split; try done.
  - intros i Hi. cbn in Hi. lia.
  - intros x Hx _. apply S8; [done|]. cbn [length]. lia.
Qed.

Lemma resident_mapped v t x : resident v t x → mapped v t x.
Proof. intros (p & pg & f & fr & H & _). by exists p, pg, f, fr. Qed.
Lemma stored_resident v v' t a l x : stored v v' t a l → resident v t x → resident v' t x.
Proof. intros Hs (p & pg & f & fr & H & H2). exists p, pg, f, fr. split; [by eapply stored_in_frame|done]. Qed.

Lemma write_file_loop ipd sleep h fd n t fuel : ∀ w a size s fl, running (mach s) t → opened (mach s) fd n fl → fs_lock s = None → h ≠ STDOUT_FILENO →
  0 ≤ size → 0 ≤ w → w + size < 2 ^ 31 → file_pos fl + size < 2 ^ 31 → (Z.to_nat size < fuel)%nat →
  (∀ x, a ≤ x < a + size → resident (mach s) t x) →
  let k := taken_of n size (file_pos fl) in
  ∃ v' l, repeat_until fuel (write_chunk ipd ram sleep h fd) (a, size, w) s = Ok (set_mach v' s, Ret (w + k)) ∧
    stored (mach s) v' t a [] ∧ opened v' fd n (moved fl k) ∧
    Z.of_nat (length l) = k ∧ seen (mach s) a l ∧ wrote (fsys (mach s)) (fsys v') n l (file_pos fl) k.
Proof.
  induction fuel as [|fuel IH]; intros w a size s fl Hr Ho Hfs Hh Hsz Hw Hwn Hpos Hfuel Hres k; [lia|]. cbn [repeat_until].
  destruct (Z.ltb_spec 0 size) as [Hp|Hz].
  2:{ assert (size = 0) as -> by lia. assert (k = 0) as -> by (pose proof (taken_of_range n 0 (file_pos fl)); lia). exists (mach s), []. split_and!.
      - rewrite Z.add_0_r. by destruct s.
      - by apply stored_nil.
      - unfold moved. rewrite Z.add_0_r. destruct Ho. split; by destruct fl.
      - done.
      - intros i Hi. cbn in Hi. lia.
      - apply wrote_refl, (mc_fs _ _ _ (ru_machine _ _ _ _ Hr)). }
  destruct (write_file_chunk ipd sleep h fd a size w s t n fl Hr Ho Hfs Hh Hp Hpos (Hres a ltac:(lia))) as (x & m & l & E & Hst & Hx & Hl & Hs & Hwr).
  set (c := chunk_at a size) in *. set (k1 := taken_of n c (file_pos fl)) in *. cbv zeta in E, Hst.
  rewrite (bind_ret _ _ _ _ _ E). assert (0 < c ≤ size) as Hc by (unfold c, chunk_at; c_lia).
  assert (0 ≤ k1 ≤ c) as Hk1 by (apply taken_of_range; lia).
  pose proof (opened_moved (mach s) x m fd n fl k1 Ho Hx ltac:(lia)) as Ho1. set (v1 := set_mm m _) in *.
  destruct (Z.eqb_spec k1 c) as [Ek|Hne].
  - destruct (IH (s32 (w + c)) (a + c) (size - c) (set_mach v1 s) (moved fl k1)) as (v2 & l2 & E2 & S2 & O2 & L2 & Se2 & W2);
      [apply Hst|done|done|done|lia|rewrite s32_small by (c_unfold; lia); lia|rewrite s32_small by (c_unfold; lia); lia|cbn; lia|lia| |].
    { intros y Hy. eapply stored_resident; [done|]. apply Hres. lia. }
    cbn [moved file_pos file_inode file_deny mach set_mach] in E2, S2, O2, L2, Se2, W2. rewrite Ek in *.
    assert (k = c + taken_of n (size - c) (file_pos fl + c)) as Ek' by (unfold k, k1, taken_of, available in *; destruct (deny_write_cnt n =? 0); lia).
    set (k2 := taken_of n (size - c) (file_pos fl + c)) in *.
    assert (0 ≤ k2 ≤ size - c) as Hk2 by (apply taken_of_range; lia). exists v2, (l ++ l2). rewrite Ek'. split_and!.
    + rewrite E2, s32_small by (c_unfold; lia). do 3 f_equal. lia.
    + apply (stored_trans (mach s) v1 v2 t a [] [] Hst); [by eapply stored_any|]. intros y Hy. cbn [length] in Hy. lia.
    + unfold moved. by rewrite Z.add_assoc.
    + rewrite length_app. lia.
    + apply seen_app; [done|]. rewrite Hl. intros i Hi. rewrite <- (Se2 i Hi). symmetry. apply (so_other _ _ _ _ _ Hst); [|cbn [length]; lia].
      apply resident_mapped, Hres. lia.
    + apply (wrote_app _ x); [done|exact W2|done|lia].
  - assert (k = k1) as -> by (unfold k, k1, taken_of, available in *; destruct (deny_write_cnt n =? 0); lia). exists v1, l. split_and!; try done.
    unfold ret. by rewrite s32_small by (c_unfold; lia).
Qed.

(** ** The calls *)

Lemma sys_read_spec ipd sleep retval0 h fd dst size s t n fl :
  running (mach s) t → fs_lock s = None → h ≠ STDIN_FILENO → lookup_fd h s = Ok (s, Ret fd) → opened (mach s) fd n fl →
  0 ≤ size → file_pos fl + size < 2 ^ 31 → (∀ x, dst ≤ x < dst + size → writable (mach s) t x) →
  let k := available n size (file_pos fl) in
  ∃ v', sys_read ipd ram sleep retval0 h dst size s = Ok (set_mach v' s, Ret k) ∧
    stored (mach s) v' t dst (file_data (mach s) n (file_pos fl) k) ∧ opened v' fd n (moved fl k) ∧ same_fs (fsys (mach s)) (fsys v').
Proof.
  intros Hr Hfs Hh Hfd Ho Hsz Hpos Hw k. pose proof (op_pos _ _ _ _ Ho) as Hp0.
  destruct (read_loop ipd sleep h fd n t (S (Z.to_nat size)) 0 retval0 dst size s fl Hr Ho Hfs Hh) as (v' & E & H);
    [lia|lia|lia|lia|lia|done|]. exists v'. split; [|exact H]. unfold sys_read. by rewrite (bind_ret _ _ _ _ _ Hfd).
Qed.

Lemma sys_write_spec ipd sleep h fd src size s t n fl :
  running (mach s) t → fs_lock s = None → h ≠ STDOUT_FILENO → lookup_fd h s = Ok (s, Ret fd) → opened (mach s) fd n fl →
  0 ≤ size → file_pos fl + size < 2 ^ 31 → (∀ x, src ≤ x < src + size → resident (mach s) t x) →
  let k := taken_of n size (file_pos fl) in
  ∃ v' l, sys_write ipd ram sleep h src size s = Ok (set_mach v' s, Ret k) ∧
    stored (mach s) v' t src [] ∧ opened v' fd n (moved fl k) ∧
    Z.of_nat (length l) = k ∧ seen (mach s) src l ∧ wrote (fsys (mach s)) (fsys v') n l (file_pos fl) k.
Proof.
  intros Hr Hfs Hh Hfd Ho Hsz Hpos Hw k. pose proof (op_pos _ _ _ _ Ho) as Hp0.
  destruct (write_file_loop ipd sleep h fd n t (S (Z.to_nat size)) 0 src size s fl Hr Ho Hfs Hh) as (v' & l & E & H);
    [lia|lia|lia|lia|lia|done|]. exists v', l. split; [|exact H]. unfold sys_write. rewrite (proj2 (Z.eqb_neq _ _)) by done. cbn [negb].
  by rewrite (bind_ret _ _ _ _ _ Hfd).
Qed.

Lemma sys_seek_spec h fd pos s t n fl : running (mach s) t → fs_lock s = None → lookup_fd h s = Ok (s, Ret fd) → opened (mach s) fd n fl →
  0 ≤ pos < 2 ^ 31 → ∃ v', sys_seek h pos s = Ok (set_mach v' s, Ret 0) ∧
    stored (mach s) v' t 0 [] ∧ opened v' fd n (File (file_inode fl) pos (file_deny fl)) ∧ fsys v' = fsys (mach s).
Proof.
  intros Hr Hfs Hfd Ho Hpos. pose proof Ho as [O1 O2 O3 O4]. set (fl' := File _ _ _).
  exists (put_file (fd_file fd) fl' (mach s)). split_and!; [| |split; try done; cbn; [by rewrite lookup_insert_eq|lia]|done].
  - unfold sys_seek. rewrite (bind_ret _ _ _ _ _ Hfd), acquire_bind by done. set (s1 := set_fs_lock _ s).
    rewrite (bind_ret _ _ s1 (set_mach (put_file (fd_file fd) fl' (mach s)) s1) tt).
    2:{ rewrite s32_small, (proj2 (Z.leb_le 0 pos)) by (c_unfold; lia). unfold file_of.
        rewrite (bind_ret _ _ s1 s1 fl) by (unfold run_, get_file; cbn; by rewrite O1).
        rewrite (bind_ret _ _ s1 s1 fl'); [reflexivity|]. unfold run_, file_seek. by rewrite (proj2 (Z.leb_le 0 pos)) by lia. }
    rewrite release_bind by done. unfold ret. destruct s. cbn in *. by subst.
  - destruct (mc_fs _ _ _ (ru_machine _ _ _ _ Hr)) as [Hb _].
    pose proof (stored_file (mach s) t (fsys (mach s)) (fd_file fd) fl fl' 0 Hr (same_fs_change _ _ (ru_machine _ _ _ _ Hr) (same_fs_refl _ Hb)) O1 eq_refl) as H.
    by replace (set_fsys (fsys (mach s)) (mach s)) with (mach s) in H by (by destruct (mach s)).
Qed.

Lemma lookup_fd_mach h fd s v : lookup_fd h s = Ok (s, Ret fd) → lookup_fd h (set_mach v s) = Ok (set_mach v s, Ret fd).
Proof. unfold lookup_fd. cbn [fds set_mach]. destruct (list_find _ _) as [[i x]|]; [|done]. by intros [= ->]. Qed.
End files.

(** ** The theorems *)


(** C17. The system call [write] to a file: from a buffer in pages that are in
    memory, [sys_write] writes the bytes that the process sees there, as many
    as the file has room for from its position on, and none while writing is
    denied; it returns their number.  Exactly these bytes of the device
    change, and the process sees the memory that it saw before. *)
Theorem sys_write_file_correct ipd ram pds sleep h fd src size s t n fl :
  running ram pds (mach s) t → fs_lock s = None → h ≠ STDOUT_FILENO → lookup_fd h s = Ok (s, Ret fd) → opened (mach s) fd n fl →
  0 ≤ size → file_pos fl + size < 2 ^ 31 → (∀ x, src ≤ x < src + size → resident (mach s) t x) →
  let k := if deny_write_cnt n =? 0 then available n size (file_pos fl) else 0 in
  ∃ v' l, sys_write ipd ram sleep h src size s = Ok (set_mach v' s, Ret k) ∧ running ram pds v' t ∧
    opened v' fd n (moved fl k) ∧ Z.of_nat (length l) = k ∧ seen (mach s) src l ∧
    wrote (fsys (mach s)) (fsys v') n l (file_pos fl) k ∧ ∀ x, mapped (mach s) t x → user_byte v' x = user_byte (mach s) x.
Proof.
  intros Hr Hfs Hh Hfd Ho Hsz Hpos Hw k.
  destruct (sys_write_spec ram pds ipd sleep h fd src size s t n fl Hr Hfs Hh Hfd Ho Hsz Hpos Hw) as (v' & l & E & Hst & Ho' & H1 & H2 & H3).
  exists v', l. split_and!; [done|by apply (so_running _ _ _ _ _ _ _ Hst)|done..|].
  intros x Hm. apply (so_other _ _ _ _ _ _ _ Hst); [done|]. cbn [length]. lia.
Qed.


(** A process reads 20 bytes, of which the file has 10. *)
Lemma other_files_running ram pds v t x fls : running ram pds v t → block_wf (fs_device x) → mem_ok x →
  (∀ i, 0 ≤ i < size (fs_device x) → Forall is_u8 (sector_at (fs_device x) i)) →
  (∀ p pg, pages v !! p = Some pg → pfile pg = None) → running ram pds (set_files fls (set_fsys x v)) t.
Proof.
  intros [R1 R2 R3 R4] Hb Hm H8 Hp. pose proof R1 as [H1 H2 H3 H4 H4' H5 H6 H7 H8' H9 H10]. split; try done. split; try done.
  intros p pg Hpg. destruct (H7 p pg Hpg) as [P1 P2 P3 P4]. split; try done. intros h Hh. by rewrite (Hp p pg Hpg) in Hh.
Qed.

Lemma other_files_writable v t x fls a p pg f fr : in_frame v t a p pg f fr → lock fr = None → read_only pg = false →
  writable (set_files fls (set_fsys x v)) t a.
Proof. intros [I1 I2 I3 I4 I5] Hl Hr. exists p, pg, f, fr. split; [|done]. by split. Qed.

Definition demo_reader : sys :=
  Sys (set_files {[ 5 := File 0 590 false ]} (set_fsys demo_fs demo_call_vm)) [Fd 5 2] [] 3 (-1) None [] [].

#[local] Opaque demo_call_vm demo_in demo_pd demo_ipd.

Lemma demo_reader_running : running 300 demo_dirs (mach demo_reader) demo_caller.
Proof.
  apply other_files_running.
  - exact demo_running.
  - exact demo_block_wf.
  - intros H. by apply not_elem_of_nil in H.
  - intros i Hi. apply (repeated_u8 demo_block 7); [done|c_unfold; lia|done].
  - intros p pg Hp. destruct demo_parts as (_ & _ & P2 & _). rewrite P2 in Hp. apply lookup_singleton_Some in Hp as [_ <-]. reflexivity.
Qed.

Lemma demo_reader_writable x : PHYS_BASE - 4096 ≤ x < PHYS_BASE → writable (mach demo_reader) demo_caller x.
Proof.
  intros Hx. apply (other_files_writable demo_call_vm demo_caller demo_fs _ x 1 demo_page 0 (Frame None 3222425600 1)); [exact (demo_in_frame x Hx)|reflexivity|reflexivity].
Qed.

Lemma demo_opened : opened (mach demo_reader) (Fd 5 2) demo_inode (File 0 590 false).
Proof. split; [reflexivity|reflexivity|split; vm_compute; split_and?; congruence|vm_compute; congruence]. Qed.


Lemma write_file_witness : ∃ v', sys_write 0 300 (λ s, s) 2 (PHYS_BASE - 80) 20 demo_reader = Ok (set_mach v' demo_reader, Ret 10) ∧
  user_byte v' (PHYS_BASE - 80) = user_byte (mach demo_reader) (PHYS_BASE - 80).
Proof.
  destruct (sys_write_file_correct 0 300 demo_dirs (λ s, s) 2 (Fd 5 2) (PHYS_BASE - 80) 20 demo_reader demo_caller demo_inode (File 0 590 false)
    demo_reader_running) as (v' & l & E & _ & _ & _ & _ & _ & Hd).
  - reflexivity.
  - discriminate.
  - reflexivity.
  - exact demo_opened.
  - lia.
  - cbn [file_pos]. lia.
  - intros x Hx. apply writable_resident, demo_reader_writable. lia.
  - exists v'. split; [exact E|]. apply Hd, resident_mapped, writable_resident, demo_reader_writable. lia.
Defined.

