(* ===== verification/Ide.v ===== *)
(** * devices/ide.c: the disk driver

    The driver talks to an ATA controller through I/O ports, waits for it by
    polling and by sleeping until its interrupt.  The controller and its disks
    are specified first, after the ATA-3 protocols for PIO commands that the
    driver says it follows: how long the hardware takes is not fixed.  The code
    runs in one thread, which holds the lock of the channel; the interrupt
    handler runs when the controller raises its interrupt. *)

From Stdlib Require Import String Ascii.
From stdpp Require Import pretty.
From S2P Require Import Prelude Block.

(** ** The controller and its disks *)

(** What the controller is doing.  Times are in nanoseconds. *)
Inductive phase :=
  | Idle
  | Reset (ns : Z)                               (* after a software reset *)
  | Fetching (ns : Z) (answer : option (list Z)) (* a command that returns data, or fails *)
  | DataIn (bytes : list Z)                      (* the host reads what is left *)
  | Starting (ns : Z) (dev : nat) (lba : Z)      (* before a sector is accepted *)
  | DataOut (dev : nat) (lba : Z) (got : list Z) (* the host writes *)
  | Storing (ns : Z) (dev : nat) (lba : Z) (bytes : list Z).

(** A disk: its sectors, and the answer to IDENTIFY DEVICE. *)
Record drive := Drive { medium : list (list Z); identity : list Z }.

(** The registers are common to both disks; bit 4 of the device register says
    which of them is selected.  [delays] are the times that the next commands
    take; [floating] is what the bus reads when no disk is there. *)
Record ata := Ata {
  base : Z;                        (* the port of its first register *)
  nsect : Z; lbal : Z; lbam : Z; lbah : Z; device : Z; errreg : Z;
  doing : phase;
  drives : list (option drive);
  delays : list Z;
  floating : Z;
}.

Definition set_doing (p : phase) (h : ata) : ata :=
  Ata (base h) (nsect h) (lbal h) (lbam h) (lbah h) (device h) (errreg h) p (drives h) (delays h) (floating h).
Definition set_drives (l : list (option drive)) (h : ata) : ata :=
  Ata (base h) (nsect h) (lbal h) (lbam h) (lbah h) (device h) (errreg h) (doing h) l (delays h) (floating h).
Definition set_delays (l : list Z) (h : ata) : ata :=
  Ata (base h) (nsect h) (lbal h) (lbam h) (lbah h) (device h) (errreg h) (doing h) (drives h) l (floating h).

Definition selected (h : ata) : nat := if Z.testbit (device h) 4 then 1%nat else 0%nat.
Definition drive_at (h : ata) (dev : nat) : option drive := default None (drives h !! dev).
Definition address (h : ata) : Z :=
  Z.lor (Z.shiftl (Z.land (device h) 15) 24) (Z.lor (Z.shiftl (lbah h) 16) (Z.lor (Z.shiftl (lbam h) 8) (lbal h))).
Definition busy (h : ata) : bool :=
  match doing h with Idle | DataIn _ | DataOut _ _ _ => false | _ => true end.
Definition drq (h : ata) : bool := match doing h with DataIn _ | DataOut _ _ _ => true | _ => false end.

(** The status of the selected disk: BSY, DRDY and DRQ. *)
Definition status (h : ata) : Z :=
  match drive_at h (selected h), drive_at h 0 with
  | Some _, _ => if busy h then 128 else if drq h then 72 else 64
  | None, Some _ => 0
  | None, None => floating h
  end.

(** The activity ends; the result says whether the interrupt is raised. *)
Definition complete (h : ata) : ata * bool :=
  match doing h with
  | Reset _ => (set_doing Idle h, false)
  | Fetching _ (Some l) => (set_doing (DataIn l) h, true)
  | Fetching _ None => (set_doing Idle h, true)
  | Starting _ dev lba => (set_doing (DataOut dev lba []) h, false)
  | Storing _ dev lba l =>
      (set_doing Idle (set_drives (alter (fmap (λ d, Drive (<[Z.to_nat lba := l]> (medium d)) (identity d))) dev (drives h)) h), true)
  | _ => (h, false)
  end.

(** Time passes. *)
Definition pass (t : Z) (h : ata) : ata * bool :=
  let left := match doing h with
              | Reset n | Fetching n _ | Starting n _ _ | Storing n _ _ _ => Some n
              | _ => None
              end in
  match left with
  | Some n =>
      if t <? n then
        (set_doing match doing h with
                   | Reset n => Reset (n - t)
                   | Fetching n a => Fetching (n - t) a
                   | Starting n dev lba => Starting (n - t) dev lba
                   | Storing n dev lba l => Storing (n - t) dev lba l
                   | p => p
                   end h, false)
      else complete h
  | None => (h, false)
  end.

(** A new activity: it takes the next of the delays. *)
Definition start (p : Z → phase) (h : ata) : ata * bool :=
  pass 0 (set_doing (p (hd 0 (delays h))) (set_delays (tl (delays h)) h)).

(** A command for the selected disk.  A disk that is busy or exchanging data,
    and one that is not there, ignores it; sectors are addressed by their
    number (bit 6 of the device register), and only one is transferred. *)
Definition command (c : Z) (h : ata) : ata * bool :=
  match drive_at h (selected h), doing h with
  | Some d, Idle =>
      let valid := Z.testbit (device h) 6 && (nsect h =? 1) && (address h <? Z.of_nat (length (medium d))) in
      if c =? 0x20 then start (λ n, Fetching n (if valid then medium d !! Z.to_nat (address h) else None)) h
      else if c =? 0x30 then
        if valid then start (λ n, Starting n (selected h) (address h)) h else start (λ n, Fetching n None) h
      else if c =? 0xec then start (λ n, Fetching n (Some (identity d))) h
      else start (λ n, Fetching n None) h
  | _, _ => (h, false)
  end.

(** A software reset: the disks are busy, then their registers hold the
    signature of an ATA disk. *)
Definition reset (h : ata) : ata * bool :=
  start Reset (Ata (base h) 1 1 0 0 0 1 Idle (drives h) (delays h) (floating h)).

(** Ports, by their offset from [reg_base]. *)
Definition port_in (p : Z) (h : ata) : Z :=
  match drive_at h (selected h), drive_at h 0 with
  | None, None => floating h
  | _, _ =>
      if p =? 1 then errreg h else if p =? 2 then nsect h else if p =? 3 then lbal h
      else if p =? 4 then lbam h else if p =? 5 then lbah h else if p =? 6 then device h
      else status h
  end.

Definition port_out (p v : Z) (h : ata) : ata * bool :=
  if p =? 2 then (Ata (base h) v (lbal h) (lbam h) (lbah h) (device h) (errreg h) (doing h) (drives h) (delays h) (floating h), false)
  else if p =? 3 then (Ata (base h) (nsect h) v (lbam h) (lbah h) (device h) (errreg h) (doing h) (drives h) (delays h) (floating h), false)
  else if p =? 4 then (Ata (base h) (nsect h) (lbal h) v (lbah h) (device h) (errreg h) (doing h) (drives h) (delays h) (floating h), false)
  else if p =? 5 then (Ata (base h) (nsect h) (lbal h) (lbam h) v (device h) (errreg h) (doing h) (drives h) (delays h) (floating h), false)
  else if p =? 6 then (Ata (base h) (nsect h) (lbal h) (lbam h) (lbah h) v (errreg h) (doing h) (drives h) (delays h) (floating h), false)
  else if p =? 7 then command v h
  else if p =? 0x206 then if Z.testbit v 2 then reset h else (h, false)
  else (h, false).

(** The data register: two bytes in a word. *)
Definition data_in (h : ata) : ata * list Z :=
  match doing h with
  | DataIn (a :: b :: l) => (set_doing (if bool_decide (l = []) then Idle else DataIn l) h, [a; b])
  | _ => (h, [floating h; floating h])
  end.
Definition data_out (a b : Z) (h : ata) : ata * bool :=
  match doing h with
  | DataOut dev lba got =>
      let got := got ++ [a; b] in
      if Nat.eqb (length got) 512 then start (λ n, Storing n dev lba got) h
      else (set_doing (DataOut dev lba got) h, false)
  | _ => (h, false)
  end.

(** ** The driver's data *)

Record ata_disk := AtaDisk { dname : string; dev_no : Z; is_ata : bool }.

Record channel := Channel {
  cname : string;
  reg_base : Z;
  irq : Z;
  clock : bool;                     (* the lock is held *)
  expecting_interrupt : bool;
  completion_wait : Z;
  devices : list ata_disk;
  hw : ata;                         (* the controller *)
}.

Definition set_hw (h : ata) (c : channel) : channel :=
  Channel (cname c) (reg_base c) (irq c) (clock c) (expecting_interrupt c) (completion_wait c) (devices c) h.
Definition set_clock (b : bool) (c : channel) : channel :=
  Channel (cname c) (reg_base c) (irq c) b (expecting_interrupt c) (completion_wait c) (devices c) (hw c).
Definition set_expecting (b : bool) (c : channel) : channel :=
  Channel (cname c) (reg_base c) (irq c) (clock c) b (completion_wait c) (devices c) (hw c).
Definition set_wait (n : Z) (c : channel) : channel :=
  Channel (cname c) (reg_base c) (irq c) (clock c) (expecting_interrupt c) n (devices c) (hw c).
Definition set_is_ata (dev : nat) (b : bool) (c : channel) : channel :=
  Channel (cname c) (reg_base c) (irq c) (clock c) (expecting_interrupt c) (completion_wait c)
    (alter (λ d, AtaDisk (dname d) (dev_no d) b) dev (devices c)) (hw c).

Abbreviation reg_data c := (reg_base c + 0).
Abbreviation reg_error c := (reg_base c + 1).
Abbreviation reg_nsect c := (reg_base c + 2).
Abbreviation reg_lbal c := (reg_base c + 3).
Abbreviation reg_lbam c := (reg_base c + 4).
Abbreviation reg_lbah c := (reg_base c + 5).
Abbreviation reg_device c := (reg_base c + 6).
Abbreviation reg_status c := (reg_base c + 7).
Abbreviation reg_command c := (reg_base c + 7).
Abbreviation reg_ctl c := (reg_base c + 0x206).
Abbreviation reg_alt_status c := (reg_base c + 0x206).
Abbreviation STA_BSY := 0x80.
Abbreviation STA_DRDY := 0x40.
Abbreviation STA_DRQ := 0x08.
Abbreviation CTL_SRST := 0x04.
Abbreviation DEV_MBS := 0xa0.
Abbreviation DEV_LBA := 0x40.
Abbreviation DEV_DEV := 0x10.
Abbreviation CMD_IDENTIFY_DEVICE := 0xec.
Abbreviation CMD_READ_SECTOR_RETRY := 0x20.
Abbreviation CMD_WRITE_SECTOR_RETRY := 0x30.

(** ** Interrupts, ports, time *)

(** [interrupt_handler], for the channel that raised the interrupt. *)
Definition channel_interrupt (c : channel) : channel :=
  if expecting_interrupt c then set_wait (completion_wait c + 1) c else c.

Definition interrupt_handler (vec_no : Z) (channels : list channel) : res (list channel) :=
  match list_find (λ c, irq c = vec_no) channels with
  | Some (i, c) => Ok (<[i := channel_interrupt c]> channels)
  | None => Err EPanic
  end.

(** The controller has done something, and raises its interrupt if [i]. *)
Definition react (r : ata * bool) (c : channel) : channel :=
  let '(h, i) := r in
  let c := set_hw h c in
  if i : bool then channel_interrupt c else c.

Definition inb (port : Z) (c : channel) : Z := port_in (port - base (hw c)) (hw c).
Definition outb (port v : Z) (c : channel) : res channel := Ok (react (port_out (port - base (hw c)) (u8 v) (hw c)) c).
Definition sleep (ns : Z) (c : channel) : res channel := Ok (react (pass ns (hw c)) c).

(** [sema_down (&c->completion_wait)]: the thread sleeps until the handler has
    raised the semaphore, that is until what the controller is doing ends. *)
Definition down (c : channel) : res channel :=
  let c := if 0 <? completion_wait c then c else react (complete (hw c)) c in
  if 0 <? completion_wait c then Ok (set_wait (completion_wait c - 1) c) else Err EBlock.

(** [rep insw] and [rep outsw], of [n] words. *)
Fixpoint insw (n : nat) (c : channel) : channel * list Z :=
  match n with
  | O => (c, [])
  | S n => let '(h, w) := data_in (hw c) in let '(c, l) := insw n (set_hw h c) in (c, w ++ l)
  end.
Fixpoint outsw (n : nat) (l : list Z) (c : channel) : channel :=
  match n, l with
  | S n, a :: b :: l => outsw n l (react (data_out a b (hw c)) c)
  | _, _ => c
  end.

(** ** Low-level primitives *)

Definition wait_until_idle (c : channel) : res channel :=
  r ← for_ret 1000 0 (λ _ c,
    if Z.land (inb (reg_status c) c) (Z.lor STA_BSY STA_DRQ) =? 0 then Ok (inr c)
    else c ← sleep 10000 c; Ok (inl c)) c;
  Ok (match r with inl c => c | inr c => c end).

Definition wait_while_busy (c : channel) : res (channel * bool) :=
  r ← for_ret 3000 0 (λ _ c,
    if Z.land (inb (reg_alt_status c) c) STA_BSY =? 0 then
      Ok (inr (c, negb (Z.land (inb (reg_alt_status c) c) STA_DRQ =? 0)))
    else c ← sleep 10000000 c; Ok (inl c)) c;
  Ok (match r with inl c => (c, false) | inr x => x end).

Definition select_device (dev : nat) (c : channel) : res channel :=
  d ← deref (devices c !! dev);
  let v := if dev_no d =? 1 then Z.lor DEV_MBS DEV_DEV else DEV_MBS in
  c ← outb (reg_device c) v c;
  sleep 400 c.

Definition select_device_wait (dev : nat) (c : channel) : res channel :=
  c ← wait_until_idle c;
  c ← select_device dev c;
  wait_until_idle c.

(** ** Commands *)

Section driver.
Context (intr_on : bool).

Definition select_sector (dev : nat) (sec_no : Z) (c : channel) : res channel :=
  _ ← ASSERT (sec_no <? 2 ^ 28);
  c ← select_device_wait dev c;
  c ← outb (reg_nsect c) 1 c;
  c ← outb (reg_lbal c) sec_no c;
  c ← outb (reg_lbam c) (Z.shiftr sec_no 8) c;
  c ← outb (reg_lbah c) (Z.shiftr sec_no 16) c;
  d ← deref (devices c !! dev);
  outb (reg_device c) (Z.lor (Z.lor (Z.lor DEV_MBS DEV_LBA) (if dev_no d =? 1 then DEV_DEV else 0)) (Z.shiftr sec_no 24)) c.

Definition issue_pio_command (cmd : Z) (c : channel) : res channel :=
  _ ← ASSERT intr_on;
  let c := set_expecting true c in
  outb (reg_command c) cmd c.

Definition input_sector (c : channel) : channel * list Z := insw (Z.to_nat (BLOCK_SECTOR_SIZE / 2)) c.
Definition output_sector (sector : list Z) (c : channel) : channel := outsw (Z.to_nat (BLOCK_SECTOR_SIZE / 2)) sector c.

Definition acquire (c : channel) : res channel := if clock c then Err EBlock else Ok (set_clock true c).
Definition release (c : channel) : res channel := _ ← ASSERT (clock c); Ok (set_clock false c).

Definition ide_read (dev : nat) (sec_no : Z) (c : channel) : res (channel * list Z) :=
  c ← acquire c;
  c ← select_sector dev sec_no c;
  c ← issue_pio_command CMD_READ_SECTOR_RETRY c;
  c ← down c;
  '(c, ok) ← wait_while_busy c;
  if negb ok then Err EPanic else
  let '(c, buffer) := input_sector c in
  c ← release c;
  Ok (c, buffer).

Definition ide_write (dev : nat) (sec_no : Z) (buffer : list Z) (c : channel) : res channel :=
  c ← acquire c;
  c ← select_sector dev sec_no c;
  c ← issue_pio_command CMD_WRITE_SECTOR_RETRY c;
  '(c, ok) ← wait_while_busy c;
  if negb ok then Err EPanic else
  let c := output_sector buffer c in
  c ← down c;
  release c.

(** ** Detection *)

Definition reset_channel (c : channel) : res channel :=
  '(c, present) ← for_up 2 0 (λ dev '(c, present),
    c ← select_device (Z.to_nat dev) c;
    c ← outb (reg_nsect c) 0x55 c;
    c ← outb (reg_lbal c) 0xaa c;
    c ← outb (reg_nsect c) 0xaa c;
    c ← outb (reg_lbal c) 0x55 c;
    c ← outb (reg_nsect c) 0x55 c;
    c ← outb (reg_lbal c) 0xaa c;
    Ok (c, present ++ [(inb (reg_nsect c) c =? 0x55) && (inb (reg_lbal c) c =? 0xaa)])) (c, []);
  c ← outb (reg_ctl c) 0 c;
  c ← sleep 10000 c;
  c ← outb (reg_ctl c) CTL_SRST c;
  c ← sleep 10000 c;
  c ← outb (reg_ctl c) 0 c;
  c ← sleep 150000000 c;
  c ← (if default false (present !! 0%nat) then
         c ← select_device 0 c;
         '(c, _) ← wait_while_busy c;
         Ok c
       else Ok c);
  if default false (present !! 1%nat) then
    c ← select_device 1 c;
    r ← for_ret 3000 0 (λ _ c,
      if (inb (reg_nsect c) c =? 1) && (inb (reg_lbal c) c =? 1) then Ok (inr c)
      else c ← sleep 10000000 c; Ok (inl c)) c;
    '(c, _) ← wait_while_busy (match r with inl c => c | inr c => c end);
    Ok c
  else Ok c.

Definition check_device_type (dev : nat) (c : channel) : res (channel * bool) :=
  c ← select_device dev c;
  d ← deref (devices c !! dev);
  let error := inb (reg_error c) c in
  let lbam := inb (reg_lbam c) c in
  let lbah := inb (reg_lbah c) c in
  let status := inb (reg_status c) c in
  if (negb (error =? 1) && (negb (error =? 0x81) || (dev_no d =? 1)))
     || (Z.land status STA_DRDY =? 0) || negb (Z.land status STA_BSY =? 0)
  then Ok (set_is_ata dev false c, negb (error =? 0x81))
  else Ok (set_is_ata dev ((lbam =? 0) && (lbah =? 0) || (lbam =? 0x3c) && (lbah =? 0xc3)) c, true).

(** The result is the capacity of the disk, when it is to be registered. *)
Definition identify_ata_device (dev : nat) (c : channel) : res (channel * option Z) :=
  d ← deref (devices c !! dev);
  _ ← ASSERT (is_ata d);
  c ← select_device_wait dev c;
  c ← issue_pio_command CMD_IDENTIFY_DEVICE c;
  c ← down c;
  '(c, ok) ← wait_while_busy c;
  if negb ok then Ok (set_is_ata dev false c, None) else
  let '(c, id) := input_sector c in
  let capacity := at_ id 120 + 2 ^ 8 * at_ id 121 + 2 ^ 16 * at_ id 122 + 2 ^ 24 * at_ id 123 in
  if 1024 * 1024 * 1024 / BLOCK_SECTOR_SIZE <=? capacity then Ok (set_is_ata dev false c, None)
  else Ok (c, Some capacity).

(** One turn of the loop of [ide_init]; the result are the disks that are
    registered, with their capacities. *)
Definition init_channel (chan_no : Z) (h : ata) : res (channel * list (string * Z)) :=
  let disk dev_no := AtaDisk ("hd" +:+ String (Ascii.ascii_of_nat (Z.to_nat (97 + chan_no * 2 + dev_no))) EmptyString)%string dev_no false in
  let c := Channel ("ide" +:+ pretty chan_no)%string (if chan_no =? 0 then 0x1f0 else 0x170) (if chan_no =? 0 then 14 + 0x20 else 15 + 0x20)
             false false 0 [disk 0; disk 1] h in
  c ← reset_channel c;
  '(c, slave) ← check_device_type 0 c;
  '(c, _) ← (if slave : bool then check_device_type 1 c else Ok (c, false));
  for_up 2 0 (λ dev '(c, l),
    d ← deref (devices c !! Z.to_nat dev);
    if is_ata d then
      '(c, cap) ← identify_ata_device (Z.to_nat dev) c;
      Ok (c, match cap with Some n => l ++ [(dname d, n)] | None => l end)
    else Ok (c, l)) (c, []).
End driver.
