(* ===== verification/IdeProps.v ===== *)
(** * devices/ide.c: a disk is an array of sectors

    Between two calls the controller is idle.  From such a state [ide_read]
    returns the sector of the disk and [ide_write] replaces it, however long
    the hardware takes within the driver's patience. *)

From S2P Require Import Prelude Block Driver Ide.

(** ** An idle channel *)

Record ready (c : channel) : Prop := {
  rd_base : reg_base c = base (hw c);
  rd_idle : doing (hw c) = Idle;
  rd_lock : clock c = false;
  rd_wait : completion_wait c = 0;
  rd_devices dev : (dev < 2)%nat → ∃ d, devices c !! dev = Some d ∧ dev_no d = Z.of_nat dev;
}.

(** The same while a call is being made: the lock is held. *)
Record working (c : channel) (dev : nat) (d : drive) : Prop := {
  wk_base : reg_base c = base (hw c);
  wk_lock : clock c = true;
  wk_wait : completion_wait c = 0;
  wk_devices i : (i < 2)%nat → ∃ x, devices c !! i = Some x ∧ dev_no x = Z.of_nat i;
  wk_drive : drive_at (hw c) dev = Some d;
}.

Lemma set_hw_id c : set_hw (hw c) c = c.
Proof. by destruct c. Qed.

Lemma sleep_idle t c : doing (hw c) = Idle → sleep t c = Ok c.
Proof. intros H. unfold sleep, pass. rewrite H. cbn. by rewrite set_hw_id. Qed.

Lemma wait_until_idle_idle c : doing (hw c) = Idle → wait_until_idle c = Ok c.
Proof.
  intros H. unfold wait_until_idle. set (body := λ (_ : Z) (c : channel), _). generalize 1000%nat. intros n.
  generalize 0 at 1. induction n as [|n IH]; intros i; [done|].
  assert (body i c = Ok (inl c) ∨ body i c = Ok (inr c)) as Hb.
  { unfold body. rewrite sleep_idle by done. cbn [mbind res_bind]. destruct (_ =? _); auto. }
  cbn [for_ret]. destruct Hb as [->| ->]; [apply IH|done].
Qed.

(** The state of the hardware with the registers set. *)
Definition regs (h : ata) (a b c d e : Z) : ata :=
  Ata (base h) a b c d e (errreg h) (doing h) (drives h) (delays h) (floating h).

Lemma regs_id h : regs h (nsect h) (lbal h) (lbam h) (lbah h) (device h) = h.
Proof. by destruct h. Qed.

Lemma outb_reg c h a b p q e v : reg_base c = base h → let c0 := set_hw (regs h a b p q e) c in
  outb (reg_nsect c0) v c0 = Ok (set_hw (regs h (u8 v) b p q e) c) ∧ outb (reg_lbal c0) v c0 = Ok (set_hw (regs h a (u8 v) p q e) c) ∧
  outb (reg_lbam c0) v c0 = Ok (set_hw (regs h a b (u8 v) q e) c) ∧ outb (reg_lbah c0) v c0 = Ok (set_hw (regs h a b p (u8 v) e) c) ∧
  outb (reg_device c0) v c0 = Ok (set_hw (regs h a b p q (u8 v)) c).
Proof.
  intros Hb c0. unfold outb. change (reg_base c0) with (reg_base c). change (base (hw c0)) with (base h). rewrite Hb.
  assert (∀ k, base h + k - base h = k) as E by lia. rewrite !E. by split_and!.
Qed.

Definition device_bits (dev : nat) : Z := if Z.of_nat dev =? 1 then 0x10 else 0.

Lemma select_device_ok dev c d : reg_base c = base (hw c) → doing (hw c) = Idle → devices c !! dev = Some d → dev_no d = Z.of_nat dev →
  let h := hw c in select_device dev c = Ok (set_hw (regs h (nsect h) (lbal h) (lbam h) (lbah h) (Z.lor 0xa0 (device_bits dev))) c).
Proof.
  intros Hb Hi Hd Hn h. unfold select_device. rewrite Hd. cbn [deref mbind res_bind]. rewrite Hn.
  destruct (outb_reg c h (nsect h) (lbal h) (lbam h) (lbah h) (device h)
    (if Z.of_nat dev =? 1 then Z.lor 0xa0 0x10 else 0xa0) Hb) as (_ & _ & _ & _ & E).
  assert (set_hw (regs h (nsect h) (lbal h) (lbam h) (lbah h) (device h)) c = c) as Ec by (unfold h; by rewrite regs_id, set_hw_id).
  cbv zeta in E. rewrite Ec in E. rewrite E. cbn [mbind res_bind]. rewrite sleep_idle by done.
  unfold device_bits. by destruct (Z.of_nat dev =? 1).
Qed.

Lemma select_device_wait_ok dev c d : reg_base c = base (hw c) → doing (hw c) = Idle → devices c !! dev = Some d → dev_no d = Z.of_nat dev →
  let h := hw c in select_device_wait dev c = Ok (set_hw (regs h (nsect h) (lbal h) (lbam h) (lbah h) (Z.lor 0xa0 (device_bits dev))) c).
Proof.
  intros Hb Hi Hd Hn h. unfold select_device_wait. rewrite wait_until_idle_idle by done. cbn [mbind res_bind].
  rewrite (select_device_ok dev c d) by done. cbn [mbind res_bind]. by rewrite wait_until_idle_idle.
Qed.

(** The address that the disk puts together is the number of the sector. *)
Lemma address_ok dev sec : 0 ≤ sec < 2 ^ 28 → (dev < 2)%nat →
  let v := u8 (Z.lor (Z.lor (Z.lor 0xa0 0x40) (device_bits dev)) (Z.shiftr sec 24)) in
  Z.testbit v 4 = (Z.of_nat dev =? 1) ∧ Z.testbit v 6 = true ∧
  Z.lor (Z.shiftl (Z.land v 15) 24) (Z.lor (Z.shiftl (u8 (Z.shiftr sec 16)) 16) (Z.lor (Z.shiftl (u8 (Z.shiftr sec 8)) 8) (u8 sec))) = sec.
Proof.
  intros Hs Hd v. set (q := Z.shiftr sec 24) in v.
  assert (Z.land v 15 = q ∧ Z.testbit v 4 = (Z.of_nat dev =? 1) ∧ Z.testbit v 6 = true) as (E & E4 & E6).
  { assert (0 ≤ q < 16) as Hq by (unfold q; rewrite Z.shiftr_div_pow2 by lia; change (2 ^ 28) with (16 * 2 ^ 24) in Hs; change (2 ^ 24) with 16777216 in *; Z.div_mod_to_equations; lia).
    assert (q = 0 ∨ q = 1 ∨ q = 2 ∨ q = 3 ∨ q = 4 ∨ q = 5 ∨ q = 6 ∨ q = 7 ∨ q = 8 ∨ q = 9 ∨ q = 10 ∨ q = 11 ∨ q = 12 ∨ q = 13 ∨ q = 14 ∨ q = 15) as Hc by lia.
    clearbody q. unfold v, device_bits. destruct dev as [|[|]]; [..|lia]; destruct_or! Hc; subst q; vm_compute; auto. }
  split_and!; [done|done|]. rewrite E. unfold q. apply Z.bits_inj'. intros i Hi.
  rewrite !Z.lor_spec, !Z.shiftl_spec by lia. unfold u8.
  assert (∀ x j, Z.testbit (wrap 8 x) j = (0 <=? j) && (j <? 8) && Z.testbit x j) as Hm.
  { intros x j. destruct (Z.leb_spec 0 j); cbn [andb]; [|by apply Z.testbit_neg_r].
    destruct (Z.ltb_spec j 8); [by apply wrap_bits|]. by apply Z.mod_pow2_bits_high. }
  assert (∀ j k, 0 ≤ k → Z.testbit (Z.shiftr sec k) j = (0 <=? j) && Z.testbit sec (j + k)) as Hr.
  { intros j k Hk. destruct (Z.leb_spec 0 j); cbn [andb]; [by apply Z.shiftr_spec|by apply Z.testbit_neg_r]. }
  rewrite !Hm, !Hr by lia. replace (i - 24 + 24) with i by lia. replace (i - 16 + 16) with i by lia. replace (i - 8 + 8) with i by lia.
  destruct (Z.testbit sec i); rewrite ?andb_false_r; [|done]. rewrite !andb_true_r. lia.
Qed.

(** ** Commands *)

Lemma select_sector_ok dev sec c d : working c dev d → doing (hw c) = Idle → (dev < 2)%nat → 0 ≤ sec < 2 ^ 28 →
  ∃ h, select_sector dev sec c = Ok (set_hw h c) ∧ working (set_hw h c) dev d ∧
    doing h = Idle ∧ drives h = drives (hw c) ∧ delays h = delays (hw c) ∧ floating h = floating (hw c) ∧
    selected h = dev ∧ address h = sec ∧ Z.testbit (device h) 6 = true ∧ nsect h = 1.
Proof.
  intros [W1 W2 W3 W4 W5] Hi Hdev Hs. destruct (W4 dev Hdev) as (x & Hx & Hn). unfold select_sector. rewrite (proj2 (Z.ltb_lt _ _)) by lia.
  cbn [ASSERT mbind res_bind]. rewrite (select_device_wait_ok dev c x) by done. cbn [mbind res_bind]. set (h := hw c).
  pose proof (λ a b p q e v, outb_reg c h a b p q e v W1) as Ho. cbv zeta in Ho.
  set (e0 := Z.lor 0xa0 (device_bits dev)).
  destruct (Ho (nsect h) (lbal h) (lbam h) (lbah h) e0 1) as (-> & _). cbn [mbind res_bind]. destruct (Ho (u8 1) (lbal h) (lbam h) (lbah h) e0 sec) as (_ & -> & _). cbn [mbind res_bind].
  destruct (Ho (u8 1) (u8 sec) (lbam h) (lbah h) e0 (Z.shiftr sec 8)) as (_ & _ & -> & _). cbn [mbind res_bind].
  destruct (Ho (u8 1) (u8 sec) (u8 (Z.shiftr sec 8)) (lbah h) e0 (Z.shiftr sec 16)) as (_ & _ & _ & -> & _).
  cbn [mbind res_bind devices set_hw]. rewrite Hx. cbn [deref mbind res_bind]. rewrite Hn. fold (device_bits dev).
  set (v := Z.lor _ (Z.shiftr sec 24)). destruct (Ho (u8 1) (u8 sec) (u8 (Z.shiftr sec 8)) (u8 (Z.shiftr sec 16)) e0 v) as (_ & _ & _ & _ & ->).
  destruct (address_ok dev sec Hs Hdev) as (A1 & A2 & A3). fold v in A1, A2, A3.
  eexists. split; [reflexivity|]. split_and!; try done.
  unfold selected. cbn [device regs]. rewrite A1. by destruct dev as [|[|]]; [..|lia].
Qed.

Definition after (p : phase) (c : channel) : channel :=
  set_expecting true (set_hw (set_doing p (set_delays (tl (delays (hw c))) (hw c))) c).

Lemma issue_ok cmd c : reg_base c = base (hw c) → is_u8 cmd → issue_pio_command true cmd c = Ok (react (command cmd (hw c)) (set_expecting true c)).
Proof.
  intros Hb Hc. unfold issue_pio_command, outb. cbn [ASSERT mbind res_bind reg_base hw set_expecting]. rewrite Hb, u8_small by done.
  by replace (base (hw c) + 7 - base (hw c)) with 7 by lia.
Qed.

(** A command with an answer, and the wait for its interrupt. *)
Lemma fetch_ok cmd c a : reg_base c = base (hw c) → completion_wait c = 0 → is_u8 cmd →
  command cmd (hw c) = start (λ n, Fetching n a) (hw c) →
  ∃ c1, issue_pio_command true cmd c = Ok c1 ∧ down c1 = Ok (after (match a with Some l => DataIn l | None => Idle end) c).
Proof.
  intros Hb Hw Hc E. rewrite issue_ok by done. eexists. split; [done|]. rewrite E. unfold start, pass. cbn [doing set_doing].
  destruct (0 <? hd 0 (delays (hw c))) eqn:E0.
  - unfold down. cbn [react set_hw completion_wait set_expecting]. rewrite Hw. cbn [Z.ltb Z.compare hw doing set_doing complete].
    destruct a; cbn; rewrite Hw; cbn; by destruct c; cbn in *; subst.
  - unfold complete. cbn [doing set_doing].
    destruct a; unfold down, react, channel_interrupt; cbn; rewrite Hw; cbn; by destruct c; cbn in *; subst.
Qed.

Lemma status_data c dev d : reg_base c = base (hw c) → drive_at (hw c) dev = Some d → selected (hw c) = dev → drq (hw c) = true →
  inb (reg_alt_status c) c = 72.
Proof.
  intros W1 W5 Hs Hd. unfold inb. rewrite W1. replace (base (hw c) + 518 - base (hw c)) with 518 by lia.
  unfold port_in, status. rewrite Hs, W5. cbn [Z.eqb Pos.eqb]. rewrite Hd. unfold busy. unfold drq in Hd. by destruct (doing (hw c)).
Qed.

Lemma wait_data c dev d : reg_base c = base (hw c) → drive_at (hw c) dev = Some d → selected (hw c) = dev → drq (hw c) = true →
  wait_while_busy c = Ok (c, true).
Proof.
  intros Hb Hw Hs Hd. unfold wait_while_busy. change 3000%nat with (S 2999). generalize 2999%nat. intros n. cbn [for_ret]. by rewrite (status_data c dev d).
Qed.

Lemma insw_S n c : insw (S n) c = let '(h, w) := data_in (hw c) in let '(c, l) := insw n (set_hw h c) in (c, w ++ l).
Proof. done. Qed.

Lemma insw_ok n : ∀ c l, doing (hw c) = DataIn l → length l = (2 * S n)%nat → insw (S n) c = (set_hw (set_doing Idle (hw c)) c, l).
Proof.
  induction n as [|n IH]; intros c l Hd Hl; destruct l as [|a [|b l]]; try done; cbn [length] in Hl; rewrite insw_S; unfold data_in; rewrite Hd.
  - destruct l; [|cbn in Hl; lia]. by rewrite bool_decide_eq_true_2.
  - rewrite bool_decide_eq_false_2 by (intros ->; cbn in Hl; lia). set (c1 := set_hw _ c).
    rewrite (IH c1 l) by (done || lia). unfold c1. by destruct c as [? ? ? ? ? ? ? []].
Qed.

Lemma input_sector_ok c l : doing (hw c) = DataIn l → length l = 512%nat → input_sector c = (set_hw (set_doing Idle (hw c)) c, l).
Proof.
  intros Hd Hl. unfold input_sector. assert (Z.to_nat (BLOCK_SECTOR_SIZE / 2) = S 255) as -> by reflexivity. by apply insw_ok.
Qed.

Lemma ide_read_ok dev sec c d l : ready c → (dev < 2)%nat → 0 ≤ sec < 2 ^ 28 → drive_at (hw c) dev = Some d →
  medium d !! Z.to_nat sec = Some l → length l = 512%nat →
  ∃ c', ide_read true dev sec c = Ok (c', l) ∧ ready c' ∧ drives (hw c') = drives (hw c) ∧ delays (hw c') = tl (delays (hw c)).
Proof.
  intros [R1 R2 R3 R4 R5] Hdev Hs Hd Hl Hlen. unfold ide_read, acquire. rewrite R3. cbn [mbind res_bind].
  assert (working (set_clock true c) dev d) as Hw by (by split).
  destruct (select_sector_ok dev sec (set_clock true c) d Hw R2 Hdev Hs) as (h & -> & Hw1 & S1 & S2 & S3 & S4 & S5 & S6 & S7 & S8).
  cbn [mbind res_bind]. set (c1 := set_hw h _) in *.
  assert (command 0x20 h = start (λ n, Fetching n (Some l)) h) as Ec.
  { unfold command. assert (drive_at h (selected h) = Some d) as -> by (unfold drive_at in *; rewrite S5, S2; exact Hd).
    rewrite S1, S7, S8, S6. pose proof (lookup_lt_Some _ _ _ Hl). rewrite (proj2 (Z.ltb_lt _ _)) by lia. cbn [andb]. by rewrite Hl. }
  destruct (fetch_ok 0x20 c1 (Some l) (wk_base _ _ _ Hw1) (wk_wait _ _ _ Hw1) ltac:(c_lia) Ec) as (c2 & -> & E2).
  cbn [mbind res_bind]. rewrite E2. cbn [mbind res_bind]. set (c3 := after _ c1).
  assert (working c3 dev d) as Hw3 by (destruct Hw1; by split).
  rewrite (wait_data c3 dev d) by (done || apply Hw3). cbn [mbind res_bind negb]. rewrite (input_sector_ok c3 l) by done.
  eexists. split; [reflexivity|].
  split_and!; [destruct Hw3; by split|exact S2|]. cbn. by rewrite S3.
Qed.

Lemma wait_idle c dev d : reg_base c = base (hw c) → drive_at (hw c) dev = Some d → selected (hw c) = dev → doing (hw c) = Idle →
  wait_while_busy c = Ok (c, false).
Proof.
  intros Hb Hd Hs Hi. assert (inb (reg_alt_status c) c = 64) as E.
  { unfold inb. rewrite Hb. replace (base (hw c) + 518 - base (hw c)) with 518 by lia.
    unfold port_in, status, busy, drq. rewrite Hs, Hd. cbn [Z.eqb Pos.eqb]. by rewrite Hi. }
  unfold wait_while_busy. generalize 2999%nat. intros n. cbn [for_ret]. by rewrite E.
Qed.

(** A sector that the disk has not got: the driver panics. *)
Lemma ide_read_past dev sec c d : ready c → (dev < 2)%nat → Z.of_nat (length (medium d)) ≤ sec < 2 ^ 28 → drive_at (hw c) dev = Some d →
  ide_read true dev sec c = Err EPanic.
Proof.
  intros [R1 R2 R3 R4 R5] Hdev Hs Hd. unfold ide_read, acquire. rewrite R3. cbn [mbind res_bind].
  assert (working (set_clock true c) dev d) as Hw by (by split).
  destruct (select_sector_ok dev sec (set_clock true c) d Hw R2 Hdev) as (h & -> & Hw1 & S1 & S2 & S3 & S4 & S5 & S6 & S7 & S8); [lia|].
  cbn [mbind res_bind]. set (c1 := set_hw h _) in *.
  assert (command 0x20 h = start (λ n, Fetching n None) h) as Ec.
  { unfold command. assert (drive_at h (selected h) = Some d) as -> by (unfold drive_at in *; rewrite S5, S2; exact Hd).
    rewrite S1, S7, S8, S6. rewrite (proj2 (Z.ltb_ge _ _)) by lia. done. }
  destruct (fetch_ok 0x20 c1 None (wk_base _ _ _ Hw1) (wk_wait _ _ _ Hw1) ltac:(c_lia) Ec) as (c2 & -> & E2).
  cbn [mbind res_bind]. rewrite E2. cbn [mbind res_bind]. set (c3 := after _ c1).
  assert (working c3 dev d) as Hw3 by (destruct Hw1; by split). by rewrite (wait_idle c3 dev d) by (done || apply Hw3).
Qed.

(** ** Writing *)

Lemma status_busy c dev d n lba i : working c dev d → selected (hw c) = dev → doing (hw c) = Starting n i lba → inb (reg_alt_status c) c = 128.
Proof.
  intros [W1 _ _ _ W5] Hs Hd. unfold inb. rewrite W1. replace (base (hw c) + 518 - base (hw c)) with 518 by lia.
  unfold port_in, status. rewrite Hs, W5. cbn [Z.eqb Pos.eqb]. unfold busy. by rewrite Hd.
Qed.

Lemma set_working c h dev d : working c dev d → base h = base (hw c) → drives h = drives (hw c) → working (set_hw h c) dev d.
Proof. intros [W1 W2 W3 W4 W5] Hb Hd. split; try done; cbn; [congruence|]. unfold drive_at. by rewrite Hd. Qed.

(** The disk asks for the data within the time that the driver waits. *)
Lemma wait_start c dev d n lba : working c dev d → selected (hw c) = dev → doing (hw c) = Starting n dev lba → n ≤ 2999 * 10000000 →
  wait_while_busy c = Ok (set_hw (set_doing (DataOut dev lba []) (hw c)) c, true).
Proof.
  unfold wait_while_busy. set (body := λ (_ : Z) (c : channel), _). intros Hw Hs Hd Hn.
  assert (∀ m i c n, working c dev d → selected (hw c) = dev → doing (hw c) = Starting n dev lba → n ≤ Z.of_nat m * 10000000 →
    for_ret (S m) i body c = Ok (inr (set_hw (set_doing (DataOut dev lba []) (hw c)) c, true)) ∨ m = 0%nat) as H.
  { clear. induction m as [|m IH]; intros i c n Hw Hs Hd Hn; [by right|left].
    assert (body i c = Ok (inl (react (pass 10000000 (hw c)) c))) as Hb by (unfold body; rewrite (status_busy c dev d n lba dev) by done; reflexivity).
    cbn [for_ret]. rewrite Hb. cbn [mbind res_bind]. unfold pass. rewrite Hd.
    destruct (Z.ltb_spec 10000000 n).
    - set (c1 := react _ _). assert (working c1 dev d) as Hw1 by (by apply set_working).
      destruct (IH (i + 1) c1 (n - 10000000) Hw1) as [E| ->]; [done|done|lia| |lia]. cbn [for_ret] in E. rewrite E.
      unfold c1. by destruct c as [? ? ? ? ? ? ? []].
    - unfold complete. rewrite Hd. cbn [react]. set (c1 := set_hw _ c). assert (working c1 dev d) as Hw1 by (by apply set_working).
      assert (body (i + 1) c1 = Ok (inr (c1, true))) as -> by (unfold body; by rewrite (status_data c1 dev d) by (done || apply Hw1)). done. }
  change 3000%nat with (S 2999). destruct (H 2999%nat 0 c n Hw Hs Hd ltac:(lia)) as [->|]; [done|lia].
Qed.

Lemma outsw_S n a b l c : outsw (S n) (a :: b :: l) c = outsw n l (react (data_out a b (hw c)) c).
Proof. done. Qed.

Lemma outsw_ok n : ∀ c dev lba got l, doing (hw c) = DataOut dev lba got → (length got + 2 * S n = 512)%nat → length l = (2 * S n)%nat →
  outsw (S n) l c = react (start (λ t, Storing t dev lba (got ++ l)) (hw c)) c.
Proof.
  induction n as [|n IH]; intros c dev lba got l Hd Hg Hl; destruct l as [|a [|b l]]; try done; cbn [length] in Hl; rewrite outsw_S; unfold data_out; rewrite Hd.
  - destruct l; [|cbn in Hl; lia]. rewrite (proj2 (Nat.eqb_eq _ _)) by (rewrite length_app; cbn; lia). done.
  - rewrite (proj2 (Nat.eqb_neq _ _)) by (rewrite length_app; cbn; lia). cbn [react]. set (c1 := set_hw _ c).
    rewrite (IH c1 dev lba (got ++ [a; b]) l) by (done || rewrite ?length_app; cbn; lia). rewrite <- app_assoc. unfold c1, start.
    by destruct c as [? ? ? ? ? ? ? []].
Qed.

Definition stored (h : ata) (dev : nat) (lba : Z) (l : list Z) : ata :=
  set_doing Idle (set_drives (alter (fmap (λ d, Drive (<[Z.to_nat lba := l]> (medium d)) (identity d))) dev (drives h)) h).

Lemma drive_store_ok c dev lba l : completion_wait c = 0 → expecting_interrupt c = true →
  down (react (start (λ t, Storing t dev lba l) (hw c)) c) = Ok (set_hw (stored (set_delays (tl (delays (hw c))) (hw c)) dev lba l) c).
Proof.
  intros Hw He. unfold start, pass. cbn [doing set_doing]. destruct (0 <? hd 0 (delays (hw c))) eqn:E0.
  - unfold down. cbn [react completion_wait set_hw]. rewrite Hw. cbn [Z.ltb Z.compare hw doing set_doing complete].
    unfold react, channel_interrupt. cbn. rewrite He. cbn. rewrite Hw. cbn. by destruct c as [? ? ? ? ? ? ? []]; cbn in *; subst.
  - unfold complete. cbn [doing set_doing]. unfold down, react, channel_interrupt. cbn. rewrite He. cbn. rewrite Hw. cbn.
    by destruct c as [? ? ? ? ? ? ? []]; cbn in *; subst.
Qed.

(** The command to write, and the wait until the disk asks for the data. *)
Lemma start_write_ok c dev d sec : working c dev d → selected (hw c) = dev → command 0x30 (hw c) = start (λ t, Starting t dev sec) (hw c) →
  hd 0 (delays (hw c)) ≤ 2999 * 10000000 →
  ∃ c1, issue_pio_command true 0x30 c = Ok c1 ∧ wait_while_busy c1 = Ok (after (DataOut dev sec []) c, true).
Proof.
  intros Hw Hs Ec Hpat. rewrite issue_ok; [|apply Hw|c_lia]. rewrite Ec. eexists. split; [reflexivity|].
  unfold start, pass. cbn [doing set_doing]. destruct (Z.ltb_spec 0 (hd 0 (delays (hw c)))).
  - set (c3 := react _ _). assert (working c3 dev d) as Hw3 by (destruct Hw; by split).
    rewrite (wait_start c3 dev d (hd 0 (delays (hw c)) - 0) sec Hw3 Hs eq_refl) by lia.
    assert (set_hw (set_doing (DataOut dev sec []) (hw c3)) c3 = after (DataOut dev sec []) c) as ->; [|done].
    unfold c3, after. by destruct c as [? ? ? ? ? ? ? []].
  - set (c3 := react _ _). assert (c3 = after (DataOut dev sec []) c) as -> by reflexivity.
    apply (wait_data _ dev d); [apply Hw|apply Hw|done|done].
Qed.

Lemma finish_write_ok c dev sec l : doing (hw c) = DataOut dev sec [] → completion_wait c = 0 → expecting_interrupt c = true →
  length l = 512%nat → down (output_sector l c) = Ok (set_hw (stored (set_delays (tl (delays (hw c))) (hw c)) dev sec l) c).
Proof.
  intros Hd Hw He Hl. unfold output_sector. assert (Z.to_nat (BLOCK_SECTOR_SIZE / 2) = S 255) as -> by reflexivity.
  rewrite (outsw_ok 255 c dev sec [] l Hd eq_refl Hl). by apply drive_store_ok.
Qed.

Lemma ide_write_ok dev sec c d l : ready c → (dev < 2)%nat → 0 ≤ sec < 2 ^ 28 → drive_at (hw c) dev = Some d →
  (Z.to_nat sec < length (medium d))%nat → length l = 512%nat → hd 0 (delays (hw c)) ≤ 2999 * 10000000 →
  ∃ c', ide_write true dev sec l c = Ok c' ∧ ready c' ∧ delays (hw c') = tl (tl (delays (hw c))) ∧
    drives (hw c') = alter (fmap (λ d, Drive (<[Z.to_nat sec := l]> (medium d)) (identity d))) dev (drives (hw c)).
Proof.
  intros [R1 R2 R3 R4 R5] Hdev Hs Hd Hl Hlen Hpat. unfold ide_write, acquire. rewrite R3. cbn [mbind res_bind].
  assert (working (set_clock true c) dev d) as Hw by (by split).
  destruct (select_sector_ok dev sec (set_clock true c) d Hw R2 Hdev Hs) as (h & -> & Hw1 & S1 & S2 & S3 & S4 & S5 & S6 & S7 & S8).
  cbn [mbind res_bind]. set (c1 := set_hw h _) in *.
  assert (command 0x30 h = start (λ t, Starting t dev sec) h) as Ec.
  { unfold command. assert (drive_at h (selected h) = Some d) as -> by (unfold drive_at in *; rewrite S5, S2; exact Hd).
    rewrite S1, S7, S8, S6, S5. rewrite (proj2 (Z.ltb_lt _ _)) by lia. done. }
  assert (hd 0 (delays (hw c1)) ≤ 2999 * 10000000) as Hp1 by (change (hw c1) with h; rewrite S3; exact Hpat).
  destruct (start_write_ok c1 dev d sec Hw1 S5 Ec Hp1) as (c2 & E1 & E2).
  remember (after (DataOut dev sec []) c1) as c3 eqn:Ec3.
  assert (working c3 dev d) as Hw3 by (rewrite Ec3; destruct Hw1; by split).
  assert (down (output_sector l c3) = Ok (set_hw (stored (set_delays (tl (delays (hw c3))) (hw c3)) dev sec l) c3)) as E3
    by (apply finish_write_ok; [by rewrite Ec3|apply Hw3|by rewrite Ec3|done]).
  rewrite E1, ok_bind, E2, ok_bind. cbn [negb]. rewrite E3, ok_bind. subst c3.
  eexists. split; [reflexivity|]. destruct Hw3. split_and!; [by split|cbn; by rewrite S3|cbn; by rewrite S2].
Qed.

(** Between a command that the disk refuses and its end. *)
Definition refusing (c : channel) (dev : nat) (d : drive) : Prop :=
  reg_base c = base (hw c) ∧ drive_at (hw c) dev = Some d ∧ selected (hw c) = dev ∧ (doing (hw c) = Idle ∨ ∃ n, doing (hw c) = Fetching n None).

Lemma refusing_pass t c dev d n : refusing c dev d → doing (hw c) = Fetching n None → refusing (react (pass t (hw c)) c) dev d.
Proof.
  intros (R1 & R2 & R3 & _) Hd. unfold pass. rewrite Hd. destruct (t <? n).
  - split_and!; try done. right. by eexists.
  - unfold complete. rewrite Hd. cbn [react]. unfold channel_interrupt. cbn. destruct (expecting_interrupt c); split_and!; try done; by left.
Qed.

(** No data is asked for, however long the disk takes. *)
Lemma wait_refused c dev d : refusing c dev d → ∃ c', wait_while_busy c = Ok (c', false).
Proof.
  unfold wait_while_busy. set (body := λ (_ : Z) (c : channel), _). intros Hr.
  destruct (for_ret_total (λ _ c, refusing c dev d) (λ x, snd x = false) body 3000 0 c) as (r & -> & Hr'); [|done|].
  - clear c Hr. intros i c _ Hr. pose proof Hr as (R1 & R2 & R3 & Hd). unfold body.
    assert (inb (reg_alt_status c) c = status (hw c)) as -> by (unfold inb; rewrite R1; replace (base (hw c) + 518 - base (hw c)) with 518 by lia;
      unfold port_in; by rewrite R3, R2).
    unfold status, busy, drq. rewrite R3, R2. destruct Hd as [Hd|[n Hd]]; rewrite Hd.
    + eexists. split; [done|done].
    + eexists. split; [done|]. by eapply refusing_pass.
  - rewrite ok_bind. destruct r as [c'|[c' ok]]; [by eexists|]. cbn in Hr'. subst ok. by eexists.
Qed.

Lemma ide_write_past dev sec c d l : ready c → (dev < 2)%nat → Z.of_nat (length (medium d)) ≤ sec < 2 ^ 28 → drive_at (hw c) dev = Some d →
  ide_write true dev sec l c = Err EPanic.
Proof.
  intros [R1 R2 R3 R4 R5] Hdev Hs Hd. unfold ide_write, acquire. rewrite R3, ok_bind.
  assert (working (set_clock true c) dev d) as Hw by (by split).
  destruct (select_sector_ok dev sec (set_clock true c) d Hw R2 Hdev) as (h & -> & Hw1 & S1 & S2 & S3 & S4 & S5 & S6 & S7 & S8); [lia|].
  rewrite ok_bind. set (c1 := set_hw h _) in *. rewrite issue_ok, ok_bind by (apply Hw1 || c_lia).
  assert (command 0x30 (hw c1) = start (λ n, Fetching n None) h) as ->.
  { change (hw c1) with h. unfold command. assert (drive_at h (selected h) = Some d) as -> by (unfold drive_at in *; rewrite S5, S2; exact Hd).
    rewrite S1, S7, S8, S6. rewrite (proj2 (Z.ltb_ge _ _)) by lia. done. }
  set (h2 := set_doing (Fetching (hd 0 (delays h)) None) (set_delays (tl (delays h)) h)). set (c2 := set_hw h2 (set_expecting true c1)).
  assert (refusing c2 dev d) as Hr2.
  { destruct Hw1 as [W1 _ _ _ W5]. split_and!; try done. right. by eexists. }
  pose proof (refusing_pass 0 c2 dev d _ Hr2 eq_refl) as Hr3.
  assert (react (start (λ n, Fetching n None) h) (set_expecting true c1) = react (pass 0 (hw c2)) c2) as ->.
  { unfold start. change (hw c2) with h2. fold h2. unfold react. by destruct (pass 0 h2) as [h3 []]. }
  destruct (wait_refused _ dev d Hr3) as (c4 & ->). done.
Qed.

(** ** The driver *)

(** A channel with the disk of interest. *)
Record ide_disk := IdeDisk { chan : channel; unit_no : nat }.

#[export] Instance ide_driver : Driver ide_disk := {
  drv_read n s := '(c, x) ← ide_read true (unit_no s) n (chan s); Ok (IdeDisk c (unit_no s), x);
  drv_write n x s := c ← ide_write true (unit_no s) n x (chan s); Ok (IdeDisk c (unit_no s));
}.

(** The driver waits at most 30 seconds for a disk; [patient] disks are faster. *)
Definition patient (h : ata) : Prop := Forall (λ t, t ≤ 2999 * 10000000) (delays h).

Record ide_ok (s : ide_disk) (l : list (list Z)) : Prop := {
  io_ready : ready (chan s);
  io_unit : (unit_no s < 2)%nat;
  io_medium : medium <$> drive_at (hw (chan s)) (unit_no s) = Some l;
  io_patient : patient (hw (chan s));
  io_size : Z.of_nat (length l) ≤ 2 ^ 28;
  io_sector x : x ∈ l → length x = 512%nat;
}.

Lemma patient_hd h : patient h → hd 0 (delays h) ≤ 2999 * 10000000 ∧ Forall (λ t, t ≤ 2999 * 10000000) (tl (delays h)).
Proof. unfold patient. intros Hp. destruct Hp; cbn; [split; [lia|constructor]|done]. Qed.

Lemma ide_read_refines s l n x : ide_ok s l → 0 ≤ n → l !! Z.to_nat n = Some x → ∃ s', drv_read n s = Ok (s', x) ∧ ide_ok s' l.
Proof.
  intros [I1 I2 I3 I4 I5 I6] Hn Hx. apply fmap_Some in I3 as (d & Hd & ->). pose proof (lookup_lt_Some _ _ _ Hx) as Hlt.
  destruct (ide_read_ok (unit_no s) n (chan s) d x I1 I2) as (c' & E & Hr & Hdr & Hde);
    [lia|done|done|apply I6; by eapply list_elem_of_lookup_2|].
  exists (IdeDisk c' (unit_no s)). split; [cbn [drv_read ide_driver]; by rewrite E|]. split; try done; cbn.
  - unfold drive_at in *. rewrite Hdr, Hd. done.
  - unfold patient. rewrite Hde. by apply patient_hd.
Qed.

Lemma ide_write_refines s l n x : ide_ok s l → 0 ≤ n < Z.of_nat (length l) → length x = 512%nat →
  ∃ s', drv_write n x s = Ok s' ∧ ide_ok s' (<[Z.to_nat n := x]> l).
Proof.
  intros [I1 I2 I3 I4 I5 I6] Hn Hx. apply fmap_Some in I3 as (d & Hd & ->). destruct (patient_hd _ I4) as [Hp Hp'].
  destruct (ide_write_ok (unit_no s) n (chan s) d x I1 I2) as (c' & E & Hr & Hde & Hdr); [lia|done|lia|done|done|].
  exists (IdeDisk c' (unit_no s)). split; [cbn [drv_write ide_driver]; by rewrite E|]. split; try done; cbn.
  - unfold drive_at in *. rewrite Hdr, list_lookup_alter_eq. destruct (drives (hw (chan s)) !! unit_no s) as [[y|]|]; cbn in *; [|done..].
    by injection Hd as ->.
  - unfold patient. rewrite Hde. by destruct Hp'; [constructor|].
  - by rewrite length_insert.
  - intros y (i & Hi)%list_elem_of_lookup_1. apply list_lookup_insert_Some in Hi as [(_ & <- & _)|[_ Hi]]; [done|].
    by eapply I6, list_elem_of_lookup_2.
Qed.

#[export] Instance ide_driver_ok : DriverOk ide_disk := {
  drv_ok := ide_ok;
  drv_read_ok := ide_read_refines;
  drv_write_ok := ide_write_refines;
}.
