(* ===== verification/IdeInit.v ===== *)
(** * devices/ide.c: finding the disks

    [ide_init] resets a channel, tells disks from empty positions, asks the
    disks for their capacity and registers those of less than 1 GB. *)

From Stdlib Require Import String.
From S2P Require Import Prelude Block Driver Ide IdeProps.

(** ** While a reset is going on *)

Definition settling (p : phase) (n : Z) : Prop := p = Idle ∨ ∃ t, p = Reset t ∧ t ≤ n.

(** The channel: where its registers are, and the disk that answers for both
    positions. *)
Record wired (c : channel) : Prop := {
  wi_base : reg_base c = base (hw c);
  wi_devices dev : (dev < 2)%nat → ∃ d, devices c !! dev = Some d ∧ dev_no d = Z.of_nat dev;
  wi_master : is_Some (drive_at (hw c) 0);
}.

(** [c'] is [c] with another phase and other registers. *)
Definition changed (c : channel) (a b p q e : Z) (ph : phase) : channel := set_hw (set_doing ph (regs (hw c) a b p q e)) c.

Lemma wired_changed c a b p q e ph : wired c → wired (changed c a b p q e ph).
Proof. by intros [W1 W2 W3]. Qed.

Lemma sleep_settling t c n : settling (doing (hw c)) n → 0 ≤ t →
  ∃ ph, sleep t c = Ok (set_hw (set_doing ph (hw c)) c) ∧ settling ph n.
Proof.
  intros [Hd|(x & Hd & Hx)] Ht; unfold sleep, pass; rewrite Hd.
  - exists Idle. split; [|by left]. cbn. rewrite <- Hd. by destruct c as [? ? ? ? ? ? ? []].
  - destruct (Z.ltb_spec t x).
    + exists (Reset (x - t)). split; [done|]. right. exists (x - t). split; [done|lia].
    + exists Idle. split; [unfold complete; by rewrite Hd|by left].
Qed.

Lemma outb_changed c a b p q e ph v : reg_base c = base (hw c) → let c0 := changed c a b p q e ph in
  outb (reg_nsect c0) v c0 = Ok (changed c (u8 v) b p q e ph) ∧ outb (reg_lbal c0) v c0 = Ok (changed c a (u8 v) p q e ph) ∧
  outb (reg_device c0) v c0 = Ok (changed c a b p q (u8 v) ph).
Proof.
  intros Hb c0. unfold outb. change (reg_base c0) with (reg_base c). change (base (hw c0)) with (base (hw c)). rewrite Hb.
  assert (∀ k, base (hw c) + k - base (hw c) = k) as E by lia. rewrite !E. by split_and!.
Qed.

Lemma select_settling c a b p q e ph n dev : wired c → settling ph n → (dev < 2)%nat →
  ∃ ph', select_device dev (changed c a b p q e ph) = Ok (changed c a b p q (Z.lor 0xa0 (device_bits dev)) ph') ∧ settling ph' n.
Proof.
  intros [W1 W2 W3] Hph Hdev. destruct (W2 dev Hdev) as (d & Hd & Hn). unfold select_device. change (devices (changed c a b p q e ph)) with (devices c).
  rewrite Hd. cbn [deref]. rewrite ok_bind, Hn.
  destruct (outb_changed c a b p q e ph (if Z.of_nat dev =? 1 then Z.lor 0xa0 0x10 else 0xa0) W1) as (_ & _ & ->). rewrite ok_bind.
  destruct (sleep_settling 400 (changed c a b p q (u8 (if Z.of_nat dev =? 1 then Z.lor 160 16 else 160)) ph) n Hph) as (ph' & -> & Hph'); [lia|].
  exists ph'. split; [|done]. unfold device_bits. by destruct (Z.of_nat dev =? 1).
Qed.

(** A register of a channel with a master. *)
Lemma inb_changed c a b p q e ph k : wired c → let c0 := changed c a b p q e ph in
  inb (reg_base c0 + k) c0 = if k =? 1 then errreg (hw c) else if k =? 2 then a else if k =? 3 then b else if k =? 4 then p
    else if k =? 5 then q else if k =? 6 then e else status (hw c0).
Proof.
  intros [W1 W2 [d Hd]] c0. unfold inb. change (reg_base c0) with (reg_base c). change (base (hw c0)) with (base (hw c)). rewrite W1.
  replace (base (hw c) + k - base (hw c)) with k by lia. unfold port_in. change (drive_at (hw c0)) with (drive_at (hw c)). rewrite Hd.
  destruct (drive_at (hw c) (selected (hw c0))); reflexivity.
Qed.

Lemma status_changed c a b p q e ph : wired c → let c0 := changed c a b p q e ph in
  status (hw c0) = match drive_at (hw c) (if Z.testbit e 4 then 1%nat else 0%nat) with
                   | Some _ => match ph with Idle => 64 | DataIn _ | DataOut _ _ _ => 72 | _ => 128 end
                   | None => 0
                   end.
Proof.
  intros [W1 W2 [d Hd]] c0. unfold status, selected, busy, drq. change (drive_at (hw c0)) with (drive_at (hw c)).
  change (device (hw c0)) with e. change (doing (hw c0)) with ph. rewrite Hd. destruct (drive_at (hw c) _); [|done]. by destruct ph.
Qed.

Lemma wait_settling c a b p q e ph : wired c → settling ph (2999 * 10000000) →
  (is_Some (drive_at (hw c) (if Z.testbit e 4 then 1%nat else 0%nat)) ∨ ph = Idle) →
  ∃ r, wait_while_busy (changed c a b p q e ph) = Ok (changed c a b p q e Idle, r).
Proof.
  intros Hw Hph Hsel. unfold wait_while_busy. set (body := λ (_ : Z) (c : channel), _).
  assert (∀ i, ∃ r, body i (changed c a b p q e Idle) = Ok (inr (changed c a b p q e Idle, r))) as Hidle.
  { intros i. unfold body. rewrite (inb_changed c a b p q e Idle 0x206 Hw). cbn [Z.eqb Pos.eqb]. rewrite status_changed by done.
    destruct (drive_at _ _); eexists; reflexivity. }
  assert (∀ m i t, is_Some (drive_at (hw c) (if Z.testbit e 4 then 1%nat else 0%nat)) → t ≤ Z.of_nat (S m) * 10000000 →
    ∃ r, for_ret (S (S m)) i body (changed c a b p q e (Reset t)) = Ok (inr (changed c a b p q e Idle, r))) as H.
  { clear Hph Hsel ph. intros m i t [d Hd]. revert i t.
    assert (∀ i t, body i (changed c a b p q e (Reset t)) = Ok (inl (react (pass 10000000 (hw (changed c a b p q e (Reset t)))) (changed c a b p q e (Reset t))))) as Hb.
    { intros i t. unfold body. rewrite (inb_changed c a b p q e (Reset t) 0x206 Hw). cbn [Z.eqb Pos.eqb]. rewrite status_changed, Hd by done. reflexivity. }
    assert (∀ n i t, t ≤ 10000000 → ∃ r, for_ret (S (S n)) i body (changed c a b p q e (Reset t)) = Ok (inr (changed c a b p q e Idle, r))) as Hlast.
    { intros n i t Ht. rewrite for_ret_S, Hb, ok_bind. unfold pass. cbn [doing changed set_hw hw set_doing]. rewrite (proj2 (Z.ltb_ge _ _)) by lia.
      destruct (Hidle (i + 1)) as [r E]. exists r. rewrite for_ret_S.
      change (react _ _) with (changed c a b p q e Idle). by rewrite E. }
    induction m as [|m IH]; intros i t Ht; [apply Hlast; lia|]. destruct (Z.le_gt_cases t 10000000); [by apply Hlast|].
    rewrite for_ret_S, Hb, ok_bind. unfold pass. cbn [doing changed set_hw hw set_doing]. rewrite (proj2 (Z.ltb_lt _ _)) by lia.
    change (react _ _) with (changed c a b p q e (Reset (t - 10000000))). apply IH. lia. }
  destruct Hph as [->|(t & -> & Ht)].
  - rewrite for_ret_S. destruct (Hidle 0) as [r ->]. by exists r.
  - destruct Hsel as [Hsel|]; [|done]. destruct (H 2998%nat 0 t Hsel) as [r E]; [lia|]. exists r. by rewrite E.
Qed.

(** ** [reset_channel] *)

Lemma changed_id c : doing (hw c) = Idle → c = changed c (nsect (hw c)) (lbal (hw c)) (lbam (hw c)) (lbah (hw c)) (device (hw c)) Idle.
Proof. intros H. unfold changed, regs. destruct c as [? ? ? ? ? ? ? []]. cbn in *. by subst. Qed.

Lemma sleep_changed c a b p q e ph n t : settling ph n → 0 ≤ t →
  ∃ ph', sleep t (changed c a b p q e ph) = Ok (changed c a b p q e ph') ∧ settling ph' n.
Proof. intros Hph Ht. destruct (sleep_settling t (changed c a b p q e ph) n Hph Ht) as (ph' & E & H). by exists ph'. Qed.

Lemma ctl_zero c a b p q e ph : reg_base c = base (hw c) → let c0 := changed c a b p q e ph in outb (reg_ctl c0) 0 c0 = Ok c0.
Proof.
  intros Hb c0. unfold outb. change (reg_base c0) with (reg_base c). change (base (hw c0)) with (base (hw c)). rewrite Hb.
  by replace (base (hw c) + 518 - base (hw c)) with 518 by lia.
Qed.

(** The channel after the reset: the registers hold the signature. *)
Definition fresh (c : channel) : channel :=
  set_hw (Ata (base (hw c)) 1 1 0 0 0 1 Idle (drives (hw c)) (tl (delays (hw c))) (floating (hw c))) c.

Lemma ctl_reset c a b p q e n : reg_base c = base (hw c) → hd 0 (delays (hw c)) ≤ n → let c0 := changed c a b p q e Idle in
  ∃ ph, outb (reg_ctl c0) 4 c0 = Ok (changed (fresh c) 1 1 0 0 0 ph) ∧ settling ph n.
Proof.
  intros Hb Hn c0. unfold outb. change (reg_base c0) with (reg_base c). change (base (hw c0)) with (base (hw c)). rewrite Hb.
  replace (base (hw c) + 518 - base (hw c)) with 518 by lia.
  change (port_out 518 (u8 4) (hw c0)) with (reset (hw c0)). unfold reset, start, pass. cbn [doing set_doing].
  change (delays (set_delays _ _)) with (tl (delays (hw c))). change (delays _) with (delays (hw c)).
  destruct (0 <? _); [exists (Reset (hd 0 (delays (hw c)) - 0))|exists Idle]; (split; [reflexivity|]); [right; eexists; split; [done|lia]|by left].
Qed.

Lemma probe_ok c a b p q e : wired c → let body dev '(c, present) :=
    c ← select_device (Z.to_nat dev) c;
    c ← outb (reg_nsect c) 0x55 c;
    c ← outb (reg_lbal c) 0xaa c;
    c ← outb (reg_nsect c) 0xaa c;
    c ← outb (reg_lbal c) 0x55 c;
    c ← outb (reg_nsect c) 0x55 c;
    c ← outb (reg_lbal c) 0xaa c;
    Ok (c, present ++ [(inb (reg_nsect c) c =? 0x55) && (inb (reg_lbal c) c =? 0xaa)]) in
  ∀ dev present, 0 ≤ dev < 2 →
  body dev (changed c a b p q e Idle, present) = Ok (changed c 0x55 0xaa p q (Z.lor 0xa0 (device_bits (Z.to_nat dev))) Idle, present ++ [true]).
Proof.
  intros Hw body dev present Hdev. unfold body. pose proof (wi_base _ Hw) as Hb.
  destruct (wi_devices _ Hw (Z.to_nat dev)) as (x & Hx & Hn); [lia|].
  rewrite (select_device_ok (Z.to_nat dev) (changed c a b p q e Idle) x) by done. rewrite ok_bind.
  change (set_hw _ _) with (changed c a b p q (Z.lor 0xa0 (device_bits (Z.to_nat dev))) Idle). set (e1 := Z.lor _ _).
  pose proof (λ a b v, outb_changed c a b p q e1 Idle v Hb) as Ho. cbv zeta in Ho.
  destruct (Ho a b 0x55) as (-> & _). rewrite ok_bind. destruct (Ho (u8 0x55) b 0xaa) as (_ & -> & _). rewrite ok_bind.
  destruct (Ho (u8 0x55) (u8 0xaa) 0xaa) as (-> & _). rewrite ok_bind. destruct (Ho (u8 0xaa) (u8 0xaa) 0x55) as (_ & -> & _). rewrite ok_bind.
  destruct (Ho (u8 0xaa) (u8 0x55) 0x55) as (-> & _). rewrite ok_bind. destruct (Ho (u8 0x55) (u8 0x55) 0xaa) as (_ & -> & _). rewrite ok_bind.
  by rewrite (inb_changed c _ _ _ _ _ _ 2 Hw), (inb_changed c _ _ _ _ _ _ 3 Hw).
Qed.

Lemma reset_channel_ok c : wired c → doing (hw c) = Idle → hd 0 (delays (hw c)) ≤ 2999 * 10000000 →
  reset_channel c = Ok (changed (fresh c) 1 1 0 0 0xb0 Idle).
Proof.
  intros Hw Hi Hn. pose proof (wi_base _ Hw) as Hb. rewrite (changed_id c Hi) at 1. unfold reset_channel.
  rewrite for_up_S. rewrite (probe_ok c _ _ _ _ _ Hw 0 []) by lia. rewrite ok_bind, for_up_S.
  rewrite (probe_ok c _ _ _ _ _ Hw (0 + 1) ([] ++ [true])) by lia. rewrite ok_bind. cbn [for_up]. rewrite ok_bind.
  rewrite ctl_zero, ok_bind, sleep_idle, ok_bind by done.
  destruct (ctl_reset c 0x55 0xaa (lbam (hw c)) (lbah (hw c)) (Z.lor 0xa0 (device_bits (Z.to_nat (0 + 1)))) _ Hb Hn) as (p1 & -> & H1). rewrite ok_bind.
  assert (wired (fresh c)) as Hf by (by destruct Hw).
  destruct (sleep_changed (fresh c) 1 1 0 0 0 p1 _ 10000 H1) as (p2 & -> & H2); [lia|]. rewrite ok_bind, ctl_zero, ok_bind by apply Hf.
  destruct (sleep_changed (fresh c) 1 1 0 0 0 p2 _ 150000000 H2) as (p3 & -> & H3); [lia|]. rewrite ok_bind.
  cbn [app lookup list_lookup default]. unfold id. cbv iota.
  destruct (select_settling (fresh c) 1 1 0 0 0 p3 _ 0%nat Hf H3) as (p4 & -> & H4); [lia|]. rewrite ok_bind.
  destruct (wait_settling (fresh c) 1 1 0 0 (Z.lor 0xa0 (device_bits 0)) p4 Hf H4) as [r5 ->]; [left; apply Hf|]. rewrite !ok_bind.
  destruct (wi_devices _ Hf 1) as (x & Hx & Hxn); [lia|].
  rewrite (select_device_ok 1 (changed (fresh c) 1 1 0 0 (Z.lor 0xa0 (device_bits 0)) Idle) x) by (done || apply Hf). rewrite ok_bind.
  change (set_hw _ _) with (changed (fresh c) 1 1 0 0 0xb0 Idle).
  rewrite for_ret_S, (inb_changed (fresh c) 1 1 0 0 0xb0 Idle 2 Hf), (inb_changed (fresh c) 1 1 0 0 0xb0 Idle 3 Hf). cbn [Z.eqb Pos.eqb andb]. rewrite !ok_bind.
  by destruct (wait_settling (fresh c) 1 1 0 0 0xb0 Idle Hf) as [r6 ->]; [by left|by right|].
Qed.

(** ** Which disks are found *)

Lemma check_device_type_ok dev c e : wired c → (dev < 2)%nat → errreg (hw c) = 1 →
  ∃ c', check_device_type dev (changed c 1 1 0 0 e Idle) = Ok (c', true) ∧
    c' = set_is_ata dev (bool_decide (is_Some (drive_at (hw c) dev))) (changed c 1 1 0 0 (Z.lor 0xa0 (device_bits dev)) Idle).
Proof.
  intros Hw Hdev He. destruct (wi_devices _ Hw dev Hdev) as (x & Hx & Hn). unfold check_device_type.
  rewrite (select_device_ok dev (changed c 1 1 0 0 e Idle) x) by (done || apply Hw). rewrite ok_bind.
  change (set_hw _ _) with (changed c 1 1 0 0 (Z.lor 0xa0 (device_bits dev)) Idle). set (e1 := Z.lor _ _).
  change (devices (changed c 1 1 0 0 e1 Idle)) with (devices c). rewrite Hx. cbn [deref]. rewrite ok_bind.
  rewrite (inb_changed c 1 1 0 0 e1 Idle 1 Hw), (inb_changed c 1 1 0 0 e1 Idle 4 Hw), (inb_changed c 1 1 0 0 e1 Idle 5 Hw), (inb_changed c 1 1 0 0 e1 Idle 7 Hw).
  cbn [Z.eqb Pos.eqb]. rewrite He, status_changed by done.
  assert ((if Z.testbit e1 4 then 1%nat else 0%nat) = dev) as -> by (unfold e1, device_bits; by destruct dev as [|[|]]; [..|lia]).
  destruct (drive_at (hw c) dev) as [d|]; eexists; (split; [reflexivity|done]).
Qed.

(** The capacity that the answer to IDENTIFY DEVICE holds, in words 60 and 61. *)
Definition capacity_of (d : drive) : Z :=
  at_ (identity d) 120 + 2 ^ 8 * at_ (identity d) 121 + 2 ^ 16 * at_ (identity d) 122 + 2 ^ 24 * at_ (identity d) 123.

Definition small (d : drive) : bool := capacity_of d <? 2 ^ 21.

Lemma identify_ok dev c d x : wired c → doing (hw c) = Idle → completion_wait c = 0 → (dev < 2)%nat → drive_at (hw c) dev = Some d →
  devices c !! dev = Some x → dev_no x = Z.of_nat dev → is_ata x = true → length (identity d) = 512%nat →
  ∃ h, drives h = drives (hw c) ∧ delays h = tl (delays (hw c)) ∧ doing h = Idle ∧ base h = base (hw c) ∧
  identify_ata_device true dev c = Ok (let c' := set_expecting true (set_hw h c) in
    if small d then (c', Some (capacity_of d)) else (set_is_ata dev false c', None)).
Proof.
  intros Hw Hi Hwt Hdev Hd Hx Hxn Hata Hlen. unfold identify_ata_device. rewrite Hx. cbn [deref]. rewrite ok_bind, Hata. cbn [ASSERT]. rewrite ok_bind.
  rewrite (select_device_wait_ok dev c x) by (done || apply Hw). rewrite ok_bind. set (c1 := set_hw _ c).
  assert (selected (hw c1) = dev) as Hs by (unfold selected, c1, device_bits; cbn; by destruct dev as [|[|]]; [..|lia]).
  assert (drive_at (hw c1) dev = Some d) as Hd1 by done.
  destruct (fetch_ok 0xec c1 (Some (identity d))) as (c2 & -> & E2); [apply Hw|done|c_lia| |].
  { unfold command. rewrite Hs, Hd1. change (doing (hw c1)) with (doing (hw c)). by rewrite Hi. }
  rewrite ok_bind, E2, ok_bind. set (c3 := after _ c1). rewrite (wait_data c3 dev d) by (done || apply Hw). rewrite ok_bind. cbn [negb].
  rewrite (input_sector_ok c3 (identity d)) by done. fold (capacity_of d).
  exists (hw (set_hw (set_doing Idle (hw c3)) c3)). split_and!; try done.
  change (1024 * 1024 * 1024 / BLOCK_SECTOR_SIZE) with (2 ^ 21). unfold small.
  destruct (Z.leb_spec (2 ^ 21) (capacity_of d)), (Z.ltb_spec (capacity_of d) (2 ^ 21)); try lia; done.
Qed.

Lemma wired_is_ata c dev b : wired c → wired (set_is_ata dev b c).
Proof.
  intros [W1 W2 W3]. split; try done. intros i Hi. destruct (W2 i Hi) as (x & Hx & Hn). cbn. destruct (decide (i = dev)) as [->|].
  - rewrite list_lookup_alter_eq, Hx. by eexists.
  - rewrite list_lookup_alter_ne by done. by exists x.
Qed.

(** What is registered for the disk at one position. *)
Definition found (chan_no dev : Z) (o : option drive) : list (string * Z) :=
  match o with
  | Some d => if small d then [(("hd" +:+ String (Ascii.ascii_of_nat (Z.to_nat (97 + chan_no * 2 + dev))) EmptyString)%string, capacity_of d)] else []
  | None => []
  end.

(** The channel in the course of [init_channel]. *)
Record found_at (c : channel) (h : ata) (chan_no : Z) (o : list (option drive)) (n : nat) : Prop := {
  fa_wired : wired c;
  fa_idle : doing (hw c) = Idle;
  fa_lock : clock c = false;
  fa_wait : completion_wait c = 0;
  fa_drives : drives (hw c) = o;
  fa_dev dev x : devices c !! dev = Some x → (n ≤ dev)%nat →
    dname x = ("hd" +:+ String (Ascii.ascii_of_nat (Z.to_nat (97 + chan_no * 2 + Z.of_nat dev))) EmptyString)%string ∧
    is_ata x = bool_decide (is_Some (default None (o !! dev)));
}.

Lemma identify_step c h k o n : found_at c h k o n → (n < 2)%nat → (∀ d, o !! n = Some (Some d) → length (identity d) = 512%nat) →
  ∃ c' x, devices c !! n = Some x ∧ found_at c' h k o (S n) ∧
    (if is_ata x then '(c, cap) ← identify_ata_device true n c; Ok (c, match cap with Some v => [(dname x, v)] | None => [] end) else Ok (c, [])) =
      Ok (c', found k (Z.of_nat n) (default None (o !! n))).
Proof.
  intros [F1 F2 F3 F4 F5 F6] Hn Hid. destruct (wi_devices _ F1 n Hn) as (x & Hx & Hxn). destruct (F6 n x Hx ltac:(lia)) as [Hname Hata].
  destruct (default None (o !! n)) as [d|] eqn:Ho.
  - rewrite bool_decide_eq_true_2 in Hata by done. assert (drive_at (hw c) n = Some d) as Hd by (unfold drive_at; by rewrite F5).
    destruct (identify_ok n c d x F1 F2 F4 Hn Hd Hx Hxn Hata) as (hw' & H1 & H2 & H3 & H4 & E).
    { apply Hid. destruct (o !! n) as [[]|]; cbn in Ho; [by injection Ho as ->|done..]. }
    set (c1 := set_expecting true (set_hw hw' c)).
    assert (wired c1) as W1. { destruct F1 as [A B C]. split; [by cbn; rewrite H4|done|]. unfold drive_at in *. cbn. by rewrite H1. }
    assert (found_at c1 h k o (S n)) as Fc.
    { split; try done; [cbn; congruence|]. intros i y Hy Hi. apply F6; [done|lia]. }
    unfold found. destruct (small d).
    + exists c1, x. split; [done|]. split; [exact Fc|]. rewrite Hata, E, Hname. reflexivity.
    + exists (set_is_ata n false c1), x. split; [done|]. split; [|rewrite Hata, E; reflexivity]. destruct Fc as [G1 G2 G3 G4 G5 G6].
      split; try done; [by apply wired_is_ata|]. intros i y Hy Hi. cbn in Hy. rewrite list_lookup_alter_ne in Hy by lia. by apply G6.
  - rewrite bool_decide_eq_false_2 in Hata by (by intros []). exists c, x. split; [done|]. split; [|by rewrite Hata].
    split; try done. intros i y Hy Hi. apply F6; [done|lia].
Qed.

Lemma init_channel_ok k h d o : base h = (if k =? 0 then 0x1f0 else 0x170) → doing h = Idle → drives h = [Some d; o] → patient h →
  (∀ i x, [Some d; o] !! i = Some (Some x) → length (identity x) = 512%nat) →
  ∃ c, init_channel true k h = Ok (c, found k 0 (Some d) ++ found k 1 o) ∧ ready c ∧ drives (hw c) = [Some d; o].
Proof.
  intros Hb Hi Hdr Hp Hid. unfold init_channel. cbv zeta. set (c := Channel _ _ _ _ _ _ _ h).
  assert (wired c) as Hw.
  { split; [by cbn; rewrite Hb| |unfold drive_at; cbn; by rewrite Hdr]. intros [|[|]] ?; [by eexists..|lia]. }
  rewrite reset_channel_ok by (done || apply patient_hd, Hp). rewrite ok_bind. assert (wired (fresh c)) as Hf by (by destruct Hw).
  destruct (check_device_type_ok 0 (fresh c) 0xb0 Hf) as (c1 & -> & ->); [lia|done|]. rewrite ok_bind. cbv iota.
  set (c2 := set_is_ata 0 (bool_decide (is_Some (drive_at (hw (fresh c)) 0))) (fresh c)).
  destruct (check_device_type_ok 1 c2 (Z.lor 0xa0 (device_bits 0))) as (c3 & E3 & Ec3); [by apply wired_is_ata|lia|done|].
  change (check_device_type 1 _) with (check_device_type 1 (changed c2 1 1 0 0 (Z.lor 0xa0 (device_bits 0)) Idle)). rewrite E3, ok_bind.
  assert (found_at c3 h k [Some d; o] 0) as F.
  { subst c3. split; try done; [by apply wired_is_ata, wired_changed, wired_is_ata|].
    intros i y Hy _. cbn in Hy. unfold drive_at in Hy. cbn in Hy. rewrite Hdr in Hy.
    destruct i as [|[|]]; [injection Hy as <-; done|injection Hy as <-; by destruct o|done]. }
  destruct (identify_step c3 h k _ 0 F) as (c4 & x & Hx & F4 & E4); [lia|by apply (Hid 0%nat)|].
  destruct (identify_step c4 h k _ 1 F4) as (c5 & y & Hy & F5 & E5); [lia|by apply (Hid 1%nat)|].
  set (body := λ (dev : Z) '(c, l), _).
  assert (∀ n c c' x l r, devices c !! n = Some x → (if is_ata x then '(c, cap) ← identify_ata_device true n c;
      Ok (c, match cap with Some v => [(dname x, v)] | None => [] end) else Ok (c, [])) = Ok (c', r) → body (Z.of_nat n) (c, l) = Ok (c', l ++ r)) as Hbody.
  { intros n c' c'' z l r Hz E. unfold body. rewrite Nat2Z.id, Hz. cbn [deref]. rewrite ok_bind. destruct (is_ata z).
    - destruct (identify_ata_device true n c') as [[a [v|]]|]; [..|done]; injection E as <- <-; cbn; by rewrite ?app_nil_r.
    - injection E as <- <-. by rewrite app_nil_r. }
  rewrite for_up_S, (Hbody 0%nat _ _ _ _ _ Hx E4), ok_bind, for_up_S, (Hbody 1%nat _ _ _ _ _ Hy E5), ok_bind. exists c5. split; [done|].
  destruct F5 as [[G1 G2 _] G3 G4 G5 G6 _]. split; [by split|done].
Qed.

(** ** The theorems *)

(** C14. A disk behind the driver is an array of sectors: from any state in which
    the channel is idle, whatever time the hardware takes up to the 30 seconds
    that the driver waits, [ide_read] returns the sector, [ide_write] replaces
    it and nothing else, on this disk or on the other one of the channel, and
    both leave the channel idle; a sector that the disk has not got makes the
    kernel panic, in [ide_read] and in [ide_write]. *)
Theorem ide_refines_array dev n x c d : ready c → patient (hw c) → (dev < 2)%nat → drive_at (hw c) dev = Some d → 0 ≤ n < 2 ^ 28 →
  match medium d !! Z.to_nat n with
  | Some y =>
      length y = 512%nat → length x = 512%nat →
      (∃ c', ide_read true dev n c = Ok (c', y) ∧ ready c' ∧ patient (hw c') ∧ drives (hw c') = drives (hw c)) ∧
      (∃ c', ide_write true dev n x c = Ok c' ∧ ready c' ∧ patient (hw c') ∧
         drives (hw c') = <[dev := Some (Drive (<[Z.to_nat n := x]> (medium d)) (identity d))]> (drives (hw c)))
  | None => ide_read true dev n c = Err EPanic ∧ ide_write true dev n x c = Err EPanic
  end.
Proof.
  intros Hr Hp Hdev Hd Hn. destruct (patient_hd _ Hp) as [Hp1 Hp2]. destruct (medium d !! Z.to_nat n) as [y|] eqn:Hy.
  - intros Hly Hlx. split.
    + destruct (ide_read_ok dev n c d y) as (c' & E & Hr' & Hdr & Hde); [done..|]. exists c'. split_and!; try done. unfold patient. by rewrite Hde.
    + destruct (ide_write_ok dev n c d x) as (c' & E & Hr' & Hde & Hdr); [done..|by eapply lookup_lt_Some|done|done|].
      exists c'. split_and!; [done|done|unfold patient; rewrite Hde; by destruct Hp2; [constructor|]|]. rewrite Hdr.
      unfold drive_at in Hd. destruct (drives (hw c) !! dev) as [[z|]|] eqn:Ez; cbn in Hd; [injection Hd as ->|done..].
      apply list_eq. intros i. destruct (decide (i = dev)) as [->|Hne].
      * rewrite list_lookup_alter_eq, Ez, list_lookup_insert_eq by (by eapply lookup_lt_Some). done.
      * by rewrite list_lookup_alter_ne, list_lookup_insert_ne by done.
  - apply lookup_ge_None in Hy. split; [apply (ide_read_past dev n c d)|apply (ide_write_past dev n c d)]; done || lia.
Qed.

(** C32. The loop of [ide_init] on a channel with a disk [d] in the first position
    and maybe another in the second: after the reset and the detection exactly
    the disks of less than 2^21 sectors are registered, under the names of
    their positions and with the capacity they report; the channel is then
    idle, as [ide_read] and [ide_write] need it. *)
Theorem ide_init_finds_disks k h d o : base h = (if k =? 0 then 0x1f0 else 0x170) → doing h = Idle → drives h = [Some d; o] → patient h →
  (∀ i x, [Some d; o] !! i = Some (Some x) → length (identity x) = 512%nat) →
  ∃ c, init_channel true k h = Ok (c, found k 0 (Some d) ++ found k 1 o) ∧ ready c ∧ drives (hw c) = drives h.
Proof.
  intros Hb Hi Hd Hp Hid. rewrite Hd. by apply init_channel_ok.
Qed.

(** *** Witnesses *)

Definition demo_drive : drive := Drive (repeat (repeat 7 512) 4) (repeat 0 120 ++ [4; 0; 0; 0] ++ repeat 0 388).
Definition demo_ata : ata := Ata 0x1f0 0 0 0 0 0 0 Idle [Some demo_drive; None] [1000; 2500000] 255.

Lemma ide_init_witness : ∃ c, init_channel true 0 demo_ata = Ok (c, [("hda"%string, 4)]) ∧ ready c.
Proof.
  destruct (ide_init_finds_disks 0 demo_ata demo_drive None eq_refl eq_refl eq_refl) as (c & E & Hr & _).
  - repeat constructor; vm_compute; congruence.
  - intros [|[|i]] x Hx; [injection Hx as <-; reflexivity|discriminate Hx|discriminate Hx].
  - exists c. split; [exact E|exact Hr].
Defined.

Definition demo_channel : channel :=
  Channel "ide0" 0x1f0 46 false false 0 [AtaDisk "hda" 0 true; AtaDisk "hdb" 1 false] demo_ata.

Lemma ide_witness : (∃ c, ide_read true 0 3 demo_channel = Ok (c, repeat 7 512) ∧ ready c) ∧
  ide_write true 0 4 (repeat 9 512) demo_channel = Err EPanic.
Proof.
  assert (ready demo_channel) as Hr.
  { split; try reflexivity. intros [|[|i]] Hi; [eexists; split; reflexivity..|lia]. }
  assert (patient (hw demo_channel)) as Hp by (repeat constructor; vm_compute; congruence).
  pose proof (λ n, ide_refines_array 0 n (repeat 9 512) demo_channel demo_drive Hr Hp) as H. split.
  - destruct (H 3) as [(c & E & Hr' & _) _]; [lia|reflexivity|lia|reflexivity|reflexivity|]. exists c. exact (conj E Hr').
  - apply (H 4); [lia|reflexivity|lia].
Defined.
