(* ===== verification/Partition.v ===== *)
(** * devices/partition.c: partitions

    The partition table of a disk is read from its first sector, and each
    partition in it that lies inside the disk is registered as a block device
    of its own.  A partition is a driver over the device it is part of: it is
    a [Driver] whenever that device has one, and a correct one whenever that
    device has a correct one.  The messages that are printed are left out. *)

From Stdlib Require Import String Ascii.
From stdpp Require Import pretty.
From S2P Require Import Prelude Block Driver.

(** ** Data *)

Record partition (St : Type) := Partition { pblock : dev St; start : Z }.
Arguments Partition {St}.
Arguments pblock {St}.
Arguments start {St}.

Record partition_table_entry := Entry {
  bootable : Z;
  start_chs : list Z;
  etype : Z;
  end_chs : list Z;
  offset : Z;
  esize : Z;
}.

Definition entry_of (pt : list Z) (i : Z) : partition_table_entry :=
  let k := 446 + 16 * i in
  Entry (at_ pt k) [at_ pt (k + 1); at_ pt (k + 2); at_ pt (k + 3)] (at_ pt (k + 4))
    [at_ pt (k + 5); at_ pt (k + 6); at_ pt (k + 7)] (word32 pt (k + 8)) (word32 pt (k + 12)).
Definition signature (pt : list Z) : Z := half pt 510.

Definition type_names : list (Z * string) := (
  [ (0x00, "Empty")
  ; (0x01, "FAT12")
  ; (0x02, "XENIX root")
  ; (0x03, "XENIX usr")
  ; (0x04, "FAT16 <32M")
  ; (0x05, "Extended")
  ; (0x06, "FAT16")
  ; (0x07, "HPFS/NTFS")
  ; (0x08, "AIX")
  ; (0x09, "AIX bootable")
  ; (0x0a, "OS/2 Boot Manager")
  ; (0x0b, "W95 FAT32")
  ; (0x0c, "W95 FAT32 (LBA)")
  ; (0x0e, "W95 FAT16 (LBA)")
  ; (0x0f, "W95 Ext'd (LBA)")
  ; (0x10, "OPUS")
  ; (0x11, "Hidden FAT12")
  ; (0x12, "Compaq diagnostics")
  ; (0x14, "Hidden FAT16 <32M")
  ; (0x16, "Hidden FAT16")
  ; (0x17, "Hidden HPFS/NTFS")
  ; (0x18, "AST SmartSleep")
  ; (0x1b, "Hidden W95 FAT32")
  ; (0x1c, "Hidden W95 FAT32 (LBA)")
  ; (0x1e, "Hidden W95 FAT16 (LBA)")
  ; (0x20, "Pintos OS kernel")
  ; (0x21, "Pintos file system")
  ; (0x22, "Pintos scratch")
  ; (0x23, "Pintos swap")
  ; (0x24, "NEC DOS")
  ; (0x39, "Plan 9")
  ; (0x3c, "PartitionMagic recovery")
  ; (0x40, "Venix 80286")
  ; (0x41, "PPC PReP Boot")
  ; (0x42, "SFS")
  ; (0x4d, "QNX4.x")
  ; (0x4e, "QNX4.x 2nd part")
  ; (0x4f, "QNX4.x 3rd part")
  ; (0x50, "OnTrack DM")
  ; (0x51, "OnTrack DM6 Aux1")
  ; (0x52, "CP/M")
  ; (0x53, "OnTrack DM6 Aux3")
  ; (0x54, "OnTrackDM6")
  ; (0x55, "EZ-Drive")
  ; (0x56, "Golden Bow")
  ; (0x5c, "Priam Edisk")
  ; (0x61, "SpeedStor")
  ; (0x63, "GNU HURD or SysV")
  ; (0x64, "Novell Netware 286")
  ; (0x65, "Novell Netware 386")
  ; (0x70, "DiskSecure Multi-Boot")
  ; (0x75, "PC/IX")
  ; (0x80, "Old Minix")
  ; (0x81, "Minix / old Linux")
  ; (0x82, "Linux swap / Solaris")
  ; (0x83, "Linux")
  ; (0x84, "OS/2 hidden C: drive")
  ; (0x85, "Linux extended")
  ; (0x86, "NTFS volume set")
  ; (0x87, "NTFS volume set")
  ; (0x88, "Linux plaintext")
  ; (0x8e, "Linux LVM")
  ; (0x93, "Amoeba")
  ; (0x94, "Amoeba BBT")
  ; (0x9f, "BSD/OS")
  ; (0xa0, "IBM Thinkpad hibernation")
  ; (0xa5, "FreeBSD")
  ; (0xa6, "OpenBSD")
  ; (0xa7, "NeXTSTEP")
  ; (0xa8, "Darwin UFS")
  ; (0xa9, "NetBSD")
  ; (0xab, "Darwin boot")
  ; (0xb7, "BSDI fs")
  ; (0xb8, "BSDI swap")
  ; (0xbb, "Boot Wizard hidden")
  ; (0xbe, "Solaris boot")
  ; (0xbf, "Solaris")
  ; (0xc1, "DRDOS/sec (FAT-12)")
  ; (0xc4, "DRDOS/sec (FAT-16 < 32M)")
  ; (0xc6, "DRDOS/sec (FAT-16)")
  ; (0xc7, "Syrinx")
  ; (0xda, "Non-FS data")
  ; (0xdb, "CP/M / CTOS / ...")
  ; (0xde, "Dell Utility")
  ; (0xdf, "BootIt")
  ; (0xe1, "DOS access")
  ; (0xe3, "DOS R/O")
  ; (0xe4, "SpeedStor")
  ; (0xeb, "BeOS fs")
  ; (0xee, "EFI GPT")
  ; (0xef, "EFI (FAT-12/16/32)")
  ; (0xf0, "Linux/PA-RISC boot")
  ; (0xf1, "SpeedStor")
  ; (0xf4, "SpeedStor")
  ; (0xf2, "DOS secondary")
  ; (0xfd, "Linux raid autodetect")
  ; (0xfe, "LANstep")
  ; (0xff, "BBT")
  ])%string.

Definition partition_type_name (type : Z) : string :=
  match list_find (λ '(t, _), t = type) type_names with
  | Some (_, (_, n)) => n
  | None => "Unknown"
  end.

(** The arguments of [block_register], and the first sector in the device. *)
Record registered := Registered {
  r_name : string;
  r_type : block_type;
  r_info : string;
  r_size : Z;
  r_start : Z;
}.

(** The state of a scan.  [mallocs] are the outcomes of the next calls of
    [malloc]; the calls after those succeed. *)
Record scan (St : Type) := Scan {
  device : dev St;
  mallocs : list bool;
  part_nr : Z;
  found : list registered;
}.
Arguments Scan {St}.
Arguments device {St}.
Arguments mallocs {St}.
Arguments part_nr {St}.
Arguments found {St}.

(** "%02x" of a byte. *)
Definition hex_digit (d : Z) : ascii := ascii_of_nat (Z.to_nat (if d <? 10 then 48 + d else 87 + d)).
Definition hex_byte (v : Z) : string := String (hex_digit (v / 16)) (String (hex_digit (v mod 16)) EmptyString).

(** ** Operations *)

Section operations.
Context {St : Type} `{Driver St}.

Definition malloc (s : scan St) : scan St * bool :=
  (Scan (device s) (tl (mallocs s)) (part_nr s) (found s), hd true (mallocs s)).

Definition found_partition (part_type start size : Z) (s : scan St) : res (scan St) :=
  let limit := dev_size (device s) in
  if limit <=? start then Ok s
  else if (u32 (start + size) <? start) || (limit <? u32 (start + size)) then Ok s
  else
    let type := if part_type =? 0x20 then BLOCK_KERNEL
                else if part_type =? 0x21 then BLOCK_FILESYS
                else if part_type =? 0x22 then BLOCK_SCRATCH
                else if part_type =? 0x23 then BLOCK_SWAP
                else BLOCK_FOREIGN in
    let '(s, ok) := malloc s in
    if negb ok then Err EPanic else
    let name := String.substring 0 15 (dev_name (device s) +:+ pretty (part_nr s)) in
    let extra_info := String.substring 0 127 (partition_type_name part_type +:+ " (" +:+ hex_byte part_type +:+ ")") in
    let '(s, ok) := malloc s in                     (* in block_register *)
    if negb ok then Err EPanic else
    Ok (Scan (device s) (mallocs s) (part_nr s) (found s ++ [Registered name type extra_info size start])).

Definition is_extended (t : Z) : bool := (t =? 0x05) || (t =? 0x0f) || (t =? 0x85) || (t =? 0xc5).

Fixpoint read_partition_table (fuel : nat) (sector primary_extended_sector : Z) (s : scan St) : res (scan St) :=
  match fuel with
  | O => Err EFuel
  | S fuel =>
      if dev_size (device s) <=? sector then Ok s else
      let '(s, ok) := malloc s in
      if negb ok then Err EPanic else
      '(d, pt) ← dev_read 0 (device s);
      let s := Scan d (mallocs s) (part_nr s) (found s) in
      if negb (signature pt =? 0xaa55) then Ok s else
      for_up 4 0 (λ i s,
        let e := entry_of pt i in
        if (esize e =? 0) || (etype e =? 0) then Ok s
        else if is_extended (etype e) then
          if sector =? 0 then read_partition_table fuel (offset e) (offset e) s
          else read_partition_table fuel (u32 (offset e + primary_extended_sector)) primary_extended_sector s
        else
          let s := Scan (device s) (mallocs s) (s32 (part_nr s + 1)) (found s) in
          found_partition (etype e) (u32 (offset e + sector)) (esize e) s) s
  end.

Definition partition_scan (fuel : nat) (ms : list bool) (d : dev St) : res (scan St) :=
  read_partition_table fuel 0 0 (Scan d ms 0 []).

Definition partition_read (sector : Z) (p : partition St) : res (partition St * list Z) :=
  '(d, x) ← dev_read (u32 (start p + sector)) (pblock p);
  Ok (Partition d (start p), x).

Definition partition_write (sector : Z) (buffer : list Z) (p : partition St) : res (partition St) :=
  d ← dev_write (u32 (start p + sector)) buffer (pblock p);
  Ok (Partition d (start p)).

#[export] Instance partition_operations : Driver (partition St) :=
  {| drv_read := partition_read; drv_write := partition_write |}.

(** The device that [block_register] makes of a partition of [d]. *)
Definition register_partition (d : dev St) (r : registered) : dev (partition St) :=
  Dev (r_name r) (r_type r) (r_size r) (Partition d (r_start r)) 0 0.
End operations.

(** ** A partition is a slice of its device *)

Section slice.
Context {St : Type} `{DriverOk St}.

(** [p] is the part of its device between the sectors [pre] and [post]. *)
Record slice (pre post : list (list Z)) (p : partition St) (l : list (list Z)) : Prop := {
  sl_sectors : drv_ok (aux (pblock p)) (pre ++ l ++ post);
  sl_start : start p = Z.of_nat (length pre);
  sl_size : dev_size (pblock p) = Z.of_nat (length (pre ++ l ++ post));
  sl_u32 : is_u32 (dev_size (pblock p));
  sl_type : dev_type (pblock p) ≠ BLOCK_FOREIGN;
}.

Lemma slice_address pre post p l n : slice pre post p l → 0 ≤ n < Z.of_nat (length l) →
  u32 (start p + n) = Z.of_nat (length pre) + n ∧ (dev_size (pblock p) <=? u32 (start p + n)) = false.
Proof.
  intros [E1 E2 E3 E4 E5] Hn. rewrite !length_app in E3. rewrite u32_small by c_lia. split; [lia|]. apply Z.leb_gt. lia.
Qed.

Lemma partition_read_ok pre post p l n x : slice pre post p l → 0 ≤ n → l !! Z.to_nat n = Some x →
  ∃ p', partition_read n p = Ok (p', x) ∧ slice pre post p' l.
Proof.
  intros Hs Hn Hx. pose proof (lookup_lt_Some _ _ _ Hx) as Hlt.
  destruct (slice_address pre post p l n Hs) as [E1 E2]; [lia|]. destruct Hs as [S1 S2 S3 S4 S5].
  unfold partition_read, dev_read. rewrite E2, E1.
  destruct (drv_read_ok _ _ (Z.of_nat (length pre) + n) x S1) as (s' & -> & Hs'); [lia| |].
  { rewrite lookup_app_r by lia. rewrite lookup_app_l by lia. rewrite <- Hx. f_equal. lia. }
  eexists. split; [reflexivity|]. by split.
Qed.

Lemma partition_write_ok pre post p l n x : slice pre post p l → 0 ≤ n < Z.of_nat (length l) → length x = 512%nat →
  ∃ p', partition_write n x p = Ok p' ∧ slice pre post p' (<[Z.to_nat n := x]> l).
Proof.
  intros Hs Hn Hx. destruct (slice_address pre post p l n Hs Hn) as [E1 E2]. destruct Hs as [S1 S2 S3 S4 S5].
  unfold partition_write, dev_write. rewrite E2, E1, bool_decide_eq_true_2 by done. cbn [ASSERT mbind res_bind].
  destruct (drv_write_ok _ _ (Z.of_nat (length pre) + n) x S1) as (s' & -> & Hs'); [rewrite !length_app; lia|done|].
  eexists. split; [reflexivity|].
  rewrite insert_app_r_alt, insert_app_l in Hs' by lia.
  replace (Z.to_nat (Z.of_nat (length pre) + n) - length pre)%nat with (Z.to_nat n) in Hs' by lia.
  split; cbn; try done. by rewrite !length_app, length_insert in *.
Qed.

#[export] Instance partition_driver_ok (pre post : list (list Z)) : DriverOk (partition St) := {|
  drv_ok := slice pre post;
  drv_read_ok p l n x := partition_read_ok pre post p l n x;
  drv_write_ok p l n x := partition_write_ok pre post p l n x |}.

(** ** What a scan registers *)

(** A registered partition lies inside the device. *)
Definition inside (limit : Z) (r : registered) : Prop := 0 ≤ r_start r ∧ 0 < r_size r ∧ r_start r + r_size r ≤ limit.

Lemma found_partition_inside t st sz (s s' : scan St) : is_u32 st → 0 < sz < 2 ^ 32 → found_partition t st sz s = Ok s' →
  Forall (inside (dev_size (device s))) (found s) → is_u32 (dev_size (device s)) →
  device s' = device s ∧ Forall (inside (dev_size (device s))) (found s').
Proof.
  intros Hst Hsz E Hf Hd. unfold found_partition in E. destruct (Z.leb_spec (dev_size (device s)) st); [by injection E as <-|].
  destruct (Z.ltb_spec (u32 (st + sz)) st); [by injection E as <-|]. destruct (Z.ltb_spec (dev_size (device s)) (u32 (st + sz))); [by injection E as <-|].
  cbn [orb malloc mallocs device found part_nr] in E. destruct (hd true (mallocs s)); [|done]. cbn [negb] in E.
  destruct (hd true (tl (mallocs s))); [|done]. cbn [negb] in E. injection E as <-. split; [done|]. cbn.
  apply Forall_app. split; [done|]. constructor; [|done]. split_and!; cbn; c_lia.
Qed.
(** The device is as it was, apart from its counters. *)
Record holds (nm : string) (ty : block_type) (l : list (list Z)) (d : dev St) : Prop := {
  h_ok : drv_ok (aux d) l;
  h_name : dev_name d = nm;
  h_type : dev_type d = ty;
  h_size : dev_size d = Z.of_nat (length l);
  h_u32 : is_u32 (dev_size d);
}.

Lemma read_mbr nm ty l d pt : holds nm ty l d → l !! 0%nat = Some pt → ∃ d', dev_read 0 d = Ok (d', pt) ∧ holds nm ty l d'.
Proof.
  intros [E1 E2 E3 E4 E5] Hp. unfold dev_read. pose proof (lookup_lt_Some _ _ _ Hp).
  rewrite (proj2 (Z.leb_gt _ _)) by lia. destruct (drv_read_ok _ _ 0 pt E1) as (s' & -> & Hs'); [done|done|].
  eexists. split; [reflexivity|]. by split.
Qed.

Lemma at_u8 l k : Forall is_u8 l → is_u8 (at_ l k).
Proof.
  intros Hl. unfold at_. destruct (l !! Z.to_nat k) as [v|] eqn:E.
  - rewrite (list_lookup_total_correct _ _ _ E). by eapply Forall_lookup_1.
  - rewrite list_lookup_total_alt, E. by split.
Qed.

Lemma word32_u32 l k : Forall is_u8 l → is_u32 (word32 l k).
Proof.
  intros Hl. unfold word32, half. pose proof (at_u8 l k Hl). pose proof (at_u8 l (k + 1) Hl).
  pose proof (at_u8 l (k + 2) Hl). pose proof (at_u8 l (k + 2 + 1) Hl). unfold is_u8, is_u32 in *. lia.
Qed.

(** What holds of every scan that returns: the device keeps its sectors, and
    what is registered is inside it. *)
Definition scan_inv (nm : string) (ty : block_type) (l : list (list Z)) (s : scan St) : Prop :=
  holds nm ty l (device s) ∧ Forall (inside (Z.of_nat (length l))) (found s).

Lemma read_table_inv nm ty l pt fuel : Forall is_u8 pt → l !! 0%nat = Some pt → ∀ sector primary s s', is_u32 sector → is_u32 primary →
  scan_inv nm ty l s → read_partition_table fuel sector primary s = Ok s' → scan_inv nm ty l s'.
Proof.
  intros Hb Hpt. induction fuel as [|fuel IH]; intros sector primary s s' Hs1 Hs2 [Hd Hf] E; [done|]. cbn [read_partition_table] in E.
  destruct (dev_size (device s) <=? sector); [by injection E as <-|]. cbn [malloc device mallocs] in E.
  destruct (hd true (mallocs s)); [|done]. cbn [negb] in E.
  destruct (read_mbr nm ty l (device s) pt Hd Hpt) as (d' & Er & Hd'). rewrite Er, ok_bind in E.
  destruct (signature pt =? 0xaa55); [|cbn [negb] in E; injection E as <-; by split]. cbn [negb part_nr found] in E.
  revert E. apply (for_up_inv (scan_inv nm ty l)); [|by split].
  clear -IH Hb Hs1 Hs2. intros i s s' _ [Hd Hf] E. pose proof (word32_u32 pt) as Hw.
  destruct (esize (entry_of pt i) =? 0) eqn:Ez; [by injection E as <-|]. destruct (etype (entry_of pt i) =? 0); [by injection E as <-|]. cbn [orb] in E.
  destruct (is_extended _).
  { destruct (sector =? 0); (eapply IH; [..|exact E]); try done; try (by apply Hw); try apply u32_range. }
  pose proof (h_u32 _ _ _ _ Hd). pose proof (h_size _ _ _ _ Hd) as Hsz.
  destruct (found_partition_inside (etype (entry_of pt i)) (u32 (offset (entry_of pt i) + sector)) (esize (entry_of pt i))
    (Scan (device s) (mallocs s) (s32 (part_nr s + 1)) (found s)) s') as [E1 E2]; try done.
  - apply u32_range.
  - pose proof (Hw (446 + 16 * i + 12) Hb). unfold esize, entry_of in *. unfold is_u32 in *. lia.
  - cbn [device found]. by rewrite Hsz.
  - cbn [device] in *. rewrite Hsz in E2. split; [by rewrite E1|done].
Qed.

(** ** A table without extended partitions *)

(** What the partition table means: the entries that are in use, numbered from
    1, those of them that end inside the device. *)
Definition is_empty (e : partition_table_entry) : bool := (esize e =? 0) || (etype e =? 0).
Fixpoint numbered (n : Z) (l : list partition_table_entry) : list (Z * partition_table_entry) :=
  match l with
  | [] => []
  | e :: l => if is_empty e then numbered n l else (n, e) :: numbered (n + 1) l
  end.
Definition role_of (t : Z) : block_type :=
  match t with 0x20 => BLOCK_KERNEL | 0x21 => BLOCK_FILESYS | 0x22 => BLOCK_SCRATCH | 0x23 => BLOCK_SWAP | _ => BLOCK_FOREIGN end.
Definition device_of (nm : string) (x : Z * partition_table_entry) : registered :=
  let '(n, e) := x in
  Registered (String.substring 0 15 (nm +:+ pretty n)) (role_of (etype e))
    (String.substring 0 127 (partition_type_name (etype e) +:+ " (" +:+ hex_byte (etype e) +:+ ")")) (esize e) (offset e).
Definition partitions_of (nm : string) (limit n : Z) (l : list partition_table_entry) : list registered :=
  map (device_of nm) (filter (λ '(_, e), offset e + esize e ≤ limit) (numbered n l)).
Definition entries (pt : list Z) : list partition_table_entry := map (entry_of pt) [0; 1; 2; 3].

Lemma role_of_spec t : (if t =? 0x20 then BLOCK_KERNEL else if t =? 0x21 then BLOCK_FILESYS else if t =? 0x22 then BLOCK_SCRATCH
  else if t =? 0x23 then BLOCK_SWAP else BLOCK_FOREIGN) = role_of t.
Proof.
  destruct (Z.eqb_spec t 0x20) as [->|?]; [done|]. destruct (Z.eqb_spec t 0x21) as [->|?]; [done|].
  destruct (Z.eqb_spec t 0x22) as [->|?]; [done|]. destruct (Z.eqb_spec t 0x23) as [->|?]; [done|].
  unfold role_of. by repeat case_match; subst.
Qed.

Lemma hd_true ms : Forall (eq true) ms → hd true ms = true ∧ Forall (eq true) (tl ms).
Proof. intros [|? ? <- ?]; [by split|by split]. Qed.

Lemma found_partition_ok e (s : scan St) : is_u32 (offset e) → 0 < esize e < 2 ^ 32 → is_u32 (dev_size (device s)) → Forall (eq true) (mallocs s) →
  ∃ ms, Forall (eq true) ms ∧ found_partition (etype e) (u32 (offset e + 0)) (esize e) s =
    Ok (Scan (device s) ms (part_nr s) (found s ++
      if bool_decide (offset e + esize e ≤ dev_size (device s)) then [device_of (dev_name (device s)) (part_nr s, e)] else [])).
Proof.
  intros Ho Hz Hd Hm. unfold found_partition. rewrite Z.add_0_r, (u32_small (offset e)) by done.
  destruct (hd_true _ Hm) as [E1 Hm1], (hd_true _ Hm1) as [E2 Hm2].
  assert (Z.leb (dev_size (device s)) (offset e) || ((u32 (offset e + esize e) <? offset e) || (dev_size (device s) <? u32 (offset e + esize e)))
    = negb (bool_decide (offset e + esize e ≤ dev_size (device s)))) as E.
  { case_bool_decide; cbn [negb].
    - rewrite u32_small by c_lia. rewrite !orb_false_iff, Z.leb_gt, !Z.ltb_ge. lia.
    - rewrite !orb_true_iff, Z.leb_le, !Z.ltb_lt. c_lia. }
  destruct (Z.leb _ _); [|destruct (_ || _)]; destruct (bool_decide _); try discriminate E.
  - exists (mallocs s). split; [done|]. rewrite app_nil_r. by destruct s.
  - exists (mallocs s). split; [done|]. rewrite app_nil_r. by destruct s.
  - exists (tl (tl (mallocs s))). split; [done|]. cbn [malloc mallocs device part_nr found]. rewrite E1. cbn [negb]. rewrite E2. cbn [negb].
    by rewrite role_of_spec.
Qed.

Definition no_extended (pt : list Z) : Prop :=
  Forall (λ e, is_empty e = false → is_extended (etype e) = false) (entries pt).

Lemma scan_entries pt fuel n : Forall is_u8 pt → ∀ i (s : scan St),
  (∀ k, i ≤ k < i + Z.of_nat n → is_empty (entry_of pt k) = false → is_extended (etype (entry_of pt k)) = false) →
  is_u32 (dev_size (device s)) → Forall (eq true) (mallocs s) → 0 ≤ part_nr s → part_nr s + Z.of_nat n < 2 ^ 31 →
  ∃ s', for_up n i (λ i s,
        let e := entry_of pt i in
        if (esize e =? 0) || (etype e =? 0) then Ok s
        else if is_extended (etype e) then read_partition_table fuel (offset e) (offset e) s
        else
          let s := Scan (device s) (mallocs s) (s32 (part_nr s + 1)) (found s) in
          found_partition (etype e) (u32 (offset e + 0)) (esize e) s) s = Ok s' ∧
    device s' = device s ∧
    found s' = found s ++ partitions_of (dev_name (device s)) (dev_size (device s)) (part_nr s + 1) (map (entry_of pt) (seqZ i (Z.of_nat n))).
Proof.
  intros Hb. induction n as [|n IH]; intros i s Hx Hd Hm Hp0 Hn.
  { exists s. by rewrite seqZ_nil, app_nil_r by lia. }
  rewrite for_up_S, seqZ_cons by lia. cbv zeta. set (e := entry_of pt i).
  replace (Z.pred (Z.of_nat (S n))) with (Z.of_nat n) by lia. replace (Z.succ i) with (i + 1) by lia. cbn [map numbered]. unfold partitions_of. cbn [numbered]. fold e.
  fold (is_empty e). destruct (is_empty e) eqn:Ee.
  { rewrite ok_bind. apply IH; [|done|done|lia|lia]. intros k Hk. apply Hx. lia. }
  assert (is_extended (etype e) = false) as -> by (by apply Hx; [lia|]). rewrite s32_small by c_lia.
  set (s1 := Scan _ _ _ _).
  destruct (found_partition_ok e s1) as (ms & Hms & E); [by apply word32_u32| |done|done|].
  { pose proof (word32_u32 pt (446 + 16 * i + 12) Hb). unfold is_empty in Ee. apply orb_false_iff in Ee as [Ee _].
    apply Z.eqb_neq in Ee. unfold is_u32 in *. unfold e, entry_of, esize in *. lia. }
  rewrite E, ok_bind. set (s2 := Scan _ _ _ _). destruct (IH (i + 1) s2) as (s' & E0 & E1 & E2); [|done|done|cbn; lia|cbn; lia|].
  { intros k Hk. apply Hx. lia. }
  exists s'. split; [exact E0|]. split; [done|]. rewrite E2. cbn [found s2 s1 part_nr device]. rewrite <- app_assoc. f_equal.
  unfold partitions_of. rewrite filter_cons. cbn [device s1].
  destruct (decide (offset e + esize e ≤ dev_size (device s))) as [Hle|Hle].
  - by rewrite bool_decide_eq_true_2 by done.
  - by rewrite bool_decide_eq_false_2 by done.
Qed.

Lemma scan_ok nm ty l d pt fuel ms : Forall is_u8 pt → no_extended pt → l !! 0%nat = Some pt → holds nm ty l d → Forall (eq true) ms →
  ∃ s, partition_scan (S fuel) ms d = Ok s ∧ holds nm ty l (device s) ∧
    found s = if signature pt =? 0xaa55 then partitions_of nm (Z.of_nat (length l)) 1 (entries pt) else [].
Proof.
  intros Hb Hx Hpt Hd Hm. unfold partition_scan. cbn [read_partition_table device]. pose proof (lookup_lt_Some _ _ _ Hpt).
  rewrite (proj2 (Z.leb_gt _ _)) by (rewrite (h_size _ _ _ _ Hd); lia). cbn [malloc device mallocs part_nr found].
  destruct (hd_true _ Hm) as [-> Hm']. cbn [negb]. destruct (read_mbr nm ty l d pt Hd Hpt) as (d' & -> & Hd'). rewrite ok_bind.
  destruct (signature pt =? 0xaa55); cbn [negb]; [|by eexists].
  destruct (scan_entries pt fuel 4 Hb 0 (Scan d' (tl ms) 0 [])) as (s' & E0 & E1 & E2); [|apply Hd'|done|done|done|].
  { intros k Hk. apply (proj1 (Forall_forall _ _) Hx). apply list_elem_of_fmap. exists k. split; [done|]. change [0; 1; 2; 3] with (seqZ 0 4).
    apply elem_of_seqZ. lia. }
  exists s'. split; [exact E0|]. rewrite E1. split; [done|]. rewrite E2. cbn [found device part_nr app].
  by rewrite (h_name _ _ _ _ Hd'), (h_size _ _ _ _ Hd').
Qed.

(** ** An extended partition *)

(** The table is always read from sector 0.  With an extended partition whose
    sector, and twice whose sector, are in the device, every call makes
    another one. *)
Lemma extended_recurses nm ty l pt fuel : let e := entry_of pt 0 in
  l !! 0%nat = Some pt → signature pt = 0xaa55 → is_empty e = false → is_extended (etype e) = true →
  offset e < Z.of_nat (length l) → u32 (2 * offset e) < Z.of_nat (length l) →
  ∀ sector primary s s', holds nm ty l (device s) → sector < Z.of_nat (length l) → sector = 0 ∨ primary = offset e →
  read_partition_table fuel sector primary s ≠ Ok s'.
Proof.
  intros e Hpt Hsg He Hx Ho1 Ho2. induction fuel as [|fuel IH]; intros sector primary s s' Hd Hs Hsp; [done|].
  cbn [read_partition_table]. rewrite (proj2 (Z.leb_gt _ _)) by (rewrite (h_size _ _ _ _ Hd); lia). cbn [malloc device mallocs part_nr found].
  destruct (hd true (mallocs s)); [|done]. cbn [negb]. destruct (read_mbr nm ty l (device s) pt Hd Hpt) as (d' & -> & Hd').
  rewrite ok_bind, Hsg, for_up_S. cbv zeta. fold e. cbn [Z.eqb Pos.eqb negb]. fold (is_empty e). rewrite He, Hx.
  intros E. apply bind_ok in E as (s1 & E1 & _). revert E1.
  destruct (Z.eqb_spec sector 0) as [Hz|Hz]; (apply IH; [done| |]); [done|by right| |right; tauto].
  destruct Hsp as [?| ->]; [done|]. by replace (offset e + offset e) with (2 * offset e) by lia.
Qed.

(** ** Registered partitions as devices *)

(** The sectors of [l] that belong to a partition. *)
Definition part_sectors (r : registered) (l : list (list Z)) : list (list Z) := take (Z.to_nat (r_size r)) (drop (Z.to_nat (r_start r)) l).
Definition part_block (r : registered) (l : list (list Z)) : block := Block (r_name r) (r_type r) (r_size r) (part_sectors r l) 0 0.

Lemma partition_implements nm ty l d r : holds nm ty l d → ty ≠ BLOCK_FOREIGN → inside (Z.of_nat (length l)) r →
  implements (H0 := partition_driver_ok (take (Z.to_nat (r_start r)) l) (drop (Z.to_nat (r_start r + r_size r)) l))
    (register_partition d r) (part_block r l).
Proof.
  intros [E1 E2 E3 E4 E5] Ht (Hr1 & Hr2 & Hr3). split; try done. cbn.
  assert (take (Z.to_nat (r_start r)) l ++ part_sectors r l ++ drop (Z.to_nat (r_start r + r_size r)) l = l) as El.
  { unfold part_sectors. rewrite Z2Nat.inj_add by lia. rewrite <- (drop_drop l (Z.to_nat (r_size r)) (Z.to_nat (r_start r))).
    by rewrite !take_drop. }
  split; cbn; rewrite ?El, ?length_take; try done; [lia|by subst].
Qed.
End slice.
