(* ===== verification/Disks.v ===== *)
(** * Disks: ide.c, partition.c and block.c together

    A partition of a disk, behind the partition table, the registry's counters
    and the IDE driver, is the array of sectors that the file system and the
    swap area are built on. *)

From Stdlib Require Import String.
From S2P Require Import Prelude Block Driver Ide IdeProps IdeInit Partition.

(** C34. Scanning a disk whose partition table has no extended partitions registers
    exactly the entries in use that end inside the disk, in order, numbered
    among the entries in use, with the role that their type stands for; the
    wrapping sums of the code agree with exact arithmetic.  One call reads the
    table. *)
Theorem partition_scan_correct ty l (d : dev ide_disk) pt fuel ms :
  holds (dev_name d) ty l d → l !! 0%nat = Some pt → Forall is_u8 pt → no_extended pt → Forall (eq true) ms →
  ∃ s, partition_scan (S fuel) ms d = Ok s ∧ holds (dev_name d) ty l (Partition.device s) ∧
    Partition.found s = if signature pt =? 0xaa55 then partitions_of (dev_name d) (Z.of_nat (length l)) 1 (entries pt) else [].
Proof. intros Hd Hpt Hb Hx Hm. by eapply scan_ok. Qed.

(** C39. With an extended partition in the first entry the scan never returns
    when the sector it starts at, and twice that, are in the disk: the table is
    read from sector 0 again, whatever sector is asked for. *)
Theorem extended_partition_never_ends ty l (d : dev ide_disk) pt fuel ms s :
  holds (dev_name d) ty l d → l !! 0%nat = Some pt → signature pt = 0xaa55 →
  is_empty (entry_of pt 0) = false → is_extended (etype (entry_of pt 0)) = true →
  offset (entry_of pt 0) < Z.of_nat (length l) → u32 (2 * offset (entry_of pt 0)) < Z.of_nat (length l) →
  partition_scan fuel ms d ≠ Ok s.
Proof.
  intros Hd Hpt Hs He Hx Ho1 Ho2. pose proof (lookup_lt_Some _ _ _ Hpt).
  apply (extended_recurses (dev_name d) ty l pt fuel Hpt Hs He Hx Ho1 Ho2); [exact Hd|lia|by left].
Qed.

(** C5. The whole stack: whatever a scan of a disk registered as the partition [r],
    each sequence of reads and writes that its sectors [part_sectors r l], as
    an array, can serve gets the same answers from the device that was
    registered, through partition.c, block.c and ide.c down to the controller;
    afterwards the disk holds the new sectors of the partition, between the
    sectors before and after it, which are as they were. *)
Theorem disk_stack_correct ty l (d : dev ide_disk) pt fuel ms s r rs b out :
  holds (dev_name d) ty l d → ty ≠ BLOCK_FOREIGN → l !! 0%nat = Some pt → Forall is_u8 pt →
  partition_scan fuel ms d = Ok s → r ∈ Partition.found s → Forall valid_request rs →
  serve_all block_serve rs (part_block r l) = Ok (b, out) →
  ∃ p, serve_all dev_serve rs (register_partition (Partition.device s) r) = Ok (p, out) ∧
    ide_ok (aux (pblock (aux p))) (take (Z.to_nat (r_start r)) l ++ sectors b ++ drop (Z.to_nat (r_start r + r_size r)) l).
Proof.
  intros Hd Ht Hpt Hb Hs Hr Hrs E.
  destruct (read_table_inv (dev_name d) ty l pt fuel Hb Hpt 0 0 (Scan d ms 0 []) s) as [Hd' Hf]; [done|done|by split|done|].
  pose proof (proj1 (Forall_forall _ _) Hf r Hr) as Hi.
  destruct (serve_all_refines rs _ _ b out (partition_implements _ _ _ _ r Hd' Ht Hi) Hrs E) as (p & -> & Hp).
  exists p. split; [done|]. apply (im_sectors _ _ Hp).
Qed.

(** ** Witnesses *)

(** A disk with one entry, of type [t], at sector [k], of two sectors. *)
Definition demo_table (t k : Z) : list Z := repeat 0 446 ++ [0; 0; 0; 0; t; 0; 0; 0; k; 0; 0; 0; 2; 0; 0; 0] ++ repeat 0 48 ++ [0x55; 0xaa].
Definition demo_sectors (t k : Z) : list (list Z) := demo_table t k :: repeat (repeat 7 512) 3.
Definition demo_dev (t k : Z) : dev ide_disk :=
  Dev "hda" BLOCK_RAW 4
    (IdeDisk (Channel "ide0" 0x1f0 46 false false 0 [AtaDisk "hda" 0 true; AtaDisk "hdb" 1 false]
      (Ata 0x1f0 0 0 0 0 0 0 Idle [Some (Drive (demo_sectors t k) []); None] [1000; 2500000] 255)) 0) 0 0.

Lemma demo_holds t k : holds "hda" BLOCK_RAW (demo_sectors t k) (demo_dev t k).
Proof.
  split; try reflexivity; [|by split]. split; try reflexivity; cbn [chan unit_no aux demo_dev hw delays].
  - split; try reflexivity. intros [|[|i]] Hi; [eexists; split; reflexivity..|lia].
  - lia.
  - repeat constructor; vm_compute; congruence.
  - vm_compute. congruence.
  - intros x Hx. unfold demo_sectors in Hx. apply elem_of_cons in Hx as [->|Hx]; [reflexivity|].
    apply list_elem_of_In, repeat_spec in Hx. by subst x.
Qed.

Lemma demo_bytes t k : is_u8 t → is_u8 k → Forall is_u8 (demo_table t k).
Proof.
  intros Ht Hk. unfold demo_table. rewrite !Forall_app. assert (∀ n, Forall is_u8 (repeat 0 n)) as H0.
  { intros n. apply Forall_forall. intros x Hx. apply list_elem_of_In, repeat_spec in Hx. subst x. by split. }
  split_and!; [apply H0| |apply H0|]; repeat constructor; try apply Ht; try apply Hk; c_lia.
Qed.

Definition demo_part : registered := Registered "hda1" BLOCK_FILESYS "Pintos file system (21)" 2 1.

Lemma partition_scan_witness : ∃ s, partition_scan 1 [] (demo_dev 0x21 1) = Ok s ∧ Partition.found s = [demo_part].
Proof.
  destruct (partition_scan_correct BLOCK_RAW (demo_sectors 0x21 1) (demo_dev 0x21 1) (demo_table 0x21 1) 0 [])
    as (s & E & _ & F); [apply demo_holds|reflexivity|apply demo_bytes; c_lia| |constructor|].
  - repeat constructor; vm_compute; congruence.
  - exists s. split; [exact E|]. rewrite F. vm_compute. reflexivity.
Defined.

Lemma extended_witness : ¬ ∃ fuel s, partition_scan fuel [] (demo_dev 0x05 1) = Ok s.
Proof.
  intros (fuel & s & E). revert E. apply (extended_partition_never_ends BLOCK_RAW (demo_sectors 0x05 1) (demo_dev 0x05 1) (demo_table 0x05 1));
    [apply demo_holds|reflexivity..].
Defined.

Lemma disk_stack_witness : ∃ s p, partition_scan 1 [] (demo_dev 0x21 1) = Ok s ∧
  serve_all dev_serve [Wr 1 (repeat 9 512); Rd 0; Rd 1] (register_partition (Partition.device s) demo_part)
  = Ok (p, [[]; repeat 7 512; repeat 9 512]).
Proof.
  destruct (scan_ok "hda" BLOCK_RAW (demo_sectors 0x21 1) (demo_dev 0x21 1) (demo_table 0x21 1) 0 []) as (s & E & _ & F);
    [apply demo_bytes; c_lia|repeat constructor; vm_compute; congruence|reflexivity|apply demo_holds|constructor|].
  destruct (disk_stack_correct BLOCK_RAW (demo_sectors 0x21 1) (demo_dev 0x21 1) (demo_table 0x21 1) 1 [] s demo_part
    [Wr 1 (repeat 9 512); Rd 0; Rd 1]
    (Block "hda1" BLOCK_FILESYS 2 [repeat 7 512; repeat 9 512] 2 1) [[]; repeat 7 512; repeat 9 512]) as (p & Ep & _);
    [apply demo_holds|discriminate|reflexivity|apply demo_bytes; c_lia|exact E| | |vm_compute; reflexivity|].
  - rewrite F. vm_compute. left.
  - repeat (apply Forall_cons; split); [split; [lia|reflexivity]|cbn; lia..|constructor].
  - exists s, p. split; [exact E|exact Ep].
Defined.
