(* ===== verification/Ustar.v ===== *)
(** * lib/ustar.c: archive headers

    A file name is the list of its characters; a header is 512 bytes. *)

From Stdlib Require Import String.
From S2P Require Import Prelude.

Abbreviation USTAR_REGULAR := 48.
Abbreviation USTAR_DIRECTORY := 53.
Abbreviation USTAR_HEADER_SIZE := 512.

(** The fields, by their offsets. *)
Abbreviation o_name := 0.
Abbreviation o_mode := 100.
Abbreviation o_uid := 108.
Abbreviation o_gid := 116.
Abbreviation o_size := 124.
Abbreviation o_mtime := 136.
Abbreviation o_chksum := 148.
Abbreviation o_typeflag := 156.
Abbreviation o_magic := 257.
Abbreviation o_version := 263.
Abbreviation o_uname := 265.
Abbreviation o_gname := 297.
Abbreviation o_prefix := 345.

Definition calculate_chksum (h : list Z) : Z :=
  foldl (λ chksum i, u32 (chksum + if (o_chksum <=? i) && (i <? o_chksum + 8) then 32 else at_ h i)) 0 (seqZ 0 USTAR_HEADER_SIZE).

(** [strchr (s, '/') + 1]. *)
Fixpoint after_slash (s : list Z) : res (list Z) :=
  match s with
  | [] => Err EFault
  | c :: s => if c =? 47 then Ok s else after_slash s
  end.

Definition is_antisocial (s : list Z) : bool :=
  bool_decide (take 1 s = [47]) || bool_decide (take 2 s = [46; 47]) || bool_decide (take 3 s = [46; 46; 47]).

Definition strip_antisocial_prefixes (file_name : list Z) : res (list Z) :=
  s ← loop (S (length file_name)) (λ s,
    if is_antisocial s then s ← after_slash s; Ok (inl s) else Ok (inr s)) file_name;
  Ok (if bool_decide (s = []) || bool_decide (s = [46; 46]) then [46] else s).

(** The bytes [l] stored at offset [ofs]. *)
Definition blit (ofs : Z) (l h : list Z) : list Z := list_inserts (Z.to_nat ofs) l h.

(** "%0no" of a number of at most [n] octal digits. *)
Fixpoint octal (n : nat) (v : Z) : list Z :=
  match n with O => [] | S n => octal n (v / 8) ++ [48 + v mod 8] end.

Definition ustar_make_header (file_name : list Z) (type size : Z) : res (option (list Z)) :=
  _ ← ASSERT ((type =? USTAR_REGULAR) || (type =? USTAR_DIRECTORY));
  file_name ← strip_antisocial_prefixes file_name;
  if 99 <? Z.of_nat (length file_name) then Ok None else
  let h := repeat 0 512 in
  let h := blit o_name (file_name ++ [0]) h in
  let h := blit o_mode (octal 7 (if type =? USTAR_REGULAR then 420 else 493) ++ [0]) h in
  let h := blit o_uid (repeat 48 7 ++ [0]) h in
  let h := blit o_gid (repeat 48 7 ++ [0]) h in
  let h := blit o_size (octal 11 (u32 size) ++ [0]) h in
  let h := blit o_mtime (octal 11 1136102400 ++ [0]) h in
  let h := blit o_typeflag [type] h in
  let h := blit o_magic [117; 115; 116; 97; 114; 0] h in
  let h := blit o_version [48; 48] h in
  let h := blit o_gname [114; 111; 111; 116; 0] h in
  let h := blit o_uname [114; 111; 111; 116; 0] h in
  Ok (Some (blit o_chksum (octal 7 (calculate_chksum h) ++ [0]) h)).

Fixpoint parse_octal_from (s : list Z) (ofs value : Z) : option Z :=
  match s with
  | [] => None
  | c :: s =>
      if (48 <=? c) && (c <=? 55) then
        if UINT_MAX / 8 <? value then None else parse_octal_from s (ofs + 1) (c - 48 + value * 8)
      else if (c =? 32) || (c =? 0) then if 0 <? ofs then Some value else None
      else None
  end.
Definition parse_octal_field (s : list Z) : option Z := parse_octal_from s 0 0.

Definition is_all_zeros (block : list Z) : bool := forallb (λ c, c =? 0) block.

(** The [n] bytes at offset [ofs]; the characters up to a null byte. *)
Definition field (ofs n : Z) (h : list Z) : list Z := take (Z.to_nat n) (drop (Z.to_nat ofs) h).
Fixpoint chars (s : list Z) : list Z :=
  match s with [] => [] | c :: s => if c =? 0 then [] else c :: chars s end.

Inductive parsed :=
  | UError (msg : string)
  | UEof
  | UFile (file_name : list Z) (type size : Z).

Definition ustar_parse_header (h : list Z) : res parsed :=
  if is_all_zeros h then Ok UEof
  else if negb (bool_decide (field o_magic 6 h = [117; 115; 116; 97; 114; 0])) then Ok (UError "not a ustar archive")
  else if negb (at_ h o_version =? 48) || negb (at_ h (o_version + 1) =? 48) then Ok (UError "invalid ustar version")
  else match parse_octal_field (field o_chksum 8 h) with
  | None => Ok (UError "corrupt chksum field")
  | Some chksum =>
    if negb (chksum =? calculate_chksum h) then Ok (UError "checksum mismatch")
    else if negb (at_ h (o_name + 99) =? 0) || negb (at_ h o_prefix =? 0) then Ok (UError "file name too long")
    else
      let type := at_ h o_typeflag in
      if negb (type =? USTAR_REGULAR) && negb (type =? USTAR_DIRECTORY) then Ok (UError "unimplemented file type")
      else if type =? USTAR_REGULAR then
        match parse_octal_field (field o_size 12 h) with
        | None => Ok (UError "corrupt file size field")
        | Some size_ul =>
            if INT_MAX <? size_ul then Ok (UError "file too large")
            else s ← strip_antisocial_prefixes (chars (field o_name 100 h)); Ok (UFile s type size_ul)
        end
      else s ← strip_antisocial_prefixes (chars (field o_name 100 h)); Ok (UFile s type 0)
  end.

(** ** Names *)

Lemma antisocial_slash s : is_antisocial s = true → ∃ s', after_slash s = Ok s' ∧ (length s' < length s)%nat ∧ ∀ P, Forall P s → Forall P s'.
Proof.
  unfold is_antisocial. rewrite !orb_true_iff, !bool_decide_eq_true. intros [[H|H]|H].
  - destruct s as [|a s]; [done|]. injection H as ->. exists s. split; [done|]. split; [cbn; lia|]. by intros P [_ Hs]%Forall_cons.
  - destruct s as [|a [|b s]]; [done..|]. injection H as -> ->. exists s. split; [done|]. split; [cbn; lia|]. by intros P [_ [_ Hs]%Forall_cons]%Forall_cons.
  - destruct s as [|a [|b [|c s]]]; [done..|]. injection H as -> -> ->. exists s. split; [done|]. split; [cbn; lia|].
    by intros P [_ [_ [_ Hs]%Forall_cons]%Forall_cons]%Forall_cons.
Qed.

(** A name that an extractor may use. *)
Definition harmless (s : list Z) : Prop := is_antisocial s = false ∧ s ≠ [] ∧ s ≠ [46; 46].

Lemma strip_ok (P : Z → Prop) s : P 46 → Forall P s → ∃ r, strip_antisocial_prefixes s = Ok r ∧ harmless r ∧ Forall P r.
Proof.
  intros HP Hs. unfold strip_antisocial_prefixes.
  destruct (loop_total (λ k s, (length s ≤ k)%nat ∧ Forall P s) (λ s, is_antisocial s = false ∧ Forall P s) (λ s,
    if is_antisocial s then s ← after_slash s; Ok (inl s) else Ok (inr s))) with (n := S (length s)) (k := length s) (s := s) as (r & -> & Hr & Hf).
  { intros k t [Hk Ht]. destruct (is_antisocial t) eqn:Ea.
    - destruct (antisocial_slash t Ea) as (t' & -> & Hl & Hf). exists (inl t'). split; [done|]. exists (length t'). split; [lia|]. split; [lia|by apply Hf].
    - by exists (inr t). }
  { done. }
  { lia. }
  rewrite ok_bind. case_bool_decide as E1; [|case_bool_decide as E2]; cbn [orb]; eexists; (split; [reflexivity|]); repeat split; try done; by repeat constructor.
Qed.

Lemma strip_id s : harmless s → strip_antisocial_prefixes s = Ok s.
Proof.
  intros (H1 & H2 & H3). unfold strip_antisocial_prefixes. cbn [loop]. rewrite H1. cbn [mbind res_bind].
  by rewrite !bool_decide_eq_false_2 by done.
Qed.

Lemma chars_id s l : Forall (λ c, 0 < c) s → chars (s ++ 0 :: l) = s.
Proof. induction 1 as [|c s Hc Hs IH]; [done|]. cbn. rewrite (proj2 (Z.eqb_neq c 0)) by lia. by rewrite IH. Qed.

(** ** Octal numbers *)

Lemma parse_octal_digits n : ∀ v rest ofs acc, 0 ≤ acc → 0 ≤ v < 8 ^ Z.of_nat n → acc * 8 ^ Z.of_nat n + v ≤ UINT_MAX →
  parse_octal_from (octal n v ++ rest) ofs acc = parse_octal_from rest (ofs + Z.of_nat n) (acc * 8 ^ Z.of_nat n + v).
Proof.
  induction n as [|n IH]; intros v rest ofs acc Ha Hv Hu.
  { cbn in *. f_equal; lia. }
  rewrite Nat2Z.inj_succ, Z.pow_succ_r in * by lia. cbn [octal]. rewrite <- app_assoc.
  rewrite IH; [|lia|Z.div_mod_to_equations; lia|unfold UINT_MAX in *; Z.div_mod_to_equations; lia].
  cbn [app parse_octal_from].
  rewrite (proj2 (Z.leb_le 48 _)), (proj2 (Z.leb_le _ 55)) by (Z.div_mod_to_equations; lia). cbn [andb].
  rewrite (proj2 (Z.ltb_ge _ _)) by (unfold UINT_MAX in *; Z.div_mod_to_equations; lia).
  f_equal; [lia|]. Z.div_mod_to_equations; lia.
Qed.

Lemma parse_octal n v : (0 < n)%nat → 0 ≤ v < 8 ^ Z.of_nat n → v ≤ UINT_MAX → parse_octal_field (octal n v ++ [0]) = Some v.
Proof.
  intros Hn Hv Hu. unfold parse_octal_field. rewrite parse_octal_digits by lia. cbn [parse_octal_from Z.leb Z.eqb andb orb Z.compare].
  by rewrite (proj2 (Z.ltb_lt _ _)) by lia.
Qed.

(** ** Fields *)

Lemma blit_length o l h : length (blit o l h) = length h.
Proof. apply length_inserts. Qed.

Lemma blit_lookup o l h k : 0 ≤ o → o + Z.of_nat (length l) ≤ Z.of_nat (length h) → blit o l h !! k =
  if decide (Z.to_nat o ≤ k < Z.to_nat o + length l)%nat then l !! (k - Z.to_nat o)%nat else h !! k.
Proof.
  intros Ho Hl. unfold blit. destruct (decide _) as [Hk|Hk].
  - by rewrite list_lookup_inserts by lia.
  - destruct (decide (k < Z.to_nat o)%nat); [by rewrite list_lookup_inserts_lt by done|by rewrite list_lookup_inserts_ge by lia].
Qed.

Lemma field_same o n l h : 0 ≤ o → o + Z.of_nat (length l) ≤ Z.of_nat (length h) → n = Z.of_nat (length l) → field o n (blit o l h) = l.
Proof.
  intros Ho Hl ->. unfold field, blit. rewrite list_inserts_alt by lia. rewrite Nat2Z.id.
  rewrite drop_app_length' by (rewrite length_take; lia). by apply take_app_length'.
Qed.

Lemma field_other o n o' l h : 0 ≤ o' → o' + Z.of_nat (length l) ≤ Z.of_nat (length h) → 0 ≤ o → 0 ≤ n →
  o + n ≤ o' ∨ o' + Z.of_nat (length l) ≤ o → field o n (blit o' l h) = field o n h.
Proof.
  intros Ho' Hl Ho Hn Hd. apply list_eq. intros k. unfold field. destruct (decide (k < Z.to_nat n)%nat).
  - rewrite !lookup_take_lt, !lookup_drop, blit_lookup by done. by rewrite decide_False by lia.
  - by rewrite !lookup_take_ge by lia.
Qed.

Lemma at_field h k : 0 ≤ k < Z.of_nat (length h) → field k 1 h = [at_ h k].
Proof.
  intros Hk. unfold field, at_. destruct (lookup_lt_is_Some_2 h (Z.to_nat k)) as [x Hx]; [lia|].
  rewrite (list_lookup_total_correct _ _ _ Hx), (drop_S _ _ _ Hx). done.
Qed.

Lemma at_other k o l h : 0 ≤ o → o + Z.of_nat (length l) ≤ Z.of_nat (length h) → 0 ≤ k → k < o ∨ o + Z.of_nat (length l) ≤ k → at_ (blit o l h) k = at_ h k.
Proof.
  intros Ho Hl Hk Hd. unfold at_. rewrite !list_lookup_total_alt, blit_lookup by done. by rewrite decide_False by lia.
Qed.

Lemma at_same k o l h : 0 ≤ o → o + Z.of_nat (length l) ≤ Z.of_nat (length h) → o ≤ k < o + Z.of_nat (length l) → at_ (blit o l h) k = at_ l (k - o).
Proof.
  intros Ho Hl Hk. unfold at_. rewrite !list_lookup_total_alt, blit_lookup by done. rewrite decide_True by lia. do 2 f_equal. lia.
Qed.

(** ** Checksums *)

Lemma chksum_ext h h' : (∀ i, 0 ≤ i < 512 → (i < 148 ∨ 156 ≤ i) → at_ h i = at_ h' i) → calculate_chksum h = calculate_chksum h'.
Proof.
  intros H. unfold calculate_chksum. generalize 0 at 1 3. assert (∀ i, i ∈ seqZ 0 512 → 0 ≤ i < 512) as Hin by (intros i Hi%elem_of_seqZ; lia).
  induction (seqZ 0 512) as [|i l IH]; intros c; [done|]. cbn [foldl]. rewrite IH by (intros j Hj; apply Hin; by right). do 3 f_equal.
  specialize (Hin i ltac:(left)). destruct (Z.leb_spec 148 i), (Z.ltb_spec i (148 + 8)); cbn [andb]; try done; apply H; lia.
Qed.

Lemma chksum_bound h : Forall is_u8 h → length h = 512%nat → 0 ≤ calculate_chksum h < 8 ^ 7.
Proof.
  intros Hh Hl. unfold calculate_chksum.
  assert (∀ n i c, 0 ≤ i → i + Z.of_nat n ≤ 512 → 0 ≤ c ≤ 255 * i →
    0 ≤ foldl (λ chksum i, u32 (chksum + if (o_chksum <=? i) && (i <? o_chksum + 8) then 32 else at_ h i)) c (seqZ i (Z.of_nat n)) ≤ 255 * (i + Z.of_nat n)) as H.
  { induction n as [|n IH]; intros i c Hi Hn Hc; [rewrite seqZ_nil by lia; cbn; lia|].
    rewrite seqZ_cons by lia. cbn [foldl]. replace (Z.pred (Z.of_nat (S n))) with (Z.of_nat n) by lia.
    assert (0 ≤ (if (o_chksum <=? i) && (i <? o_chksum + 8) then 32 else at_ h i) ≤ 255) as Hb.
    { case_match; [lia|]. unfold at_. destruct (lookup_lt_is_Some_2 h (Z.to_nat i)) as [x Hx]; [lia|].
      rewrite (list_lookup_total_correct _ _ _ Hx). pose proof (Forall_lookup_1 _ _ _ _ Hh Hx) as Hx'. unfold is_u8 in Hx'. lia. }
    rewrite u32_small by c_lia. destruct (IH (Z.succ i) (c + if (o_chksum <=? i) && (i <? o_chksum + 8) then 32 else at_ h i)); lia. }
  specialize (H 512%nat 0 0). change (seqZ 0 (Z.of_nat 512)) with (seqZ 0 512) in H. lia.
Qed.

(** ** The header that is made *)

Definition unsummed (name : list Z) (type size : Z) : list Z :=
  blit o_uname [114; 111; 111; 116; 0] (blit o_gname [114; 111; 111; 116; 0] (blit o_version [48; 48]
    (blit o_magic [117; 115; 116; 97; 114; 0] (blit o_typeflag [type] (blit o_mtime (octal 11 1136102400 ++ [0])
      (blit o_size (octal 11 (u32 size) ++ [0]) (blit o_gid (repeat 48 7 ++ [0]) (blit o_uid (repeat 48 7 ++ [0])
        (blit o_mode (octal 7 (if type =? USTAR_REGULAR then 420 else 493) ++ [0]) (blit o_name (name ++ [0]) (repeat 0 512))))))))))).

Ltac blit_side := rewrite ?blit_length; rewrite ?length_app; cbn [length octal app repeat] in *; lia.
Ltac blit_skip := repeat rewrite field_other by blit_side; repeat rewrite at_other by blit_side.

Lemma octal_bytes n v : Forall is_u8 (octal n v ++ [0]).
Proof.
  apply Forall_app. split; [|by repeat constructor]. revert v. induction n as [|n IH]; intros v; cbn [octal]; [constructor|].
  apply Forall_app. split; [apply IH|]. repeat constructor; c_lia.
Qed.

Lemma blit_bytes o l k : Forall is_u8 l → Forall is_u8 k → o + Z.of_nat (length l) ≤ Z.of_nat (length k) → 0 ≤ o → Forall is_u8 (blit o l k).
Proof.
  intros Hl Hk Hn Ho. unfold blit. rewrite list_inserts_alt by lia. rewrite !Forall_app. split_and!; [by apply Forall_take|done|by apply Forall_drop].
Qed.

Section made.
Context (name : list Z) (type size : Z) (Hname : Forall (λ c, 0 < c < 256) name) (Hlen : (length name ≤ 99)%nat)
  (Htype : type = USTAR_REGULAR ∨ type = USTAR_DIRECTORY).
Let h := unsummed name type size.

Lemma unsummed_length : length h = 512%nat.
Proof. unfold h, unsummed. by rewrite !blit_length. Qed.

Lemma unsummed_bytes : Forall is_u8 h.
Proof.
  unfold h, unsummed. repeat (apply blit_bytes; [| |blit_side|lia]); try apply octal_bytes; try (by repeat (constructor; [by split|])).
  - apply Forall_singleton. destruct Htype as [->| ->]; by split.
  - apply Forall_app. split; [|by repeat constructor]. eapply Forall_impl; [exact Hname|]. cbn. intros c Hc. c_lia.
Qed.

Definition summed : list Z := blit o_chksum (octal 7 (calculate_chksum h) ++ [0]) h.

Lemma summed_fields :
  field o_magic 6 summed = [117; 115; 116; 97; 114; 0] ∧ at_ summed o_version = 48 ∧ at_ summed (o_version + 1) = 48 ∧
  field o_chksum 8 summed = octal 7 (calculate_chksum h) ++ [0] ∧ at_ summed (o_name + 99) = 0 ∧ at_ summed o_prefix = 0 ∧
  at_ summed o_typeflag = type ∧ field o_size 12 summed = octal 11 (u32 size) ++ [0] ∧ chars (field o_name 100 summed) = name.
Proof.
  unfold summed. pose proof unsummed_length as Hl. unfold h in *. unfold unsummed in *. split_and!.
  - blit_skip. rewrite field_same by blit_side. done.
  - blit_skip. by rewrite at_same by blit_side.
  - blit_skip. by rewrite at_same by blit_side.
  - by rewrite field_same by blit_side.
  - blit_skip. destruct (decide (length name = 99%nat)) as [E|E].
    + rewrite at_same by blit_side. unfold at_. rewrite list_lookup_total_alt, lookup_app_r by (rewrite E; cbn; lia). by rewrite E.
    + by rewrite at_other by blit_side.
  - blit_skip. done.
  - blit_skip. by rewrite at_same by blit_side.
  - blit_skip. by rewrite field_same by blit_side.
  - blit_skip. unfold field, blit. rewrite list_inserts_alt by blit_side. change (Z.to_nat 0) with 0%nat. change (Z.to_nat 100) with 100%nat.
    rewrite drop_0, take_0, <- app_assoc. cbn [app]. rewrite take_app_ge by lia. destruct (100 - length name)%nat as [|k] eqn:E; [lia|]. cbn [take].
    apply chars_id. eapply Forall_impl; [exact Hname|]. cbn. lia.
Qed.

Lemma summed_chksum : calculate_chksum summed = calculate_chksum h.
Proof. apply chksum_ext. intros i Hi Hc. unfold summed. apply at_other; rewrite ?unsummed_length; blit_side. Qed.

Lemma summed_nonzero : is_all_zeros summed = false.
Proof.
  apply not_true_is_false. unfold is_all_zeros. rewrite forallb_forall. intros Hz. destruct summed_fields as [Hm _].
  assert (117 ∈ summed) as Hin.
  { assert (117 ∈ field o_magic 6 summed) as Hin by (rewrite Hm; left). unfold field in Hin.
    apply list_elem_of_lookup_1 in Hin as (i & Hi). apply lookup_take_Some in Hi as [Hi _]. rewrite lookup_drop in Hi. by eapply list_elem_of_lookup_2. }
  apply list_elem_of_In in Hin. by apply Hz in Hin.
Qed.

(** Parsing gives back what was stored. *)
Lemma parse_summed : harmless name → 0 ≤ size ≤ INT_MAX →
  ustar_parse_header summed = Ok (UFile name type (if type =? USTAR_REGULAR then size else 0)).
Proof.
  intros Hh Hs. destruct summed_fields as (E1 & E2 & E3 & E4 & E5 & E6 & E7 & E8 & E9). unfold ustar_parse_header.
  rewrite summed_nonzero, E1, E2, E3, bool_decide_eq_true_2 by done. change (negb true) with false. change (negb (48 =? 48)) with false. cbn [orb].
  rewrite E4. pose proof (chksum_bound h unsummed_bytes unsummed_length) as Hb.
  rewrite parse_octal by (unfold UINT_MAX; lia). rewrite summed_chksum, Z.eqb_refl, E5, E6, E7, E8, E9.
  change (negb (0 =? 0)) with false. cbn [negb orb]. rewrite (strip_id name Hh), ok_bind.
  unfold INT_MAX in *. rewrite (u32_small size) by c_lia. rewrite parse_octal by (unfold UINT_MAX; lia).
  destruct Htype as [E|E]; rewrite E; cbn [Z.eqb Pos.eqb negb andb]; [|done]. by rewrite (proj2 (Z.ltb_ge _ _)) by lia.
Qed.
End made.

Lemma make_header_ok name type size : Forall (λ c, 0 < c < 256) name → type = USTAR_REGULAR ∨ type = USTAR_DIRECTORY → 0 ≤ size ≤ INT_MAX →
  ∃ s, strip_antisocial_prefixes name = Ok s ∧ harmless s ∧
  if 99 <? Z.of_nat (length s) then ustar_make_header name type size = Ok None
  else ∃ h, ustar_make_header name type size = Ok (Some h) ∧ length h = 512%nat ∧ Forall is_u8 h ∧
    ustar_parse_header h = Ok (UFile s type (if type =? USTAR_REGULAR then size else 0)).
Proof.
  intros Hn Ht Hs. destruct (strip_ok (λ c, 0 < c < 256) name ltac:(cbn; lia) Hn) as (s & E & Hh & Hf). exists s. split; [done|]. split; [done|].
  unfold ustar_make_header. replace (_ || _) with true by (destruct Ht as [->| ->]; done). cbn [ASSERT]. rewrite ok_bind, E, ok_bind.
  destruct (Z.ltb_spec 99 (Z.of_nat (length s))) as [Hl|Hl]; [done|]. exists (summed s type size). split; [reflexivity|].
  split; [|split].
  - unfold summed. by rewrite blit_length, unsummed_length.
  - apply blit_bytes; [apply octal_bytes|by apply unsummed_bytes; [|lia|]| |lia]. rewrite unsummed_length. cbn. lia.
  - by apply parse_summed; [|lia|..].
Qed.

(** ** The theorem *)

(** C35. A header that [ustar_make_header] makes is 512 bytes that
    [ustar_parse_header] reads back: the name, without its dangerous prefixes,
    the type and the size, which is 0 for a directory.  It fails exactly when that name has more than 99
    characters.  Neither ever gives out a name that begins with "/", "./" or
    "../" or that is "..". *)
Theorem ustar_roundtrip name type size : Forall (λ c, 0 < c < 256) name → type = USTAR_REGULAR ∨ type = USTAR_DIRECTORY → 0 ≤ size ≤ INT_MAX →
  ∃ s, strip_antisocial_prefixes name = Ok s ∧ harmless s ∧
  if 99 <? Z.of_nat (length s) then ustar_make_header name type size = Ok None
  else ∃ h, ustar_make_header name type size = Ok (Some h) ∧ length h = 512%nat ∧ Forall is_u8 h ∧
    ustar_parse_header h = Ok (UFile s type (if type =? USTAR_REGULAR then size else 0)).
Proof. apply make_header_ok. Qed.

Lemma ustar_witness : ∃ h, ustar_make_header [46; 46; 47; 47; 97] USTAR_REGULAR 1000 = Ok (Some h) ∧
  ustar_parse_header h = Ok (UFile [97] USTAR_REGULAR 1000).
Proof.
  destruct (ustar_roundtrip [46; 46; 47; 47; 97] USTAR_REGULAR 1000) as (s & E & _ & H).
  - repeat (constructor; [lia|]). constructor.
  - left. reflexivity.
  - unfold INT_MAX. lia.
  - assert (s = [97]) as ->. { revert E. vm_compute. intros E. injection E as <-. reflexivity. }
    destruct H as (h & E1 & _ & _ & E2). exists h. split; [exact E1|exact E2].
Defined.
