(* ===== verification/Fsutil.v ===== *)
(** * filesys/fsutil.c: what the kernel does with files at start-up

    The scratch device is not the one of the file system.  The positions of
    [fsutil_extract] and [fsutil_append] on it are static variables, passed
    and returned; [beyond] is the byte of memory after a buffer of 512 bytes.
    Printing is left out. *)

From Stdlib Require Import String.
From stdpp Require Import gmap.
From S2P Require Import Prelude Bitmap Vaddr Block Inode FreeMap File Directory Filesys Ustar.

Section fsutil.
Context (junk : list Z).

(** The names that are listed. *)
Definition fsutil_ls (fuel : nat) (s : fs) : res (fs * list (list Z)) :=
  '(s, dir) ← dir_open_root s;
  match dir with
  | None => Err EPanic
  | Some d =>
      '(s, _, names) ← loop fuel (λ '(s, d, names),
        '(s, d, r) ← dir_readdir junk s d;
        match r with Some n => Ok (inl (s, d, names ++ [n])) | None => Ok (inr (s, d, names)) end) (s, d, []);
      Ok (s, names)
  end.

Definition fsutil_rm (s : fs) (file_name : list Z) : res fs :=
  '(s, ok) ← filesys_remove junk s file_name;
  if negb ok then Err EPanic else Ok s.

(** One file of the archive, from the sector after its header. *)
Definition extract_copy (s : fs) (dst : file) (src : block) (sector size : Z) : res (fs * file * block * Z) :=
  loop (Z.to_nat size + 1) (λ '(s, dst, src, sector, size),
    if 0 <? size then
      let chunk_size := if BLOCK_SECTOR_SIZE <? size then BLOCK_SECTOR_SIZE else size in
      '(src, data) ← block_read src sector;
      '(s, dst, n) ← file_write s dst data chunk_size;
      if negb (n =? chunk_size) then Err EPanic
      else Ok (inl (s, dst, src, u32 (sector + 1), size - chunk_size))
    else Ok (inr (s, dst, src, sector))) (s, dst, src, sector, size).

Definition fsutil_extract (fuel : nat) (s : fs) (src : option block) (sector : Z) : res (fs * block * Z) :=
  let '(s, ok1) := alloc s in
  let '(s, ok2) := alloc s in
  if negb ok1 || negb ok2 then Err EPanic else
  match src with
  | None => Err EPanic
  | Some src =>
      '(s, src, sector) ← loop fuel (λ '(s, src, sector),
        '(src, header) ← block_read src sector;
        let sector := u32 (sector + 1) in
        p ← ustar_parse_header header;
        match p with
        | UError _ => Err EPanic
        | UEof => Ok (inr (s, src, sector))
        | UFile file_name type size =>
            if type =? USTAR_DIRECTORY then Ok (inl (s, src, sector))
            else if type =? USTAR_REGULAR then
              '(s, ok) ← filesys_create junk s file_name size;
              if negb ok then Err EPanic else
              '(s, dst) ← filesys_open junk s file_name;
              match dst with
              | None => Err EPanic
              | Some dst =>
                  '(s, dst, src, sector) ← extract_copy s dst src sector size;
                  s ← file_close s (Some dst);
                  Ok (inl (s, src, sector))
              end
            else Ok (inl (s, src, sector))
        end) (s, src, sector);
      src ← block_write src 0 (repeat 0 512);
      src ← block_write src 1 (repeat 0 512);
      Ok (s, src, sector)
  end.

(** The sectors after the header. *)
Definition append_copy (s : fs) (src : file) (dst : block) (sector size : Z) (buffer : list Z) : res (fs * file * block * Z) :=
  loop (Z.to_nat size + 1) (λ '(s, src, dst, sector, size, buffer),
    if 0 <? size then
      let chunk_size := if BLOCK_SECTOR_SIZE <? size then BLOCK_SECTOR_SIZE else size in
      if block_size dst <=? sector then Err EPanic else
      '(s, src, buffer, n) ← file_read s src buffer chunk_size;
      if negb (n =? chunk_size) then Err EPanic else
      let buffer := take (Z.to_nat chunk_size) buffer ++ repeat 0 (Z.to_nat (BLOCK_SECTOR_SIZE - chunk_size)) in
      dst ← block_write dst sector buffer;
      Ok (inl (s, src, dst, u32 (sector + 1), size - chunk_size, buffer))
    else Ok (inr (s, src, dst, sector))) (s, src, dst, sector, size, buffer).

(** What is written for the open file [src]. *)
Definition append_file (s : fs) (src : file) (dst : block) (sector : Z) (file_name : list Z) (beyond : Z) : res (fs * file * block * Z) :=
  size ← file_length s src;
  h ← ustar_make_header file_name USTAR_REGULAR size;
  match h with
  | None => Err EPanic
  | Some buffer =>
      dst ← block_write dst sector buffer;
      '(s, src, dst, sector) ← append_copy s src dst (u32 (sector + 1)) size buffer;
      dst ← block_write dst sector (repeat 0 512);
      dst ← block_write dst sector (repeat 0 511 ++ [beyond]);     (* buffer + 1 *)
      Ok (s, src, dst, sector)
  end.

Definition fsutil_append (s : fs) (dst : option block) (sector : Z) (file_name : list Z) (beyond : Z) : res (fs * block * Z) :=
  let '(s, ok) := alloc s in
  if negb ok then Err EPanic else
  '(s, src) ← filesys_open junk s file_name;
  match src, dst with
  | Some src, Some dst =>
      '(s, src, dst, sector) ← append_file s src dst sector file_name beyond;
      s ← file_close s (Some src);
      Ok (s, dst, sector)
  | _, _ => Err EPanic
  end.
End fsutil.

(** ** The archive *)

(** Sector [k] of the contents of a file, filled up with zeros. *)
Definition data_sector (b : block) (n : inode) (k : Z) : list Z :=
  map (λ j, if 512 * k + j <? ilength (data n) then file_byte b n (512 * k + j) else 0) (seqZ 0 512).

Lemma data_sector_length b n k : length (data_sector b n k) = 512%nat.
Proof. unfold data_sector. by rewrite length_map, length_seqZ. Qed.

Lemma repeat_lookup {A} (x : A) n j : (j < n)%nat → repeat x n !! j = Some x.
Proof. revert j. induction n as [|n IH]; intros [|j] Hj; [lia..|done|]. apply IH. lia. Qed.

(** The buffer after a read and the filling up. *)
Lemma chunk_buffer b n k buf : 0 ≤ k → 512 * k < ilength (data n) → length buf = 512%nat →
  let c := Z.min 512 (ilength (data n) - 512 * k) in
  (∀ j, 0 ≤ j < 512 → j < c → at_ buf j = file_byte b n (512 * k + j)) →
  take (Z.to_nat c) buf ++ repeat 0 (Z.to_nat (512 - c)) = data_sector b n k.
Proof.
  intros Hk Hlt Hl c Hj. apply list_eq. intros i. destruct (decide (i < 512)%nat) as [Hi|Hi].
  2:{ rewrite !lookup_ge_None_2; [done|rewrite data_sector_length; lia|rewrite length_app, length_take, repeat_length; lia]. }
  unfold data_sector. rewrite list_lookup_fmap, lookup_seqZ_lt by lia. cbn [fmap option_fmap option_map]. rewrite Z.add_0_l.
  destruct (decide (i < Z.to_nat c)%nat) as [Hc|Hc].
  - rewrite lookup_app_l by (rewrite length_take; lia). rewrite lookup_take_lt by done.
    rewrite (proj2 (Z.ltb_lt _ _)) by lia. rewrite <- Hj by lia. unfold at_. rewrite Nat2Z.id. by apply list_lookup_lookup_total_lt; lia.
  - rewrite lookup_app_r by (rewrite length_take; lia). rewrite length_take. rewrite (proj2 (Z.ltb_ge _ _)) by lia.
    apply repeat_lookup. lia.
Qed.

Section append.
Context (s : fs) (i : nat) (n : inode) (dst : block) (sector : Z).
Context (Hs : block_wf (fs_device s)) (Hi : inodes s !! i = Some n) (Hex : extent_ok (fs_device s) n) (Hmem : mem_ok s).
Context (Hdst : block_wf dst) (Hsec : 0 ≤ sector) (Hroom : sector + (ilength (data n) + 511) / 512 ≤ size dst) (H32 : size dst < 2 ^ 32).

(** After [c] sectors. *)
Record copied (c : Z) (s' : fs) (dst' : block) : Prop := {
  cp_fs : same_fs s s';
  cp_wf : block_wf dst';
  cp_size : size dst' = size dst;
  cp_sectors m : 0 ≤ m → sector_at dst' m =
    if (sector <=? m) && (m <? sector + c) then data_sector (fs_device s) n (m - sector) else sector_at dst m;
}.

Lemma copy_step c s' d dst' buf : copied c s' dst' → length buf = 512%nat → 0 ≤ c → 512 * c < ilength (data n) →
  let size := ilength (data n) - 512 * c in
  let k := if BLOCK_SECTOR_SIZE <? size then BLOCK_SECTOR_SIZE else size in
  ∃ s'' buf' dst'', file_read s' (File i (512 * c) d) buf k = Ok (s'', File i (512 * c + k) d, buf', k) ∧
    block_write dst' (sector + c) (take (Z.to_nat k) buf' ++ repeat 0 (Z.to_nat (BLOCK_SECTOR_SIZE - k))) = Ok dst'' ∧
    length (take (Z.to_nat k) buf' ++ repeat 0 (Z.to_nat (BLOCK_SECTOR_SIZE - k))) = 512%nat ∧ copied (c + 1) s'' dst''.
Proof.
  intros [C1 C2 C3 C4] Hb Hc Hlt sz k. change BLOCK_SECTOR_SIZE with 512 in *.
  assert (k = Z.min 512 sz) as Ek by (subst k; destruct (Z.ltb_spec 512 sz); lia). clearbody k. subst sz. pose proof Hex as [X1 X2 X3 X4].
  destruct (inode_read_at_spec s' i n buf k (512 * c)) as (s'' & buf' & r & E & Hsame & Hr & Hall & Hlen & Hat).
  { apply C1. } { by rewrite (sf_inodes _ _ C1). } { destruct Hex. split; rewrite ?(sf_size _ _ C1); done. } { lia. } { lia. } { lia. }
  rewrite Hall in * by (eapply same_fs_mem_ok; [exact C1|done]). unfold available in *. replace (Z.max 0 (Z.min k (ilength (data n) - 512 * c))) with k in * by lia.
  assert (take (Z.to_nat k) buf' ++ repeat 0 (Z.to_nat (512 - k)) = data_sector (fs_device s) n c) as Ed.
  { rewrite Ek. apply chunk_buffer; [done|done|congruence|]. intros j Hj Hjk. rewrite Hat by lia. rewrite (proj2 (Z.ltb_lt j k)) by lia.
    unfold file_byte, sector_at. by rewrite (sf_sectors _ _ C1). }
  destruct (block_write_spec dst' (sector + c) (data_sector (fs_device s) n c)) as (dst'' & Ew & W1 & W2 & W3); [done|rewrite C3; c_lia|by rewrite data_sector_length|].
  exists s'', buf', dst''. split; [|split; [by rewrite Ed|split; [rewrite Ed; apply data_sector_length|]]].
  - unfold file_read. cbn [file_inode file_pos file_deny]. rewrite E, ok_bind. by rewrite s32_small by c_lia.
  - split; [by eapply same_fs_trans|done|congruence|]. intros m Hm. rewrite W3, C4 by done.
    destruct (Z.eqb_spec m (sector + c)) as [->|Hne].
    + rewrite (proj2 (Z.leb_le _ _)), (proj2 (Z.ltb_lt _ _)) by lia. cbn [andb]. f_equal. lia.
    + destruct (Z.leb_spec sector m), (Z.ltb_spec m (sector + c)), (Z.ltb_spec m (sector + (c + 1))); cbn; done || lia.
Qed.

Lemma append_copy_ok d buf : length buf = 512%nat → let cnt := (ilength (data n) + 511) / 512 in
  ∃ s' dst', append_copy s (File i 0 d) dst sector (ilength (data n)) buf = Ok (s', File i (ilength (data n)) d, dst', sector + cnt) ∧ copied cnt s' dst'.
Proof.
  intros Hb cnt. pose proof Hex as [X1 X2 X3 X4]. unfold append_copy.
  match goal with |- context [loop _ ?b _] => set (body := b) end.
  destruct (loop_total (λ m (st : fs * file * block * Z * Z * list Z), let '(s', f, dst', sec, sz, b) := st in
      ∃ c, 0 ≤ c ≤ cnt ∧ m = Z.to_nat sz ∧ copied c s' dst' ∧ length b = 512%nat ∧
      f = File i (Z.min (512 * c) (ilength (data n))) d ∧ sec = sector + c ∧ sz = ilength (data n) - Z.min (512 * c) (ilength (data n)))
    (λ '(s', f, dst', sec), f = File i (ilength (data n)) d ∧ sec = sector + cnt ∧ copied cnt s' dst') body)
    with (n := (Z.to_nat (ilength (data n)) + 1)%nat) (k := Z.to_nat (ilength (data n))) (s := (s, File i 0 d, dst, sector, ilength (data n), buf))
    as ([[[s' f] dst'] sec] & E & -> & -> & Hc); [| | |exists s', dst'; split; [exact E|exact Hc]]; cycle 1.
  - exists 0. split; [subst cnt; c_lia|]. replace (Z.min (512 * 0) (ilength (data n))) with 0 by lia. split_and!; try done; [|lia|lia].
    split; [by apply same_fs_refl|done|done|]. intros m Hm. destruct (Z.leb_spec sector m), (Z.ltb_spec m (sector + 0)); cbn; done || lia.
  - lia.
  - intros m [[[[[s' f] dst'] sec] sz] b] (c & Hcc & -> & Hcp & Hlb & -> & -> & ->). unfold body. destruct (Z.ltb_spec 0 (ilength (data n) - Z.min (512 * c) (ilength (data n)))) as [Hlt|Hge].
    + replace (Z.min (512 * c) (ilength (data n))) with (512 * c) in * by lia.
      destruct (copy_step c s' d dst' b Hcp Hlb) as (s'' & buf' & dst'' & E1 & E2 & E3 & Hcp'); [lia|lia|]. cbv zeta. unfold block_size. rewrite (cp_size _ _ _ Hcp).
      rewrite (proj2 (Z.leb_gt _ _)) by (subst cnt; c_lia). cbv zeta in E1, E2, E3. rewrite E1, ok_bind, Z.eqb_refl. cbn [negb]. rewrite E2, ok_bind.
      eexists. split; [reflexivity|]. change BLOCK_SECTOR_SIZE with 512 in E3 |- *. set (k := if 512 <? ilength (data n) - 512 * c then 512 else ilength (data n) - 512 * c) in E3 |- *.
      assert (k = Z.min 512 (ilength (data n) - 512 * c)) as Ek by (subst k; destruct (Z.ltb_spec 512 (ilength (data n) - 512 * c)); lia). clearbody k.
      eexists. split; [|exists (c + 1); split; [subst cnt; c_lia|split; [reflexivity|]]]; [lia|]. split; [done|].
      split; [exact E3|split; [f_equal; lia|split; [rewrite u32_small by (subst cnt; c_lia); lia|lia]]].
    + eexists. split; [reflexivity|]. assert (c = cnt) as -> by (subst cnt; c_lia). split; [f_equal; lia|done].
Qed.
End append.

(** ** The theorem *)

Lemma end_marker_bad beyond : beyond ≠ 0 → ustar_parse_header (repeat 0 511 ++ [beyond]) = Ok (UError "not a ustar archive").
Proof.
  intros Hb. unfold ustar_parse_header. assert (is_all_zeros (repeat 0 511 ++ [beyond]) = false) as ->.
  { unfold is_all_zeros. rewrite forallb_app. cbn [forallb]. rewrite (proj2 (Z.eqb_neq beyond 0)) by done. apply andb_false_r. }
  unfold field. rewrite drop_app_le, take_app_le by (rewrite ?length_drop, ?repeat_length; lia). done.
Qed.

(** What [fsutil_append] writes for an open file: a header that the archive
    reader takes for a regular file of that name and size, then the contents,
    in sectors filled up with zeros; nothing before and nothing after them
    changes but one sector.  That sector, the end of the archive, is written
    twice instead of two sectors once, the second time from the middle of the
    buffer: its last byte is whatever is in memory after the buffer, and when
    that is not 0 the reader does not take the sector for the end. *)
Theorem append_correct s i n d dst sector name nm beyond :
  block_wf (fs_device s) → inodes s !! i = Some n → extent_ok (fs_device s) n → mem_ok s → block_wf dst → 0 ≤ sector →
  let cnt := (ilength (data n) + 511) / 512 in
  sector + 1 + cnt < size dst → size dst < 2 ^ 32 → Forall (λ c, 0 < c < 256) name → strip_antisocial_prefixes name = Ok nm → (length nm ≤ 99)%nat →
  ∃ s' dst', append_file s (File i 0 d) dst sector name beyond = Ok (s', File i (ilength (data n)) d, dst', sector + 1 + cnt) ∧ same_fs s s' ∧ block_wf dst' ∧ size dst' = size dst ∧
    ustar_parse_header (sector_at dst' sector) = Ok (UFile nm USTAR_REGULAR (ilength (data n))) ∧
    (∀ k, 0 ≤ k < cnt → sector_at dst' (sector + 1 + k) = data_sector (fs_device s) n k) ∧
    (∀ m, 0 ≤ m → m < sector ∨ sector + 1 + cnt < m → sector_at dst' m = sector_at dst m) ∧
    (beyond ≠ 0 → ustar_parse_header (sector_at dst' (sector + 1 + cnt)) = Ok (UError "not a ustar archive")).
Proof.
  intros Hs Hi Hex Hmem Hdst Hsec cnt Hroom H32 Hn Hnm Hl. pose proof Hex as [X1 _ _ _]. assert (0 ≤ cnt) as Hcnt by (subst cnt; c_lia).
  unfold append_file, file_length. cbn [file_inode]. rewrite Hi. cbn [deref]. rewrite ok_bind. unfold inode_length. rewrite ok_bind.
  destruct (make_header_ok name USTAR_REGULAR (ilength (data n)) Hn ltac:(by left) ltac:(unfold INT_MAX; lia)) as (nm' & E & _ & H).
  rewrite Hnm in E. injection E as <-. rewrite (proj2 (Z.ltb_ge 99 _)) in H by lia. destruct H as (h & -> & Hh & _ & Hp). rewrite ok_bind.
  destruct (block_write_spec dst sector h Hdst) as (d1 & -> & W1 & W2 & W3); [lia|lia|]. rewrite ok_bind, u32_small by c_lia.
  destruct (append_copy_ok s i n d1 (sector + 1) Hs Hi Hex Hmem W1 ltac:(lia) ltac:(rewrite W2; fold cnt; lia) ltac:(lia) d h Hh) as (s' & d2 & -> & [C1 C2 C3 C4]).
  rewrite ok_bind. fold cnt in C4 |- *. destruct (block_write_spec d2 (sector + 1 + cnt) (repeat 0 512) C2) as (d3 & -> & V1 & V2 & V3); [lia|done|]. rewrite ok_bind.
  destruct (block_write_spec d3 (sector + 1 + cnt) (repeat 0 511 ++ [beyond]) V1) as (d4 & -> & U1 & U2 & U3); [lia|by rewrite length_app, repeat_length|]. rewrite ok_bind.
  exists s', d4. split; [done|]. split; [done|]. split; [done|]. split; [lia|].
  assert (∀ m, 0 ≤ m → m ≠ sector + 1 + cnt → sector_at d4 m = if (sector + 1 <=? m) && (m <? sector + 1 + cnt) then data_sector (fs_device s) n (m - (sector + 1))
    else if m =? sector then h else sector_at dst m) as Hall.
  { intros m Hm Hne. rewrite U3, V3, C4, W3 by done. by rewrite !(proj2 (Z.eqb_neq m (sector + 1 + cnt))) by done. }
  split_and!.
  - rewrite Hall by lia. rewrite (proj2 (Z.leb_gt (sector + 1) sector)), Z.eqb_refl by lia. exact Hp.
  - intros k Hk. rewrite Hall by lia. rewrite (proj2 (Z.leb_le (sector + 1) _)), (proj2 (Z.ltb_lt _ (sector + 1 + cnt))) by lia. cbn [andb]. f_equal. lia.
  - intros m Hm Hout. rewrite Hall by lia. rewrite (proj2 (Z.eqb_neq m sector)) by lia.
    destruct (Z.leb_spec (sector + 1) m), (Z.ltb_spec m (sector + 1 + cnt)); cbn; done || lia.
  - intros Hb. rewrite U3, Z.eqb_refl by lia. by apply end_marker_bad.
Qed.

Definition demo_scratch : block := Block "hdc" BLOCK_SCRATCH 8 (repeat (repeat 1 512) 8) 0 0.

Lemma demo_scratch_wf : block_wf demo_scratch.
Proof. split; [reflexivity| |discriminate]. intros x Hx. apply list_elem_of_In, repeat_spec in Hx. by subst x. Qed.

Lemma append_witness : ∃ s dst, append_file demo_fs (File 0 0 false) demo_scratch 0 [97] 204 = Ok (s, File 0 600 false, dst, 3) ∧
  ustar_parse_header (sector_at dst 0) = Ok (UFile [97] USTAR_REGULAR 600).
Proof.
  destruct (append_correct demo_fs 0 demo_inode false demo_scratch 0 [97] [97] 204) as (s & dst & E & _ & _ & _ & P & _).
  - exact demo_block_wf.
  - reflexivity.
  - exact demo_extent_ok.
  - apply not_elem_of_nil.
  - exact demo_scratch_wf.
  - lia.
  - vm_compute. reflexivity.
  - vm_compute. reflexivity.
  - repeat constructor; lia.
  - reflexivity.
  - cbn. lia.
  - exists s, dst. split; [exact E|exact P].
Defined.

(** ** Extracting *)

Section extract.
Context (s : fs) (i : nat) (n : inode) (src : block) (sector : Z).
Context (Hs : block_wf (fs_device s)) (Hi : inodes s !! i = Some n) (Hex : extent_ok (fs_device s) n) (Hmem : mem_ok s) (Hdeny : deny_write_cnt n = 0).
Context (Hsrc : block_wf src) (Hsec : 0 ≤ sector) (Hroom : sector + (ilength (data n) + 511) / 512 ≤ size src) (H32 : size src < 2 ^ 32).

(** After [c] sectors: the first [c] * 512 bytes of the file are those of the
    archive, the other bytes of the device are as before. *)
Record extracted (c : Z) (s' : fs) (src' : block) : Prop := {
  et_wf : block_wf (fs_device s');
  et_size : size (fs_device s') = size (fs_device s);
  et_inodes : inodes s' = inodes s;
  et_mem : mem_ok s';
  et_src : block_wf src' ∧ sectors src' = sectors src ∧ size src' = size src;
  et_bytes m j : 0 ≤ m → 0 ≤ j < 512 → at_ (sector_at (fs_device s') m) j =
    let q := (m - start (data n)) * 512 + j in
    if (0 <=? q) && (q <? Z.min (512 * c) (ilength (data n))) then at_ (sector_at src (sector + q / 512)) (q mod 512)
    else at_ (sector_at (fs_device s) m) j;
}.

Lemma extract_copy_step c s' d src' : extracted c s' src' → 0 ≤ c → 512 * c < ilength (data n) →
  let sz := ilength (data n) - 512 * c in
  let k := if BLOCK_SECTOR_SIZE <? sz then BLOCK_SECTOR_SIZE else sz in
  ∃ s'' src'' buf, block_read src' (sector + c) = Ok (src'', buf) ∧
    file_write s' (File i (512 * c) d) buf k = Ok (s'', File i (512 * c + k) d, k) ∧ extracted (c + 1) s'' src''.
Proof.
  intros [C1 C2 C3 C4 (C5 & C6 & C7) C8] Hc Hlt sz k. change BLOCK_SECTOR_SIZE with 512 in *.
  assert (k = Z.min 512 sz) as Ek by (subst k; destruct (Z.ltb_spec 512 sz); lia). clearbody k. subst sz. pose proof Hex as [X1 X2 X3 X4].
  destruct (block_read_spec src' (sector + c) C5) as (src'' & E1 & R1 & R2 & R3); [rewrite C7; c_lia|].
  set (buf := sector_at src' (sector + c)) in *. assert (buf = sector_at src (sector + c)) as Eb by (unfold buf, sector_at; by rewrite C6).
  assert (Z.of_nat (length buf) = 512) as Hlb by (apply sector_length; [done|rewrite C7; c_lia]).
  destruct (inode_write_at_spec s' i n buf k (512 * c) C1) as (s'' & r & E2 & W & Hr & Hall); try done; try lia.
  { by rewrite C3. } { split; rewrite ?C2; done. } { unfold available. lia. }
  rewrite Hall in * by done. unfold available in *. replace (Z.max 0 (Z.min k (ilength (data n) - 512 * c))) with k in * by lia.
  exists s'', src'', buf. split; [done|]. split.
  { unfold file_write. cbn [file_inode file_pos file_deny]. rewrite E2, ok_bind. by rewrite s32_small by c_lia. }
  pose proof W as [W1 W2 W3 W4 _ _ _ _ _]. split; [done|congruence|congruence|by eapply wrote_mem_ok|split_and!; congruence|].
  intros m j Hm Hj. rewrite W3 by done. cbv zeta. set (q := (m - start (data n)) * 512 + j). rewrite C8 by done. cbv zeta. fold q.
  destruct (Z.leb_spec (512 * c) q) as [Hq|Hq], (Z.ltb_spec q (512 * c + k)) as [Hq'|Hq']; cbn [andb].
  - replace ((0 <=? q) && (q <? Z.min (512 * (c + 1)) (ilength (data n)))) with true by lia.
    rewrite Eb. f_equal; [f_equal|]; c_lia.
  - replace ((0 <=? q) && (q <? Z.min (512 * (c + 1)) (ilength (data n)))) with false by lia.
    by replace ((0 <=? q) && (q <? Z.min (512 * c) (ilength (data n)))) with false by lia.
  - by replace ((0 <=? q) && (q <? Z.min (512 * (c + 1)) (ilength (data n)))) with ((0 <=? q) && (q <? Z.min (512 * c) (ilength (data n)))) by lia.
  - by replace ((0 <=? q) && (q <? Z.min (512 * (c + 1)) (ilength (data n)))) with ((0 <=? q) && (q <? Z.min (512 * c) (ilength (data n)))) by lia.
Qed.

Lemma extract_copy_ok d : let cnt := (ilength (data n) + 511) / 512 in
  ∃ s' src', extract_copy s (File i 0 d) src sector (ilength (data n)) = Ok (s', File i (ilength (data n)) d, src', sector + cnt) ∧ extracted cnt s' src'.
Proof.
  intros cnt. pose proof Hex as [X1 X2 X3 X4]. unfold extract_copy.
  match goal with |- context [loop _ ?b _] => set (body := b) end.
  destruct (loop_total (λ m (st : fs * file * block * Z * Z), let '(s', f, src', sec, sz) := st in
      ∃ c, 0 ≤ c ≤ cnt ∧ m = Z.to_nat sz ∧ extracted c s' src' ∧
      f = File i (Z.min (512 * c) (ilength (data n))) d ∧ sec = sector + c ∧ sz = ilength (data n) - Z.min (512 * c) (ilength (data n)))
    (λ '(s', f, src', sec), f = File i (ilength (data n)) d ∧ sec = sector + cnt ∧ extracted cnt s' src') body)
    with (n := (Z.to_nat (ilength (data n)) + 1)%nat) (k := Z.to_nat (ilength (data n))) (s := (s, File i 0 d, src, sector, ilength (data n)))
    as ([[[s' f] src'] sec] & E & -> & -> & Hc); [| | |exists s', src'; split; [exact E|exact Hc]]; cycle 1.
  - exists 0. split; [subst cnt; c_lia|]. replace (Z.min (512 * 0) (ilength (data n))) with 0 by lia. split_and!; try done; [|lia|lia].
    split; try done. intros m j Hm Hj. cbv zeta. by replace (_ && _) with false by lia.
  - lia.
  - intros m [[[[s' f] src'] sec] sz] (c & Hcc & -> & Hcp & -> & -> & ->). unfold body.
    destruct (Z.ltb_spec 0 (ilength (data n) - Z.min (512 * c) (ilength (data n)))) as [Hlt|Hge].
    + replace (Z.min (512 * c) (ilength (data n))) with (512 * c) in * by lia.
      destruct (extract_copy_step c s' d src' Hcp) as (s'' & src'' & buf & E1 & E2 & Hcp'); [lia|lia|]. cbv zeta in E2 |- *.
      rewrite E1, ok_bind, E2, ok_bind, Z.eqb_refl. cbn [negb]. eexists. split; [reflexivity|]. change BLOCK_SECTOR_SIZE with 512.
      set (k := if 512 <? ilength (data n) - 512 * c then 512 else ilength (data n) - 512 * c).
      assert (k = Z.min 512 (ilength (data n) - 512 * c)) as Ek by (subst k; destruct (Z.ltb_spec 512 (ilength (data n) - 512 * c)); lia). clearbody k.
      eexists. split; [|exists (c + 1); split; [subst cnt; c_lia|split; [reflexivity|]]]; [lia|]. split; [done|].
      split; [f_equal; lia|split; [rewrite u32_small by (subst cnt; c_lia); lia|lia]].
    + eexists. split; [reflexivity|]. assert (c = cnt) as -> by (subst cnt; c_lia). split; [f_equal; lia|done].
Qed.
End extract.

Lemma data_sector_at b n k j : 0 ≤ j < 512 → at_ (data_sector b n k) j = if 512 * k + j <? ilength (data n) then file_byte b n (512 * k + j) else 0.
Proof.
  intros Hj. unfold at_. apply list_lookup_total_correct. unfold data_sector. rewrite list_lookup_fmap, lookup_seqZ_lt by lia. cbn [fmap option_fmap option_map]. by replace (0 + Z.of_nat (Z.to_nat j)) with j by lia.
Qed.

(** Extracting the sectors of a file of [s1] into a file of the same length. *)
Lemma extract_data_ok s1 n1 s2 i n2 d src sector :
  block_wf (fs_device s2) → inodes s2 !! i = Some n2 → extent_ok (fs_device s2) n2 → mem_ok s2 → deny_write_cnt n2 = 0 → ilength (data n2) = ilength (data n1) →
  block_wf src → 0 ≤ sector → sector + (ilength (data n1) + 511) / 512 ≤ size src → size src < 2 ^ 32 →
  (∀ k, 0 ≤ k < (ilength (data n1) + 511) / 512 → sector_at src (sector + k) = data_sector (fs_device s1) n1 k) →
  ∃ s' src', extract_copy s2 (File i 0 d) src sector (ilength (data n2)) = Ok (s', File i (ilength (data n2)) d, src', sector + (ilength (data n1) + 511) / 512) ∧
    (∀ q, 0 ≤ q < ilength (data n1) → file_byte (fs_device s') n2 q = file_byte (fs_device s1) n1 q) ∧
    (∀ m j, 0 ≤ m → 0 ≤ j < 512 → m < start (data n2) ∨ ilength (data n2) ≤ (m - start (data n2)) * 512 + j →
       at_ (sector_at (fs_device s') m) j = at_ (sector_at (fs_device s2) m) j).
Proof.
  intros Hs Hi Hex Hmem Hdeny Hlen Hsrc Hsec Hroom H32 Hdata. rewrite <- Hlen in *. pose proof Hex as [X1 X2 X3 X4].
  destruct (extract_copy_ok s2 i n2 src sector Hs Hi Hex Hmem Hdeny Hsrc Hsec Hroom H32 d) as (s' & src' & E & [_ _ _ _ _ B]).
  exists s', src'. split; [exact E|]. split.
  - intros q Hq. unfold file_byte at 1. rewrite B by c_lia. cbv zeta. replace ((start (data n2) + q / 512 - start (data n2)) * 512 + q mod 512) with q by c_lia.
    replace ((0 <=? q) && (q <? Z.min (512 * ((ilength (data n2) + 511) / 512)) (ilength (data n2)))) with true by c_lia.
    rewrite Hdata by c_lia. rewrite data_sector_at by c_lia. replace (512 * (q / 512) + q mod 512) with q by c_lia. by rewrite <- Hlen, (proj2 (Z.ltb_lt _ _)) by lia.
  - intros m j Hm Hj Hout. rewrite B by done. cbv zeta. by replace (_ && _) with false by lia.
Qed.

(** C31. Contents survive the archive: after a file has been appended to the
    archive, the reader finds in its header the name, without dangerous
    prefixes, and the length, and extracting what follows into any new file of
    that length, of the same or of another file system, gives it the bytes of
    the original, leaves the position in the archive behind the contents, and
    changes no byte of the device outside the new file. *)
Theorem archive_roundtrip s1 i1 n1 d1 dst sector name nm beyond :
  block_wf (fs_device s1) → inodes s1 !! i1 = Some n1 → extent_ok (fs_device s1) n1 → mem_ok s1 → block_wf dst → 0 ≤ sector →
  let len := ilength (data n1) in
  let cnt := (len + 511) / 512 in
  sector + 1 + cnt < size dst → size dst < 2 ^ 32 → Forall (λ c, 0 < c < 256) name → strip_antisocial_prefixes name = Ok nm → (length nm ≤ 99)%nat →
  ∃ s1' dst', append_file s1 (File i1 0 d1) dst sector name beyond = Ok (s1', File i1 len d1, dst', sector + 1 + cnt) ∧ same_fs s1 s1' ∧
    ustar_parse_header (sector_at dst' sector) = Ok (UFile nm USTAR_REGULAR len) ∧
    ∀ s2 i2 n2 d2, block_wf (fs_device s2) → inodes s2 !! i2 = Some n2 → extent_ok (fs_device s2) n2 → mem_ok s2 → deny_write_cnt n2 = 0 → ilength (data n2) = len →
    ∃ s2' src, extract_copy s2 (File i2 0 d2) dst' (sector + 1) len = Ok (s2', File i2 len d2, src, sector + 1 + cnt) ∧
      (∀ q, 0 ≤ q < len → file_byte (fs_device s2') n2 q = file_byte (fs_device s1) n1 q) ∧
      (∀ m j, 0 ≤ m → 0 ≤ j < 512 → m < start (data n2) ∨ len ≤ (m - start (data n2)) * 512 + j →
         at_ (sector_at (fs_device s2') m) j = at_ (sector_at (fs_device s2) m) j).
Proof.
  intros Hs Hi Hex Hmem Hdst Hsec len cnt Hroom H32 Hn Hnm Hl.
  destruct (append_correct s1 i1 n1 d1 dst sector name nm beyond Hs Hi Hex Hmem Hdst Hsec Hroom H32 Hn Hnm Hl) as (s1' & dst' & E & Hsame & Hwf & Hsz & Hh & Hd & _).
  exists s1', dst'. split; [exact E|]. split; [exact Hsame|]. split; [exact Hh|]. intros s2 i2 n2 d2 Hs2 Hi2 Hex2 Hmem2 Hdeny Hlen.
  destruct (extract_data_ok s1 n1 s2 i2 n2 d2 dst' (sector + 1) Hs2 Hi2 Hex2 Hmem2 Hdeny Hlen Hwf) as (s2' & src & E2 & B & O); [lia|fold len cnt; lia|lia|exact Hd|].
  fold len cnt in E2. rewrite Hlen in E2, O. exists s2', src. done.
Qed.

Lemma archive_witness : ∃ s1 dst, append_file demo_fs (File 0 0 false) demo_scratch 0 [97] 204 = Ok (s1, File 0 600 false, dst, 3) ∧
  ∃ s2 src, extract_copy demo_fs (File 0 0 false) dst 1 600 = Ok (s2, File 0 600 false, src, 3).
Proof.
  destruct (archive_roundtrip demo_fs 0 demo_inode false demo_scratch 0 [97] [97] 204 demo_block_wf eq_refl demo_extent_ok (not_elem_of_nil _) demo_scratch_wf)
    as (s1 & dst & E & _ & _ & X).
  - lia.
  - vm_compute. reflexivity.
  - vm_compute. reflexivity.
  - repeat constructor; lia.
  - reflexivity.
  - cbn. lia.
  - exists s1, dst. split; [exact E|].
    destruct (X demo_fs 0%nat demo_inode false demo_block_wf eq_refl demo_extent_ok (not_elem_of_nil _) eq_refl eq_refl) as (s2 & src & E2 & _).
    exists s2, src. exact E2.
Defined.
