(* ===== verification/Random.v ===== *)
(** * lib/random.c: the pseudo-random number generator

    RC4 on a state of 256 bytes. *)

From S2P Require Import Prelude.

Record rng := Rng { s : list Z; s_i : Z; s_j : Z; inited : bool }.

Definition swap_byte (a b : Z) (l : list Z) : list Z :=
  let t := at_ l a in <[Z.to_nat b := t]> (<[Z.to_nat a := at_ l b]> l).

(** Byte [k] of a 32-bit number in memory. *)
Definition byte_of (v k : Z) : Z := u8 (Z.shiftr v (8 * k)).

Definition random_init (seed : Z) : rng :=
  let l := seqZ 0 256 in
  let '(l, _) := foldl (λ '(l, j) i,
    let j := u8 (j + (at_ l i + byte_of seed (i mod 4))) in
    (swap_byte i j l, j)) (l, 0) (seqZ 0 256) in
  Rng l 0 0 true.

(** One turn of the loop of [random_bytes]. *)
Definition random_step (r : rng) : rng * Z :=
  let i := u8 (s_i r + 1) in
  let j := u8 (s_j r + at_ (s r) i) in
  let l := swap_byte i j (s r) in
  let k := u8 (at_ l i + at_ l j) in
  (Rng l i j (inited r), at_ l k).

Fixpoint random_loop (size : nat) (r : rng) : rng * list Z :=
  match size with
  | O => (r, [])
  | S size => let '(r, b) := random_step r in let '(r, l) := random_loop size r in (r, b :: l)
  end.

Definition random_bytes (size : nat) (r : rng) : rng * list Z :=
  random_loop size (if inited r then r else random_init 0).

Definition random_ulong (r : rng) : rng * Z :=
  let '(r, l) := random_bytes 4 r in (r, word32 l 0).

(** ** The state is a permutation of the bytes *)

Record rng_wf (r : rng) : Prop := {
  rw_perm : s r ≡ₚ seqZ 0 256;
  rw_i : is_u8 (s_i r);
  rw_j : is_u8 (s_j r);
}.

Lemma perm_at l i : l ≡ₚ seqZ 0 256 → is_u8 i → ∃ x, l !! Z.to_nat i = Some x ∧ at_ l i = x ∧ is_u8 x.
Proof.
  intros Hl Hi. assert (length l = 256%nat) as Hlen by (by rewrite Hl).
  destruct (lookup_lt_is_Some_2 l (Z.to_nat i)) as [x Hx]; [unfold is_u8 in Hi; lia|]. exists x. split; [done|].
  split; [by apply list_lookup_total_correct|]. apply list_elem_of_lookup_2 in Hx. rewrite Hl in Hx. apply elem_of_seqZ in Hx. c_lia.
Qed.

Lemma swap_perm l a b : l ≡ₚ seqZ 0 256 → is_u8 a → is_u8 b → swap_byte a b l ≡ₚ seqZ 0 256.
Proof.
  intros Hl Ha Hb. destruct (perm_at l a Hl Ha) as (x & Hx & Ex & _), (perm_at l b Hl Hb) as (y & Hy & Ey & _).
  rewrite <- Hl. unfold swap_byte. rewrite Ex, Ey. by apply Permutation_insert_swap.
Qed.

Lemma init_wf seed : rng_wf (random_init seed) ∧ inited (random_init seed) = true.
Proof.
  unfold random_init. assert (∀ l j k, l ≡ₚ seqZ 0 256 → Forall is_u8 k → let '(l', _) := foldl (λ '(l, j) i,
    let j := u8 (j + (at_ l i + byte_of seed (i mod 4))) in (swap_byte i j l, j)) (l, j) k in l' ≡ₚ seqZ 0 256) as H.
  { intros l j k Hl Hk. revert l j Hl. induction Hk as [|i k Hi Hk IH]; intros l j Hl; [done|]. cbn [foldl].
    apply IH. apply swap_perm; [done|done|apply u8_range]. }
  specialize (H (seqZ 0 256) 0 (seqZ 0 256)). destruct (foldl _ _ _) as [l j]. split; [|done]. split; cbn; [|c_lia|c_lia].
  apply H; [done|]. apply Forall_forall. intros i Hi%elem_of_seqZ. c_lia.
Qed.

Lemma step_wf r : rng_wf r → rng_wf (random_step r).1 ∧ is_u8 (random_step r).2 ∧ inited (random_step r).1 = inited r.
Proof.
  intros [Hp Hi Hj]. unfold random_step. cbn [fst snd].
  assert (swap_byte (u8 (s_i r + 1)) (u8 (s_j r + at_ (s r) (u8 (s_i r + 1)))) (s r) ≡ₚ seqZ 0 256) as Hs by (by apply swap_perm; try apply u8_range).
  split; [split; cbn; [done|apply u8_range|apply u8_range]|]. split; [|done].
  set (l := swap_byte _ _ _) in *. destruct (perm_at l (u8 (at_ l (u8 (s_i r + 1)) + at_ l (u8 (s_j r + at_ (s r) (u8 (s_i r + 1))))))) as (x & _ & -> & Hx);
    [done|apply u8_range|done].
Qed.

Lemma loop_wf n : ∀ r, rng_wf r → let '(r', l) := random_loop n r in rng_wf r' ∧ length l = n ∧ Forall is_u8 l ∧ inited r' = inited r.
Proof.
  induction n as [|n IH]; intros r Hr; [by split_and!|]. cbn [random_loop]. destruct (step_wf r Hr) as (H1 & H2 & H3).
  destruct (random_step r) as [r1 b]. specialize (IH r1 H1). destruct (random_loop n r1) as [r2 l]. destruct IH as (I1 & I2 & I3 & I4).
  cbn [fst snd] in *. split_and!; [done|cbn; lia|by constructor|congruence].
Qed.

Lemma bytes_wf n r : (inited r = true → rng_wf r) →
  let '(r', l) := random_bytes n r in rng_wf r' ∧ length l = n ∧ Forall is_u8 l ∧ inited r' = true.
Proof.
  intros Hr. unfold random_bytes. destruct (inited r) eqn:E.
  - rewrite <- E. by apply loop_wf, Hr.
  - destruct (init_wf 0) as [Hw Hi]. rewrite <- Hi. by apply loop_wf.
Qed.

(** The states that calls lead to, from the zeros that the kernel starts with. *)
Inductive reachable : rng → Prop :=
  | at_boot : reachable (Rng (repeat 0 256) 0 0 false)
  | after_init r seed : reachable r → reachable (random_init seed)
  | after_bytes r n : reachable r → reachable (random_bytes n r).1.

Lemma reachable_wf r : reachable r → inited r = true → rng_wf r.
Proof.
  induction 1 as [|r seed _ _|r n _ IH]; [done|intros _; apply init_wf|]. intros _. pose proof (bytes_wf n r IH) as H.
  destruct (random_bytes n r) as [r' l]. apply H.
Qed.

(** In every state that calls of [random_init] and [random_bytes] lead to,
    [random_bytes] gives as many bytes as are asked for and leaves the state a
    permutation of the 256 bytes, the seed 0 standing in for a missing
    [random_init]. *)
Theorem random_permutation r n : reachable r →
  let '(r', l) := random_bytes n r in s r' ≡ₚ seqZ 0 256 ∧ length l = n ∧ Forall is_u8 l ∧ inited r' = true.
Proof.
  intros Hr. pose proof (bytes_wf n r (reachable_wf r Hr)) as H. destruct (random_bytes n r) as [r' l].
  destruct H as ([] & H). by split.
Qed.

Lemma random_witness : s (random_bytes 10 (random_init 42)).1 ≡ₚ seqZ 0 256.
Proof.
  pose proof (random_permutation (random_init 42) 10 (after_init _ 42 at_boot)) as H.
  destruct (random_bytes 10 (random_init 42)) as [r l]. exact (proj1 H).
Defined.
