(* ===== verification/Init.v ===== *)
(** * threads/init.c: the kernel command line, and what it starts

    Arguments are strings; a null pointer among them is the end of the list.
    [strtok_r] splits an option at its first '='.  What the kernel does
    itself with the options, the actions and the devices is modelled; printing
    is not. *)

From Stdlib Require Import String Ascii.
From stdpp Require Import pretty.
From S2P Require Import Prelude Str Stdio Block Random.

(** ** Words of the command line *)

Abbreviation LOADER_ARGS_LEN := 128.

Fixpoint strnlen (l : list Z) : nat := match l with [] => O | c :: l => if c =? 0 then O else S (strnlen l) end.

(** The loop of [read_command_line]: [p] are the bytes from [p] to [end]. *)
Definition read_command_line (argc : Z) (args : list Z) : res (list (list Z)) :=
  '(argv, _) ← for_up (Z.to_nat (s32 argc)) 0 (λ i '(argv, p),
    if bool_decide (p = []) then Err EPanic
    else if LOADER_ARGS_LEN / 2 + 1 <=? i then Err EFault
    else Ok (argv ++ [take (strnlen p) p], drop (strnlen p + 1) p)) ([], args);
  if (s32 argc <? 0) || (LOADER_ARGS_LEN / 2 + 1 <=? s32 argc) then Err EFault else Ok argv.

(** ** Options *)

Inductive shutdown_type := SHUTDOWN_NONE | SHUTDOWN_POWER_OFF | SHUTDOWN_REBOOT.

Record options := Options {
  how : shutdown_type;
  format_filesys : bool;
  filesys_bdev_name : option string;
  scratch_bdev_name : option string;
  swap_bdev_name : option string;
  thread_mlfqs : bool;
  user_page_limit : Z;
  generator : rng;
}.

Definition default_options : options :=
  Options SHUTDOWN_NONE false None None None false UINT_MAX (Rng (repeat 0 256) 0 0 false).

(** [strtok_r (arg, "=")] of an argument that begins with '-', then the rest,
    if there is one. *)
Fixpoint cut (s : string) : string * option string :=
  match s with
  | EmptyString => (EmptyString, None)
  | String c s =>
      if Ascii.eqb c "=" then (EmptyString, if String.eqb s EmptyString then None else Some s)
      else let '(name, value) := cut s in (String c name, value)
  end.

(** [atoi] of the value of an option, which may be a null pointer. *)
Definition bytes_of (v : string) : list Z := map (λ c, Z.of_nat (nat_of_ascii c)) (list_ascii_of_string v).
Definition atoi_value (value : option string) : res Z :=
  match value with
  | Some v => atoi (put ∅ 1 (bytes_of v ++ [0])) 1
  | None => atoi ∅ 0
  end.

Section options.
(** The time that [rtc_get_time] gives. *)
Context (now : Z).

(** [usage] powers the machine off. *)
Definition parse_option (arg : string) (o : options) : res options :=
  let '(name, value) := cut arg in
  if String.eqb name "-h" then Err EExit
  else if String.eqb name "-q" then
    Ok (Options SHUTDOWN_POWER_OFF (format_filesys o) (filesys_bdev_name o) (scratch_bdev_name o) (swap_bdev_name o) (thread_mlfqs o) (user_page_limit o) (generator o))
  else if String.eqb name "-r" then
    Ok (Options SHUTDOWN_REBOOT (format_filesys o) (filesys_bdev_name o) (scratch_bdev_name o) (swap_bdev_name o) (thread_mlfqs o) (user_page_limit o) (generator o))
  else if String.eqb name "-f" then
    Ok (Options (how o) true (filesys_bdev_name o) (scratch_bdev_name o) (swap_bdev_name o) (thread_mlfqs o) (user_page_limit o) (generator o))
  else if String.eqb name "-filesys" then
    Ok (Options (how o) (format_filesys o) value (scratch_bdev_name o) (swap_bdev_name o) (thread_mlfqs o) (user_page_limit o) (generator o))
  else if String.eqb name "-scratch" then
    Ok (Options (how o) (format_filesys o) (filesys_bdev_name o) value (swap_bdev_name o) (thread_mlfqs o) (user_page_limit o) (generator o))
  else if String.eqb name "-swap" then
    Ok (Options (how o) (format_filesys o) (filesys_bdev_name o) (scratch_bdev_name o) value (thread_mlfqs o) (user_page_limit o) (generator o))
  else if String.eqb name "-rs" then
    n ← atoi_value value;
    Ok (Options (how o) (format_filesys o) (filesys_bdev_name o) (scratch_bdev_name o) (swap_bdev_name o) (thread_mlfqs o) (user_page_limit o) (random_init (u32 n)))
  else if String.eqb name "-mlfqs" then
    Ok (Options (how o) (format_filesys o) (filesys_bdev_name o) (scratch_bdev_name o) (swap_bdev_name o) true (user_page_limit o) (generator o))
  else if String.eqb name "-ul" then
    n ← atoi_value value;
    Ok (Options (how o) (format_filesys o) (filesys_bdev_name o) (scratch_bdev_name o) (swap_bdev_name o) (thread_mlfqs o) (u32 n) (generator o))
  else Err EPanic.

Definition is_option (arg : string) : bool := match arg with String c _ => Ascii.eqb c "-" | EmptyString => false end.

Fixpoint parse_loop (argv : list string) (o : options) : res (list string * options) :=
  match argv with
  | arg :: rest => if is_option arg then o ← parse_option arg o; parse_loop rest o else Ok (argv, o)
  | [] => Ok ([], o)
  end.

Definition parse_options (argv : list string) : res (list string * options) :=
  '(argv, o) ← parse_loop argv default_options;
  Ok (argv, Options (how o) (format_filesys o) (filesys_bdev_name o) (scratch_bdev_name o) (swap_bdev_name o)
              (thread_mlfqs o) (user_page_limit o) (random_init (u32 now))).
End options.

(** ** Actions *)

Inductive action := run_task | fsutil_ls | fsutil_cat | fsutil_rm | fsutil_extract | fsutil_append.

Definition actions : list (string * Z * action) :=
  [("run", 2, run_task); ("ls", 1, fsutil_ls); ("cat", 2, fsutil_cat); ("rm", 2, fsutil_rm);
   ("extract", 1, fsutil_extract); ("append", 2, fsutil_append)]%string.

(** The calls that [run_actions] makes, with their arguments, and whether it
    comes to the end of them. *)
Fixpoint run_actions (fuel : nat) (argv : list string) : list (action * list string) * res unit :=
  match fuel with
  | O => ([], Err EFuel)
  | S fuel =>
      match argv with
      | [] => ([], Ok tt)
      | name :: _ =>
          match list_find (λ '(n, _, _), n = name) actions with
          | None => ([], Err EPanic)
          | Some (_, (_, argc, f)) =>
              if bool_decide (Z.of_nat (length argv) < argc) then ([], Err EPanic)
              else
                let '(calls, r) := run_actions fuel (drop (Z.to_nat argc) argv) in
                ((f, take (Z.to_nat argc) argv) :: calls, r)
          end
      end
  end.

(** ** Devices *)

(** The devices are tried in probe order. *)
Fixpoint first_of_type (fuel : nat) (role : block_type) (r : registry) (b : option nat) : res (option nat) :=
  match fuel with
  | O => Err EFuel
  | S fuel =>
      match b with
      | None => Ok None
      | Some i =>
          d ← deref (all_blocks r !! i);
          if decide (type d = role) then Ok (Some i) else first_of_type fuel role r (block_next r i)
      end
  end.

Definition locate_block_device (role : block_type) (name : option string) (r : registry) : res registry :=
  b ← match name with
      | Some n => match block_get_by_name r n with Some b => Ok (Some b) | None => Err EPanic end
      | None => first_of_type (S (length (all_blocks r))) role r (block_first r)
      end;
  match b with Some b => block_set_role r role (Some b) | None => Ok r end.

Definition locate_block_devices (o : options) (r : registry) : res registry :=
  r ← locate_block_device BLOCK_FILESYS (filesys_bdev_name o) r;
  r ← locate_block_device BLOCK_SCRATCH (scratch_bdev_name o) r;
  locate_block_device BLOCK_SWAP (swap_bdev_name o) r.

(** ** Theorems on the command line *)

Lemma strnlen_app w l : Forall (λ c, c ≠ 0) w → strnlen (w ++ 0 :: l) = length w.
Proof. induction 1 as [|c w Hc Hw IH]; [done|]. cbn. rewrite (proj2 (Z.eqb_neq c 0)) by done. by rewrite IH. Qed.

Lemma words_ok args : ∀ i argv pad, Forall (Forall (λ c, c ≠ 0)) args → 0 ≤ i → i + Z.of_nat (length args) ≤ 64 →
  for_up (length args) i (λ i '(argv, p),
    if bool_decide (p = []) then Err EPanic
    else if LOADER_ARGS_LEN / 2 + 1 <=? i then Err EFault
    else Ok (argv ++ [take (strnlen p) p], drop (strnlen p + 1) p)) (argv, concat (map (λ w, w ++ [0]) args) ++ pad)
  = Ok (argv ++ args, pad).
Proof.
  induction args as [|w args IH]; intros i argv pad Hw Hi Hn; cbn [length] in *.
  { cbn. by rewrite app_nil_r. }
  rewrite for_up_S. apply Forall_cons in Hw as [Hw1 Hw2]. cbn [map concat]. rewrite <- !app_assoc. cbn [app].
  rewrite bool_decide_eq_false_2 by (by destruct w). change (LOADER_ARGS_LEN / 2 + 1) with 65. rewrite (proj2 (Z.leb_gt 65 i)) by lia.
  rewrite ok_bind, strnlen_app by done. rewrite take_app_length. rewrite (cons_middle 0 w), app_assoc.
  rewrite drop_app_length' by (rewrite length_app; cbn; lia). rewrite IH by (done || lia). by rewrite <- app_assoc.
Qed.

(** The words that the loader puts one after the other, each with its null
    byte, are the arguments of the kernel. *)
Theorem read_command_line_roundtrip args pad : Forall (Forall (λ c, c ≠ 0)) args → Z.of_nat (length args) ≤ 64 →
  read_command_line (Z.of_nat (length args)) (concat (map (λ w, w ++ [0]) args) ++ pad) = Ok args.
Proof.
  intros Hw Hn. unfold read_command_line. rewrite s32_small by c_lia. rewrite Nat2Z.id, words_ok by (done || lia). rewrite ok_bind.
  change (LOADER_ARGS_LEN / 2 + 1) with 65. rewrite (proj2 (Z.ltb_ge _ 0)), (proj2 (Z.leb_gt 65 _)) by lia. done.
Qed.

(** The actions cut the arguments into calls: the words of the calls, one
    after the other, are the arguments up to the one that is wrong, each call
    has the words that the table says, and the loop ends, with success if and
    only if all words are used. *)
Theorem run_actions_correct argv : let '(calls, r) := run_actions (S (length argv)) argv in
  r ≠ Err EFuel ∧ (∃ rest, argv = concat (map snd calls) ++ rest ∧ (r = Ok tt ↔ rest = [])) ∧
  Forall (λ '(f, args), ∃ name, head args = Some name ∧ (name, Z.of_nat (length args), f) ∈ actions) calls.
Proof.
  assert (∀ n argv, (length argv < n)%nat → let '(calls, r) := run_actions n argv in
    r ≠ Err EFuel ∧ (∃ rest, argv = concat (map snd calls) ++ rest ∧ (r = Ok tt ↔ rest = [])) ∧
    Forall (λ '(f, args), ∃ name, head args = Some name ∧ (name, Z.of_nat (length args), f) ∈ actions) calls) as H; [|apply H; lia].
  clear argv. induction n as [|n IH]; intros argv Hn; [lia|]. cbn [run_actions]. destruct argv as [|w argv].
  { split; [done|]. split; [by exists []|constructor]. }
  destruct (list_find _ actions) as [[k [[nm argc] f]]|] eqn:Ef.
  2:{ split; [done|]. split; [by exists (w :: argv)|constructor]. }
  apply list_find_Some in Ef as (Hk & -> & _). apply list_elem_of_lookup_2 in Hk.
  assert (1 ≤ argc) as Hargc by (repeat (apply elem_of_cons in Hk as [Hk|Hk]; [injection Hk as _ -> _; lia|]); by apply elem_of_nil in Hk).
  case_bool_decide as Hlt.
  { split; [done|]. split; [by exists (w :: argv)|constructor]. }
  specialize (IH (drop (Z.to_nat argc) (w :: argv))). destruct (run_actions n _) as [calls r].
  destruct IH as (I1 & (rest & I2 & I3) & I4); [rewrite length_drop; lia|]. split; [done|]. split.
  - exists rest. cbn [map concat snd]. rewrite <- app_assoc, <- I2. by rewrite take_drop.
  - constructor; [|done]. exists w. split; [by destruct (Z.to_nat argc) eqn:E; [lia|]|]. by rewrite length_take, Nat.min_l, Z2Nat.id by lia.
Qed.

(** ** Theorems on devices *)

Lemma first_of_type_ok role r n : ∀ i, (length (all_blocks r) - i < n)%nat → (i ≤ length (all_blocks r))%nat →
  first_of_type n role r (if Nat.ltb i (length (all_blocks r)) then Some i else None) =
  Ok ((λ p, i + p.1)%nat <$> list_find (λ b, type b = role) (drop i (all_blocks r))).
Proof.
  induction n as [|n IH]; intros i Hn Hi; [lia|]. cbn [first_of_type]. destruct (Nat.ltb_spec i (length (all_blocks r))) as [Hlt|Hge].
  2:{ by rewrite drop_ge by lia. }
  destruct (lookup_lt_is_Some_2 _ _ Hlt) as [d Hd]. rewrite Hd. cbn [deref mbind res_bind]. rewrite (drop_S _ _ _ Hd). cbn [list_find].
  destruct (decide (type d = role)) as [Ht|Ht]; [cbn; do 2 f_equal; lia|]. unfold block_next.
  rewrite (Nat.add_1_r i). rewrite IH by lia. destruct (list_find _ _) as [[j b]|]; cbn; [do 2 f_equal; lia|done].
Qed.

(** A role goes to the device that the option names, and the kernel panics
    when there is none; without the option it goes to the first device of that
    type in probe order, if there is one. *)
Theorem locate_block_device_correct role name r : locate_block_device role name r =
  match name with
  | Some n => match list_find (λ b, Block.name b = n) (all_blocks r) with
              | Some (i, _) => block_set_role r role (Some i)
              | None => Err EPanic
              end
  | None => match list_find (λ b, type b = role) (all_blocks r) with
            | Some (i, _) => block_set_role r role (Some i)
            | None => Ok r
            end
  end.
Proof.
  unfold locate_block_device. destruct name as [n|].
  - unfold block_get_by_name. by destruct (list_find _ _) as [[i b]|].
  - replace (block_first r) with (if Nat.ltb 0 (length (all_blocks r)) then Some 0%nat else None) by (unfold block_first; by destruct (all_blocks r)).
    rewrite first_of_type_ok by lia. rewrite ok_bind, drop_0. by destruct (list_find _ _) as [[i b]|].
Qed.

(** The seed that the option -rs gives is not used: the generator is seeded
    with the time in any case. *)
Theorem rs_option_ignored now argv rest o : parse_options now argv = Ok (rest, o) → generator o = random_init (u32 now).
Proof. unfold parse_options. intros E. inv_res. destruct a as [a o']. by inv_res. Qed.

Lemma rs_witness : ∃ o, parse_options 7 ["-rs=42"; "run"]%string = Ok (["run"]%string, o) ∧ generator o = random_init 7.
Proof.
  destruct (parse_options 7 ["-rs=42"; "run"]%string) as [[rest o]|e] eqn:E; [|vm_compute in E; discriminate E].
  assert (rest = ["run"]%string) as -> by (vm_compute in E; injection E as <- _; reflexivity).
  exists o. split; [reflexivity|]. exact (rs_option_ignored 7 ["-rs=42"; "run"]%string ["run"]%string o E).
Defined.

Lemma command_line_witness : read_command_line 2 ([114; 117; 110; 0; 97; 0] ++ repeat 0 122) = Ok [[114; 117; 110]; [97]].
Proof.
  apply (read_command_line_roundtrip [[114; 117; 110]; [97]] (repeat 0 122)); [|cbn; lia].
  repeat constructor; discriminate.
Defined.
