(* ===== verification/Paging.v ===== *)
(** * [paging_init] of threads/init.c

    The kernel's page directory: all of the physical memory appears at
    [PHYS_BASE], the pages of the kernel's code read-only. *)

From S2P Require Import Prelude Vaddr Bitmap Palloc Pagedir.

(** [_start] and [_end_kernel_text] are set by the linker. *)
Definition paging_init (init_ram_pages _start _end_kernel_text : Z) (s : mmu) : res (mmu * Z) :=
  '(p, pd) ← palloc_get_page (pal s) (Z.lor PAL_ASSERT PAL_ZERO);
  '(p, _) ← for_up (Z.to_nat init_ram_pages) 0 (λ page '(p, pt),
    let paddr := u32 (page * PGSIZE) in
    vaddr ← ptov paddr;
    let pde_idx := pd_no vaddr in
    let pte_idx := pt_no vaddr in
    let in_kernel_text := (_start <=? vaddr) && (vaddr <? _end_kernel_text) in
    '(p, pt) ← (if rd32 (mem p) (pd + 4 * pde_idx) =? 0 then
                  '(p, pt) ← palloc_get_page p (Z.lor PAL_ASSERT PAL_ZERO);
                  e ← pde_create pt;
                  Ok (set_mem p (wr32 (mem p) (pd + 4 * pde_idx) e), pt)
                else Ok (p, pt));
    e ← pte_create_kernel vaddr (negb in_kernel_text);
    Ok (set_mem p (wr32 (mem p) (pt + 4 * pte_idx) e), pt)) (p, 0);
  c ← vtop pd;
  Ok (Mmu p c [], pd).

(** ** The processor's walk

    The physical address for a virtual one, and whether it may be written;
    physical memory is at [PHYS_BASE] in [m]. *)
Definition walk (m : memory) (cr3 va : Z) : option (Z * bool) :=
  let pde := rd32 m (cr3 + PHYS_BASE + 4 * (va / 4194304)) in
  if Z.testbit pde 0 then
    let pte := rd32 m (pde / 4096 * 4096 + PHYS_BASE + 4 * (va / 4096 mod 1024)) in
    if Z.testbit pte 0 then Some (pte / 4096 * 4096 + va mod 4096, Z.testbit pde 1 && Z.testbit pte 1) else None
  else None.

(** ** Free pages of the kernel's pool *)

Definition free_list (p : palloc) : list Z :=
  filter (λ k, page_used p k = false) (seqZ (base (kernel_pool p) / 4096) (bit_cnt (used_map (kernel_pool p)))).
Definition free_cnt (p : palloc) : nat := length (free_list p).

Lemma free_got p p' a : got_pages p p' Kernel a 1 → palloc_wf p → free_cnt p = S (free_cnt p').
Proof.
  intros [G1 G2 G3 G4 G5 G6] Hp. destruct (G2 Kernel) as [E1 E2]. cbn in E1, E2, G4.
  destruct (wf_pool _ Hp Kernel) as [_ Ha _]. cbn in Ha.
  unfold free_cnt, free_list. rewrite E1, E2. set (l := seqZ _ _).
  assert (a / 4096 ∈ l) as Hin by (apply elem_of_seqZ; c_lia). assert (NoDup l) as Hnd by apply NoDup_seqZ.
  apply list_elem_of_split in Hin as (l1 & l2 & El). rewrite El in *. apply NoDup_app in Hnd as (_ & Hn & [Hn2 _]%NoDup_cons).
  assert (∀ k, k ≠ a / 4096 → page_used p' k = page_used p k) as Hne.
  { intros k Hk. rewrite (G6 k). destruct (Z.leb_spec (a / 4096) k), (Z.ltb_spec k (a / 4096 + 1)); cbn; try done. lia. }
  rewrite !filter_app, !filter_cons, !length_app.
  rewrite decide_True by (apply G5; lia). rewrite decide_False by (rewrite G6, Z.leb_refl, (proj2 (Z.ltb_lt _ _)) by lia; done).
  cbn [length]. rewrite Nat.add_succ_r. do 2 f_equal; f_equal; apply list_filter_iff'; intros k Hk; rewrite Hne; try done.
  - intros ->. apply (Hn _ Hk). left.
  - by intros ->.
Qed.

Lemma get_zero_page p : palloc_wf p → (0 < free_cnt p)%nat → ∃ p' a,
  palloc_get_page p (Z.lor PAL_ASSERT PAL_ZERO) = Ok (p', a) ∧ got_pages p p' Kernel a 1 ∧
  mem p' = memset (mem p) a 0 4096 ∧ free_cnt p = S (free_cnt p').
Proof.
  intros Hp Hf. unfold palloc_get_page. destruct (palloc_get_spec p (Z.lor PAL_ASSERT PAL_ZERO) 1 Hp) as [[Ho _]|(p' & a & E & Ha & Hg & Hm)]; [lia| |].
  - exfalso. unfold free_cnt in Hf. destruct (free_list p) as [|k l] eqn:El; [cbn in Hf; lia|].
    assert (k ∈ free_list p) as [Hk Hin]%list_elem_of_filter by (rewrite El; left). apply elem_of_seqZ in Hin.
    apply (Ho k); intros j Hj; replace j with k by lia; [|done].
    unfold in_pool. change (get_pool p (pool_of (Z.lor PAL_ASSERT PAL_ZERO))) with (kernel_pool p). lia.
  - exists p', a. split; [done|]. split; [exact Hg|]. split; [exact Hm|]. by apply (free_got p p' a).
Qed.

(** ** The loop *)

Section loop.
Context (pd _start _end_kernel_text : Z).

Definition text_page (i : Z) : bool := (_start <=? PHYS_BASE + 4096 * i) && (PHYS_BASE + 4096 * i <? _end_kernel_text).
Definition pte_for (i : Z) : Z := 4096 * i + 1 + if text_page i then 0 else 2.

(** A page that the page tables are in. *)
Definition table_page (p : palloc) (a : Z) : Prop :=
  a mod 4096 = 0 ∧ PHYS_BASE < a ∧ a + 4096 ≤ 2 ^ 32 ∧ page_used p (a / 4096) = true.

(** The [cnt] tables [ts] hold the entries of the first [i] pages. *)
Record filled (i cnt : Z) (p : palloc) (ts : list Z) : Prop := {
  fi_wf : palloc_wf p;
  fi_cnt : Z.of_nat (length ts) = cnt;
  fi_nodup : NoDup (pd :: ts);
  fi_page a : a ∈ pd :: ts → table_page p a;
  fi_pde k : 0 ≤ k < 1024 → rd32 (mem p) (pd + 4 * k) =
    match ts !! Z.to_nat (k - 768) with Some t => if 768 <=? k then t - PHYS_BASE + 7 else 0 | None => 0 end;
  fi_pte q t j : ts !! q = Some t → 0 ≤ j < 1024 → rd32 (mem p) (t + 4 * j) =
    if 1024 * Z.of_nat q + j <? i then pte_for (1024 * Z.of_nat q + j) else 0;
}.

Lemma page_words p a b : a mod 4096 = 0 → b mod 4096 = 0 → a ≠ b → ∀ j, 0 ≤ j < 1024 →
  rd32 (memset (mem p) a 0 4096) (b + 4 * j) = rd32 (mem p) (b + 4 * j).
Proof.
  intros Ha Hb Hne j Hj. unfold rd32, memset.
  assert (∀ k, b ≤ k < b + 4096 → (a <=? k) && (k <? a + 4096) = false) as H.
  { intros k Hk. apply andb_false_iff. rewrite Z.leb_gt, Z.ltb_ge. c_lia. }
  by rewrite !H by lia.
Qed.

Lemma zero_words p a j : 0 ≤ j < 1024 → rd32 (memset (mem p) a 0 4096) (a + 4 * j) = 0.
Proof.
  intros Hj. unfold rd32, memset. assert (∀ k, a ≤ k < a + 4096 → (a <=? k) && (k <? a + 4096) = true) as H by (intros; lia).
  by rewrite !H by lia.
Qed.

(** A new table, where the directory has none yet. *)
Lemma new_table i cnt p ts : filled i cnt p ts → (0 < free_cnt p)%nat →
  ∃ p' t, palloc_get_page p (Z.lor PAL_ASSERT PAL_ZERO) = Ok (p', t) ∧ pde_create t = Ok (t - PHYS_BASE + 7) ∧
    free_cnt p = S (free_cnt p') ∧ NoDup (pd :: ts ++ [t]) ∧ (∀ a, a ∈ pd :: ts ++ [t] → table_page p' a) ∧ palloc_wf p' ∧
    (∀ a j, a ∈ pd :: ts → 0 ≤ j < 1024 → rd32 (mem p') (a + 4 * j) = rd32 (mem p) (a + 4 * j)) ∧
    (∀ j, 0 ≤ j < 1024 → rd32 (mem p') (t + 4 * j) = 0).
Proof.
  intros [F1 F2 F3 F4 F5 F6] Hf. destruct (get_zero_page p F1 Hf) as (p' & t & E & [G1 G2 G3 G4 G5 G6] & Hm & Hc).
  exists p', t. destruct (wf_pool _ F1 Kernel) as [_ _ Hr]. cbn in G4, Hr.
  assert (t ∉ pd :: ts) as Hnew.
  { intros Hin. destruct (F4 t Hin) as (_ & _ & _ & Hu). rewrite G5 in Hu by lia. done. }
  split; [done|]. split_and!; try done.
  - unfold pde_create, vtop, is_kernel_vaddr. rewrite pg_ofs_mod, G3. cbn [Z.eqb ASSERT mbind res_bind].
    rewrite (proj2 (Z.leb_le _ _)) by lia. cbn [ASSERT mbind res_bind]. unfold PHYS_BASE in *. rewrite u32_small by c_lia.
    rewrite <- !Z.lor_assoc. change (Z.lor PTE_U (Z.lor PTE_P PTE_W)) with 7. rewrite lor_flags by c_lia. done.
  - rewrite app_comm_cons. apply NoDup_app. split; [done|]. split; [|by apply NoDup_singleton].
    intros x Hx ->%list_elem_of_singleton. done.
  - intros a Ha. rewrite app_comm_cons in Ha. apply elem_of_app in Ha as [Ha| ->%list_elem_of_singleton].
    + destruct (F4 a Ha) as (A1 & A2 & A3 & A4). split_and!; try done. rewrite (G6 _), A4. by destruct (_ && _).
    + unfold table_page, PHYS_BASE in *. split_and!; try done; [lia|lia|]. rewrite (G6 _), Z.leb_refl, (proj2 (Z.ltb_lt _ _)) by lia. done.
  - intros a j Ha Hj. destruct (F4 a Ha) as (A1 & _). rewrite Hm. apply page_words; try done. by intros ->.
  - intros j Hj. rewrite Hm. by apply zero_words.
Qed.

(** Storing an entry of a table changes no other entry. *)
Lemma store_words p ts a j e : NoDup (pd :: ts) → (∀ b, b ∈ pd :: ts → table_page p b) → a ∈ pd :: ts → 0 ≤ j < 1024 → is_u32 e →
  let m := wr32 (mem p) (a + 4 * j) e in
  rd32 m (a + 4 * j) = e ∧ ∀ b k, b ∈ pd :: ts → 0 ≤ k < 1024 → b ≠ a ∨ k ≠ j → rd32 m (b + 4 * k) = rd32 (mem p) (b + 4 * k).
Proof.
  intros Hn Hp Ha Hj He m. split; [by apply rd32_wr32_eq|]. intros b k Hb Hk Hne. apply rd32_wr32_ne.
  destruct (Hp a Ha) as (Ea & _), (Hp b Hb) as (Eb & _). destruct (slots_apart a b j k Ea Eb Hj Hk); [naive_solver|lia|lia].
Qed.

Lemma ensure_table i p ts : filled i ((i + 1023) / 1024) p ts → 0 ≤ i < 2 ^ 18 → (i mod 1024 = 0 → (0 < free_cnt p)%nat) →
  ∃ p' ts', (if rd32 (mem p) (pd + 4 * (768 + i / 1024)) =? 0 then
        '(p, pt) ← palloc_get_page p (Z.lor PAL_ASSERT PAL_ZERO);
        e ← pde_create pt;
        Ok (set_mem p (wr32 (mem p) (pd + 4 * (768 + i / 1024)) e), pt)
      else Ok (p, default 0 (last ts))) = Ok (p', default 0 (last ts')) ∧
    filled i (i / 1024 + 1) p' ts' ∧ (free_cnt p + length ts = free_cnt p' + length ts')%nat.
Proof.
  intros Hf Hi Hc. pose proof Hf as [F1 F2 F3 F4 F5 F6]. rewrite F5 by c_lia.
  replace (768 + i / 1024 - 768) with (i / 1024) by lia. rewrite (proj2 (Z.leb_le 768 _)) by c_lia.
  destruct (ts !! Z.to_nat (i / 1024)) as [t|] eqn:Et.
  - apply lookup_lt_Some in Et as Hlt. assert (t ∈ pd :: ts) as Hin by (right; by eapply list_elem_of_lookup_2).
    destruct (F4 t Hin) as (_ & Ht & _). rewrite (proj2 (Z.eqb_neq _ 0)) by (unfold PHYS_BASE in *; lia).
    exists p, ts. split; [done|]. split; [|done]. split; try done. c_lia.
  - apply lookup_ge_None in Et. cbn [Z.eqb]. destruct (new_table i _ p ts Hf) as (p' & t & -> & Ep & Hfc & N1 & N2 & N3 & N4 & N5); [apply Hc; c_lia|].
    cbn [mbind res_bind]. rewrite Ep. cbn [mbind res_bind].
    destruct (store_words p' (ts ++ [t]) pd (768 + i / 1024) (t - PHYS_BASE + 7)) as [S1 S2]; [done|done|left|c_lia| |].
    { destruct (N2 t) as (? & ? & ? & _); [right; apply elem_of_app; right; by apply list_elem_of_singleton|]. unfold PHYS_BASE in *. c_lia. }
    assert (Z.of_nat (length ts) = i / 1024) as Hlen by c_lia.
    assert (∀ b, b ∈ ts ++ [t] → b ≠ pd) as Hnp by (intros b Hb ->; by apply NoDup_cons in N1 as [? _]).
    eexists _, (ts ++ [t]). rewrite last_snoc. split; [reflexivity|]. split; [|rewrite length_app; cbn [length]; change (free_cnt (set_mem p' _)) with (free_cnt p'); lia].
    split; cbn [mem set_mem]; try done; [by apply wf_set_mem|rewrite length_app; cbn; lia| |].
    + intros k Hk. destruct (Z.eq_dec k (768 + i / 1024)) as [->|Hne].
      * rewrite S1. rewrite list_lookup_middle by lia. by rewrite (proj2 (Z.leb_le _ _)) by c_lia.
      * rewrite S2 by (done || (by left) || (by right)). rewrite N4, F5 by (done || left). destruct (Z.leb_spec 768 k); [|by repeat case_match].
        destruct (decide (Z.to_nat (k - 768) < length ts)%nat); [by rewrite lookup_app_l by done|].
        rewrite (lookup_ge_None_2 ts), (lookup_ge_None_2 (ts ++ [t])) by (rewrite ?length_app; cbn; lia). done.
    + intros q u j Hu Hj. assert (u ∈ ts ++ [t]) as Hin by (by eapply list_elem_of_lookup_2).
      rewrite S2 by (done || (by right) || (left; by apply Hnp)). apply lookup_app_Some in Hu as [Hu|[Hq Hu]].
      * rewrite N4 by (done || (right; by eapply list_elem_of_lookup_2)). by apply F6.
      * assert (u = t ∧ q = length ts) as [-> ->].
        { destruct (q - length ts)%nat eqn:Eq; cbn in Hu; [injection Hu as <-; split; [done|lia]|done]. }
        rewrite N5 by done. by rewrite (proj2 (Z.ltb_ge _ _)) by c_lia.
Qed.

Lemma store_entry_ok i p ts t : filled i (i / 1024 + 1) p ts → 0 ≤ i < 2 ^ 18 → last ts = Some t →
  filled (i + 1) ((i + 1 + 1023) / 1024) (set_mem p (wr32 (mem p) (t + 4 * (i mod 1024)) (pte_for i))) ts.
Proof.
  intros [F1 F2 F3 F4 F5 F6] Hi Ht. rewrite last_lookup in Ht. assert (t ∈ pd :: ts) as Hin by (right; by eapply list_elem_of_lookup_2).
  destruct (store_words p ts t (i mod 1024) (pte_for i)) as [S1 S2]; [done|done|done|c_lia| |].
  { unfold pte_for. case_match; c_lia. }
  assert (pd ≠ t) as Hpt by (intros <-; apply NoDup_cons in F3 as [F3 _]; apply F3; by eapply list_elem_of_lookup_2).
  split; cbn [mem set_mem]; try done; [by apply wf_set_mem|c_lia| |].
  - intros k Hk. rewrite S2 by (done || left; done). by apply F5.
  - intros q u j Hu Hj. destruct (decide (q = Nat.pred (length ts) ∧ j = i mod 1024)) as [[-> ->]|Hne].
    + rewrite Ht in Hu. injection Hu as <-. rewrite S1. replace (1024 * _ + _) with i by c_lia. by rewrite (proj2 (Z.ltb_lt _ _)) by lia.
    + assert (u ≠ t ∨ j ≠ i mod 1024) as Hd.
      { destruct (decide (u = t)) as [->|]; [|by left]. right. intros ->. apply Hne. split; [|done].
        apply NoDup_cons in F3 as [_ F3]. by eapply NoDup_lookup. }
      rewrite S2 by (done || (right; by eapply list_elem_of_lookup_2)). rewrite (F6 q u j Hu Hj).
      assert (1024 * Z.of_nat q + j ≠ i) as Hqj.
      { intros E. apply Hne. apply lookup_lt_Some in Hu. split; c_lia. }
      destruct (Z.ltb_spec (1024 * Z.of_nat q + j) i), (Z.ltb_spec (1024 * Z.of_nat q + j) (i + 1)); try done; lia.
Qed.

Lemma vaddr_ok i : 0 ≤ i < 2 ^ 18 → ptov (u32 (i * PGSIZE)) = Ok (PHYS_BASE + 4096 * i) ∧ pd_no (PHYS_BASE + 4096 * i) = 768 + i / 1024 ∧
  pt_no (PHYS_BASE + 4096 * i) = i mod 1024 ∧ pte_create_kernel (PHYS_BASE + 4096 * i) (negb (text_page i)) = Ok (pte_for i).
Proof.
  intros Hi. unfold PHYS_BASE. change PGSIZE with 4096. split_and!.
  - unfold ptov, PHYS_BASE. rewrite (u32_small (i * 4096)) by c_lia. rewrite (proj2 (Z.ltb_lt _ _)) by lia. cbn [ASSERT mbind res_bind].
    rewrite u32_small by c_lia. f_equal. lia.
  - rewrite pd_no_eq. c_lia.
  - rewrite pt_no_eq by c_lia. c_lia.
  - unfold pte_create_kernel, vtop, is_kernel_vaddr, PHYS_BASE. rewrite pg_ofs_mod.
    replace (_ mod 4096) with 0 by c_lia. cbn [Z.eqb ASSERT mbind res_bind]. rewrite (proj2 (Z.leb_le _ _)) by lia. cbn [ASSERT mbind res_bind].
    rewrite u32_small by c_lia. replace (3221225472 + 4096 * i - 3221225472) with (4096 * i) by lia. unfold pte_for.
    destruct (text_page i); cbn [negb]; rewrite <- Z.lor_assoc; [change (Z.lor PTE_P 0) with 1|change (Z.lor PTE_P PTE_W) with 3];
      rewrite lor_flags by c_lia; f_equal; lia.
Qed.

Lemma turn_ok i p ts : filled i ((i + 1023) / 1024) p ts → 0 ≤ i < 2 ^ 18 → (i mod 1024 = 0 → (0 < free_cnt p)%nat) →
  ∃ p' ts', (let paddr := u32 (i * PGSIZE) in
    vaddr ← ptov paddr;
    let pde_idx := pd_no vaddr in
    let pte_idx := pt_no vaddr in
    let in_kernel_text := (_start <=? vaddr) && (vaddr <? _end_kernel_text) in
    '(p, pt) ← (if rd32 (mem p) (pd + 4 * pde_idx) =? 0 then
                  '(p, pt) ← palloc_get_page p (Z.lor PAL_ASSERT PAL_ZERO);
                  e ← pde_create pt;
                  Ok (set_mem p (wr32 (mem p) (pd + 4 * pde_idx) e), pt)
                else Ok (p, default 0 (last ts)));
    e ← pte_create_kernel vaddr (negb in_kernel_text);
    Ok (set_mem p (wr32 (mem p) (pt + 4 * pte_idx) e), pt)) = Ok (p', default 0 (last ts')) ∧
  filled (i + 1) ((i + 1 + 1023) / 1024) p' ts' ∧ (free_cnt p + length ts = free_cnt p' + length ts')%nat.
Proof.
  intros Hf Hi Hc. cbv zeta. destruct (vaddr_ok i Hi) as (-> & E1 & E2 & E3). rewrite ok_bind, E1, E2.
  destruct (ensure_table i p ts Hf Hi Hc) as (p' & ts' & -> & Hf' & Hc'). rewrite ok_bind.
  change ((_start <=? PHYS_BASE + 4096 * i) && (PHYS_BASE + 4096 * i <? _end_kernel_text)) with (text_page i). rewrite E3, ok_bind.
  destruct (last ts') as [t|] eqn:Et.
  - eexists _, ts'. rewrite Et. split; [reflexivity|]. split; [by apply store_entry_ok|done].
  - exfalso. apply last_None in Et as ->. pose proof (fi_cnt _ _ _ _ Hf') as E. cbn in E. c_lia.
Qed.

(** What the processor finds in a directory that is filled. *)
Lemma walk_filled n p ts va : filled n ((n + 1023) / 1024) p ts → 0 ≤ n ≤ 2 ^ 18 → 0 ≤ va < 2 ^ 32 →
  walk (mem p) (pd - PHYS_BASE) va =
  if (PHYS_BASE <=? va) && (va <? PHYS_BASE + 4096 * n) then Some (va - PHYS_BASE, negb (text_page ((va - PHYS_BASE) / 4096))) else None.
Proof.
  intros [F1 F2 F3 F4 F5 F6] Hn Hva. unfold walk. replace (pd - PHYS_BASE + PHYS_BASE) with pd by lia. rewrite F5 by c_lia.
  destruct (ts !! Z.to_nat (va / 4194304 - 768)) as [t|] eqn:Et.
  2:{ cbn. apply lookup_ge_None in Et. destruct (Z.leb_spec PHYS_BASE va), (Z.ltb_spec va (PHYS_BASE + 4096 * n)); try done.
      exfalso. unfold PHYS_BASE in *. c_lia. }
  destruct (Z.leb_spec 768 (va / 4194304)) as [Hk|Hk].
  2:{ cbn. rewrite (proj2 (Z.leb_gt PHYS_BASE va)); [done|]. unfold PHYS_BASE. c_lia. }
  rewrite (proj2 (Z.leb_le PHYS_BASE va)) by (unfold PHYS_BASE; c_lia). cbn [andb].
  assert (t ∈ pd :: ts) as Hin by (right; by eapply list_elem_of_lookup_2). destruct (F4 t Hin) as (T1 & T2 & T3 & _).
  assert (∀ e, e mod 4096 = 0 → Z.testbit (e + 7) 0 = true ∧ Z.testbit (e + 7) 1 = true) as Hbits.
  { intros e He. rewrite <- lor_flags by (done || lia). rewrite !Z.lor_spec, !orb_true_iff. by split; right. }
  destruct (Hbits (t - PHYS_BASE)) as [-> ->]; [unfold PHYS_BASE; c_lia|].
  replace ((t - PHYS_BASE + 7) / 4096 * 4096 + PHYS_BASE) with t by (unfold PHYS_BASE in *; c_lia).
  rewrite (F6 _ _ _ Et) by c_lia. set (i := 1024 * _ + _).
  assert (i = (va - PHYS_BASE) / 4096) as Ei by (subst i; unfold PHYS_BASE in *; c_lia). clearbody i. subst i.
  destruct (Z.ltb_spec ((va - PHYS_BASE) / 4096) n) as [Hlt|Hge].
  - rewrite (proj2 (Z.ltb_lt va _)) by (unfold PHYS_BASE in *; c_lia). set (i := (va - PHYS_BASE) / 4096) in *.
    assert (Z.testbit (pte_for i) 0 = true ∧ Z.testbit (pte_for i) 1 = negb (text_page i) ∧ pte_for i / 4096 = i) as (-> & -> & ->).
    { unfold pte_for. assert (∀ f, 0 ≤ f < 4096 → Z.testbit (4096 * i + f) 0 = Z.testbit f 0 ∧ Z.testbit (4096 * i + f) 1 = Z.testbit f 1) as Hb.
      { intros f Hf. rewrite <- lor_flags by c_lia. rewrite !Z.lor_spec. change 4096 with (2 ^ 12). rewrite (Z.mul_comm (2 ^ 12)), !Z.mul_pow2_bits_low by lia.
        done. }
      destruct (text_page i); rewrite <- Z.add_assoc; cbn [Z.add negb Pos.add Pos.succ]; (split_and!; [apply Hb; lia|apply Hb; lia|c_lia]). }
    cbn [andb]. do 2 f_equal. subst i. unfold PHYS_BASE in *. c_lia.
  - rewrite (proj2 (Z.ltb_ge va _)) by (unfold PHYS_BASE in *; c_lia). done.
Qed.
End loop.

(** ** The theorem *)

(** C11. [paging_init] with enough free pages for the directory and the tables: the
    directory that it loads maps exactly the virtual addresses of the physical
    memory, each to its physical address; a page can be written unless it
    begins inside the kernel's code.  No other address is mapped, so that user
    space is empty in it. *)
Theorem paging_init_correct n _start _end_kernel_text s : palloc_wf (pal s) → 0 ≤ n ≤ 2 ^ 18 →
  (n + 1023) / 1024 < Z.of_nat (free_cnt (pal s)) →
  ∃ s' pd, paging_init n _start _end_kernel_text s = Ok (s', pd) ∧ palloc_wf (pal s') ∧ tlb s' = [] ∧ vtop pd = Ok (cr3 s') ∧
    ∀ va, 0 ≤ va < 2 ^ 32 → walk (mem (pal s')) (cr3 s') va =
      if (PHYS_BASE <=? va) && (va <? PHYS_BASE + 4096 * n)
      then Some (va - PHYS_BASE, negb (text_page _start _end_kernel_text ((va - PHYS_BASE) / 4096))) else None.
Proof.
  intros Hp Hn Hf. unfold paging_init. destruct (get_zero_page (pal s) Hp) as (p & pd & -> & [G1 G2 G3 G4 G5 G6] & Hm & Hc); [c_lia|].
  rewrite ok_bind. destruct (wf_pool _ Hp Kernel) as [_ _ Hr]. cbn in G4, Hr.
  match goal with |- context [for_up _ _ ?b _] => set (body := b) end.
  destruct (for_up_total (λ i '(q, pt), ∃ ts, filled pd _start _end_kernel_text i ((i + 1023) / 1024) q ts ∧ pt = default 0 (last ts) ∧
    (free_cnt q + length ts)%nat = free_cnt p) body (Z.to_nat n) 0 (p, 0)) as ([q pt] & -> & ts & Hq & _).
  - intros i [q pt] Hi (ts & Hq & -> & Hfc).
    destruct (turn_ok pd _start _end_kernel_text i q ts Hq) as (q' & ts' & E & Hq' & Hfc'); [lia| |].
    + intros Hi0. pose proof (fi_cnt _ _ _ _ _ _ _ Hq). c_lia.
    + exists (q', default 0 (last ts')). split; [exact E|]. exists ts'. split; [done|]. split; [done|]. lia.
  - exists []. split; [|split; [done|cbn; lia]]. split; try done; [by apply NoDup_singleton| |].
    + intros a ->%list_elem_of_singleton. unfold table_page. split_and!; try done; [lia|lia|].
      rewrite (G6 _), Z.leb_refl, (proj2 (Z.ltb_lt _ _)) by lia. done.
    + intros k Hk. rewrite Hm, zero_words by done. done.
  - rewrite ok_bind. assert (vtop pd = Ok (pd - PHYS_BASE)) as Ev.
    { unfold vtop, is_kernel_vaddr. rewrite (proj2 (Z.leb_le _ _)) by lia. cbn [ASSERT mbind res_bind].
      by rewrite u32_small by (unfold PHYS_BASE in *; c_lia). }
    rewrite Ev, ok_bind. eexists _, pd. split; [reflexivity|]. split; [by apply Hq|]. split; [done|].
    cbn [cr3 pal]. split; [done|]. intros va Hva. replace (0 + Z.of_nat (Z.to_nat n)) with n in Hq by lia.
    by apply (walk_filled pd _ _ n q ts).
Qed.

(** 300 pages of memory, the first two of the kernel's code. *)
Lemma paging_init_witness : ∃ s pd, paging_init 300 PHYS_BASE (PHYS_BASE + 8192) (Mmu demo_pages 0 []) = Ok (s, pd) ∧
  walk (mem (pal s)) (cr3 s) (PHYS_BASE + 5000) = Some (5000, false) ∧ walk (mem (pal s)) (cr3 s) 5000 = None.
Proof.
  destruct (paging_init_correct 300 PHYS_BASE (PHYS_BASE + 8192) (Mmu demo_pages 0 [])) as (s & pd & E & _ & _ & _ & Hw).
  - exact demo_pages_wf.
  - lia.
  - vm_compute. reflexivity.
  - exists s, pd. split; [exact E|]. split; [rewrite Hw by (vm_compute; split; congruence)|rewrite Hw by lia]; vm_compute; reflexivity.
Defined.
