(* ===== verification/Idt.v ===== *)
(** * userprog/gdt.c and threads/interrupt.c: descriptors, gates, the
      interrupt controllers

    Segment descriptors and gates are 64-bit numbers; how the processor reads
    them is specified after the IA-32 manual.  The two 8259A controllers are
    state machines.  The entry points [intr_stubs] are in assembly code. *)

From Stdlib Require Import String.
From S2P Require Import Prelude.

Abbreviation SEL_KCSEG := 0x08.
Abbreviation SEL_TSS := 0x28.
Abbreviation INTR_CNT := 256.

(** ** Segment descriptors *)

Definition make_seg_desc (base limit class type dpl granularity : Z) : res Z :=
  _ ← ASSERT (limit <=? 0xfffff);
  _ ← ASSERT ((class =? 0) || (class =? 1));
  _ ← ASSERT ((0 <=? type) && (type <=? 15));
  _ ← ASSERT ((0 <=? dpl) && (dpl <=? 3));
  _ ← ASSERT ((granularity =? 0) || (granularity =? 1));
  let e0 := Z.lor (Z.land limit 0xffff) (u32 (Z.shiftl base 16)) in
  let e1 := Z.lor (Z.lor (Z.lor (Z.lor (Z.lor (Z.lor (Z.lor (Z.lor (Z.land (Z.shiftr base 16) 0xff) (Z.shiftl type 8)) (Z.shiftl class 12))
              (Z.shiftl dpl 13)) (Z.shiftl 1 15)) (Z.land limit 0xf0000)) (Z.shiftl 1 22)) (Z.shiftl granularity 23)) (Z.land base 0xff000000) in
  Ok (Z.lor e0 (Z.shiftl e1 32)).

Definition make_code_desc (dpl : Z) : res Z := make_seg_desc 0 0xfffff 1 10 dpl 1.
Definition make_data_desc (dpl : Z) : res Z := make_seg_desc 0 0xfffff 1 2 dpl 1.
Definition make_tss_desc (laddr : Z) : res Z := make_seg_desc laddr 0x67 0 9 0 0.
Definition make_gdtr_operand (limit base : Z) : Z := Z.lor limit (Z.shiftl base 16).

(** The table that [gdt_init] fills, for the TSS at [tss], and the operand of
    LGDT for the table at [gdt]. *)
Definition gdt_init (gdt tss : Z) : res (list Z * Z) :=
  kc ← make_code_desc 0;
  kd ← make_data_desc 0;
  uc ← make_code_desc 3;
  ud ← make_data_desc 3;
  _ ← ASSERT (negb (tss =? 0));                 (* tss_get *)
  t ← make_tss_desc tss;
  Ok ([0; kc; kd; uc; ud; t], make_gdtr_operand (6 * 8 - 1) gdt).

(** ** Gates *)

Definition make_gate (function dpl type : Z) : res Z :=
  _ ← ASSERT (negb (function =? 0));
  _ ← ASSERT ((0 <=? dpl) && (dpl <=? 3));
  _ ← ASSERT ((0 <=? type) && (type <=? 15));
  let e0 := Z.lor (Z.land function 0xffff) (Z.shiftl SEL_KCSEG 16) in
  let e1 := Z.lor (Z.lor (Z.lor (Z.lor (Z.land function 0xffff0000) (Z.shiftl 1 15)) (Z.shiftl dpl 13)) (Z.shiftl 0 12)) (Z.shiftl type 8) in
  Ok (Z.lor e0 (Z.shiftl e1 32)).

Definition make_intr_gate (function dpl : Z) : res Z := make_gate function dpl 14.
Definition make_trap_gate (function dpl : Z) : res Z := make_gate function dpl 15.
Definition make_idtr_operand (limit base : Z) : Z := Z.lor limit (Z.shiftl base 16).

(** ** The interrupt controllers

    [icw] is the initialisation word that a controller waits for, 0 when it
    is initialised; [isr] are the interrupts in service. *)
Record pic := Pic { mask : Z; vector : Z; icw : Z; isr : Z }.

Definition pic_ctrl (v : Z) (p : pic) : pic :=
  if Z.testbit v 4 then Pic 0 (vector p) 2 (isr p)
  else if v =? 0x20 then Pic (mask p) (vector p) (icw p) (Z.land (isr p) (isr p - 1))
  else p.
Definition pic_data (v : Z) (p : pic) : pic :=
  if icw p =? 2 then Pic (mask p) v 3 (isr p)
  else if icw p =? 3 then Pic (mask p) (vector p) 4 (isr p)
  else if icw p =? 4 then Pic (mask p) (vector p) 0 (isr p)
  else Pic v (vector p) (icw p) (isr p).

Record pics := Pics { pic0 : pic; pic1 : pic }.
Definition pic_outb (port v : Z) (p : pics) : pics :=
  if port =? 0x20 then Pics (pic_ctrl v (pic0 p)) (pic1 p)
  else if port =? 0x21 then Pics (pic_data v (pic0 p)) (pic1 p)
  else if port =? 0xa0 then Pics (pic0 p) (pic_ctrl v (pic1 p))
  else if port =? 0xa1 then Pics (pic0 p) (pic_data v (pic1 p))
  else p.

(** Line [n] of 16 is raised: the interrupt that the processor gets.  Lines 8
    to 15 are on the slave, which is on line 2 of the master. *)
Definition raise (n : Z) (p : pics) : option (Z * pics) :=
  if n <? 8 then
    if Z.testbit (mask (pic0 p)) n then None
    else Some (vector (pic0 p) + n, Pics (Pic (mask (pic0 p)) (vector (pic0 p)) (icw (pic0 p)) (Z.lor (isr (pic0 p)) (2 ^ n))) (pic1 p))
  else if Z.testbit (mask (pic0 p)) 2 || Z.testbit (mask (pic1 p)) (n - 8) then None
  else Some (vector (pic1 p) + (n - 8),
             Pics (Pic (mask (pic0 p)) (vector (pic0 p)) (icw (pic0 p)) (Z.lor (isr (pic0 p)) (2 ^ 2)))
                  (Pic (mask (pic1 p)) (vector (pic1 p)) (icw (pic1 p)) (Z.lor (isr (pic1 p)) (2 ^ (n - 8))))).

Definition pic_init (p : pics) : pics :=
  let p := pic_outb 0x21 0xff p in
  let p := pic_outb 0xa1 0xff p in
  let p := pic_outb 0x20 0x11 p in
  let p := pic_outb 0x21 0x20 p in
  let p := pic_outb 0x21 0x04 p in
  let p := pic_outb 0x21 0x01 p in
  let p := pic_outb 0xa0 0x11 p in
  let p := pic_outb 0xa1 0x28 p in
  let p := pic_outb 0xa1 0x02 p in
  let p := pic_outb 0xa1 0x01 p in
  let p := pic_outb 0x21 0x00 p in
  pic_outb 0xa1 0x00 p.

Definition pic_end_of_interrupt (irq : Z) (p : pics) : res pics :=
  _ ← ASSERT ((0x20 <=? irq) && (irq <? 0x30));
  let p := pic_outb 0x20 0x20 p in
  Ok (if 0x28 <=? irq then pic_outb 0xa0 0x20 p else p).

(** ** The interrupt descriptor table *)

Inductive handler := kill | page_fault | syscall_handler | timer_interrupt | keyboard_interrupt | serial_interrupt | ide_interrupt.

Record intr := Intr {
  idt : list Z;
  intr_handlers : list (option handler);
  intr_names : list string;
  unexpected_cnt : list Z;
  controllers : pics;
  idtr : Z;                        (* the operand of the last LIDT *)
}.

Section idt.
(** The stubs, and the address of [idt]. *)
Context (intr_stubs : Z → Z) (idt_addr : Z).

Definition intr_init (s : intr) : res intr :=
  let p := pic_init (controllers s) in
  t ← for_up 256 0 (λ i t, g ← make_intr_gate (intr_stubs i) 0; Ok (<[Z.to_nat i := g]> t)) (idt s);
  let idtr_operand := make_idtr_operand (256 * 8 - 1) idt_addr in
  let names := repeat "unknown"%string 256 in
  let names := foldl (λ l '(i, n), <[i := n]> l) names
    [(0%nat, "#DE Divide Error"); (1%nat, "#DB Debug Exception"); (2%nat, "NMI Interrupt"); (3%nat, "#BP Breakpoint Exception");
     (4%nat, "#OF Overflow Exception"); (5%nat, "#BR BOUND Range Exceeded Exception"); (6%nat, "#UD Invalid Opcode Exception");
     (7%nat, "#NM Device Not Available Exception"); (8%nat, "#DF Double Fault Exception"); (9%nat, "Coprocessor Segment Overrun");
     (10%nat, "#TS Invalid TSS Exception"); (11%nat, "#NP Segment Not Present"); (12%nat, "#SS Stack Fault Exception");
     (13%nat, "#GP General Protection Exception"); (14%nat, "#PF Page-Fault Exception"); (16%nat, "#MF x87 FPU Floating-Point Error");
     (17%nat, "#AC Alignment Check Exception"); (18%nat, "#MC Machine-Check Exception"); (19%nat, "#XF SIMD Floating-Point Exception")]%string in
  Ok (Intr t (intr_handlers s) names (unexpected_cnt s) p idtr_operand).

Definition register_handler (vec_no dpl : Z) (level_on : bool) (h : handler) (name : string) (s : intr) : res intr :=
  o ← deref (intr_handlers s !! Z.to_nat vec_no);
  _ ← ASSERT (bool_decide (o = None));
  g ← (if level_on then make_trap_gate (intr_stubs vec_no) dpl else make_intr_gate (intr_stubs vec_no) dpl);
  Ok (Intr (<[Z.to_nat vec_no := g]> (idt s)) (<[Z.to_nat vec_no := Some h]> (intr_handlers s))
        (<[Z.to_nat vec_no := name]> (intr_names s)) (unexpected_cnt s) (controllers s) (idtr s)).

Definition intr_register_ext (vec_no : Z) (h : handler) (name : string) (s : intr) : res intr :=
  _ ← ASSERT ((0x20 <=? vec_no) && (vec_no <=? 0x2f));
  register_handler vec_no 0 false h name s.

Definition intr_register_int (vec_no dpl : Z) (level_on : bool) (h : handler) (name : string) (s : intr) : res intr :=
  _ ← ASSERT ((vec_no <? 0x20) || (0x2f <? vec_no));
  register_handler vec_no dpl level_on h name s.

Definition exception_init (s : intr) : res intr :=
  s ← intr_register_int 3 3 true kill "#BP Breakpoint Exception" s;
  s ← intr_register_int 4 3 true kill "#OF Overflow Exception" s;
  s ← intr_register_int 5 3 true kill "#BR BOUND Range Exceeded Exception" s;
  s ← intr_register_int 0 0 true kill "#DE Divide Error" s;
  s ← intr_register_int 1 0 true kill "#DB Debug Exception" s;
  s ← intr_register_int 6 0 true kill "#UD Invalid Opcode Exception" s;
  s ← intr_register_int 7 0 true kill "#NM Device Not Available Exception" s;
  s ← intr_register_int 11 0 true kill "#NP Segment Not Present" s;
  s ← intr_register_int 12 0 true kill "#SS Stack Fault Exception" s;
  s ← intr_register_int 13 0 true kill "#GP General Protection Exception" s;
  s ← intr_register_int 16 0 true kill "#MF x87 FPU Floating-Point Error" s;
  s ← intr_register_int 19 0 true kill "#XF SIMD Floating-Point Exception" s;
  intr_register_int 14 0 false page_fault "#PF Page-Fault Exception" s.

(** The registrations that [main] makes, in its order: [intr_init],
    [timer_init], [kbd_init], [exception_init], [syscall_init],
    [serial_init_queue] and [ide_init]. *)
Definition boot (s : intr) : res intr :=
  s ← intr_init s;
  s ← intr_register_ext 0x20 timer_interrupt "8254 Timer" s;
  s ← intr_register_ext 0x21 keyboard_interrupt "8042 Keyboard" s;
  s ← exception_init s;
  s ← intr_register_int 0x30 3 true syscall_handler "syscall" s;
  s ← intr_register_ext (0x20 + 4) serial_interrupt "serial" s;
  s ← intr_register_ext (14 + 0x20) ide_interrupt "ide0" s;
  intr_register_ext (15 + 0x20) ide_interrupt "ide1" s.
End idt.

(** An interrupt without a handler is counted, and the first, second, fourth,
    eighth, ... of them is printed. *)
Definition unexpected_interrupt (vec_no : Z) (s : intr) : res (intr * bool) :=
  c ← deref (unexpected_cnt s !! Z.to_nat vec_no);
  let n := u32 (c + 1) in
  Ok (Intr (idt s) (intr_handlers s) (intr_names s) (<[Z.to_nat vec_no := n]> (unexpected_cnt s)) (controllers s) (idtr s),
      Z.land n (u32 (n - 1)) =? 0).

(** ** How the processor reads them *)

Definition bits (x lo n : Z) : Z := x / 2 ^ lo mod 2 ^ n.

Record segment := Segment { sg_base : Z; sg_limit : Z; sg_code_data : Z; sg_type : Z; sg_dpl : Z; sg_present : Z; sg_32 : Z; sg_gran : Z }.
Definition read_segment (d : Z) : segment :=
  Segment (bits d 16 24 + 2 ^ 24 * bits d 56 8) (bits d 0 16 + 2 ^ 16 * bits d 48 4) (bits d 44 1) (bits d 40 4) (bits d 45 2) (bits d 47 1) (bits d 54 1) (bits d 55 1).

Record gate := Gate { gt_offset : Z; gt_selector : Z; gt_type : Z; gt_system : Z; gt_dpl : Z; gt_present : Z }.
Definition read_gate (d : Z) : gate :=
  Gate (bits d 0 16 + 2 ^ 16 * bits d 48 16) (bits d 16 16) (bits d 40 4) (bits d 44 1) (bits d 45 2) (bits d 47 1).

(** The number that [make_gate] makes. *)
Lemma make_gate_ok f dpl type : 0 < f < 2 ^ 32 → 0 ≤ dpl ≤ 3 → 0 ≤ type ≤ 15 →
  make_gate f dpl type = Ok (f mod 2 ^ 16 + 2 ^ 16 * 8 + 2 ^ 40 * type + 2 ^ 45 * dpl + 2 ^ 47 + 2 ^ 48 * (f / 2 ^ 16)).
Proof.
  intros Hf Hd Ht. unfold make_gate. rewrite (proj2 (Z.eqb_neq f 0)) by lia.
  replace ((0 <=? dpl) && (dpl <=? 3)) with true by lia. replace ((0 <=? type) && (type <=? 15)) with true by lia.
  cbn [negb ASSERT mbind res_bind]. f_equal.
  change 0xffff with (Z.shiftl (Z.ones 16) 0). change 0xffff0000 with (Z.shiftl (Z.ones 16) 16). rewrite !land_field by lia.
  rewrite !Z.shiftl_mul_pow2 by lia.
  rewrite (lor_low 16 (f / 2 ^ 0 mod 2 ^ 16 * 2 ^ 0)) by (Z.div_mod_to_equations; lia).
  rewrite (lor_high 16 (1 * 2 ^ 15)) by (Z.div_mod_to_equations; lia). rewrite (lor_high 15 (dpl * 2 ^ 13)) by (Z.div_mod_to_equations; lia).
  change (0 * 2 ^ 12) with 0. rewrite Z.lor_0_r. rewrite (lor_high 13 (type * 2 ^ 8)) by (Z.div_mod_to_equations; lia).
  rewrite (lor_low 32) by (Z.div_mod_to_equations; lia). Z.div_mod_to_equations. lia.
Qed.

(** The processor finds in a gate what went into it. *)
Lemma read_gate_ok f dpl type : 0 < f < 2 ^ 32 → 0 ≤ dpl ≤ 3 → 0 ≤ type ≤ 15 →
  ∃ g, make_gate f dpl type = Ok g ∧ read_gate g = Gate f SEL_KCSEG type 0 dpl 1.
Proof.
  intros Hf Hd Ht. eexists. split; [by apply make_gate_ok|]. unfold read_gate, bits. f_equal; Z.div_mod_to_equations; lia.
Qed.

Lemma make_seg_desc_ok base limit class type dpl gran : is_u32 base → 0 ≤ limit ≤ 0xfffff → 0 ≤ class ≤ 1 → 0 ≤ type ≤ 15 → 0 ≤ dpl ≤ 3 → 0 ≤ gran ≤ 1 →
  make_seg_desc base limit class type dpl gran =
  Ok (limit mod 2 ^ 16 + 2 ^ 16 * (base mod 2 ^ 24) + 2 ^ 40 * type + 2 ^ 44 * class + 2 ^ 45 * dpl + 2 ^ 47 + 2 ^ 48 * (limit / 2 ^ 16) +
      2 ^ 54 + 2 ^ 55 * gran + 2 ^ 56 * (base / 2 ^ 24)).
Proof.
  intros Hb Hl Hc Ht Hd Hg. unfold make_seg_desc. unfold is_u32 in Hb.
  replace (limit <=? 1048575) with true by lia. replace ((class =? 0) || (class =? 1)) with true by lia.
  replace ((0 <=? dpl) && (dpl <=? 3)) with true by lia. replace ((0 <=? type) && (type <=? 15)) with true by lia.
  replace ((gran =? 0) || (gran =? 1)) with true by lia. cbn [ASSERT mbind res_bind]. f_equal.
  change 0xffff with (Z.shiftl (Z.ones 16) 0). change 0xff with (Z.shiftl (Z.ones 8) 0). change 0xf0000 with (Z.shiftl (Z.ones 4) 16).
  change 0xff000000 with (Z.shiftl (Z.ones 8) 24). rewrite !land_field, !Z.shiftl_mul_pow2, Z.shiftr_div_pow2 by lia. unfold u32, wrap.
  rewrite (lor_low 16 (limit / 2 ^ 0 mod 2 ^ 16 * 2 ^ 0)) by (Z.div_mod_to_equations; lia).
  rewrite (lor_low 8 _ (type * 2 ^ 8)) by (Z.div_mod_to_equations; lia). rewrite (lor_low 12 _ (class * 2 ^ 12)) by (Z.div_mod_to_equations; lia).
  rewrite (lor_low 13 _ (dpl * 2 ^ 13)) by (Z.div_mod_to_equations; lia). rewrite (lor_low 15 _ (1 * 2 ^ 15)) by (Z.div_mod_to_equations; lia).
  rewrite (lor_low 16 _ (limit / 2 ^ 16 mod 2 ^ 4 * 2 ^ 16)) by (Z.div_mod_to_equations; lia).
  rewrite (lor_low 20 _ (1 * 2 ^ 22)) by (Z.div_mod_to_equations; lia). rewrite (lor_low 23 _ (gran * 2 ^ 23)) by (Z.div_mod_to_equations; lia).
  rewrite (lor_low 24 _ (base / 2 ^ 24 mod 2 ^ 8 * 2 ^ 24)) by (Z.div_mod_to_equations; lia).
  rewrite (lor_low 32) by (Z.div_mod_to_equations; lia). Z.div_mod_to_equations. lia.
Qed.

(** ** Segments *)

Lemma read_segment_ok base limit class type dpl gran :
  is_u32 base → 0 ≤ limit ≤ 0xfffff → 0 ≤ class ≤ 1 → 0 ≤ type ≤ 15 → 0 ≤ dpl ≤ 3 → 0 ≤ gran ≤ 1 →
  ∃ d, make_seg_desc base limit class type dpl gran = Ok d ∧ read_segment d = Segment base limit class type dpl 1 1 gran.
Proof.
  intros Hb Hl Hc Ht Hd Hg. eexists. split; [by apply make_seg_desc_ok|]. unfold read_segment, bits, is_u32 in *. f_equal; Z.div_mod_to_equations; lia.
Qed.

(** The processor finds in the table of [gdt_init] flat 4 GB segments for code
    and data, of the kernel and of user programs, and the task state segment
    at its address; the operand of LGDT is the table's limit and address. *)
Theorem gdt_correct gdt tss : is_u32 gdt → 0 < tss < 2 ^ 32 → ∃ null kc kd uc ud t op, gdt_init gdt tss = Ok ([null; kc; kd; uc; ud; t], op) ∧
  sg_present (read_segment null) = 0 ∧
  read_segment kc = Segment 0 0xfffff 1 10 0 1 1 1 ∧ read_segment kd = Segment 0 0xfffff 1 2 0 1 1 1 ∧
  read_segment uc = Segment 0 0xfffff 1 10 3 1 1 1 ∧ read_segment ud = Segment 0 0xfffff 1 2 3 1 1 1 ∧
  read_segment t = Segment tss 0x67 0 9 0 1 1 0 ∧ bits op 0 16 = 47 ∧ bits op 16 32 = gdt.
Proof.
  intros Hg Ht. unfold gdt_init, make_code_desc, make_data_desc, make_tss_desc.
  destruct (read_segment_ok 0 0xfffff 1 10 0 1) as (kc & -> & ?); [by split|lia..|].
  destruct (read_segment_ok 0 0xfffff 1 2 0 1) as (kd & -> & ?); [by split|lia..|].
  destruct (read_segment_ok 0 0xfffff 1 10 3 1) as (uc & -> & ?); [by split|lia..|].
  destruct (read_segment_ok 0 0xfffff 1 2 3 1) as (ud & -> & ?); [by split|lia..|].
  destruct (read_segment_ok tss 0x67 0 9 0 0) as (t & -> & ?); [unfold is_u32; lia|lia..|].
  rewrite !ok_bind, (proj2 (Z.eqb_neq tss 0)) by lia. cbn [negb ASSERT]. rewrite !ok_bind. unfold is_u32 in Hg.
  exists 0, kc, kd, uc, ud, t, (make_gdtr_operand (6 * 8 - 1) gdt). split; [reflexivity|]. split; [reflexivity|]. split_and!; try done.
  - unfold make_gdtr_operand, bits. rewrite Z.shiftl_mul_pow2, (lor_low 16) by (Z.div_mod_to_equations; lia). Z.div_mod_to_equations; lia.
  - unfold make_gdtr_operand, bits. rewrite Z.shiftl_mul_pow2, (lor_low 16) by (Z.div_mod_to_equations; lia). Z.div_mod_to_equations; lia.
Qed.

(** ** The interrupt controllers *)

(** [pic_init] leaves controllers that deliver line [n] as interrupt 0x20 +
    [n], whatever they were programmed to before; once the interrupt is
    acknowledged they are as they were, ready for the next one. *)
Theorem pic_correct p n : 0 ≤ n < 16 → isr (pic0 p) = 0 → isr (pic1 p) = 0 → icw (pic0 p) = 0 → icw (pic1 p) = 0 →
  ∃ q, raise n (pic_init p) = Some (0x20 + n, q) ∧ pic_end_of_interrupt (0x20 + n) q = Ok (pic_init p).
Proof.
  intros Hn H0 H1 H2 H3. destruct p as [[m0 v0 c0 i0] [m1 v1 c1 i1]]. cbn in *. subst.
  change (pic_init _) with (Pics (Pic 0 0x20 0 0) (Pic 0 0x28 0 0)).
  assert (forallb (λ n, match raise n (Pics (Pic 0 0x20 0 0) (Pic 0 0x28 0 0)) with
    | Some (v, q) => (v =? 0x20 + n) && match pic_end_of_interrupt v q with
        | Ok (Pics (Pic a b c d) (Pic e f g h)) => (a =? 0) && (b =? 0x20) && (c =? 0) && (d =? 0) && (e =? 0) && (f =? 0x28) && (g =? 0) && (h =? 0)
        | _ => false end
    | None => false end) (seqZ 0 16) = true) as H by (vm_compute; reflexivity).
  rewrite forallb_forall in H. assert (n ∈ seqZ 0 16) as Hin by (apply elem_of_seqZ; lia).
  apply list_elem_of_In in Hin. specialize (H n Hin).
  destruct (raise n _) as [[v q]|]; [|done]. apply andb_true_iff in H as [->%Z.eqb_eq H]. exists q. split; [done|].
  destruct (pic_end_of_interrupt _ q) as [[[a b c d] [e f g h]]|]; [|done]. rewrite !andb_true_iff, !Z.eqb_eq in H.
  destruct H as [[[[[[[-> ->] ->] ->] ->] ->] ->] ->]. done.
Qed.

(** ** The interrupt descriptor table *)

Definition gate_num (f dpl type : Z) : Z := f mod 2 ^ 16 + 2 ^ 16 * 8 + 2 ^ 40 * type + 2 ^ 45 * dpl + 2 ^ 47 + 2 ^ 48 * (f / 2 ^ 16).
Definition table (f : Z → Z) : list Z := map f (seqZ 0 256).

Lemma table_insert f i g : 0 ≤ i < 256 → <[Z.to_nat i := g]> (table f) = table (λ v, if v =? i then g else f v).
Proof.
  intros Hi. apply list_eq. intros k. unfold table. rewrite !list_lookup_fmap.
  destruct (decide (k < 256)%nat) as [Hk|Hk].
  2:{ rewrite !lookup_ge_None_2; [done|rewrite length_seqZ; lia|rewrite length_insert, length_map, length_seqZ; lia]. }
  rewrite (lookup_seqZ_lt 0 256) by lia. cbn. destruct (decide (k = Z.to_nat i)) as [->|Hne].
  - rewrite list_lookup_insert_eq by (rewrite length_map, length_seqZ; lia). by rewrite (proj2 (Z.eqb_eq _ _)) by lia.
  - rewrite list_lookup_insert_ne, list_lookup_fmap, lookup_seqZ_lt by lia. cbn. by rewrite (proj2 (Z.eqb_neq _ _)) by lia.
Qed.

Section boot.
Context (intr_stubs : Z → Z) (idt_addr : Z) (Hstubs : ∀ i, 0 ≤ i < 256 → 0 < intr_stubs i < 2 ^ 32).

Definition dpl_of (v : Z) : Z := if bool_decide (v ∈ [3; 4; 5; 0x30]) then 3 else 0.
Definition type_of (v : Z) : Z := if bool_decide (v ∈ [3; 4; 5; 0; 1; 6; 7; 11; 12; 13; 16; 19; 0x30]) then 15 else 14.

Lemma gates_ok n : ∀ i f, 0 ≤ i → i + Z.of_nat n ≤ 256 →
  for_up n i (λ i t, g ← make_intr_gate (intr_stubs i) 0; Ok (<[Z.to_nat i := g]> t)) (table f) =
  Ok (table (λ v, if (i <=? v) && (v <? i + Z.of_nat n) then gate_num (intr_stubs v) 0 14 else f v)).
Proof.
  induction n as [|n IH]; intros i f Hi Hn.
  { cbn [for_up]. f_equal. unfold table. apply map_ext. intros v. destruct (Z.leb_spec i v), (Z.ltb_spec v (i + Z.of_nat 0)); cbn; try done; lia. }
  assert (make_intr_gate (intr_stubs i) 0 = Ok (gate_num (intr_stubs i) 0 14)) as E by (apply make_gate_ok; try apply Hstubs; lia).
  rewrite for_up_S, E, ok_bind, table_insert, ok_bind, IH by lia. f_equal. unfold table. apply map_ext. intros v.
  destruct (Z.eqb_spec v i) as [Hv|Hne], (Z.leb_spec (i + 1) v), (Z.ltb_spec v (i + 1 + Z.of_nat n)), (Z.leb_spec i v), (Z.ltb_spec v (i + Z.of_nat (S n)));
    cbn; try lia; subst; done.
Qed.

(** A registration that succeeds: a gate and a handler more. *)
Lemma register_ok v dpl on h name s f : 0 ≤ v < 256 → 0 ≤ dpl ≤ 3 → intr_handlers s !! Z.to_nat v = Some None → idt s = table f →
  register_handler intr_stubs v dpl on h name s =
  Ok (Intr (table (λ w, if w =? v then gate_num (intr_stubs v) dpl (if on then 15 else 14) else f w)) (<[Z.to_nat v := Some h]> (intr_handlers s))
        (<[Z.to_nat v := name]> (intr_names s)) (unexpected_cnt s) (controllers s) (idtr s)).
Proof.
  intros Hv Hd Hh Hi. unfold register_handler. rewrite Hh. cbn [deref]. rewrite ok_bind. rewrite bool_decide_eq_true_2 by done. cbn [ASSERT].
  rewrite ok_bind. pose proof (Hstubs v Hv). unfold make_trap_gate, make_intr_gate.
  rewrite !make_gate_ok by lia. rewrite <- (table_insert f v) by done. rewrite Hi. by destruct on.
Qed.

Lemma boot_ok s : idt s = repeat 0 256 → intr_handlers s = repeat None 256 →
  ∃ s', boot intr_stubs idt_addr s = Ok s' ∧ idtr s' = make_idtr_operand 2047 idt_addr ∧ idt s' = table (λ v, gate_num (intr_stubs v) (dpl_of v) (type_of v)) ∧
    intr_handlers s' !! 0x30%nat = Some (Some syscall_handler) ∧ intr_handlers s' !! 14%nat = Some (Some page_fault).
Proof.
  intros Hi Hh. unfold boot, intr_init. replace (idt s) with (table (λ _, 0)) by (by rewrite Hi). rewrite gates_ok by lia. rewrite ok_bind.
  set (names := foldl _ _ _). clearbody names. rewrite Hh. unfold exception_init, intr_register_ext, intr_register_int.
  change (0x20 + 4) with 36. change (14 + 0x20) with 46. change (15 + 0x20) with 47.
  cbn [Z.leb Z.ltb Z.compare Pos.compare Pos.compare_cont andb orb ASSERT].
  do 19 (rewrite ?ok_bind; erewrite register_ok by (lia || reflexivity); cbn [intr_handlers intr_names unexpected_cnt controllers idtr]).
  rewrite ?ok_bind. eexists. split; [reflexivity|]. cbn [idt intr_handlers idtr]. split; [reflexivity|]. split; [|split; reflexivity].
  unfold table. apply map_ext_in. intros v Hv%list_elem_of_In%elem_of_seqZ.
  repeat (match goal with |- (if v =? ?k then _ else _) = _ => destruct (Z.eqb_spec v k) as [->|?]; [reflexivity|] end).
  rewrite (proj2 (Z.leb_le 0 v)), (proj2 (Z.ltb_lt v _)) by lia. cbn [andb]. unfold dpl_of, type_of.
  rewrite !bool_decide_eq_false_2; [done|..]; rewrite !elem_of_cons, elem_of_nil; tauto.
Qed.
End boot.

(** C15. The interrupt descriptor table that the kernel boots with: the processor
    finds it at its address and with its size; every gate is
    present and enters the stub of its interrupt through the kernel's code
    segment; a user program can call exactly the interrupts 3, 4, 5 and 0x30,
    the system call; the processor turns interrupts off on entry to every
    handler of a device and to the one for page faults, where the address of
    the fault must be read first, but not to the one for system calls. *)
Theorem idt_correct intr_stubs idt_addr s : (∀ i, 0 ≤ i < 256 → 0 < intr_stubs i < 2 ^ 32) → is_u32 idt_addr →
  idt s = repeat 0 256 → intr_handlers s = repeat None 256 →
  ∃ s', boot intr_stubs idt_addr s = Ok s' ∧ bits (idtr s') 0 16 = 8 * 256 - 1 ∧ bits (idtr s') 16 32 = idt_addr ∧ ∀ v, 0 ≤ v < 256 → ∃ g, idt s' !! Z.to_nat v = Some g ∧
    let d := read_gate g in
    gt_offset d = intr_stubs v ∧ gt_selector d = SEL_KCSEG ∧ gt_present d = 1 ∧ gt_system d = 0 ∧
    (gt_dpl d = 3 ↔ v ∈ [3; 4; 5; 0x30]) ∧ (0x20 ≤ v < 0x30 ∨ v = 14 → gt_type d = 14) ∧ (v = 0x30 → gt_type d = 15).
Proof.
  intros Hst Ha Hi Hh. destruct (boot_ok intr_stubs idt_addr Hst s Hi Hh) as (s' & E & El & Ei & _). exists s'. split; [done|].
  rewrite El. unfold make_idtr_operand, bits. rewrite Z.shiftl_mul_pow2, (lor_low 16) by (c_unfold; Z.div_mod_to_equations; lia).
  split; [Z.div_mod_to_equations; lia|]. split; [c_unfold; Z.div_mod_to_equations; lia|]. intros v Hv.
  exists (gate_num (intr_stubs v) (dpl_of v) (type_of v)). split.
  { rewrite Ei. unfold table. rewrite list_lookup_fmap, lookup_seqZ_lt by lia. cbn. do 2 f_equal; f_equal; lia. }
  assert (0 ≤ dpl_of v ≤ 3) as Hd by (unfold dpl_of; case_bool_decide; lia).
  assert (0 ≤ type_of v ≤ 15) as Ht by (unfold type_of; case_bool_decide; lia).
  destruct (read_gate_ok (intr_stubs v) (dpl_of v) (type_of v)) as (g & Eg & R); [by apply Hst|done|done|].
  rewrite make_gate_ok in Eg by (by apply Hst || done). injection Eg as <-. fold (gate_num (intr_stubs v) (dpl_of v) (type_of v)) in R.
  cbv zeta. rewrite R. cbn [gt_offset gt_selector gt_present gt_system gt_dpl gt_type]. split_and!; try done.
  - unfold dpl_of. case_bool_decide; split; intros; done || lia.
  - intros H. unfold type_of. rewrite bool_decide_eq_false_2; [done|]. rewrite !elem_of_cons, elem_of_nil. lia.
  - intros ->. reflexivity.
Qed.

(** *** Witnesses *)

Lemma gdt_witness : ∃ t op, gdt_init 0xc0100000 0xc0101000 = Ok (t, op) ∧ read_segment <$> t !! 5%nat = Some (Segment 0xc0101000 0x67 0 9 0 1 1 0).
Proof.
  destruct (gdt_correct 0xc0100000 0xc0101000) as (null & kc & kd & uc & ud & t & op & E & _ & _ & _ & _ & _ & R & _); [by split|lia|].
  exists [null; kc; kd; uc; ud; t], op. split; [exact E|]. cbn. by rewrite R.
Defined.

Lemma pic_witness : ∃ q, raise 14 (pic_init (Pics (Pic 255 8 0 0) (Pic 255 0x70 0 0))) = Some (0x2e, q).
Proof.
  destruct (pic_correct (Pics (Pic 255 8 0 0) (Pic 255 0x70 0 0)) 14) as (q & E & _); [lia|reflexivity..|]. exists q. exact E.
Defined.

Definition demo_intr : intr := Intr (repeat 0 256) (repeat None 256) (repeat EmptyString 256) (repeat 0 256) (Pics (Pic 0 8 0 0) (Pic 0 0x70 0 0)) 0.
Lemma idt_witness : ∃ s g, boot (λ i, 0xc0020000 + 16 * i) 0xc0105000 demo_intr = Ok s ∧ idt s !! 0x30%nat = Some g ∧ gt_dpl (read_gate g) = 3.
Proof.
  destruct (idt_correct (λ i, 0xc0020000 + 16 * i) 0xc0105000 demo_intr) as (s & E & _ & _ & H); [intros i Hi; lia|by split|reflexivity|reflexivity|].
  destruct (H 0x30) as (g & Hg & R); [lia|]. exists s, g. split; [exact E|]. split; [exact Hg|]. apply R. repeat (left || right).
Defined.
