(* ===== verification/Clock.v ===== *)
(** * devices/pit.c, speaker.c, rtc.c and the delays of timer.c

    The interval timer is a state machine that takes a control byte and then
    the two bytes of a counter.  How long a delay loop takes is a property of
    the machine: [L] is the number of turns that fit into a timer tick. *)

From S2P Require Import Prelude.

Abbreviation PIT_HZ := 1193180.
Abbreviation TIMER_FREQ := 100.

(** ** The interval timer *)

(** A channel: its mode, the counter it is loaded with, and the low byte of a
    counter that is half written. *)
Record channel := Channel { mode : Z; reload : Z; low : option Z }.
Record pit := Pit { channels : list channel; gate : Z }.   (* [gate]: port 0x61 *)

Definition pit_outb (port v : Z) (p : pit) : pit :=
  if port =? 0x43 then
    Pit (alter (λ c, Channel (v / 2 mod 8) (reload c) None) (Z.to_nat (v / 64)) (channels p)) (gate p)
  else if port =? 0x61 then Pit (channels p) v
  else
    Pit (alter (λ c, match low c with
                     | None => Channel (mode c) (reload c) (Some v)
                     | Some l => Channel (mode c) (let n := l + 256 * v in if n =? 0 then 65536 else n) None
                     end) (Z.to_nat (port - 0x40)) (channels p)) (gate p).

Definition pit_count (frequency : Z) : Z :=
  if frequency <? 19 then 0
  else if PIT_HZ <? frequency then 2
  else wrap 16 (Z.quot (PIT_HZ + Z.quot frequency 2) frequency).

Definition pit_configure_channel (channel mode frequency : Z) (p : pit) : res pit :=
  _ ← ASSERT ((channel =? 0) || (channel =? 2));
  _ ← ASSERT ((mode =? 2) || (mode =? 3));
  let count := pit_count frequency in
  let p := pit_outb 0x43 (Z.lor (Z.lor (Z.shiftl channel 6) 0x30) (Z.shiftl mode 1)) p in
  let p := pit_outb (0x40 + channel) (u8 count) p in
  Ok (pit_outb (0x40 + channel) (u8 (Z.shiftr count 8)) p).

(** ** The speaker *)

Definition speaker_off (p : pit) : pit := pit_outb 0x61 (Z.land (gate p) (Z.lnot 3)) p.

Definition speaker_on (frequency : Z) (p : pit) : res pit :=
  if (20 <=? frequency) && (frequency <=? 20000) then
    p ← pit_configure_channel 2 3 frequency p;
    Ok (pit_outb 0x61 (Z.lor (gate p) 3) p)
  else Ok (speaker_off p).

(** ** The real-time clock

    [cmos t i] is what register [i] holds at the [t]-th read. *)

Definition bcd_to_bin (x : Z) : Z := Z.land x 15 + Z.shiftr x 4 * 10.

Definition days_per_month : list Z := [31; 28; 31; 30; 31; 30; 31; 31; 30; 31; 30; 31].

(** Seconds from the components, in the arithmetic of [int] and [time_t]. *)
Definition to_seconds (sec min hour mday mon year : Z) : res Z :=
  let year := (if year <? 70 then year + 100 else year) - 70 in
  let time := u32 (s32 ((year * 365 + Z.quot (year - 1) 4) * 24 * 60 * 60)) in
  time ← for_up (Z.to_nat mon) 1 (λ i time,
    d ← deref (days_per_month !! Z.to_nat (i - 1));
    Ok (u32 (time + d * 24 * 60 * 60))) time;
  let time := if (2 <? mon) && (Z.rem year 4 =? 0) then u32 (time + 24 * 60 * 60) else time in
  let time := u32 (time + (mday - 1) * 24 * 60 * 60) in
  let time := u32 (time + hour * 60 * 60) in
  let time := u32 (time + min * 60) in
  Ok (u32 (time + sec)).

Definition rtc_get_time (fuel : nat) (cmos : nat → Z → Z) : res Z :=
  '(sec, min, hour, mday, mon, year) ← loop fuel (λ t,
    let sec := bcd_to_bin (cmos t 0) in
    let min := bcd_to_bin (cmos (t + 1)%nat 2) in
    let hour := bcd_to_bin (cmos (t + 2)%nat 4) in
    let mday := bcd_to_bin (cmos (t + 3)%nat 7) in
    let mon := bcd_to_bin (cmos (t + 4)%nat 8) in
    let year := bcd_to_bin (cmos (t + 5)%nat 9) in
    if sec =? bcd_to_bin (cmos (t + 6)%nat 0) then Ok (inr (sec, min, hour, mday, mon, year)) else Ok (inl (t + 7)%nat)) 0%nat;
  to_seconds sec min hour mday mon year.

(** ** Delays *)

Section delays.
Context (L : Z).

(** A loop of [loops] turns takes longer than a tick. *)
Definition too_many_loops (loops : Z) : bool := L <? loops.

Definition timer_calibrate (intr_on : bool) : res Z :=
  _ ← ASSERT intr_on;
  high_bit ← loop 32 (λ loops_per_tick,
    if too_many_loops (u32 (Z.shiftl loops_per_tick 1)) then Ok (inr loops_per_tick)
    else
      let loops_per_tick := u32 (Z.shiftl loops_per_tick 1) in
      _ ← ASSERT (negb (loops_per_tick =? 0));
      Ok (inl loops_per_tick)) (Z.shiftl 1 10);
  loop 33 (λ '(test_bit, loops_per_tick),
    if test_bit =? Z.shiftr high_bit 10 then Ok (inr loops_per_tick)
    else Ok (inl (Z.shiftr test_bit 1, if too_many_loops (Z.lor high_bit test_bit) then loops_per_tick else Z.lor loops_per_tick test_bit)))
    (Z.shiftr high_bit 1, high_bit).
End delays.

Inductive waiting := Sleep (ticks : Z) | Busy (loops : Z).

Definition real_time_delay (loops_per_tick num denom : Z) : res waiting :=
  _ ← ASSERT (Z.rem denom 1000 =? 0);
  Ok (Busy (Z.quot (s64 (Z.quot (s64 (loops_per_tick * num)) 1000 * TIMER_FREQ)) (Z.quot denom 1000))).

Definition real_time_sleep (intr_on : bool) (loops_per_tick num denom : Z) : res waiting :=
  let ticks := Z.quot (s64 (num * TIMER_FREQ)) denom in
  _ ← ASSERT intr_on;
  if 0 <? ticks then Ok (Sleep ticks) else real_time_delay loops_per_tick num denom.

Definition timer_msleep intr_on lpt ms := real_time_sleep intr_on lpt ms 1000.
Definition timer_usleep intr_on lpt us := real_time_sleep intr_on lpt us (1000 * 1000).
Definition timer_nsleep intr_on lpt ns := real_time_sleep intr_on lpt ns (1000 * 1000 * 1000).
Definition timer_mdelay lpt ms := real_time_delay lpt ms 1000.
Definition timer_udelay lpt us := real_time_delay lpt us (1000 * 1000).
Definition timer_ndelay lpt ns := real_time_delay lpt ns (1000 * 1000 * 1000).

(** ** Programming the timer *)

(** The counter that gives the frequency best. *)
Definition best_count (f : Z) : Z := if f <? 19 then 65536 else if PIT_HZ <? f then 2 else (PIT_HZ + f / 2) / f.

Lemma best_count_nearest f : 19 ≤ f ≤ PIT_HZ → 1 ≤ best_count f < 65536 ∧ 2 * Z.abs (best_count f * f - PIT_HZ) ≤ f.
Proof.
  intros Hf. unfold best_count. rewrite (proj2 (Z.ltb_ge f 19)), (proj2 (Z.ltb_ge _ f)) by lia.
  pose proof (Z.div_mod (PIT_HZ + f / 2) f ltac:(lia)) as E. pose proof (Z.mod_pos_bound (PIT_HZ + f / 2) f ltac:(lia)).
  pose proof (Z.div_mod f 2 ltac:(lia)). pose proof (Z.mod_pos_bound f 2 ltac:(lia)). set (q := (PIT_HZ + f / 2) / f) in *. split; nia.
Qed.

(** [pit_configure_channel] programs the channel with the mode and with the
    counter that is nearest to the frequency, at the limits when there is none,
    and leaves the other channels alone. *)
Theorem pit_correct n m f p : n = 0 ∨ n = 2 → m = 2 ∨ m = 3 → length (channels p) = 3%nat →
  ∃ p', pit_configure_channel n m f p = Ok p' ∧ gate p' = gate p ∧
    channels p' = <[Z.to_nat n := Channel m (best_count f) None]> (channels p) ∧
    (19 ≤ f ≤ PIT_HZ → 2 * Z.abs (best_count f * f - PIT_HZ) ≤ f).
Proof.
  intros Hn Hm Hl. unfold pit_configure_channel.
  replace ((n =? 0) || (n =? 2)) with true by lia. replace ((m =? 2) || (m =? 3)) with true by lia. cbn [ASSERT]. rewrite !ok_bind.
  eexists. split; [reflexivity|]. set (c := pit_count f).
  assert ((let k := u8 c + 256 * u8 (Z.shiftr c 8) in if k =? 0 then 65536 else k) = best_count f) as Ec.
  { rewrite Z.shiftr_div_pow2 by lia. subst c. unfold pit_count, best_count. destruct (Z.ltb_spec f 19); [done|]. destruct (Z.ltb_spec PIT_HZ f); [done|].
    destruct (best_count_nearest f) as [Hb _]; [lia|]. unfold best_count in Hb. rewrite (proj2 (Z.ltb_ge f 19)), (proj2 (Z.ltb_ge _ f)) in Hb by lia.
    rewrite (Z.quot_div_nonneg f 2) by lia.
    rewrite (Z.quot_div_nonneg _ f) by (Z.div_mod_to_equations; lia). set (q := (PIT_HZ + f / 2) / f) in *. unfold wrap, u8. rewrite (Z.mod_small q) by lia.
    assert (wrap 8 q + 256 * wrap 8 (q / 2 ^ 8) = q) as -> by c_lia. cbv zeta. by rewrite (proj2 (Z.eqb_neq q 0)) by lia. }
  destruct (channels p) as [|c0 [|c1 [|c2 [|]]]] eqn:E; try discriminate Hl.
  split; [by destruct Hn as [->| ->], Hm as [->| ->]|].
  split; [|intros Hf; by apply best_count_nearest]. rewrite <- Ec.
  destruct Hn as [->| ->], Hm as [->| ->]; unfold pit_outb; cbn; rewrite E; reflexivity.
Qed.

(** ** Calibration *)

Section calibrate.
Context (L k : Z) (Hk : 10 ≤ k ≤ 30) (HL : 2 ^ k ≤ L < 2 ^ (k + 1)).

(** The first loop finds the highest bit of [L]. *)
Lemma high_bit_ok : loop 32 (λ loops_per_tick,
    if too_many_loops L (u32 (Z.shiftl loops_per_tick 1)) then Ok (inr loops_per_tick)
    else
      let loops_per_tick := u32 (Z.shiftl loops_per_tick 1) in
      _ ← ASSERT (negb (loops_per_tick =? 0));
      Ok (inl loops_per_tick)) (Z.shiftl 1 10) = Ok (2 ^ k).
Proof.
  apply (loop_ok (λ m l, ∃ j, l = 2 ^ j ∧ 10 ≤ j ≤ k ∧ m = Z.to_nat (k - j)) (2 ^ k)) with (k := Z.to_nat (k - 10)).
  - intros m l (j & -> & Hj & ->). rewrite Z.shiftl_mul_pow2 by lia. change (2 ^ 1) with 2. rewrite Z.mul_comm, <- Z.pow_succ_r by lia.
    assert (2 ^ Z.succ j ≤ 2 ^ 31) by (apply Z.pow_le_mono_r; lia). assert (0 < 2 ^ Z.succ j) by (apply Z.pow_pos_nonneg; lia).
    rewrite u32_small by (unfold is_u32; lia). unfold too_many_loops. destruct (Z.ltb_spec L (2 ^ Z.succ j)) as [Hlt|Hge].
    + exists (inr (2 ^ j)). split; [done|]. cbn. f_equal. assert (¬ j < k); [|lia]. intros Hjk.
      assert (2 ^ Z.succ j ≤ 2 ^ k) by (apply Z.pow_le_mono_r; lia). lia.
    + rewrite (proj2 (Z.eqb_neq _ 0)) by lia. cbn [negb ASSERT mbind res_bind]. exists (inl (2 ^ Z.succ j)). split; [done|].
      assert (j < k). { assert (¬ k + 1 ≤ Z.succ j); [|lia]. intros Hjk. assert (2 ^ (k + 1) ≤ 2 ^ Z.succ j) by (apply Z.pow_le_mono_r; lia). lia. }
      exists (Z.to_nat (k - Z.succ j)). split; [lia|]. exists (Z.succ j). split; [done|]. lia.
  - exists 10. split; [done|]. lia.
  - lia.
Qed.

Lemma test_bits (P : Z → Z → Prop) :
  P 1 (2 ^ k) →
  (∀ i l, 1 ≤ i < 10 → P i l → P (i + 1) (if too_many_loops L (Z.lor (2 ^ k) (2 ^ (k - i))) then l else Z.lor l (2 ^ (k - i)))) →
  ∃ v, timer_calibrate L true = Ok v ∧ P 10 v.
Proof.
  intros H1 Hs. unfold timer_calibrate. cbn [ASSERT]. rewrite ok_bind.
  pose proof high_bit_ok as Hb. cbv zeta in Hb |- *. rewrite Hb, ok_bind.
  destruct (loop_total (λ m '(tb, l), ∃ i, tb = 2 ^ (k - i) ∧ 1 ≤ i ≤ 10 ∧ m = Z.to_nat (10 - i) ∧ P i l) (P 10)
    (λ '(test_bit, loops_per_tick),
    if test_bit =? Z.shiftr (2 ^ k) 10 then Ok (inr loops_per_tick)
    else Ok (inl (Z.shiftr test_bit 1, if too_many_loops L (Z.lor (2 ^ k) test_bit) then loops_per_tick else Z.lor loops_per_tick test_bit))))
    with (n := 33%nat) (k := 9%nat) (s := (Z.shiftr (2 ^ k) 1, 2 ^ k)) as (v & E & Hv); [..|by exists v].
  - intros m [tb l] (i & -> & Hi & -> & HP). rewrite Z.shiftr_div_pow2 by lia. rewrite <- Z.pow_sub_r by lia.
    destruct (Z.eqb_spec (2 ^ (k - i)) (2 ^ (k - 10))) as [E|E].
    + exists (inr l). split; [done|]. apply Z.pow_inj_r in E; [|lia..]. by replace 10 with i by lia.
    + eexists. split; [reflexivity|]. cbn. assert (i ≠ 10) by (by intros ->). exists (Z.to_nat (10 - (i + 1))). split; [lia|]. exists (i + 1).
      split; [|split; [lia|split; [done|apply Hs; [lia|done]]]]. rewrite Z.shiftr_div_pow2 by lia. rewrite <- Z.pow_sub_r by lia. f_equal. lia.
  - exists 1. split; [rewrite Z.shiftr_div_pow2, <- Z.pow_sub_r by lia; done|]. split; [lia|]. split; [done|done].
  - lia.
Qed.
End calibrate.

(** Calibration ends, and its result is wrong by less than a factor of two. *)
Theorem calibrate_correct L k : 10 ≤ k ≤ 30 → 2 ^ k ≤ L < 2 ^ (k + 1) → ∃ v, timer_calibrate L true = Ok v ∧ 2 ^ k ≤ v < 2 ^ (k + 1).
Proof.
  intros Hk HL. assert (2 ^ (k + 1) = 2 * 2 ^ k) as E by (by rewrite Z.add_1_r, Z.pow_succ_r by lia). assert (0 < 2 ^ k) by (apply Z.pow_pos_nonneg; lia).
  destruct (test_bits L k Hk HL (λ i l, 2 ^ k ≤ l ≤ 2 ^ (k + 1) - 2 ^ (k + 1 - i) ∧ (2 ^ (k + 1 - i) | l))) as (v & Ev & Hv & _).
  - replace (k + 1 - 1) with k by lia. split; [lia|]. by exists 1; lia.
  - intros i l Hi [Hl [q Hq]]. assert (2 ^ (k + 1 - i) = 2 * 2 ^ (k - i)) as Ei.
    { replace (k + 1 - i) with (Z.succ (k - i)) by lia. by rewrite Z.pow_succ_r by lia. }
    assert (0 < 2 ^ (k - i)) by (apply Z.pow_pos_nonneg; lia). replace (k + 1 - (i + 1)) with (k - i) by lia. case_match.
    + split; [lia|]. exists (2 * q). lia.
    + rewrite (lor_high (k + 1 - i)); [|lia..|rewrite Hq; apply Z.mod_mul; lia]. split; [lia|]. exists (2 * q + 1). lia.
  - exists v. split; [done|]. assert (0 < 2 ^ (k + 1 - 10)) by (apply Z.pow_pos_nonneg; lia). lia.
Qed.

(** A machine on which one and a half times a power of two fit into a tick is
    taken for one on which nearly the double does: the lower bits are tried
    one at a time instead of on top of the ones found before. *)
Theorem calibrate_overestimates L k : 10 ≤ k ≤ 30 → 2 ^ k + 2 ^ (k - 1) ≤ L < 2 ^ (k + 1) →
  timer_calibrate L true = Ok (2 ^ (k + 1) - 2 ^ (k - 9)).
Proof.
  intros Hk HL. assert (2 ^ (k + 1) = 2 * 2 ^ k) as E by (by rewrite Z.add_1_r, Z.pow_succ_r by lia).
  assert (∀ i, 1 ≤ i ≤ 10 → 2 ^ (k + 1 - i) = 2 * 2 ^ (k - i) ∧ 0 < 2 ^ (k - i)) as Hp.
  { intros i Hi. split; [|apply Z.pow_pos_nonneg; lia]. replace (k + 1 - i) with (Z.succ (k - i)) by lia. by rewrite Z.pow_succ_r by lia. }
  destruct (test_bits L k Hk ltac:(destruct (Hp 1); lia) (λ i l, l = 2 ^ (k + 1) - 2 ^ (k + 1 - i))) as (v & -> & ->).
  - replace (k + 1 - 1) with k by lia. lia.
  - intros i l Hi ->. destruct (Hp i) as [E1 E2]; [lia|]. unfold too_many_loops.
    assert (2 ^ (k - i) ≤ 2 ^ (k - 1)) by (apply Z.pow_le_mono_r; lia).
    rewrite (lor_high k (2 ^ (k - i)) (2 ^ k)) by first [lia | split; [lia|apply Z.pow_lt_mono_r; lia] | apply Z.mod_same; lia].
    rewrite (proj2 (Z.ltb_ge L _)) by lia.
    assert (2 ^ (k + 1) = 2 ^ (k + 1 - i) * 2 ^ i) as E3 by (rewrite <- Z.pow_add_r by lia; f_equal; lia).
    rewrite (lor_high (k + 1 - i)).
    + replace (k + 1 - (i + 1)) with (k - i) by lia. lia.
    + lia.
    + lia.
    + assert (2 ^ (k + 1 - i) ≤ 2 ^ (k + 1)) by (apply Z.pow_le_mono_r; lia). lia.
    + rewrite E3. replace (2 ^ (k + 1 - i) * 2 ^ i - 2 ^ (k + 1 - i)) with ((2 ^ i - 1) * 2 ^ (k + 1 - i)) by lia. apply Z.mod_mul. lia.
  - do 2 f_equal. f_equal. lia.
Qed.

(** ** The time of day *)

Definition sum_days (n : Z) : Z := foldr Z.add 0 (take (Z.to_nat n) days_per_month).

(** The seconds since 1970 of a date from 1970 to 2069, [y] years after 1970. *)
Definition unix_time (sec min hour mday mon y : Z) : Z :=
  let leap := if (2 <? mon) && ((y + 2) mod 4 =? 0) then 1 else 0 in
  86400 * (365 * y + (y + 1) / 4 + sum_days (mon - 1) + leap + (mday - 1)) + 3600 * hour + 60 * min + sec.

Definition to_bcd (x : Z) : Z := 16 * (x / 10) + x mod 10.

Lemma bcd_ok x : 0 ≤ x < 100 → bcd_to_bin (to_bcd x) = x.
Proof.
  assert (forallb (λ x, bcd_to_bin (to_bcd x) =? x) (seqZ 0 100) = true) as H by (vm_compute; reflexivity). rewrite forallb_forall in H.
  intros Hx. apply Z.eqb_eq, H, list_elem_of_In, elem_of_seqZ. lia.
Qed.

Lemma sum_days_S n : (n < 12)%nat → ∃ d, days_per_month !! n = Some d ∧ 28 ≤ d ≤ 31 ∧ sum_days (Z.of_nat n + 1) = sum_days (Z.of_nat n) + d ∧ 0 ≤ sum_days (Z.of_nat n) ≤ 365.
Proof. intros Hn. do 12 (destruct n as [|n]; [eexists; split; [reflexivity|]; split; [lia|split; [reflexivity|vm_compute; split; congruence]]|]). lia. Qed.

Lemma months_ok n time : (n ≤ 12)%nat → 0 ≤ time < 2 ^ 31 →
  for_up n 1 (λ i time, d ← deref (days_per_month !! Z.to_nat (i - 1)); Ok (u32 (time + d * 24 * 60 * 60))) time = Ok (time + 86400 * sum_days (Z.of_nat n)).
Proof.
  intros Hn Ht. destruct (for_up_total (λ i t, t = time + 86400 * sum_days (i - 1)) (λ i time, d ← deref (days_per_month !! Z.to_nat (i - 1)); Ok (u32 (time + d * 24 * 60 * 60))) n 1 time)
    as (t & -> & ->).
  - intros i t Hi ->. destruct (sum_days_S (Z.to_nat (i - 1))) as (d & E & Hd & Es & Hs); [lia|]. rewrite Z2Nat.id in * by lia. rewrite E. cbn [deref mbind res_bind].
    eexists. split; [reflexivity|]. replace (i - 1 + 1) with (i + 1 - 1) in Es by lia. rewrite Es, u32_small by c_lia. lia.
  - change (sum_days (1 - 1)) with 0. lia.
  - do 2 f_equal. f_equal. f_equal. lia.
Qed.

(** [rtc_get_time] is late for every date until 2036, by 26 to 32 days: it adds
    the days of the current month too, and takes 1970 for a leap year. *)
Theorem rtc_late sec min hour mday mon y : 0 ≤ sec < 60 → 0 ≤ min < 60 → 0 ≤ hour < 24 → 1 ≤ mday ≤ 31 → 1 ≤ mon ≤ 12 → 0 ≤ y ≤ 66 →
  let regs i := to_bcd (if i =? 0 then sec else if i =? 2 then min else if i =? 4 then hour else if i =? 7 then mday else if i =? 8 then mon else (y + 70) mod 100) in
  ∃ t, rtc_get_time 1 (λ _, regs) = Ok t ∧
    unix_time sec min hour mday mon y + 26 * 86400 ≤ t ≤ unix_time sec min hour mday mon y + 32 * 86400.
Proof.
  intros Hs Hm Hh Hd Hmo Hy regs. unfold rtc_get_time. cbn [loop]. unfold regs. cbn [Z.eqb Pos.eqb].
  rewrite !bcd_ok by (try apply Z.mod_pos_bound; lia). rewrite Z.eqb_refl, !ok_bind. unfold to_seconds.
  replace ((if (y + 70) mod 100 <? 70 then (y + 70) mod 100 + 100 else (y + 70) mod 100) - 70) with y.
  2:{ destruct (Z.ltb_spec ((y + 70) mod 100) 70); Z.div_mod_to_equations; lia. }
  cbv zeta. assert (- 1 ≤ Z.quot (y - 1) 4 - (y + 1) / 4 ≤ 0 ∧ 0 ≤ Z.quot (y - 1) 4) as Hq.
  { destruct (Z.eq_dec y 0) as [->|]; [vm_compute; repeat split; congruence|]. rewrite Z.quot_div_nonneg by lia. Z.div_mod_to_equations; lia. }
  set (q := Z.quot (y - 1) 4) in *. assert (0 ≤ q ≤ 16) as Hq16 by (Z.div_mod_to_equations; lia).
  rewrite s32_small, u32_small by (unfold is_s32, is_u32; lia). rewrite months_ok by lia. rewrite ok_bind, Z2Nat.id by lia.
  destruct (sum_days_S (Z.to_nat (mon - 1))) as (d & _ & Hdd & Es & Hsum); [lia|]. rewrite Z2Nat.id in * by lia. replace (mon - 1 + 1) with mon in Es by lia.
  rewrite Es. set (A := (y * 365 + q) * 24 * 60 * 60) in *. assert (0 ≤ A ≤ 2200000000) as HA by (subst A; lia).
  set (time := if (2 <? mon) && (Z.rem y 4 =? 0) then _ else _).
  assert (∃ b, 0 ≤ b ≤ 1 ∧ time = A + 86400 * (sum_days (mon - 1) + d + b)) as (b & Hb & ->).
  { subst time. case_match; [exists 1|exists 0]; (split; [lia|]); rewrite ?u32_small by (unfold is_u32; lia); lia. }
  rewrite (u32_small (A + _ + (mday - 1) * 24 * 60 * 60)), (u32_small (_ + hour * 60 * 60)), (u32_small (_ + min * 60)), (u32_small (_ + sec))
    by (unfold is_u32; lia). eexists. split; [reflexivity|].
  unfold unix_time. subst A. case_match; lia.
Qed.

(** ** Sleeping *)

(** [timer_msleep], [timer_usleep] and [timer_nsleep]: with interrupts on a
    delay of a tick or more is a sleep of the ticks that are complete in it; a
    shorter one is a loop of at most its share of [loops_per_tick] turns, and
    less than 200 turns short of it.  No product overflows below 10^13 units. *)
Theorem real_time_sleep_correct loops_per_tick num denom :
  denom = 1000 ∨ denom = 1000 * 1000 ∨ denom = 1000 * 1000 * 1000 → 0 ≤ num < 10 ^ 13 → is_u32 loops_per_tick →
  match real_time_sleep true loops_per_tick num denom with
  | Ok (Sleep ticks) => denom ≤ num * TIMER_FREQ ∧ ticks * denom ≤ num * TIMER_FREQ < (ticks + 1) * denom
  | Ok (Busy loops) => num * TIMER_FREQ < denom ∧ 0 ≤ loops ∧
      loops * denom ≤ loops_per_tick * num * TIMER_FREQ < (loops + 200) * denom
  | Err _ => False
  end.
Proof.
  intros Hd Hn Hl. assert (0 < denom ∧ denom mod 1000 = 0 ∧ denom = 1000 * (denom / 1000)) as (Hd0 & Hd1 & Hd2) by (destruct Hd as [->|[->| ->]]; done).
  unfold real_time_sleep. rewrite s64_small by (unfold is_s64; lia). rewrite Z.quot_div_nonneg by lia. cbn [ASSERT]. rewrite ok_bind.
  pose proof (Z.div_mod (num * TIMER_FREQ) denom ltac:(lia)) as E. pose proof (Z.mod_pos_bound (num * TIMER_FREQ) denom ltac:(lia)) as Hb.
  set (t := num * TIMER_FREQ / denom) in *. destruct (Z.ltb_spec 0 t) as [Ht|Ht]; [nia|].
  assert (t = 0) as E0 by (assert (0 ≤ t) by (subst t; apply Z.div_pos; lia); lia). assert (num * TIMER_FREQ < denom) as Hlt by nia.
  unfold real_time_delay. rewrite Z.rem_mod_nonneg, Hd1 by lia. cbn [Z.eqb ASSERT]. rewrite ok_bind.
  unfold is_u32 in Hl. set (e := denom / 1000) in *. assert (e ≤ 1000 * 1000) as He by (subst e; destruct Hd as [->|[->| ->]]; done). clearbody e.
  set (x := loops_per_tick * num). assert (0 ≤ x < 2 ^ 32 * 10 ^ 7) as Hx by (subst x; nia).
  rewrite (s64_small x) by (unfold is_s64; lia). rewrite (Z.quot_div_nonneg x) by lia.
  pose proof (Z.div_mod x 1000 ltac:(lia)) as E1. pose proof (Z.mod_pos_bound x 1000 ltac:(lia)). set (y := x / 1000) in *.
  rewrite (s64_small (y * TIMER_FREQ)) by (unfold is_s64; lia). rewrite (Z.quot_div_nonneg denom) by lia. rewrite Hd2.
  replace (1000 * e / 1000) with e by (Z.div_mod_to_equations; lia). rewrite (Z.quot_div_nonneg _ e) by lia.
  pose proof (Z.div_mod (y * TIMER_FREQ) e ltac:(lia)) as E2. pose proof (Z.mod_pos_bound (y * TIMER_FREQ) e ltac:(lia)). set (q := y * TIMER_FREQ / e) in *.
  fold x. split; [lia|]. split; [subst q; apply Z.div_pos; lia|]. nia.
Qed.

(** *** Witnesses *)

Lemma pit_witness : pit_count 100 = 11932 ∧ ∃ p, pit_configure_channel 0 2 100 (Pit (repeat (Channel 0 0 None) 3) 0) = Ok p ∧ channels p !! 0%nat = Some (Channel 2 11932 None).
Proof.
  split; [reflexivity|]. destruct (pit_correct 0 2 100 (Pit (repeat (Channel 0 0 None) 3) 0)) as (p & E & _ & C & _); [lia|lia|reflexivity|].
  exists p. split; [exact E|]. rewrite C. reflexivity.
Defined.

Lemma calibrate_witness : ∃ v, timer_calibrate 1200 true = Ok v ∧ 1024 ≤ v < 2048.
Proof. destruct (calibrate_correct 1200 10) as (v & E & Hv); [lia|lia|]. exists v. split; [exact E|exact Hv]. Defined.

Lemma overestimate_witness : timer_calibrate 1536 true = Ok 2046.
Proof. exact (calibrate_overestimates 1536 10 ltac:(lia) ltac:(lia)). Defined.

Lemma rtc_witness : ∃ t, rtc_get_time 1 (λ _ i, to_bcd (if i =? 0 then 0 else if i =? 2 then 0 else if i =? 4 then 0 else if i =? 7 then 1 else if i =? 8 then 1 else (0 + 70) mod 100)) = Ok t ∧
  26 * 86400 ≤ t.
Proof.
  destruct (rtc_late 0 0 0 1 1 0) as (t & E & Ht); [lia..|]. exists t. split; [exact E|]. vm_compute (unix_time 0 0 0 1 1 0) in Ht. lia.
Defined.

Lemma sleep_witness : real_time_sleep true 1000 25 1000 = Ok (Sleep 2) ∧ 2 * 1000 ≤ 25 * TIMER_FREQ.
Proof.
  assert (real_time_sleep true 1000 25 1000 = Ok (Sleep 2)) as E by reflexivity. split; [exact E|].
  pose proof (real_time_sleep_correct 1000 25 1000 ltac:(lia) ltac:(lia) ltac:(by split)) as H. rewrite E in H. lia.
Defined.
