(* ===== verification/Vga.v ===== *)
(** * devices/vga.c: the text display

    The frame buffer is the 4000 bytes at 0xb8000: character and attribute of
    each cell, row by row.  The cursor of the hardware is in two registers of
    the CRT controller, behind an index port.  A store outside the frame
    buffer is a fault of the model. *)

From S2P Require Import Prelude Vaddr.

Abbreviation COL_CNT := 80.
Abbreviation ROW_CNT := 25.
Abbreviation GRAY_ON_BLACK := 7.

(** ** Hardware *)

(** The CRT controller: the register that is selected, the registers. *)
Record crtc := Crtc { index : Z; cursor_high : Z; cursor_low : Z }.

Definition crtc_outb (port v : Z) (h : crtc) : crtc :=
  if port =? 0x3d4 then Crtc (u8 v) (cursor_high h) (cursor_low h)
  else if index h =? 0x0e then Crtc (index h) (u8 v) (cursor_low h)
  else if index h =? 0x0f then Crtc (index h) (cursor_high h) (u8 v)
  else h.
Definition crtc_inb (h : crtc) : Z :=
  if index h =? 0x0e then cursor_high h else if index h =? 0x0f then cursor_low h else 0.
(** A 16-bit store writes the low byte to the port, the high byte to the next one. *)
Definition crtc_outw (port v : Z) (h : crtc) : crtc := crtc_outb (port + 1) (Z.shiftr v 8) (crtc_outb port v h).

(** ** State *)

Record vga := Vga {
  fb : list Z;
  cx : Z;
  cy : Z;
  inited : bool;
  regs : crtc;
  intr : bool;       (* interrupts are on *)
  beeps : Z;         (* how often the speaker was on *)
}.

Definition set_fb (l : list Z) (v : vga) : vga := Vga l (cx v) (cy v) (inited v) (regs v) (intr v) (beeps v).
Definition set_cx (x : Z) (v : vga) : vga := Vga (fb v) x (cy v) (inited v) (regs v) (intr v) (beeps v).
Definition set_cy (y : Z) (v : vga) : vga := Vga (fb v) (cx v) y (inited v) (regs v) (intr v) (beeps v).
Definition set_regs (h : crtc) (v : vga) : vga := Vga (fb v) (cx v) (cy v) (inited v) h (intr v) (beeps v).
Definition set_intr (b : bool) (v : vga) : vga := Vga (fb v) (cx v) (cy v) (inited v) (regs v) b (beeps v).

(** [fb[y][x][k] = c]. *)
Definition poke (y x k c : Z) (v : vga) : res vga :=
  let i := (y * COL_CNT + x) * 2 + k in
  _ ← deref (fb v !! Z.to_nat i);
  Ok (set_fb (<[Z.to_nat i := u8 c]> (fb v)) v).

(** ** Operations *)

Definition clear_row (y : Z) (v : vga) : res vga :=
  for_up 80 0 (λ x v, v ← poke y x 0 32 v; poke y x 1 GRAY_ON_BLACK v) v.

Definition move_cursor (v : vga) : vga :=
  let cp := wrap 16 (cx v + COL_CNT * cy v) in
  let h := crtc_outw 0x3d4 (Z.lor 0x0e (Z.land cp 0xff00)) (regs v) in
  let h := crtc_outw 0x3d4 (Z.lor 0x0f (wrap 16 (Z.shiftl cp 8))) h in
  set_regs h v.

Definition find_cursor (v : vga) : vga :=
  let h := crtc_outb 0x3d4 0x0e (regs v) in
  let cp := wrap 16 (Z.shiftl (crtc_inb h) 8) in
  let h := crtc_outb 0x3d4 0x0f h in
  let cp := Z.lor cp (crtc_inb h) in
  set_cx (cp mod COL_CNT) (set_cy (cp / COL_CNT) (set_regs h v)).

Definition init (v : vga) : vga :=
  if inited v then v else
  let v := find_cursor v in
  Vga (fb v) (cx v) (cy v) true (regs v) (intr v) (beeps v).

Definition newline (v : vga) : res vga :=
  let v := set_cx 0 v in
  let v := set_cy (u32 (cy v + 1)) v in
  if ROW_CNT <=? cy v then
    let v := set_cy (ROW_CNT - 1) v in
    l ← mem_copy (fb v) 0 (fb v) (COL_CNT * 2) (COL_CNT * 2 * (ROW_CNT - 1));
    clear_row (ROW_CNT - 1) (set_fb l v)
  else Ok v.

Definition cls (v : vga) : res vga :=
  v ← for_up 25 0 clear_row v;
  Ok (move_cursor (set_cx 0 (set_cy 0 v))).

(** [speaker_beep] does nothing when interrupts are off. *)
Definition speaker_beep (v : vga) : vga :=
  if intr v then Vga (fb v) (cx v) (cy v) (inited v) (regs v) (intr v) (beeps v + 1) else v.

Definition vga_putc (c : Z) (v : vga) : res vga :=
  let old_level := intr v in
  let v := set_intr false v in
  let v := init v in
  v ← (if c =? 10 then newline v
       else if c =? 12 then cls v
       else if c =? 8 then Ok (if 0 <? cx v then set_cx (cx v - 1) v else v)
       else if c =? 13 then Ok (set_cx 0 v)
       else if c =? 9 then
         let v := set_cx (ROUND_UP (cx v + 1) 8) v in
         if COL_CNT <=? cx v then newline v else Ok v
       else if c =? 7 then
         let v := set_intr old_level v in
         let v := speaker_beep v in
         Ok (set_intr false v)
       else
         v ← poke (cy v) (cx v) 0 c v;
         v ← poke (cy v) (cx v) 1 GRAY_ON_BLACK v;
         let v := set_cx (cx v + 1) v in
         if COL_CNT <=? cx v then newline v else Ok v);
  let v := move_cursor v in
  Ok (set_intr old_level v).

Fixpoint vga_puts (l : list Z) (v : vga) : res vga :=
  match l with [] => Ok v | c :: l => v ← vga_putc c v; vga_puts l v end.

(** ** The reference: a terminal

    The text of the display is its 2000 characters, row by row. *)

Record term := Term { text : list Z; col : Z; row : Z }.

Definition t_newline (t : term) : term :=
  if row t + 1 <? 25 then Term (text t) 0 (row t + 1)
  else Term (drop 80 (text t) ++ repeat 32 80) 0 24.

Definition t_putc (c : Z) (t : term) : term :=
  match c with
  | 7 => t
  | 8 => Term (text t) (Z.max 0 (col t - 1)) (row t)
  | 9 => if col t <? 72 then Term (text t) (8 * (col t / 8 + 1)) (row t) else t_newline t
  | 10 => t_newline t
  | 12 => Term (repeat 32 2000) 0 0
  | 13 => Term (text t) 0 (row t)
  | _ =>
      let t' := Term (<[Z.to_nat (80 * row t + col t) := u8 c]> (text t)) (col t + 1) (row t) in
      if col t =? 79 then t_newline t' else t'
  end.

Fixpoint evens (l : list Z) : list Z := match l with a :: _ :: l => a :: evens l | _ => [] end.

(** The display shows [t]: the cursor is inside it. *)
Record shows (v : vga) (t : term) : Prop := {
  sh_text : evens (fb v) = text t;
  sh_length : length (fb v) = 4000%nat;
  sh_col : cx v = col t;
  sh_row : cy v = row t;
  sh_col_range : 0 ≤ col t < 80;
  sh_row_range : 0 ≤ row t < 25;
}.

(** Where the hardware shows the cursor. *)
Definition hw_cursor (v : vga) : Z := 256 * cursor_high (regs v) + cursor_low (regs v).

(** ** Cells *)

Lemma pair_ind (P : list Z → Prop) : P [] → (∀ a, P [a]) → (∀ a b l, P l → P (a :: b :: l)) → ∀ l, P l.
Proof. intros H0 H1 H2. fix IH 1. intros [|a [|b l]]; [done|done|by apply H2]. Qed.

Lemma evens_even l i c : evens (<[(2 * i)%nat := c]> l) = <[i := c]> (evens l).
Proof.
  revert i. induction l as [|a|a b l IH] using pair_ind; intros i; [done| |].
  - destruct i as [|i]; [done|]. by replace (2 * S i)%nat with (S (2 * i + 1)) by lia.
  - destruct i as [|i]; [done|]. replace (2 * S i)%nat with (S (S (2 * i))) by lia. cbn. f_equal. apply IH.
Qed.

Lemma evens_odd l i c : evens (<[(2 * i + 1)%nat := c]> l) = evens l.
Proof.
  revert i. induction l as [|a|a b l IH] using pair_ind; intros i; [done| |].
  - by replace (2 * i + 1)%nat with (S (2 * i)) by lia.
  - destruct i as [|i]; [done|]. replace (2 * S i + 1)%nat with (S (S (2 * i + 1))) by lia. cbn. f_equal. apply IH.
Qed.

Lemma evens_drop l i : evens (drop (2 * i) l) = drop i (evens l).
Proof.
  revert i. induction l as [|a|a b l IH] using pair_ind; intros i; [by destruct i| |].
  - destruct i as [|i]; [done|]. replace (2 * S i)%nat with (S (2 * i + 1)) by lia. cbn. by rewrite drop_nil.
  - destruct i as [|i]; [done|]. replace (2 * S i)%nat with (S (S (2 * i))) by lia. apply IH.
Qed.

Lemma evens_length l : length (evens l) = (length l / 2)%nat.
Proof.
  induction l as [|a|a b l IH] using pair_ind; [done|done|]. cbn [evens length]. rewrite IH.
  replace (S (S (length l))) with (length l + 1 * 2)%nat by lia. rewrite Nat.div_add by done. lia.
Qed.

Lemma evens_app l k : Nat.even (length l) = true → evens (l ++ k) = evens l ++ evens k.
Proof. induction l as [|a|a b l IH] using pair_ind; intros Hl; [done|done|]. cbn. f_equal. by apply IH. Qed.

(** Two stores set a cell. *)
Lemma poke_cell y x c v : length (fb v) = 4000%nat → 0 ≤ x < 80 → 0 ≤ y < 25 →
  ∃ l, (v ← poke y x 0 c v; poke y x 1 GRAY_ON_BLACK v) = Ok (set_fb l v) ∧ length l = 4000%nat ∧
    evens l = <[Z.to_nat (80 * y + x) := u8 c]> (evens (fb v)).
Proof.
  intros Hl Hx Hy. unfold poke.
  destruct (fb v !! Z.to_nat ((y * 80 + x) * 2 + 0)) as [a|] eqn:Ea; [|apply lookup_ge_None in Ea; lia].
  cbn [deref mbind res_bind fb set_fb]. rewrite list_lookup_insert_ne by lia.
  destruct (fb v !! Z.to_nat ((y * 80 + x) * 2 + 1)) as [b|] eqn:Eb; [|apply lookup_ge_None in Eb; lia].
  cbn [deref mbind res_bind]. eexists. split; [reflexivity|]. split; [by rewrite !length_insert|].
  replace (Z.to_nat ((y * 80 + x) * 2 + 1)) with (2 * Z.to_nat (80 * y + x) + 1)%nat by lia.
  replace (Z.to_nat ((y * 80 + x) * 2 + 0)) with (2 * Z.to_nat (80 * y + x))%nat by lia.
  by rewrite evens_odd, evens_even.
Qed.

(** ** Rows *)

Lemma clear_cells y n : ∀ x v, length (fb v) = 4000%nat → 0 ≤ y < 25 → 0 ≤ x → x + Z.of_nat n ≤ 80 →
  ∃ l, for_up n x (λ x v, v ← poke y x 0 32 v; poke y x 1 GRAY_ON_BLACK v) v = Ok (set_fb l v) ∧ length l = 4000%nat ∧
    let i := Z.to_nat (80 * y + x) in evens l = take i (evens (fb v)) ++ repeat 32 n ++ drop (i + n) (evens (fb v)).
Proof.
  induction n as [|n IH]; intros x v Hl Hy Hx Hn.
  { exists (fb v). split; [by destruct v|]. split; [done|]. cbn. by rewrite Nat.add_0_r, take_drop. }
  rewrite for_up_S. destruct (poke_cell y x 32 v Hl) as (l1 & -> & Hl1 & E1); [lia|done|]. rewrite ok_bind.
  destruct (IH (x + 1) (set_fb l1 v)) as (l2 & -> & Hl2 & E2); [done|done|lia|lia|]. exists l2. split; [done|]. split; [done|].
  cbv zeta in *. rewrite E2. cbn [fb set_fb]. rewrite E1. change (u8 32) with 32.
  assert (Z.to_nat (80 * y + x) < length (evens (fb v)))%nat as Hlt.
  { rewrite evens_length, Hl. change (4000 / 2)%nat with 2000%nat. lia. }
  replace (Z.to_nat (80 * y + (x + 1))) with (S (Z.to_nat (80 * y + x))) by lia.
  rewrite (take_S_r _ _ 32) by (by apply list_lookup_insert_eq). rewrite take_insert_ge by lia.
  rewrite drop_insert_lt by lia. rewrite <- app_assoc. cbn [repeat app]. by rewrite Nat.add_succ_r.
Qed.

Lemma clear_row_ok y v : length (fb v) = 4000%nat → 0 ≤ y < 25 →
  ∃ l, clear_row y v = Ok (set_fb l v) ∧ length l = 4000%nat ∧
    evens l = take (80 * Z.to_nat y) (evens (fb v)) ++ repeat 32 80 ++ drop (80 * Z.to_nat y + 80) (evens (fb v)).
Proof.
  intros Hl Hy. destruct (clear_cells y 80 0 v Hl Hy) as (l & E1 & E2 & E3); [lia|lia|]. exists l. split; [exact E1|].
  split; [done|]. cbv zeta in E3. by replace (Z.to_nat (80 * y + 0)) with (80 * Z.to_nat y)%nat in E3 by lia.
Qed.

Lemma clear_rows n : ∀ v, length (fb v) = 4000%nat → (n ≤ 25)%nat →
  ∃ l, for_up n 0 clear_row v = Ok (set_fb l v) ∧ length l = 4000%nat ∧
    evens l = repeat 32 (80 * n) ++ drop (80 * n) (evens (fb v)).
Proof.
  intros v Hl. assert (∀ m k v, length (fb v) = 4000%nat → (k + m ≤ 25)%nat → take (80 * k) (evens (fb v)) = repeat 32 (80 * k) →
    ∃ l, for_up m (Z.of_nat k) clear_row v = Ok (set_fb l v) ∧ length l = 4000%nat ∧
      evens l = repeat 32 (80 * (k + m)) ++ drop (80 * (k + m)) (evens (fb v))) as H.
  { clear. induction m as [|m IH]; intros k v Hl Hk Ht.
    { exists (fb v). split; [by destruct v|]. split; [done|]. rewrite Nat.add_0_r, <- Ht. by rewrite take_drop. }
    rewrite for_up_S. destruct (clear_row_ok (Z.of_nat k) v Hl) as (l1 & -> & Hl1 & E1); [lia|]. rewrite ok_bind.
    rewrite Nat2Z.id, Ht in E1. replace (Z.of_nat k + 1) with (Z.of_nat (S k)) by lia.
    destruct (IH (S k) (set_fb l1 v)) as (l2 & -> & Hl2 & E2); [done|lia| |].
    - cbn [fb set_fb]. rewrite E1, app_assoc, <- repeat_app. replace (80 * S k)%nat with (80 * k + 80)%nat by lia.
      apply take_app_length'. by rewrite repeat_length.
    - exists l2. split; [done|]. split; [done|]. rewrite E2. cbn [fb set_fb]. rewrite E1.
      replace (S k + m)%nat with (k + S m)%nat by lia. f_equal. rewrite app_assoc, <- repeat_app.
      rewrite drop_app_ge by (rewrite repeat_length; lia). rewrite drop_drop, repeat_length. f_equal. lia. }
  intros Hn. apply (H n 0%nat v Hl); [lia|done].
Qed.

Lemma scroll_ok l : length l = 4000%nat → ∃ k, mem_copy l 0 l (COL_CNT * 2) (COL_CNT * 2 * (ROW_CNT - 1)) = Ok k ∧
  length k = 4000%nat ∧ take 1920 (evens k) = drop 80 (evens l).
Proof.
  intros Hl. unfold mem_copy. replace (_ && _) with true by (rewrite Hl; reflexivity). eexists. split; [reflexivity|].
  split; [by rewrite length_inserts|]. change (Z.to_nat 0) with 0%nat.
  change (Z.to_nat (COL_CNT * 2)) with 160%nat. set (a := take (Z.to_nat _) _).
  assert (a = drop 160 l) as Ea by (apply take_ge; rewrite length_drop, Hl; done).
  assert (length a = 3840%nat) as La by (rewrite Ea, length_drop, Hl; done).
  rewrite list_inserts_alt by (rewrite La, Hl; lia). rewrite take_0, app_nil_l.
  rewrite evens_app by (rewrite La; reflexivity). rewrite take_app_length' by (rewrite evens_length, La; reflexivity).
  rewrite Ea. exact (evens_drop l 80).
Qed.

Lemma newline_ok v t : shows v t → ∃ w, newline v = Ok w ∧ shows w (t_newline t) ∧ intr w = intr v ∧ inited w = inited v ∧ beeps w = beeps v.
Proof.
  intros [T1 T2 T3 T4 T5 T6]. unfold newline, t_newline. cbn [cy set_cx set_cy]. rewrite T4, u32_small by c_lia.
  destruct (Z.ltb_spec (row t + 1) 25) as [Hr|Hr].
  { rewrite (proj2 (Z.leb_gt _ _)) by lia. eexists. split; [reflexivity|]. split; [|done]. by split; cbn; try lia. }
  rewrite (proj2 (Z.leb_le _ _)) by lia. cbn [fb set_cx set_cy].
  destruct (scroll_ok (fb v) T2) as (k & -> & Hk & Ek). rewrite ok_bind. set (w := set_fb k _).
  destruct (clear_row_ok 24 w Hk) as (l & E & Hl & El); [lia|]. change (ROW_CNT - 1) with 24. rewrite E. eexists. split; [reflexivity|].
  split; [|done]. split; cbn [fb cx cy set_fb text col row w set_cx set_cy]; try lia.
  rewrite El. change (80 * Z.to_nat 24)%nat with 1920%nat. cbn [fb w set_fb]. rewrite Ek, T1. f_equal.
  rewrite drop_ge; [by rewrite app_nil_r|]. by rewrite evens_length, Hk.
Qed.

Lemma cls_ok v t : shows v t → ∃ w, cls v = Ok w ∧ shows w (Term (repeat 32 2000) 0 0) ∧ intr w = intr v ∧ inited w = inited v ∧ beeps w = beeps v.
Proof.
  intros [T1 T2 T3 T4 T5 T6]. unfold cls. destruct (clear_rows 25 v T2) as (l & -> & Hl & El); [lia|]. rewrite ok_bind.
  eexists. split; [reflexivity|]. split; [|done]. split; cbn [fb cx cy set_fb text col row set_cx set_cy move_cursor set_regs]; try lia.
  rewrite El, drop_ge; [by rewrite app_nil_r|]. by rewrite evens_length, T2.
Qed.

(** ** The hardware's cursor *)

Lemma cursor_bytes cp : 0 ≤ cp < 2000 →
  u8 (Z.lor 0x0e (Z.land cp 0xff00)) = 0x0e ∧ u8 (Z.shiftr (Z.lor 0x0e (Z.land cp 0xff00)) 8) = cp / 256 ∧
  u8 (Z.lor 0x0f (wrap 16 (Z.shiftl cp 8))) = 0x0f ∧ u8 (Z.shiftr (Z.lor 0x0f (wrap 16 (Z.shiftl cp 8))) 8) = cp mod 256.
Proof.
  assert (forallb (λ cp, (u8 (Z.lor 0x0e (Z.land cp 0xff00)) =? 0x0e) && (u8 (Z.shiftr (Z.lor 0x0e (Z.land cp 0xff00)) 8) =? cp / 256) &&
    (u8 (Z.lor 0x0f (wrap 16 (Z.shiftl cp 8))) =? 0x0f) && (u8 (Z.shiftr (Z.lor 0x0f (wrap 16 (Z.shiftl cp 8))) 8) =? cp mod 256))
    (seqZ 0 2000) = true) as H by (vm_compute; reflexivity).
  intros Hcp. rewrite forallb_forall in H. specialize (H cp). rewrite !andb_true_iff, !Z.eqb_eq in H.
  destruct H as [[[H1 H2] H3] H4]; [|done]. apply list_elem_of_In, elem_of_seqZ. lia.
Qed.

Lemma move_cursor_ok v t : shows v t → hw_cursor (move_cursor v) = 80 * row t + col t.
Proof.
  intros [T1 T2 T3 T4 T5 T6]. unfold hw_cursor, move_cursor. rewrite T3, T4.
  replace (wrap 16 (col t + COL_CNT * row t)) with (80 * row t + col t) by c_lia. set (cp := 80 * row t + col t).
  destruct (cursor_bytes cp) as (C1 & C2 & C3 & C4); [lia|]. unfold crtc_outw, crtc_outb. cbn [regs set_regs].
  rewrite C1, C2, C3, C4. change (0x3d4 =? 0x3d4) with true. change (0x3d4 + 1 =? 0x3d4) with false.
  cbn [index cursor_high cursor_low]. change (15 =? 14) with false. change (14 =? 14) with true. change (15 =? 15) with true.
  cbn [cursor_high cursor_low]. c_lia.
Qed.

Lemma word_bytes a b : 0 ≤ a < 8 → 0 ≤ b < 256 → Z.lor (wrap 16 (Z.shiftl a 8)) b = 256 * a + b.
Proof.
  assert (forallb (λ a, forallb (λ b, Z.lor (wrap 16 (Z.shiftl a 8)) b =? 256 * a + b) (seqZ 0 256)) (seqZ 0 8) = true) as H
    by (vm_compute; reflexivity).
  intros Ha Hb. rewrite forallb_forall in H. specialize (H a). rewrite forallb_forall in H.
  apply Z.eqb_eq, H; apply list_elem_of_In, elem_of_seqZ; lia.
Qed.

(** The first character finds the cursor where the hardware has it. *)
Lemma init_shows v : inited v = false → length (fb v) = 4000%nat → is_u8 (cursor_high (regs v)) → is_u8 (cursor_low (regs v)) →
  hw_cursor v < 2000 → shows (init v) (Term (evens (fb v)) (hw_cursor v mod 80) (hw_cursor v / 80)).
Proof.
  intros Hi Hl Hh Hlo Hc. unfold init. rewrite Hi. unfold find_cursor, crtc_outb, crtc_inb.
  change (0x3d4 =? 0x3d4) with true. cbn [index cursor_high cursor_low]. change (u8 14) with 14. change (u8 15) with 15.
  change (15 =? 14) with false. change (14 =? 14) with true. change (15 =? 15) with true.
  unfold is_u8, hw_cursor in *. rewrite word_bytes by lia. split; cbn; try done; c_lia.
Qed.

(** ** Characters *)

(** What the display shows once it is initialised. *)
Definition displays (v : vga) (t : term) : Prop := shows (init v) t.

Lemma init_done v : inited (init v) = true.
Proof. unfold init. by destruct (inited v) eqn:E. Qed.

Lemma init_id v : inited v = true → init v = v.
Proof. intros E. unfold init. by rewrite E. Qed.

Lemma init_intr b v : init (set_intr b v) = set_intr b (init v).
Proof. unfold init. cbn [inited set_intr]. by destruct (inited v). Qed.

Lemma shows_intr b v t : shows v t → shows (set_intr b v) t.
Proof. by intros [T1 T2 T3 T4 T5 T6]. Qed.

Lemma newline_cx x v : newline (set_cx x v) = newline v.
Proof. done. Qed.

Lemma poke_pos y x k c v w : poke y x k c v = Ok w → cx w = cx v ∧ cy w = cy v.
Proof. unfold poke. intros E. by inv_res. Qed.

Lemma put_ok c v t : shows v t → ∃ w,
  (v ← poke (cy v) (cx v) 0 c v; v ← poke (cy v) (cx v) 1 GRAY_ON_BLACK v;
   let v := set_cx (cx v + 1) v in if COL_CNT <=? cx v then newline v else Ok v) = Ok w ∧
  shows w (let t' := Term (<[Z.to_nat (80 * row t + col t) := u8 c]> (text t)) (col t + 1) (row t) in
           if col t =? 79 then t_newline t' else t') ∧
  intr w = intr v ∧ inited w = inited v ∧ beeps w = beeps v.
Proof.
  intros [T1 T2 T3 T4 T5 T6]. rewrite T3, T4. destruct (poke_cell (row t) (col t) c v T2 T5 T6) as (l & E & Hl & El).
  apply bind_ok in E as (v1 & E1 & E2). destruct (poke_pos _ _ _ _ _ _ E1) as [P1 P2]. rewrite E1, ok_bind, P1, P2, T3, T4, E2, ok_bind.
  cbn [cx set_fb set_cx]. rewrite T3. set (w := set_fb l v).
  assert (∀ t', text t' = <[Z.to_nat (80 * row t + col t) := u8 c]> (text t) → 0 ≤ col t' < 80 → row t' = row t → shows (set_cx (col t') w) t') as Hw.
  { intros t' H1 H2 H3. split; cbn; try lia. by rewrite H1, El, T1. }
  cbv zeta. destruct (Z.eqb_spec (col t) 79) as [E79|E79].
  - rewrite (proj2 (Z.leb_le _ _)) by lia. rewrite newline_cx.
    destruct (newline_ok _ _ (Hw (Term (<[Z.to_nat (80 * row t + col t) := u8 c]> (text t)) 0 (row t)) eq_refl ltac:(cbn; lia) eq_refl)) as (w' & E & Hs & R).
    rewrite newline_cx in E. exists w'. split; [done|]. split; [exact Hs|exact R].
  - rewrite (proj2 (Z.leb_gt _ _)) by lia. eexists. split; [reflexivity|]. split; [|done].
    apply (Hw (Term _ (col t + 1) (row t))); [done|cbn; lia|done].
Qed.

(** What [vga_putc] does between saving and restoring the interrupt level. *)
Lemma tab_ok v t : shows v t → ∃ w,
  (let v := set_cx (ROUND_UP (cx v + 1) 8) v in if COL_CNT <=? cx v then newline v else Ok v) = Ok w ∧
  shows w (t_putc 9 t) ∧ intr w = intr v ∧ inited w = inited v ∧ beeps w = beeps v.
Proof.
  intros Hs. pose proof Hs as [T1 T2 T3 T4 T5 T6]. cbv zeta. cbn [cx set_cx t_putc]. rewrite T3.
  replace (ROUND_UP (col t + 1) 8) with (8 * (col t / 8 + 1)) by (unfold ROUND_UP, DIV_ROUND_UP; c_lia).
  destruct (Z.ltb_spec (col t) 72).
  - rewrite (proj2 (Z.leb_gt _ _)) by c_lia. eexists. split; [reflexivity|]. split; [|done]. split; cbn; try done; c_lia.
  - rewrite (proj2 (Z.leb_le _ _)) by c_lia. rewrite newline_cx. by apply newline_ok.
Qed.

Lemma default_char c t : c ≠ 7 → c ≠ 8 → c ≠ 9 → c ≠ 10 → c ≠ 12 → c ≠ 13 → t_putc c t =
  let t' := Term (<[Z.to_nat (80 * row t + col t) := u8 c]> (text t)) (col t + 1) (row t) in if col t =? 79 then t_newline t' else t'.
Proof. intros. unfold t_putc. by repeat case_match; subst. Qed.

Lemma vga_putc_ok c v t : displays v t → ∃ w, vga_putc c v = Ok w ∧ displays w (t_putc c t) ∧
  hw_cursor w = 80 * row (t_putc c t) + col (t_putc c t) ∧ intr w = intr v.
Proof.
  unfold displays. intros Hs. unfold vga_putc. cbv zeta. rewrite init_intr. pose proof (init_done v) as Hi.
  set (v1 := set_intr false (init v)). assert (shows v1 t) as Hs1 by (by apply shows_intr).
  apply (bind_total _ _ (λ w, shows w (t_putc c t) ∧ inited w = true)).
  - assert (inited v1 = true) as Hi1 by done. clearbody v1. clear Hs Hi. pose proof Hs1 as [T1 T2 T3 T4 T5 T6].
    assert (∀ (m : res vga) t', (∃ w, m = Ok w ∧ shows w t' ∧ intr w = intr v1 ∧ inited w = inited v1 ∧ beeps w = beeps v1) →
      ∃ w, m = Ok w ∧ shows w t' ∧ inited w = true) as Hweak by (intros m t' (w & E & Hw & _ & Hw' & _); exists w; by rewrite Hw').
    destruct (Z.eqb_spec c 10) as [->|?]; [by apply Hweak, newline_ok|].
    destruct (Z.eqb_spec c 12) as [->|?]; [by eapply Hweak, cls_ok|].
    destruct (Z.eqb_spec c 8) as [->|?].
    { eexists. split; [reflexivity|]. destruct (Z.ltb_spec 0 (cx v1)); (split; [|done]); split; cbn; try done; lia. }
    destruct (Z.eqb_spec c 13) as [->|?]; [eexists; split; [reflexivity|]; split; [|done]; split; cbn; try done; lia|].
    destruct (Z.eqb_spec c 9) as [->|?]; [by apply Hweak, tab_ok|].
    destruct (Z.eqb_spec c 7) as [->|?].
    { eexists. split; [reflexivity|]. unfold speaker_beep. cbn [intr set_intr]. by destruct (intr v). }
    rewrite default_char by done. by apply Hweak, put_ok.
  - intros w [Hw Hwi]. eexists. split; [reflexivity|]. rewrite init_intr, init_id by done.
    split; [|split; [by apply (move_cursor_ok w)|done]]. apply shows_intr. by destruct Hw.
Qed.

(** ** The theorem *)

(** C21. The display and the reference terminal are equivalent: from any display
    whose cursor is inside the screen, every sequence of characters, control
    characters included, is written without a store outside the frame buffer,
    leaves the text that the terminal has and the cursor, of the driver and of
    the hardware, where the terminal has it; the interrupt level is restored. *)
Theorem vga_equiv l v t : displays v t → hw_cursor v = 80 * row t + col t →
  let t' := fold_left (λ t c, t_putc c t) l t in
  ∃ w, vga_puts l v = Ok w ∧ displays w t' ∧ hw_cursor w = 80 * row t' + col t' ∧ intr w = intr v.
Proof.
  revert v t. induction l as [|c l IH]; intros v t Hd Hc; [by exists v|]. cbn.
  destruct (vga_putc_ok c v t Hd) as (w & -> & Hw & Hcw & Hiw). rewrite ok_bind.
  destruct (IH w (t_putc c t) Hw Hcw) as (w' & -> & H1 & H2 & H3). exists w'. by rewrite H3.
Qed.

(** The display as the loader leaves it, with the cursor in the last column. *)
Lemma vga_witness : ∃ w, vga_puts [65; 10; 66; 8; 67] (Vga (repeat 0 4000) 0 0 false (Crtc 0 7 207) true 0) = Ok w ∧
  displays w (Term (<[1920%nat := 67]> (<[1920%nat := 66]> (drop 80 (drop 80 (<[1999%nat := 65]> (repeat 0 2000)) ++ repeat 32 80) ++ repeat 32 80))) 1 24).
Proof.
  destruct (vga_equiv [65; 10; 66; 8; 67] (Vga (repeat 0 4000) 0 0 false (Crtc 0 7 207) true 0) (Term (repeat 0 2000) 79 24))
    as (w & E & Hw & _).
  - exact (init_shows (Vga (repeat 0 4000) 0 0 false (Crtc 0 7 207) true 0) eq_refl eq_refl ltac:(by split) ltac:(by split) eq_refl).
  - reflexivity.
  - exists w. split; [exact E|exact Hw].
Defined.
