(* ===== verification/Kbd.v ===== *)
(** * devices/kbd.c and devices/input.c: the keyboard

    The handler of the keyboard's interrupt turns scan codes into characters
    in the input buffer.  The buffer is the queue of at most
    [INTQ_BUFSIZE] - 1 bytes that Intq shows a [struct intq] to be. *)

From S2P Require Import Prelude Intq.

Record kbd := Kbd {
  left_shift : bool; right_shift : bool;
  left_alt : bool; right_alt : bool;
  left_ctrl : bool; right_ctrl : bool;
  caps_lock : bool;
  key_cnt : Z;
  buffer : list Z;
}.

(** The tables, from the first scan code on. *)
Definition keymap := list (Z * list Z).

Definition invariant_keymap : keymap :=
  [(0x01, [27]); (0x0e, [8]); (0x0f, [9; 81; 87; 69; 82; 84; 89; 85; 73; 79; 80]); (0x1c, [13]);
   (0x1e, [65; 83; 68; 70; 71; 72; 74; 75; 76]); (0x2c, [90; 88; 67; 86; 66; 78; 77]); (0x37, [42]); (0x39, [32]); (0x53, [127])].
Definition unshifted_keymap : keymap :=
  [(0x02, [49; 50; 51; 52; 53; 54; 55; 56; 57; 48; 45; 61]); (0x1a, [91; 93]); (0x27, [59; 39; 96]); (0x2b, [92]); (0x33, [44; 46; 47])].
Definition shifted_keymap : keymap :=
  [(0x02, [33; 64; 35; 36; 37; 94; 38; 42; 40; 41; 95; 43]); (0x1a, [123; 125]); (0x27, [58; 34; 126]); (0x2b, [124]); (0x33, [60; 62; 63])].

Fixpoint map_key (k : keymap) (scancode : Z) : option Z :=
  match k with
  | [] => None
  | (first_scancode, chars) :: k =>
      if (first_scancode <=? scancode) && (scancode <? first_scancode + Z.of_nat (length chars))
      then chars !! Z.to_nat (scancode - first_scancode)
      else map_key k scancode
  end.

Definition tolower (c : Z) : Z := if (65 <=? c) && (c <=? 90) then c + 32 else c.

Definition input_full (k : kbd) : bool := INTQ_BUFSIZE - 1 <=? Z.of_nat (length (buffer k)).
Definition input_putc (key : Z) (k : kbd) : res kbd :=
  _ ← ASSERT (negb (input_full k));
  Ok (Kbd (left_shift k) (right_shift k) (left_alt k) (right_alt k) (left_ctrl k) (right_ctrl k) (caps_lock k) (key_cnt k) (buffer k ++ [key])).

(** An ordinary character, after Ctrl, Shift and Alt. *)
Definition modified (shift alt ctrl caps : bool) (c : Z) : Z :=
  let c := if ctrl && (0x40 <=? c) && (c <? 0x60) then c - 0x40 else if Bool.eqb shift caps then tolower c else c in
  if alt then u8 (c + 0x80) else c.

Definition set_shift (code : Z) (down : bool) (k : kbd) : kbd :=
  let '(Kbd ls rs la ra lc rc caps n b) := k in
  if code =? 0x2a then Kbd down rs la ra lc rc caps n b
  else if code =? 0x36 then Kbd ls down la ra lc rc caps n b
  else if code =? 0x38 then Kbd ls rs down ra lc rc caps n b
  else if code =? 0xe038 then Kbd ls rs la down lc rc caps n b
  else if code =? 0x1d then Kbd ls rs la ra down rc caps n b
  else if code =? 0xe01d then Kbd ls rs la ra lc down caps n b
  else k.

(** [b1] is the byte read from the data register, [b2] the one that a second
    read would give. *)
Definition keyboard_interrupt (b1 b2 : Z) (k : kbd) : res kbd :=
  let shift := left_shift k || right_shift k in
  let alt := left_alt k || right_alt k in
  let ctrl := left_ctrl k || right_ctrl k in
  let code := if b1 =? 0xe0 then Z.lor (Z.shiftl b1 8) b2 else b1 in
  let release := negb (Z.land code 0x80 =? 0) in
  let code := Z.land code (Z.lnot 0x80) in
  if code =? 0x3a then
    Ok (if release then k
        else Kbd (left_shift k) (right_shift k) (left_alt k) (right_alt k) (left_ctrl k) (right_ctrl k) (negb (caps_lock k)) (key_cnt k) (buffer k))
  else
    match match map_key invariant_keymap code with
          | Some c => Some c
          | None => if shift then map_key shifted_keymap code else map_key unshifted_keymap code
          end with
    | Some c =>
        if release then Ok k
        else if (c =? 127) && ctrl && alt then Err EExit        (* shutdown_reboot *)
        else
          let c := modified shift alt ctrl (caps_lock k) c in
          if input_full k then Ok k
          else input_putc c (Kbd (left_shift k) (right_shift k) (left_alt k) (right_alt k) (left_ctrl k) (right_ctrl k) (caps_lock k) (key_cnt k + 1) (buffer k))
    | None => Ok (set_shift code (negb release) k)
    end.

(** ** The reference: a keyboard layout

    Key by key, the scan code and the characters without and with Shift. *)
Definition layout : list (Z * Z * Z) :=
  [(1, 27, 27); (2, 49, 33); (3, 50, 64); (4, 51, 35); (5, 52, 36); (6, 53, 37); (7, 54, 94); (8, 55, 38); (9, 56, 42);
   (10, 57, 40); (11, 48, 41); (12, 45, 95); (13, 61, 43); (14, 8, 8); (15, 9, 9); (16, 113, 81); (17, 119, 87); (18, 101, 69);
   (19, 114, 82); (20, 116, 84); (21, 121, 89); (22, 117, 85); (23, 105, 73); (24, 111, 79); (25, 112, 80); (26, 91, 123);
   (27, 93, 125); (28, 13, 13); (30, 97, 65); (31, 115, 83); (32, 100, 68); (33, 102, 70); (34, 103, 71); (35, 104, 72);
   (36, 106, 74); (37, 107, 75); (38, 108, 76); (39, 59, 58); (40, 39, 34); (41, 96, 126); (43, 92, 124); (44, 122, 90);
   (45, 120, 88); (46, 99, 67); (47, 118, 86); (48, 98, 66); (49, 110, 78); (50, 109, 77); (51, 44, 60); (52, 46, 62);
   (53, 47, 63); (55, 42, 42); (57, 32, 32); (83, 127, 127)].

Definition key (code : Z) : option (Z * Z) :=
  match list_find (λ '(n, _, _), n = code) layout with Some (_, (_, lo, up)) => Some (lo, up) | None => None end.

(** What a key types: Caps Lock is for letters only, Ctrl gives the control
    character where there is one, Alt sets the high bit. *)
Definition types (shift alt ctrl caps : bool) (lo up : Z) : Z :=
  let letter := (97 <=? lo) && (lo <=? 122) in
  let c := if letter then if xorb shift caps then up else lo else if shift then up else lo in
  let upper := if letter then up else c in
  let c := if ctrl && (64 <=? upper) && (upper <=? 95) then upper - 64 else c in
  if alt then c + 128 else c.

Definition code_char (shift : bool) (code : Z) : option Z :=
  match map_key invariant_keymap code with
  | Some c => Some c
  | None => if shift then map_key shifted_keymap code else map_key unshifted_keymap code
  end.

Definition bools : list bool := [false; true].
Definition agree (code : Z) : bool :=
  forallb (λ shift, bool_decide (is_Some (key code) ↔ is_Some (code_char shift code)) &&
    bool_decide (code_char shift code = Some 127 ↔ code = 0x53) &&
    forallb (λ alt, forallb (λ ctrl, forallb (λ caps,
      bool_decide (modified shift alt ctrl caps <$> code_char shift code = (λ '(lo, up), types shift alt ctrl caps lo up) <$> key code)) bools) bools) bools) bools.

Lemma in_bools b : b ∈ bools.
Proof. destruct b; [right; left|left]. Qed.

Lemma tables_agree code : 0 ≤ code < 128 → agree code = true.
Proof.
  assert (forallb agree (seqZ 0 128) = true) as H by (vm_compute; reflexivity). rewrite forallb_forall in H.
  intros Hc. apply H, list_elem_of_In, elem_of_seqZ. lia.
Qed.

Lemma agree_spec code shift alt ctrl caps : 0 ≤ code < 128 →
  (code_char shift code = Some 127 ↔ code = 0x53) ∧
  modified shift alt ctrl caps <$> code_char shift code = (λ '(lo, up), types shift alt ctrl caps lo up) <$> key code.
Proof.
  intros Hc. pose proof (tables_agree code Hc) as H. unfold agree in H. rewrite forallb_forall in H.
  specialize (H shift (proj1 (list_elem_of_In _ _) (in_bools _))). apply andb_true_iff in H as [[_ H1%bool_decide_eq_true]%andb_true_iff H]. split; [done|].
  rewrite forallb_forall in H. specialize (H alt (proj1 (list_elem_of_In _ _) (in_bools _))).
  rewrite forallb_forall in H. specialize (H ctrl (proj1 (list_elem_of_In _ _) (in_bools _))).
  rewrite forallb_forall in H. specialize (H caps (proj1 (list_elem_of_In _ _) (in_bools _))). by apply bool_decide_eq_true in H.
Qed.

Lemma code_bits b1 : 0 ≤ b1 < 256 → Z.land b1 (Z.lnot 0x80) = b1 mod 128 ∧ negb (Z.land b1 0x80 =? 0) = (128 <=? b1).
Proof.
  assert (forallb (λ b, (Z.land b (Z.lnot 0x80) =? b mod 128) && Bool.eqb (negb (Z.land b 0x80 =? 0)) (128 <=? b)) (seqZ 0 256) = true) as H
    by (vm_compute; reflexivity).
  intros Hb. rewrite forallb_forall in H. specialize (H b1). rewrite andb_true_iff, Z.eqb_eq, eqb_true_iff in H.
  apply H, list_elem_of_In, elem_of_seqZ. lia.
Qed.

(** The same for a code with prefix, which no table has. *)
Definition prefixed_ok (b : Z) : bool :=
  let code := Z.lor (Z.shiftl 0xe0 8) b in
  (Z.land code (Z.lnot 0x80) =? 0xe000 + b mod 128) && Bool.eqb (negb (Z.land code 0x80 =? 0)) (128 <=? b) &&
  forallb (λ shift, bool_decide (code_char shift (0xe000 + b mod 128) = None)) bools.

Lemma prefixed_bits b shift : 0 ≤ b < 256 → let code := Z.lor (Z.shiftl 0xe0 8) b in
  Z.land code (Z.lnot 0x80) = 0xe000 + b mod 128 ∧ negb (Z.land code 0x80 =? 0) = (128 <=? b) ∧ code_char shift (0xe000 + b mod 128) = None.
Proof.
  assert (forallb prefixed_ok (seqZ 0 256) = true) as H by (vm_compute; reflexivity).
  intros Hb code. rewrite forallb_forall in H. specialize (H b ltac:(apply list_elem_of_In, elem_of_seqZ; lia)).
  unfold prefixed_ok in H. fold code in H. rewrite !andb_true_iff, Z.eqb_eq, eqb_true_iff in H. destruct H as [[-> ->] H].
  rewrite forallb_forall in H. specialize (H shift (proj1 (list_elem_of_In _ _) (in_bools _))). by apply bool_decide_eq_true in H.
Qed.

(** *** The modifiers of the layout *)

Inductive modifier := LeftShift | RightShift | LeftAlt | RightAlt | LeftCtrl | RightCtrl.
#[export] Instance modifier_eq_dec : EqDecision modifier.
Proof. solve_decision. Defined.

(** The keys on the right but for Shift send the prefix. *)
Definition modifier_of (prefix : bool) (code : Z) : option modifier :=
  match prefix, code with
  | false, 42 => Some LeftShift
  | false, 54 => Some RightShift
  | false, 56 => Some LeftAlt
  | true, 56 => Some RightAlt
  | false, 29 => Some LeftCtrl
  | true, 29 => Some RightCtrl
  | _, _ => None
  end.

Definition pressed (m : modifier) (k : kbd) : bool :=
  match m with
  | LeftShift => left_shift k
  | RightShift => right_shift k
  | LeftAlt => left_alt k
  | RightAlt => right_alt k
  | LeftCtrl => left_ctrl k
  | RightCtrl => right_ctrl k
  end.

(** [k'] is [k] but for the modifier of the key. *)
Definition modifies (prefix : bool) (code : Z) (down : bool) (k k' : kbd) : Prop :=
  (∀ m, pressed m k' = if bool_decide (modifier_of prefix code = Some m) then down else pressed m k) ∧
  caps_lock k' = caps_lock k ∧ key_cnt k' = key_cnt k ∧ buffer k' = buffer k.

Lemma modifier_code prefix code m : 0 ≤ code < 128 → modifier_of prefix code = Some m ↔
  (if prefix : bool then 0xe000 + code else code) = match m with LeftShift => 0x2a | RightShift => 0x36 | LeftAlt => 0x38 | RightAlt => 0xe038 | LeftCtrl => 0x1d | RightCtrl => 0xe01d end.
Proof.
  intros Hc. assert (forallb (λ c, forallb (λ p, forallb (λ m, bool_decide (modifier_of p c = Some m ↔
    (if p : bool then 0xe000 + c else c) = match m with LeftShift => 0x2a | RightShift => 0x36 | LeftAlt => 0x38 | RightAlt => 0xe038 | LeftCtrl => 0x1d | RightCtrl => 0xe01d end))
    [LeftShift; RightShift; LeftAlt; RightAlt; LeftCtrl; RightCtrl]) bools) (seqZ 0 128) = true) as H by (vm_compute; reflexivity).
  rewrite forallb_forall in H. specialize (H code ltac:(apply list_elem_of_In, elem_of_seqZ; lia)).
  rewrite forallb_forall in H. specialize (H prefix (proj1 (list_elem_of_In _ _) (in_bools _))).
  rewrite forallb_forall in H. specialize (H m). apply bool_decide_eq_true in H; [done|]. destruct m; cbn; tauto.
Qed.

Lemma set_shift_modifies prefix code down k : 0 ≤ code < 128 →
  modifies prefix code down k (set_shift (if prefix : bool then 0xe000 + code else code) down k).
Proof.
  intros Hc. pose proof (λ m, modifier_code prefix code m Hc) as Hm. set (c := if prefix then _ else _) in *. clearbody c.
  destruct k as [ls rs la ra lc rc caps n b]. unfold set_shift, modifies.
  repeat (case_match; [rewrite Z.eqb_eq in *; subst c; split; [|done]; intros m; rewrite (bool_decide_ext _ _ (Hm m)); by destruct m|]).
  rewrite Z.eqb_neq in *. split; [|done]. intros m. rewrite bool_decide_eq_false_2; [done|]. rewrite Hm. by destruct m.
Qed.

(** C33. The keyboard types what the layout says, for every key, with or without the
    prefix 0xe0, pressed or released: a key of the layout adds the character it
    types to the buffer when it is pressed, and is lost when the buffer is full;
    with Ctrl and Alt, Delete reboots; Caps Lock is switched by pressing it; a
    modifier is from then on held down or not, and nothing else changes; the
    other keys do nothing. *)
Theorem keyboard_equiv b1 b2 k : 0 ≤ b1 < 256 → 0 ≤ b2 < 256 →
  let prefix := b1 =? 0xe0 in
  let b := if prefix then b2 else b1 in
  let shift := pressed LeftShift k || pressed RightShift k in
  let alt := pressed LeftAlt k || pressed RightAlt k in
  let ctrl := pressed LeftCtrl k || pressed RightCtrl k in
  let r := keyboard_interrupt b1 b2 k in
  match if prefix then None else key (b mod 128) with
  | Some (lo, up) =>
      r = if 128 <=? b then Ok k
          else if (b =? 0x53) && ctrl && alt then Err EExit
          else if 63 <=? Z.of_nat (length (buffer k)) then Ok k
          else Ok (Kbd (left_shift k) (right_shift k) (left_alt k) (right_alt k) (left_ctrl k) (right_ctrl k) (caps_lock k) (key_cnt k + 1)
                     (buffer k ++ [types shift alt ctrl (caps_lock k) lo up]))
  | None =>
      if negb prefix && (b mod 128 =? 0x3a) then
        r = Ok (if 128 <=? b then k
                else Kbd (left_shift k) (right_shift k) (left_alt k) (right_alt k) (left_ctrl k) (right_ctrl k) (negb (caps_lock k)) (key_cnt k) (buffer k))
      else ∃ k', r = Ok k' ∧ modifies prefix (b mod 128) (b <? 128) k k'
  end.
Proof.
  intros Hb1 Hb2 prefix b shift alt ctrl r. subst r. unfold keyboard_interrupt. fold prefix. cbn [pressed] in shift, alt, ctrl. fold shift alt ctrl.
  assert (0 ≤ b < 256) as Hb by (unfold b; by destruct prefix). assert (0 ≤ b mod 128 < 128) as Hc by (apply Z.mod_pos_bound; lia).
  assert (negb (128 <=? b) = (b <? 128)) as Hrel by (destruct (Z.leb_spec 128 b), (Z.ltb_spec b 128); done || lia).
  destruct (Z.eqb_spec b1 0xe0) as [->|He]; subst b prefix; cbn [negb andb].
  { destruct (prefixed_bits b2 shift Hb) as (-> & -> & Hno). unfold code_char in Hno. rewrite Hno, Hrel, (proj2 (Z.eqb_neq _ 0x3a)) by lia.
    eexists. split; [done|]. by apply (set_shift_modifies true). }
  destruct (code_bits b1 Hb) as [-> ->].
  fold (code_char shift (b1 mod 128)). destruct (agree_spec (b1 mod 128) shift alt ctrl (caps_lock k) Hc) as [A1 A2].
  destruct (Z.eqb_spec (b1 mod 128) 0x3a) as [E|E].
  { rewrite E. change (key 58) with (@None (Z * Z)). done. }
  destruct (key (b1 mod 128)) as [[lo up]|]; destruct (code_char shift (b1 mod 128)) as [c|]; try discriminate A2.
  - cbn in A2. injection A2 as ->. destruct (Z.leb_spec 128 b1) as [Hr|Hp]; [done|].
    replace (c =? 127) with (b1 =? 0x53).
    2:{ rewrite Z.mod_small in A1 by lia. apply eq_true_iff_eq. rewrite !Z.eqb_eq. split; intros E'; [apply A1 in E'; by injection E'|apply A1; by rewrite E']. }
    destruct (_ && _); [done|]. unfold input_full, input_putc. change (INTQ_BUFSIZE - 1) with 63.
    destruct (63 <=? Z.of_nat (length (buffer k))) eqn:Ef; [done|]. unfold input_full. change (INTQ_BUFSIZE - 1) with 63. cbn [buffer]. by rewrite Ef.
  - rewrite Hrel. eexists. split; [done|]. by apply (set_shift_modifies false).
Qed.

Lemma keyboard_witness : keyboard_interrupt 0x1e 0 (Kbd true false false false false false false 0 []) =
    Ok (Kbd true false false false false false false 1 [65]) ∧
  ∃ k, keyboard_interrupt 0xe0 0x38 (Kbd true false false false false false false 0 []) = Ok k ∧ pressed RightAlt k = true ∧ pressed LeftAlt k = false.
Proof.
  split; [exact (keyboard_equiv 0x1e 0 (Kbd true false false false false false false 0 []) ltac:(lia) ltac:(lia))|].
  destruct (keyboard_equiv 0xe0 0x38 (Kbd true false false false false false false 0 []) ltac:(lia) ltac:(lia)) as (k & E & Hm & _).
  exists k. split; [exact E|]. split; [exact (Hm RightAlt)|exact (Hm LeftAlt)].
Defined.
